(* ===== verification/_CoqProject ===== *)
-Q . S2P
Prelude.v
CString.v
Ulib.v
Bio.v
Layout.v
Blocks.v
Log.v
LogBlocks.v
Ide.v
IdeTheorems.v
Fs.v
FsBlocks.v
FsInode.v
FsFile.v
FsIo.v
FsWrite.v
FsSmall.v
FsCache.v
FsDir.v
FsExample.v
FsTheorems.v
FsDirTheorems.v
FsPath.v
Mkfs.v
MkfsImage.v
MkfsFiles.v
MkfsTheorems.v
MkfsBoot.v
Memory.v
X86.v
Kalloc.v
Mp.v
Vm.v
Pipe.v
Kern.v
Entry.v
File.v
Crash.v
Sysarg.v
Sysfile.v
Exec.v
Boot.v
BootTheorems.v
Proc.v
Syscall.v
Segments.v
TrapEntry.v
Switch.v
Stubs.v
Devices.v
DevicesTheorems.v
Main.v
ProcTable.v
ProcRefine.v
ProcTheorems.v
VmEntries.v
VmSpace.v
VmAlloc.v
VmProc.v
VmCopy.v
SysargTheorems.v
SyscallTheorems.v
FileRefs.v
FileTheorems.v
Terminate.v
MainTheorems.v
Grep.v
Console.v
Kbd.v
Locks.v
Sched.v
Sh.v
Umalloc.v
UmallocTheorems.v
User.v
Programs.v
ProgramTheorems.v
ShRun.v
