(* ===== verification/Prelude.v ===== *)
(** * Verification of an xv6 with small files

    The program under [src/xv6andTestsandREADME/] is the xv6 teaching kernel
    for 32-bit x86, extended with small files (type [T_SFILE], whose bytes lie
    in the inode itself) and small directories (type [T_SDIR], which hold them),
    with counters of system calls, and with calls that report memory use.  This
    library is a shallow embedding of its C code in Rocq, with theorems on what
    the code does.  Definitions keep the names of the C functions.

    ** How the code is modelled

    A C function is a function in the monad [M S A := S -> outcome S A] of this
    file, on the state [S] of its component.  An [outcome] is [Ret a s] (the
    function returns [a] in state [s]), [Panic] (the kernel calls [panic], or a
    host program fails an assertion), [Blocked] (the thread would sleep where
    nothing in the state can wake it), or [Undef] (the code reads or writes
    outside an object, follows a null pointer, or a process faults).  An error
    code of the C function is part of [a].  [wp m Q s] says that [m] returns
    from [s], with a result that satisfies [Q]; so a theorem stated with [wp]
    excludes panics, faults and endless loops.  [wlp] says the same of a run
    that returns, and [wpo] speaks of the outcome itself.

    Machine integers are [Z] with the wrap-around written out ([u32], [u16],
    [u8], [i32], [i16]).  Bytes are numbers below 256; memory is a function
    from addresses to bytes, or a list of bytes for one object.  A pointer to an
    element of a fixed table is an index.  [for_] and the loops of the sources
    that are not structurally recursive take fuel; running out is the outcome
    [Undef "fuel"], and the theorems stated with [wp] show that the fuel given
    is enough.  It is the length of the buffer, path or line for scanners, the
    number of bytes still to copy for [readi], [writei], [copyout] and
    [iappend], the number of pages for the page loops, and the number of headers
    that fit in the heap for [malloc] and [free].

    Code that holds a spin lock from its beginning to its end, or to the point
    where it sleeps, runs as one step.  Where threads interleave, the steps are
    the rules of an inductive relation and the theorems quantify over all
    sequences of them: pipes, the process table, the page allocator, the
    console, the disk driver, the user heap, spin locks and sleep locks, the
    kernel between traps, kernel threads and processors, and the processes the
    shell creates.

    Assembly code is a list of instructions of a machine with registers, flags,
    descriptor tables and a byte memory (X86.v); the code that runs before the
    kernel has its address space is fetched from physical memory, through
    segmentation and paging (Entry.v).

    A user program sees the kernel through its system calls.  It is an
    interaction tree whose events are the calls of user.h (User.v); a loop is
    [ITree.iter].  [uwp] is its weakest precondition against a relation that
    says what the kernel may answer, and demands that the program ends.

    ** The parts

    _Disk, log and files._  Bio.v models bio.c with its list of buffers in
    order of use, over the memory disk of memide.c.  Layout.v has the constants
    and structures of fs.h, stat.h and param.h.  Log.v models log.c.  Blocks.v
    states what fs.c needs of the layer below it, as the classes [BlockLayer]
    (the operations), [BlockLayerOk] (their laws inside a transaction) and
    [TransactionsOk] (its beginning and end), and LogBlocks.v shows that the
    buffer cache with the log satisfies them.  Ide.v models the disk driver
    ide.c over the ports of a drive, and IdeTheorems.v relates it to memide.c.
    Fs.v models every function of fs.c over any block layer.  The proofs on it are in FsBlocks.v (blocks and
    the free map), FsInode.v (inodes on disk), FsFile.v ([bmap]), FsIo.v
    ([readi] and the loop of [writei]), FsWrite.v and FsSmall.v ([writei] on the
    two kinds of files), FsCache.v (the inode cache), FsDir.v (directories) and
    FsPath.v (paths); FsExample.v is a small file system used in concrete
    instances; FsTheorems.v and FsDirTheorems.v have the results.

    _The image builder._  Mkfs.v models mkfs.c; MkfsImage.v, MkfsFiles.v and
    MkfsTheorems.v show what the image contains, and MkfsBoot.v runs the kernel's
    [iinit], [initlog], [namei], [ilock] and [readi] on it, also after a crash.
    Crash.v follows a write through file.c, log.c, crashes and restarts.

    _Memory._  Memory.v has words and pages in byte memory.  Kalloc.v models
    kalloc.c and Vm.v models vm.c.  VmEntries.v and VmSpace.v read the page
    tables as a map from page numbers to pages, VmAlloc.v, VmProc.v and VmCopy.v
    have the results on growing, shrinking, copying and destroying address
    spaces.

    _Processes and system calls._  Kern.v is the state that the rest of the
    kernel shares; parts of it are reached with [onfs] and [onkm].  Pipe.v
    models the loops of pipe.c, File.v file.c and the life of a pipe, Sysarg.v
    the argument half of syscall.c, Sysfile.v sysfile.c, Exec.v exec.c and
    [loaduvm], Proc.v proc.c, Syscall.v the dispatch of syscall.c, sysproc.c and
    trap.c.  ProcTable.v is the process table as a state machine whose steps are
    the sections under [ptable.lock], ProcRefine.v the simulation that relates
    proc.c to it.  FileRefs.v follows the references to open files through every
    function that a trap can reach.  The results are in ProcTheorems.v,
    SysargTheorems.v, SyscallTheorems.v, FileTheorems.v and Terminate.v.
    Locks.v models spinlock.c and sleeplock.c; Sched.v models [sched], its
    callers and the scheduler loops of several processors, with [ptable.lock]
    and the interrupt flags.

    _The processor._  X86.v is the machine: bit fields and descriptors of mmu.h,
    registers, instructions and the delivery of interrupts.  Segments.v models
    [seginit], [switchuvm], [tvinit], [idtinit] and [mpenter] with the inline
    assembly of x86.h; TrapEntry.v vectors.S and trapasm.S; Switch.v swtch.S and
    the stacks that [allocproc] makes; Stubs.v usys.S, the beginning of
    initcode.S and the numbers of syscall.h.

    _Starting up._  Entry.v models bootasm.S, entry.S, entryother.S and the boot
    page table of main.c.  Boot.v and BootTheorems.v are the boot loader
    bootmain.c, Mp.v the search for processors of mp.c, and Main.v and
    MainTheorems.v [main] and [startothers] of main.c.

    _Devices._  Console.v models console.c (line editing, the screen, formatted
    output), Kbd.v the keyboard driver kbd.c.  Devices.v and DevicesTheorems.v
    are the interrupt controllers, the timer, the serial port and the clock
    (picirq.c, ioapic.c, lapic.c, timer.c, uart.c).

    _User programs and libraries._  CString.v models string.c and the string
    routines of ulib.c, Ulib.v the rest of ulib.c and printf.c, Umalloc.v and
    UmallocTheorems.v umalloc.c, Sh.v the parser of sh.c and ShRun.v the rest of
    it, Grep.v the functions of grep.c, Programs.v and ProgramTheorems.v cat, wc,
    grep, ls, echo, ln, rm, mkdir, mkSmallFilesdir, kill, zombie, init, getcount
    and getcounts.

    ** What the theorems show

    _Crashes._  A commit is atomic whichever disk write a crash follows
    ([crash_recovery_atomic]).  A write that is cut off by a crash, followed by
    any number of recoveries that are cut off too, leaves a file with a prefix
    of the new bytes over the old ones ([filewrite_survives_crashes]).

    _Files._  [readi] and [writei] refine slicing and splicing a list of bytes,
    and a write affects no other file ([readi_correct], [writei_correct],
    [writei_refused], [other_file_kept]); a small file behaves so only in part
    ([small_write_saved], [small_overwrite_not_saved]); a write past the 52
    bytes of its inode is an undefined store of the model.  [dirlookup] and
    [dirlink] implement a map from names to inodes, in which a name that is
    there is refused ([dirlookup_correct], [dirlink_correct]), [skipelem] the
    split of a path, and the inode cache keeps exact counts of references
    ([iget_correct]).  An image made by mkfs.c boots and gives back
    every file ([mkfs_boot_reads]).

    _Memory._  Under every interleaving a page has one owner
    ([page_ownership]); address spaces are copied, resized and destroyed with no
    page shared, and with the bytes they should have ([copyuvm_correct],
    [growproc_correct], [freevm_correct]).  No page is lost either, except where
    [copyuvm] fails; the theorem says which.  A failing [growproc] leaves the
    memory alone unless it was asked to give up all of it.  The user heap never
    hands out overlapping blocks for requests of less than 2^31 - 15 bytes, and
    faults for larger ones ([heap_safe]).

    _Processes._  The functions of proc.c refine the table machine
    ([process_calls_refine]), in which no wakeup of a waiting parent is lost,
    orphans go to [init], and the scheduler reaches every runnable process.
    [kill(0)] marks an unused entry ([kill_zero_poisons]).

    _Open files._  However processes trap, sleep and are scheduled, the count of
    an open file is the number of descriptors that name it
    ([file_refs_exact]), and every system call on files returns, panics, sleeps
    or makes one of ten unchecked accesses: none runs out of the fuel of its
    loops ([file_calls_terminate]).

    _Threads and processors._  In every interleaving the checks of [sched] pass,
    no process is on two processors, and interrupts are on or off as the process
    left them ([sched_safe]); a thread that is switched to continues where it
    called [swtch] ([switch_resumes]), and a new process starts in user mode
    with the registers of its frame ([new_process_starts]).

    _Traps and system calls._  The tables of the kernel are what the processor
    needs ([kernel_tables]); an interrupt or exception comes back to the code
    that it stopped with its registers unchanged ([trap_round_trip]); a user
    program enters the kernel by [int] only through the gate for system calls
    ([user_int_confined]); a stub of usys.S calls the handler of its name and
    returns its result, but for [mkSmallFilesdir], whose number overruns the
    array of counters before the handler is reached ([system_call]); the first
    process calls exec ([initcode_execs]).

    _Starting up._  The boot sector reaches [bootmain]
    ([bootasm_reaches_bootmain]), which loads the kernel ([bootmain_loads]),
    whose entry code reaches [main] ([entry_reaches_main]); [main] reaches the
    scheduler with every page accounted for ([main_boots]), after it has found
    the other processors ([mpinit_correct], [mpinit_hangs]) and each of them has
    reached [mpenter] ([ap_reaches_mpenter]).  Interrupts are routed as the
    drivers ask ([irq_routing]) and the clock is read at one moment
    ([cmostime_snapshot]).

    _The disk driver._  Every run of ide.c, with requests of many threads in
    flight, is a run of a queue that serves them in order, each with [iderw] of
    memide.c, or, where the drive reports an error, with an effect on that
    request's buffer and sector alone ([ide_refines_memide]), and no thread is
    left asleep ([ide_no_lost_wakeup]); but a read that the drive fails is taken
    for a success ([failed_read_valid]).

    _Pipes, locks and the console._  A pipe is a bounded queue and the console a
    line editor with a queue of lines, under every interleaving ([pipe_fifo],
    [console_refines]).  Spin locks exclude each other and sleep locks lose no
    wakeup.  A killed writer can leave a reader asleep
    ([killed_writer_loses_wakeup]).

    _System-call arguments._  What [argptr] and [fetchstr] accept lies in the
    memory of the process; the page-table invariant gives the mapping they rely
    on.  The counters of calls are indexed without a check
    ([syscall_count_overflows]).

    _Programs._  The matcher of grep decides the language of its pattern, grep
    prints the matching lines except where a read brings no newline
    ([grep_loses_split_line]), the shell's parser terminates and stays in its
    buffers, and the processes the shell starts for a line end and execute
    exactly the programs of the line, with its redirections and pipes and no
    other end of a pipe ([shell_runs_line]).  cat, wc, rm and mkdir do what their
    names promise however the kernel cuts a stream into reads ([wc_correct]),
    [atoi] reads back what [printf] prints, and the keyboard driver stays in its
    tables.

    ** Assumptions

    Addresses that the linker fixes ([end], [data]) and the addresses of static
    objects are variables with the bounds that the linker script and the memory
    layout give.  Whether [sbrk] finds memory, and the bytes that input devices
    and [read] deliver, are arguments of the definitions and arbitrary in the
    theorems.  Device handlers that [trap] calls are parameters.  The drive
    behind ide.c keeps the laws [AtaOk] of the ATA interface, the keyboard
    controller behind bootasm.S the laws [KbcOk], and the buses and the clock of
    Devices.v laws of the same kind; concrete devices show that they can hold.
    The C functions that assembly code calls are functions on the machine that
    return as the calling convention says; the flags that arithmetic leaves are
    arbitrary.  The kernel that the user programs of Programs.v
    and ShRun.v run on may fail any call; it hands out the lowest free
    descriptor, as Sysfile.v does.  Processes of ShRun.v are named by birth
    instead of by number.

    ** Not modelled

    The models of C functions and those of assembly code meet at the calling
    convention and at the structures in memory (frame, context, tables); that
    the compiled C code does on the machine what its model does on the state is
    not proved.  The checks that the processor makes when a data segment
    register is loaded and page faults of the kernel itself are left out, and
    so are the instructions that follow a call that does not return.  procdump,
    panic and the recording of call stacks only print.  The test programs
    (usertests.c, forktest.c, stressfs.c, test1.c to test3.c) run the system and
    are no part of it; currentm.c and kernelm.c are not built.  Text that the
    kernel prints for debugging is left out of the file-system and process
    models. *)

(** * Prelude

    Shared vocabulary of the development: machine integers of the 32-bit x86
    target, bytes and little-endian words, the outcome monad in which the C
    functions are written, its weakest-precondition calculus, list splicing
    and the automation used by the component files.  *)

From stdpp Require Export base numbers list gmap strings fin_maps.
From Stdlib Require Export ZArith Lia.

#[global] Open Scope Z_scope.
#[global] Set Default Goal Selector "!".

(** ** Machine integers *)

(** [unsigned], [unsigned short] and [unsigned char] values are [Z] in range;
    arithmetic wraps by these functions. *)
Definition u32 (z : Z) : Z := z mod 2 ^ 32.
Definition u16 (z : Z) : Z := z mod 2 ^ 16.
Definition u8 (z : Z) : Z := z mod 2 ^ 8.

(** Two's-complement [int] and [short]. *)
Definition i32 (z : Z) : Z := (z + 2 ^ 31) mod 2 ^ 32 - 2 ^ 31.
Definition i16 (z : Z) : Z := (z + 2 ^ 15) mod 2 ^ 16 - 2 ^ 15.

Lemma u32_range z : 0 <= u32 z < 2 ^ 32.
Proof. apply Z.mod_pos_bound. lia. Qed.
Lemma u16_range z : 0 <= u16 z < 2 ^ 16.
Proof. apply Z.mod_pos_bound. lia. Qed.
Lemma u8_range z : 0 <= u8 z < 2 ^ 8.
Proof. apply Z.mod_pos_bound. lia. Qed.
Lemma u32_small z : 0 <= z < 2 ^ 32 -> u32 z = z.
Proof. apply Z.mod_small. Qed.
Lemma u16_small z : 0 <= z < 2 ^ 16 -> u16 z = z.
Proof. apply Z.mod_small. Qed.
Lemma u8_small z : 0 <= z < 2 ^ 8 -> u8 z = z.
Proof. apply Z.mod_small. Qed.
Lemma i32_range z : - 2 ^ 31 <= i32 z < 2 ^ 31.
Proof.
  unfold i32. pose proof (Z.mod_pos_bound (z + 2 ^ 31) (2 ^ 32)). lia.
Qed.
Lemma i32_small z : - 2 ^ 31 <= z < 2 ^ 31 -> i32 z = z.
Proof. intros. unfold i32. rewrite Z.mod_small; lia. Qed.
Lemma i16_small z : - 2 ^ 15 <= z < 2 ^ 15 -> i16 z = z.
Proof. intros. unfold i16. rewrite Z.mod_small; lia. Qed.
Lemma u32_i32 z : u32 (i32 z) = u32 z.
Proof.
  unfold u32, i32. rewrite Zminus_mod, Z.mod_mod by lia.
  rewrite <- Zminus_mod. f_equal. lia.
Qed.
Lemma i32_u32 z : i32 (u32 z) = i32 z.
Proof. unfold u32, i32. rewrite Zplus_mod_idemp_l. done. Qed.
Lemma i16_u16 z : i16 (u16 z) = i16 z.
Proof. unfold u16, i16. rewrite Zplus_mod_idemp_l. done. Qed.
Lemma u32_idemp z : u32 (u32 z) = u32 z.
Proof. apply Z.mod_mod. lia. Qed.

Lemma u32_add_inj a b c : 0 <= a < 2 ^ 32 -> 0 <= b < 2 ^ 32 -> u32 (a + c) = u32 (b + c) -> a = b.
Proof.
  unfold u32. intros Ha Hb E. assert (H : (a - b) mod 2 ^ 32 = 0).
  { replace (a - b) with (a + c - (b + c)) by lia. rewrite Zminus_mod, E, Z.sub_diag. done. }
  apply Z.mod_divide in H; [|lia]. destruct H as [k Hk]. nia.
Qed.

(** The C idiom [a + b < a] detects overflow. *)
Lemma u32_add_wrap a b : 0 <= a < 2 ^ 32 -> 0 <= b < 2 ^ 32 -> (u32 (a + b) <? a) = (2 ^ 32 <=? a + b).
Proof.
  unfold u32. intros Ha Hb. destruct (Z.leb_spec (2 ^ 32) (a + b)).
  - apply Z.ltb_lt. replace (a + b) with ((a + b - 2 ^ 32) + 1 * 2 ^ 32) by lia. rewrite Z.mod_add, Z.mod_small; lia.
  - apply Z.ltb_ge. rewrite Z.mod_small; lia.
Qed.

#[global] Opaque u32 u16 u8 i32 i16.

(** ** The outcome of running C code

    [Ret a s]: the function returned [a] in state [s].
    [Panic m]: the kernel called [panic(m)] and the machine stopped.
    [Blocked c]: the thread went to sleep on channel [c] (a sleep lock that
    is taken, a full log, an empty pipe).
    [Undef w]: the C code performed an access outside the object it names
    (index out of range, null pointer), after which C gives it no meaning. *)
Inductive outcome (S A : Type) : Type :=
| Ret (a : A) (s : S)
| Panic (msg : string)
| Blocked (chan : string)
| Undef (why : string).
Arguments Ret {S A} a s.
Arguments Panic {S A} msg.
Arguments Blocked {S A} chan.
Arguments Undef {S A} why.

Definition M (S A : Type) : Type := S -> outcome S A.

Definition ret {S A} (a : A) : M S A := fun s => Ret a s.
Definition bind {S A B} (m : M S A) (k : A -> M S B) : M S B := fun s =>
  match m s with
  | Ret a s' => k a s'
  | Panic p => Panic p
  | Blocked c => Blocked c
  | Undef w => Undef w
  end.
Definition panic {S A} (msg : string) : M S A := fun _ => Panic msg.
Definition blocked {S A} (chan : string) : M S A := fun _ => Blocked chan.
Definition undef {S A} (why : string) : M S A := fun _ => Undef why.
Definition get {S} : M S S := fun s => Ret s s.
Definition gets {S A} (f : S -> A) : M S A := fun s => Ret (f s) s.
Definition put {S} (s : S) : M S unit := fun _ => Ret tt s.
Definition modify {S} (f : S -> S) : M S unit := fun s => Ret tt (f s).

Declare Scope c_scope.
Delimit Scope c_scope with C.
Notation "'let!' x := m 'in' k" := (bind m (fun x => k))
  (at level 200, x pattern, m at level 100, k at level 200,
   format "'[v' 'let!'  x  :=  m  'in' '/' k ']'") : c_scope.
Notation "m ;;; k" := (bind m (fun _ => k))
  (at level 101, right associativity, format "'[v' m ;;; '/' k ']'") : c_scope.
#[global] Open Scope c_scope.

(** [if(c) m;] *)
Definition when {S} (c : bool) (m : M S unit) : M S unit :=
  if c then m else ret tt.

(** Read an optional value that C would fetch by address: [None] is an access
    outside the object. *)
Definition the {S A} (why : string) (o : option A) : M S A :=
  match o with Some a => ret a | None => undef why end.

(** [for(i = lo; i < lo + n; i++) body(i)], where the body may [return r]
    (as [Some r]) or fall through (as [None]). *)
Fixpoint for_ {S R} (n : nat) (lo : Z) (body : Z -> M S (option R)) : M S (option R) :=
  match n with
  | O => ret None
  | S n' =>
      let! r := body lo in
      match r with
      | Some x => ret (Some x)
      | None => for_ n' (lo + 1) body
      end
  end.

(** The same for a body that never returns early. *)
Fixpoint for_each {S} (n : nat) (lo : Z) (body : Z -> M S unit) : M S unit :=
  match n with
  | O => ret tt
  | S n' => body lo ;;; for_each n' (lo + 1) body
  end.

(** Running a computation on a component of a larger state. *)
Definition zoom {S T A} (g : S -> T) (p : T -> S -> S) (m : M T A) : M S A := fun s =>
  match m (g s) with
  | Ret a t => Ret a (p t s)
  | Panic q => Panic q
  | Blocked c => Blocked c
  | Undef w => Undef w
  end.

(** ** Weakest preconditions

    [wp m Q s]: started in [s], [m] returns, in a state and with a value
    satisfying [Q] (total correctness).
    [wlp m Q s]: [m] performs no undefined access, and [Q] holds if it
    returns. *)
Definition wp {S A} (m : M S A) (Q : A -> S -> Prop) (s : S) : Prop :=
  match m s with Ret a s' => Q a s' | _ => False end.
Definition wlp {S A} (m : M S A) (Q : A -> S -> Prop) (s : S) : Prop :=
  match m s with Ret a s' => Q a s' | Panic _ | Blocked _ => True | Undef _ => False end.

Section wp.
Context {S A : Type}.
Implicit Types (m : M S A) (Q : A -> S -> Prop).

Lemma wp_ret a Q s : Q a s -> wp (ret a) Q s.
Proof. done. Qed.
Lemma wp_mono m Q R s : wp m Q s -> (forall a s', Q a s' -> R a s') -> wp m R s.
Proof. unfold wp. destruct (m s); auto. Qed.
Lemma wlp_mono m Q R s : wlp m Q s -> (forall a s', Q a s' -> R a s') -> wlp m R s.
Proof. unfold wlp. destruct (m s); auto. Qed.
Lemma wp_bind {B} m (k : A -> M S B) R s :
  wp m (fun a s' => wp (k a) R s') s -> wp (bind m k) R s.
Proof. unfold wp, bind. destruct (m s); auto. Qed.
Lemma wp_bind_inv {B} m (k : A -> M S B) R s :
  wp (bind m k) R s -> wp m (fun a s' => wp (k a) R s') s.
Proof. unfold wp, bind. destruct (m s); auto. Qed.
Lemma wlp_bind {B} m (k : A -> M S B) R s :
  wlp m (fun a s' => wlp (k a) R s') s -> wlp (bind m k) R s.
Proof. unfold wlp, bind. destruct (m s); auto. Qed.
Lemma wp_run m Q s : wp m Q s -> exists a s', m s = Ret a s' /\ Q a s'.
Proof. unfold wp. destruct (m s); naive_solver. Qed.
Lemma wp_intro m Q s a s' : m s = Ret a s' -> Q a s' -> wp m Q s.
Proof. unfold wp. by intros ->. Qed.
Lemma wp_wlp m Q s : wp m Q s -> wlp m Q s.
Proof. unfold wp, wlp. destruct (m s); naive_solver. Qed.
Lemma bind_Ret {B} m (k : A -> M S B) s a s' :
  m s = Ret a s' -> bind m k s = k a s'.
Proof. unfold bind. by intros ->. Qed.
Lemma bind_inv {B} m (k : A -> M S B) s b s' :
  bind m k s = Ret b s' -> exists a s1, m s = Ret a s1 /\ k a s1 = Ret b s'.
Proof. unfold bind. destruct (m s) as [a s1| | |]; try done. eauto. Qed.
End wp.

(** Reasoning about any outcome: run up to the last call with [wp]. *)
Definition wpo {S A} (m : M S A) (R : outcome S A -> Prop) (s : S) : Prop := R (m s).
Lemma wpo_bind {S A B} (m : M S A) (k : A -> M S B) (R : outcome S B -> Prop) s :
  wp m (fun a s' => wpo (k a) R s') s -> wpo (bind m k) R s.
Proof. unfold wpo, wp, bind. destruct (m s); by intros H. Qed.

Lemma wp_gets {S A} (f : S -> A) Q s : Q (f s) s -> wp (gets f) Q s.
Proof. done. Qed.
Lemma wp_get {S} (Q : S -> S -> Prop) s : Q s s -> wp get Q s.
Proof. done. Qed.
Lemma wp_modify {S} (f : S -> S) Q s : Q tt (f s) -> wp (modify f) Q s.
Proof. done. Qed.
Lemma wp_put {S} (t : S) Q s : Q tt t -> wp (put t) Q s.
Proof. done. Qed.
Lemma wp_the {S A} w (o : option A) a Q (s : S) : o = Some a -> Q a s -> wp (the w o) Q s.
Proof. by intros ->. Qed.
Lemma wp_when {S} (c : bool) (m : M S unit) Q s :
  (c = true -> wp m Q s) -> (c = false -> Q tt s) -> wp (when c m) Q s.
Proof. destruct c; [auto | intros _ H; by apply H]. Qed.
Lemma wp_zoom {S T A} (g : S -> T) p (m : M T A) Q s :
  wp m (fun a t => Q a (p t s)) (g s) -> wp (zoom g p m) Q s.
Proof. unfold wp, zoom. destruct (m (g s)); auto. Qed.

(** Loop rule: [I j s] holds when the loop is about to run iteration [j]. *)
Lemma wp_for_each {S} (I : Z -> S -> Prop) n lo (body : Z -> M S unit) Q s :
  I lo s ->
  (forall j s', lo <= j < lo + Z.of_nat n -> I j s' -> wp (body j) (fun _ => I (j + 1)) s') ->
  (forall s', I (lo + Z.of_nat n) s' -> Q tt s') ->
  wp (for_each n lo body) Q s.
Proof.
  revert lo s. induction n as [|n IH]; intros lo s HI Hb HQ; simpl.
  - apply HQ. by rewrite Z.add_0_r.
  - apply wp_bind. eapply wp_mono.
    + apply Hb; [lia | done].
    + intros ? s' HI'. apply IH; [done | |].
      * intros j t Hj. apply Hb. lia.
      * intros t Ht. apply HQ. by replace (lo + Z.of_nat (Datatypes.S n))
          with (lo + 1 + Z.of_nat n) by lia.
Qed.

Lemma wp_for_ {S R} (I : Z -> S -> Prop) n lo (body : Z -> M S (option R)) Q s :
  I lo s ->
  (forall j s', lo <= j < lo + Z.of_nat n -> I j s' ->
     wp (body j) (fun r s'' => match r with Some x => Q (Some x) s'' | None => I (j + 1) s'' end) s') ->
  (forall s', I (lo + Z.of_nat n) s' -> Q None s') ->
  wp (for_ n lo body) Q s.
Proof.
  revert lo s. induction n as [|n IH]; intros lo s HI Hb HQ; simpl.
  - apply HQ. by rewrite Z.add_0_r.
  - apply wp_bind. eapply wp_mono.
    + apply Hb; [lia | done].
    + intros [x|] s' HI'; [done|]. apply IH; [done | |].
      * intros j t Hj. apply Hb. lia.
      * intros t Ht. apply HQ. by replace (lo + Z.of_nat (Datatypes.S n))
          with (lo + 1 + Z.of_nat n) by lia.
Qed.

Lemma wpo_for_ {S R} (I : Z -> S -> Prop) n lo (body : Z -> M S (option R)) (Q : outcome S (option R) -> Prop) s :
  I lo s ->
  (forall j s', lo <= j < lo + Z.of_nat n -> I j s' ->
     wpo (body j) (fun o => match o with Ret None s'' => I (j + 1) s'' | _ => Q o end) s') ->
  (forall s', I (lo + Z.of_nat n) s' -> Q (Ret None s')) ->
  wpo (for_ n lo body) Q s.
Proof.
  revert lo s. induction n as [|n IH]; intros lo s HI Hb HQ; simpl.
  - apply HQ. by rewrite Z.add_0_r.
  - specialize (Hb lo s ltac:(lia) HI) as H1. unfold wpo, bind in *. destruct (body lo s) as [[x|] s'| | |]; try done.
    apply IH; [done | |].
    + intros j t Hj. apply Hb. lia.
    + intros t Ht. apply HQ. by replace (lo + Z.of_nat (Datatypes.S n)) with (lo + 1 + Z.of_nat n) by lia.
Qed.

(** One step of symbolic execution. *)
Ltac wp_step :=
  lazymatch goal with
  | |- wp (bind _ _) _ _ => apply wp_bind
  | |- wp (ret _) _ _ => apply wp_ret
  | |- wp (gets _) _ _ => apply wp_gets
  | |- wp get _ _ => apply wp_get
  | |- wp (put _) _ _ => apply wp_put
  | |- wp (modify _) _ _ => apply wp_modify
  | |- wp (zoom _ _ _) _ _ => apply wp_zoom
  end.
Ltac wp_steps := repeat (wp_step; cbn beta iota).

(** ** Generic lemmas on lists *)

(** [l] with the segment starting at [n] replaced by [l'] (what [memmove]
    into the middle of an array does); the result keeps the length of [l]. *)
Definition splice {A} (n : nat) (l' l : list A) : list A :=
  take (length l) (take n l ++ l' ++ drop (n + length l') l).

Section splice.
Context {A : Type}.
Implicit Types l : list A.
Local Open Scope nat_scope.

Lemma length_splice n l' l : length (splice n l' l) = length l.
Proof. unfold splice. rewrite length_take, !length_app, length_take, length_drop. lia. Qed.

Lemma lookup_splice_new n l' l i :
  n + length l' <= length l -> n <= i < n + length l' ->
  splice n l' l !! i = l' !! (i - n).
Proof.
  intros. unfold splice. rewrite lookup_take_lt by lia.
  rewrite lookup_app_r by (rewrite length_take; lia).
  rewrite length_take, lookup_app_l by lia. f_equal; lia.
Qed.

Lemma lookup_splice_old n l' l i :
  n + length l' <= length l -> i < n \/ n + length l' <= i ->
  splice n l' l !! i = l !! i.
Proof.
  intros Hn Hi. destruct (decide (i < length l)) as [Hl|].
  2: { rewrite !lookup_ge_None_2; try done; rewrite ?length_splice; lia. }
  unfold splice. rewrite lookup_take_lt by lia. destruct Hi.
  - rewrite lookup_app_l by (rewrite length_take; lia). by rewrite lookup_take_lt by lia.
  - rewrite lookup_app_r by (rewrite length_take; lia).
    rewrite length_take, lookup_app_r by lia. rewrite lookup_drop. f_equal; lia.
Qed.

Lemma splice_read n l' l :
  n + length l' <= length l -> take (length l') (drop n (splice n l' l)) = l'.
Proof.
  intros. apply list_eq. intros i. destruct (decide (i < length l')).
  - rewrite lookup_take_lt, lookup_drop, lookup_splice_new by lia. f_equal; lia.
  - rewrite !lookup_ge_None_2; try done; rewrite ?length_take; lia.
Qed.

Lemma splice_read_other n l' l k len :
  n + length l' <= length l -> k + len <= n \/ n + length l' <= k ->
  take len (drop k (splice n l' l)) = take len (drop k l).
Proof.
  intros Hn Hd. apply list_eq. intros i. destruct (decide (i < len)).
  - rewrite !lookup_take_lt, !lookup_drop, lookup_splice_old by lia. done.
  - rewrite !lookup_take_ge; [done | lia | lia].
Qed.

Lemma splice_id n l l' :
  n + length l' <= length l -> take (length l') (drop n l) = l' -> splice n l' l = l.
Proof.
  intros Hn Hl. apply list_eq. intros i.
  destruct (decide (n <= i < n + length l')).
  - rewrite lookup_splice_new by lia. rewrite <- Hl at 1.
    rewrite lookup_take_lt, lookup_drop by lia. f_equal; lia.
  - apply lookup_splice_old; lia.
Qed.

Lemma splice_Forall (P : A -> Prop) n l' l : Forall P l' -> Forall P l -> Forall P (splice n l' l).
Proof.
  intros. unfold splice. apply Forall_take, Forall_app. split; [by apply Forall_take|].
  apply Forall_app. split; [done | by apply Forall_drop].
Qed.
End splice.

(** ** Little-endian words *)

Definition le_bytes (n : nat) (w : Z) : list Z :=
  (fun i => u8 (Z.shiftr w (8 * i))) <$> seqZ 0 (Z.of_nat n).

Fixpoint le_word (l : list Z) : Z :=
  match l with
  | [] => 0
  | b :: l' => b + 256 * le_word l'
  end.

Definition is_byte (b : Z) : Prop := 0 <= b < 256.

Lemma length_le_bytes n w : length (le_bytes n w) = n.
Proof. unfold le_bytes. rewrite length_fmap, length_seqZ. lia. Qed.

Lemma le_bytes_S n w : le_bytes (S n) w = u8 w :: le_bytes n (Z.shiftr w 8).
Proof.
  unfold le_bytes. rewrite seqZ_cons by lia. rewrite fmap_cons. f_equal.
  replace (Z.pred (Z.of_nat (S n))) with (Z.of_nat n) by lia.
  rewrite <- (fmap_add_seqZ 1 0), <- list_fmap_compose.
  apply list_fmap_ext. intros i x Hx. apply lookup_seqZ in Hx as [-> ?].
  simpl. rewrite Z.shiftr_shiftr by lia. do 2 f_equal. lia.
Qed.

Lemma le_bytes_is_byte n w : Forall is_byte (le_bytes n w).
Proof.
  unfold le_bytes. rewrite Forall_fmap. apply Forall_forall. intros x _.
  apply u8_range.
Qed.

Lemma le_word_bytes n w : le_word (le_bytes n w) = w mod 2 ^ (8 * Z.of_nat n).
Proof.
  revert w. induction n as [|n IH]; intros w; [by rewrite Z.mod_1_r|].
  rewrite le_bytes_S. cbn [le_word]. rewrite IH.
  replace (8 * Z.of_nat (S n)) with (8 + 8 * Z.of_nat n) by lia.
  rewrite Z.pow_add_r, Z.rem_mul_r by lia. rewrite Z.shiftr_div_pow2 by lia.
  done.
Qed.

Lemma le_bytes_word l : Forall is_byte l -> le_bytes (length l) (le_word l) = l.
Proof.
  induction l as [|b l IH]; [done|]. rewrite Forall_cons. intros [Hb Hl].
  cbn [length le_word]. rewrite le_bytes_S. f_equal.
  - unfold is_byte in Hb. change (u8 ?x) with (x mod 256).
    rewrite Z.mul_comm, Z_mod_plus_full. by apply Z.mod_small.
  - rewrite Z.shiftr_div_pow2 by lia. change (2 ^ 8) with 256.
    rewrite Z.mul_comm, Z_div_plus_full by lia.
    unfold is_byte in Hb. rewrite (Z.div_small b) by lia. by apply IH.
Qed.

Lemma le_word_range l : Forall is_byte l -> 0 <= le_word l < 2 ^ (8 * Z.of_nat (length l)).
Proof.
  intros Hl. rewrite <- (le_bytes_word l Hl) at 1 2.
  rewrite !le_word_bytes. apply Z.mod_pos_bound. lia.
Qed.

(** ** Automation *)

Create HintDb kernel.
#[export] Hint Resolve u32_range u16_range u8_range i32_range : kernel.
#[export] Hint Resolve le_bytes_is_byte : kernel.
#[export] Hint Rewrite @length_splice @length_fmap @length_take @length_drop @length_app
  @length_insert @length_replicate length_le_bytes using lia : len.
#[export] Hint Rewrite u32_small u16_small u8_small i32_small using lia : word.

Ltac len := autorewrite with len in *; try lia.
Ltac word := autorewrite with word in *; try lia.

(** Destruct boolean integer tests of the code into facts about [Z]. *)
Ltac zb :=
  repeat match goal with
  | |- context [Z.ltb ?a ?b] => destruct (Z.ltb_spec a b)
  | |- context [Z.leb ?a ?b] => destruct (Z.leb_spec a b)
  | |- context [Z.eqb ?a ?b] => destruct (Z.eqb_spec a b)
  | H : context [Z.ltb ?a ?b] |- _ => destruct (Z.ltb_spec a b)
  | H : context [Z.leb ?a ?b] |- _ => destruct (Z.leb_spec a b)
  | H : context [Z.eqb ?a ?b] |- _ => destruct (Z.eqb_spec a b)
  end.
