(* ===== verification/CString.v ===== *)
(** * Byte memory and the C string routines

    [string.c] (kernel) and the string half of [ulib.c] (user library).
    Memory is a total function from addresses to bytes; pointers are 32-bit
    addresses and pointer arithmetic wraps.  Routines that only read take the
    pointer as an accessor [p] with [p i] the byte at [p + i]. *)

From S2P Require Import Prelude.

Definition mem := Z -> Z.
Definition upd (m : mem) (a v : Z) : mem := fun x => if x =? a then v else m x.

(** [n] bytes from address [a]. *)
Definition bytes_at (m : mem) (a : Z) (n : nat) : list Z := (fun i => m (a + i)) <$> seqZ 0 (Z.of_nat n).

Lemma upd_eq m a v : upd m a v a = v.
Proof. unfold upd. by rewrite Z.eqb_refl. Qed.
Lemma upd_ne m a v x : x <> a -> upd m a v x = m x.
Proof. unfold upd. intros. by destruct (Z.eqb_spec x a). Qed.

Module Kstring.

(** [stosb]/[stosl] of x86.h: [cnt] stores of the byte (word) [data]. *)
Fixpoint stosb (cnt : nat) (a data : Z) (m : mem) : mem :=
  match cnt with
  | O => m
  | S c => stosb c (u32 (a + 1)) data (upd m a (u8 data))
  end.

Definition store32 (m : mem) (a w : Z) : mem :=
  upd (upd (upd (upd m a (u8 w)) (u32 (a + 1)) (u8 (Z.shiftr w 8)))
         (u32 (a + 2)) (u8 (Z.shiftr w 16))) (u32 (a + 3)) (u8 (Z.shiftr w 24)).

Fixpoint stosl (cnt : nat) (a data : Z) (m : mem) : mem :=
  match cnt with
  | O => m
  | S c => stosl c (u32 (a + 4)) data (store32 m a data)
  end.

Definition memset (dst c n : Z) (m : mem) : mem :=
  if (dst mod 4 =? 0) && (n mod 4 =? 0) then
    let c := Z.land c 255 in
    stosl (Z.to_nat (n / 4)) dst
      (Z.lor (Z.lor (Z.lor (Z.shiftl c 24) (Z.shiftl c 16)) (Z.shiftl c 8)) c) m
  else stosb (Z.to_nat n) dst c m.

(** [while(n-- > 0) { if( *s1 != *s2) return *s1 - *s2; s1++, s2++; } return 0;] *)
Fixpoint memcmp_loop (n : nat) (s1 s2 : Z -> Z) (i : Z) : Z :=
  match n with
  | O => 0
  | S n' => if s1 i =? s2 i then memcmp_loop n' s1 s2 (i + 1) else s1 i - s2 i
  end.
Definition memcmp (s1 s2 : Z -> Z) (n : Z) : Z := memcmp_loop (Z.to_nat n) s1 s2 0.

(** [while(n-- > 0) *--d = *--s;] *)
Fixpoint copy_down (n : nat) (d s : Z) (m : mem) : mem :=
  match n with
  | O => m
  | S n' => copy_down n' (u32 (d - 1)) (u32 (s - 1)) (upd m (u32 (d - 1)) (m (u32 (s - 1))))
  end.
(** [while(n-- > 0) *d++ = *s++;] *)
Fixpoint copy_up (n : nat) (d s : Z) (m : mem) : mem :=
  match n with
  | O => m
  | S n' => copy_up n' (u32 (d + 1)) (u32 (s + 1)) (upd m d (m s))
  end.
Definition memmove (dst src n : Z) (m : mem) : mem :=
  if (src <? dst) && (dst <? u32 (src + n)) then
    copy_down (Z.to_nat n) (u32 (dst + n)) (u32 (src + n)) m
  else copy_up (Z.to_nat n) dst src m.

Definition memcpy (dst src n : Z) (m : mem) : mem := memmove dst src n m.

(** [while(n > 0 && *p && *p == *q) n--, p++, q++;] *)
Fixpoint strncmp_loop (n : nat) (p q : Z -> Z) (i : Z) : Z :=
  match n with
  | O => 0
  | S n' =>
      if negb (p i =? 0) && (p i =? q i) then strncmp_loop n' p q (i + 1)
      else u8 (p i) - u8 (q i)
  end.
Definition strncmp (p q : Z -> Z) (n : Z) : Z := strncmp_loop (Z.to_nat n) p q 0.

(** [while(n-- > 0 && ( *s++ = *t++) != 0) ;]  Returns what [n--] left to do. *)
Fixpoint strncpy_copy (n : nat) (s t : Z) (m : mem) : nat * Z * mem :=
  match n with
  | O => (O, s, m)
  | S n' =>
      let c := m t in
      let m' := upd m s c in
      if c =? 0 then (n', u32 (s + 1), m') else strncpy_copy n' (u32 (s + 1)) (u32 (t + 1)) m'
  end.
(** [while(n-- > 0) *s++ = 0;] *)
Fixpoint strncpy_pad (n : nat) (s : Z) (m : mem) : mem :=
  match n with
  | O => m
  | S n' => strncpy_pad n' (u32 (s + 1)) (upd m s 0)
  end.
Definition strncpy (s t n : Z) (m : mem) : mem :=
  let '(k, s', m') := strncpy_copy (Z.to_nat n) s t m in strncpy_pad k s' m'.

(** [if(n <= 0) return os; while(--n > 0 && ( *s++ = *t++) != 0) ; *s = 0;] *)
Fixpoint safestrcpy_copy (n : nat) (s t : Z) (m : mem) : Z * mem :=
  match n with
  | O => (s, m)
  | S n' =>
      let c := m t in
      let m' := upd m s c in
      if c =? 0 then (u32 (s + 1), m') else safestrcpy_copy n' (u32 (s + 1)) (u32 (t + 1)) m'
  end.
Definition safestrcpy (s t n : Z) (m : mem) : mem :=
  if n <=? 0 then m
  else let '(s', m') := safestrcpy_copy (Z.to_nat (n - 1)) s t m in upd m' s' 0.

(** [for(n = 0; s[n]; n++) ;] with [fuel] iterations allowed. *)
Fixpoint strlen_loop (fuel : nat) (s : Z -> Z) (n : Z) : option Z :=
  match fuel with
  | O => None
  | S f => if s n =? 0 then Some n else strlen_loop f s (n + 1)
  end.
Definition strlen (fuel : nat) (s : Z -> Z) : option Z := strlen_loop fuel s 0.

(** *** Copies that do not wrap around the address space *)

Lemma copy_up_spec n d s (m : mem) a :
  0 <= d -> 0 <= s -> d + Z.of_nat n <= 2 ^ 32 -> s + Z.of_nat n <= 2 ^ 32 ->
  (d <= s \/ s + Z.of_nat n <= d) ->
  copy_up n d s m a = if (d <=? a) && (a <? d + Z.of_nat n) then m (s + (a - d)) else m a.
Proof.
  revert d s m. induction n as [|n IH]; intros d s m Hd Hs Hdn Hsn Ho; cbn [copy_up].
  { zb; simpl; try done; lia. }
  destruct (decide (n = 0%nat)) as [->|Hn].
  { cbn [copy_up]. destruct (Z.eqb_spec a d) as [->|Hne].
    - rewrite upd_eq. zb; simpl; try lia. f_equal; lia.
    - rewrite upd_ne by done. zb; simpl; try done; lia. }
  rewrite !u32_small by lia. rewrite IH by lia. unfold upd.
  destruct (Z.eqb_spec a d) as [->|Hne]; zb; simpl; subst; try lia; try done;
    try (f_equal; lia).
Qed.

Lemma copy_down_spec n d s (m : mem) a :
  0 <= d - Z.of_nat n -> 0 <= s - Z.of_nat n -> d < 2 ^ 32 -> s < 2 ^ 32 -> s <= d ->
  copy_down n d s m a =
    if (d - Z.of_nat n <=? a) && (a <? d) then m (s + (a - d)) else m a.
Proof.
  revert d s m. induction n as [|n IH]; intros d s m Hd Hs Hdn Hsn Ho; cbn [copy_down].
  { zb; simpl; try done; lia. }
  rewrite !u32_small by lia. rewrite IH by lia. unfold upd.
  zb; simpl; subst; try lia; try done; try (f_equal; lia).
Qed.

(** [memmove] copies as if through a temporary buffer, whatever the overlap. *)
Lemma memmove_correct dst src n (m : mem) a :
  0 <= dst -> 0 <= src -> 0 <= n -> dst + n < 2 ^ 32 -> src + n < 2 ^ 32 ->
  memmove dst src n m a =
    if (dst <=? a) && (a <? dst + n) then m (src + (a - dst)) else m a.
Proof.
  intros. unfold memmove. rewrite (u32_small (src + n)), (u32_small (dst + n)) by lia.
  destruct (Z.ltb_spec src dst); simpl.
  - destruct (Z.ltb_spec dst (src + n)).
    + rewrite copy_down_spec by lia. rewrite Z2Nat.id by lia.
      zb; simpl; try lia; try done; f_equal; lia.
    + rewrite copy_up_spec by lia. by rewrite Z2Nat.id by lia.
  - rewrite copy_up_spec by lia. by rewrite Z2Nat.id by lia.
Qed.

(** *** memset *)

Lemma stosb_spec n d c (m : mem) a :
  0 <= d -> d + Z.of_nat n <= 2 ^ 32 ->
  stosb n d c m a = if (d <=? a) && (a <? d + Z.of_nat n) then u8 c else m a.
Proof.
  revert d m. induction n as [|n IH]; intros d m Hd Hdn; cbn [stosb].
  { zb; simpl; try done; lia. }
  destruct (decide (n = 0%nat)) as [->|Hn].
  { cbn [stosb]. unfold upd. zb; simpl; try done; lia. }
  rewrite u32_small, IH by lia. unfold upd. zb; simpl; subst; try lia; done.
Qed.

Definition splat (c : Z) : Z :=
  Z.lor (Z.lor (Z.lor (Z.shiftl c 24) (Z.shiftl c 16)) (Z.shiftl c 8)) c.

Lemma splat_byte c k : 0 <= c < 256 -> 0 <= k < 4 -> u8 (Z.shiftr (splat c) (8 * k)) = c.
Proof.
  intros Hc Hk. change (u8 ?x) with (x mod 2 ^ 8). rewrite <- Z.land_ones by lia.
  apply Z.bits_inj'. intros i Hi. unfold splat.
  rewrite Z.land_spec, Z.shiftr_spec, !Z.lor_spec by lia.
  assert (Hout : forall j, 8 <= j -> Z.testbit c j = false).
  { intros j Hj. rewrite <- (Z.mod_small c (2 ^ 8)) by lia.
    apply Z.mod_pow2_bits_high. lia. }
  destruct (Z.ltb_spec i 8).
  - rewrite Z.ones_spec_low by lia. rewrite andb_true_r.
    assert (k = 0 \/ k = 1 \/ k = 2 \/ k = 3) as [->|[->|[->| ->]]] by lia;
      rewrite !Z.shiftl_spec by lia;
      repeat match goal with
      | |- context [Z.testbit c ?j] =>
          first [ rewrite (Hout j) by lia
                | rewrite (Z.testbit_neg_r c j) by lia ]
      end; rewrite ?orb_false_r, ?orb_false_l; f_equal; lia.
  - rewrite Z.ones_spec_high by lia. rewrite andb_false_r. symmetry. apply Hout. lia.
Qed.

Lemma stosl_spec n d c (m : mem) a :
  0 <= c < 256 -> 0 <= d -> d + 4 * Z.of_nat n <= 2 ^ 32 ->
  stosl n d (splat c) m a = if (d <=? a) && (a <? d + 4 * Z.of_nat n) then c else m a.
Proof.
  intros Hc. revert d m. induction n as [|n IH]; intros d m Hd Hdn; cbn [stosl].
  { zb; simpl; try done; lia. }
  assert (Hst : store32 m d (splat c) a = if (d <=? a) && (a <? d + 4) then c else m a).
  { unfold store32. rewrite !u32_small by lia.
    pose proof (splat_byte c 0) as H0. rewrite Z.shiftr_0_r in H0.
    pose proof (splat_byte c 1) as H1. pose proof (splat_byte c 2) as H2.
    pose proof (splat_byte c 3) as H3. change (8 * 1) with 8 in H1.
    change (8 * 2) with 16 in H2. change (8 * 3) with 24 in H3.
    rewrite H0, H1, H2, H3 by lia.
    unfold upd. zb; simpl; try lia; done. }
  destruct (decide (n = 0%nat)) as [->|Hn].
  { cbn [stosl]. rewrite Hst. zb; simpl; try lia; done. }
  rewrite u32_small by lia. rewrite IH by lia. rewrite Hst.
  zb; simpl; try lia; done.
Qed.

(** Word and byte stores fill the same bytes. *)
Lemma memset_correct dst c n (m : mem) a :
  0 <= dst -> 0 <= n -> dst + n <= 2 ^ 32 ->
  memset dst c n m a = if (dst <=? a) && (a <? dst + n) then u8 c else m a.
Proof.
  intros Hd Hn Hs. unfold memset.
  destruct ((dst mod 4 =? 0) && (n mod 4 =? 0)) eqn:E.
  - apply andb_true_iff in E as [_ E]. apply Z.eqb_eq in E.
    assert (Hc : Z.land c 255 = u8 c) by (apply (Z.land_ones c 8); lia).
    rewrite Hc. change (Z.lor _ (u8 c)) with (splat (u8 c)).
    assert (Hn4 : 4 * Z.of_nat (Z.to_nat (n / 4)) = n).
    { rewrite Z2Nat.id by (apply Z.div_pos; lia).
      pose proof (Z.div_mod n 4). lia. }
    rewrite stosl_spec by (try apply u8_range; lia). by rewrite Hn4.
  - rewrite stosb_spec by lia. by rewrite Z2Nat.id by lia.
Qed.

(** *** Comparison and bounded copies *)

(** [t] has no NUL before position [i]. *)
Definition no_nul_before (t : Z -> Z) (i : Z) : Prop := forall j, 0 <= j < i -> t j <> 0.

(** Equality of C strings on at most [n] bytes: equal up to and including the
    first NUL, or on all [n] bytes. *)
Definition str_eq_n (p q : Z -> Z) (n : Z) : Prop :=
  forall i, 0 <= i < n -> no_nul_before p i -> p i = q i.

Lemma strncmp_loop_zero n p q i :
  (forall j, is_byte (p j)) -> (forall j, is_byte (q j)) ->
  strncmp_loop n p q i = 0 <->
  (forall k, 0 <= k < Z.of_nat n -> (forall j, 0 <= j < k -> p (i + j) <> 0) -> p (i + k) = q (i + k)).
Proof.
  intros Hp Hq. revert i. induction n as [|n IH]; intros i; cbn [strncmp_loop].
  { split; [lia | done]. }
  rewrite !u8_small by (apply Hp || apply Hq).
  destruct (Z.eqb_spec (p i) 0) as [H0|H0]; [|destruct (Z.eqb_spec (p i) (q i)) as [He|He]]; simpl.
  - split.
    + intros Hz k Hk Hnn. destruct (decide (k = 0)) as [->|].
      * rewrite Z.add_0_r. lia.
      * exfalso. apply (Hnn 0); [lia|]. by rewrite Z.add_0_r.
    + intros Hk. specialize (Hk 0). rewrite Z.add_0_r in Hk. rewrite Hk; lia.
  - rewrite IH. split.
    + intros Hk k Hkn Hnn. destruct (decide (k = 0)) as [->|]; [by rewrite Z.add_0_r|].
      replace (i + k) with (i + 1 + (k - 1)) by lia. apply Hk; [lia|].
      intros j Hj. replace (i + 1 + j) with (i + (j + 1)) by lia. apply Hnn. lia.
    + intros Hk k Hkn Hnn. replace (i + 1 + k) with (i + (k + 1)) by lia. apply Hk; [lia|].
      intros j Hj. destruct (decide (j = 0)) as [->|]; [by rewrite Z.add_0_r|].
      replace (i + j) with (i + 1 + (j - 1)) by lia. apply Hnn. lia.
  - split; [lia|]. intros Hk. exfalso. apply He. specialize (Hk 0).
    rewrite Z.add_0_r in Hk. apply Hk; lia.
Qed.

Lemma strncmp_zero p q n :
  0 <= n -> (forall j, is_byte (p j)) -> (forall j, is_byte (q j)) ->
  strncmp p q n = 0 <-> str_eq_n p q n.
Proof.
  intros Hn Hp Hq. unfold strncmp. rewrite strncmp_loop_zero by done.
  rewrite Z2Nat.id by lia. done.
Qed.

(** What [strncpy] leaves in byte [i] of the destination. *)
Fixpoint padded (n : nat) (t : Z -> Z) (i : Z) : list Z :=
  match n with
  | O => []
  | S n' => if t i =? 0 then replicate n 0 else t i :: padded n' t (i + 1)
  end.

Lemma strncpy_pad_spec n s (m : mem) a :
  0 <= s -> s + Z.of_nat n <= 2 ^ 32 ->
  strncpy_pad n s m a = if (s <=? a) && (a <? s + Z.of_nat n) then 0 else m a.
Proof.
  revert s m. induction n as [|n IH]; intros s m Hs Hsn; cbn [strncpy_pad].
  { zb; simpl; try done; lia. }
  destruct (decide (n = 0%nat)) as [->|Hn].
  { cbn [strncpy_pad]. unfold upd. zb; simpl; try done; lia. }
  rewrite u32_small, IH by lia. unfold upd. zb; simpl; subst; try lia; done.
Qed.

Definition nthZ (l : list Z) (i : Z) : Z := nth (Z.to_nat i) l 0.

Lemma length_padded n t i : length (padded n t i) = n.
Proof.
  revert i. induction n as [|n IH]; intros i; [done|]. cbn [padded].
  destruct (t i =? 0); simpl; [by rewrite length_replicate | by rewrite IH].
Qed.

Lemma nthZ_cons x l i : 0 < i -> nthZ (x :: l) i = nthZ l (i - 1).
Proof. intros. unfold nthZ. destruct (Z.to_nat i) eqn:E; [lia|]. simpl. f_equal; lia. Qed.

Lemma nthZ_replicate n i : nthZ (replicate n 0) i = 0.
Proof. unfold nthZ. generalize (Z.to_nat i). induction n; intros [|k]; simpl; auto. Qed.

(** Source and destination do not overlap. *)
Lemma strncpy_list n s t (m : mem) (f : Z -> Z) :
  0 <= s -> 0 <= t -> s + Z.of_nat n < 2 ^ 32 -> t + Z.of_nat n < 2 ^ 32 ->
  (s + Z.of_nat n <= t \/ t + Z.of_nat n <= s) ->
  (forall i, 0 <= i < Z.of_nat n -> m (t + i) = f i) ->
  forall a, (let '(k, s', m') := strncpy_copy n s t m in strncpy_pad k s' m') a =
    if (s <=? a) && (a <? s + Z.of_nat n) then nthZ (padded n f 0) (a - s) else m a.
Proof.
  revert s t m f. induction n as [|n IH]; intros s t m f Hs Ht Hsn Htn Hov Hf a.
  { cbn [strncpy_copy strncpy_pad]. zb; simpl; try done; lia. }
  cbn [strncpy_copy padded].
  assert (H0 : m t = f 0) by (rewrite <- Hf by lia; f_equal; lia). rewrite H0.
  destruct (Z.eqb_spec (f 0) 0) as [E|E].
  - rewrite u32_small, strncpy_pad_spec by lia. rewrite nthZ_replicate. unfold upd.
    zb; simpl; subst; try lia; done.
  - rewrite !u32_small by lia.
    rewrite (IH _ _ _ (fun i => f (i + 1))) by
      (try lia; intros i Hi; rewrite upd_ne by lia; rewrite <- Hf by lia; f_equal; lia).
    assert (Hp : forall k j, padded k (fun i => f (i + 1)) j = padded k f (j + 1)).
    { induction k as [|k IHk]; intros j; [done|]. cbn [padded].
      destruct (f (j + 1) =? 0); [done|]. f_equal. by rewrite IHk. }
    rewrite Hp. unfold upd. destruct (Z.eqb_spec a s) as [->|].
    + zb; simpl; try lia. by rewrite Z.sub_diag.
    + zb; simpl; try lia; try done. rewrite nthZ_cons by lia. f_equal; lia.
Qed.

Lemma strncpy_correct s t n (m : mem) a :
  0 <= s -> 0 <= t -> 0 <= n -> s + n < 2 ^ 32 -> t + n < 2 ^ 32 -> (s + n <= t \/ t + n <= s) ->
  strncpy s t n m a =
    if (s <=? a) && (a <? s + n) then nthZ (padded (Z.to_nat n) (fun i => m (t + i)) 0) (a - s)
    else m a.
Proof.
  intros. unfold strncpy.
  rewrite (strncpy_list (Z.to_nat n) s t m (fun i => m (t + i))) by (try lia; done).
  by rewrite Z2Nat.id by lia.
Qed.

(** The copy has the source's meaning as a C string of at most [n] bytes. *)
Lemma padded_eq n t i k :
  0 <= k < Z.of_nat n -> (forall j, i <= j < i + k -> t j <> 0) ->
  nthZ (padded n t i) k = t (i + k).
Proof.
  revert i k. induction n as [|n IH]; intros i k Hk Hnn; [lia|]. cbn [padded].
  destruct (Z.eqb_spec (t i) 0) as [E|E].
  - rewrite nthZ_replicate. destruct (decide (k = 0)) as [->|]; [by rewrite Z.add_0_r|].
    exfalso. apply (Hnn i); [lia | done].
  - destruct (decide (k = 0)) as [->|]; [by rewrite Z.add_0_r|].
    rewrite nthZ_cons by lia. rewrite IH; [f_equal; lia | lia |].
    intros j Hj. apply Hnn. lia.
Qed.

(** *** strlen *)
Lemma strlen_loop_correct fuel s i k :
  i <= k -> (forall j, i <= j < k -> s j <> 0) -> s k = 0 -> k - i < Z.of_nat fuel ->
  strlen_loop fuel s i = Some k.
Proof.
  revert i. induction fuel as [|f IH]; intros i Hik Hnn Hk Hf; [lia|]. cbn [strlen_loop].
  destruct (Z.eqb_spec (s i) 0) as [E|E].
  - destruct (decide (i = k)) as [->|]; [done|]. exfalso. apply (Hnn i); [lia|done].
  - destruct (decide (i = k)) as [->|]; [done|]. apply IH; try lia; try done.
    intros j Hj. apply Hnn. lia.
Qed.

(** *** safestrcpy: the destination is always a terminated string *)
Lemma safestrcpy_copy_spec n s t (m : mem) s' m' :
  0 <= s -> s + Z.of_nat n < 2 ^ 32 ->
  safestrcpy_copy n s t m = (s', m') ->
  s <= s' <= s + Z.of_nat n /\ (forall a, a < s \/ s' <= a -> m' a = m a).
Proof.
  revert s t m. induction n as [|n IH]; intros s t m Hs Hsn; cbn [safestrcpy_copy].
  { intros [= <- <-]. split; [lia | done]. }
  rewrite (u32_small (s + 1)) by lia.
  destruct (m t =? 0).
  - intros [= <- <-]. split; [lia|]. intros a Ha. apply upd_ne. lia.
  - intros H. apply IH in H; [|lia|lia]. destruct H as [H1 H2]. split; [lia|].
    intros a Ha. rewrite H2 by lia. apply upd_ne. lia.
Qed.

Lemma safestrcpy_terminated s t n (m : mem) :
  0 <= s -> 0 < n -> s + n < 2 ^ 32 ->
  (exists k, 0 <= k < n /\ safestrcpy s t n m (s + k) = 0) /\
  (forall a, a < s \/ s + n <= a -> safestrcpy s t n m a = m a).
Proof.
  intros Hs Hn Hsn. unfold safestrcpy. destruct (Z.leb_spec n 0); [lia|].
  destruct (safestrcpy_copy _ _ _ _) as [s' m'] eqn:E.
  apply safestrcpy_copy_spec in E as [H1 H2]; [|lia|lia].
  split.
  - exists (s' - s). split; [lia|]. replace (s + (s' - s)) with s' by lia. apply upd_eq.
  - intros a Ha. rewrite upd_ne by lia. apply H2. lia.
Qed.

End Kstring.
