(* ===== verification/Ulib.v ===== *)
(** * The user library: [ulib.c] and [printf.c]

    String routines, [atoi], [gets] over an input stream, and the formatted
    printer.  Output is the list of bytes passed to [putc] in order. *)

From S2P Require Import Prelude CString.

Module Ulib.

(** [while(( *s++ = *t++) != 0) ;] *)
Fixpoint strcpy (fuel : nat) (s t : Z) (m : mem) : option mem :=
  match fuel with
  | O => None
  | S f =>
      let c := m t in
      let m' := upd m s c in
      if c =? 0 then Some m' else strcpy f (u32 (s + 1)) (u32 (t + 1)) m'
  end.

Fixpoint strcmp (fuel : nat) (p q : Z -> Z) (i : Z) : option Z :=
  match fuel with
  | O => None
  | S f =>
      if negb (p i =? 0) && (p i =? q i) then strcmp f p q (i + 1)
      else Some (u8 (p i) - u8 (q i))
  end.

Definition strlen (fuel : nat) (s : Z -> Z) : option Z := Kstring.strlen_loop fuel s 0.

Definition memset (dst c n : Z) (m : mem) : mem := Kstring.stosb (Z.to_nat n) dst c m.

(** Offset of the first [c] before the terminator. *)
Fixpoint strchr (fuel : nat) (s : Z -> Z) (c i : Z) : option (option Z) :=
  match fuel with
  | O => None
  | S f =>
      if s i =? 0 then Some None
      else if s i =? c then Some (Some i)
      else strchr f s c (i + 1)
  end.

(** [gets]: the bytes that [read(0, &c, 1)] delivers are [inp]; an empty
    stream is a read that returns less than 1. *)
Fixpoint gets_loop (n : nat) (buf : Z) (i : Z) (inp : list Z) (m : mem) : Z * list Z * mem :=
  match n, inp with
  | O, _ => (i, inp, m)
  | _, [] => (i, inp, m)
  | S n', c :: inp' =>
      let m' := upd m (u32 (buf + i)) c in
      if (c =? 10) || (c =? 13) then (i + 1, inp', m') else gets_loop n' buf (i + 1) inp' m'
  end.
Definition gets (buf max : Z) (inp : list Z) (m : mem) : list Z * mem :=
  let '(i, rest, m') := gets_loop (Z.to_nat (max - 1)) buf 0 inp m in
  (rest, upd m' (u32 (buf + i)) 0).

(** [while('0' <= *s && *s <= '9') n = n*10 + *s++ - '0';] *)
Fixpoint atoi_loop (s : list Z) (n : Z) : Z :=
  match s with
  | [] => n
  | c :: s' => if (48 <=? c) && (c <=? 57) then atoi_loop s' (i32 (n * 10 + c - 48)) else n
  end.
Definition atoi (s : list Z) : Z := atoi_loop s 0.

(** [while(n-- > 0) *dst++ = *src++;] *)
Definition memmove (dst src n : Z) (m : mem) : mem := Kstring.copy_up (Z.to_nat n) dst src m.

(** The first [k] digits read add up in base ten. *)
Fixpoint dec_value (l : list Z) (n : Z) : Z :=
  match l with
  | [] => n
  | c :: l' => dec_value l' (n * 10 + (c - 48))
  end.

Definition is_digit (c : Z) : Prop := 48 <= c <= 57.

Lemma dec_value_mono l n : Forall is_digit l -> 0 <= n -> n <= dec_value l n.
Proof.
  intros Hl. revert n. induction Hl as [|c l Hc Hl IH]; intros n Hn; simpl; [lia|].
  unfold is_digit in Hc. etrans; [|apply IH; lia]. lia.
Qed.

Lemma atoi_loop_digits l n :
  Forall is_digit l -> 0 <= n -> dec_value l n < 2 ^ 31 ->
  forall rest, (match rest with [] => True | c :: _ => ~ is_digit c end) ->
  atoi_loop (l ++ rest) n = dec_value l n.
Proof.
  intros Hl. revert n. induction Hl as [|c l Hc Hl IH]; intros n Hn Hb rest Hr.
  - simpl. destruct rest as [|c rest]; [done|]. simpl. unfold is_digit in Hr. zb; simpl; done || lia.
  - simpl in *. unfold is_digit in Hc. zb; simpl; try lia.
    pose proof (dec_value_mono l (n * 10 + (c - 48)) Hl ltac:(lia)).
    rewrite i32_small by lia.
    replace (n * 10 + c - 48) with (n * 10 + (c - 48)) by lia. apply IH; try done; lia.
Qed.

Lemma atoi_decimal l : Forall is_digit l -> dec_value l 0 < 2 ^ 31 -> atoi l = dec_value l 0.
Proof.
  intros Hl Hb. unfold atoi. rewrite <- (app_nil_r l) at 1. by apply atoi_loop_digits.
Qed.

(** Forward copying is right unless the destination starts inside the source. *)
Lemma memmove_forward dst src n (m : mem) a :
  0 <= dst -> 0 <= src -> 0 <= n -> dst + n < 2 ^ 32 -> src + n < 2 ^ 32 ->
  (dst <= src \/ src + n <= dst) ->
  memmove dst src n m a = if (dst <=? a) && (a <? dst + n) then m (src + (a - dst)) else m a.
Proof.
  intros. unfold memmove. rewrite Kstring.copy_up_spec by lia. by rewrite Z2Nat.id by lia.
Qed.

(** [gets] consumes at most one line and always terminates the buffer. *)
Lemma gets_loop_spec n buf i inp m i' rest m' :
  gets_loop n buf i inp m = (i', rest, m') ->
  exists line, inp = line ++ rest /\ i' = i + Z.of_nat (length line) /\ (length line <= n)%nat.
Proof.
  revert i inp m. induction n as [|n IH]; intros i [|c inp] m; cbn [gets_loop].
  1,2,3: intros [= <- <- <-]; exists []; simpl; (split; [done|]); lia.
  destruct ((c =? 10) || (c =? 13)).
  - intros [= <- <- <-]. exists [c]. simpl. split; [done|]. lia.
  - intros H. apply IH in H as (line & -> & -> & ?). exists (c :: line). simpl. split; [done|]. lia.
Qed.

End Ulib.

Module Printf.

Definition digit_upper (d : Z) : Z := if d <? 10 then 48 + d else 65 + (d - 10).

(** [do { buf[i++] = digits[x % base]; } while((x /= base) != 0);] — the
    bytes of [buf], first stored first. *)
Fixpoint digits_loop (digit : Z -> Z) (fuel : nat) (x base : Z) : list Z :=
  match fuel with
  | O => []
  | S f =>
      digit (x mod base) ::
      (if x / base =? 0 then [] else digits_loop digit f (x / base) base)
  end.

(** [printint(fd, xx, base, sgn)]: 32 iterations exceed the digits of any
    32-bit value in any base of at least two. *)
Definition printint (xx base : Z) (sgn : bool) : list Z :=
  let neg := sgn && (xx <? 0) in
  let x := u32 (if neg then - xx else xx) in
  let buf := digits_loop digit_upper 32 x base in
  rev (if neg then buf ++ [45] else buf).

(** The bytes from [a] up to the terminator. *)
Fixpoint read_cstr (fuel : nat) (m : mem) (a : Z) : option (list Z) :=
  match fuel with
  | O => None
  | S f =>
      if m a =? 0 then Some []
      else l ← read_cstr f m (u32 (a + 1)); Some (m a :: l)
  end.

Definition null_text : list Z := [40; 110; 117; 108; 108; 41].

(** [printf]: [st] is true after a [%]; [ap] the remaining variadic words;
    reading past them has no meaning ([None]). *)
Fixpoint printf_loop (fuel : nat) (m : mem) (fmt : list Z) (st : bool) (ap : list Z) : option (list Z) :=
  match fmt with
  | [] => Some []
  | c :: fmt' =>
      if negb st then
        if c =? 37 then printf_loop fuel m fmt' true ap
        else out ← printf_loop fuel m fmt' false ap; Some (c :: out)
      else if c =? 100 then
        match ap with
        | [] => None
        | a :: ap' => out ← printf_loop fuel m fmt' false ap'; Some (printint (i32 a) 10 true ++ out)
        end
      else if (c =? 120) || (c =? 112) then
        match ap with
        | [] => None
        | a :: ap' => out ← printf_loop fuel m fmt' false ap'; Some (printint (i32 a) 16 false ++ out)
        end
      else if c =? 115 then
        match ap with
        | [] => None
        | a :: ap' =>
            s ← (if a =? 0 then Some null_text else read_cstr fuel m a);
            out ← printf_loop fuel m fmt' false ap'; Some (s ++ out)
        end
      else if c =? 99 then
        match ap with
        | [] => None
        | a :: ap' => out ← printf_loop fuel m fmt' false ap'; Some (u8 a :: out)
        end
      else if c =? 37 then out ← printf_loop fuel m fmt' false ap; Some (c :: out)
      else out ← printf_loop fuel m fmt' false ap; Some (37 :: c :: out)
  end.
Definition printf (fuel : nat) (m : mem) (fmt ap : list Z) : option (list Z) :=
  printf_loop fuel m fmt false ap.

(** *** The digits of a number *)

Section digits.
Context (digit : Z -> Z).

Lemma length_digits_loop fuel x base k :
  1 < base -> 0 <= x < base ^ Z.of_nat (S k) -> (length (digits_loop digit fuel x base) <= S k)%nat.
Proof.
  intros Hb. revert x k. induction fuel as [|f IH]; intros x k Hx; [simpl; lia|].
  cbn [digits_loop length]. destruct (Z.eqb_spec (x / base) 0); [simpl; lia|].
  destruct k as [|k].
  - exfalso. rewrite Z.pow_1_r in Hx. pose proof (Z.div_small x base). lia.
  - apply le_n_S, IH. split; [apply Z.div_pos; lia|].
    apply Z.div_lt_upper_bound; [lia|].
    rewrite <- Z.pow_succ_r, <- Nat2Z.inj_succ by lia. lia.
Qed.

(** Reading the digits back, least significant first. *)
Fixpoint value_of (base : Z) (undigit : Z -> Z) (l : list Z) : Z :=
  match l with
  | [] => 0
  | c :: l' => undigit c + base * value_of base undigit l'
  end.

Lemma value_digits_loop undigit fuel x base :
  1 < base -> (forall d, 0 <= d < base -> undigit (digit d) = d) ->
  0 <= x < 2 ^ Z.of_nat fuel ->
  value_of base undigit (digits_loop digit fuel x base) = x.
Proof.
  intros Hb Hd. revert x. induction fuel as [|f IH]; intros x Hx.
  { simpl in *. lia. }
  cbn [digits_loop value_of]. rewrite Hd by (apply Z.mod_pos_bound; lia).
  pose proof (Z.div_mod x base ltac:(lia)).
  destruct (Z.eqb_spec (x / base) 0) as [E|E].
  - simpl. lia.
  - rewrite IH; [lia|]. split; [apply Z.div_pos; lia|].
    apply Z.div_lt_upper_bound; [lia|].
    rewrite Nat2Z.inj_succ, Z.pow_succ_r in Hx by lia. nia.
Qed.

Lemma digits_loop_Forall (P : Z -> Prop) fuel x base :
  1 < base -> (forall d, 0 <= d < base -> P (digit d)) -> Forall P (digits_loop digit fuel x base).
Proof.
  intros Hb HP. revert x. induction fuel as [|f IH]; intros x; [constructor|].
  cbn [digits_loop]. constructor; [apply HP, Z.mod_pos_bound; lia|].
  destruct (x / base =? 0); [constructor | apply IH].
Qed.
End digits.

Lemma dec_value_snoc l c n : Ulib.dec_value (l ++ [c]) n = Ulib.dec_value l n * 10 + (c - 48).
Proof. revert n. induction l as [|d l IH]; intros n; simpl; [done | apply IH]. Qed.

Lemma dec_value_rev l : Ulib.dec_value (rev l) 0 = value_of 10 (fun c => c - 48) l.
Proof.
  induction l as [|c l IH]; [done|]. simpl. rewrite dec_value_snoc, IH. lia.
Qed.

Lemma digit_upper_dec d : 0 <= d < 10 -> digit_upper d = 48 + d.
Proof. intros. unfold digit_upper. zb; lia. Qed.

(** [printint] prints every non-negative [int] so that [atoi] reads the
    same number back. *)
Theorem atoi_printint (x : Z) : 0 <= x < 2 ^ 31 -> Ulib.atoi (printint x 10 true) = x.
Proof.
  intros Hx. unfold printint. destruct (Z.ltb_spec x 0); [lia|]. simpl andb. cbn iota.
  rewrite u32_small by lia.
  assert (Hd : forall d, 0 <= d < 10 -> digit_upper d - 48 = d)
    by (intros d Hd; rewrite digit_upper_dec; lia).
  pose proof (value_digits_loop digit_upper (fun c => c - 48) 32 x 10 ltac:(lia) Hd ltac:(lia)) as Hv.
  rewrite Ulib.atoi_decimal; rewrite ?dec_value_rev, ?Hv; try lia.
  apply Forall_rev, digits_loop_Forall; [lia|]. intros d Hd'.
  rewrite digit_upper_dec by done. unfold Ulib.is_digit. lia.
Qed.

(** The 16-byte buffer of [printint] is never overrun. *)
Theorem printint_fits (xx base : Z) (sgn : bool) :
  base = 10 \/ base = 16 -> (length (printint xx base sgn) <= 11)%nat.
Proof.
  intros Hb. unfold printint. set (x := u32 _). pose proof (u32_range (if sgn && (xx <? 0) then - xx else xx)) as Hx.
  fold x in Hx. rewrite length_rev.
  assert (length (digits_loop digit_upper 32 x base) <= 10)%nat.
  { destruct Hb as [-> | ->].
    - apply length_digits_loop; [lia|]. change (10 ^ Z.of_nat 10) with 10000000000. lia.
    - transitivity 8%nat; [|lia]. apply length_digits_loop; [lia|].
      change (16 ^ Z.of_nat 8) with (2 ^ 32). lia. }
  destruct (sgn && (xx <? 0)); rewrite ?length_app; cbn [length]; lia.
Qed.

Lemma atoi_printint_witness : Ulib.atoi (printint 2147483647 10 true) = 2147483647.
Proof. apply (atoi_printint 2147483647). lia. Defined.

End Printf.
