(* ===== verification/Bio.v ===== *)
(** * The buffer cache: [bio.c] over the memory disk of [memide.c]

    The cache is an array of [NBUF] buffers threaded on a circular
    doubly-linked list through [prev]/[next]; the list head is kept as element
    [NBUF] of the array, so a pointer [&bcache.buf[i]] is the index [i] and
    [&bcache.head] is [NBUF].  The disk is a map from block numbers to blocks
    together with the log of the writes it received, newest first.

    The critical sections under [bcache.lock] are atomic; the sleep lock of a
    buffer is the field [b_locked]. *)

From S2P Require Import Prelude.

Definition NBUF : nat := 30.
Definition BSIZE : Z := 512.
Definition B_VALID : Z := 2.
Definition B_DIRTY : Z := 4.
Definition ROOTDEV : Z := 1.

Abbreviation block := (list Z).

(** [struct buf]. *)
Record buf := Buf {
  b_flags : Z;
  b_dev : Z;
  b_blockno : Z;
  b_locked : bool;
  b_refcnt : Z;
  b_prev : nat;
  b_next : nat;
  b_data : block
}.

(** [bcache] and the disk behind it. *)
Record bio := Bio {
  bufs : list buf;
  disk : gmap Z block;
  disksize : Z;
  wlog : list (Z * block)
}.

Definition head : nat := NBUF.
Definition zero_block : block := replicate (Z.to_nat BSIZE) 0.
Definition buf0 : buf := Buf 0 0 0 false 0 0 0 zero_block.

Definition bufat (s : bio) (i : nat) : buf := nth i (bufs s) buf0.
Definition set_buf (i : nat) (b : buf) (s : bio) : bio :=
  Bio (<[i := b]> (bufs s)) (disk s) (disksize s) (wlog s).

Definition with_flags (f : Z) (b : buf) : buf :=
  Buf f (b_dev b) (b_blockno b) (b_locked b) (b_refcnt b) (b_prev b) (b_next b) (b_data b).
Definition with_locked (l : bool) (b : buf) : buf :=
  Buf (b_flags b) (b_dev b) (b_blockno b) l (b_refcnt b) (b_prev b) (b_next b) (b_data b).
Definition with_refcnt (r : Z) (b : buf) : buf :=
  Buf (b_flags b) (b_dev b) (b_blockno b) (b_locked b) r (b_prev b) (b_next b) (b_data b).
Definition with_prev (p : nat) (b : buf) : buf :=
  Buf (b_flags b) (b_dev b) (b_blockno b) (b_locked b) (b_refcnt b) p (b_next b) (b_data b).
Definition with_next (n : nat) (b : buf) : buf :=
  Buf (b_flags b) (b_dev b) (b_blockno b) (b_locked b) (b_refcnt b) (b_prev b) n (b_data b).
Definition with_data (d : block) (b : buf) : buf :=
  Buf (b_flags b) (b_dev b) (b_blockno b) (b_locked b) (b_refcnt b) (b_prev b) (b_next b) d.

(** [b->field = ...] on the buffer at [i]. *)
Definition upd_buf (i : nat) (f : buf -> buf) (s : bio) : bio := set_buf i (f (bufat s i)) s.

(** ** bio.c *)

(** One iteration of the loop of [binit]. *)
Definition binit_link (b : nat) (s : bio) : bio :=
  let s := upd_buf b (with_next (b_next (bufat s head))) s in
  let s := upd_buf b (with_prev head) s in
  let s := upd_buf b (with_locked false) s in
  let s := upd_buf (b_next (bufat s head)) (with_prev b) s in
  upd_buf head (with_next b) s.

Fixpoint binit_loop (n b : nat) (s : bio) : bio :=
  match n with
  | O => s
  | S n' => binit_loop n' (S b) (binit_link b s)
  end.

Definition binit (s : bio) : bio :=
  let s := upd_buf head (with_prev head) s in
  let s := upd_buf head (with_next head) s in
  binit_loop NBUF 0 s.

(** [acquiresleep(&b->lock)] of a thread that is alone: it sleeps for ever
    on a lock that is taken. *)
Definition acquiresleep (i : nat) : M bio unit := fun s =>
  if b_locked (bufat s i) then Blocked "buffer"
  else Ret tt (upd_buf i (with_locked true) s).

(** [for(b = head.next; b != &head; b = b->next) if(match) ...] *)
Fixpoint bget_cached (fuel b : nat) (dev blockno : Z) (s : bio) : option nat :=
  match fuel with
  | O => None
  | S f =>
      if (b =? head)%nat then None
      else if (b_dev (bufat s b) =? dev) && (b_blockno (bufat s b) =? blockno) then Some b
      else bget_cached f (b_next (bufat s b)) dev blockno s
  end.

(** [for(b = head.prev; b != &head; b = b->prev) if(refcnt == 0 && clean) ...] *)
Fixpoint bget_victim (fuel b : nat) (s : bio) : option nat :=
  match fuel with
  | O => None
  | S f =>
      if (b =? head)%nat then None
      else if (b_refcnt (bufat s b) =? 0) && (Z.land (b_flags (bufat s b)) B_DIRTY =? 0) then Some b
      else bget_victim f (b_prev (bufat s b)) s
  end.

(** The list has [NBUF] buffers, so [NBUF + 1] steps reach the head again. *)
Definition bget (dev blockno : Z) : M bio nat := fun s =>
  match bget_cached (S NBUF) (b_next (bufat s head)) dev blockno s with
  | Some b =>
      (modify (upd_buf b (fun x => with_refcnt (u32 (b_refcnt x + 1)) x)) ;;;
       acquiresleep b ;;; ret b) s
  | None =>
      match bget_victim (S NBUF) (b_prev (bufat s head)) s with
      | Some b =>
          (modify (upd_buf b (fun x =>
             Buf 0 dev blockno (b_locked x) 1 (b_prev x) (b_next x) (b_data x))) ;;;
           acquiresleep b ;;; ret b) s
      | None => Panic "bget: no buffers"
      end
  end.

(** [iderw] of memide.c. *)
Definition iderw (i : nat) : M bio unit := fun s =>
  let b := bufat s i in
  if negb (b_locked b) then Panic "iderw: buf not locked"
  else if Z.land (b_flags b) (Z.lor B_VALID B_DIRTY) =? B_VALID then Panic "iderw: nothing to do"
  else if negb (b_dev b =? 1) then Panic "iderw: request not for disk 1"
  else if disksize s <=? b_blockno b then Panic "iderw: block out of range"
  else if negb (Z.land (b_flags b) B_DIRTY =? 0) then
    let b' := with_flags (Z.lor (Z.land (b_flags b) (Z.lnot B_DIRTY)) B_VALID) b in
    Ret tt (Bio (<[i := b']> (bufs s)) (<[b_blockno b := b_data b]> (disk s)) (disksize s)
              ((b_blockno b, b_data b) :: wlog s))
  else
    let d := default zero_block (disk s !! b_blockno b) in
    Ret tt (set_buf i (with_flags (Z.lor (b_flags b) B_VALID) (with_data d b)) s).

Definition bread (dev blockno : Z) : M bio nat :=
  let! b := bget dev blockno in
  let! s := get in
  when (Z.land (b_flags (bufat s b)) B_VALID =? 0) (iderw b) ;;;
  ret b.

Definition bwrite (i : nat) : M bio unit :=
  let! s := get in
  if negb (b_locked (bufat s i)) then panic "bwrite"
  else
    modify (upd_buf i (fun b => with_flags (Z.lor (b_flags b) B_DIRTY) b)) ;;;
    iderw i.

(** Unlink [b] and insert it after the head:
    [b->next->prev = b->prev; b->prev->next = b->next; b->next = head.next;
     b->prev = &head; head.next->prev = b; head.next = b;] *)
Definition move_front (b : nat) (s : bio) : bio :=
  let s := upd_buf (b_next (bufat s b)) (with_prev (b_prev (bufat s b))) s in
  let s := upd_buf (b_prev (bufat s b)) (with_next (b_next (bufat s b))) s in
  let s := upd_buf b (with_next (b_next (bufat s head))) s in
  let s := upd_buf b (with_prev head) s in
  let s := upd_buf (b_next (bufat s head)) (with_prev b) s in
  upd_buf head (with_next b) s.

Definition brelse (i : nat) : M bio unit :=
  let! s := get in
  if negb (b_locked (bufat s i)) then panic "brelse"
  else
    modify (upd_buf i (with_locked false)) ;;;
    modify (upd_buf i (fun b => with_refcnt (u32 (b_refcnt b - 1)) b)) ;;;
    let! s := get in
    when (b_refcnt (bufat s i) =? 0) (modify (move_front i)).

(** Assignments through [bp->data] by the code that holds the buffer. *)
Definition bstore (i : nat) (d : block) : M bio unit := modify (upd_buf i (with_data d)).

(** The kernel's view right after boot: a zeroed cache, linked by [binit]. *)
Definition boot (d : gmap Z block) (sz : Z) : bio :=
  binit (Bio (replicate (S NBUF) buf0) d sz []).

Definition ex_disk : gmap Z block := list_to_map ((fun i => (i, zero_block)) <$> seqZ 0 40).

Example ex_read_write :
  let m := let! b := bread 1 5 in bstore b (replicate 512 7) ;;; bwrite b ;;; brelse b ;;;
           let! c := bread 1 6 in brelse c ;;;
           let! b := bread 1 5 in ret b in
  match m (boot ex_disk 40) with
  | Ret b s => b_data (bufat s b) = replicate 512 7 /\ disk s !! 5 = Some (replicate 512 7)
  | _ => False
  end.
Proof. vm_compute. done. Qed.

(** ** Flag bits *)

Definition validf (f : Z) : bool := Z.testbit f 1.
Definition dirtyf (f : Z) : bool := Z.testbit f 2.

Lemma land_pow2 f k : 0 <= k -> Z.land f (2 ^ k) = if Z.testbit f k then 2 ^ k else 0.
Proof.
  intros Hk. apply Z.bits_inj'. intros i Hi. rewrite Z.land_spec, Z.pow2_bits_eqb by done.
  destruct (Z.eqb_spec k i) as [->|Hne].
  - rewrite andb_true_r. destruct (Z.testbit f i) eqn:E.
    + by rewrite Z.pow2_bits_true.
    + by rewrite Z.bits_0.
  - rewrite andb_false_r. destruct (Z.testbit f k).
    + by rewrite Z.pow2_bits_false.
    + by rewrite Z.bits_0.
Qed.

Lemma land_pow2_zero f k : 0 <= k -> (Z.land f (2 ^ k) =? 0) = negb (Z.testbit f k).
Proof. intros. rewrite land_pow2 by done. destruct (Z.testbit f k); [|done].
  apply Z.eqb_neq. pose proof (Z.pow_pos_nonneg 2 k). lia. Qed.

Lemma land_valid f : (Z.land f B_VALID =? 0) = negb (validf f).
Proof. apply (land_pow2_zero f 1). lia. Qed.
Lemma land_dirty f : (Z.land f B_DIRTY =? 0) = negb (dirtyf f).
Proof. apply (land_pow2_zero f 2). lia. Qed.

Lemma land_valid_dirty f :
  (Z.land f (Z.lor B_VALID B_DIRTY) =? B_VALID) = validf f && negb (dirtyf f).
Proof.
  assert (H : Z.land f (Z.lor B_VALID B_DIRTY)
              = Z.lor (if validf f then 2 else 0) (if dirtyf f then 4 else 0)).
  { rewrite Z.land_lor_distr_r.
    pose proof (land_pow2 f 1 ltac:(lia)) as H1. pose proof (land_pow2 f 2 ltac:(lia)) as H2.
    change (2 ^ 1) with B_VALID in H1. change (2 ^ 2) with B_DIRTY in H2.
    by rewrite H1, H2. }
  rewrite H. by destruct (validf f), (dirtyf f).
Qed.

Lemma validf_set f : validf (Z.lor f B_VALID) = true.
Proof. unfold validf. rewrite Z.lor_spec. apply orb_true_r. Qed.
Lemma dirtyf_set_valid f : dirtyf (Z.lor f B_VALID) = dirtyf f.
Proof. unfold dirtyf. rewrite Z.lor_spec. apply orb_false_r. Qed.
Lemma dirtyf_set f : dirtyf (Z.lor f B_DIRTY) = true.
Proof. unfold dirtyf. rewrite Z.lor_spec. apply orb_true_r. Qed.
Lemma validf_set_dirty f : validf (Z.lor f B_DIRTY) = validf f.
Proof. unfold validf. rewrite Z.lor_spec. apply orb_false_r. Qed.
Lemma dirtyf_clear f : dirtyf (Z.lor (Z.land f (Z.lnot B_DIRTY)) B_VALID) = false.
Proof. rewrite dirtyf_set_valid. unfold dirtyf. rewrite Z.land_spec, Z.lnot_spec by lia. apply andb_false_r. Qed.

#[export] Hint Rewrite land_valid land_dirty land_valid_dirty validf_set dirtyf_set_valid dirtyf_set
  validf_set_dirty dirtyf_clear : flags.

(** ** The doubly-linked list *)

(** Following [nx] from [a] visits [l] and then reaches [z]. *)
Fixpoint chain (nx : nat -> nat) (a : nat) (l : list nat) (z : nat) : Prop :=
  match l with
  | [] => nx a = z
  | x :: l' => nx a = x /\ chain nx x l' z
  end.

Definition fset (f : nat -> nat) (i v : nat) : nat -> nat := fun x => if (x =? i)%nat then v else f x.

Lemma fset_eq f i v : fset f i v i = v.
Proof. unfold fset. by rewrite Nat.eqb_refl. Qed.
Lemma fset_ne f i v x : x <> i -> fset f i v x = f x.
Proof. unfold fset. intros. by destruct (Nat.eqb_spec x i). Qed.

Lemma fset_lt f i v x n : (v < n)%nat -> (f x < n)%nat -> (fset f i v x < n)%nat.
Proof. unfold fset. by destruct (x =? i)%nat. Qed.

Lemma chain_app nx a l1 b l2 z :
  chain nx a (l1 ++ b :: l2) z <-> chain nx a l1 b /\ chain nx b l2 z.
Proof. revert a. induction l1 as [|x l1 IH]; intros a; simpl; [done|]. rewrite IH. tauto. Qed.

Lemma chain_ext nx nx' a l z :
  (forall x, x ∈ a :: l -> nx' x = nx x) -> chain nx a l z -> chain nx' a l z.
Proof.
  revert a. induction l as [|y l IH]; intros a H; simpl.
  - intros <-. apply H. set_solver.
  - intros [<- Hc]. split; [apply H; set_solver|]. apply IH; [|done]. set_solver.
Qed.

Lemma last_cons (x d : nat) l : List.last (x :: l) d = List.last l x.
Proof.
  revert x d. induction l as [|y l IH]; intros x d; [done|].
  change (List.last (x :: y :: l) d) with (List.last (y :: l) d). by rewrite !IH.
Qed.

Lemma last_in (a : nat) l : List.last l a ∈ a :: l.
Proof.
  revert a. induction l as [|x l IH]; intros a; [set_solver|].
  rewrite last_cons. apply elem_of_cons. right. apply IH.
Qed.

(** The element before the end of a chain now points to [w]. *)
Lemma chain_retarget nx a l z w :
  NoDup (a :: l) -> chain nx a l z -> chain (fset nx (List.last l a) w) a l w.
Proof.
  revert a. induction l as [|y l IH]; intros a Hnd Hc.
  - apply fset_eq.
  - destruct Hc as [Ha Hc]. apply NoDup_cons in Hnd as [Hn Hnd]. rewrite last_cons.
    split; [|by apply IH]. rewrite fset_ne; [done|]. intros ->. apply Hn, last_in.
Qed.

(** The first pointer of a chain moves to a new first element. *)
Lemma chain_push nx a l z b :
  b ∉ a :: l -> NoDup (a :: l) -> chain nx a l z ->
  chain (fset (fset nx b (nx a)) a b) a (b :: l) z.
Proof.
  intros Hb Hnd Hc. simpl. split; [apply fset_eq|].
  apply NoDup_cons in Hnd as [Ha _].
  destruct l as [|y l]; simpl in *.
  - rewrite fset_ne by set_solver. rewrite fset_eq. done.
  - destruct Hc as [Hy Hc]. split.
    + rewrite fset_ne by set_solver. by rewrite fset_eq.
    + eapply chain_ext, Hc. intros x Hx. rewrite !fset_ne; set_solver.
Qed.

Lemma chain_first nx a l z : chain nx a l z -> nx a = List.hd z l.
Proof. destruct l; simpl; tauto. Qed.

Lemma chain_range nx a l z x : chain nx a l z -> x ∈ a :: l -> nx x ∈ l ++ [z].
Proof.
  revert a. induction l as [|y l IH]; intros a; simpl.
  - intros <- ->%list_elem_of_singleton. set_solver.
  - intros [<- Hc] [->|Hx]%elem_of_cons; [set_solver|]. apply elem_of_cons. right. by eapply IH.
Qed.

(** Removing [b] from the middle. *)
Lemma chain_unlink nx a l1 b l2 z :
  NoDup (a :: l1 ++ b :: l2) -> chain nx a (l1 ++ b :: l2) z ->
  chain (fset nx (List.last l1 a) (nx b)) a (l1 ++ l2) z.
Proof.
  intros Hnd Hc. apply chain_app in Hc as [H1 H2].
  pose proof (last_in a l1) as Hlast.
  assert (Hnd1 : NoDup (a :: l1)) by (rewrite app_comm_cons in Hnd; by apply NoDup_app in Hnd as [? _]).
  assert (Hdis : forall x, x ∈ a :: l1 -> x ∉ b :: l2)
    by (rewrite app_comm_cons in Hnd; by apply NoDup_app in Hnd as (_ & ? & _)).
  pose proof (chain_retarget nx a l1 b (nx b) Hnd1 H1) as H1'.
  destruct l2 as [|y l2]; simpl in H2.
  - rewrite app_nil_r. by subst z.
  - destruct H2 as [Hy H2]. apply chain_app. split; [by rewrite <- Hy|].
    eapply chain_ext, H2. intros x Hx. rewrite fset_ne; [done|].
    intros ->. apply (Hdis _ Hlast). set_solver.
Qed.

Lemma rev_perm (l : list nat) : rev l ≡ₚ l.
Proof. symmetry. apply Permutation_rev. Qed.

Lemma elem_of_rev (x : nat) l : x ∈ rev l <-> x ∈ l.
Proof. by rewrite rev_perm. Qed.

Lemma hd_rev_last (l : list nat) d : List.hd d (rev l) = List.last l d.
Proof.
  revert d. induction l as [|x l IH]; intros d; [done|]. simpl rev. rewrite last_cons, <- IH.
  by destruct (rev l).
Qed.

(** ** The cache invariant *)

Definition nx (s : bio) (i : nat) : nat := b_next (bufat s i).
Definition pv (s : bio) (i : nat) : nat := b_prev (bufat s i).

(** [l] lists the buffers from most to least recently used. *)
Record lru (s : bio) (l : list nat) : Prop := {
  lru_next : chain (nx s) head l head;
  lru_prev : chain (pv s) head (rev l) head;
  lru_perm : l ≡ₚ seq 0 NBUF
}.

(** What a buffer holds besides its list pointers. *)
Definition core (b : buf) : Z * Z * Z * bool * Z * block :=
  (b_flags b, b_dev b, b_blockno b, b_locked b, b_refcnt b, b_data b).

Lemma bufat_upd s i f j :
  (i < length (bufs s))%nat ->
  bufat (upd_buf i f s) j = if (j =? i)%nat then f (bufat s j) else bufat s j.
Proof.
  intros Hi. unfold bufat, upd_buf, set_buf. simpl. destruct (Nat.eqb_spec j i) as [->|Hne].
  - rewrite nth_lookup, list_lookup_insert_eq by done. done.
  - rewrite !nth_lookup, list_lookup_insert_ne by done. done.
Qed.

Lemma length_upd s i f : length (bufs (upd_buf i f s)) = length (bufs s).
Proof. apply length_insert. Qed.

Lemma upd_upd s i f g :
  (i < length (bufs s))%nat -> upd_buf i g (upd_buf i f s) = upd_buf i (fun x => g (f x)) s.
Proof.
  intros Hi. unfold upd_buf at 1. rewrite bufat_upd, Nat.eqb_refl by done.
  unfold upd_buf, set_buf. simpl. by rewrite list_insert_insert_eq.
Qed.

Lemma core_upd s i f j :
  (forall b, core (f b) = core b) -> core (bufat (upd_buf i f s) j) = core (bufat s j).
Proof.
  intros Hf. destruct (decide (i < length (bufs s))%nat).
  - rewrite bufat_upd by done. destruct (j =? i)%nat; auto.
  - unfold bufat, upd_buf, set_buf. simpl. by rewrite list_insert_ge by lia.
Qed.

Section links.
Context (s : bio) (i : nat) (Hi : (i < length (bufs s))%nat).
Lemma nx_with_next v j : nx (upd_buf i (with_next v) s) j = fset (nx s) i v j.
Proof. unfold nx, fset. rewrite bufat_upd by done. by destruct (j =? i)%nat. Qed.
Lemma pv_with_prev v j : pv (upd_buf i (with_prev v) s) j = fset (pv s) i v j.
Proof. unfold pv, fset. rewrite bufat_upd by done. by destruct (j =? i)%nat. Qed.
Lemma nx_upd f j : (forall b, b_next (f b) = b_next b) -> nx (upd_buf i f s) j = nx s j.
Proof. intros Hf. unfold nx. rewrite bufat_upd by done. destruct (j =? i)%nat; auto. Qed.
Lemma pv_upd f j : (forall b, b_prev (f b) = b_prev b) -> pv (upd_buf i f s) j = pv s j.
Proof. intros Hf. unfold pv. rewrite bufat_upd by done. destruct (j =? i)%nat; auto. Qed.
End links.

Lemma lru_ext s s' l :
  (forall i, nx s' i = nx s i) -> (forall i, pv s' i = pv s i) -> lru s l -> lru s' l.
Proof. intros Hn Hp [H1 H2 H3]. split; [| |done]; (eapply chain_ext; [|done]); auto. Qed.

Lemma lru_upd s i f l :
  (i < length (bufs s))%nat ->
  (forall b, b_next (f b) = b_next b) -> (forall b, b_prev (f b) = b_prev b) ->
  lru s l -> lru (upd_buf i f s) l.
Proof. intros. eapply lru_ext; [..|done]; intros; [by rewrite nx_upd | by rewrite pv_upd]. Qed.

Lemma lru_nodup s l : lru s l -> NoDup (head :: l).
Proof.
  intros [_ _ Hp]. apply NoDup_cons. rewrite Hp. split; [|apply NoDup_seq].
  rewrite elem_of_seq. unfold head. lia.
Qed.

(** The pointer assignments of [move_front], on the pointer functions. *)
Lemma chain_move_front (nx pv : nat -> nat) h l1 b l2 :
  NoDup (h :: l1 ++ b :: l2) ->
  chain nx h (l1 ++ b :: l2) h -> chain pv h (rev (l1 ++ b :: l2)) h ->
  let pv1 := fset pv (nx b) (pv b) in
  let nx2 := fset nx (pv1 b) (nx b) in
  let nx3 := fset nx2 b (nx2 h) in
  let pv4 := fset (fset pv1 b h) (nx3 h) b in
  chain (fset nx3 h b) h (b :: l1 ++ l2) h /\
  chain pv4 h (rev (b :: l1 ++ l2)) h.
Proof.
  intros Hnd Hn Hp pv1 nx2 nx3 pv4.
  rewrite rev_app_distr in Hp. simpl in Hp. rewrite <- app_assoc in Hp. simpl in Hp.
  assert (Hpb : pv b = List.last l1 h).
  { apply chain_app in Hp as [_ H]. apply chain_first in H. by rewrite H, hd_rev_last. }
  assert (Hnb : nx b = List.last (rev l2) h).
  { apply chain_app in Hn as [_ H]. apply chain_first in H.
    rewrite H, <- (rev_involutive l2) at 1. by rewrite hd_rev_last. }
  assert (Hperm : h :: l1 ++ b :: l2 ≡ₚ b :: h :: l1 ++ l2) by (clear; solve_Permutation).
  pose proof Hnd as Hnd2. rewrite Hperm in Hnd2. apply NoDup_cons in Hnd2 as [Hbl Hnd'].
  assert (Hlast : List.last (rev l2) h ∈ h :: l2)
    by (pose proof (last_in h (rev l2)) as H; rewrite elem_of_cons, elem_of_rev in *; done).
  assert (Hnbb : nx b <> b) by (rewrite Hnb; intros E; apply Hbl; set_solver).
  assert (Hp1b : pv1 b = List.last l1 h) by (unfold pv1; by rewrite fset_ne).
  assert (Hc2 : chain nx2 h (l1 ++ l2) h) by (unfold nx2; rewrite Hp1b; by apply chain_unlink).
  split; [by apply chain_push|].
  assert (Hndr : NoDup (h :: rev l2 ++ b :: rev l1)).
  { assert (Hr : h :: l1 ++ b :: l2 ≡ₚ h :: rev l2 ++ b :: rev l1).
    { rewrite (rev_perm l1), (rev_perm l2). clear. solve_Permutation. }
    by rewrite <- Hr. }
  assert (Hpc : chain pv1 h (rev l2 ++ rev l1) h).
  { unfold pv1. rewrite Hnb. by apply chain_unlink. }
  simpl rev. rewrite rev_app_distr. apply chain_app.
  assert (Hn3h : nx3 h = List.last (rev l2 ++ rev l1) h).
  { unfold nx3. rewrite fset_ne by set_solver. apply chain_first in Hc2.
    rewrite Hc2, <- rev_app_distr, <- hd_rev_last, rev_involutive. done. }
  assert (Hbr : b ∉ h :: rev l2 ++ rev l1).
  { intros H. apply Hbl. rewrite elem_of_cons, elem_of_app in *. rewrite !elem_of_rev in H. tauto. }
  split.
  - eapply chain_ext, (chain_retarget pv1 h (rev l2 ++ rev l1) h b).
    + intros x Hx. unfold pv4. rewrite Hn3h. unfold fset.
      destruct (Nat.eqb_spec x (List.last (rev l2 ++ rev l1) h)); [done|].
      destruct (Nat.eqb_spec x b) as [->|]; [done|]. done.
    + rewrite NoDup_cons, elem_of_app, !elem_of_rev in *.
      rewrite <- rev_app_distr, rev_perm. set_solver.
    + done.
  - simpl. unfold pv4. rewrite fset_ne; [apply fset_eq|].
    rewrite Hn3h. intros ->. apply Hbr, last_in.
Qed.

Lemma lru_bound s l x : lru s l -> x ∈ head :: l <-> (x < S NBUF)%nat.
Proof. intros [_ _ Hp]. rewrite elem_of_cons, Hp, elem_of_seq. unfold head. lia. Qed.

(** [move_front] is "move to the front" on the list the pointers represent. *)
Lemma move_front_lru s l1 b l2 :
  length (bufs s) = S NBUF -> lru s (l1 ++ b :: l2) -> lru (move_front b s) (b :: l1 ++ l2).
Proof.
  intros Hlen Hl. pose proof (lru_nodup _ _ Hl) as Hnd.
  pose proof (fun x => lru_bound _ _ x Hl) as Hin. destruct Hl as [Hn Hp Hperm].
  pose proof (chain_move_front _ _ _ _ _ _ Hnd Hn Hp) as [Hn' Hp'].
  assert (Hb : (b < S NBUF)%nat) by (apply Hin; set_solver).
  assert (Hnb : (nx s b < S NBUF)%nat).
  { apply Hin. pose proof (chain_range _ _ _ _ b Hn). set_solver. }
  assert (Hpb : (pv s b < S NBUF)%nat).
  { apply Hin. pose proof (chain_range _ _ _ _ b Hp) as H. rewrite elem_of_app, elem_of_cons, !elem_of_rev in H.
    set_solver. }
  set (s1 := upd_buf (nx s b) (with_prev (pv s b)) s).
  set (s2 := upd_buf (pv s1 b) (with_next (nx s1 b)) s1).
  set (s3 := upd_buf b (with_next (nx s2 head)) s2).
  set (s4 := upd_buf b (with_prev head) s3).
  set (s5 := upd_buf (nx s4 head) (with_prev b) s4).
  change (move_front b s) with (upd_buf head (with_next b) s5).
  assert (Hnh : (nx s head < S NBUF)%nat).
  { apply Hin. pose proof (chain_range _ _ _ _ head Hn). set_solver. }
  set (pv1 := fset (pv s) (nx s b) (pv s b)) in *.
  set (nx2 := fset (nx s) (pv1 b) (nx s b)) in *.
  set (nx3 := fset nx2 b (nx2 head)) in *.
  set (pv4 := fset (fset pv1 b head) (nx3 head) b) in *.
  assert (Hp1 : (pv1 b < S NBUF)%nat) by (apply fset_lt; done).
  assert (Hn2 : (nx2 head < S NBUF)%nat) by (apply fset_lt; done).
  assert (Hn3 : (nx3 head < S NBUF)%nat) by (apply fset_lt; done).
  assert (Hh : (head < S NBUF)%nat) by (unfold head; lia).
  assert (L1 : length (bufs s1) = S NBUF) by (unfold s1; by rewrite length_upd).
  assert (L2 : length (bufs s2) = S NBUF) by (unfold s2; by rewrite length_upd).
  assert (L3 : length (bufs s3) = S NBUF) by (unfold s3; by rewrite length_upd).
  assert (L4 : length (bufs s4) = S NBUF) by (unfold s4; by rewrite length_upd).
  assert (L5 : length (bufs s5) = S NBUF) by (unfold s5; by rewrite length_upd).
  assert (N1 : forall j, nx s1 j = nx s j) by (intros; apply nx_upd; [lia | done]).
  assert (P1 : forall j, pv s1 j = pv1 j) by (intros; apply pv_with_prev; lia).
  assert (N2 : forall j, nx s2 j = nx2 j).
  { intros. unfold s2. rewrite nx_with_next by (rewrite P1; lia).
    unfold nx2, fset. by rewrite P1, !N1. }
  assert (P2 : forall j, pv s2 j = pv1 j).
  { intros. unfold s2. rewrite pv_upd by (rewrite ?P1; done || lia). apply P1. }
  assert (N3 : forall j, nx s3 j = nx3 j).
  { intros. unfold s3. rewrite nx_with_next by lia. unfold nx3, fset. by rewrite !N2. }
  assert (P3 : forall j, pv s3 j = pv1 j) by (intros; unfold s3; rewrite pv_upd by (done || lia); apply P2).
  assert (N4 : forall j, nx s4 j = nx3 j) by (intros; unfold s4; rewrite nx_upd by (done || lia); apply N3).
  assert (P4 : forall j, pv s4 j = fset pv1 b head j).
  { intros. unfold s4. rewrite pv_with_prev by lia. unfold fset. by rewrite P3. }
  split.
  - eapply chain_ext, Hn'. intros x _. rewrite nx_with_next by lia. unfold fset.
    destruct (x =? head)%nat; [done|]. unfold s5. rewrite nx_upd by (rewrite ?N4; done || lia). apply N4.
  - eapply chain_ext, Hp'. intros x _. rewrite pv_upd by (done || lia).
    unfold s5. rewrite pv_with_prev by (rewrite N4; lia). unfold pv4, fset. rewrite N4.
    destruct (x =? nx3 head)%nat; [done|]. by rewrite P4.
  - rewrite <- Hperm. clear. solve_Permutation.
Qed.

Lemma move_front_core s b j : core (bufat (move_front b s) j) = core (bufat s j).
Proof. unfold move_front. by rewrite !core_upd. Qed.
Lemma move_front_length s b : length (bufs (move_front b s)) = length (bufs s).
Proof. unfold move_front. by rewrite !length_upd. Qed.
Lemma move_front_disk s b :
  disk (move_front b s) = disk s /\ disksize (move_front b s) = disksize s /\ wlog (move_front b s) = wlog s.
Proof. done. Qed.

Lemma boot_lru d sz : lru (boot d sz) (rev (seq 0 NBUF)).
Proof. split; [vm_compute; tauto | vm_compute; tauto | apply rev_perm]. Qed.

Definition matches (s : bio) (dev b : Z) (i : nat) : bool :=
  (b_dev (bufat s i) =? dev) && (b_blockno (bufat s i) =? b).
Definition reusable (s : bio) (i : nat) : bool :=
  (b_refcnt (bufat s i) =? 0) && (Z.land (b_flags (bufat s i)) B_DIRTY =? 0).

(** The pointer walks of [bget] search the list in order. *)
Lemma bget_cached_find s l dev b fuel a :
  chain (nx s) a l head -> head ∉ l -> (length l < fuel)%nat ->
  bget_cached fuel (nx s a) dev b s = find (matches s dev b) l.
Proof.
  revert a fuel. induction l as [|x l IH]; intros a fuel Hc Hh Hf; destruct fuel as [|f]; simpl in Hf; try lia.
  - simpl in *. rewrite Hc. done.
  - destruct Hc as [Ha Hc]. cbn [bget_cached find]. rewrite Ha.
    destruct (Nat.eqb_spec x head); [set_solver|].
    unfold matches at 1. destruct (_ && _); [done|]. apply IH; [done | set_solver | lia].
Qed.

Lemma bget_victim_find s l fuel a :
  chain (pv s) a l head -> head ∉ l -> (length l < fuel)%nat ->
  bget_victim fuel (pv s a) s = find (reusable s) l.
Proof.
  revert a fuel. induction l as [|x l IH]; intros a fuel Hc Hh Hf; destruct fuel as [|f]; simpl in Hf; try lia.
  - simpl in *. rewrite Hc. done.
  - destruct Hc as [Ha Hc]. cbn [bget_victim find]. rewrite Ha.
    destruct (Nat.eqb_spec x head); [set_solver|].
    unfold reusable at 1. destruct (_ && _); [done|]. apply IH; [done | set_solver | lia].
Qed.

Lemma bget_eq s l dev b :
  lru s l ->
  bget_cached (S NBUF) (b_next (bufat s head)) dev b s = find (matches s dev b) l /\
  bget_victim (S NBUF) (b_prev (bufat s head)) s = find (reusable s) (rev l).
Proof.
  intros Hl. pose proof (lru_nodup _ _ Hl) as Hnd. apply NoDup_cons in Hnd as [Hh _].
  destruct Hl as [Hn Hp Hperm].
  assert (Hlen : length l = NBUF) by (rewrite Hperm; apply length_seq).
  split.
  - apply (bget_cached_find s l dev b (S NBUF) head); [done | done | lia].
  - apply (bget_victim_find s (rev l) (S NBUF) head); [done | by rewrite elem_of_rev | rewrite length_rev; lia].
Qed.

Lemma find_seq_some s l (f : nat -> bool) i :
  lru s l -> find f l = Some i -> f i = true /\ (i < NBUF)%nat.
Proof.
  intros [_ _ Hp] H. apply find_some in H as [Hin Hf]. split; [done|].
  apply list_elem_of_In in Hin. rewrite Hp, elem_of_seq in Hin. lia.
Qed.
Lemma find_seq_none s l (f : nat -> bool) i :
  lru s l -> find f l = None -> (i < NBUF)%nat -> f i = false.
Proof.
  intros [_ _ Hp] H Hi. eapply find_none; [done|]. apply list_elem_of_In.
  rewrite Hp, elem_of_seq. lia.
Qed.

(** ** The invariant of a cache used by one thread at a time

    [X] is the set of blocks whose buffer has been modified and not yet
    logged or written. *)
Definition block_ok (d : block) : Prop := length d = Z.to_nat BSIZE /\ Forall is_byte d.

Record buf_ok (X : gset Z) (s : bio) (b : buf) : Prop := {
  bo_range : 0 <= b_blockno b < disksize s;
  bo_ref : b_refcnt b = if b_locked b then 1 else 0;
  bo_valid : validf (b_flags b) = true;
  bo_data : block_ok (b_data b);
  bo_coh : dirtyf (b_flags b) = false -> b_blockno b ∉ X -> disk s !! b_blockno b = Some (b_data b);
  bo_mod : b_blockno b ∈ X -> b_locked b = true
}.

Record bio_inv (X : gset Z) (s : bio) : Prop := {
  bi_len : length (bufs s) = S NBUF;
  bi_lru : exists l, lru s l;
  bi_disk : forall b, 0 <= b < disksize s -> exists d, disk s !! b = Some d /\ block_ok d;
  bi_uniq : forall i j, (i < NBUF)%nat -> (j < NBUF)%nat ->
    b_dev (bufat s i) = 1 -> b_dev (bufat s j) = 1 ->
    b_blockno (bufat s i) = b_blockno (bufat s j) -> i = j;
  bi_buf : forall i, (i < NBUF)%nat ->
    (b_dev (bufat s i) = 1 /\ buf_ok X s (bufat s i)) \/
    (b_dev (bufat s i) = 0 /\ b_flags (bufat s i) = 0 /\ b_refcnt (bufat s i) = 0 /\ b_locked (bufat s i) = false)
}.

(** Buffer [i] caches block [b]. *)
Definition caches (s : bio) (i : nat) (b : Z) : Prop :=
  (i < NBUF)%nat /\ b_dev (bufat s i) = 1 /\ b_blockno (bufat s i) = b.
(** Buffer [i] is locked and caches block [b]. *)
Definition held (s : bio) (i : nat) (b : Z) : Prop := caches s i b /\ b_locked (bufat s i) = true.
Definition pinned (s : bio) (b : Z) : Prop := exists i, caches s i b /\ dirtyf (b_flags (bufat s i)) = true.

(** The content of block [b] as the kernel sees it. *)
Definition vw (s : bio) (b : Z) : block :=
  match find (matches s 1 b) (seq 0 NBUF) with
  | Some i => b_data (bufat s i)
  | None => default zero_block (disk s !! b)
  end.

Lemma matches_caches s i b : (i < NBUF)%nat -> matches s 1 b i = true <-> caches s i b.
Proof. intros Hi. unfold matches, caches. rewrite andb_true_iff, !Z.eqb_eq. tauto. Qed.

Lemma caches_inj X s i j b : bio_inv X s -> caches s i b -> caches s j b -> i = j.
Proof. intros HI (?&?&?) (?&?&?). eapply bi_uniq; eauto. congruence. Qed.

Lemma vw_cached X s i b : bio_inv X s -> caches s i b -> vw s b = b_data (bufat s i).
Proof.
  intros HI Hc. unfold vw. destruct (find _ _) as [j|] eqn:E.
  - apply find_some in E as [Hj Hm]. apply list_elem_of_In, elem_of_seq in Hj.
    apply matches_caches in Hm; [|lia]. by rewrite (caches_inj _ _ _ _ _ HI Hc Hm).
  - exfalso. destruct Hc as [Hi Hc]. assert (Hm : matches s 1 b i = true) by (by apply matches_caches).
    rewrite (find_none _ _ E i) in Hm; [done|]. apply list_elem_of_In, elem_of_seq. lia.
Qed.

Lemma vw_uncached s b : (forall i, ~ caches s i b) -> vw s b = default zero_block (disk s !! b).
Proof.
  intros Hn. unfold vw. destruct (find _ _) as [j|] eqn:E; [|done].
  apply find_some in E as [Hj Hm]. apply list_elem_of_In, elem_of_seq in Hj.
  apply matches_caches in Hm; [|lia]. by destruct (Hn j).
Qed.

(** Clean, unmodified blocks read the same from cache and disk. *)
Lemma vw_clean X s b :
  bio_inv X s -> 0 <= b < disksize s -> ~ pinned s b -> b ∉ X -> disk s !! b = Some (vw s b).
Proof.
  intros HI Hb Hp HX. destruct (bi_disk _ _ HI b Hb) as (d & Hd & _).
  destruct (find (matches s 1 b) (seq 0 NBUF)) as [i|] eqn:E.
  - apply find_some in E as [Hi Hm]. apply list_elem_of_In, elem_of_seq in Hi.
    apply matches_caches in Hm; [|lia]. rewrite (vw_cached X s i b HI Hm).
    destruct Hm as (Hi' & Hdev & Hbn). destruct (bi_buf _ _ HI i Hi') as [[_ Hok]|[? _]]; [|congruence].
    rewrite <- Hbn at 1. eapply bo_coh; [done| |by rewrite Hbn].
    destruct (dirtyf _) eqn:Ed; [|done]. exfalso. apply Hp. exists i. by repeat split.
  - rewrite vw_uncached, Hd; [done|]. intros i Hc.
    assert (Hm : matches s 1 b i = true) by (apply matches_caches; [apply Hc | done]).
    rewrite (find_none _ _ E i) in Hm; [done|]. apply list_elem_of_In, elem_of_seq. destruct Hc. lia.
Qed.

Lemma vw_ok X s b : bio_inv X s -> 0 <= b < disksize s -> block_ok (vw s b).
Proof.
  intros HI Hb. destruct (bi_disk _ _ HI b Hb) as (d & Hd & Hok).
  unfold vw. destruct (find _ _) as [i|] eqn:E.
  - apply find_some in E as [Hi Hm]. apply list_elem_of_In, elem_of_seq in Hi.
    apply matches_caches in Hm as (Hi' & Hdev & _); [|lia].
    destruct (bi_buf _ _ HI i Hi') as [[_ [_ _ _ Hd' _ _]]|[? _]]; [done | congruence].
  - by rewrite Hd.
Qed.

Lemma boot_inv d sz :
  (forall b, 0 <= b < sz -> exists x, d !! b = Some x /\ block_ok x) -> bio_inv ∅ (boot d sz).
Proof.
  intros Hd.
  assert (Hz : forall i, (i < NBUF)%nat -> b_dev (bufat (boot d sz) i) = 0 /\
    b_flags (bufat (boot d sz) i) = 0 /\ b_refcnt (bufat (boot d sz) i) = 0 /\
    b_locked (bufat (boot d sz) i) = false).
  { intros i Hi. unfold boot, binit. unfold NBUF in Hi.
    do 30 (destruct i as [|i]; [vm_compute; done|]). lia. }
  split.
  - done.
  - exists (rev (seq 0 NBUF)). apply boot_lru.
  - done.
  - intros i j Hi Hj Hdi. destruct (Hz i Hi) as [H0 _]. rewrite H0 in Hdi. discriminate Hdi.
  - intros i Hi. right. exact (Hz i Hi).
Qed.

(** ** Effect of the operations on the abstract view *)

(** Two states with the same buffer contents and disk are alike. *)
Record same_view (s s' : bio) : Prop := {
  sv_core : forall j, core (bufat s' j) = core (bufat s j);
  sv_disk : disk s' = disk s;
  sv_size : disksize s' = disksize s;
  sv_wlog : wlog s' = wlog s
}.

Lemma core_fields b b' : core b' = core b ->
  b_flags b' = b_flags b /\ b_dev b' = b_dev b /\ b_blockno b' = b_blockno b /\
  b_locked b' = b_locked b /\ b_refcnt b' = b_refcnt b /\ b_data b' = b_data b.
Proof. intros [= -> -> -> -> -> ->]. done. Qed.

Section same_view.
Context (s s' : bio) (HS : same_view s s').
Let F j := core_fields _ _ (sv_core _ _ HS j).
Lemma same_caches i b : caches s' i b <-> caches s i b.
Proof. unfold caches. destruct (F i) as (_ & -> & -> & _). done. Qed.
Lemma same_held i b : held s' i b <-> held s i b.
Proof. unfold held. rewrite same_caches. destruct (F i) as (_ & _ & _ & -> & _). done. Qed.
Lemma same_pinned b : pinned s' b <-> pinned s b.
Proof.
  unfold pinned. split; intros (i & Hc & Hd); exists i; rewrite same_caches in *;
    destruct (F i) as (Hf & _); [rewrite <- Hf | rewrite Hf]; done.
Qed.
Lemma same_vw b : vw s' b = vw s b.
Proof.
  unfold vw. replace (find (matches s' 1 b) (seq 0 NBUF)) with (find (matches s 1 b) (seq 0 NBUF)).
  - destruct (find _ _) as [j|]; [by destruct (F j) as (_&_&_&_&_& ->) | by rewrite (sv_disk _ _ HS)].
  - generalize (seq 0 NBUF). induction l as [|x l IH]; [done|]. cbn [find]. rewrite IH.
    unfold matches. destruct (F x) as (_ & -> & -> & _). done.
Qed.
Lemma same_inv X l :
  bio_inv X s -> length (bufs s') = S NBUF -> lru s' l -> bio_inv X s'.
Proof.
  intros HI Hlen Hl. split; [done | by exists l | | |].
  - rewrite (sv_disk _ _ HS), (sv_size _ _ HS). apply HI.
  - intros i j Hi Hj. destruct (F i) as (_ & -> & -> & _), (F j) as (_ & -> & -> & _).
    by apply (bi_uniq _ _ HI).
  - intros i Hi. destruct (F i) as (-> & -> & E3 & -> & -> & E6).
    destruct (bi_buf _ _ HI i Hi) as [[Hd [H1 H2 H3 H4 H5 H6]]|?]; [left|by right].
    split; [done|]. destruct (F i) as (E1 & _ & _ & E4 & E5 & _).
    split; rewrite ?(sv_disk _ _ HS), ?(sv_size _ _ HS), ?E1, ?E3, ?E4, ?E5, ?E6; done.
Qed.
End same_view.

(** An update of the buffer that caches [b], which keeps its identity and
    its place in the list. *)
Record keeps_id (f : buf -> buf) : Prop := {
  ki_dev : forall x, b_dev (f x) = b_dev x;
  ki_bno : forall x, b_blockno (f x) = b_blockno x;
  ki_prev : forall x, b_prev (f x) = b_prev x;
  ki_next : forall x, b_next (f x) = b_next x
}.

Section upd_cached.
Context (X X' : gset Z) (s s' : bio) (i : nat) (b : Z) (f : buf -> buf).
Context (HI : bio_inv X s) (Hc : caches s i b) (Hf : keeps_id f).
Context (Hbufs : bufs s' = bufs (upd_buf i f s)) (Hsz : disksize s' = disksize s).
Context (Hdisk : forall c, c <> b -> disk s' !! c = disk s !! c).
Context (HX : forall c, c <> b -> c ∈ X' <-> c ∈ X).
Context (Hdb : exists d, disk s' !! b = Some d /\ block_ok d).
Context (Hok : buf_ok X' s' (f (bufat s i))).

Lemma uc_at j : bufat s' j = if (j =? i)%nat then f (bufat s j) else bufat s j.
Proof.
  destruct Hc as [Hi _]. rewrite <- bufat_upd by (rewrite (bi_len _ _ HI); lia).
  unfold bufat. by rewrite Hbufs.
Qed.
Lemma uc_caches j c : caches s' j c <-> caches s j c.
Proof.
  unfold caches. rewrite uc_at. destruct (j =? i)%nat; [|done].
  by rewrite (ki_dev _ Hf), (ki_bno _ Hf).
Qed.
Lemma uc_caches_i : caches s' i b.
Proof. by apply uc_caches. Qed.
Lemma uc_other j c : j <> i -> caches s j c -> c <> b.
Proof. intros Hne Hj ->. apply Hne. eapply caches_inj; eauto. Qed.
Lemma uc_inv : bio_inv X' s'.
Proof.
  split.
  - rewrite Hbufs, length_upd. apply HI.
  - destruct (bi_lru _ _ HI) as [l Hl]. exists l.
    assert (Hi : (i < length (bufs s))%nat) by (destruct Hc; rewrite (bi_len _ _ HI); lia).
    pose proof (lru_upd s i f l Hi (ki_next _ Hf) (ki_prev _ Hf) Hl) as Hl'.
    eapply lru_ext, Hl'; intros j; unfold nx, pv, bufat; by rewrite Hbufs.
  - intros c Hcr. rewrite Hsz in Hcr. destruct (decide (c = b)) as [->|Hne]; [done|].
    rewrite Hdisk by done. by apply HI.
  - intros j k Hj Hk Hdj Hdk E.
    eapply (caches_inj X s j k (b_blockno (bufat s' j))); [done | |]; apply uc_caches; by repeat split.
  - intros j Hj. rewrite uc_at. destruct (Nat.eqb_spec j i) as [->|Hne].
    + left. rewrite (ki_dev _ Hf). by split; [apply Hc|].
    + destruct (bi_buf _ _ HI j Hj) as [[Hd [H1 H2 H3 H4 H5 H6]]|?]; [left | by right].
      split; [done|].
      assert (Hcb : b_blockno (bufat s j) <> b) by (apply (uc_other j); by repeat split).
      split; rewrite ?Hsz, ?Hdisk, ?HX by done; done.
Qed.
Lemma uc_vw : vw s' b = b_data (f (bufat s i)).
Proof.
  rewrite (vw_cached X' s' i b uc_inv uc_caches_i), uc_at. by rewrite Nat.eqb_refl.
Qed.
Lemma uc_vw_ne c : c <> b -> vw s' c = vw s c.
Proof.
  intros Hne. unfold vw.
  replace (find (matches s' 1 c) (seq 0 NBUF)) with (find (matches s 1 c) (seq 0 NBUF)).
  - destruct (find _ _) as [j|] eqn:E; [|by rewrite Hdisk].
    rewrite uc_at. destruct (Nat.eqb_spec j i) as [->|]; [|done].
    apply find_some in E as [Hj Hm]. unfold matches in Hm. apply andb_true_iff in Hm as [_ Hm].
    apply Z.eqb_eq in Hm. destruct Hc as (_ & _ & E). congruence.
  - generalize (seq 0 NBUF). induction l as [|x l IH]; [done|]. cbn [find]. rewrite IH.
    unfold matches. rewrite uc_at. destruct (x =? i)%nat; [|done].
    by rewrite (ki_dev _ Hf), (ki_bno _ Hf).
Qed.
Lemma uc_held j c : j <> i -> held s' j c <-> held s j c.
Proof.
  intros Hne. unfold held. rewrite uc_caches, uc_at. by destruct (Nat.eqb_spec j i).
Qed.
Lemma uc_held_i c : held s' i c <-> c = b /\ b_locked (f (bufat s i)) = true.
Proof.
  unfold held. rewrite uc_caches, uc_at, Nat.eqb_refl. split.
  - intros [Hi ?]. split; [|done]. destruct Hi as (_ & _ & <-), Hc as (_ & _ & ->). done.
  - by intros [-> ?].
Qed.
Lemma uc_pinned c : c <> b -> pinned s' c <-> pinned s c.
Proof.
  intros Hne. unfold pinned. split; intros (j & Hj & Hd); exists j; rewrite uc_caches in *;
    rewrite uc_at in *; destruct (Nat.eqb_spec j i) as [->|]; try done;
    destruct Hj as (_ & _ & E), Hc as (_ & _ & E'); congruence.
Qed.
Lemma uc_pinned_b : pinned s' b <-> dirtyf (b_flags (f (bufat s i))) = true.
Proof.
  unfold pinned. split.
  - intros (j & Hj & Hd). rewrite uc_caches in Hj. rewrite uc_at in Hd.
    rewrite (caches_inj _ _ _ _ _ HI Hj Hc), Nat.eqb_refl in Hd. done.
  - intros Hd. exists i. rewrite uc_caches, uc_at, Nat.eqb_refl. done.
Qed.
End upd_cached.

(** ** Abstract cache

    What a client sees: the content of every block, the buffers it holds, the
    blocks it has modified but not logged, and the blocks pinned by [B_DIRTY]. *)
Record babs := BAbs {
  a_vw : Z -> block;
  a_held : gmap nat Z;
  a_mod : gset Z;
  a_pin : gset Z
}.

Record brep (s : bio) (a : babs) : Prop := {
  br_inv : bio_inv (a_mod a) s;
  br_vw : forall b, vw s b = a_vw a b;
  br_held : forall i b, held s i b <-> a_held a !! i = Some b;
  br_pin : forall b, pinned s b <-> b ∈ a_pin a
}.

(** The disk and its write history are untouched. *)
Definition same_disk (s s' : bio) : Prop :=
  disk s' = disk s /\ disksize s' = disksize s /\ wlog s' = wlog s.

(** Blocks that occupy a buffer that cannot be recycled. *)
Definition busy (a : babs) : gset Z := a_pin a ∪ map_img (a_held a).

Lemma reusable_exists s a l :
  brep s a -> lru s l -> (size (busy a) < NBUF)%nat -> exists i, find (reusable s) (rev l) = Some i.
Proof.
  intros HR Hl Hsz. destruct (find (reusable s) (rev l)) as [i|] eqn:E; [eauto|]. exfalso.
  pose proof (br_inv _ _ HR) as HI.
  assert (Hb : forall i, (i < NBUF)%nat -> b_dev (bufat s i) = 1 /\ b_blockno (bufat s i) ∈ busy a).
  { intros i Hi. assert (Hr : reusable s i = false).
    { eapply find_none; [done|]. apply list_elem_of_In. rewrite elem_of_rev, (lru_perm _ _ Hl), elem_of_seq. lia. }
    unfold reusable in Hr. rewrite land_dirty in Hr.
    destruct (bi_buf _ _ HI i Hi) as [[Hd Hok]|(?&Hf&Hr0&?)].
    2: { rewrite Hf, Hr0 in Hr. done. }
    split; [done|]. unfold busy. rewrite elem_of_union. apply andb_false_iff in Hr as [Hr|Hr].
    - right. apply elem_of_map_img. exists i. apply (br_held _ _ HR).
      split; [by repeat split|]. rewrite (bo_ref _ _ _ Hok) in Hr. by destruct (b_locked _).
    - left. apply (br_pin _ _ HR). exists i. split; [by repeat split|]. by destruct (dirtyf _). }
  assert (Hnd : NoDup ((fun i => b_blockno (bufat s i)) <$> seq 0 NBUF)).
  { apply NoDup_fmap_2_strong; [|apply NoDup_seq].
    intros x y Hx%elem_of_seq Hy%elem_of_seq Heq.
    apply (bi_uniq _ _ HI); [lia | lia | apply Hb; lia | apply Hb; lia | done]. }
  assert (Hsub : list_to_set ((fun i => b_blockno (bufat s i)) <$> seq 0 NBUF) ⊆ busy a).
  { intros x. rewrite elem_of_list_to_set, list_elem_of_fmap. intros (i & -> & Hi%elem_of_seq).
    apply Hb. lia. }
  apply subseteq_size in Hsub. rewrite size_list_to_set in Hsub by done.
  rewrite length_fmap, length_seq in Hsub. lia.
Qed.

Definition bdata (s : bio) (i : nat) : block := b_data (bufat s i).

Lemma brep_data s a i b : brep s a -> a_held a !! i = Some b -> bdata s i = a_vw a b.
Proof.
  intros HR Hh. apply (br_held _ _ HR) in Hh as [Hc _]. rewrite <- (br_vw _ _ HR).
  symmetry. eapply vw_cached; [apply HR | done].
Qed.

Lemma brep_vw_ok s a b : brep s a -> 0 <= b < disksize s -> block_ok (a_vw a b).
Proof. intros HR Hb. rewrite <- (br_vw _ _ HR). eapply vw_ok; [apply HR | done]. Qed.

Lemma brep_held_range s a i b : brep s a -> a_held a !! i = Some b -> 0 <= b < disksize s /\ (i < NBUF)%nat.
Proof.
  intros HR Hh. apply (br_held _ _ HR) in Hh as [(Hi & Hd & <-) _]. split; [|done].
  destruct (bi_buf _ _ (br_inv _ _ HR) i Hi) as [[_ Hok]|[? _]]; [apply Hok | congruence].
Qed.

(** A held buffer that is updated in place. *)
Lemma brep_upd s a a' i b f s' :
  brep s a -> a_held a !! i = Some b -> keeps_id f ->
  bufs s' = bufs (upd_buf i f s) -> disksize s' = disksize s ->
  (forall c, c <> b -> disk s' !! c = disk s !! c) ->
  (exists d, disk s' !! b = Some d /\ block_ok d) ->
  (forall c, c <> b -> c ∈ a_mod a' <-> c ∈ a_mod a) ->
  buf_ok (a_mod a') s' (f (bufat s i)) ->
  (forall c, a_vw a' c = if decide (c = b) then b_data (f (bufat s i)) else a_vw a c) ->
  a_held a' = (if b_locked (f (bufat s i)) then a_held a else delete i (a_held a)) ->
  (forall c, c ∈ a_pin a' <-> if decide (c = b) then dirtyf (b_flags (f (bufat s i))) = true else c ∈ a_pin a) ->
  brep s' a'.
Proof.
  intros HR Hh Hf Hb Hsz Hd Hdb HX Hok Hv Hhe Hp.
  pose proof (proj2 (br_held _ _ HR i b) Hh) as [Hc _]. pose proof (br_inv _ _ HR) as HI.
  split.
  - eapply uc_inv; eauto.
  - intros c. rewrite Hv. case_decide as E.
    + subst c. eapply uc_vw; eauto.
    + rewrite <- (br_vw _ _ HR). eapply uc_vw_ne; eauto.
  - intros j c. rewrite Hhe. destruct (decide (j = i)) as [->|Hne].
    + rewrite (uc_held_i _ _ _ _ _ _ HI Hc Hf Hb). destruct (b_locked _).
      * rewrite Hh. naive_solver.
      * rewrite lookup_delete_eq. naive_solver.
    + rewrite (uc_held _ _ _ _ _ _ HI Hc Hf Hb) by done. rewrite (br_held _ _ HR).
      destruct (b_locked _); [done|]. by rewrite lookup_delete_ne by done.
  - intros c. rewrite Hp. case_decide as E.
    + subst c. eapply uc_pinned_b; eauto.
    + rewrite <- (br_pin _ _ HR). eapply uc_pinned; eauto.
Qed.

Lemma held_buf_ok s a i b :
  brep s a -> a_held a !! i = Some b ->
  buf_ok (a_mod a) s (bufat s i) /\ b_blockno (bufat s i) = b /\ b_locked (bufat s i) = true /\
  b_dev (bufat s i) = 1.
Proof.
  intros HR Hh. apply (br_held _ _ HR) in Hh as [(Hi & Hd & E) Hl].
  destruct (bi_buf _ _ (br_inv _ _ HR) i Hi) as [[_ Hok]|[? _]]; [done | congruence].
Qed.

Definition set_vw (a : babs) (b : Z) (d : block) : babs :=
  BAbs (fun c => if decide (c = b) then d else a_vw a c) (a_held a) ({[b]} ∪ a_mod a) (a_pin a).

Lemma bstore_spec s a i b d :
  brep s a -> a_held a !! i = Some b -> block_ok d ->
  wp (bstore i d) (fun _ s' => brep s' (set_vw a b d) /\ same_disk s s') s.
Proof.
  intros HR Hh Hd. destruct (held_buf_ok _ _ _ _ HR Hh) as ([H1 H2 H3 H4 H5 H6] & Hb & Hl & Hdev).
  apply wp_modify. split; [|done].
  eapply (brep_upd s a _ i b (with_data d)); try done.
  - subst b. destruct (bi_disk _ _ (br_inv _ _ HR) _ H1) as (x & ? & ?). by exists x.
  - intros c Hne. simpl. set_solver.
  - split; simpl; try done. rewrite Hb. set_solver.
  - simpl. by rewrite Hl.
  - intros c. simpl. case_decide as E; [|done]. subst c.
    rewrite <- (br_pin _ _ HR). apply (br_held _ _ HR) in Hh as [Hc _].
    split.
    + intros (j & Hj & Hdj). by rewrite <- (caches_inj _ _ _ _ _ (br_inv _ _ HR) Hj Hc).
    + intros ?. by exists i.
Qed.

(** [b->flags |= B_DIRTY], what [log_write] does to the buffer. *)
Definition set_dirty (i : nat) : M bio unit := modify (upd_buf i (fun b => with_flags (Z.lor (b_flags b) B_DIRTY) b)).

Definition set_pin (a : babs) (b : Z) : babs :=
  BAbs (a_vw a) (a_held a) (a_mod a ∖ {[b]}) ({[b]} ∪ a_pin a).

Lemma set_dirty_spec s a i b :
  brep s a -> a_held a !! i = Some b ->
  wp (set_dirty i) (fun _ s' => brep s' (set_pin a b) /\ same_disk s s') s.
Proof.
  intros HR Hh. destruct (held_buf_ok _ _ _ _ HR Hh) as ([H1 H2 H3 H4 H5 H6] & Hb & Hl & Hdev).
  apply wp_modify. split; [|done].
  eapply (brep_upd s a _ i b (fun x => with_flags (Z.lor (b_flags x) B_DIRTY) x)); try done.
  - subst b. destruct (bi_disk _ _ (br_inv _ _ HR) _ H1) as (x & ? & ?). by exists x.
  - intros c Hne. simpl. set_solver.
  - split; simpl; autorewrite with flags; try done.
  - intros c. simpl. case_decide as E; [|done]. subst c. by rewrite <- (brep_data _ _ _ _ HR Hh).
  - simpl. by rewrite Hl.
  - intros c. simpl. autorewrite with flags. case_decide; set_solver.
Qed.

(** Writing a held buffer to disk. *)
Definition set_clean (a : babs) (b : Z) : babs :=
  BAbs (a_vw a) (a_held a) (a_mod a ∖ {[b]}) (a_pin a ∖ {[b]}).

Lemma bwrite_spec s a i b :
  brep s a -> a_held a !! i = Some b ->
  wp (bwrite i) (fun _ s' => brep s' (set_clean a b) /\
    disk s' = <[b := a_vw a b]> (disk s) /\ disksize s' = disksize s /\
    wlog s' = (b, a_vw a b) :: wlog s) s.
Proof.
  intros HR Hh. destruct (held_buf_ok _ _ _ _ HR Hh) as ([H1 H2 H3 H4 H5 H6] & Hb & Hl & Hdev).
  unfold bwrite. wp_steps. rewrite Hl. simpl negb. cbn iota. wp_steps.
  assert (Hi : (i < length (bufs s))%nat).
  { rewrite (bi_len _ _ (br_inv _ _ HR)). pose proof (brep_held_range _ _ _ _ HR Hh). lia. }
  unfold wp, iderw. rewrite bufat_upd by done. rewrite Nat.eqb_refl. simpl.
  autorewrite with flags. rewrite Hl, Hdev, H3. simpl.
  destruct (Z.leb_spec (disksize s) (b_blockno (bufat s i))); [lia|]. simpl.
  rewrite Hb. pose proof (brep_data _ _ _ _ HR Hh) as Hdat. unfold bdata in Hdat.
  rewrite Hdat. split; [|done].
  eapply (brep_upd s a (set_clean a b) i b
            (fun x => with_flags (Z.lor (Z.land (Z.lor (b_flags x) B_DIRTY) (Z.lnot B_DIRTY)) B_VALID) x));
    try done; simpl.
  - by rewrite list_insert_insert_eq.
  - intros c Hne. by rewrite lookup_insert_ne.
  - exists (a_vw a b). rewrite lookup_insert_eq. split; [done|]. by rewrite <- Hdat.
  - intros c Hne. set_solver.
  - split; simpl; autorewrite with flags; try done.
    intros _ _. rewrite Hb, lookup_insert_eq. by rewrite Hdat.
  - intros c. rewrite Hdat. by case_decide; subst.
  - by rewrite Hl.
  - intros c. autorewrite with flags. case_decide; set_solver.
Qed.

Definition set_released (a : babs) (i : nat) : babs :=
  BAbs (a_vw a) (delete i (a_held a)) (a_mod a) (a_pin a).

Lemma brelse_spec s a i b :
  brep s a -> a_held a !! i = Some b -> b ∉ a_mod a ->
  wp (brelse i) (fun _ s' => brep s' (set_released a i) /\ same_disk s s') s.
Proof.
  intros HR Hh HX. destruct (held_buf_ok _ _ _ _ HR Hh) as ([H1 H2 H3 H4 H5 H6] & Hb & Hl & Hdev).
  unfold brelse. wp_steps. rewrite Hl. simpl negb. cbn iota. wp_steps.
  pose proof (brep_held_range _ _ _ _ HR Hh) as [_ HiN].
  assert (Hi : (i < length (bufs s))%nat) by (rewrite (bi_len _ _ (br_inv _ _ HR)); lia).
  set (s1 := upd_buf i (fun b => with_refcnt (u32 (b_refcnt b - 1)) b) (upd_buf i (with_locked false) s)).
  assert (Es1 : s1 = upd_buf i (fun x => with_refcnt (u32 (b_refcnt x - 1)) (with_locked false x)) s)
    by (by apply (upd_upd s i (with_locked false))).
  assert (HD1 : same_disk s s1) by done. clearbody s1.
  assert (H1' : brep s1 (set_released a i)).
  { eapply (brep_upd s a (set_released a i) i b
      (fun x => with_refcnt (u32 (b_refcnt x - 1)) (with_locked false x))); try done; simpl.
    - by rewrite Es1.
    - by destruct HD1 as (? & -> & ?).
    - by destruct HD1 as (-> & _).
    - destruct HD1 as (-> & _).
      subst b. destruct (bi_disk _ _ (br_inv _ _ HR) _ H1) as (x & ? & ?). by exists x.
    - destruct HD1 as (Hd1 & Hd2 & _).
      split; simpl; rewrite ?Hd1, ?Hd2; try done; [|by rewrite Hb].
      rewrite H2, Hl. by rewrite u32_small by lia.
    - intros c. case_decide as E; [|done]. subst c. by rewrite <- (brep_data _ _ _ _ HR Hh).
    - intros c. case_decide as E; [|done]. subst c.
      rewrite <- (br_pin _ _ HR). apply (br_held _ _ HR) in Hh as [Hc _]. split.
      + intros (j & Hj & Hdj). by rewrite <- (caches_inj _ _ _ _ _ (br_inv _ _ HR) Hj Hc).
      + intros ?. by exists i. }
  assert (Hr0 : b_refcnt (bufat s1 i) = 0).
  { rewrite Es1, bufat_upd by done. rewrite Nat.eqb_refl. simpl.
    rewrite H2, Hl. by rewrite u32_small by lia. }
  rewrite Hr0. simpl. apply wp_modify. split; [|done].
  destruct (bi_lru _ _ (br_inv _ _ H1')) as [l Hll].
  assert (Hin : i ∈ l) by (rewrite (lru_perm _ _ Hll), elem_of_seq; lia).
  apply list_elem_of_split in Hin as (l1 & l2 & ->).
  assert (HS : same_view s1 (move_front i s1)) by (split; [intros; apply move_front_core | done..]).
  split.
  - eapply same_inv; [done | apply H1' | rewrite move_front_length; apply (br_inv _ _ H1')|].
    apply move_front_lru; [apply (br_inv _ _ H1') | done].
  - intros c. rewrite (same_vw _ _ HS). apply H1'.
  - intros j c. rewrite (same_held _ _ HS). apply H1'.
  - intros c. rewrite (same_pinned _ _ HS). apply H1'.
Qed.

Definition set_held (a : babs) (i : nat) (b : Z) : babs :=
  BAbs (a_vw a) (<[i := b]> (a_held a)) (a_mod a) (a_pin a).

(** Locking a buffer that is already cached. *)
Lemma brep_lock s a i b s' :
  brep s a -> caches s i b -> b_locked (bufat s i) = false ->
  s' = upd_buf i (fun x => with_locked true (with_refcnt (u32 (b_refcnt x + 1)) x)) s ->
  a_held a !! i = None /\ brep s' (set_held a i b).
Proof.
  intros HR Hc Hl ->. pose proof (br_inv _ _ HR) as HI. pose proof Hc as (Hi & Hdev & Hb).
  assert (Hnone : a_held a !! i = None).
  { destruct (a_held a !! i) as [c|] eqn:E; [|done].
    apply (br_held _ _ HR) in E as [_ E]. congruence. }
  split; [done|].
  destruct (bi_buf _ _ HI i Hi) as [[_ [H1 H2 H3 H4 H5 H6]]|[? _]]; [|congruence].
  set (f := fun x => with_locked true (with_refcnt (u32 (b_refcnt x + 1)) x)).
  assert (Hf : keeps_id f) by done.
  assert (Hok : buf_ok (a_mod a) (upd_buf i f s) (f (bufat s i))).
  { split; simpl; try done. rewrite H2, Hl. by rewrite u32_small by lia. }
  assert (Hdb : exists d, disk (upd_buf i f s) !! b = Some d /\ block_ok d).
  { subst b. by apply (bi_disk _ _ HI). }
  split; simpl.
  - eapply (uc_inv (a_mod a)); done.
  - intros c. rewrite <- (br_vw _ _ HR). destruct (decide (c = b)) as [->|].
    + rewrite (uc_vw (a_mod a) (a_mod a) s (upd_buf i f s) i b f) by done.
      by rewrite (vw_cached _ _ _ _ HI Hc).
    + by apply (uc_vw_ne (a_mod a) s (upd_buf i f s) i b f).
  - intros j c. destruct (decide (j = i)) as [->|].
    + rewrite (uc_held_i (a_mod a) s (upd_buf i f s) i b f), lookup_insert_eq by done. naive_solver.
    + rewrite (uc_held (a_mod a) s (upd_buf i f s) i b f), lookup_insert_ne by done. apply HR.
  - intros c. rewrite <- (br_pin _ _ HR). destruct (decide (c = b)) as [->|].
    + rewrite (uc_pinned_b (a_mod a) s (upd_buf i f s) i b f) by done. simpl. split.
      * intros ?. by exists i.
      * intros (j & Hj & Hdj). by rewrite <- (caches_inj _ _ _ _ _ HI Hj Hc).
    + by apply (uc_pinned (a_mod a) s (upd_buf i f s) i b f).
Qed.

(** Recycling a buffer for a block that is not cached. *)
Definition fresh_buf (b : Z) (d : block) (x : buf) : buf :=
  Buf (Z.lor 0 B_VALID) 1 b true 1 (b_prev x) (b_next x) d.

Section recycle.
Context (s : bio) (a : babs) (i : nat) (b : Z) (d : block).
Context (HR : brep s a) (Hi : (i < NBUF)%nat) (Hre : reusable s i = true).
Context (Hb : 0 <= b < disksize s) (Hd : disk s !! b = Some d) (Hun : forall j, ~ caches s j b).
Let s' := upd_buf i (fresh_buf b d) s.
Let HI := br_inv _ _ HR.

Lemma rc_at j : bufat s' j = if (j =? i)%nat then fresh_buf b d (bufat s j) else bufat s j.
Proof. apply bufat_upd. rewrite (bi_len _ _ HI). lia. Qed.
Lemma rc_clean : dirtyf (b_flags (bufat s i)) = false /\ b_refcnt (bufat s i) = 0.
Proof.
  unfold reusable in Hre. rewrite land_dirty in Hre. apply andb_true_iff in Hre as [H1 H2].
  apply Z.eqb_eq in H1. by destruct (dirtyf _).
Qed.
Lemma rc_unlocked : b_locked (bufat s i) = false.
Proof.
  destruct rc_clean as [_ Hr]. destruct (bi_buf _ _ HI i Hi) as [[_ Hok]|(_&_&_&?)]; [|done].
  rewrite (bo_ref _ _ _ Hok) in Hr. by destruct (b_locked _).
Qed.
Lemma rc_caches j c : j <> i -> caches s' j c <-> caches s j c.
Proof. intros Hne. unfold caches. rewrite rc_at. by destruct (Nat.eqb_spec j i). Qed.
Lemma rc_caches_i c : caches s' i c <-> c = b.
Proof. unfold caches. rewrite rc_at, Nat.eqb_refl. simpl. naive_solver. Qed.
Lemma rc_inv : bio_inv (a_mod a) s'.
Proof.
  split.
  - unfold s'. rewrite length_upd. apply HI.
  - destruct (bi_lru _ _ HI) as [l Hl]. exists l. apply lru_upd; try done.
    rewrite (bi_len _ _ HI). lia.
  - apply HI.
  - intros j k Hj Hk. rewrite !rc_at.
    destruct (Nat.eqb_spec j i) as [->|], (Nat.eqb_spec k i) as [->|]; simpl; try done.
    + intros _ Hdk Hbk. exfalso. apply (Hun k). by repeat split.
    + intros Hdj _ Hbj. exfalso. apply (Hun j). by repeat split.
    + by apply (bi_uniq _ _ HI).
  - intros j Hj. rewrite rc_at. destruct (Nat.eqb_spec j i) as [->|].
    2: { destruct (bi_buf _ _ HI j Hj) as [[? []]|?]; [left; by split | by right]. }
    left. split; [done|]. destruct (bi_disk _ _ HI b Hb) as (d' & Hd' & Hok). split; simpl; try done.
    congruence.
Qed.
(** The victim's old content is on disk. *)
Lemma rc_victim c : caches s i c -> vw s c = default zero_block (disk s !! c).
Proof.
  intros Hc. assert (Hrange : 0 <= c < disksize s).
  { destruct Hc as (_ & Hdev & <-). destruct (bi_buf _ _ HI i Hi) as [[_ Hok]|[? _]]; [apply Hok | congruence]. }
  rewrite (vw_clean (a_mod a) s c HI Hrange); [done | |].
  - intros (j & Hj & Hdj). rewrite (caches_inj _ _ _ _ _ HI Hj Hc) in Hdj.
    destruct rc_clean. congruence.
  - intros HX. pose proof rc_unlocked. destruct Hc as (_ & Hdev & <-).
    destruct (bi_buf _ _ HI i Hi) as [[_ Hok]|[? _]]; [|congruence].
    rewrite (bo_mod _ _ _ Hok HX) in *. done.
Qed.
Lemma rc_vw c : vw s' c = vw s c.
Proof.
  destruct (decide (c = b)) as [->|Hne].
  - assert (Hci : caches s' i b) by (by apply rc_caches_i).
    rewrite (vw_cached _ _ _ _ rc_inv Hci), rc_at, Nat.eqb_refl. simpl.
    rewrite vw_uncached by done. by rewrite Hd.
  - destruct (find (matches s 1 c) (seq 0 NBUF)) as [j|] eqn:E.
    + apply find_some in E as [Hj Hm]. apply list_elem_of_In, elem_of_seq in Hj.
      apply matches_caches in Hm; [|lia]. destruct (decide (j = i)) as [->|Hji].
      * rewrite rc_victim by done. rewrite (vw_uncached s'); [done|]. intros k Hk.
        destruct (decide (k = i)) as [->|]; [apply rc_caches_i in Hk; congruence|].
        apply rc_caches in Hk; [|done]. by rewrite (caches_inj _ _ _ _ _ HI Hk Hm) in *.
      * rewrite (vw_cached _ _ _ _ HI Hm). apply rc_caches in Hm; [|done].
        rewrite (vw_cached _ _ _ _ rc_inv Hm), rc_at. by destruct (Nat.eqb_spec j i).
    + assert (Hno : forall k, ~ caches s k c).
      { intros k Hk. pose proof Hk as [Hk' _]. apply matches_caches in Hk; [|done].
        rewrite (find_none _ _ E k) in Hk; [done|]. apply list_elem_of_In, elem_of_seq. lia. }
      rewrite (vw_uncached s) by done. rewrite (vw_uncached s'); [done|]. intros k Hk.
      destruct (decide (k = i)) as [->|]; [apply rc_caches_i in Hk; congruence|].
      apply rc_caches in Hk; [|done]. by apply (Hno k).
Qed.
Lemma rc_rep : a_held a !! i = None /\ brep s' (set_held a i b).
Proof.
  split.
  { destruct (a_held a !! i) as [c|] eqn:E; [|done].
    apply (br_held _ _ HR) in E as [_ E]. rewrite rc_unlocked in E. done. }
  split; simpl.
  - apply rc_inv.
  - intros c. rewrite rc_vw. apply HR.
  - intros j c. destruct (decide (j = i)) as [->|].
    + unfold held. rewrite rc_caches_i, rc_at, Nat.eqb_refl, lookup_insert_eq. simpl. naive_solver.
    + unfold held. rewrite rc_caches, rc_at, lookup_insert_ne by done.
      destruct (Nat.eqb_spec j i); [done|]. apply HR.
  - intros c. rewrite <- (br_pin _ _ HR). unfold pinned. split; intros (j & Hj & Hdj).
    + rewrite rc_at in Hdj. destruct (Nat.eqb_spec j i) as [->|]; [done|].
      apply rc_caches in Hj; [|done]. by exists j.
    + exists j. destruct (decide (j = i)) as [->|].
      { destruct rc_clean. congruence. }
      rewrite rc_caches, rc_at by done. by destruct (Nat.eqb_spec j i).
Qed.
End recycle.

(** [bread] of a block nobody holds returns a locked buffer with the block's
    content, and changes nothing else a client can see, as long as the pinned
    and held blocks leave a buffer to recycle. *)
Lemma bread_spec s a b :
  brep s a -> 0 <= b < disksize s -> (forall i, a_held a !! i <> Some b) ->
  (b ∈ a_pin a \/ (size (busy a) < NBUF)%nat) ->
  wp (bread 1 b) (fun i s' => a_held a !! i = None /\ brep s' (set_held a i b) /\ same_disk s s') s.
Proof.
  intros HR Hb Hnh Hsz. pose proof (br_inv _ _ HR) as HI.
  destruct (bi_lru _ _ HI) as [l Hl]. pose proof (bi_len _ _ HI) as Hlen.
  unfold bread. apply wp_bind. unfold bget, wp.
  destruct (bget_eq s l 1 b Hl) as [-> ->].
  destruct (find (matches s 1 b) l) as [i|] eqn:E.
  - apply (find_seq_some s) in E as [Hm Hi]; [|done]. apply matches_caches in Hm; [|done].
    assert (Hlk : b_locked (bufat s i) = false).
    { destruct (b_locked (bufat s i)) eqn:El; [|done]. exfalso. apply (Hnh i), (br_held _ _ HR). by split. }
    unfold acquiresleep, bind, modify, ret. rewrite bufat_upd, Nat.eqb_refl by lia. simpl. rewrite Hlk.
    rewrite upd_upd by lia. simpl. rewrite bufat_upd, Nat.eqb_refl by lia. simpl.
    destruct (brep_lock s a i b _ HR Hm Hlk eq_refl) as [Hn HR'].
    destruct (held_buf_ok _ _ i b HR' ltac:(apply lookup_insert_eq)) as (Hok & _).
    pose proof (bo_valid _ _ _ Hok) as Hv. rewrite bufat_upd, Nat.eqb_refl in Hv by lia. simpl in Hv.
    rewrite land_valid, Hv. simpl. done.
  - destruct Hsz as [(j & Hj & _)%(br_pin _ _ HR)|Hsz].
    { pose proof Hj as [Hj' _]. apply matches_caches in Hj; [|done].
      rewrite (find_seq_none s l _ j Hl E Hj') in Hj. done. }
    destruct (reusable_exists s a l HR Hl Hsz) as [i Ei]. rewrite Ei.
    assert (Hi : reusable s i = true /\ (i < NBUF)%nat).
    { apply find_some in Ei as [Hin Hr]. split; [done|]. apply list_elem_of_In in Hin.
      rewrite elem_of_rev, (lru_perm _ _ Hl), elem_of_seq in Hin. lia. }
    destruct Hi as [Hre Hi].
    destruct (bi_disk _ _ HI b Hb) as (d & Hd & _).
    pose proof (rc_unlocked s a i HR Hi Hre) as Hlk.
    unfold acquiresleep, bind, modify, ret. rewrite bufat_upd, Nat.eqb_refl by lia. simpl. rewrite Hlk.
    rewrite upd_upd by lia. simpl. rewrite bufat_upd, Nat.eqb_refl by lia. simpl.
    unfold when, iderw. rewrite bufat_upd, Nat.eqb_refl by lia. simpl.
    destruct (Z.leb_spec (disksize s) b); [lia|]. rewrite Hd. simpl.
    assert (Hun : forall j, ~ caches s j b).
    { intros j Hj. pose proof Hj as [Hj' _]. apply matches_caches in Hj; [|done].
      rewrite (find_seq_none s l _ j Hl E Hj') in Hj. done. }
    destruct (rc_rep s a i b d HR Hi Hre Hb Hd Hun) as [Hn HR'].
    split; [done|]. split; [|done].
    match goal with |- brep ?x _ => replace x with (upd_buf i (fresh_buf b d) s) end; [done|].
    unfold upd_buf, set_buf. simpl. rewrite list_insert_insert_eq. rewrite Hlk. done.
Qed.
