(* ===== verification/Layout.v ===== *)
(** * On-disk layout: [fs.h], [stat.h], [param.h]

    The file-system constants, and the C structures as they lie in a block:
    little-endian words at fixed offsets. *)

From S2P Require Import Prelude Bio.

Definition ROOTINO : Z := 1.
Definition NDIRECT : Z := 12.
Definition NINDIRECT : Z := BSIZE / 4.
Definition MAXFILE : Z := NDIRECT + NINDIRECT.
Definition DINODE_SIZE : Z := 64.
Definition IPB : Z := BSIZE / DINODE_SIZE.
Definition BPB : Z := BSIZE * 8.
Definition DIRSIZ : Z := 14.
Definition DIRENT_SIZE : Z := 16.
Definition NINODE : Z := 50.
Definition NDEV : Z := 10.
Definition NOFILE : Z := 16.
Definition NFILE : Z := 100.
Definition MAXOPBLOCKS : Z := 10.
Definition LOGSIZE : Z := MAXOPBLOCKS * 3.
Definition FSSIZE : Z := 1000.

Definition T_DIR : Z := 1.
Definition T_FILE : Z := 2.
Definition T_DEV : Z := 3.
Definition T_SDIR : Z := 4.
Definition T_SFILE : Z := 5.

(** ** Words in a block *)

Definition rd (n : nat) (d : block) (off : Z) : Z := le_word (take n (drop (Z.to_nat off) d)).
Definition wr (n : nat) (d : block) (off v : Z) : block := splice (Z.to_nat off) (le_bytes n v) d.
Definition rd32 (d : block) (off : Z) : Z := rd 4 d off.
Definition wr32 (d : block) (off v : Z) : block := wr 4 d off v.
Definition rd16 (d : block) (off : Z) : Z := rd 2 d off.
Definition wr16 (d : block) (off v : Z) : block := wr 2 d off v.

Lemma length_wr n d off v : length (wr n d off v) = length d.
Proof. apply length_splice. Qed.

Lemma wr_bytes n d off v : Forall is_byte d -> Forall is_byte (wr n d off v).
Proof. intros. apply splice_Forall; [apply le_bytes_is_byte | done]. Qed.

Lemma rd_range n d off :
  Forall is_byte d -> 0 <= off -> off + Z.of_nat n <= Z.of_nat (length d) ->
  0 <= rd n d off < 2 ^ (8 * Z.of_nat n).
Proof.
  intros Hd Ho Hl. unfold rd.
  pose proof (le_word_range (take n (drop (Z.to_nat off) d))) as H.
  rewrite length_take, length_drop in H. replace (n `min` (length d - Z.to_nat off))%nat with n in H by lia.
  apply H. by apply Forall_take, Forall_drop.
Qed.

Lemma rd_wr n d off v :
  0 <= off -> off + Z.of_nat n <= Z.of_nat (length d) ->
  rd n (wr n d off v) off = v mod 2 ^ (8 * Z.of_nat n).
Proof.
  intros. unfold rd, wr. rewrite <- le_word_bytes. f_equal.
  rewrite <- (length_le_bytes n v) at 1. apply splice_read. rewrite length_le_bytes. lia.
Qed.

Lemma rd_wr_other n m d off off' v :
  0 <= off -> 0 <= off' -> off + Z.of_nat n <= Z.of_nat (length d) ->
  off' + Z.of_nat m <= off \/ off + Z.of_nat n <= off' ->
  rd m (wr n d off v) off' = rd m d off'.
Proof.
  intros. unfold rd, wr. f_equal. apply splice_read_other; rewrite length_le_bytes; lia.
Qed.

Lemma wr_block_ok n d off v : block_ok d -> block_ok (wr n d off v).
Proof. intros [Hl Hb]. split; [by rewrite length_wr | by apply wr_bytes]. Qed.

Lemma rd32_wr32 d off v :
  0 <= off -> off + 4 <= Z.of_nat (length d) -> rd32 (wr32 d off v) off = u32 v.
Proof. intros. unfold rd32, wr32. by rewrite rd_wr by lia. Qed.
Lemma rd32_wr32_ne d off off' v :
  0 <= off -> 0 <= off' -> off + 4 <= Z.of_nat (length d) -> off' + 4 <= off \/ off + 4 <= off' ->
  rd32 (wr32 d off v) off' = rd32 d off'.
Proof. intros. by apply rd_wr_other; lia. Qed.

Lemma block_ok_length d : block_ok d -> Z.of_nat (length d) = 512.
Proof. intros [-> _]. done. Qed.

(** ** The super block *)

Record superblock := SuperBlock {
  sb_size : Z; sb_nblocks : Z; sb_ninodes : Z; sb_nlog : Z;
  sb_logstart : Z; sb_inodestart : Z; sb_bmapstart : Z
}.

(** [memmove(sb, bp->data, sizeof( *sb))] *)
Definition sb_decode (d : block) : superblock :=
  SuperBlock (rd32 d 0) (rd32 d 4) (rd32 d 8) (rd32 d 12) (rd32 d 16) (rd32 d 20) (rd32 d 24).
Definition sb_encode (sb : superblock) (d : block) : block :=
  wr32 (wr32 (wr32 (wr32 (wr32 (wr32 (wr32 d 0 (sb_size sb)) 4 (sb_nblocks sb)) 8 (sb_ninodes sb))
    12 (sb_nlog sb)) 16 (sb_logstart sb)) 20 (sb_inodestart sb)) 24 (sb_bmapstart sb).

Definition IBLOCK (i : Z) (sb : superblock) : Z := u32 (i / IPB + sb_inodestart sb).
Definition BBLOCK (b : Z) (sb : superblock) : Z := u32 (b / BPB + sb_bmapstart sb).

Definition sb_ok (sb : superblock) : Prop :=
  0 <= sb_size sb < 2 ^ 32 /\ 0 <= sb_nblocks sb < 2 ^ 32 /\ 0 <= sb_ninodes sb < 2 ^ 32 /\
  0 <= sb_nlog sb < 2 ^ 32 /\ 0 <= sb_logstart sb < 2 ^ 32 /\ 0 <= sb_inodestart sb < 2 ^ 32 /\
  0 <= sb_bmapstart sb < 2 ^ 32.

Ltac rdwr :=
  repeat match goal with
  | |- context [rd32 (wr32 ?d ?o ?v) ?o] =>
      rewrite (rd32_wr32 d o v) by (unfold wr32 in *; rewrite ?length_wr; lia)
  | |- context [rd32 (wr32 ?d ?o ?v) ?o'] =>
      rewrite (rd32_wr32_ne d o o' v) by (unfold wr32 in *; rewrite ?length_wr; lia)
  end.

Lemma sb_roundtrip sb d : sb_ok sb -> block_ok d -> sb_decode (sb_encode sb d) = sb.
Proof.
  intros (H1&H2&H3&H4&H5&H6&H7) Hd. apply block_ok_length in Hd. unfold sb_decode, sb_encode.
  destruct sb; simpl in *. f_equal; rdwr; by apply u32_small.
Qed.
