(* ===== verification/Blocks.v ===== *)
(** * The block layer as the file system sees it

    [fs.c] reaches the disk only through [bread], [bp->data], [log_write],
    [brelse] and the transaction brackets [begin_op]/[end_op].  The class
    [BlockLayer] names these operations, [BlockLayerOk] and [TransactionsOk] what
    they promise; the file-system proofs use nothing else.  [LogBlocks.v] shows that the buffer
    cache and the log keep the promise. *)

From S2P Require Import Prelude Bio Layout.

Class BlockLayer (S : Type) := {
  bl_bread : Z -> Z -> M S nat;
  bl_data : S -> nat -> block;
  bl_store : nat -> block -> M S unit;
  bl_log_write : nat -> M S unit;
  bl_brelse : nat -> M S unit;
  bl_begin_op : M S unit;
  bl_end_op : M S unit
}.

(** An abstract cache in which nothing is held or modified. *)
Definition idle (f : Z -> block) (pin : gset Z) : babs := BAbs f ∅ ∅ pin.

(** The most blocks one transaction can log: the log of [mkfs] has a header
    and 29 data blocks. *)
Definition MAXTXN : nat := 29.

Class BlockLayerOk (S : Type) `{BlockLayer S} := {
  (** blocks that hold file-system content, and those a transaction may write *)
  bl_dom : Z -> Prop;
  bl_loggable : Z -> Prop;
  (** [bl_rep s a]: inside a transaction, [s] shows the abstract cache [a] *)
  bl_rep : S -> babs -> Prop;

  bl_dom_range b : bl_dom b -> 0 <= b < 2 ^ 31;
  bl_loggable_dom b : bl_loggable b -> bl_dom b;
  bl_ext s a a' : bl_rep s a -> (forall b, bl_dom b -> a_vw a' b = a_vw a b) ->
    a_held a' = a_held a -> a_mod a' = a_mod a -> a_pin a' = a_pin a -> bl_rep s a';
  bl_block_ok s a b : bl_rep s a -> bl_dom b -> block_ok (a_vw a b);
  bl_get s a i b : bl_rep s a -> a_held a !! i = Some b -> bl_data s i = a_vw a b;
  bl_bread_ok s a b : bl_rep s a -> bl_dom b -> (forall i, a_held a !! i <> Some b) ->
    (b ∈ a_pin a \/ (size (busy a) < NBUF)%nat) ->
    wp (bl_bread ROOTDEV b) (fun i s' => a_held a !! i = None /\ bl_rep s' (set_held a i b)) s;
  bl_store_ok s a i b d : bl_rep s a -> a_held a !! i = Some b -> bl_loggable b -> block_ok d ->
    wp (bl_store i d) (fun _ s' => bl_rep s' (set_vw a b d)) s;
  bl_log_write_ok s a i b : bl_rep s a -> a_held a !! i = Some b -> bl_loggable b ->
    (size (a_pin a) < MAXTXN)%nat ->
    wp (bl_log_write i) (fun _ s' => bl_rep s' (set_pin a b)) s;
  bl_brelse_ok s a i b : bl_rep s a -> a_held a !! i = Some b -> b ∉ a_mod a ->
    wp (bl_brelse i) (fun _ s' => bl_rep s' (set_released a i)) s
}.

(** The brackets of a transaction.  [bl_quiet s f]: between transactions, [s]
    shows the contents [f]. *)
Class TransactionsOk (S : Type) `{BlockLayerOk S} := {
  bl_quiet : S -> (Z -> block) -> Prop;
  bl_begin_ok s f : bl_quiet s f -> wp bl_begin_op (fun _ s' => bl_rep s' (idle f ∅)) s;
  bl_end_ok s f pin : bl_rep s (idle f pin) -> wp bl_end_op (fun _ s' => bl_quiet s' f) s
}.
