(* ===== verification/Log.v ===== *)
(** * The write-ahead log: [log.c]

    State, commit and recovery of the redo log, run over the buffer cache of
    [Bio.v].  The critical sections under [log.lock] are atomic. *)

From S2P Require Import Prelude Bio Layout Blocks.

(** [struct log] with its [struct logheader], and the cache below it. *)
Record log := Log {
  lg_bio : bio;
  lg_start : Z;
  lg_size : Z;
  lg_outstanding : Z;
  lg_committing : bool;
  lg_dev : Z;
  lg_n : Z;
  lg_block : list Z
}.

Definition set_bio (b : bio) (s : log) : log :=
  Log b (lg_start s) (lg_size s) (lg_outstanding s) (lg_committing s) (lg_dev s) (lg_n s) (lg_block s).
Definition set_n (n : Z) (s : log) : log :=
  Log (lg_bio s) (lg_start s) (lg_size s) (lg_outstanding s) (lg_committing s) (lg_dev s) n (lg_block s).
Definition set_outstanding (o : Z) (s : log) : log :=
  Log (lg_bio s) (lg_start s) (lg_size s) o (lg_committing s) (lg_dev s) (lg_n s) (lg_block s).
Definition set_committing (c : bool) (s : log) : log :=
  Log (lg_bio s) (lg_start s) (lg_size s) (lg_outstanding s) c (lg_dev s) (lg_n s) (lg_block s).

Definition inbio {A} (m : M bio A) : M log A := zoom lg_bio set_bio m.

(** [log.lh.block[i]], and its assignment; the array has [LOGSIZE] entries. *)
Definition lh_get (i : Z) : M log Z :=
  let! s := get in the "log.lh.block" (lg_block s !! Z.to_nat i).
Definition lh_set (i v : Z) : M log unit :=
  let! s := get in
  if (Z.to_nat i <? length (lg_block s))%nat then
    put (Log (lg_bio s) (lg_start s) (lg_size s) (lg_outstanding s) (lg_committing s) (lg_dev s) (lg_n s)
           (<[Z.to_nat i := v]> (lg_block s)))
  else undef "log.lh.block".

(** Iterations of [for (i = 0; i < log.lh.n; i++)]. *)
Definition lh_iters (s : log) : nat := Z.to_nat (lg_n s).

(** Body of the loop of [install_trans]. *)
Definition install_one (tail : Z) : M log unit :=
  let! s := get in
  let! lbuf := inbio (bread (lg_dev s) (u32 (lg_start s + tail + 1))) in
  let! dst := lh_get tail in
  let! dbuf := inbio (bread (lg_dev s) (u32 dst)) in
  let! s := get in
  inbio (bstore dbuf (bdata (lg_bio s) lbuf)) ;;;
  inbio (bwrite dbuf) ;;;
  inbio (brelse lbuf) ;;;
  inbio (brelse dbuf).
Definition install_trans : M log unit :=
  let! s := get in for_each (lh_iters s) 0 install_one.

(** [struct logheader] in a block: [n], then the block numbers. *)
Definition hd_n (d : block) : Z := i32 (rd32 d 0).
Definition hd_block (d : block) (i : Z) : Z := i32 (rd32 d (4 + 4 * i)).

Definition read_head : M log unit :=
  let! s := get in
  let! b := inbio (bread (lg_dev s) (u32 (lg_start s))) in
  let! s := get in
  modify (set_n (hd_n (bdata (lg_bio s) b))) ;;;
  let! s := get in
  for_each (lh_iters s) 0 (fun i =>
    let! s := get in lh_set i (hd_block (bdata (lg_bio s) b) i)) ;;;
  inbio (brelse b).

Definition write_head : M log unit :=
  let! s := get in
  let! b := inbio (bread (lg_dev s) (u32 (lg_start s))) in
  let! s := get in
  inbio (bstore b (wr32 (bdata (lg_bio s) b) 0 (lg_n s))) ;;;
  for_each (lh_iters s) 0 (fun i =>
    let! v := lh_get i in
    let! s := get in
    inbio (bstore b (wr32 (bdata (lg_bio s) b) (4 + 4 * i) v))) ;;;
  inbio (bwrite b) ;;;
  inbio (brelse b).

Definition recover_from_log : M log unit :=
  read_head ;;; install_trans ;;; modify (set_n 0) ;;; write_head.

(** [readsb] of fs.c. *)
Definition readsb (dev : Z) : M bio superblock :=
  let! bp := bread dev 1 in
  let! s := get in
  let sb := sb_decode (bdata s bp) in
  brelse bp ;;; ret sb.

(** [sizeof(struct logheader)] is [4 + 4 * LOGSIZE]. *)
Definition initlog (dev : Z) : M log unit :=
  if BSIZE <=? 4 + 4 * LOGSIZE then panic "initlog: too big logheader"
  else
    let! sb := inbio (readsb dev) in
    modify (fun s => Log (lg_bio s) (i32 (sb_logstart sb)) (i32 (sb_nlog sb)) (lg_outstanding s)
                       (lg_committing s) dev (lg_n s) (lg_block s)) ;;;
    recover_from_log.

(** A thread that finds the log full or committing sleeps; alone it is blocked. *)
Definition begin_op : M log unit :=
  let! s := get in
  if lg_committing s then blocked "log"
  else if LOGSIZE <? lg_n s + (lg_outstanding s + 1) * MAXOPBLOCKS then blocked "log"
  else put (set_outstanding (lg_outstanding s + 1) s).

(** Body of the loop of [write_log]. *)
Definition write_one (tail : Z) : M log unit :=
  let! s := get in
  let! to := inbio (bread (lg_dev s) (u32 (lg_start s + tail + 1))) in
  let! src := lh_get tail in
  let! from := inbio (bread (lg_dev s) (u32 src)) in
  let! s := get in
  inbio (bstore to (bdata (lg_bio s) from)) ;;;
  inbio (bwrite to) ;;;
  inbio (brelse from) ;;;
  inbio (brelse to).
Definition write_log : M log unit :=
  let! s := get in for_each (lh_iters s) 0 write_one.

Definition commit : M log unit :=
  let! s := get in
  when (0 <? lg_n s)
    (write_log ;;; write_head ;;; install_trans ;;; modify (set_n 0) ;;; write_head).

Definition end_op : M log unit :=
  modify (fun s => set_outstanding (lg_outstanding s - 1) s) ;;;
  let! s := get in
  if lg_committing s then panic "log.committing"
  else if lg_outstanding s =? 0 then
    modify (set_committing true) ;;;
    commit ;;;
    modify (set_committing false)
  else ret tt.

(** [for (i = 0; i < log.lh.n; i++) if (log.lh.block[i] == b->blockno) break;] *)
Fixpoint log_find (n : nat) (i : Z) (blocks : list Z) (blockno : Z) : Z :=
  match n with
  | O => i
  | S n' =>
      if nth (Z.to_nat i) blocks 0 =? blockno then i else log_find n' (i + 1) blocks blockno
  end.

Definition log_write (b : nat) : M log unit :=
  let! s := get in
  if (LOGSIZE <=? lg_n s) || (lg_size s - 1 <=? lg_n s) then panic "too big a transaction"
  else if lg_outstanding s <? 1 then panic "log_write outside of trans"
  else
    let blockno := i32 (b_blockno (bufat (lg_bio s) b)) in
    let i := log_find (lh_iters s) 0 (lg_block s) blockno in
    lh_set i blockno ;;;
    when (i =? lg_n s) (modify (set_n (lg_n s + 1))) ;;;
    inbio (set_dirty b).

(** The log as the kernel finds it at boot: zeroed memory. *)
Definition log0 (b : bio) : log := Log b 0 0 0 false 0 0 (replicate (Z.to_nat LOGSIZE) 0).

(** A disk with the super block of [mkfs] and an empty log, for examples. *)
Definition ex_sb : superblock := SuperBlock 60 20 8 30 2 32 33.
Definition ex_disk : gmap Z block :=
  <[1 := sb_encode ex_sb zero_block]> (list_to_map ((fun i => (i, zero_block)) <$> seqZ 0 60)).

Definition ex_txn : M log unit :=
  initlog 1 ;;;
  begin_op ;;;
  let! b := inbio (bread 1 40) in inbio (bstore b (replicate 512 7)) ;;; log_write b ;;; inbio (brelse b) ;;;
  let! b := inbio (bread 1 41) in inbio (bstore b (replicate 512 8)) ;;; log_write b ;;; inbio (brelse b) ;;;
  end_op.

Example ex_commit :
  match ex_txn (log0 (boot ex_disk 60)) with
  | Ret _ s => disk (lg_bio s) !! 40 = Some (replicate 512 7) /\
               disk (lg_bio s) !! 41 = Some (replicate 512 8) /\
               (fst <$> wlog (lg_bio s)) = [2; 41; 40; 2; 4; 3; 2]
  | _ => False
  end.
Proof. vm_compute. done. Qed.

(** ** Sequences of disk writes *)

Definition apply_writes (W : list (Z * block)) (d : gmap Z block) : gmap Z block :=
  foldl (fun d w => <[w.1 := w.2]> d) d W.
Definition apply_view (W : list (Z * block)) (f : Z -> block) : Z -> block :=
  foldl (fun f w c => if decide (c = w.1) then w.2 else f c) f W.

Lemma apply_writes_app W1 W2 d : apply_writes (W1 ++ W2) d = apply_writes W2 (apply_writes W1 d).
Proof. apply foldl_app. Qed.
Lemma apply_writes_one c x d : apply_writes [(c, x)] d = <[c := x]> d.
Proof. done. Qed.
Lemma apply_view_app W1 W2 f : apply_view (W1 ++ W2) f = apply_view W2 (apply_view W1 f).
Proof. apply foldl_app. Qed.

Lemma apply_view_one c x f : apply_view [(c, x)] f c = x.
Proof. unfold apply_view. cbn [foldl fst snd]. by rewrite decide_True. Qed.

Lemma apply_writes_other W d b : b ∉ W.*1 -> apply_writes W d !! b = d !! b.
Proof.
  revert d. induction W as [|[c x] W IH]; intros d; [done|]. intros H.
  change (apply_writes ((c, x) :: W) d) with (apply_writes W (<[c := x]> d)).
  rewrite IH by set_solver. apply lookup_insert_ne. set_solver.
Qed.
Lemma apply_view_other W f b : b ∉ W.*1 -> apply_view W f b = f b.
Proof.
  revert f. induction W as [|[c x] W IH]; intros f; [done|]. intros H.
  change (apply_view ((c, x) :: W) f) with (apply_view W (fun y => if decide (y = c) then x else f y)).
  rewrite IH by set_solver. case_decide; set_solver.
Qed.
Lemma apply_writes_in W d b x : NoDup W.*1 -> (b, x) ∈ W -> apply_writes W d !! b = Some x.
Proof.
  revert d. induction W as [|[c y] W IH]; intros d Hnd Hin; [set_solver|].
  change (apply_writes ((c, y) :: W) d) with (apply_writes W (<[c := y]> d)).
  simpl in Hnd. apply NoDup_cons in Hnd as [Hc Hnd]. apply elem_of_cons in Hin as [[= -> ->]|Hin].
  - rewrite apply_writes_other by done. apply lookup_insert_eq.
  - by apply IH.
Qed.
Lemma apply_view_in W f b x : NoDup W.*1 -> (b, x) ∈ W -> apply_view W f b = x.
Proof.
  revert f. induction W as [|[c y] W IH]; intros f Hnd Hin; [set_solver|].
  change (apply_view ((c, y) :: W) f) with (apply_view W (fun z => if decide (z = c) then y else f z)).
  simpl in Hnd. apply NoDup_cons in Hnd as [Hc Hnd]. apply elem_of_cons in Hin as [[= -> ->]|Hin].
  - rewrite apply_view_other by done. by case_decide.
  - by apply IH.
Qed.

Lemma brep_ext s a a' :
  brep s a -> (forall c, a_vw a' c = a_vw a c) -> a_held a' = a_held a ->
  a_mod a' = a_mod a -> a_pin a' = a_pin a -> brep s a'.
Proof.
  intros [H1 H2 H3 H4] Hv Hh Hm Hp. split.
  - by rewrite Hm.
  - intros c. by rewrite Hv.
  - intros i c. by rewrite Hh.
  - intros c. by rewrite Hp.
Qed.

(** ** Copying one block between the log and its home *)

(** The cache [b'] results from [b] by the disk writes [W]. *)
Definition wrote (W : list (Z * block)) (b b' : bio) : Prop :=
  disk b' = apply_writes W (disk b) /\ disksize b' = disksize b /\ wlog b' = rev W ++ wlog b.

Lemma wp_inbio {A} (m : M bio A) (Q : A -> log -> Prop) s :
  wp m (fun x b => Q x (set_bio b s)) (lg_bio s) -> wp (inbio m) Q s.
Proof. apply wp_zoom. Qed.

Lemma busy_idle f pin : busy (idle f pin) = pin.
Proof. unfold busy. simpl. rewrite map_img_empty_L. set_solver. Qed.

Section copy.
Context (s : log) (f : Z -> block) (pin : gset Z) (tail b : Z).
Let l := lg_start s + tail + 1.
Context (HR : brep (lg_bio s) (idle f pin)) (Hdev : lg_dev s = 1).
Context (Hl : 0 <= l < disksize (lg_bio s)) (Hb : 0 <= b < disksize (lg_bio s)) (Hne : b <> l).
Context (HN : disksize (lg_bio s) < 2 ^ 31).
Context (Hget : lg_block s !! Z.to_nat tail = Some b).
Context (Hpin : (size pin < NBUF)%nat) (Hcap : b ∈ pin \/ pin = ∅).

(** The two reads both loops start with. *)
Lemma read_pair (K : nat -> nat -> M log unit) Q :
  (forall i j bio', i <> j ->
     brep bio' (BAbs f (<[j := b]> (<[i := l]> ∅)) ∅ pin) -> same_disk (lg_bio s) bio' ->
     wp (K i j) Q (set_bio bio' s)) ->
  wp (let! x := inbio (bread (lg_dev s) (u32 (lg_start s + tail + 1))) in
      let! dst := lh_get tail in
      let! y := inbio (bread (lg_dev s) (u32 dst)) in K x y) Q s.
Proof.
  intros HK. rewrite Hdev. fold l. rewrite (u32_small l) by lia.
  apply wp_bind, wp_inbio. eapply wp_mono.
  { apply bread_spec; [done | done | intros i; simpl; by rewrite lookup_empty | right; by rewrite busy_idle]. }
  intros i b1 (_ & HR1 & HD1). simpl in HR1. unfold set_held in HR1. simpl in HR1.
  apply wp_bind. unfold lh_get. wp_steps. eapply wp_the; [apply Hget|].
  rewrite u32_small by lia.
  apply wp_bind, wp_inbio. simpl. eapply wp_mono.
  { apply bread_spec; [done | destruct HD1 as (_ & -> & _); done | |].
    - intros j. simpl. intros H. apply lookup_insert_Some in H as [[_ H]|[_ H]]; [congruence|].
      by rewrite lookup_empty in H.
    - simpl. destruct Hcap as [?| ->]; [by left|]. right. unfold busy. simpl.
      rewrite map_img_insert_notin_L, map_img_empty_L by apply lookup_empty.
      rewrite union_empty_r_L, union_empty_l_L, size_singleton. unfold NBUF. lia. }
  intros j b2 (Hn & HR2 & HD2). simpl in *.
  assert (i <> j) by (intros ->; by rewrite lookup_insert_eq in Hn).
  unfold set_bio. simpl. apply (HK i j b2); [done | exact HR2 |].
  destruct HD1 as (?&?&?), HD2 as (?&?&?). repeat split; congruence.
Qed.

Lemma install_one_spec :
  wp (install_one tail) (fun _ s' => exists bio', s' = set_bio bio' s /\
    brep bio' (idle (apply_view [(b, f l)] f) (pin ∖ {[b]})) /\ wrote [(b, f l)] (lg_bio s) bio') s.
Proof.
  unfold install_one. apply wp_bind, wp_get. apply read_pair.
  intros i j b0 Hij HR0 HD0. apply wp_bind, wp_get. simpl.
  assert (Hd : bdata b0 i = f l)
    by (rewrite (brep_data _ _ i l HR0); [done | simpl; by rewrite lookup_insert_ne, lookup_insert_eq by done]).
  assert (Hok : block_ok (f l)).
  { pose proof (brep_vw_ok _ _ l HR0) as H. apply H. destruct HD0 as (_ & -> & _). done. }
  rewrite Hd.
  apply wp_bind, wp_inbio. simpl. eapply wp_mono.
  { eapply (bstore_spec _ _ j b); [apply HR0 | apply lookup_insert_eq | done]. }
  intros [] b1 [HR1 HD1].
  apply wp_bind, wp_inbio. simpl. eapply wp_mono.
  { eapply (bwrite_spec _ _ j b); [apply HR1 | apply lookup_insert_eq]. }
  intros [] b2 (HR2 & HD2 & HS2 & HW2).
  apply wp_bind, wp_inbio. simpl. eapply wp_mono.
  { eapply (brelse_spec _ _ i l); [apply HR2 | simpl; by rewrite lookup_insert_ne, lookup_insert_eq by done | set_solver]. }
  intros [] b3 [HR3 HD3].
  apply wp_inbio. simpl. eapply wp_mono.
  { eapply (brelse_spec _ _ j b); [apply HR3 | simpl; by rewrite lookup_delete_ne, lookup_insert_eq by done | set_solver]. }
  intros [] b4 [HR4 HD4]. exists b4. split; [done|]. simpl in *.
  assert (Hvb : a_vw (set_vw (BAbs f (<[j:=b]> (<[i:=l]> ∅)) ∅ pin) b (f l)) b = f l)
    by (simpl; by case_decide).
  simpl in Hvb. rewrite Hvb in *. split.
  - eapply brep_ext; [apply HR4 | done | | simpl; set_solver | done]. simpl.
    by rewrite delete_insert_ne, !delete_insert_eq, !delete_empty by done.
  - destruct HD0 as (E1&E2&E3), HD1 as (F1&F2&F3), HD3 as (G1&G2&G3), HD4 as (K1&K2&K3).
    split; [|split]; [|congruence|].
    + rewrite K1, G1, HD2, F1, E1. done.
    + rewrite K3, G3, HW2, F3, E3. done.
Qed.

Lemma write_one_spec :
  l ∉ pin ->
  wp (write_one tail) (fun _ s' => exists bio', s' = set_bio bio' s /\
    brep bio' (idle (apply_view [(l, f b)] f) pin) /\ wrote [(l, f b)] (lg_bio s) bio') s.
Proof.
  intros Hlp. unfold write_one. apply wp_bind, wp_get. apply read_pair.
  intros i j b0 Hij HR0 HD0. apply wp_bind, wp_get. simpl.
  assert (Hi : (<[j:=b]> (<[i:=l]> ∅) : gmap nat Z) !! i = Some l)
    by (by rewrite lookup_insert_ne, lookup_insert_eq by done).
  assert (Hd : bdata b0 j = f b)
    by (rewrite (brep_data _ _ j b HR0); [done | apply lookup_insert_eq]).
  assert (Hok : block_ok (f b)).
  { pose proof (brep_vw_ok _ _ b HR0) as H. apply H. destruct HD0 as (_ & -> & _). done. }
  rewrite Hd.
  apply wp_bind, wp_inbio. simpl. eapply wp_mono.
  { eapply (bstore_spec _ _ i l); [apply HR0 | done | done]. }
  intros [] b1 [HR1 HD1].
  apply wp_bind, wp_inbio. simpl. eapply wp_mono.
  { eapply (bwrite_spec _ _ i l); [apply HR1 | done]. }
  intros [] b2 (HR2 & HD2 & HS2 & HW2).
  apply wp_bind, wp_inbio. simpl. eapply wp_mono.
  { eapply (brelse_spec _ _ j b); [apply HR2 | apply lookup_insert_eq | set_solver]. }
  intros [] b3 [HR3 HD3].
  apply wp_inbio. simpl. eapply wp_mono.
  { eapply (brelse_spec _ _ i l); [apply HR3 | simpl; by rewrite lookup_delete_ne by done | set_solver]. }
  intros [] b4 [HR4 HD4]. exists b4. split; [done|]. simpl in *.
  assert (Hvb : a_vw (set_vw (BAbs f (<[j:=b]> (<[i:=l]> ∅)) ∅ pin) l (f b)) l = f b)
    by (simpl; by case_decide).
  simpl in Hvb. rewrite Hvb in *. split.
  - eapply brep_ext; [apply HR4 | done | | simpl; set_solver | simpl; set_solver]. simpl.
    rewrite delete_insert_eq. by rewrite (delete_delete _ i j), delete_insert_eq, !delete_empty.
  - destruct HD0 as (E1&E2&E3), HD1 as (F1&F2&F3), HD3 as (G1&G2&G3), HD4 as (K1&K2&K3).
    split; [|split]; [|congruence|].
    + rewrite K1, G1, HD2, F1, E1. done.
    + rewrite K3, G3, HW2, F3, E3. done.
Qed.
End copy.

(** ** The loops *)

Section loops.
Context (st sz N : Z) (txn : list Z).
Context (Hst : 0 < st) (Hsz : st + sz <= N) (HN : N < 2 ^ 31).
Context (Hfit : Z.of_nat (length txn) < sz) (Hcap : (length txn < NBUF)%nat).
Context (Htxn : forall b, b ∈ txn -> 0 <= b < N /\ (b < st \/ st + sz <= b)).
Context (Hnd : NoDup txn).

(** The fields of the log are those of this transaction. *)
Record lfields (s : log) : Prop := {
  lf_start : lg_start s = st;
  lf_dev : lg_dev s = 1;
  lf_size : disksize (lg_bio s) = N;
  lf_n : lg_n s = Z.of_nat (length txn);
  lf_block : forall k b, txn !! k = Some b -> lg_block s !! k = Some b;
  lf_len : length (lg_block s) = Z.to_nat LOGSIZE
}.

Lemma lfields_bio s b : lfields s -> disksize b = N -> lfields (set_bio b s).
Proof. intros [H1 H2 H3 H4 H5 H6] ?. by split. Qed.

Definition log_writes (f : Z -> block) : list (Z * block) :=
  imap (fun k b => (st + 1 + Z.of_nat k, f b)) txn.
Definition home_writes (f : Z -> block) : list (Z * block) :=
  imap (fun k b => (b, f (st + 1 + Z.of_nat k))) txn.

Lemma log_writes_fst f b : b ∈ (log_writes f).*1 -> st + 1 <= b < st + 1 + Z.of_nat (length txn).
Proof.
  clear - txn. unfold log_writes. rewrite fmap_imap. intros (k & Hk)%list_elem_of_lookup.
  rewrite list_lookup_imap in Hk. destruct (txn !! k) as [x|] eqn:E; [|done].
  apply lookup_lt_Some in E. simpl in Hk. injection Hk as <-. lia.
Qed.
Lemma home_writes_fst f : (home_writes f).*1 = txn.
Proof.
  unfold home_writes. rewrite fmap_imap. apply list_eq. intros k.
  rewrite list_lookup_imap. by destruct (txn !! k).
Qed.
Lemma take_fst {A B} (l : list (A * B)) j x : x ∈ (take j l).*1 -> x ∈ l.*1.
Proof. rewrite fmap_take. apply subseteq_take. Qed.

Lemma wrote_snoc W j w b b' b'' :
  W !! j = Some w -> wrote (take j W) b b' -> wrote [w] b' b'' -> wrote (take (S j) W) b b''.
Proof.
  intros Hj (H1 & H2 & H3) (K1 & K2 & K3). rewrite (take_S_r _ _ _ Hj). split; [|split].
  - by rewrite apply_writes_app, <- H1.
  - congruence.
  - rewrite rev_app_distr. simpl. by rewrite K3, H3.
Qed.

Lemma lookup_txn j : (j < length txn)%nat -> exists b, txn !! j = Some b /\ b ∈ txn.
Proof.
  intros Hj. apply lookup_lt_is_Some_2 in Hj as [b Hb]. exists b. split; [done|].
  by eapply list_elem_of_lookup_2.
Qed.

Lemma size_pin (pin : gset Z) : pin ⊆ list_to_set txn -> (size pin < NBUF)%nat.
Proof. intros Hp. apply subseteq_size in Hp. rewrite size_list_to_set in Hp by done. lia. Qed.

(** Loop rule for a body that performs the [j]-th write of [W]. *)
Lemma write_loop (body : Z -> M log unit) (W : list (Z * block)) (f : Z -> block) (pin : nat -> gset Z) s :
  length W = length txn -> lfields s ->
  brep (lg_bio s) (idle f (pin O)) ->
  (forall j w bio', (j < length txn)%nat -> W !! j = Some w -> disksize bio' = N ->
     brep bio' (idle (apply_view (take j W) f) (pin j)) ->
     wp (body (Z.of_nat j)) (fun _ s' => exists bio'', s' = set_bio bio'' (set_bio bio' s) /\
       brep bio'' (idle (apply_view [w] (apply_view (take j W) f)) (pin (S j))) /\
       wrote [w] bio' bio'') (set_bio bio' s)) ->
  wp (let! s := get in for_each (lh_iters s) 0 body) (fun _ s' => exists bio', s' = set_bio bio' s /\
     brep bio' (idle (apply_view W f) (pin (length txn))) /\ wrote W (lg_bio s) bio') s.
Proof.
  intros HW HF HR Hbody. wp_steps. unfold lh_iters. rewrite (lf_n _ HF), Nat2Z.id.
  apply (wp_for_each (fun z s' => exists j bio', z = Z.of_nat j /\ s' = set_bio bio' s /\
    brep bio' (idle (apply_view (take j W) f) (pin j)) /\ wrote (take j W) (lg_bio s) bio')).
  - exists O, (lg_bio s). rewrite take_0. split_and!; try done. by destruct s.
  - intros z s' Hz (j & bio' & -> & -> & HRj & HWj).
    assert (Hj : (j < length txn)%nat) by lia.
    destruct (lookup_lt_is_Some_2 W j) as [w Hw]; [lia|].
    eapply wp_mono; [apply (Hbody j w bio'); [done | done | destruct HWj as (_ & -> & _); apply HF | done]|].
    intros [] s'' (bio'' & -> & HR'' & HW''). exists (S j), bio''. split_and!; [lia | done | |].
    + rewrite (take_S_r _ _ _ Hw), apply_view_app. done.
    + by eapply wrote_snoc.
  - intros s' (j & bio' & Hj & -> & HRj & HWj). assert (j = length txn) as -> by lia.
    exists bio'. rewrite take_ge in * by lia. done.
Qed.

Lemma install_trans_spec s f pin :
  lfields s -> brep (lg_bio s) (idle f pin) -> pin = list_to_set txn \/ pin = ∅ ->
  wp install_trans (fun _ s' => exists bio', s' = set_bio bio' s /\
    brep bio' (idle (apply_view (home_writes f) f) ∅) /\ wrote (home_writes f) (lg_bio s) bio') s.
Proof.
  intros HF HR Hp.
  set (pj := fun j : nat => (pin ∖ list_to_set (take j txn)) : gset Z).
  assert (Hend : pj (length txn) = ∅).
  { unfold pj. rewrite take_ge by lia. destruct Hp as [-> | ->]; set_solver. }
  rewrite <- Hend. apply write_loop; [by unfold home_writes; rewrite length_imap | done | |].
  { eapply brep_ext; [done..|]. unfold pj. simpl. set_solver. }
  intros j w bio' Hj Hw Hs HRj.
  destruct (lookup_txn j Hj) as (b & Hb & Hin). destruct (Htxn b Hin) as [Hr Ho].
  assert (Hwb : w = (b, f (st + 1 + Z.of_nat j))).
  { unfold home_writes in Hw. rewrite list_lookup_imap, Hb in Hw. by injection Hw as <-. }
  assert (Hnth : b ∉ take j txn).
  { intros (k & Hk & Hkj)%elem_of_take. pose proof (NoDup_lookup _ _ _ _ Hnd Hk Hb). lia. }
  assert (Hl : apply_view (take j (home_writes f)) f (st + 1 + Z.of_nat j) = f (st + 1 + Z.of_nat j)).
  { apply apply_view_other. intros Hx%take_fst. rewrite home_writes_fst in Hx.
    destruct (Htxn _ Hx). lia. }
  eapply wp_mono.
  { apply (install_one_spec (set_bio bio' s) (apply_view (take j (home_writes f)) f) (pj j) (Z.of_nat j) b);
      simpl; rewrite ?(lf_start _ HF), ?(lf_dev _ HF), ?Hs, ?Nat2Z.id; try lia; try done.
    - apply (lf_block _ HF). done.
    - apply size_pin. unfold pj. destruct Hp as [-> | ->]; set_solver.
    - unfold pj. destruct Hp as [-> | ->]; [left; set_solver | right; set_solver]. }
  simpl. rewrite (lf_start _ HF). replace (st + Z.of_nat j + 1) with (st + 1 + Z.of_nat j) by lia.
  rewrite Hl. subst w. intros [] s' (bio'' & -> & HR'' & HW''). exists bio''. split_and!; [done | | done].
  eapply brep_ext; [apply HR'' | done | done | done|]. simpl. unfold pj.
  rewrite (take_S_r _ _ _ Hb), list_to_set_app_L. set_solver.
Qed.

Lemma write_log_spec s f :
  lfields s -> brep (lg_bio s) (idle f (list_to_set txn)) ->
  wp write_log (fun _ s' => exists bio', s' = set_bio bio' s /\
    brep bio' (idle (apply_view (log_writes f) f) (list_to_set txn)) /\ wrote (log_writes f) (lg_bio s) bio') s.
Proof.
  intros HF HR.
  apply (write_loop write_one (log_writes f) f (fun _ => list_to_set txn));
    [by unfold log_writes; rewrite length_imap | done | done |].
  intros j w bio' Hj Hw Hs HRj.
  destruct (lookup_txn j Hj) as (b & Hb & Hin). destruct (Htxn b Hin) as [Hr Ho].
  assert (Hwb : w = (st + 1 + Z.of_nat j, f b)).
  { unfold log_writes in Hw. rewrite list_lookup_imap, Hb in Hw. by injection Hw as <-. }
  assert (Hl : apply_view (take j (log_writes f)) f b = f b).
  { apply apply_view_other. intros Hx%take_fst%log_writes_fst. lia. }
  eapply wp_mono.
  { apply (write_one_spec (set_bio bio' s) (apply_view (take j (log_writes f)) f) (list_to_set txn) (Z.of_nat j) b);
      simpl; rewrite ?(lf_start _ HF), ?(lf_dev _ HF), ?Hs, ?Nat2Z.id; try lia; try done.
    - apply (lf_block _ HF). done.
    - by apply size_pin.
    - left. set_solver.
    - rewrite elem_of_list_to_set. intros Hx%Htxn. lia. }
  simpl. rewrite (lf_start _ HF). replace (st + Z.of_nat j + 1) with (st + 1 + Z.of_nat j) by lia.
  rewrite Hl. by subst w.
Qed.
End loops.

(** ** The header block *)

Fixpoint enc_blocks (l : list Z) (i : Z) (d : block) : block :=
  match l with
  | [] => d
  | v :: l' => enc_blocks l' (i + 1) (wr32 d (4 + 4 * i) v)
  end.
Definition enc_head (txn : list Z) (d : block) : block :=
  enc_blocks txn 0 (wr32 d 0 (Z.of_nat (length txn))).

Lemma enc_blocks_snoc l i d v :
  enc_blocks (l ++ [v]) i d = wr32 (enc_blocks l i d) (4 + 4 * (i + Z.of_nat (length l))) v.
Proof.
  revert i d. induction l as [|x l IH]; intros i d; cbn [enc_blocks app length].
  - by rewrite Z.add_0_r.
  - rewrite IH. do 2 f_equal. lia.
Qed.
Lemma enc_blocks_ok l i d : block_ok d -> block_ok (enc_blocks l i d).
Proof. revert i d. induction l as [|x l IH]; intros i d Hd; [done|]. by apply IH, wr_block_ok. Qed.
Lemma enc_head_ok l d : block_ok d -> block_ok (enc_head l d).
Proof. intros. by apply enc_blocks_ok, wr_block_ok. Qed.

Lemma enc_blocks_before l i d off :
  block_ok d -> 0 <= i -> 0 <= off -> off + 4 <= 4 + 4 * i -> 4 + 4 * (i + Z.of_nat (length l)) <= 512 ->
  rd32 (enc_blocks l i d) off = rd32 d off.
Proof.
  revert i d. induction l as [|x l IH]; intros i d Hd Hi Ho Hb Hl; [done|].
  cbn [enc_blocks]. cbn [length] in Hl. rewrite IH; [| by apply wr_block_ok | lia..].
  pose proof (block_ok_length _ Hd). apply rd32_wr32_ne; lia.
Qed.

Lemma enc_blocks_at l i d k v :
  block_ok d -> 0 <= i -> 4 + 4 * (i + Z.of_nat (length l)) <= 512 -> l !! k = Some v ->
  rd32 (enc_blocks l i d) (4 + 4 * (i + Z.of_nat k)) = u32 v.
Proof.
  revert i d k. induction l as [|x l IH]; intros i d k Hd Hi Hl Hk; [done|].
  cbn [enc_blocks]. cbn [length] in Hl. destruct k as [|k]; simpl in Hk.
  - injection Hk as ->. rewrite Z.add_0_r.
    rewrite enc_blocks_before; [| by apply wr_block_ok | lia..].
    pose proof (block_ok_length _ Hd). apply rd32_wr32; lia.
  - replace (i + Z.of_nat (S k)) with (i + 1 + Z.of_nat k) by lia.
    apply IH; [by apply wr_block_ok | lia | lia | done].
Qed.

(** Decoding a header that was written by [write_head]. *)
Lemma hd_n_enc txn d :
  block_ok d -> (length txn <= 30)%nat -> hd_n (enc_head txn d) = Z.of_nat (length txn).
Proof.
  intros Hd Hl. unfold hd_n, enc_head. pose proof (block_ok_length _ Hd).
  rewrite enc_blocks_before; [| by apply wr_block_ok | lia..].
  rewrite rd32_wr32 by lia. rewrite i32_u32. apply i32_small. lia.
Qed.
Lemma hd_block_enc txn d k b :
  block_ok d -> (length txn <= 30)%nat -> txn !! k = Some b -> 0 <= b < 2 ^ 31 ->
  hd_block (enc_head txn d) (Z.of_nat k) = b.
Proof.
  intros Hd Hl Hk Hb. unfold hd_block, enc_head. rewrite <- (Z.add_0_l (Z.of_nat k)).
  rewrite (enc_blocks_at txn 0 _ k b); [| by apply wr_block_ok | lia | lia | done].
  rewrite i32_u32. apply i32_small. lia.
Qed.

(** The control fields of the log, which reading and writing the header keep. *)
Definition same_ctl (s s' : log) : Prop :=
  lg_size s' = lg_size s /\ lg_outstanding s' = lg_outstanding s /\ lg_committing s' = lg_committing s.

Section heads.
Context (st N : Z) (txn : list Z) (s : log) (f : Z -> block) (pin : gset Z).
Context (Hst : 0 < st < N) (HN : N < 2 ^ 31) (Hlen : (length txn <= 30)%nat).
Context (HR : brep (lg_bio s) (idle f pin)) (Hpin : (size pin < NBUF)%nat) (Hstp : st ∉ pin).

Lemma write_head_spec :
  lfields st N txn s ->
  wp write_head (fun _ s' => exists bio', s' = set_bio bio' s /\
    brep bio' (idle (apply_view [(st, enc_head txn (f st))] f) pin) /\
    wrote [(st, enc_head txn (f st))] (lg_bio s) bio') s.
Proof.
  intros HF. unfold write_head. apply wp_bind, wp_get. rewrite (lf_dev _ _ _ _ HF), (lf_start _ _ _ _ HF).
  rewrite u32_small by lia. apply wp_bind, wp_inbio. eapply wp_mono.
  { apply bread_spec; [done | rewrite (lf_size _ _ _ _ HF); lia | intros i; simpl; by rewrite lookup_empty
                      | right; by rewrite busy_idle]. }
  intros i b1 (_ & HR1 & HD1). unfold set_held in HR1. simpl in HR1.
  apply wp_bind, wp_get. simpl.
  assert (Hd : bdata b1 i = f st) by (by rewrite (brep_data _ _ i st HR1) by apply lookup_insert_eq).
  assert (Hok : block_ok (f st)).
  { apply (brep_vw_ok _ _ st HR). rewrite (lf_size _ _ _ _ HF). lia. }
  rewrite Hd. apply wp_bind, wp_inbio. simpl. eapply wp_mono.
  { eapply (bstore_spec _ _ i st); [apply HR1 | apply lookup_insert_eq | by apply wr_block_ok]. }
  intros [] b2 [HR2 HD2]. apply wp_bind. unfold lh_iters. simpl. rewrite (lf_n _ _ _ _ HF), Nat2Z.id.
  rewrite (lf_n _ _ _ _ HF) in HR2. set (d0 := wr32 (f st) 0 (Z.of_nat (length txn))) in *.
  apply (wp_for_each (fun z s' => exists j b, z = Z.of_nat j /\ s' = set_bio b s /\
    brep b (BAbs (apply_view [(st, enc_blocks (take j txn) 0 d0)] f) (<[i := st]> ∅) {[st]} pin) /\
    same_disk (lg_bio s) b)).
  - exists O, b2. split_and!; [done | done | |].
    + eapply brep_ext; [apply HR2 | | done | simpl; set_solver | done]. done.
    + destruct HD1 as (?&?&?), HD2 as (?&?&?). repeat split; congruence.
  - intros z s' Hz (j & b & -> & -> & HRj & HDj).
    assert (Hj : (j < length txn)%nat) by lia. apply lookup_lt_is_Some_2 in Hj as [v Hv].
    apply wp_bind. unfold lh_get. wp_steps. eapply wp_the.
    { simpl. rewrite Nat2Z.id. by apply (lf_block _ _ _ _ HF). }
    wp_steps. simpl. rewrite (brep_data _ _ i st HRj) by apply lookup_insert_eq. simpl.
    rewrite decide_True by done. apply wp_inbio. simpl. eapply wp_mono.
    { eapply (bstore_spec _ _ i st); [apply HRj | apply lookup_insert_eq |].
      apply wr_block_ok, enc_blocks_ok, wr_block_ok. done. }
    intros [] b' [HR' HD']. exists (S j), b'. split_and!; [lia | done | |].
    + eapply brep_ext; [apply HR' | | done | simpl; set_solver | done].
      intros c. rewrite (take_S_r _ _ _ Hv), enc_blocks_snoc. apply lookup_lt_Some in Hv.
      simpl. rewrite length_take, Nat.min_l by lia. by case_decide.
    + destruct HDj as (?&?&?), HD' as (?&?&?). repeat split; congruence.
  - intros s' (j & b & Hj & -> & HRj & HDj). assert (j = length txn) as -> by lia.
    rewrite take_ge in HRj by lia. fold (enc_head txn (f st)) in HRj.
    apply wp_bind, wp_inbio. simpl. eapply wp_mono.
    { eapply (bwrite_spec _ _ i st); [apply HRj | apply lookup_insert_eq]. }
    intros [] b3 (HR3 & HD3 & HS3 & HW3).
    apply wp_inbio. simpl. eapply wp_mono.
    { eapply (brelse_spec _ _ i st); [apply HR3 | apply lookup_insert_eq | set_solver]. }
    intros [] b4 [HR4 HD4]. exists b4. split; [done|]. simpl in HD3, HW3.
    rewrite decide_True in HD3, HW3 by done. destruct HDj as (?&?&?), HD4 as (?&?&?). split.
    + eapply brep_ext; [apply HR4 | done | simpl | simpl; set_solver | simpl; set_solver].
      by rewrite delete_insert_eq, delete_empty.
    + split; [|split]; [|congruence|].
      * simpl. change (enc_blocks txn 0 d0) with (enc_head txn (f st)) in *. congruence.
      * simpl. change (enc_blocks txn 0 d0) with (enc_head txn (f st)) in *. congruence.
Qed.

(** Reading back a header. *)
Lemma read_head_spec :
  lg_start s = st -> lg_dev s = 1 -> disksize (lg_bio s) = N -> length (lg_block s) = Z.to_nat LOGSIZE ->
  hd_n (f st) = Z.of_nat (length txn) ->
  (forall k b, txn !! k = Some b -> hd_block (f st) (Z.of_nat k) = b) ->
  wp read_head (fun _ s' => lfields st N txn s' /\ brep (lg_bio s') (idle f pin) /\
    same_disk (lg_bio s) (lg_bio s') /\ same_ctl s s') s.
Proof.
  intros Hs Hdev Hsz Hbl Hn Hblk. unfold read_head. apply wp_bind, wp_get. rewrite Hdev, Hs.
  rewrite u32_small by lia. apply wp_bind, wp_inbio. eapply wp_mono.
  { apply bread_spec; [done | lia | intros i; simpl; by rewrite lookup_empty | right; by rewrite busy_idle]. }
  intros i b1 (_ & HR1 & HD1). unfold set_held in HR1. simpl in HR1.
  assert (Hd : bdata b1 i = f st) by (by rewrite (brep_data _ _ i st HR1) by apply lookup_insert_eq).
  apply wp_bind, wp_get. simpl. rewrite Hd, Hn. apply wp_bind, wp_modify. apply wp_bind, wp_get.
  unfold lh_iters. simpl. rewrite Nat2Z.id. apply wp_bind.
  apply (wp_for_each (fun z s' => exists j bl, z = Z.of_nat j /\
    s' = Log b1 (lg_start s) (lg_size s) (lg_outstanding s) (lg_committing s) (lg_dev s) (Z.of_nat (length txn)) bl /\
    length bl = Z.to_nat LOGSIZE /\ (forall k b, (k < j)%nat -> txn !! k = Some b -> bl !! k = Some b))).
  - exists O, (lg_block s). split_and!; try done. lia.
  - intros z s' Hz (j & bl & -> & -> & Hbll & Hj).
    apply wp_bind, wp_get. unfold lh_set. apply wp_bind, wp_get. simpl. rewrite Nat2Z.id, Hd, Hbll.
    destruct (lookup_lt_is_Some_2 txn j) as [v Hv]; [lia|]. rewrite (Hblk _ _ Hv).
    change (Z.to_nat LOGSIZE) with 30%nat. destruct (Nat.ltb_spec j 30); [|lia].
    apply wp_put. exists (S j), (<[j := v]> bl). split_and!; [lia | done | by rewrite length_insert |].
    intros k b Hk Hkb. destruct (decide (k = j)) as [->|].
    + rewrite list_lookup_insert_eq by (rewrite Hbll; change (Z.to_nat LOGSIZE) with 30%nat; lia). congruence.
    + rewrite list_lookup_insert_ne by done. apply Hj; [lia | done].
  - intros s' (j & bl & Hjn & -> & Hbll & Hj). assert (j = length txn) as -> by lia.
    apply wp_inbio. simpl. eapply wp_mono.
    { eapply (brelse_spec _ _ i st); [apply HR1 | apply lookup_insert_eq | set_solver]. }
    intros [] b2 [HR2 HD2]. split_and!.
    + split; simpl; try done; [destruct HD1 as (_&?&_), HD2 as (_&?&_); congruence|].
      intros k b Hk. apply Hj; [by apply lookup_lt_Some in Hk | done].
    + eapply brep_ext; [apply HR2 | done | simpl | done | done].
      by rewrite delete_insert_eq, delete_empty.
    + destruct HD1 as (?&?&?), HD2 as (?&?&?). simpl. repeat split; congruence.
    + done.
Qed.
End heads.

(** ** Commit and recovery as disk writes *)

(** The disk of an image: [N] well-formed blocks. *)
Definition disk_ok (N : Z) (D : gmap Z block) : Prop :=
  forall b, 0 <= b < N -> exists x, D !! b = Some x /\ block_ok x.
Definition dview (D : gmap Z block) (b : Z) : block := default zero_block (D !! b).

Lemma boot_brep D N : disk_ok N D -> brep (boot D N) (idle (dview D) ∅).
Proof.
  intros HD. pose proof (boot_inv D N HD) as HI.
  assert (Hd0 : forall i, (i < NBUF)%nat -> b_dev (bufat (boot D N) i) = 0).
  { intros i Hi. unfold NBUF in Hi. do 30 (destruct i as [|i]; [vm_compute; done|]). lia. }
  assert (Hno : forall i b, ~ caches (boot D N) i b).
  { intros i b (Hi & Hdev & _). rewrite Hd0 in Hdev by done. discriminate Hdev. }
  split.
  - exact HI.
  - intros b. rewrite vw_uncached; [reflexivity | intros i; apply Hno].
  - intros i b. split; [intros [Hc _]; destruct (Hno i b Hc) | intros H; simpl in H; by rewrite lookup_empty in H].
  - intros b. split; [intros (i & Hc & _); destruct (Hno i b Hc) | intros H; destruct (not_elem_of_empty b H)].
Qed.

(** What [commit] writes: the log blocks, the header, the home blocks, the
    cleared header. *)
Definition commit_writes (st : Z) (txn : list Z) (f : Z -> block) : list (Z * block) :=
  if decide (txn = []) then []
  else log_writes st txn f ++ [(st, enc_head txn (f st))] ++
       ((fun b => (b, f b)) <$> txn) ++ [(st, enc_head [] (enc_head txn (f st)))].

(** What recovery writes, from a disk whose header lists [txn]. *)
Definition recovery_writes (st : Z) (txn : list Z) (f : Z -> block) : list (Z * block) :=
  home_writes st txn f ++ [(st, enc_head [] (f st))].

Lemma wrote_app W1 W2 b b' b'' : wrote W1 b b' -> wrote W2 b' b'' -> wrote (W1 ++ W2) b b''.
Proof.
  intros (H1 & H2 & H3) (K1 & K2 & K3). split; [|split].
  - by rewrite apply_writes_app, <- H1.
  - congruence.
  - by rewrite rev_app_distr, <- app_assoc, <- H3.
Qed.

Lemma lfields_nil st N txn s : lfields st N txn s -> lfields st N [] (set_n 0 s).
Proof. intros [H1 H2 H3 H4 H5 H6]. by split. Qed.

Section commit.
Context (st sz N : Z) (txn : list Z) (f : Z -> block) (s : log).
Context (Hst : 1 < st) (Hsz : 0 < sz) (HstN : st + sz <= N) (HN : N < 2 ^ 31).
Context (Hfit : Z.of_nat (length txn) < sz) (Hcap : (length txn < NBUF)%nat).
Context (Htxn : forall b, b ∈ txn -> 0 <= b < N /\ (b < st \/ st + sz <= b)).
Context (Hnd : NoDup txn).

Lemma st_notin_log g : st ∉ (log_writes st txn g).*1.
Proof. intros H%log_writes_fst. lia. Qed.
Lemma st_notin_txn : st ∉ txn.
Proof. intros H%Htxn. lia. Qed.

Lemma log_writes_in k b g : txn !! k = Some b -> (st + 1 + Z.of_nat k, g b) ∈ log_writes st txn g.
Proof.
  intros Hk. apply list_elem_of_lookup. exists k. unfold log_writes.
  by rewrite list_lookup_imap, Hk.
Qed.
Lemma log_writes_nodup g : NoDup (log_writes st txn g).*1.
Proof.
  clear - txn. unfold log_writes. rewrite fmap_imap. apply NoDup_alt. intros i j x Hi Hj.
  rewrite list_lookup_imap in Hi, Hj. destruct (txn !! i), (txn !! j); try done.
  simpl in Hi, Hj. injection Hi as <-. injection Hj. lia.
Qed.

(** The installed values are the ones that were logged. *)
Lemma home_after_log g :
  (forall b, b ∈ txn -> g b = f b) ->
  home_writes st txn (apply_view (log_writes st txn f) g) = (fun b => (b, f b)) <$> txn.
Proof.
  intros Hg. unfold home_writes. apply list_eq. intros k. rewrite list_lookup_imap, list_lookup_fmap.
  destruct (txn !! k) as [b|] eqn:Hk; [|done]. simpl. do 2 f_equal.
  eapply apply_view_in; [apply log_writes_nodup | by apply log_writes_in].
Qed.

Lemma commit_spec :
  lfields st N txn s -> brep (lg_bio s) (idle f (list_to_set txn)) ->
  wp commit (fun _ s' => exists bio', s' = set_n 0 (set_bio bio' s) /\
    brep bio' (idle (apply_view (commit_writes st txn f) f) ∅) /\
    wrote (commit_writes st txn f) (lg_bio s) bio') s.
Proof.
  intros HF HR. assert (Hl30 : (length txn <= 30)%nat) by (unfold NBUF in *; lia).
  unfold commit. apply wp_bind, wp_get. unfold commit_writes.
  case_decide as Htx.
  { rewrite (lf_n _ _ _ _ HF), Htx. simpl. exists (lg_bio s). split; [|split; [|done]].
    - pose proof (lf_n _ _ _ _ HF) as Hn. rewrite Htx in Hn. destruct s; simpl in *. by subst.
    - eapply brep_ext; [apply HR | done | done | done|]. simpl. rewrite Htx. set_solver. }
  apply wp_when; [intros _|].
  2: { rewrite (lf_n _ _ _ _ HF), Z.ltb_ge. destruct txn; [done|]. simpl. lia. }
  set (W1 := log_writes st txn f). set (H := enc_head txn (f st)).
  apply wp_bind. eapply wp_mono; [apply (write_log_spec st sz N txn); try done; lia|].
  intros [] s1 (b1 & -> & HR1 & HW1). fold W1 in HR1, HW1.
  assert (Es : apply_view W1 f st = f st) by (apply apply_view_other, st_notin_log).
  assert (Hsz1 : disksize b1 = N) by (destruct HW1 as (_ & -> & _); apply HF).
  assert (Hpin : (size (list_to_set txn : gset Z) < NBUF)%nat)
    by (apply (size_pin txn); try done).
  apply wp_bind. eapply wp_mono.
  { apply (write_head_spec st N txn _ (apply_view W1 f) (list_to_set txn)); try done; try lia.
    - rewrite elem_of_list_to_set. apply st_notin_txn.
    - by apply lfields_bio. }
  simpl. rewrite Es. fold H. intros [] s2 (b2 & -> & HR2 & HW2). simpl in HW2.
  assert (Hsz2 : disksize b2 = N) by (destruct HW2 as (_ & -> & _); done).
  apply wp_bind. eapply wp_mono.
  { apply (install_trans_spec st sz N txn) with (pin := list_to_set txn); try done; try lia.
    - apply lfields_bio; [|done]. by apply lfields_bio.
    - by left. }
  simpl. intros [] s3 (b3 & -> & HR3 & HW3). simpl in HW3.
  set (f2 := fun c : Z => if decide (c = st) then H else apply_view W1 f c) in *.
  assert (Eh : home_writes st txn f2 = (fun b => (b, f b)) <$> txn).
  { unfold home_writes. apply list_eq. intros k. rewrite list_lookup_imap, list_lookup_fmap.
    destruct (txn !! k) as [b|] eqn:Hk; [|done]. simpl. do 2 f_equal. unfold f2.
    rewrite decide_False by lia.
    eapply apply_view_in; [apply log_writes_nodup | by apply log_writes_in]. }
  rewrite Eh in *. set (W2 := (fun b => (b, f b)) <$> txn) in *.
  assert (EW2 : W2.*1 = txn) by (unfold W2; rewrite <- list_fmap_compose; apply list_fmap_id).
  assert (Es3 : apply_view W2 f2 st = H).
  { rewrite apply_view_other by (rewrite EW2; apply st_notin_txn). unfold f2. by rewrite decide_True. }
  assert (Hsz3 : disksize b3 = N) by (destruct HW3 as (_ & -> & _); done).
  apply wp_bind, wp_modify. eapply wp_mono.
  { apply (write_head_spec st N [] _ (apply_view W2 f2) ∅); try done; try lia.
    - simpl. lia.
    - rewrite size_empty. unfold NBUF. lia.
    - eapply lfields_nil. apply lfields_bio; [|done]. apply lfields_bio; [|done]. by apply lfields_bio. }
  simpl. rewrite Es3. intros [] s4 (b4 & -> & HR4 & HW4). exists b4. split; [done|].
  assert (EV : forall c, apply_view (W1 ++ [(st, H)] ++ W2 ++ [(st, enc_head [] H)]) f c =
                         apply_view [(st, enc_head [] H)] (apply_view W2 f2) c).
  { intros c. by rewrite !apply_view_app. }
  split.
  - eapply brep_ext; [apply HR4 | | done | done | done]. intros c. simpl. rewrite EV. done.
  - eapply wrote_app; [exact HW1|]. apply (wrote_app [(st, H)] _ _ b2); [exact HW2|].
    eapply wrote_app; [exact HW3 | exact HW4].
Qed.
End commit.

(** Recovery from a disk image. *)
Section recovery.
Context (st sz N : Z) (txn : list Z) (D : gmap Z block).
Context (Hst : 1 < st) (Hsz : 0 < sz) (HstN : st + sz <= N) (HN : N < 2 ^ 31).
Context (Hfit : Z.of_nat (length txn) < sz) (Hcap : (length txn < NBUF)%nat).
Context (Htxn : forall b, b ∈ txn -> 0 <= b < N /\ (b < st \/ st + sz <= b)).
Context (Hnd : NoDup txn) (HD : disk_ok N D).
Context (Hsb : sb_logstart (sb_decode (dview D 1)) = st) (Hsl : sb_nlog (sb_decode (dview D 1)) = sz).
Context (Hhn : hd_n (dview D st) = Z.of_nat (length txn)).
Context (Hhb : forall k b, txn !! k = Some b -> hd_block (dview D st) (Z.of_nat k) = b).

(** Recovery from any idle cache over the disk [D]. *)
Lemma initlog_from b0 : brep b0 (idle (dview D) ∅) -> disksize b0 = N ->
  wp (initlog 1) (fun _ r => (lfields st N [] r /\ lg_size r = sz /\ lg_outstanding r = 0 /\ lg_committing r = false) /\
    brep (lg_bio r) (idle (apply_view (recovery_writes st txn (dview D)) (dview D)) ∅) /\
    wrote (recovery_writes st txn (dview D)) b0 (lg_bio r)) (log0 b0).
Proof.
  intros HR Hszb.
  assert (Hl30 : (length txn <= 30)%nat) by (unfold NBUF in *; lia).
  assert (Hp0 : (size (∅ : gset Z) < NBUF)%nat) by (rewrite size_empty; unfold NBUF; lia).
  unfold initlog. change (BSIZE <=? 4 + 4 * LOGSIZE) with false. cbn iota.
  apply wp_bind, wp_inbio. unfold readsb. apply wp_bind. eapply wp_mono.
  { apply bread_spec; [exact HR | cbn [lg_bio log0]; lia | intros i; simpl; by rewrite lookup_empty
                      | right; by rewrite busy_idle]. }
  intros i b1 (_ & HR1 & HD1). unfold set_held in HR1. cbn [idle a_vw a_held a_mod a_pin] in HR1.
  cbn [lg_bio log0] in HD1.
  apply wp_bind, wp_get. rewrite (brep_data _ _ i 1 HR1) by apply lookup_insert_eq. cbn [a_vw].
  apply wp_bind. eapply wp_mono.
  { eapply (brelse_spec _ _ i 1); [apply HR1 | apply lookup_insert_eq | set_solver]. }
  intros [] b2 [HR2 HD2]. apply wp_ret. apply wp_bind, wp_modify. rewrite Hsb, Hsl.
  rewrite !i32_small by lia. cbn [set_bio log0 lg_bio lg_outstanding lg_committing lg_n lg_block lg_dev].
  assert (HR2' : brep b2 (idle (dview D) ∅)).
  { eapply brep_ext; [apply HR2 | done | simpl | done | done]. by rewrite delete_insert_eq, delete_empty. }
  assert (HD02 : same_disk b0 b2) by (destruct HD1 as (?&?&?), HD2 as (?&?&?); repeat split; congruence).
  assert (Hsz2 : disksize b2 = N) by (destruct HD02 as (_ & -> & _); done).
  clear HR1 HR2 HD1 HD2 b1.
  unfold recover_from_log. apply wp_bind. eapply wp_mono.
  { apply (read_head_spec st N txn _ (dview D) ∅); try done; simpl; lia. }
  intros [] s3 (HF3 & HR3 & HD3 & HC3). cbn [lg_bio] in HD3.
  apply wp_bind. eapply wp_mono.
  { apply (install_trans_spec st sz N txn) with (pin := ∅); try done; try lia. by right. }
  intros [] s4 (b4 & -> & HR4 & HW4).
  assert (Es : apply_view (home_writes st txn (dview D)) (dview D) st = dview D st).
  { apply apply_view_other. rewrite home_writes_fst. intros H%Htxn. lia. }
  assert (Hsz4 : disksize b4 = N).
  { destruct HW4 as (_ & -> & _), HD3 as (_ & -> & _). done. }
  apply wp_bind, wp_modify. eapply wp_mono.
  { apply (write_head_spec st N [] _ (apply_view (home_writes st txn (dview D)) (dview D)) ∅); try done; try lia.
    - simpl. lia.
    - eapply lfields_nil. by apply lfields_bio. }
  rewrite Es. intros [] s5 (b5 & -> & HR5 & HW5). split; [|split].
  - split; [|exact HC3]. destruct HW5 as (_ & Hs5 & _). cbn [set_n set_bio lg_bio] in Hs5.
    apply lfields_bio; [eapply lfields_nil; by apply lfields_bio | by rewrite Hs5].
  - eapply brep_ext; [apply HR5 | | done | done | done]. intros c. unfold recovery_writes.
    rewrite apply_view_app. done.
  - apply (wrote_app _ _ b0 b4); [|exact HW5].
    destruct HW4 as (H1 & H2 & H3), HD3 as (K1 & K2 & K3), HD02 as (L1 & L2 & L3).
    split; [|split]; congruence.
Qed.

Lemma initlog_spec :
  wp (initlog 1) (fun _ r => (lfields st N [] r /\ lg_size r = sz /\ lg_outstanding r = 0 /\ lg_committing r = false) /\
    brep (lg_bio r) (idle (apply_view (recovery_writes st txn (dview D)) (dview D)) ∅) /\
    wrote (recovery_writes st txn (dview D)) (boot D N) (lg_bio r)) (log0 (boot D N)).
Proof. apply initlog_from; [by apply boot_brep | done]. Qed.
End recovery.

(** ** Atomicity of a transaction under crashes *)

Lemma one_fst (st b : Z) (x : block) : b <> st -> b ∉ [(st, x)].*1.
Proof. intros Hb. cbn. by rewrite list_elem_of_singleton. Qed.

(** A log about to commit: no buffer is held, the blocks of [txn] are pinned
    with their new content in [f], and the header on disk is empty. *)
Record quiescent (st sz N : Z) (txn : list Z) (f : Z -> block) (s : log) : Prop := {
  q_geom : 1 < st /\ 0 < sz /\ st + sz <= N /\ N < 2 ^ 31;
  q_fit : Z.of_nat (length txn) < sz;
  q_cap : (length txn < NBUF)%nat;
  q_txn : forall b, b ∈ txn -> 0 <= b < N /\ (b < st \/ st + sz <= b) /\ b <> 1;
  q_nodup : NoDup txn;
  q_fields : lfields st N txn s;
  q_rep : brep (lg_bio s) (idle f (list_to_set txn));
  q_head : hd_n (f st) = 0;
  q_sb : sb_logstart (sb_decode (f 1)) = st /\ sb_nlog (sb_decode (f 1)) = sz
}.

Lemma apply_writes_ok N W D :
  disk_ok N D -> Forall (fun w => block_ok w.2) W -> disk_ok N (apply_writes W D).
Proof.
  intros HD HW. revert D HD. induction HW as [|[c x] W Hx HW IH]; intros D HD; [done|].
  apply IH. intros b Hb. destruct (decide (b = c)) as [->|Hne].
  - exists x. by rewrite lookup_insert_eq.
  - rewrite lookup_insert_ne by done. by apply HD.
Qed.

Lemma dview_apply W D b : dview (apply_writes W D) b = apply_view W (dview D) b.
Proof.
  revert D. induction W as [|[c x] W IH]; intros D; [done|].
  change (dview (apply_writes W (<[c := x]> D)) b = apply_view W (fun y => if decide (y = c) then x else dview D y) b).
  rewrite IH. destruct (decide (b ∈ W.*1)) as [Hin|Hout].
  - clear IH. revert Hin. generalize (dview (<[c := x]> D)), (fun y => if decide (y = c) then x else dview D y).
    induction W as [|[e y] W IH] using rev_ind; intros g h Hin; [set_solver|].
    rewrite !apply_view_app. cbn. case_decide; [done|]. apply IH. rewrite fmap_app in Hin. set_solver.
  - rewrite !apply_view_other by done. unfold dview. destruct (decide (b = c)) as [->|].
    + by rewrite lookup_insert_eq.
    + by rewrite lookup_insert_ne.
Qed.
Lemma disk_lookup N D b : disk_ok N D -> 0 <= b < N -> D !! b = Some (dview D b).
Proof. intros HD Hb. destruct (HD b Hb) as (x & Hx & _). unfold dview. by rewrite Hx. Qed.

(** ** The contents that a disk stands for

    The blocks that the header of the log lists are taken from the log, the
    others from their place: this is what recovery makes of the disk. *)
Definition listed (st : Z) (D : gmap Z block) : list Z :=
  (fun k => hd_block (dview D st) (Z.of_nat k)) <$> seq 0 (Z.to_nat (hd_n (dview D st))).
Definition logical (st : Z) (D : gmap Z block) (b : Z) : block :=
  match list_find (fun c => c = b) (listed st D) with
  | Some (k, _) => dview D (st + 1 + Z.of_nat k)
  | None => dview D b
  end.
Definition outside_log (st sz N b : Z) : Prop := 0 <= b < N /\ (b < st \/ st + sz <= b).

Lemma logical_log st D k b : NoDup (listed st D) -> listed st D !! k = Some b -> logical st D b = dview D (st + 1 + Z.of_nat k).
Proof.
  intros Hnd Hk. unfold logical. destruct (list_find _ _) as [[j x]|] eqn:E.
  - apply list_find_Some in E as (Hj & -> & _). by rewrite (NoDup_lookup _ _ _ _ Hnd Hj Hk).
  - apply list_find_None in E. by destruct (Forall_lookup_1 _ _ _ _ E Hk).
Qed.
Lemma logical_home st D b : b ∉ listed st D -> logical st D b = dview D b.
Proof.
  intros Hb. unfold logical. destruct (list_find _ _) as [[j x]|] eqn:E; [|done].
  apply list_find_Some in E as (Hj & -> & _). by apply list_elem_of_lookup_2 in Hj.
Qed.

Section contents.
Context (st sz N : Z) (HG : 1 < st /\ 0 < sz /\ st + sz <= N /\ N < 2 ^ 31).

(** A disk whose header recovery can follow. *)
Record sound (D : gmap Z block) : Prop := {
  so_disk : disk_ok N D;
  so_sb : sb_logstart (sb_decode (dview D 1)) = st /\ sb_nlog (sb_decode (dview D 1)) = sz;
  so_n : 0 <= hd_n (dview D st);
  so_fit : Z.of_nat (length (listed st D)) < sz;
  so_cap : (length (listed st D) < NBUF)%nat;
  so_home : forall b, b ∈ listed st D -> outside_log st sz N b /\ b <> 1;
  so_nodup : NoDup (listed st D)
}.

Lemma so_block D b : sound D -> 0 <= b < N -> block_ok (dview D b).
Proof. intros HS Hb. destruct (so_disk _ HS b Hb) as (x & Hx & Hok). unfold dview. by rewrite Hx. Qed.

(** Writes to listed blocks change nothing, and neither do writes to the
    part of the log that the header does not reach. *)
Lemma sound_keep D D' :
  sound D -> disk_ok N D' -> dview D' st = dview D st -> dview D' 1 = dview D 1 ->
  (forall k, (k < length (listed st D))%nat -> dview D' (st + 1 + Z.of_nat k) = dview D (st + 1 + Z.of_nat k)) ->
  (forall b, outside_log st sz N b -> b ∉ listed st D -> dview D' b = dview D b) ->
  sound D' /\ forall b, outside_log st sz N b -> logical st D' b = logical st D b.
Proof using.
  intros [S1 S2 S3 S4 S5 S6 S7] Hok Est E1 Elog Ehome.
  assert (EL : listed st D' = listed st D) by (unfold listed; by rewrite Est). split.
  - split; rewrite ?EL, ?E1, ?Est; done.
  - intros b Hb. destruct (decide (b ∈ listed st D)) as [Hin|Hout].
    + apply list_elem_of_lookup in Hin as [k Hk]. pose proof (lookup_lt_Some _ _ _ Hk).
      rewrite !(logical_log _ _ k) by (by rewrite ?EL). by apply Elog.
    + rewrite !logical_home by (by rewrite ?EL). by apply Ehome.
Qed.

Lemma listed_nil D : hd_n (dview D st) = 0 -> listed st D = [].
Proof using. intros H. unfold listed. by rewrite H. Qed.
Lemma sound_empty D : disk_ok N D -> sb_logstart (sb_decode (dview D 1)) = st /\ sb_nlog (sb_decode (dview D 1)) = sz ->
  hd_n (dview D st) = 0 -> sound D /\ forall b, logical st D b = dview D b.
Proof using HG.
  intros HD Hsb Hn. pose proof (listed_nil D Hn) as EL. split.
  - split; rewrite ?EL; try done; [lia | cbn; lia | cbn; unfold NBUF; lia | intros b Hb; by apply not_elem_of_nil in Hb | constructor].
  - intros b. apply logical_home. rewrite EL. apply not_elem_of_nil.
Qed.

(** *** Recovery, and recovery interrupted *)

Lemma recovery_writes_ok D : sound D -> Forall (fun w => block_ok w.2) (recovery_writes st (listed st D) (dview D)).
Proof using HG.
  intros HS. pose proof (so_fit _ HS). apply Forall_app_2.
  - apply Forall_forall. intros w (k & Hk)%list_elem_of_lookup. unfold home_writes in Hk.
    rewrite list_lookup_imap in Hk. destruct (listed st D !! k) eqn:E; [|done]. injection Hk as <-.
    apply so_block; [done|]. apply lookup_lt_Some in E. cbn in *. lia.
  - constructor; [|done]. apply enc_head_ok, so_block; [done | lia].
Qed.

Lemma recovered_head D : sound D -> hd_n (dview (apply_writes (recovery_writes st (listed st D) (dview D)) D) st) = 0.
Proof using HG.
  intros HS. rewrite dview_apply. unfold recovery_writes. rewrite apply_view_app, apply_view_one.
  apply hd_n_enc; [|cbn; lia]. apply so_block; [done | lia].
Qed.

Lemma recovered_block D b : sound D -> outside_log st sz N b ->
  dview (apply_writes (recovery_writes st (listed st D) (dview D)) D) b = logical st D b.
Proof using HG.
  intros HS [Hb Ho]. rewrite dview_apply. unfold recovery_writes.
  rewrite apply_view_app, (apply_view_other [_]) by (cbn; rewrite list_elem_of_singleton; lia).
  destruct (decide (b ∈ listed st D)) as [Hin|Hout].
  - apply list_elem_of_lookup in Hin as [k Hk]. rewrite (logical_log _ _ k) by (done || apply HS).
    apply apply_view_in; [rewrite home_writes_fst; apply HS|].
    apply list_elem_of_lookup. exists k. unfold home_writes. by rewrite list_lookup_imap, Hk.
  - rewrite logical_home by done. apply apply_view_other. by rewrite home_writes_fst.
Qed.

(** Recovery that stops at any point leaves the same contents. *)
Lemma recovery_prefix D k : sound D ->
  let D' := apply_writes (take k (recovery_writes st (listed st D) (dview D))) D in
  sound D' /\ forall b, outside_log st sz N b -> logical st D' b = logical st D b.
Proof using HG.
  intros HS D'. pose proof (recovery_writes_ok D HS) as HW. pose proof (so_fit _ HS) as Hfit.
  assert (disk_ok N D') as Hok by (apply apply_writes_ok; [apply HS | by apply Forall_take]).
  assert (forall b, ~ (outside_log st sz N b /\ b <> 1) -> b ∉ listed st D) as Hnl by (intros b Hb Hin; by apply Hb, HS).
  destruct (decide (k <= length (listed st D))%nat) as [Hk|Hk].
  - assert (forall b, b ∉ listed st D -> dview D' b = dview D b) as Hout.
    { intros b Hb. unfold D', recovery_writes. rewrite dview_apply, take_app_le by (unfold home_writes; by rewrite length_imap).
      apply apply_view_other. intros Hx%take_fst. by rewrite home_writes_fst in Hx. }
    apply sound_keep; try done.
    + apply Hout, Hnl. unfold outside_log. lia.
    + apply Hout, Hnl. lia.
    + intros j Hj. apply Hout, Hnl. unfold outside_log. lia.
    + intros b _. apply Hout.
  - assert (take k (recovery_writes st (listed st D) (dview D)) = recovery_writes st (listed st D) (dview D)) as E.
    { apply take_ge. unfold recovery_writes, home_writes. rewrite length_app, length_imap. cbn. lia. }
    unfold D' in *. rewrite E in *. destruct (sound_empty _ Hok) as [S1 S2].
    + rewrite dview_apply. unfold recovery_writes. rewrite apply_view_app, (apply_view_other [_]) by (cbn; rewrite list_elem_of_singleton; lia).
      rewrite apply_view_other; [apply HS|]. rewrite home_writes_fst. apply Hnl. lia.
    + by apply recovered_head.
    + split; [exact S1|]. intros b Hb. rewrite S2. by apply recovered_block.
Qed.

(** The log after recovery: nothing is pinned, the header is empty. *)
Record settled (r : log) : Prop := {
  se_fields : lfields st N [] r;
  se_size : lg_size r = sz;
  se_out : lg_outstanding r = 0;
  se_comm : lg_committing r = false;
  se_rep : brep (lg_bio r) (idle (dview (disk (lg_bio r))) ∅);
  se_sound : sound (disk (lg_bio r));
  se_head : hd_n (dview (disk (lg_bio r)) st) = 0
}.

Lemma initlog_settles D b0 : sound D -> brep b0 (idle (dview D) ∅) -> disksize b0 = N -> disk b0 = D ->
  wp (initlog 1) (fun _ r => settled r /\ wrote (recovery_writes st (listed st D) (dview D)) b0 (lg_bio r) /\
    forall b, outside_log st sz N b -> dview (disk (lg_bio r)) b = logical st D b) (log0 b0).
Proof using HG.
  intros HS HR Hs Hd. destruct HG as (G1&G2&G3&G4). pose proof (so_n _ HS). eapply wp_mono.
  { apply (initlog_from st sz N (listed st D) D); try done; try (by apply HS).
    - unfold listed. rewrite length_fmap, length_seq. lia.
    - intros k b. unfold listed. rewrite list_lookup_fmap. intros (j & Hj & ->)%fmap_Some.
      apply lookup_seq in Hj as [-> _]. done. }
  intros [] r ((H1 & H2 & H3 & H4) & H5 & HW). pose proof HW as (Ed & _). rewrite Hd in Ed.
  split; [|split; [exact HW|]].
  - split; rewrite ?Ed; try done.
    + eapply brep_ext; [exact H5 | intros c; apply dview_apply | done..].
    + pose proof (recovery_prefix D (length (recovery_writes st (listed st D) (dview D))) HS) as [HP _].
      by rewrite firstn_all in HP.
    + by apply recovered_head.
  - intros b Hb. rewrite Ed. by apply recovered_block.
Qed.
End contents.

#[local] Opaque boot initlog commit.

Section crash.
Context (st sz N : Z) (txn : list Z) (f : Z -> block) (s : log) (HQ : quiescent st sz N txn f s).
Let D0 := disk (lg_bio s).
Let n := length txn.
Let W1 := log_writes st txn f.
Let H := enc_head txn (f st).
Let W2 := (fun b => (b, f b)) <$> txn.

Lemma cr_txn b : b ∈ txn -> 0 <= b < N /\ (b < st \/ st + sz <= b).
Proof. intros Hb. destruct (q_txn _ _ _ _ _ _ HQ b Hb) as (?&?&?). done. Qed.
Lemma cr_geom : 1 < st /\ 0 < sz /\ st + sz <= N /\ N < 2 ^ 31.
Proof. apply HQ. Qed.
Lemma cr_size : disksize (lg_bio s) = N.
Proof. apply (q_fields _ _ _ _ _ _ HQ). Qed.
Lemma cr_clean b : 0 <= b < N -> b ∉ txn -> D0 !! b = Some (f b).
Proof.
  intros Hb Hn. pose proof (q_rep _ _ _ _ _ _ HQ) as HR.
  replace (f b) with (vw (lg_bio s) b) by apply (br_vw _ _ HR).
  eapply vw_clean; [apply (br_inv _ _ HR) | by rewrite cr_size | | set_solver].
  intros Hp%(br_pin _ _ HR). simpl in Hp. set_solver.
Qed.
Lemma cr_fok b : 0 <= b < N -> block_ok (f b).
Proof.
  intros Hb. pose proof (q_rep _ _ _ _ _ _ HQ) as HR. apply (brep_vw_ok _ _ b HR). by rewrite cr_size.
Qed.
Lemma cr_disk : disk_ok N D0.
Proof. intros b Hb. apply (bi_disk _ _ (br_inv _ _ (q_rep _ _ _ _ _ _ HQ))). by rewrite cr_size. Qed.
Lemma cr_W1_len : length W1 = n.
Proof. apply length_imap. Qed.
Lemma cr_W2_fst : W2.*1 = txn.
Proof. unfold W2. rewrite <- list_fmap_compose. apply list_fmap_id. Qed.
Lemma cr_ok : Forall (fun w => block_ok w.2) (commit_writes st txn f).
Proof.
  pose proof cr_geom. unfold commit_writes. case_decide; [done|].
  assert (Hf : forall b, b ∈ txn -> block_ok (f b)) by (intros; by apply cr_fok, cr_txn).
  assert (Hh : block_ok (enc_head txn (f st))) by (apply enc_head_ok, cr_fok; lia).
  repeat apply Forall_app_2; try (constructor; [|done]); try done; try by apply enc_head_ok.
  - apply Forall_forall. intros w (k & Hk)%list_elem_of_lookup. unfold log_writes in Hk.
    rewrite list_lookup_imap in Hk. destruct (txn !! k) eqn:E; [|done]. injection Hk as <-.
    apply Hf. by eapply list_elem_of_lookup_2.
  - apply Forall_fmap, Forall_forall. intros b Hb. by apply Hf.
Qed.
(** Block 1 and, before the header write, the header are as before. *)
Lemma cr_sb k : dview (apply_writes (take k (commit_writes st txn f)) D0) 1 = f 1.
Proof.
  pose proof cr_geom. unfold dview. rewrite apply_writes_other.
  - rewrite cr_clean; [done | lia | intros Hb; by destruct (q_txn _ _ _ _ _ _ HQ 1 Hb) as (_&_&?)].
  - intros Hx%take_fst. unfold commit_writes in Hx. case_decide; [set_solver|].
    rewrite !fmap_app, !elem_of_app in Hx. fold W2 in Hx. rewrite cr_W2_fst in Hx. simpl in Hx.
    destruct Hx as [Hx%log_writes_fst|[Hx%list_elem_of_singleton|[Hx|Hx%list_elem_of_singleton]]]; [lia | lia | | lia].
    by destruct (q_txn _ _ _ _ _ _ HQ 1 Hx) as (_&_&?).
Qed.

Lemma cr_head b : b = 1 \/ b = st -> D0 !! b = Some (f b).
Proof.
  pose proof cr_geom. intros Hb. apply cr_clean; [lia|]. intros Hin. destruct (q_txn _ _ _ _ _ _ HQ b Hin) as (_&?&?). lia.
Qed.
Lemma cr_sound : sound st sz N D0 /\ forall b, logical st D0 b = dview D0 b.
Proof.
  apply sound_empty; [apply HQ | apply cr_disk | |]; unfold dview; rewrite cr_head by auto; apply HQ.
Qed.
Lemma cr_prefix_ok k : disk_ok N (apply_writes (take k (commit_writes st txn f)) D0).
Proof. apply apply_writes_ok; [apply cr_disk | apply Forall_take, cr_ok]. Qed.

(** Until the header is written, only the part of the log that the header
    does not reach changes. *)
Lemma cr_before k : (k <= n)%nat ->
  let D := apply_writes (take k (commit_writes st txn f)) D0 in
  sound st sz N D /\ forall b, outside_log st sz N b -> logical st D b = dview D0 b.
Proof.
  intros Hk D. destruct cr_sound as [HS HL]. pose proof cr_geom as HG. pose proof (q_fit _ _ _ _ _ _ HQ) as Hfit. fold n in Hfit.
  assert (forall b, (b < st \/ b = st \/ st + sz <= b) -> dview D b = dview D0 b) as Hout.
  { intros b Hb. unfold D, dview, commit_writes. case_decide; [by rewrite take_nil|].
    rewrite take_app_le by (fold W1; by rewrite cr_W1_len). rewrite apply_writes_other; [done|].
    intros Hx%take_fst%log_writes_fst. fold n in Hx. lia. }
  destruct (sound_empty st sz N HG D (cr_prefix_ok k)) as [S1 S2].
  - rewrite Hout by lia. apply HS.
  - rewrite Hout by lia. unfold dview. rewrite cr_head by auto. apply HQ.
  - split; [exact S1|]. intros b [Hb Ho]. rewrite S2. apply Hout. lia.
Qed.

(** Blocks outside the log after the transaction has been installed. *)
Lemma cr_home_writes b D : outside_log st sz N b -> (forall c, outside_log st sz N c -> dview D c = dview D0 c) ->
  dview (apply_writes W2 D) b = f b.
Proof.
  intros [Hb Ho] HD. rewrite dview_apply. destruct (decide (b ∈ txn)) as [Hin|Hout].
  - apply apply_view_in; [rewrite cr_W2_fst; apply HQ|]. apply list_elem_of_fmap. by exists b.
  - rewrite apply_view_other by (by rewrite cr_W2_fst). rewrite HD by done. unfold dview. by rewrite cr_clean.
Qed.

(** Once the header is written, the disk stands for the transaction's result,
    however much of it has been installed. *)
Lemma cr_committed j : txn <> [] ->
  let D := apply_writes (W1 ++ [(st, H)] ++ take j W2) D0 in
  disk_ok N D -> dview D 1 = f 1 -> sound st sz N D /\ forall b, outside_log st sz N b -> logical st D b = f b.
Proof.
  intros Htx D Hok H1. pose proof cr_geom as (G1&G2&G3&G4). pose proof (q_fit _ _ _ _ _ _ HQ) as Hfit. fold n in Hfit.
  assert (Hl30 : (length txn <= 30)%nat) by (pose proof (q_cap _ _ _ _ _ _ HQ); unfold NBUF in *; lia).
  assert (Hfst : forall b, b ∈ (take j W2).*1 -> b ∈ txn) by (intros b Hb%take_fst; by rewrite cr_W2_fst in Hb).
  assert (Hfok : block_ok (f st)) by (apply cr_fok; lia).
  assert (Hdst : dview D st = H).
  { unfold D. rewrite dview_apply, !apply_view_app, apply_view_other; [apply apply_view_one|]. intros Hx%Hfst%cr_txn. lia. }
  assert (EL : listed st D = txn).
  { unfold listed. rewrite Hdst. unfold H. rewrite hd_n_enc, Nat2Z.id by done. apply list_eq. intros k. rewrite list_lookup_fmap.
    destruct (txn !! k) as [b|] eqn:Hk.
    - rewrite lookup_seq_lt by (by eapply lookup_lt_Some). cbn. f_equal. apply hd_block_enc; try done.
      assert (b ∈ txn) as [? _]%cr_txn by (by eapply list_elem_of_lookup_2). lia.
    - rewrite lookup_seq_ge by (by apply lookup_ge_None). done. }
  split.
  - split; rewrite ?EL; try done; try (by apply HQ); [rewrite H1; apply HQ | rewrite Hdst; unfold H; rewrite hd_n_enc by done; lia|].
    intros b Hb. destruct (q_txn _ _ _ _ _ _ HQ b Hb) as (?&?&?). done.
  - intros b [Hb Ho]. destruct (decide (b ∈ txn)) as [Hin|Hout].
    + apply list_elem_of_lookup in Hin as [k Hk]. pose proof (lookup_lt_Some _ _ _ Hk) as Hkl. fold n in Hkl.
      rewrite (logical_log _ _ k) by (rewrite ?EL; done || apply HQ). unfold D.
      rewrite dview_apply, !apply_view_app, apply_view_other by (intros Hx%Hfst%cr_txn; lia).
      rewrite apply_view_other by (apply one_fst; lia).
      apply apply_view_in; [apply log_writes_nodup|]. by apply log_writes_in.
    + rewrite logical_home by (by rewrite EL). unfold D. rewrite dview_apply, !apply_view_app, apply_view_other by auto.
      rewrite apply_view_other by (apply one_fst; lia). rewrite apply_view_other; [|intros Hx%log_writes_fst; fold n in Hx; lia].
      unfold dview. by rewrite cr_clean.
Qed.

(** What the disk stands for when any prefix of the writes is done. *)
Lemma commit_prefix k : (k <= length (commit_writes st txn f))%nat ->
  let D := apply_writes (take k (commit_writes st txn f)) D0 in
  sound st sz N D /\ forall b, outside_log st sz N b -> logical st D b = if decide (k <= length txn)%nat then dview D0 b else f b.
Proof.
  intros Hk D. destruct (decide (k <= length txn)%nat) as [Hle|Hgt]; [by apply cr_before|].
  assert (Htx : txn <> []).
  { intros E. unfold commit_writes in Hk. rewrite decide_True in Hk by done. rewrite E in Hgt. cbn in *. lia. }
  pose proof cr_geom as HG. pose proof (cr_sb k) as Hsb. pose proof (cr_prefix_ok k) as Hok. fold D in Hsb, Hok.
  assert (EW : commit_writes st txn f = W1 ++ [(st, H)] ++ W2 ++ [(st, enc_head [] H)]) by (unfold commit_writes; by rewrite decide_False).
  assert (HL : length (commit_writes st txn f) = (n + 1 + (n + 1))%nat).
  { rewrite EW, !length_app, cr_W1_len. unfold W2. rewrite length_fmap. cbn. unfold n. lia. }
  destruct (decide (k <= n + 1 + n)%nat) as [Hmid|Hend].
  - assert (ET : take k (commit_writes st txn f) = W1 ++ [(st, H)] ++ take (k - n - 1) W2).
    { rewrite EW. rewrite take_app_ge by (rewrite cr_W1_len; unfold n; lia). f_equal. rewrite cr_W1_len.
      destruct (k - n)%nat as [|j] eqn:Ej; [unfold n in *; lia|]. simpl. f_equal.
      rewrite take_app_le by (unfold W2; rewrite length_fmap; unfold n in *; lia). f_equal; lia. }
    unfold D in *. rewrite ET in *. by apply cr_committed.
  - assert (ED : D = apply_writes (W1 ++ [(st, H)] ++ W2 ++ [(st, enc_head [] H)]) D0) by (unfold D; by rewrite take_ge, EW by lia).
    destruct (sound_empty st sz N HG D Hok) as [S1 S2].
    + rewrite Hsb. apply HQ.
    + rewrite ED, dview_apply, !apply_view_app, apply_view_one. apply hd_n_enc; [|cbn; lia].
      apply enc_head_ok, cr_fok. lia.
    + split; [exact S1|]. intros b Hb. rewrite S2, ED, !apply_writes_app, dview_apply. destruct Hb as [Hb Ho].
      rewrite (apply_view_other [_]) by (apply one_fst; lia). apply cr_home_writes; [done|]. intros c [Hc Hco].
      rewrite dview_apply, (apply_view_other [_]) by (apply one_fst; lia). rewrite dview_apply. apply apply_view_other.
      intros Hx%log_writes_fst. pose proof (q_fit _ _ _ _ _ _ HQ). lia.
Qed.
End crash.

(** C2: a transaction is atomic with respect to crashes.  Whatever prefix of
    the disk writes of [commit] has reached the disk when the machine stops,
    booting and running [initlog] succeeds and leaves every block outside the
    log region either as it was before the transaction (when the header had
    not been written) or as the transaction wrote it (afterwards), for all
    blocks alike. *)
Theorem crash_recovery_atomic (st sz N : Z) (txn : list Z) (f : Z -> block) (s : log) :
  quiescent st sz N txn f s ->
  exists s', commit s = Ret tt s' /\
    wlog (lg_bio s') = rev (commit_writes st txn f) ++ wlog (lg_bio s) /\
    forall k, (k <= length (commit_writes st txn f))%nat ->
      exists r, initlog 1 (log0 (boot (apply_writes (take k (commit_writes st txn f)) (disk (lg_bio s))) N)) = Ret tt r /\
        lg_n r = 0 /\
        forall b, 0 <= b < N -> (b < st \/ st + sz <= b) ->
          disk (lg_bio r) !! b =
            if decide (k <= length txn)%nat then disk (lg_bio s) !! b else Some (f b).
Proof.
  intros HQ. pose proof (cr_geom _ _ _ _ _ _ HQ) as HG. pose proof HG as (G1&G2&G3&G4).
  destruct (wp_run _ _ _ (commit_spec st sz N txn f s G1 G2 G3 G4 (q_fit _ _ _ _ _ _ HQ) (q_cap _ _ _ _ _ _ HQ)
    (cr_txn _ _ _ _ _ _ HQ) (q_nodup _ _ _ _ _ _ HQ) (q_fields _ _ _ _ _ _ HQ) (q_rep _ _ _ _ _ _ HQ)))
    as ([] & s' & Hs' & b' & -> & _ & _ & _ & HW).
  eexists. split; [exact Hs'|]. split; [exact HW|]. clear Hs' HW b'.
  intros k Hk. destruct (commit_prefix _ _ _ _ _ _ HQ k Hk) as [HS HV]. set (D := apply_writes _ _) in *.
  destruct (wp_run _ _ _ (initlog_settles st sz N HG D _ HS (boot_brep D N (so_disk _ _ _ _ HS)) eq_refl eq_refl))
    as ([] & r & Hr & [HF _ _ _ _ Hs _] & _ & Hv).
  exists r. split; [exact Hr|]. split; [apply HF|]. intros b Hb Ho.
  rewrite (disk_lookup N _ b (so_disk _ _ _ _ Hs) Hb), Hv, HV by (by split).
  case_decide; [|done]. symmetry. apply (disk_lookup N); [apply (cr_disk _ _ _ _ _ _ HQ) | done].
Qed.
