(* ===== verification/LogBlocks.v ===== *)
(** * The log implements the block layer

    The buffer cache and the log, with one file-system operation in progress,
    satisfy the interface of [Blocks.v]; a transaction bracketed by
    [begin_op]/[end_op] is durable when [end_op] returns. *)

From S2P Require Import Prelude Bio Layout Blocks Log.

#[export] Instance log_blocks : BlockLayer log := {
  bl_bread dev b := inbio (bread dev b);
  bl_data s i := bdata (lg_bio s) i;
  bl_store i d := inbio (bstore i d);
  bl_log_write := log_write;
  bl_brelse i := inbio (brelse i);
  bl_begin_op := begin_op;
  bl_end_op := end_op
}.

(** ** [log_write] *)

Lemma log_find_spec n i blocks b :
  0 <= i ->
  let r := log_find n i blocks b in
  (r = i + Z.of_nat n /\ (forall k, i <= k < i + Z.of_nat n -> nth (Z.to_nat k) blocks 0 <> b)) \/
  (i <= r < i + Z.of_nat n /\ nth (Z.to_nat r) blocks 0 = b).
Proof.
  revert i. induction n as [|n IH]; intros i Hi; cbn [log_find].
  - left. split; [lia|]. intros k Hk. lia.
  - destruct (Z.eqb_spec (nth (Z.to_nat i) blocks 0) b) as [E|E]; [right; split; [lia | done]|].
    destruct (IH (i + 1) ltac:(lia)) as [[-> Hn]|[Hr Hb]].
    + left. split; [lia|]. intros k Hk. destruct (decide (k = i)) as [->|]; [done|]. apply Hn. lia.
    + right. split; [lia | done].
Qed.

Section layer.
Context (st sz N : Z).
Context (Hst : 1 < st) (Hsz : 30 <= sz) (HstN : st + sz <= N) (HN : N < 2 ^ 31).

#[local] Notation outside_log := (Log.outside_log st sz N).

(** Logged blocks, header and super block of a transaction in progress. *)
Record lrep (s : log) (a : babs) (txn : list Z) : Prop := {
  lr_fields : lfields st N txn s;
  lr_size : lg_size s = sz;
  lr_comm : lg_committing s = false;
  lr_bio : brep (lg_bio s) a;
  lr_pin : a_pin a = list_to_set txn;
  lr_nodup : NoDup txn;
  lr_txn : forall b, b ∈ txn -> outside_log b /\ b <> 1;
  lr_len : (length txn <= MAXTXN)%nat;
  lr_head : hd_n (a_vw a st) = 0;
  lr_sb : sb_logstart (sb_decode (a_vw a 1)) = st /\ sb_nlog (sb_decode (a_vw a 1)) = sz
}.

Lemma lfields_insert txn b s :
  lfields st N txn s -> (length txn < 30)%nat ->
  lfields st N (txn ++ [b])
    (set_n (lg_n s + 1) (Log (lg_bio s) (lg_start s) (lg_size s) (lg_outstanding s) (lg_committing s)
       (lg_dev s) (lg_n s) (<[length txn := b]> (lg_block s)))).
Proof.
  intros [H1 H2 H3 H4 H5 H6] Hl. split; simpl; try done.
  - rewrite H4, length_app. simpl. lia.
  - intros k x [Hk|[-> Hk]]%lookup_snoc_Some.
    + destruct Hk as [Hk Hx]. rewrite list_lookup_insert_ne by lia. by apply H5.
    + subst x. rewrite list_lookup_insert_eq; [done|].
      rewrite H6. change (Z.to_nat LOGSIZE) with 30%nat. lia.
  - by rewrite length_insert.
Qed.

Lemma log_write_spec s a txn i b :
  lrep s a txn -> 1 <= lg_outstanding s -> a_held a !! i = Some b -> outside_log b -> b <> 1 ->
  (length txn < MAXTXN)%nat ->
  wp (log_write i) (fun _ s' => lrep s' (set_pin a b) (if decide (b ∈ txn) then txn else txn ++ [b]) /\
    lg_outstanding s' = lg_outstanding s /\ same_disk (lg_bio s) (lg_bio s')) s.
Proof.
  intros [HF Hlz Hc HR Hp Hnd Htx Hl Hh Hsb] Ho Hi Hb Hb1 Hm. unfold MAXTXN in *.
  pose proof HF as [F1 F2 F3 F4 F5 F6].
  unfold log_write. apply wp_bind, wp_get. rewrite F4, Hlz.
  destruct (Z.leb_spec LOGSIZE (Z.of_nat (length txn))); [unfold LOGSIZE, MAXOPBLOCKS in *; lia|].
  destruct (Z.leb_spec (sz - 1) (Z.of_nat (length txn))); [lia|]. cbn [orb].
  destruct (Z.ltb_spec (lg_outstanding s) 1); [lia|].
  destruct (held_buf_ok _ _ _ _ HR Hi) as (_ & Hbn & _). rewrite Hbn.
  rewrite i32_small by (destruct Hb; lia).
  unfold lh_iters. rewrite F4, Nat2Z.id.
  assert (Hnth : forall k x, txn !! k = Some x -> nth k (lg_block s) 0 = x).
  { intros k x Hk. rewrite nth_lookup, (F5 _ _ Hk). done. }
  assert (Hset : forall (P : log -> Prop) k, (k < 30)%nat ->
    P (Log (lg_bio s) (lg_start s) (lg_size s) (lg_outstanding s) (lg_committing s) (lg_dev s) (lg_n s)
         (<[k := b]> (lg_block s))) -> wp (lh_set (Z.of_nat k) b) (fun _ => P) s).
  { intros P k Hk HP. unfold lh_set. apply wp_bind, wp_get. rewrite Nat2Z.id, F6.
    change (Z.to_nat LOGSIZE) with 30%nat. destruct (Nat.ltb_spec k 30); [|lia]. by apply wp_put. }
  destruct (log_find_spec (length txn) 0 (lg_block s) b ltac:(lia)) as [[Hr Hno]|[Hr Heq]].
  - assert (Hnin : b ∉ txn).
    { intros (k & Hk)%list_elem_of_lookup. pose proof (lookup_lt_Some _ _ _ Hk).
      apply (Hno (Z.of_nat k)); [lia|]. rewrite Nat2Z.id. by apply Hnth. }
    rewrite Hr, Z.add_0_l. rewrite decide_False by done.
    apply wp_bind, Hset; [lia|]. rewrite Z.eqb_refl. apply wp_bind, wp_modify.
    apply wp_inbio. cbn [set_n lg_bio]. eapply wp_mono; [by apply set_dirty_spec|].
    intros [] b' [HR' HD']. split; [|split; [done | exact HD']].
    pose proof (lfields_insert txn b s HF ltac:(lia)) as HF'. rewrite F4 in HF'.
    split; cbn; try done.
    + apply lfields_bio; [exact HF'|]. destruct HD' as (_ & -> & _). done.
    + rewrite Hp, list_to_set_app_L. cbn. set_solver.
    + apply NoDup_app. split; [done|]. split; [set_solver|]. apply NoDup_singleton.
    + intros x [Hx| ->%list_elem_of_singleton]%elem_of_app; [by apply Htx | done].
    + rewrite length_app. simpl. unfold MAXTXN. lia.
  - destruct (lookup_lt_is_Some_2 txn (Z.to_nat (log_find (length txn) 0 (lg_block s) b))) as [x Hx]; [lia|].
    pose proof (Hnth _ _ Hx) as Hx'. rewrite Heq in Hx'. subst x.
    assert (Hin : b ∈ txn) by (by eapply list_elem_of_lookup_2).
    rewrite decide_True by done.
    set (r := log_find (length txn) 0 (lg_block s) b) in *.
    replace r with (Z.of_nat (Z.to_nat r)) at 1 by lia.
    apply wp_bind, Hset; [lia|].
    destruct (Z.eqb_spec r (Z.of_nat (length txn))); [lia|]. apply wp_bind, wp_ret.
    apply wp_inbio. cbn [lg_bio]. eapply wp_mono; [by apply set_dirty_spec|].
    intros [] b' [HR' HD']. split; [|split; [done | exact HD']].
    assert (Hid : <[Z.to_nat r := b]> (lg_block s) = lg_block s) by (apply list_insert_id; by apply F5).
    rewrite Hid. split; cbn; try done.
    + apply (lfields_bio _ _ _ s); [done|]. destruct HD' as (_ & -> & _). done.
    + rewrite Hp. set_solver.
Qed.

(** ** Commit leaves the contents as the transaction wrote them *)

Lemma commit_view txn (f : Z -> block) b :
  NoDup txn -> (length txn < 30)%nat -> (forall b, b ∈ txn -> outside_log b /\ b <> 1) ->
  outside_log b -> apply_view (commit_writes st txn f) f b = f b.
Proof.
  intros Hnd Hl Htx [Hb Ho]. unfold commit_writes. case_decide; [done|].
  rewrite !apply_view_app, (apply_view_other [_]) by (apply one_fst; lia).
  assert (Hfst : ((fun b => (b, f b)) <$> txn).*1 = txn)
    by (rewrite <- list_fmap_compose; apply list_fmap_id).
  destruct (decide (b ∈ txn)).
  - apply apply_view_in; [by rewrite Hfst|]. apply list_elem_of_fmap. by exists b.
  - rewrite apply_view_other by (by rewrite Hfst).
    rewrite apply_view_other by (apply one_fst; lia).
    apply apply_view_other. intros Hx%log_writes_fst. lia.
Qed.

Lemma commit_head txn (f : Z -> block) :
  hd_n (f st) = 0 -> block_ok (f st) -> hd_n (apply_view (commit_writes st txn f) f st) = 0.
Proof.
  intros Hh Hok. unfold commit_writes. case_decide; [done|].
  rewrite !apply_view_app. simpl. rewrite decide_True by done.
  apply hd_n_enc; [by apply enc_head_ok | simpl; lia].
Qed.

Definition lrep_open (s : log) (a : babs) : Prop :=
  exists a0 txn, lrep s a0 txn /\ lg_outstanding s = 1 /\
    (forall b, outside_log b -> a_vw a b = a_vw a0 b) /\
    a_held a = a_held a0 /\ a_mod a = a_mod a0 /\ a_pin a = a_pin a0 /\
    (forall i b, a_held a !! i = Some b -> outside_log b).
Definition lrep_quiet (s : log) (f : Z -> block) : Prop :=
  exists f0, lrep s (idle f0 ∅) [] /\ lg_outstanding s = 0 /\
    (forall b, outside_log b -> f b = f0 b).

Lemma begin_op_opens s f :
  lrep_quiet s f -> wp begin_op (fun _ s' => lrep_open s' (idle f ∅) /\ same_disk (lg_bio s) (lg_bio s')) s.
Proof.
  intros (f0 & HL & Ho & Hv). unfold begin_op. apply wp_bind, wp_get. rewrite (lr_comm _ _ _ HL), Ho.
  rewrite (lf_n _ _ _ _ (lr_fields _ _ _ HL)). cbn. split; [|done]. exists (idle f0 ∅), []. split_and!; try done.
  destruct HL as [[] ? ? ? ? ? ? ? ? ?]. by split.
Qed.

Lemma begin_op_spec s f :
  lrep_quiet s f -> wp begin_op (fun _ s' => lrep_open s' (idle f ∅)) s.
Proof. intros HQ. eapply wp_mono; [by apply begin_op_opens|]. by intros [] s' [? _]. Qed.

Lemma end_op_commits s f pin :
  lrep_open s (idle f pin) -> exists txn f0, (forall b, outside_log b -> f b = f0 b) /\ lrep s (idle f0 (list_to_set txn)) txn /\
    wp end_op (fun _ s' => lrep_quiet s' f /\ wrote (commit_writes st txn f0) (lg_bio s) (lg_bio s')) s.
Proof.
  intros ([f0 hld md pn] & txn & HL & Ho & Hv & Hh & Hm & Hp & _). simpl in *. subst hld md pn.
  pose proof HL as [HF Hz Hc HR Hpin Hnd Htx Hlen Hhd Hsb]. simpl in *. subst pin.
  exists txn, f0. split; [exact Hv|]. split; [exact HL|].
  unfold end_op. apply wp_bind, wp_modify. apply wp_bind, wp_get. cbn [set_outstanding lg_committing].
  rewrite Hc, Ho. cbn. apply wp_bind, wp_modify. apply wp_bind.
  unfold MAXTXN in Hlen.
  set (s1 := set_committing true (set_outstanding 0 s)).
  assert (HF1 : lfields st N txn s1) by (destruct HF; by split).
  eapply wp_mono.
  { apply (commit_spec st sz N txn f0 s1); try done; try lia; try (unfold NBUF; lia).
    intros b Hb. by apply Htx. }
  intros [] s2 (b2 & -> & HR2 & HW2). apply wp_modify. cbn. split; [|exact HW2].
  exists (apply_view (commit_writes st txn f0) f0). split_and!; [|done|].
  - assert (Hok : block_ok (f0 st)).
    { apply (brep_vw_ok _ _ st HR). rewrite (lf_size _ _ _ _ HF). lia. }
    split; try done.
    + destruct HF1 as [H1 H2 H3 H4 H5 H6]. split; try done. simpl. destruct HW2 as (_ & -> & _). done.
    + constructor.
    + intros b Hb. by apply not_elem_of_nil in Hb.
    + unfold MAXTXN. simpl. lia.
    + by apply commit_head.
    + simpl. rewrite commit_view; [done | done | lia | done | split; lia].
  - intros b Hb. rewrite commit_view; [by apply Hv | done | lia | done | done].
Qed.
Lemma end_op_spec s f pin :
  lrep_open s (idle f pin) -> wp end_op (fun _ s' => lrep_quiet s' f) s.
Proof.
  intros HR. destruct (end_op_commits s f pin HR) as (txn & f0 & _ & _ & HW). eapply wp_mono; [exact HW|]. by intros [] s' [? _].
Qed.

(** *** The operations inside a transaction, which leave the disk alone *)

Lemma open_ext s a a' :
  lrep_open s a -> (forall b, outside_log b -> a_vw a' b = a_vw a b) ->
  a_held a' = a_held a -> a_mod a' = a_mod a -> a_pin a' = a_pin a -> lrep_open s a'.
Proof.
  intros (a0 & txn & HL & Ho & Hv & Hh & Hm & Hp & Hd) Hv' Hh' Hm' Hp'.
  exists a0, txn. split_and!; try done; try congruence.
  - intros b Hb. rewrite Hv' by done. by apply Hv.
  - intros i b. rewrite Hh'. apply Hd.
Qed.
Lemma open_block_ok s a b : lrep_open s a -> outside_log b -> block_ok (a_vw a b).
Proof.
  intros (a0 & txn & HL & Ho & Hv & Hh & Hm & Hp & Hd) Hb. rewrite Hv by done.
  apply (brep_vw_ok _ _ b (lr_bio _ _ _ HL)). rewrite (lf_size _ _ _ _ (lr_fields _ _ _ HL)). apply Hb.
Qed.
Lemma open_get s a i b : lrep_open s a -> a_held a !! i = Some b -> bl_data s i = a_vw a b.
Proof.
  intros (a0 & txn & HL & Ho & Hv & Hh & Hm & Hp & Hd) Hi.
  rewrite Hv by (by eapply Hd). apply (brep_data _ _ i b (lr_bio _ _ _ HL)). by rewrite <- Hh.
Qed.

Lemma open_bread s a b : lrep_open s a -> outside_log b -> (forall i, a_held a !! i <> Some b) ->
  (b ∈ a_pin a \/ (size (busy a) < NBUF)%nat) ->
  wp (inbio (bread ROOTDEV b)) (fun i s' =>
    (a_held a !! i = None /\ lrep_open s' (set_held a i b)) /\ same_disk (lg_bio s) (lg_bio s')) s.
Proof.
  intros (a0 & txn & HL & Ho & Hv & Hh & Hm & Hp & Hd) Hb Hnh Hcap. apply wp_inbio. eapply wp_mono.
  { apply bread_spec; [apply HL | rewrite (lf_size _ _ _ _ (lr_fields _ _ _ HL)); apply Hb | |].
    - intros i. rewrite <- Hh. apply Hnh.
    - unfold busy in *. rewrite <- Hh, <- Hp. done. }
  intros i b' (Hn & HR & HD). rewrite Hh. split; [|exact HD]. split; [done|]. exists (set_held a0 i b), txn.
  split_and!; try done; [|simpl; by rewrite Hh|].
  - destruct HL as [HF ? ? ? ? ? ? ? ? ?]. split; try done.
    apply lfields_bio; [done|]. destruct HD as (_ & -> & _). apply HF.
  - intros j c. simpl. rewrite lookup_insert_Some. intros [[-> ->]|[_ Hj]]; [done | by eapply Hd].
Qed.

Lemma open_store s a i b d : lrep_open s a -> a_held a !! i = Some b -> outside_log b /\ b <> 1 -> block_ok d ->
  wp (inbio (bstore i d)) (fun _ s' => lrep_open s' (set_vw a b d) /\ same_disk (lg_bio s) (lg_bio s')) s.
Proof.
  intros (a0 & txn & HL & Ho & Hv & Hh & Hm & Hp & Hd) Hi [Hb Hb1] Hok. apply wp_inbio. eapply wp_mono.
  { eapply bstore_spec; [apply HL | rewrite <- Hh; done | done]. }
  intros [] b' [HR HD]. split; [|exact HD]. exists (set_vw a0 b d), txn.
  split_and!; try done; [| |simpl; by rewrite Hm].
  - destruct HL as [HF ? ? ? ? ? ? ? ? ?]. split; try done.
    + apply lfields_bio; [done|]. destruct HD as (_ & -> & _). apply HF.
    + simpl. rewrite decide_False; [done|]. destruct Hb. lia.
    + simpl. by rewrite decide_False.
  - intros c Hc. simpl. case_decide; [done | by apply Hv].
Qed.

Lemma open_log_write s a i b : lrep_open s a -> a_held a !! i = Some b -> outside_log b /\ b <> 1 ->
  (size (a_pin a) < MAXTXN)%nat ->
  wp (log_write i) (fun _ s' => lrep_open s' (set_pin a b) /\ same_disk (lg_bio s) (lg_bio s')) s.
Proof.
  intros (a0 & txn & HL & Ho & Hv & Hh & Hm & Hp & Hd) Hi [Hb Hb1] Hsize. eapply wp_mono.
  { apply (log_write_spec s a0 txn i b); try done; [lia | by rewrite <- Hh |].
    rewrite Hp, (lr_pin _ _ _ HL), size_list_to_set in Hsize by apply HL. done. }
  intros [] s' (HL' & Ho' & HD). split; [|exact HD]. exists (set_pin a0 b), (if decide (b ∈ txn) then txn else txn ++ [b]).
  split_and!; try done; [congruence | simpl; by rewrite Hm | simpl; by rewrite Hp].
Qed.

Lemma open_brelse s a i b : lrep_open s a -> a_held a !! i = Some b -> b ∉ a_mod a ->
  wp (inbio (brelse i)) (fun _ s' => lrep_open s' (set_released a i) /\ same_disk (lg_bio s) (lg_bio s')) s.
Proof.
  intros (a0 & txn & HL & Ho & Hv & Hh & Hm & Hp & Hd) Hi Hb. apply wp_inbio. eapply wp_mono.
  { eapply brelse_spec; [apply HL | rewrite <- Hh; done | by rewrite <- Hm]. }
  intros [] b' [HR HD]. split; [|exact HD]. exists (set_released a0 i), txn.
  split_and!; try done; [|simpl; by rewrite Hh|].
  - destruct HL as [HF ? ? ? ? ? ? ? ? ?]. split; try done.
    apply lfields_bio; [done|]. destruct HD as (_ & -> & _). apply HF.
  - intros j c. simpl. rewrite lookup_delete_Some. intros [_ Hj]. by eapply Hd.
Qed.

(** The layer while the disk and its write history satisfy [P]: nothing
    inside a transaction writes to the disk. *)
#[refine] Definition log_blocks_when (P : bio -> Prop) (HP : forall b b', same_disk b b' -> P b -> P b') : BlockLayerOk log := {|
  bl_dom := outside_log;
  bl_loggable b := outside_log b /\ b <> 1;
  bl_rep s a := lrep_open s a /\ P (lg_bio s)
|}.
Proof.
  - intros b [Hb _]. lia.
  - tauto.
  - intros s a a' [HR Hp] ? ? ? ?. split; [by eapply open_ext | done].
  - intros s a b [HR _]. by apply (open_block_ok s).
  - intros s a i b [HR _]. by apply (open_get s).
  - intros s a b [HR Hp] ? ? ?. eapply wp_mono; [by apply (open_bread s a b)|]. intros i s' [[? ?] HD]. split_and!; [done.. | by eapply HP].
  - intros s a i b d [HR Hp] ? ? ?. eapply wp_mono; [by apply (open_store s a i b d)|]. intros [] s' [? HD]. split; [done | by eapply HP].
  - intros s a i b [HR Hp] ? ? ?. eapply wp_mono; [by apply (open_log_write s a i b)|]. intros [] s' [? HD]. split; [done | by eapply HP].
  - intros s a i b [HR Hp] ? ?. eapply wp_mono; [by apply (open_brelse s a i b)|]. intros [] s' [? HD]. split; [done | by eapply HP].
Defined.

#[refine] Instance log_blocks_ok : BlockLayerOk log := {
  bl_dom := outside_log;
  bl_loggable b := outside_log b /\ b <> 1;
  bl_rep := lrep_open
}.
Proof.
  - intros b [Hb _]. lia.
  - tauto.
  - apply open_ext.
  - apply open_block_ok.
  - apply open_get.
  - intros s a b ? ? ? ?. eapply wp_mono; [by apply (open_bread s a b)|]. by intros ? ? [? _].
  - intros s a i b d ? ? ? ?. eapply wp_mono; [by apply (open_store s a i b d)|]. by intros ? ? [? _].
  - intros s a i b ? ? ? ?. eapply wp_mono; [by apply (open_log_write s a i b)|]. by intros ? ? [? _].
  - intros s a i b ? ? ?. eapply wp_mono; [by apply (open_brelse s a i b)|]. by intros ? ? [? _].
Defined.

#[refine] Instance log_transactions_ok : TransactionsOk log := {
  bl_quiet := lrep_quiet
}.
Proof.
  - apply begin_op_spec.
  - apply end_op_spec.
Defined.
End layer.

(** ** Booting: recovery establishes the layer *)

Lemma settled_quiet st sz N r g :
  1 < st -> 0 < sz -> settled st sz N r -> (forall b, outside_log st sz N b -> g b = dview (disk (lg_bio r)) b) -> lrep_quiet st sz N r g.
Proof.
  intros H1 H2 [S1 S2 S3 S4 S5 S6 S7] Hg. exists (dview (disk (lg_bio r))). split_and!; [|done | done].
  split; try done; [constructor | intros b Hb; by apply not_elem_of_nil in Hb | unfold MAXTXN; cbn; lia | apply S6].
Qed.

Lemma initlog_quiet st sz N D b0 :
  1 < st /\ 0 < sz /\ st + sz <= N /\ N < 2 ^ 31 -> sound st sz N D -> brep b0 (idle (dview D) ∅) -> disksize b0 = N -> disk b0 = D ->
  wp (initlog 1) (fun _ r => lrep_quiet st sz N r (logical st D) /\ wrote (recovery_writes st (listed st D) (dview D)) b0 (lg_bio r)) (log0 b0).
Proof.
  intros HG HS HR Hs Hd. eapply wp_mono; [by apply (initlog_settles st sz N HG D b0)|]. intros [] r (Hr & HW & Hv).
  split; [|exact HW]. apply settled_quiet; [lia | lia | exact Hr|]. intros b Hb. symmetry. by apply Hv.
Qed.

(** A disk whose log is empty is unchanged by recovery. *)
Lemma initlog_clean st sz N D b0 :
  brep b0 (idle (dview D) ∅) -> disksize b0 = N -> disk b0 = D ->
  1 < st -> 30 <= sz -> st + sz <= N -> N < 2 ^ 31 -> disk_ok N D ->
  sb_logstart (sb_decode (dview D 1)) = st -> sb_nlog (sb_decode (dview D 1)) = sz -> hd_n (dview D st) = 0 ->
  wp (initlog 1 ;;; begin_op) (fun _ x => lrep_open st sz N x (idle (dview D) ∅)) (log0 b0).
Proof.
  intros Hb0 Hb0s Hb0d H1 H2 H3 H4 HD Hst Hsz Hh. assert (1 < st /\ 0 < sz /\ st + sz <= N /\ N < 2 ^ 31) as HG by lia.
  destruct (sound_empty st sz N HG D HD (conj Hst Hsz) Hh) as [HS HL]. apply wp_bind. eapply wp_mono; [by apply (initlog_quiet st sz N D b0)|].
  intros [] r [(f0 & HQ & Ho & Hv) _]. apply begin_op_spec. exists f0. split_and!; [exact HQ | exact Ho|].
  intros b Hb. rewrite <- Hv by done. by rewrite HL.
Qed.

(** A transaction in progress with no buffer held is ready to commit. *)
Lemma lrep_quiescent st sz N s f txn :
  1 < st -> 30 <= sz -> st + sz <= N -> N < 2 ^ 31 ->
  lrep st sz N s (idle f (list_to_set txn)) txn -> quiescent st sz N txn f s.
Proof.
  intros H1 H2 H3 H4 [HF Hz Hc HR _ Hnd Ht Hl Hh Hsb]. unfold MAXTXN in Hl. split; try done; try lia.
  - unfold NBUF. lia.
  - intros b Hb. destruct (Ht b Hb) as [[? ?] ?]. done.
Qed.

(** Between transactions the disk holds what the layer shows. *)
Lemma quiet_disk st sz N s f b :
  1 < st -> 30 <= sz -> st + sz <= N -> N < 2 ^ 31 ->
  lrep_quiet st sz N s f -> outside_log st sz N b -> dview (disk (lg_bio s)) b = f b.
Proof.
  intros H1 H2 H3 H4 (f0 & HL & _ & Hv) Hb. rewrite (Hv b Hb). unfold dview.
  rewrite (cr_clean st sz N [] f0 s); [done | by apply lrep_quiescent | apply Hb | apply not_elem_of_nil].
Qed.

(** Whatever part of the writes of [end_op] reaches the disk, the disk stands
    for the contents before the transaction or for those after it. *)
Lemma end_op_crash st sz N s f pin :
  1 < st -> 30 <= sz -> st + sz <= N -> N < 2 ^ 31 -> lrep_open st sz N s (idle f pin) ->
  wp end_op (fun _ s' => lrep_quiet st sz N s' f /\ exists ws, wrote ws (lg_bio s) (lg_bio s') /\
    forall k, (k <= length ws)%nat -> let D := apply_writes (take k ws) (disk (lg_bio s)) in
      sound st sz N D /\ ((forall b, outside_log st sz N b -> logical st D b = f b) \/
        (k < length ws)%nat /\ forall b, outside_log st sz N b -> logical st D b = dview (disk (lg_bio s)) b)) s.
Proof.
  intros H1 H2 H3 H4 HR. destruct (end_op_commits st sz N H1 H2 H3 H4 s f pin HR) as (txn & f0 & Hv & HL & HW).
  pose proof (lrep_quiescent st sz N s f0 txn H1 H2 H3 H4 HL) as HQ.
  eapply wp_mono; [exact HW|]. intros [] s' [Hq Hw]. split; [exact Hq|]. eexists. split; [exact Hw|].
  intros k Hk. destruct (commit_prefix _ _ _ _ _ _ HQ k Hk) as [HS HC]. split; [exact HS|].
  destruct (decide (k <= length txn)%nat) as [Hle|Hgt].
  - destruct (decide (txn = [])) as [Htx|Htx].
    + left. intros b Hb. rewrite Hv, HC by done. unfold dview. rewrite Htx in HQ.
      by rewrite (cr_clean _ _ _ _ _ _ HQ b (proj1 Hb) (not_elem_of_nil b)).
    + right. split; [|exact HC]. unfold commit_writes. rewrite decide_False, !length_app, cr_W1_len by done. cbn. lia.
  - left. intros b Hb. rewrite Hv by done. by apply HC.
Qed.

Definition block_okb (d : block) : bool :=
  (length d =? 512)%nat && forallb (fun x => (0 <=? x) && (x <? 256)) d.
Lemma block_okb_ok d : block_okb d = true -> block_ok d.
Proof.
  unfold block_okb. rewrite andb_true_iff, Nat.eqb_eq, forallb_forall. intros [Hl Hf]. split; [done|].
  apply Forall_forall. intros x Hx%list_elem_of_In%Hf. unfold is_byte. lia.
Qed.

Lemma disk_okb_ok N D :
  forallb (fun b => match D !! b with Some d => block_okb d | None => false end) (seqZ 0 N) = true -> disk_ok N D.
Proof.
  rewrite forallb_forall. intros HH b Hb. specialize (HH b). rewrite <- list_elem_of_In, elem_of_seqZ in HH.
  destruct (D !! b) as [d|]; [|by discriminate HH; lia]. exists d. split; [done|].
  apply block_okb_ok, HH. lia.
Qed.

Lemma ex_disk_ok : disk_ok 60 ex_disk.
Proof. apply disk_okb_ok. vm_compute. reflexivity. Qed.

Lemma ex_boot : exists s f, lrep 2 30 60 s (idle f ∅) [].
Proof.
  assert (1 < 2 /\ 0 < 30 /\ 2 + 30 <= 60 /\ 60 < 2 ^ 31) as HG by lia.
  destruct (sound_empty 2 30 60 HG ex_disk ex_disk_ok) as [HS _]; [split; vm_compute; reflexivity | vm_compute; reflexivity|].
  pose proof (initlog_quiet 2 30 60 ex_disk _ HG HS (boot_brep ex_disk 60 ex_disk_ok) eq_refl eq_refl) as HI.
  destruct (wp_run _ _ _ HI) as ([] & s & _ & (f & HL & _) & _). exists s, f. exact HL.
Qed.

(** A concrete log with one modified block, ready to commit. *)
Lemma ex_quiescent : exists f s, quiescent 2 30 60 [40] f s /\ f 40 = replicate 512 7.
Proof.
  destruct ex_boot as (s0 & f & HL).
  set (a := idle f ∅) in *.
  assert (HS : disksize (lg_bio s0) = 60) by apply HL.
  destruct (wp_run (bread ROOTDEV 40) (fun i b' => a_held a !! i = None /\ brep b' (set_held a i 40) /\ same_disk (lg_bio s0) b') (lg_bio s0)) as (i & b1 & _ & _ & HR1 & HD1).
  { apply bread_spec; [apply HL | lia | intros i; apply lookup_empty_ne_Some || (simpl; by rewrite lookup_empty) |]. right. unfold a. rewrite busy_idle, size_empty. unfold NBUF. lia. }
  assert (Hok : block_ok (replicate 512 7)).
  { split; [by rewrite length_replicate|]. apply Forall_replicate. unfold is_byte. lia. }
  destruct (wp_run _ _ _ (bstore_spec b1 (set_held a i 40) i 40 (replicate 512 7) HR1 (lookup_insert_eq _ _ _) Hok))
    as ([] & b2 & _ & HR2 & HD2).
  set (s2 := set_outstanding 1 (set_bio b2 s0)).
  assert (HL2 : lrep 2 30 60 s2 (set_vw (set_held a i 40) 40 (replicate 512 7)) []).
  { destruct HL as [[] ? ? ? ? ? ? ? ? ?]. split; try done. split; try done.
    destruct HD1 as (_&?&_), HD2 as (_&?&_). simpl in *. congruence. }
  destruct (wp_run _ _ _ (log_write_spec 2 30 60 ltac:(lia) ltac:(lia) ltac:(lia) ltac:(lia) s2 _ _ i 40 HL2 ltac:(simpl; lia) (lookup_insert_eq _ _ _)
    ltac:(split; lia) ltac:(lia) ltac:(unfold MAXTXN; simpl; lia))) as ([] & s3 & _ & HL3 & Ho3 & _).
  assert (Hmod : 40 ∉ a_mod (set_pin (set_vw (set_held a i 40) 40 (replicate 512 7)) 40)).
  { apply not_elem_of_difference. right. by apply elem_of_singleton. }
  destruct (wp_run _ _ _ (brelse_spec _ _ i 40 (lr_bio _ _ _ _ _ _ HL3) (lookup_insert_eq _ _ _) Hmod))
    as ([] & b4 & _ & HR4 & HD4).
  exists (fun c => if decide (c = 40) then replicate 512 7 else f c), (set_bio b4 s3). split; [|done].
  apply lrep_quiescent; try lia. rewrite decide_False in HL3 by apply not_elem_of_nil.
  destruct HL3 as [HF ? ? ? ? ? ? ? ? ?]. split; try done.
  - apply lfields_bio; [done|]. destruct HD4 as (_ & -> & _). apply HF.
  - eapply brep_ext; [apply HR4 | done | | |].
    + simpl. by rewrite delete_insert_eq, delete_empty.
    + simpl. set_solver.
    + simpl. set_solver.
Qed.

Lemma crash_recovery_atomic_witness :
  exists f s s', quiescent 2 30 60 [40] f s /\ commit s = Ret tt s' /\
    exists r, initlog 1 (log0 (boot (apply_writes (take 2 (commit_writes 2 [40] f)) (disk (lg_bio s))) 60)) = Ret tt r /\
      disk (lg_bio r) !! 40 = Some (replicate 512 7).
Proof.
  destruct ex_quiescent as (f & s & HQ & Hf).
  destruct (crash_recovery_atomic 2 30 60 [40] f s HQ) as (s' & Hs & _ & Hk).
  exists f, s, s'. split; [exact HQ|]. split; [exact Hs|].
  destruct (Hk 2%nat) as (r & Hr & _ & Hd).
  - unfold commit_writes. rewrite decide_False by discriminate. simpl. lia.
  - exists r. split; [exact Hr|]. rewrite Hd; [by rewrite Hf | lia | lia].
Defined.
