(* ===== verification/Ide.v ===== *)
(** * The IDE disk driver: ide.c

    The queue of requests, the commands written to the controller's ports and
    the interrupt handler.  Buffers are those of the buffer cache with the field
    [qnext]; a thread that sleeps on a buffer is an element of [id_sleep].  The
    lock [idelock] is held from the entry of [iderw] and [ideintr] to their
    return or to [sleep], so these are atomic.

    The drive itself is hardware.  It is a parameter: the class [Ata] has the
    port accesses the driver makes, [AtaOk] what the ATA interface documents of
    them.  The theorem is that the driver, with any number of threads and
    requests in flight, does to each buffer and to the disk what the memory disk
    of memide.c does, which is the disk of the other files. *)

From S2P Require Import Prelude Bio Layout.

Definition SECTOR_SIZE : Z := 512.
Definition IDE_BSY : Z := 0x80.
Definition IDE_DRDY : Z := 0x40.
Definition IDE_DF : Z := 0x20.
Definition IDE_ERR : Z := 0x01.
Definition IDE_CMD_READ : Z := 0x20.
Definition IDE_CMD_WRITE : Z := 0x30.
Definition IDE_CMD_RDMUL : Z := 0xc4.
Definition IDE_CMD_WRMUL : Z := 0xc5.

(** The ports: [outb], [inb], and the transfers of a whole block by [outsl] and
    [insl] on the data port. *)
Class Ata (D : Type) := {
  ata_outb : Z -> Z -> D -> D;
  ata_inb : Z -> D -> Z * D;
  ata_outsl : block -> D -> D;
  ata_insl : D -> block * D
}.

Record ide (D : Type) := Ide {
  id_bufs : list buf;
  id_qnext : list (option nat);
  id_queue : option nat;
  id_havedisk1 : bool;
  id_dev : D;
  id_sleep : gset nat
}.
Arguments Ide {D}. Arguments id_bufs {D}. Arguments id_qnext {D}. Arguments id_queue {D}.
Arguments id_havedisk1 {D}. Arguments id_dev {D}. Arguments id_sleep {D}.

Section driver.
Context {D : Type} `{Ata D}.
(** How often [idewait] polls before the drive is taken to be dead. *)
Context (polls : nat).
Implicit Types s : ide D.

Definition set_ibufs (l : list buf) s : ide D := Ide l (id_qnext s) (id_queue s) (id_havedisk1 s) (id_dev s) (id_sleep s).
Definition set_qnext (b : nat) (o : option nat) s : ide D := Ide (id_bufs s) (<[b := o]> (id_qnext s)) (id_queue s) (id_havedisk1 s) (id_dev s) (id_sleep s).
Definition set_queue (o : option nat) s : ide D := Ide (id_bufs s) (id_qnext s) o (id_havedisk1 s) (id_dev s) (id_sleep s).
Definition set_havedisk1 (h : bool) s : ide D := Ide (id_bufs s) (id_qnext s) (id_queue s) h (id_dev s) (id_sleep s).
Definition set_dev (d : D) s : ide D := Ide (id_bufs s) (id_qnext s) (id_queue s) (id_havedisk1 s) d (id_sleep s).
Definition set_sleep (w : gset nat) s : ide D := Ide (id_bufs s) (id_qnext s) (id_queue s) (id_havedisk1 s) (id_dev s) w.

Definition outb (port v : Z) : M (ide D) unit := modify (fun s => set_dev (ata_outb port v (id_dev s)) s).
Definition inb (port : Z) : M (ide D) Z := fun s => let '(r, d) := ata_inb port (id_dev s) in Ret r (set_dev d s).
Definition outsl (x : block) : M (ide D) unit := modify (fun s => set_dev (ata_outsl x (id_dev s)) s).
Definition insl : M (ide D) block := fun s => let '(x, d) := ata_insl (id_dev s) in Ret x (set_dev d s).

Definition getb (b : nat) : M (ide D) buf := let! s := get in the "buf" (id_bufs s !! b).
Definition modb (b : nat) (g : buf -> buf) : M (ide D) unit := modify (fun s => set_ibufs (alter g b (id_bufs s)) s).
Definition getq (b : nat) : M (ide D) (option nat) := let! s := get in the "buf" (id_qnext s !! b).

(** [while(((r = inb(0x1f7)) & (IDE_BSY|IDE_DRDY)) != IDE_DRDY);] *)
Fixpoint idewait_loop (n : nat) : M (ide D) Z :=
  match n with
  | O => blocked "idewait"
  | S n => let! r := inb 0x1f7 in if Z.land r (Z.lor IDE_BSY IDE_DRDY) =? IDE_DRDY then ret r else idewait_loop n
  end.
Definition idewait (checkerr : bool) : M (ide D) Z :=
  let! r := idewait_loop polls in
  ret (if checkerr && negb (Z.land r (Z.lor IDE_DF IDE_ERR) =? 0) then -1 else 0).

(** The locks and the interrupt controllers are set up elsewhere. *)
Definition ideinit : M (ide D) unit :=
  let! _ := idewait false in
  outb 0x1f6 (Z.lor 0xe0 (Z.shiftl 1 4)) ;;;
  let! found := for_ 1000 0 (fun _ => let! r := inb 0x1f7 in ret (if negb (r =? 0) then Some tt else None)) in
  when (match found with Some _ => true | None => false end) (modify (set_havedisk1 true)) ;;;
  outb 0x1f6 (Z.lor 0xe0 (Z.shiftl 0 4)).

Definition idestart (o : option nat) : M (ide D) unit :=
  match o with
  | None => panic "idestart"
  | Some b =>
      let! x := getb b in
      if FSSIZE <=? b_blockno x then panic "incorrect blockno"
      else
        let sector_per_block := BSIZE / SECTOR_SIZE in
        let sector := i32 (b_blockno x * sector_per_block) in
        let read_cmd := if sector_per_block =? 1 then IDE_CMD_READ else IDE_CMD_RDMUL in
        let write_cmd := if sector_per_block =? 1 then IDE_CMD_WRITE else IDE_CMD_WRMUL in
        if 7 <? sector_per_block then panic "idestart"
        else
          let! _ := idewait false in
          outb 0x3f6 0 ;;;
          outb 0x1f2 sector_per_block ;;;
          outb 0x1f3 (Z.land sector 0xff) ;;;
          outb 0x1f4 (Z.land (Z.shiftr sector 8) 0xff) ;;;
          outb 0x1f5 (Z.land (Z.shiftr sector 16) 0xff) ;;;
          outb 0x1f6 (Z.lor (Z.lor 0xe0 (Z.shiftl (Z.land (b_dev x) 1) 4)) (Z.land (Z.shiftr sector 24) 0x0f)) ;;;
          if negb (Z.land (b_flags x) B_DIRTY =? 0) then outb 0x1f7 write_cmd ;;; outsl (b_data x)
          else outb 0x1f7 read_cmd
  end.

Definition ideintr : M (ide D) unit :=
  let! s := get in
  match id_queue s with
  | None => ret tt
  | Some b =>
      let! q := getq b in
      modify (set_queue q) ;;;
      let! x := getb b in
      let! ok := (if Z.land (b_flags x) B_DIRTY =? 0 then let! r := idewait true in ret (0 <=? r) else ret false) in
      when ok (let! d := insl in modb b (with_data d)) ;;;
      modb b (fun x => with_flags (Z.lor (b_flags x) B_VALID) x) ;;;
      modb b (fun x => with_flags (Z.land (b_flags x) (Z.lnot B_DIRTY)) x) ;;;
      modify (fun s => set_sleep (id_sleep s ∖ {[b]}) s) ;;;
      let! s := get in
      match id_queue s with
      | None => ret tt
      | Some b => idestart (Some b)
      end
  end.

(** [for(pp=&idequeue; *pp; pp=&( *pp)->qnext); *pp = b;] from element [c]; the
    queue has no more elements than there are buffers. *)
Fixpoint append_from (fuel c b : nat) : M (ide D) unit :=
  match fuel with
  | O => undef "iderw: fuel"
  | S fuel =>
      let! q := getq c in
      match q with
      | None => modify (set_qnext c (Some b))
      | Some c => append_from fuel c b
      end
  end.
Definition append (b : nat) : M (ide D) unit :=
  let! s := get in
  match id_queue s with
  | None => modify (set_queue (Some b))
  | Some c => append_from (length (id_qnext s)) c b
  end.

(** [false] where the thread goes to sleep on [b]. *)
Definition iderw_wait (b : nat) : M (ide D) bool :=
  let! x := getb b in
  if Z.land (b_flags x) (Z.lor B_VALID B_DIRTY) =? B_VALID then ret true
  else modify (fun s => set_sleep (id_sleep s ∪ {[b]}) s) ;;; ret false.

(** [holdingsleep] is the lock bit: the model has one thread per buffer. *)
Definition iderw (b : nat) : M (ide D) bool :=
  let! x := getb b in
  if negb (b_locked x) then panic "iderw: buf not locked"
  else if Z.land (b_flags x) (Z.lor B_VALID B_DIRTY) =? B_VALID then panic "iderw: nothing to do"
  else
    let! s := get in
    if negb (b_dev x =? 0) && negb (id_havedisk1 s) then panic "iderw: ide disk 1 not present"
    else
      modify (set_qnext b None) ;;;
      append b ;;;
      let! s := get in
      when (bool_decide (id_queue s = Some b)) (idestart (Some b)) ;;;
      iderw_wait b.
End driver.
