(* ===== verification/IdeTheorems.v ===== *)
(** * The IDE driver implements the memory disk

    [AtaOk] states what the ATA interface documents of the ports; [dstep] is one
    step of the driver with its clients, its drive, which may fail a request,
    and its interrupts.  The driver's queue is a FIFO whose head is the request
    the drive works on, no wakeup is lost, and every run is a run of the disk of
    memide.c but for the requests the drive fails. *)

From S2P Require Import Prelude Bio Layout Ide.

Inductive ata_req :=
| Rd (drv : bool) (lba : Z)
| Wr (drv : bool) (lba : Z) (x : block).

(** Idle, waiting for the data of a write command, working on a request, or
    holding the data of a finished read. *)
Inductive ata_phase :=
| Idle
| Want (drv : bool) (lba : Z)
| Busy (r : ata_req)
| Ready (x : block).

Definition settled (p : ata_phase) : Prop := match p with Idle | Ready _ => True | _ => False end.

(** The task-file registers as the drive reads them: a 28-bit sector number
    in LBA mode, and the drive select bit. *)
Definition reg (g : gmap Z Z) (p : Z) : Z := default 0 (g !! p).
Definition reg_lba (g : gmap Z Z) : Z :=
  reg g 0x1f3 + reg g 0x1f4 * 2 ^ 8 + reg g 0x1f5 * 2 ^ 16 + Z.land (reg g 0x1f6) 15 * 2 ^ 24.
Definition reg_drv (g : gmap Z Z) : bool := Z.testbit (reg g 0x1f6) 4.
(** One sector, LBA mode, interrupts enabled. *)
Definition reg_cmd (g : gmap Z Z) : Prop :=
  g !! 0x3f6 = Some 0 /\ g !! 0x1f2 = Some 1 /\ Z.testbit (reg g 0x1f6) 6 = true.

Definition task_port (p : Z) : Prop := p ∈ [0x3f6; 0x1f2; 0x1f3; 0x1f4; 0x1f5; 0x1f6].

Class AtaOk (D : Type) `{Ata D} (polls : nat) := {
  ata_disk : D -> bool -> gmap Z block;
  ata_regs : D -> gmap Z Z;
  ata_at : D -> ata_phase;
  ata_err : D -> bool;
  ata_busy : D -> nat;
  (** The drive finishes its request, with or without an error. *)
  ata_finish : bool -> D -> D -> Prop;
  ata_outb_regs : forall p v d, task_port p -> let d' := ata_outb p v d in
    ata_regs d' = <[p := v]> (ata_regs d) /\ ata_disk d' = ata_disk d /\ ata_at d' = ata_at d;
  ata_outb_read : forall d, settled (ata_at d) -> reg_cmd (ata_regs d) -> let d' := ata_outb 0x1f7 IDE_CMD_READ d in
    ata_at d' = Busy (Rd (reg_drv (ata_regs d)) (reg_lba (ata_regs d))) /\ ata_disk d' = ata_disk d;
  ata_outb_write : forall d, settled (ata_at d) -> reg_cmd (ata_regs d) -> let d' := ata_outb 0x1f7 IDE_CMD_WRITE d in
    ata_at d' = Want (reg_drv (ata_regs d)) (reg_lba (ata_regs d)) /\ ata_disk d' = ata_disk d;
  ata_outsl_ok : forall x d v l, ata_at d = Want v l -> let d' := ata_outsl x d in
    ata_at d' = Busy (Wr v l x) /\ ata_disk d' = ata_disk d;
  ata_insl_ok : forall d x, ata_at d = Ready x -> exists d', ata_insl d = (x, d') /\
    ata_at d' = Idle /\ ata_disk d' = ata_disk d;
  (** Polling the status changes nothing, reports an error when ready, and a
      drive that is not at work becomes ready after fewer than [polls] polls. *)
  ata_inb_ok : forall d r d', ata_inb 0x1f7 d = (r, d') ->
    ata_at d' = ata_at d /\ ata_disk d' = ata_disk d /\ ata_err d' = ata_err d /\
    (if Z.land r (Z.lor IDE_BSY IDE_DRDY) =? IDE_DRDY then negb (Z.land r (Z.lor IDE_DF IDE_ERR) =? 0) = ata_err d
     else settled (ata_at d) -> (ata_busy d' < ata_busy d)%nat);
  ata_settles : forall d, settled (ata_at d) -> (ata_busy d < polls)%nat;
  ata_finish_read : forall d d' v l, ata_at d = Busy (Rd v l) -> ata_finish false d d' ->
    ata_at d' = Ready (default zero_block (ata_disk d v !! l)) /\ ata_disk d' = ata_disk d /\ ata_err d' = false;
  ata_finish_write : forall d d' v l x, ata_at d = Busy (Wr v l x) -> ata_finish false d d' ->
    ata_at d' = Idle /\ ata_disk d' v = <[l := x]> (ata_disk d v) /\ ata_err d' = false;
  (** A failed read changes no sector, a failed write no other sector. *)
  ata_finish_fail : forall d d' v l, ata_at d = Busy (Rd v l) -> ata_finish true d d' ->
    ata_at d' = Idle /\ ata_disk d' = ata_disk d /\ ata_err d' = true;
  ata_finish_fail_write : forall d d' v l x, ata_at d = Busy (Wr v l x) -> ata_finish true d d' ->
    ata_at d' = Idle /\ delete l (ata_disk d' v) = delete l (ata_disk d v) /\ ata_err d' = true
}.

(** ** Decoding the registers *)

Lemma lba_bytes n : 0 <= n < 2 ^ 28 ->
  Z.land n 0xff + Z.land (Z.shiftr n 8) 0xff * 2 ^ 8 + Z.land (Z.shiftr n 16) 0xff * 2 ^ 16 +
  Z.land (Z.shiftr n 24) 0x0f * 2 ^ 24 = n.
Proof.
  intros Hn. change 0xff with (Z.ones 8). change 0x0f with (Z.ones 4).
  rewrite !Z.land_ones, !Z.shiftr_div_pow2 by lia.
  change (2 ^ 8) with 256. change (2 ^ 16) with 65536. change (2 ^ 24) with 16777216. change (2 ^ 4) with 16.
  change (2 ^ 28) with 268435456 in Hn. Z.to_euclidean_division_equations. lia.
Qed.

Definition drive_reg (dev t : Z) : Z := Z.lor (Z.lor 0xe0 (Z.shiftl (Z.land dev 1) 4)) t.

Lemma drive_reg_ok dev n (t := Z.land n 0x0f) : 
  Z.land (drive_reg dev t) 15 = t /\ Z.testbit (drive_reg dev t) 4 = Z.odd dev /\ Z.testbit (drive_reg dev t) 6 = true.
Proof.
  assert (Ht : forall i, 4 <= i -> Z.testbit t i = false).
  { intros i Hi. unfold t. change 0x0f with (Z.ones 4). rewrite Z.land_spec, Z.ones_spec_high by lia. apply andb_false_r. }
  assert (Hd : Z.land dev 1 = if Z.odd dev then 1 else 0).
  { change 1 with (Z.ones 1) at 1. rewrite Z.land_ones by lia. change (2 ^ 1) with 2. rewrite Zmod_odd. done. }
  unfold drive_reg. rewrite Hd. split; [|split].
  - apply Z.bits_inj'. intros i Hi. rewrite Z.land_spec, Z.lor_spec. change 15 with (Z.ones 4).
    destruct (decide (i < 4)) as [Hl|Hl].
    + rewrite Z.ones_spec_low by lia. rewrite andb_true_r.
      replace (Z.testbit (Z.lor 0xe0 _) i) with false; [done|].
      assert (i = 0 \/ i = 1 \/ i = 2 \/ i = 3) as [-> |[-> |[-> | ->]]] by lia; destruct (Z.odd dev); reflexivity.
    + rewrite Z.ones_spec_high, andb_false_r by lia. symmetry. apply Ht. lia.
  - rewrite Z.lor_spec, (Ht 4) by lia. destruct (Z.odd dev); reflexivity.
  - rewrite Z.lor_spec, (Ht 6) by lia. destruct (Z.odd dev); reflexivity.
Qed.

(** What the drive is asked to do for a buffer. *)
Definition req_of (x : buf) : ata_req :=
  if dirtyf (b_flags x) then Wr (Z.odd (b_dev x)) (b_blockno x) (b_data x) else Rd (Z.odd (b_dev x)) (b_blockno x).

(** The buffer after its request is served, with [y] the data it has then. *)
Definition served (y : block) (x : buf) : buf :=
  with_flags (Z.lor (Z.land (b_flags x) (Z.lnot B_DIRTY)) B_VALID) (with_data y x).

(** ** What the driver promises

    Requests are served one at a time in the order of the calls, each by
    [iderw] of memide.c, and a call returns when its request is served.  A
    request that the drive fails counts as served too: a read leaves the old
    data in the buffer, a write leaves anything in its sector, and the buffer is
    valid and clean.  The clients may change every buffer that no call is out
    for, and the cache's links of all of them. *)
Inductive event :=
| ECall (b : nat)
| EServe (b : nat)
| EFail (b : nat)
| EReturn (b : nat)
| EClient (l : list buf).

Record spec := Spec { p_bio : bio; p_pending : list nat; p_served : gset nat }.

Definition set_bufs (l : list buf) (a : bio) : bio := Bio l (disk a) (disksize a) (wlog a).

(** The fields a request is about. *)
Definition payload (x : buf) : Z * Z * Z * bool * block :=
  (b_flags x, b_dev x, b_blockno x, b_locked x, b_data x).
Definition unserved (x : buf) : Prop :=
  b_locked x = true /\ (Z.land (b_flags x) (Z.lor B_VALID B_DIRTY) =? B_VALID) = false /\
  b_dev x = 1 /\ 0 <= b_blockno x < FSSIZE.
Definition client_ok (calls : gset nat) (l l' : list buf) : Prop :=
  length l' = length l /\ forall b, b ∈ calls -> payload <$> l' !! b = payload <$> l !! b.

Inductive pstep : event -> spec -> spec -> Prop :=
| p_call b x a q v : bufs a !! b = Some x -> unserved x -> b ∉ q -> b ∉ v ->
    pstep (ECall b) (Spec a q v) (Spec a (q ++ [b]) v)
| p_serve b a a' q v : Bio.iderw b a = Ret tt a' -> pstep (EServe b) (Spec a (b :: q) v) (Spec a' q (v ∪ {[b]}))
| p_fail b x a dk q v : bufs a !! b = Some x ->
    (if dirtyf (b_flags x) then delete (b_blockno x) dk = delete (b_blockno x) (disk a) else dk = disk a) ->
    pstep (EFail b) (Spec a (b :: q) v) (Spec (Bio (<[b := served (b_data x) x]> (bufs a)) dk (disksize a) (wlog a)) q (v ∪ {[b]}))
| p_return b a q v : b ∈ v -> pstep (EReturn b) (Spec a q v) (Spec a q (v ∖ {[b]}))
| p_client l a q v : client_ok (list_to_set q ∪ v) (bufs a) l -> pstep (EClient l) (Spec a q v) (Spec (set_bufs l a) q v).

(** A run of the specification. *)
Inductive pruns : spec -> list event -> spec -> Prop :=
| pr_nil p : pruns p [] p
| pr_snoc p l p1 e p2 : pruns p l p1 -> pstep e p1 p2 -> pruns p (l ++ [e]) p2.

(** The queue as [idequeue] and the [qnext] fields link it. *)
Fixpoint chain (qn : list (option nat)) (o : option nat) (q : list nat) : Prop :=
  match q with
  | [] => o = None
  | b :: q => o = Some b /\ exists o', qn !! b = Some o' /\ chain qn o' q
  end.

Section driver.
Context {D : Type} `{HA : Ata D} (polls : nat) `{!AtaOk D polls}.
Implicit Types (s : ide D) (d : D).

Definition set_qnexts (l : list (option nat)) s : ide D :=
  Ide (id_bufs s) l (id_queue s) (id_havedisk1 s) (id_dev s) (id_sleep s).

(** ** The operations *)

Lemma idewait_loop_ok n s : settled (ata_at (id_dev s)) -> (ata_busy (id_dev s) < n)%nat -> exists r d',
  idewait_loop n s = Ret r (set_dev d' s) /\ ata_at d' = ata_at (id_dev s) /\ ata_disk d' = ata_disk (id_dev s) /\
  negb (Z.land r (Z.lor IDE_DF IDE_ERR) =? 0) = ata_err (id_dev s).
Proof.
  revert s. induction n as [|n IH]; intros s Hs Hb; [lia|]. cbn [idewait_loop]. unfold bind, inb.
  destruct (ata_inb 0x1f7 (id_dev s)) as [r d'] eqn:E. destruct (ata_inb_ok _ _ _ E) as (Ha & Hd & He & Hr).
  destruct (_ =? _).
  - exists r, d'. repeat split; [done|done|]. exact Hr.
  - destruct (IH (set_dev d' s)) as (r' & d2 & E2 & H1 & H2 & H3); [cbn; by rewrite Ha|specialize (Hr Hs); cbn; lia|].
    exists r', d2. rewrite E2. cbn in *. rewrite H1, H2, H3. done.
Qed.

Lemma idewait_ok c s : settled (ata_at (id_dev s)) -> exists d',
  idewait polls c s = Ret (if c && ata_err (id_dev s) then -1 else 0) (set_dev d' s) /\
  ata_at d' = ata_at (id_dev s) /\ ata_disk d' = ata_disk (id_dev s).
Proof.
  intros Hs. destruct (idewait_loop_ok polls s Hs (ata_settles _ Hs)) as (r & d' & E & H1 & H2 & H3).
  exists d'. unfold idewait, bind. rewrite E. unfold ret. rewrite H3. done.
Qed.

(** The task file [idestart] writes. *)
Definition task_file (x : buf) : list (Z * Z) :=
  let n := b_blockno x in
  [(0x3f6, 0); (0x1f2, 1); (0x1f3, Z.land n 0xff); (0x1f4, Z.land (Z.shiftr n 8) 0xff);
   (0x1f5, Z.land (Z.shiftr n 16) 0xff); (0x1f6, drive_reg (b_dev x) (Z.land (Z.shiftr n 24) 0x0f))].
Definition outs (l : list (Z * Z)) d : D := foldl (fun d pv => ata_outb pv.1 pv.2 d) d l.

Lemma outs_ok l d : Forall (fun pv => task_port pv.1) l ->
  ata_regs (outs l d) = foldl (fun g pv => <[pv.1 := pv.2]> g) (ata_regs d) l /\
  ata_disk (outs l d) = ata_disk d /\ ata_at (outs l d) = ata_at d.
Proof.
  intros Hl. revert d. induction Hl as [|[p v] l Hp _ IH]; intros d; [done|].
  destruct (ata_outb_regs p v d Hp) as (Hr & Hd & Ha). cbn [outs foldl fst snd].
  destruct (IH (ata_outb p v d)) as (H1 & H2 & H3). unfold outs in *. rewrite H1, H2, H3, Hr, Hd, Ha. done.
Qed.

Lemma task_file_ok x d : 0 <= b_blockno x < FSSIZE -> let g := ata_regs (outs (task_file x) d) in
  reg_cmd g /\ reg_lba g = b_blockno x /\ reg_drv g = Z.odd (b_dev x).
Proof.
  intros Hn g. destruct (outs_ok (task_file x) d) as (Hg & _).
  { repeat constructor; cbn; unfold task_port; set_solver. }
  destruct (drive_reg_ok (b_dev x) (Z.shiftr (b_blockno x) 24)) as (Ht & H4 & H6).
  assert (Hl : forall p v, foldl (fun g pv => <[pv.1 := pv.2]> g) (ata_regs d) (task_file x) !! p = Some v -> reg g p = v).
  { intros p v Hp. unfold reg, g. rewrite Hg, Hp. done. }
  unfold task_file in *. cbn [foldl fst snd] in *.
  assert (E6 := Hl 0x1f6 _ (lookup_insert_eq _ _ _)).
  repeat split.
  - unfold g. rewrite Hg. by simplify_map_eq.
  - unfold g. rewrite Hg. by simplify_map_eq.
  - rewrite E6. exact H6.
  - unfold reg_lba. rewrite E6, Ht. erewrite 3 Hl by (by simplify_map_eq).
    apply lba_bytes. change FSSIZE with 1000 in Hn. lia.
  - unfold reg_drv. rewrite E6. exact H4.
Qed.

(** [idestart] gives the drive the request of the buffer. *)
Lemma idestart_ok b x s : id_bufs s !! b = Some x -> 0 <= b_blockno x < FSSIZE -> settled (ata_at (id_dev s)) ->
  exists d', idestart polls (Some b) s = Ret tt (set_dev d' s) /\ ata_at d' = Busy (req_of x) /\
    ata_disk d' = ata_disk (id_dev s).
Proof.
  intros Hx Hn Hs. destruct (idewait_ok false s Hs) as (d1 & E & Ha & Hd).
  pose (d2 := outs (task_file x) d1). destruct (task_file_ok x d1 Hn) as (Hc & Hl & Hv). fold d2 in Hc, Hl, Hv.
  destruct (outs_ok (task_file x) d1) as (_ & Hd2 & Ha2).
  { repeat constructor; cbn; unfold task_port; set_solver. }
  fold d2 in Hd2, Ha2. rewrite <- Ha, <- Ha2 in Hs.
  assert (Hi : i32 (b_blockno x * (BSIZE / SECTOR_SIZE)) = b_blockno x).
  { change (BSIZE / SECTOR_SIZE) with 1. change FSSIZE with 1000 in Hn. rewrite Z.mul_1_r. apply i32_small. lia. }
  unfold idestart, getb, get, bind at 1 2. rewrite Hx. cbn [the ret].
  replace (FSSIZE <=? b_blockno x) with false by (symmetry; apply Z.leb_gt; lia). cbn zeta. rewrite Hi.
  change (7 <? BSIZE / SECTOR_SIZE) with false. change (BSIZE / SECTOR_SIZE =? 1) with true. cbn iota.
  rewrite (bind_Ret _ _ _ _ _ E). rewrite land_dirty, negb_involutive. unfold req_of. destruct (dirtyf (b_flags x)).
  - destruct (ata_outb_write d2 Hs Hc) as (Hw & Hw').
    destruct (ata_outsl_ok (b_data x) _ _ _ Hw) as (Hz & Hz').
    rewrite Hl, Hv in Hz. exists (ata_outsl (b_data x) (ata_outb 0x1f7 IDE_CMD_WRITE d2)). split; [reflexivity|].
    split; [exact Hz|]. rewrite Hz', Hw', Hd2. exact Hd.
  - destruct (ata_outb_read d2 Hs Hc) as (Hw & Hw').
    rewrite Hl, Hv in Hw. exists (ata_outb 0x1f7 IDE_CMD_READ d2). split; [reflexivity|].
    split; [exact Hw|]. rewrite Hw', Hd2. exact Hd.
Qed.

(** ** The queue *)

Lemma chain_insert qn o q b v : b ∉ q -> chain qn o q -> chain (<[b := v]> qn) o q.
Proof.
  revert o. induction q as [|c q IH]; intros o Hb; [done|]. apply not_elem_of_cons in Hb as [Hc Hb].
  intros [-> (o' & Ho & Hq)]. split; [done|]. exists o'. split; [by rewrite list_lookup_insert_ne|by apply IH].
Qed.

Lemma chain_bound qn o q : chain qn o q -> NoDup q -> (length q <= length qn)%nat.
Proof.
  intros Hq Hn. rewrite <- (length_seq (length qn) 0). apply submseteq_length, NoDup_submseteq; [done|].
  intros b Hb. apply elem_of_seq. split; [lia|]. revert o Hq. induction q as [|c q IH]; intros o; [by apply not_elem_of_nil in Hb|].
  intros [_ (o' & Ho & Hq)]. apply NoDup_cons in Hn as [_ Hn].
  apply elem_of_cons in Hb as [->|Hb]; [apply lookup_lt_Some in Ho; lia|by eapply IH].
Qed.

Lemma append_from_ok q fuel c b s : (length q < fuel)%nat -> NoDup (c :: q) -> b ∉ c :: q ->
  chain (id_qnext s) (Some c) (c :: q) -> id_qnext s !! b = Some None ->
  exists l, append_from fuel c b s = Ret tt (set_qnexts l s) /\ length l = length (id_qnext s) /\
    chain l (Some c) (c :: q ++ [b]) /\ forall e, e ∉ c :: q -> l !! e = id_qnext s !! e.
Proof.
  revert fuel c. induction q as [|e q IH]; intros [|fuel] c Hf Hn Hb Hq Hbn; try (cbn in Hf; lia);
    destruct Hq as [_ (o & Ho & Hq)]; cbn [append_from]; unfold getq, get, bind; rewrite Ho; cbn [the ret].
  - cbn in Hq. subst o. exists (<[c := Some b]> (id_qnext s)).
    assert (c <> b) by set_solver. split; [done|]. split; [apply length_insert|]. split; [|intros e He; rewrite list_lookup_insert_ne; set_solver].
    split; [done|]. exists (Some b). split; [by apply list_lookup_insert_eq; eapply lookup_lt_Some|].
    split; [done|]. exists None. rewrite list_lookup_insert_ne by done. done.
  - destruct Hq as [-> Hq]. apply NoDup_cons in Hn as [Hc Hn].
    destruct (IH fuel e) as (l & E & Hl & Hch & Hk); [cbn in Hf; lia|done|set_solver|by split|done|].
    exists l. split; [exact E|]. split; [done|]. split; [|intros; apply Hk; set_solver].
    split; [done|]. exists (Some e). split; [rewrite Hk; set_solver|exact Hch].
Qed.

Lemma append_ok q b s : NoDup q -> b ∉ q -> chain (id_qnext s) (id_queue s) q -> id_qnext s !! b = Some None ->
  exists l, append b s = Ret tt (set_queue (hd_error (q ++ [b])) (set_qnexts l s)) /\ length l = length (id_qnext s) /\
    chain l (hd_error (q ++ [b])) (q ++ [b]).
Proof.
  intros Hn Hb Hq Hbn. unfold append, bind, get. destruct q as [|c q].
  - cbn in Hq. rewrite Hq. exists (id_qnext s). split; [by destruct s|]. split; [done|]. cbn. eauto.
  - assert (Hl := chain_bound _ _ _ Hq Hn). pose proof Hq as [E _]. rewrite E in *.
    destruct (append_from_ok q (length (id_qnext s)) c b s) as (l & El & Hl' & Hch & _); try done.
    exists l. split; [|done]. rewrite El. f_equal. destruct s; cbn in *. by rewrite <- E.
Qed.

(** ** Interrupts *)

Lemma flags_done f : Z.land (Z.lor f B_VALID) (Z.lnot B_DIRTY) = Z.lor (Z.land f (Z.lnot B_DIRTY)) B_VALID.
Proof. rewrite !(Z.land_comm _ (Z.lnot B_DIRTY)), Z.land_lor_distr_r. done. Qed.
Lemma flags_clean f : dirtyf f = false -> Z.land f (Z.lnot B_DIRTY) = f.
Proof.
  intros Hf. apply Z.bits_inj'. intros i Hi. rewrite Z.land_spec, Z.lnot_spec by lia. change B_DIRTY with (2 ^ 2).
  rewrite Z.pow2_bits_eqb by lia. destruct (Z.eqb_spec 2 i) as [<-|]; [|apply andb_true_r]. rewrite andb_false_r. symmetry. exact Hf.
Qed.

(** The state in which [ideintr] starts the next request. *)
Definition served_state (b : nat) (x : buf) (o : option nat) d s : ide D :=
  Ide (<[b := x]> (id_bufs s)) (id_qnext s) o (id_havedisk1 s) d (id_sleep s ∖ {[b]}).
Definition start_next (o : option nat) : M (ide D) unit :=
  match o with None => ret tt | Some c => idestart polls (Some c) end.

Lemma alter_buf (g : buf -> buf) (b : nat) x (l : list buf) : l !! b = Some x -> alter g b l = <[b := g x]> l.
Proof.
  intros Hx. apply list_eq. intros i. destruct (decide (i = b)) as [->|Hi].
  - rewrite list_lookup_alter_eq, list_lookup_insert_eq by (by eapply lookup_lt_Some). by rewrite Hx.
  - by rewrite list_lookup_alter_ne, list_lookup_insert_ne.
Qed.

Lemma mark_ok b x s : id_bufs s !! b = Some x ->
  (modb b (fun x => with_flags (Z.lor (b_flags x) B_VALID) x) ;;;
   modb b (fun x => with_flags (Z.land (b_flags x) (Z.lnot B_DIRTY)) x) ;;;
   modify (fun s => set_sleep (id_sleep s ∖ {[b]}) s) ;;;
   let! s := get in
   match id_queue s with None => ret tt | Some b => idestart polls (Some b) end) s =
  start_next (id_queue s) (served_state b (served (b_data x) x) (id_queue s) (id_dev s) s).
Proof.
  intros Hx. unfold modb, modify, get, bind, start_next. cbn [id_queue set_sleep set_ibufs id_bufs].
  rewrite (alter_buf _ _ _ _ Hx), (alter_buf _ _ (with_flags (Z.lor (b_flags x) B_VALID) x))
    by (by rewrite list_lookup_insert_eq by (by eapply lookup_lt_Some)).
  rewrite list_insert_insert_eq. cbn [b_flags with_flags]. rewrite flags_done. by destruct x.
Qed.

Lemma ideintr_write b x o s : id_queue s = Some b -> id_bufs s !! b = Some x -> id_qnext s !! b = Some o ->
  dirtyf (b_flags x) = true ->
  ideintr polls s = start_next o (served_state b (served (b_data x) x) o (id_dev s) s).
Proof.
  intros Hq Hx Ho Hf. unfold ideintr, getq, getb, get. unfold bind at 1. rewrite Hq.
  unfold bind at 1 2. rewrite Ho. cbn [the ret]. unfold modify at 1, bind at 1. unfold bind at 1 2.
  cbn [id_bufs set_queue]. rewrite Hx. cbn [the ret]. rewrite land_dirty, Hf. cbn [negb]. unfold bind at 1. cbn [ret when].
  unfold bind at 1. cbn [ret]. etrans; [apply (mark_ok b x); exact Hx|]. done.
Qed.

Lemma ideintr_read b x o e y s : id_queue s = Some b -> id_bufs s !! b = Some x -> id_qnext s !! b = Some o ->
  dirtyf (b_flags x) = false -> ata_err (id_dev s) = e ->
  ata_at (id_dev s) = (if e then Idle else Ready y) ->
  exists d', ideintr polls s = start_next o (served_state b (served (if e then b_data x else y) x) o d' s) /\
    ata_at d' = Idle /\ ata_disk d' = ata_disk (id_dev s).
Proof.
  intros Hq Hx Ho Hf He Ha. unfold ideintr, getq, getb, get. unfold bind at 1. rewrite Hq.
  unfold bind at 1 2. rewrite Ho. cbn [the ret]. unfold modify at 1, bind at 1. unfold bind at 1 2.
  cbn [id_bufs set_queue]. rewrite Hx. cbn [the ret]. rewrite land_dirty, Hf. cbn [negb].
  destruct (idewait_ok true (set_queue o s)) as (d1 & E1 & Ha1 & Hd1); [cbn; rewrite Ha; by destruct e|].
  cbn [id_dev set_queue] in Ha1, Hd1, E1. rewrite He in E1. unfold bind at 1 2. rewrite E1. destruct e; cbn [andb ret].
  - change (0 <=? -1) with false. cbn [when]. unfold bind at 1. cbn [ret]. exists d1.
    split; [etrans; [apply (mark_ok b x); exact Hx|done]|]. by rewrite Ha1, Hd1.
  - change (0 <=? 0) with true. cbn [when]. rewrite Ha in Ha1. destruct (ata_insl_ok _ _ Ha1) as (d2 & E2 & Ha2 & Hd2).
    unfold bind at 1 2, insl. cbn [id_dev set_dev]. rewrite E2. unfold modb at 1, modify at 1.
    cbn [set_dev set_queue set_ibufs id_bufs]. rewrite (alter_buf _ _ _ _ Hx). exists d2.
    split; [|by rewrite Hd2, Hd1]. etrans; [apply (mark_ok b (with_data y x)); by apply list_lookup_insert_eq; eapply lookup_lt_Some|].
    unfold served_state, set_ibufs. cbn [id_bufs id_queue id_dev id_qnext id_havedisk1 id_sleep].
    rewrite list_insert_insert_eq. done.
Qed.

(** ** The driver with its clients, its drive and its interrupt line

    [y_irq]: the drive has finished and its interrupt is not handled yet.
    [y_calls]: the buffers a thread is in [iderw] for. *)
Record sys := Sys { y_ide : ide D; y_irq : bool; y_calls : gset nat }.

Inductive dstep : option event -> sys -> sys -> Prop :=
| d_call b x r s s' irq c : id_bufs s !! b = Some x -> unserved x -> b ∉ c -> Ide.iderw polls b s = Ret r s' ->
    dstep (Some (ECall b)) (Sys s irq c) (Sys s' irq (if r then c else c ∪ {[b]}))
| d_finish bad s d' c : ata_finish bad (id_dev s) d' -> (exists r, ata_at (id_dev s) = Busy r) ->
    dstep None (Sys s false c) (Sys (set_dev d' s) true c)
| d_intr b s s' c : id_queue s = Some b -> ideintr polls s = Ret tt s' ->
    dstep (Some (if ata_err (id_dev s) then EFail b else EServe b)) (Sys s true c) (Sys s' false c)
| d_spurious s s' irq c : id_queue s = None -> ideintr polls s = Ret tt s' -> dstep None (Sys s irq c) (Sys s' irq c)
| d_return b s s' irq c : b ∈ c -> b ∉ id_sleep s -> iderw_wait b s = Ret true s' ->
    dstep (Some (EReturn b)) (Sys s irq c) (Sys s' irq (c ∖ {[b]}))
| d_again b s s' irq c : b ∈ c -> b ∉ id_sleep s -> iderw_wait b s = Ret false s' -> dstep None (Sys s irq c) (Sys s' irq c)
| d_client l s irq c : client_ok c (id_bufs s) l -> dstep (Some (EClient l)) (Sys s irq c) (Sys (set_ibufs l s) irq c).

(** A run and the events it shows. *)
Inductive druns : sys -> list event -> sys -> Prop :=
| dr_nil y : druns y [] y
| dr_snoc y l y1 e y2 : druns y l y1 -> dstep e y1 y2 -> druns y (l ++ option_list e) y2.

(** The drive, as the head of the queue and the interrupt line determine it. *)
Definition drive_ok (dk : gmap Z block) (x : buf) (irq : bool) d : Prop :=
  if irq then
    if ata_err d then
      ata_at d = Idle /\ (if dirtyf (b_flags x) then delete (b_blockno x) (ata_disk d true) = delete (b_blockno x) dk else ata_disk d true = dk)
    else if dirtyf (b_flags x) then ata_at d = Idle /\ ata_disk d true = <[b_blockno x := b_data x]> dk
    else ata_at d = Ready (default zero_block (dk !! b_blockno x)) /\ ata_disk d true = dk
  else ata_at d = Busy (req_of x) /\ ata_disk d true = dk.

Definition head_ok (a : bio) (q : list nat) (irq : bool) d : Prop :=
  match q with
  | [] => irq = false /\ settled (ata_at d) /\ ata_disk d true = disk a
  | b :: _ => exists x, bufs a !! b = Some x /\ drive_ok (disk a) x irq d
  end.

Record sim (y : sys) (p : spec) : Prop := {
  sim_bufs : id_bufs (y_ide y) = bufs (p_bio p);
  sim_size : disksize (p_bio p) = FSSIZE;
  sim_disk1 : id_havedisk1 (y_ide y) = true;
  sim_len : length (id_qnext (y_ide y)) = length (id_bufs (y_ide y));
  sim_chain : chain (id_qnext (y_ide y)) (id_queue (y_ide y)) (p_pending p);
  sim_nodup : NoDup (p_pending p);
  sim_sleep : id_sleep (y_ide y) = list_to_set (p_pending p);
  sim_calls : y_calls y = list_to_set (p_pending p) ∪ p_served p;
  sim_disj : forall b, b ∈ p_served p -> b ∉ p_pending p;
  sim_pending : forall b, b ∈ p_pending p -> exists x, bufs (p_bio p) !! b = Some x /\ unserved x;
  sim_served : forall b, b ∈ p_served p -> exists x, bufs (p_bio p) !! b = Some x /\
    (Z.land (b_flags x) (Z.lor B_VALID B_DIRTY) =? B_VALID) = true;
  sim_drive : head_ok (p_bio p) (p_pending p) (y_irq y) (id_dev (y_ide y))
}.

(** ** Calls *)

Lemma iderw_wait_sleep b x s : id_bufs s !! b = Some x ->
  (Z.land (b_flags x) (Z.lor B_VALID B_DIRTY) =? B_VALID) = false ->
  iderw_wait b s = Ret false (set_sleep (id_sleep s ∪ {[b]}) s).
Proof. intros Hx Hf. unfold iderw_wait, getb, get, bind. rewrite Hx. cbn [the ret]. rewrite Hf. done. Qed.
Lemma iderw_wait_done b x s : id_bufs s !! b = Some x ->
  (Z.land (b_flags x) (Z.lor B_VALID B_DIRTY) =? B_VALID) = true -> iderw_wait b s = Ret true s.
Proof. intros Hx Hf. unfold iderw_wait, getb, get, bind. rewrite Hx. cbn [the ret]. rewrite Hf. done. Qed.

(** The drive after a call: started if the queue was empty. *)
Definition started (q : list nat) (x : buf) d d' : Prop :=
  match q with [] => ata_at d' = Busy (req_of x) /\ ata_disk d' = ata_disk d | _ => d' = d end.

Lemma start_ok b x q s : id_bufs s !! b = Some x -> unserved x -> b ∉ q -> id_queue s = hd_error (q ++ [b]) ->
  (q = [] -> settled (ata_at (id_dev s))) -> exists d',
  when (bool_decide (id_queue s = Some b)) (idestart polls (Some b)) s = Ret tt (set_dev d' s) /\
  started q x (id_dev s) d'.
Proof.
  intros Hx (_ & _ & _ & Hn) Hb -> Hs. destruct q as [|c q]; cbn [hd_error app started].
  - rewrite bool_decide_true by done. by apply idestart_ok; [..|apply Hs].
  - rewrite bool_decide_false by set_solver. exists (id_dev s). split; [by destruct s|done].
Qed.

Lemma iderw_ok b x q s : id_bufs s !! b = Some x -> unserved x -> b ∉ q -> NoDup q ->
  id_havedisk1 s = true -> length (id_qnext s) = length (id_bufs s) -> chain (id_qnext s) (id_queue s) q ->
  (q = [] -> settled (ata_at (id_dev s))) -> exists l d',
  Ide.iderw polls b s = Ret false (Ide (id_bufs s) l (hd_error (q ++ [b])) true d' (id_sleep s ∪ {[b]})) /\
  length l = length (id_bufs s) /\ chain l (hd_error (q ++ [b])) (q ++ [b]) /\ started q x (id_dev s) d'.
Proof.
  intros Hx Hu Hb Hn H1 Hlen Hq Hs. pose proof Hu as (Hl & Hf & _).
  assert (Hlt : (b < length (id_qnext s))%nat) by (rewrite Hlen; by eapply lookup_lt_Some).
  destruct (append_ok q b (set_qnext b None s)) as (l & El & Hll & Hch); [done|done|by apply chain_insert|by apply list_lookup_insert_eq|].
  set (s2 := set_queue _ _) in El.
  destruct (start_ok b x q s2) as (d' & Ed & Hd); [done|done|done|done|done|].
  exists l, d'. split; [|split; [|split; [exact Hch|exact Hd]]].
  - unfold Ide.iderw, getb, get. unfold bind at 1 2. rewrite Hx. cbn [the ret]. rewrite Hl, Hf. cbn [negb].
    unfold bind at 1. rewrite H1. cbn [negb]. rewrite andb_false_r. unfold modify at 1, bind at 1.
    rewrite (bind_Ret _ _ _ _ _ El). unfold bind at 1. rewrite (bind_Ret _ _ _ _ _ Ed).
    rewrite (iderw_wait_sleep b x) by done. unfold s2, set_sleep. cbn. by rewrite H1.
  - rewrite Hll. cbn. by rewrite length_insert.
Qed.

(** ** The simulation, step by step *)

Lemma sim_call b x s irq c a q v : sim (Sys s irq c) (Spec a q v) -> id_bufs s !! b = Some x -> unserved x -> b ∉ c ->
  exists s', Ide.iderw polls b s = Ret false s' /\ sim (Sys s' irq (c ∪ {[b]})) (Spec a (q ++ [b]) v).
Proof.
  intros [] Hx Hu Hb. cbn in *. assert (Hbq : b ∉ q) by set_solver.
  destruct (iderw_ok b x q s) as (l & d' & E & Hl & Hch & Hd); try done.
  { intros ->. apply sim_drive0. }
  eexists. split; [exact E|]. split; cbn; try done.
  - apply NoDup_app. repeat split; [done|set_solver|apply NoDup_singleton].
  - rewrite list_to_set_app_L. set_solver.
  - rewrite list_to_set_app_L. set_solver.
  - set_solver.
  - intros e He. apply elem_of_app in He as [He|He%list_elem_of_singleton]; [by apply sim_pending0|]. subst e. exists x. by rewrite <- sim_bufs0.
  - destruct q as [|e q]; cbn [app head_ok started] in *; [|by subst].
    destruct sim_drive0 as (-> & _ & Hk), Hd as [Ha Hd]. exists x. rewrite <- sim_bufs0. split; [done|]. split; [done|]. by rewrite Hd.
Qed.

Lemma sim_finish bad s d' c p : sim (Sys s false c) p -> (exists r, ata_at (id_dev s) = Busy r) ->
  ata_finish bad (id_dev s) d' -> sim (Sys (set_dev d' s) true c) p.
Proof.
  intros [] [r Hr] Hd. split; try done. cbn [y_ide y_irq id_dev set_dev] in *. destruct (p_pending p) as [|b q]; cbn [head_ok] in *.
  { rewrite Hr in sim_drive0. naive_solver. }
  destruct sim_drive0 as (x & Hx & Ha & Hk). exists x. split; [done|].
  destruct (sim_pending0 b) as (x' & Hx' & _ & _ & H1 & _); [set_solver|]. rewrite Hx in Hx'. injection Hx' as <-.
  unfold drive_ok, req_of in *. rewrite H1 in Ha. change (Z.odd 1) with true in Ha. destruct bad, (dirtyf _).
  - destruct (ata_finish_fail_write _ _ _ _ _ Ha Hd) as (E & E1 & ->). by rewrite E, E1, Hk.
  - destruct (ata_finish_fail _ _ _ _ Ha Hd) as (E & E1 & ->). by rewrite E, E1, Hk.
  - destruct (ata_finish_write _ _ _ _ _ Ha Hd) as (E & E1 & ->). by rewrite E, E1, Hk.
  - destruct (ata_finish_read _ _ _ _ Ha Hd) as (E & E1 & ->). by rewrite E, E1, Hk.
Qed.

Lemma sim_client l s irq c a q v : sim (Sys s irq c) (Spec a q v) -> client_ok c (id_bufs s) l ->
  client_ok (list_to_set q ∪ v) (bufs a) l /\ sim (Sys (set_ibufs l s) irq c) (Spec (set_bufs l a) q v).
Proof.
  intros [] [Hlen Hp]. cbn in *. rewrite <- sim_calls0, <- sim_bufs0. split; [done|].
  assert (Hb : forall b x, b ∈ c -> bufs a !! b = Some x -> exists x', l !! b = Some x' /\ payload x' = payload x).
  { intros b x Hb Hx. specialize (Hp b Hb). rewrite sim_bufs0, Hx in Hp. by apply fmap_Some_1 in Hp as (x' & ? & E); eauto. }
  split; cbn; try done; [lia| | |].
  - intros b Hq. destruct (sim_pending0 b Hq) as (x & Hx & Hu). destruct (Hb b x) as (x' & Hx' & E); [set_solver|done|].
    exists x'. split; [done|]. unfold unserved, payload in *. injection E as -> -> -> -> _. done.
  - intros b Hv. destruct (sim_served0 b Hv) as (x & Hx & Hu). destruct (Hb b x) as (x' & Hx' & E); [set_solver|done|].
    exists x'. split; [done|]. unfold payload in E. injection E as -> _ _ _ _. done.
  - destruct q as [|b q]; [done|]. destruct sim_drive0 as (x & Hx & Hd). destruct (Hb b x) as (x' & Hx' & E); [set_solver|done|].
    exists x'. split; [done|]. unfold drive_ok, req_of, payload in *. injection E as -> -> -> _ ->. done.
Qed.

Lemma sim_return b s irq c a q v : sim (Sys s irq c) (Spec a q v) -> b ∈ c -> b ∉ id_sleep s ->
  b ∈ v /\ iderw_wait b s = Ret true s /\ sim (Sys s irq (c ∖ {[b]})) (Spec a q (v ∖ {[b]})).
Proof.
  intros [] Hb Hs. cbn in *. assert (Hv : b ∈ v) by set_solver. split; [done|].
  destruct (sim_served0 b Hv) as (x & Hx & Hf). rewrite <- sim_bufs0 in Hx. split; [by apply (iderw_wait_done b x)|].
  assert (Hbq := sim_disj0 b Hv). split; cbn; try done; set_solver.
Qed.

Lemma sim_spurious s irq c p : sim (Sys s irq c) p -> id_queue s = None -> ideintr polls s = Ret tt s.
Proof. intros _ E. unfold ideintr, get, bind. by rewrite E. Qed.

(** The handler serves the head of the queue as the specification does. *)
Lemma serve_ok b x o s a q v : id_queue s = Some b -> id_qnext s !! b = Some o -> id_bufs s = bufs a -> bufs a !! b = Some x ->
  unserved x -> disksize a = FSSIZE -> drive_ok (disk a) x true (id_dev s) -> exists y d' a',
  pstep (if ata_err (id_dev s) then EFail b else EServe b) (Spec a (b :: q) v) (Spec a' q (v ∪ {[b]})) /\
  bufs a' = <[b := served y x]> (bufs a) /\ disksize a' = FSSIZE /\
  ideintr polls s = start_next o (served_state b (served y x) o d' s) /\ ata_at d' = Idle /\ ata_disk d' true = disk a'.
Proof.
  intros Hq Ho Hs Hxa (Hl & Hf & H1 & Hn) Hz Hd. pose proof Hxa as Hx. rewrite <- Hs in Hx. unfold drive_ok in Hd. destruct (ata_err (id_dev s)) eqn:He.
  - destruct Hd as [Ha Hk]. destruct (dirtyf (b_flags x)) eqn:Hf'.
    + exists (b_data x), (id_dev s). eexists. split; [apply (p_fail b x a (ata_disk (id_dev s) true)); [done|by rewrite Hf']|].
      split; [done|]. split; [done|]. split; [by apply ideintr_write|]. done.
    + destruct (ideintr_read b x o true [] s Hq Hx Ho Hf' He Ha) as (d' & E & Ha' & Hd').
      eexists _, d', _. split; [apply (p_fail b x a (disk a)); [done|by rewrite Hf']|]. split; [done|]. split; [done|]. split; [exact E|]. split; [done|]. by rewrite Hd'.
  - assert (Hb : bufat a b = x) by (unfold bufat; rewrite <- Hs; by apply nth_lookup_Some). destruct (dirtyf (b_flags x)) eqn:Hf'; destruct Hd as [Ha Hk].
    + exists (b_data x), (id_dev s). eexists. split; [apply p_serve; unfold Bio.iderw; rewrite Hb, Hl, Hf, H1, Hz, land_dirty, Hf'; replace (FSSIZE <=? b_blockno x) with false by (symmetry; apply Z.leb_gt; lia); reflexivity|].
      cbn. split; [by destruct x|]. split; [done|]. split; [by apply ideintr_write|]. done.
    + destruct (ideintr_read b x o false _ s Hq Hx Ho Hf' He Ha) as (d' & E & Ha' & Hd').
      eexists _, d', _. split; [apply p_serve; unfold Bio.iderw; rewrite Hb, Hl, Hf, H1, Hz, land_dirty, Hf'; replace (FSSIZE <=? b_blockno x) with false by (symmetry; apply Z.leb_gt; lia); reflexivity|].
      cbn. split; [unfold served; by rewrite flags_clean|]. split; [done|]. split; [exact E|]. split; [done|]. by rewrite Hd'.
Qed.

Lemma served_flags y x : (Z.land (b_flags (served y x)) (Z.lor B_VALID B_DIRTY) =? B_VALID) = true.
Proof.
  rewrite land_valid_dirty. unfold served. cbn [b_flags with_flags]. by rewrite validf_set, dirtyf_clear.
Qed.

Lemma next_ok b x o q d s a : chain (id_qnext s) o q -> b ∉ q -> id_bufs s = bufs a ->
  (forall e, e ∈ q -> exists x, bufs a !! e = Some x /\ unserved x) ->
  ata_at d = Idle -> ata_disk d true = disk a -> exists d',
  start_next o (served_state b x o d s) = Ret tt (served_state b x o d' s) /\
  head_ok (set_bufs (<[b := x]> (bufs a)) a) q false d'.
Proof.
  intros Hq Hb Hs Hu Ha Hd. destruct q as [|e q]; cbn in Hq.
  - subst o. exists d. split; [done|]. cbn. by rewrite Ha.
  - destruct Hq as [-> _]. destruct (Hu e) as (z & Hz & Hu'); [set_solver|].
    assert (He : <[b := x]> (bufs a) !! e = Some z) by (rewrite list_lookup_insert_ne; [done|set_solver]).
    destruct (idestart_ok e z (served_state b x (Some e) d s)) as (d' & E & Ha' & Hd'); [cbn; by rewrite Hs|apply Hu'|cbn; by rewrite Ha|].
    exists d'. split; [exact E|]. exists z. split; [done|]. split; [done|]. rewrite Hd'. done.
Qed.

Lemma sim_intr b s c p : sim (Sys s true c) p -> id_queue s = Some b -> exists s' p',
  ideintr polls s = Ret tt s' /\ pstep (if ata_err (id_dev s) then EFail b else EServe b) p p' /\ sim (Sys s' false c) p'.
Proof.
  destruct p as [a q v]. intros [] Hb. cbn [y_ide y_irq y_calls p_bio p_pending p_served] in *.
  destruct q as [|b' q]; [cbn in sim_chain0; congruence|]. rewrite Hb in sim_chain0. destruct sim_chain0 as [[= <-] (o & Ho & Hq)].
  apply NoDup_cons in sim_nodup0 as [Hbq Hn]. destruct sim_drive0 as (x & Hx & Hd).
  destruct (sim_pending0 b) as (x' & Hx' & Hu); [set_solver|]. rewrite Hx in Hx'. injection Hx' as <-.
  destruct (serve_ok b x o s a q v) as (y & d & a' & Ea & Hba & Hsz & E & Ha & Hk); try done.
  destruct (next_ok b (served y x) o q d s (set_bufs (bufs a) a')) as (d' & E' & Hh); try done.
  { intros e He. apply sim_pending0. set_solver. }
  exists (served_state b (served y x) o d' s), (Spec a' q (v ∪ {[b]})). split; [by rewrite E|]. split; [exact Ea|].
  assert (Hset : forall e, bufs a' !! e = if decide (e = b) then Some (served y x) else bufs a !! e).
  { intros e. rewrite Hba. case_decide; subst; [by apply list_lookup_insert_eq; eapply lookup_lt_Some|by rewrite list_lookup_insert_ne]. }
  split; cbn [y_ide y_irq y_calls p_bio p_pending p_served served_state id_bufs id_qnext id_queue id_dev id_sleep id_havedisk1]; try done.
  - by rewrite Hba, sim_bufs0.
  - by rewrite length_insert.
  - rewrite sim_sleep0. apply set_eq. intros e. set_solver.
  - rewrite sim_calls0. set_solver.
  - intros e He. set_solver.
  - intros e He. rewrite Hset. rewrite decide_False by set_solver. apply sim_pending0. set_solver.
  - intros e He. rewrite Hset. case_decide; [exists (served y x); split; [done|apply served_flags]|]. apply sim_served0. set_solver.
  - destruct a'; cbn in *. by rewrite Hba.
Qed.

Lemma sim_step e y y' p : sim y p -> dstep e y y' -> exists p', pruns p (option_list e) p' /\ sim y' p'.
Proof.
  assert (H1 : forall p e p', pstep e p p' -> pruns p [e] p').
  { intros p0 e0 p1 Hp. apply (pr_snoc p0 [] p0); [constructor|done]. }
  destruct p as [a q v]. intros Hy Hd. destruct Hd as [b x r s s' irq c Hx Hu Hb E|bad s d' c Hf Hr|b s s' c Hb E|s s' irq c Hb E|b s s' irq c Hb Hs E|b s s' irq c Hb Hs E|l s irq c Hl].
  - destruct (sim_call b x s irq c a q v) as (s2 & E2 & Hy2); try done. rewrite E2 in E. injection E as <- <-.
    eexists. split; [apply H1|exact Hy2]. destruct Hy; cbn in *. apply (p_call b x); [by rewrite <- sim_bufs0|done|set_solver|set_solver].
  - eexists. split; [constructor|]. by eapply sim_finish.
  - destruct (sim_intr b s c _ Hy Hb) as (s2 & p' & E2 & Hp & Hy2). rewrite E2 in E. injection E as <-. eauto.
  - rewrite (sim_spurious _ _ _ _ Hy Hb) in E. injection E as <-. eexists. split; [constructor|done].
  - destruct (sim_return b s irq c a q v Hy Hb Hs) as (Hv & E2 & Hy2). rewrite E2 in E. injection E as <-.
    eexists. split; [apply H1; by constructor|done].
  - destruct (sim_return b s irq c a q v Hy Hb Hs) as (Hv & E2 & _). congruence.
  - destruct (sim_client l s irq c a q v Hy Hl) as (Hc & Hy2). eexists. split; [apply H1; by constructor|done].
Qed.

Lemma pruns_app p l p1 l' p2 : pruns p l p1 -> pruns p1 l' p2 -> pruns p (l ++ l') p2.
Proof.
  intros H1 H2. induction H2 as [|p1 l' p2 e p3 _ IH Hp]; [by rewrite app_nil_r|]. rewrite app_assoc. econstructor; eauto.
Qed.

Lemma sim_runs y l y' p : druns y l y' -> sim y p -> exists p', pruns p l p' /\ sim y' p'.
Proof.
  intros Hd Hy. induction Hd as [|y l y1 e y2 _ IH Hd]; [exists p; split; [constructor|done]|].
  destruct (IH Hy) as (p1 & Hp1 & Hy1). destruct (sim_step _ _ _ _ Hy1 Hd) as (p2 & Hp2 & Hy2).
  exists p2. split; [by eapply pruns_app|done].
Qed.

(** ** Initialisation *)

Lemma probe_ok n lo s : (0 < n)%nat -> (ata_busy (id_dev s) < n)%nat -> settled (ata_at (id_dev s)) -> exists d',
  for_ n lo (fun _ => let! r := inb 0x1f7 in ret (if negb (r =? 0) then Some tt else None)) s = Ret (Some tt) (set_dev d' s) /\
  ata_at d' = ata_at (id_dev s) /\ ata_disk d' = ata_disk (id_dev s).
Proof.
  revert lo s. induction n as [|n IH]; intros lo s Hn Hb Hs; [lia|]. cbn [for_].
  destruct (ata_inb 0x1f7 (id_dev s)) as [r d'] eqn:E. destruct (ata_inb_ok _ _ _ E) as (Ha & Hd & _ & Hr).
  erewrite bind_Ret by (unfold bind, inb; rewrite E; reflexivity). destruct (Z.eqb_spec r 0) as [->|Hr0]; cbn [negb].
  - change (Z.land 0 _ =? IDE_DRDY) with false in Hr. specialize (Hr Hs).
    destruct (IH (lo + 1) (set_dev d' s)) as (d2 & E2 & H1 & H2); cbn; [lia|lia|by rewrite Ha|].
    exists d2. rewrite E2. cbn in *. by rewrite H1, H2.
  - exists d'. done.
Qed.

Lemma ideinit_ok s : (polls <= 1000)%nat -> settled (ata_at (id_dev s)) -> exists d',
  ideinit polls s = Ret tt (set_dev d' (set_havedisk1 true s)) /\ settled (ata_at d') /\ ata_disk d' = ata_disk (id_dev s).
Proof.
  intros Hp Hs. destruct (idewait_ok false s Hs) as (d1 & E1 & Ha1 & Hd1).
  assert (Hport : task_port 0x1f6) by (unfold task_port; set_solver).
  destruct (ata_outb_regs 0x1f6 (Z.lor 0xe0 (Z.shiftl 1 4)) d1 Hport) as (_ & Hd2 & Ha2). set (d2 := ata_outb _ _ _) in *.
  assert (Hs2 : settled (ata_at d2)) by (by rewrite Ha2, Ha1). assert (Hb := ata_settles d2 Hs2).
  destruct (probe_ok 1000 0 (set_dev d2 s)) as (d3 & E3 & Ha3 & Hd3); [lia|cbn; lia|done|].
  destruct (ata_outb_regs 0x1f6 (Z.lor 0xe0 (Z.shiftl 0 4)) d3 Hport) as (_ & Hd4 & Ha4).
  eexists. split; [|split].
  - unfold ideinit. rewrite (bind_Ret _ _ _ _ _ E1). unfold outb at 1, modify at 1, bind at 1.
    change (set_dev _ (set_dev d1 s)) with (set_dev d2 s). rewrite (bind_Ret _ _ _ _ _ E3). reflexivity.
  - cbn. rewrite Ha4, Ha3. done.
  - cbn. rewrite Hd4, Hd3. cbn. by rewrite Hd2.
Qed.

(** The state before [ideinit]: no request, a drive at rest. *)
Definition fresh s : Prop :=
  id_queue s = None /\ length (id_qnext s) = length (id_bufs s) /\ id_sleep s = ∅ /\ settled (ata_at (id_dev s)).
Definition spec0 (w : list (Z * block)) s : spec := Spec (Bio (id_bufs s) (ata_disk (id_dev s) true) FSSIZE w) [] ∅.

Lemma sim_init w s : (polls <= 1000)%nat -> fresh s -> exists s', ideinit polls s = Ret tt s' /\ sim (Sys s' false ∅) (spec0 w s).
Proof.
  intros Hp (Hq & Hl & Hw & Hs). destruct (ideinit_ok s Hp Hs) as (d' & E & Hs' & Hd). eexists. split; [exact E|].
  split; cbn; try done; try (by apply NoDup_nil_2); try set_solver. by rewrite Hd.
Qed.

(** ** The theorems *)

(** C13: refinement.  After [ideinit], every run of the driver - threads that
    call [iderw] and sleep, the drive that works, may fail a request and raises
    interrupts, [ideintr], clients that use the buffers no call is out for - is a
    run of the specification with the same events: the requests are served in
    the order of the calls, on the same buffers and the same disk, each one that
    the drive does not fail by [iderw] of the memory disk; one that it fails is
    reported as served, a read with the old data, a write with anything in its
    sector and no other sector changed; and a call returns only when its request
    is served.  The hypotheses: the drive keeps the ATA laws [AtaOk], is at rest
    and answers within 1000 polls, and the queue is empty. *)
Theorem ide_refines_memide w s : (polls <= 1000)%nat -> fresh s ->
  exists s0, ideinit polls s = Ret tt s0 /\
  forall l y, druns (Sys s0 false ∅) l y -> exists p, pruns (spec0 w s) l p /\
    id_bufs (y_ide y) = bufs (p_bio p) /\ y_calls y = list_to_set (p_pending p) ∪ p_served p /\
    chain (id_qnext (y_ide y)) (id_queue (y_ide y)) (p_pending p) /\
    (id_queue (y_ide y) = None -> ata_disk (id_dev (y_ide y)) true = disk (p_bio p)).
Proof.
  intros Hp Hs. destruct (sim_init w s Hp Hs) as (s0 & E & Hy0). exists s0. split; [done|].
  intros l y Hr. destruct (sim_runs _ _ _ _ Hr Hy0) as (p & Hpr & Hy). exists p. split; [done|]. destruct Hy.
  repeat split; try done. intros Hq. rewrite Hq in *. destruct (p_pending p); [apply sim_drive0|by destruct sim_chain0].
Qed.

(** C35: no wakeup is lost and nothing panics.  In every state the driver
    reaches, (1) a call for a locked buffer that has something to do and no
    call out is queued and its thread sleeps; (2) [ideintr] returns when the
    drive has finished; (3) a thread that was woken finds its request served
    and returns; (4) while a thread sleeps, either the drive works on the head
    of the queue or its interrupt is pending. *)
Theorem ide_no_lost_wakeup s s0 l y : (polls <= 1000)%nat -> fresh s -> ideinit polls s = Ret tt s0 ->
  druns (Sys s0 false ∅) l y ->
  (forall b x, id_bufs (y_ide y) !! b = Some x -> unserved x -> b ∉ y_calls y ->
     exists s', Ide.iderw polls b (y_ide y) = Ret false s' /\ b ∈ id_sleep s') /\
  (y_irq y = true -> exists s', ideintr polls (y_ide y) = Ret tt s') /\
  (forall b, b ∈ y_calls y -> b ∉ id_sleep (y_ide y) -> iderw_wait b (y_ide y) = Ret true (y_ide y)) /\
  (forall b, b ∈ id_sleep (y_ide y) -> b ∈ y_calls y /\ exists c x,
     id_queue (y_ide y) = Some c /\ id_bufs (y_ide y) !! c = Some x /\
     (y_irq y = true \/ ata_at (id_dev (y_ide y)) = Busy (req_of x))).
Proof.
  intros Hp Hs E Hr. destruct (sim_init [] s Hp Hs) as (s1 & E1 & Hy0). rewrite E in E1. injection E1 as <-.
  destruct (sim_runs _ _ _ _ Hr Hy0) as ([a q v] & _ & Hy). destruct y as [t irq c]. cbn [y_ide y_irq y_calls]. repeat split.
  - intros b x Hx Hu Hb. destruct (sim_call b x t irq c a q v) as (s' & E' & Hy'); try done. exists s'. split; [done|].
    destruct Hy'. cbn in *. rewrite sim_sleep0, list_to_set_app_L. set_solver.
  - intros ->. destruct (id_queue t) as [b|] eqn:Hq.
    + destruct (sim_intr b t c _ Hy Hq) as (s' & _ & E' & _). eauto.
    + exists t. by eapply sim_spurious.
  - intros b Hb Hw. by apply (sim_return b t irq c a q v).
  - destruct Hy. cbn in *. set_solver.
  - destruct Hy. cbn in *. destruct q as [|c' q]; [set_solver|]. destruct sim_chain0 as [-> _], sim_drive0 as (x & Hx & Hd).
    exists c', x. rewrite sim_bufs0. repeat split; try done. destruct irq; [by left|right; apply Hd].
Qed.

(** C40: error.  When the drive fails a read, the interrupt handler leaves the
    data of the buffer as it was, sets [B_VALID] all the same and wakes the
    reader, whose [iderw] returns: the caller has no way to see the error. *)
Theorem failed_read_valid b x s d' : id_queue s = Some b -> id_qnext s !! b = Some None -> id_bufs s !! b = Some x ->
  dirtyf (b_flags x) = false -> ata_at (id_dev s) = Busy (req_of x) -> ata_finish true (id_dev s) d' ->
  exists s', ideintr polls (set_dev d' s) = Ret tt s' /\ b ∉ id_sleep s' /\ iderw_wait b s' = Ret true s' /\
    b_data <$> id_bufs s' !! b = Some (b_data x).
Proof.
  intros Hq Ho Hx Hf Ha Hd. unfold req_of in Ha. rewrite Hf in Ha. destruct (ata_finish_fail _ _ _ _ Ha Hd) as (H1 & _ & H2).
  destruct (ideintr_read b x None true zero_block (set_dev d' s)) as (d2 & E & _); try done.
  eexists. split; [exact E|]. split; [cbn; set_solver|].
  assert (Hl : <[b := served (b_data x) x]> (id_bufs s) !! b = Some (served (b_data x) x))
    by (by apply list_lookup_insert_eq; eapply lookup_lt_Some).
  split; [eapply iderw_wait_done; [exact Hl|apply served_flags]|]. cbn. rewrite Hl. done.
Qed.
End driver.

(** ** A drive

    A concrete drive that answers at once, on which the theorems are applied. *)
Record drive := Drive { dv_disk0 : gmap Z block; dv_disk1 : gmap Z block; dv_regs : gmap Z Z; dv_at : ata_phase; dv_err : bool }.

Definition dv_disk (d : drive) (v : bool) : gmap Z block := if v then dv_disk1 d else dv_disk0 d.
Definition dv_go (a : ata_phase) (d : drive) : drive := Drive (dv_disk0 d) (dv_disk1 d) (dv_regs d) a (dv_err d).
Definition dv_outb (p v : Z) (d : drive) : drive :=
  if p =? 0x1f7 then
    let g := dv_regs d in
    dv_go (if v =? IDE_CMD_WRITE then Want (reg_drv g) (reg_lba g) else Busy (Rd (reg_drv g) (reg_lba g))) d
  else Drive (dv_disk0 d) (dv_disk1 d) (<[p := v]> (dv_regs d)) (dv_at d) (dv_err d).
Definition dv_inb (p : Z) (d : drive) : Z * drive :=
  (match dv_at d with Idle | Ready _ => if dv_err d then 0x41 else 0x40 | _ => 0x80 end, d).
Definition dv_outsl (x : block) (d : drive) : drive :=
  match dv_at d with Want v l => dv_go (Busy (Wr v l x)) d | _ => d end.
Definition dv_insl (d : drive) : block * drive :=
  match dv_at d with Ready x => (x, dv_go Idle d) | _ => ([], d) end.
Definition dv_finish (e : bool) (d : drive) : drive :=
  match dv_at d with
  | Busy (Rd v l) => Drive (dv_disk0 d) (dv_disk1 d) (dv_regs d) (if e then Idle else Ready (default zero_block (dv_disk d v !! l))) e
  | Busy (Wr v l x) =>
      if e then Drive (dv_disk0 d) (dv_disk1 d) (dv_regs d) Idle true
      else Drive (if v then dv_disk0 d else <[l := x]> (dv_disk0 d)) (if v then <[l := x]> (dv_disk1 d) else dv_disk1 d) (dv_regs d) Idle false
  | _ => d
  end.

#[export] Instance drive_ata : Ata drive := {| ata_outb := dv_outb; ata_inb := dv_inb; ata_outsl := dv_outsl; ata_insl := dv_insl |}.

#[export, refine] Instance drive_ata_ok : AtaOk drive 1 := {|
  ata_disk := dv_disk; ata_regs := dv_regs; ata_at := dv_at; ata_err := dv_err; ata_busy := fun _ => 0%nat;
  ata_finish := fun e d d' => d' = dv_finish e d
|}.
Proof.
  - intros p v d Hp. cbn. unfold dv_outb. destruct (Z.eqb_spec p 0x1f7) as [->|]; [|done]. unfold task_port in Hp. set_solver.
  - done.
  - done.
  - intros x d v l E. cbn. unfold dv_outsl. by rewrite E.
  - intros d x E. cbn. unfold dv_insl. rewrite E. eauto.
  - intros d r d' [= <- <-]. destruct (dv_at d), (dv_err d); cbn; repeat split; solve [done|intros []].
  - intros. lia.
  - intros d d' v l E ->. unfold dv_finish. rewrite E. by destruct d.
  - intros d d' v l x E ->. unfold dv_finish. rewrite E. by destruct d, v.
  - intros d d' v l E ->. unfold dv_finish. rewrite E. by destruct d.
  - intros d d' v l x E ->. unfold dv_finish. rewrite E. by destruct d, v.
Defined.

(** Buffer 0 holds data for block 5 to be written, buffer 1 is to read it. *)
Definition wr_buf : buf := Buf B_DIRTY 1 5 true 1 0 0 [7].
Definition rd_buf : buf := Buf 0 1 5 true 1 0 0 [0].
Definition two_bufs : ide drive := Ide [wr_buf; rd_buf] [None; None] None false (Drive ∅ ∅ ∅ Idle false) ∅.

Lemma two_fresh : fresh 1 two_bufs.
Proof. done. Qed.

(** The state after [ideinit]. *)
Definition two_ready : ide drive := set_havedisk1 true (set_dev (Drive ∅ ∅ {[0x1f6 := 0xe0]} Idle false) two_bufs).

Definition after {A} (o : outcome (ide drive) A) : ide drive := match o with Ret _ s => s | _ => two_bufs end.
Definition finish (s : ide drive) : ide drive := set_dev (dv_finish false (id_dev s)) s.

Definition s_call0 : ide drive := after (Ide.iderw 1 0 two_ready).
Definition s_call1 : ide drive := after (Ide.iderw 1 1 s_call0).
Definition s_serve0 : ide drive := after (ideintr 1 (finish s_call1)).
Definition s_serve1 : ide drive := after (ideintr 1 (finish s_serve0)).

Definition two_end : sys := Sys s_serve1 false ((∅ ∪ {[0%nat]} ∪ {[1%nat]}) ∖ {[1%nat]}).

Lemma two_init : ideinit 1 two_bufs = Ret tt two_ready.
Proof. vm_compute. reflexivity. Qed.
Lemma two_data : b_data <$> id_bufs (y_ide two_end) !! 1%nat = Some [7].
Proof. vm_compute. reflexivity. Qed.

Lemma intr_served b (s s' : ide drive) c : id_queue s = Some b -> ideintr 1 s = Ret tt s' -> ata_err (id_dev s) = false ->
  dstep 1 (Some (EServe b)) (Sys s true c) (Sys s' false c).
Proof. intros H1 H2 H3. pose proof (d_intr 1 b s s' c H1 H2) as Hd. by rewrite H3 in Hd. Qed.
Lemma two_run : druns 1 (Sys two_ready false ∅) [ECall 0; ECall 1; EServe 0; EServe 1; EReturn 1] two_end.
Proof.
  unfold two_end.
  assert (U0 : unserved wr_buf) by (vm_compute; repeat split; congruence).
  assert (U1 : unserved rd_buf) by (vm_compute; repeat split; congruence).
  change [ECall 0; ECall 1; EServe 0; EServe 1; EReturn 1] with
    ((((((([] ++ option_list (Some (ECall 0))) ++ option_list (Some (ECall 1))) ++ option_list None) ++
       option_list (Some (EServe 0))) ++ option_list None) ++ option_list (Some (EServe 1))) ++ option_list (Some (EReturn 1))).
  eapply dr_snoc; [|apply (d_return 1 1 s_serve1); [set_solver|by apply (bool_decide_unpack _)|vm_compute; reflexivity]].
  eapply dr_snoc; [|apply (intr_served 1 (finish s_serve0)); vm_compute; reflexivity].
  eapply dr_snoc; [|apply (d_finish 1 false); [reflexivity|eexists; vm_compute; reflexivity]].
  eapply dr_snoc; [|apply (intr_served 0 (finish s_call1)); vm_compute; reflexivity].
  eapply dr_snoc; [|apply (d_finish 1 false); [reflexivity|eexists; vm_compute; reflexivity]].
  eapply dr_snoc; [|apply (d_call 1 1 rd_buf false s_call0); [reflexivity|exact U1|set_solver|vm_compute; reflexivity]].
  eapply dr_snoc; [|apply (d_call 1 0 wr_buf false two_ready); [reflexivity|exact U0|set_solver|vm_compute; reflexivity]].
  constructor.
Qed.

Lemma two_awake : 0%nat ∈ y_calls two_end /\ 0%nat ∉ id_sleep (y_ide two_end).
Proof. split; by apply (bool_decide_unpack _). Qed.

(** The run is one of the specification; the reader got what the writer wrote. *)
Lemma ide_refines_memide_witness : fresh 1 two_bufs /\ ideinit 1 two_bufs = Ret tt two_ready /\
  b_data <$> id_bufs (y_ide two_end) !! 1%nat = Some [7] /\
  exists p, pruns (spec0 1 [] two_bufs) [ECall 0; ECall 1; EServe 0; EServe 1; EReturn 1] p /\
    id_bufs (y_ide two_end) = bufs (p_bio p).
Proof.
  split; [exact two_fresh|]. split; [exact two_init|]. split; [exact two_data|].
  destruct (ide_refines_memide 1 [] two_bufs ltac:(lia) two_fresh) as (s0 & E0 & Hr). rewrite two_init in E0. injection E0 as <-.
  destruct (Hr _ _ two_run) as (p & Hp & Hb & _). exists p. split; [exact Hp|exact Hb].
Defined.

(** After the run the writer, woken but not yet run, returns. *)
Lemma ide_no_lost_wakeup_witness : iderw_wait 0 (y_ide two_end) = Ret true (y_ide two_end).
Proof.
  destruct (ide_no_lost_wakeup 1 _ _ _ _ ltac:(lia) two_fresh two_init two_run) as (_ & _ & Hw & _).
  exact (Hw 0%nat (proj1 two_awake) (proj2 two_awake)).
Defined.

(** The reader alone, on a drive that fails. *)
Definition one_call : ide drive := after (Ide.iderw 1 1 two_ready).
Lemma failed_read_valid_witness : exists s', ideintr 1 (set_dev (dv_finish true (id_dev one_call)) one_call) = Ret tt s' /\
  iderw_wait 1 s' = Ret true s' /\ b_data <$> id_bufs s' !! 1%nat = Some [0].
Proof.
  destruct (failed_read_valid 1 1 rd_buf one_call (dv_finish true (id_dev one_call))) as (s' & E & _ & Hw & Hd);
    [vm_compute; reflexivity..|]. exact (ex_intro _ s' (conj E (conj Hw Hd))).
Defined.
