(* ===== verification/Fs.v ===== *)
(** * The file system: [fs.c]

    Every function of [fs.c], over the block layer of [Blocks.v].  The state
    is the block layer, the in-memory super block and the inode cache.  A
    [struct inode *] is an index into the cache.  [addrs] is kept as its 52
    raw bytes, because a small file (type [T_SFILE]) stores file data in
    place of block numbers.  Each critical section of [icache.lock] is one
    atomic step; the sleep lock of an inode is its [i_locked] field.  Trace
    output ([cprintf]) is left out. *)

From S2P Require Import Prelude CString Bio Layout Blocks.

Definition I_VALID : Z := 2.
Definition ADDRS_SIZE : Z := 4 * (NDIRECT + 1).

Record inode := Inode {
  i_dev : Z; i_inum : Z; i_ref : Z; i_locked : bool; i_flags : Z;
  i_type : Z; i_major : Z; i_minor : Z; i_nlink : Z; i_size : Z;
  i_addrs : list Z
}.

Record fs (S : Type) := Fs { f_bl : S; f_sb : superblock; f_inodes : list inode }.
Arguments Fs {S} f_bl f_sb f_inodes.
Arguments f_bl {S} _.
Arguments f_sb {S} _.
Arguments f_inodes {S} _.

Definition set_bl {S} (b : S) (s : fs S) : fs S := Fs b (f_sb s) (f_inodes s).
Definition set_sb {S} (sb : superblock) (s : fs S) : fs S := Fs (f_bl s) sb (f_inodes s).
Definition set_inodes {S} (l : list inode) (s : fs S) : fs S := Fs (f_bl s) (f_sb s) l.

Definition with_ref (r : Z) (ino : inode) : inode :=
  Inode (i_dev ino) (i_inum ino) r (i_locked ino) (i_flags ino) (i_type ino) (i_major ino) (i_minor ino) (i_nlink ino) (i_size ino) (i_addrs ino).
Definition with_ilocked (l : bool) (ino : inode) : inode :=
  Inode (i_dev ino) (i_inum ino) (i_ref ino) l (i_flags ino) (i_type ino) (i_major ino) (i_minor ino) (i_nlink ino) (i_size ino) (i_addrs ino).
Definition with_iflags (f : Z) (ino : inode) : inode :=
  Inode (i_dev ino) (i_inum ino) (i_ref ino) (i_locked ino) f (i_type ino) (i_major ino) (i_minor ino) (i_nlink ino) (i_size ino) (i_addrs ino).
Definition with_type (t : Z) (ino : inode) : inode :=
  Inode (i_dev ino) (i_inum ino) (i_ref ino) (i_locked ino) (i_flags ino) t (i_major ino) (i_minor ino) (i_nlink ino) (i_size ino) (i_addrs ino).
Definition with_nlink (n : Z) (ino : inode) : inode :=
  Inode (i_dev ino) (i_inum ino) (i_ref ino) (i_locked ino) (i_flags ino) (i_type ino) (i_major ino) (i_minor ino) n (i_size ino) (i_addrs ino).
Definition with_devno (ma mi : Z) (ino : inode) : inode :=
  Inode (i_dev ino) (i_inum ino) (i_ref ino) (i_locked ino) (i_flags ino) (i_type ino) ma mi (i_nlink ino) (i_size ino) (i_addrs ino).
Definition with_size (z : Z) (ino : inode) : inode :=
  Inode (i_dev ino) (i_inum ino) (i_ref ino) (i_locked ino) (i_flags ino) (i_type ino) (i_major ino) (i_minor ino) (i_nlink ino) z (i_addrs ino).
Definition with_addrs (l : list Z) (ino : inode) : inode :=
  Inode (i_dev ino) (i_inum ino) (i_ref ino) (i_locked ino) (i_flags ino) (i_type ino) (i_major ino) (i_minor ino) (i_nlink ino) (i_size ino) l.

(** [ip->addrs[k]] read and written as a word. *)
Definition addr_get (ino : inode) (k : Z) : Z := rd32 (i_addrs ino) (4 * k).
Definition addr_set (k v : Z) (ino : inode) : inode := with_addrs (wr32 (i_addrs ino) (4 * k) v) ino.

(** [struct dinode] at byte [o] of a block. *)
Definition dinode_off (inum : Z) : Z := DINODE_SIZE * (inum mod IPB).
Definition dinode_load (d : block) (o : Z) (ino : inode) : inode :=
  Inode (i_dev ino) (i_inum ino) (i_ref ino) (i_locked ino) (i_flags ino)
    (i16 (rd16 d o)) (i16 (rd16 d (o + 2))) (i16 (rd16 d (o + 4))) (i16 (rd16 d (o + 6)))
    (rd32 d (o + 8)) (take (Z.to_nat ADDRS_SIZE) (drop (Z.to_nat (o + 12)) d)).
Definition dinode_store (ino : inode) (o : Z) (d : block) : block :=
  let d := wr16 d o (i_type ino) in
  let d := wr16 d (o + 2) (i_major ino) in
  let d := wr16 d (o + 4) (i_minor ino) in
  let d := wr16 d (o + 6) (i_nlink ino) in
  let d := wr32 d (o + 8) (i_size ino) in
  splice (Z.to_nat (o + 12)) (i_addrs ino) d.

(** The device switch table of [file.h]; its entries are installed by the
    device drivers. *)
Class DevSw (S : Type) := {
  dev_read : Z -> option (nat -> Z -> M (fs S) (Z * list Z));
  dev_write : Z -> option (nat -> list Z -> Z -> M (fs S) Z)
}.

Section ops.
Context {S : Type} `{BlockLayer S} `{DevSw S}.

Definition onbl {A} (m : M S A) : M (fs S) A := zoom f_bl set_bl m.
Definition fbread (dev b : Z) : M (fs S) nat := onbl (bl_bread dev b).
Definition fdata (bp : nat) : M (fs S) block := gets (fun s => bl_data (f_bl s) bp).
Definition fstore (bp : nat) (d : block) : M (fs S) unit := onbl (bl_store bp d).
Definition flog_write (bp : nat) : M (fs S) unit := onbl (bl_log_write bp).
Definition fbrelse (bp : nat) : M (fs S) unit := onbl (bl_brelse bp).

Definition geti (ip : nat) : M (fs S) inode := let! s := get in the "inode" (f_inodes s !! ip).
Definition modi (ip : nat) (g : inode -> inode) : M (fs S) unit :=
  modify (fun s => set_inodes (alter g ip (f_inodes s)) s).

(** ** Blocks *)

Definition readsb (dev : Z) : M (fs S) superblock :=
  let! bp := fbread dev 1 in
  let! d := fdata bp in
  fbrelse bp ;;;
  ret (sb_decode d).

Definition bzero (dev bno : Z) : M (fs S) unit :=
  let! bp := fbread dev bno in
  fstore bp (replicate (Z.to_nat BSIZE) 0) ;;;
  flog_write bp ;;;
  fbrelse bp.

(** [m = 1 << (bi % 8)] *)
Definition bmask (bi : Z) : Z := Z.shiftl 1 (bi mod 8).
Definition byte_at (d : block) (k : Z) : Z := Kstring.nthZ d k.
Definition byte_put (d : block) (k v : Z) : block := <[Z.to_nat k := u8 v]> d.

(** [for(bi = 0; bi < BPB && b + bi < sb.size; bi++) if((bp->data[bi/8] & m) == 0)]:
    the first clear bit among the next [n]. *)
Fixpoint find_free (n : nat) (bi : Z) (d : block) : option Z :=
  match n with
  | O => None
  | Datatypes.S n' =>
      if Z.land (byte_at d (bi / 8)) (bmask bi) =? 0 then Some bi else find_free n' (bi + 1) d
  end.

Definition balloc (dev : Z) : M (fs S) Z :=
  let! s := get in
  let size := sb_size (f_sb s) in
  let! r := for_ (Z.to_nat ((size + BPB - 1) / BPB)) 0 (fun k =>
    let b := k * BPB in
    let! bp := fbread dev (BBLOCK b (f_sb s)) in
    let! d := fdata bp in
    match find_free (Z.to_nat (Z.min BPB (size - b))) 0 d with
    | Some bi =>
        fstore bp (byte_put d (bi / 8) (Z.lor (byte_at d (bi / 8)) (bmask bi))) ;;;
        flog_write bp ;;;
        fbrelse bp ;;;
        bzero dev (b + bi) ;;;
        ret (Some (b + bi))
    | None => fbrelse bp ;;; ret None
    end) in
  match r with
  | Some b => ret b
  | None => panic "balloc: out of blocks"
  end.

Definition bfree (dev b : Z) : M (fs S) unit :=
  let! sb := readsb dev in
  modify (set_sb sb) ;;;
  let! bp := fbread dev (BBLOCK b sb) in
  let bi := b mod BPB in
  let! d := fdata bp in
  if Z.land (byte_at d (bi / 8)) (bmask bi) =? 0 then panic "freeing free block"
  else
    fstore bp (byte_put d (bi / 8) (Z.land (byte_at d (bi / 8)) (Z.lnot (bmask bi)))) ;;;
    flog_write bp ;;;
    fbrelse bp.

(** ** Inodes *)

(** The scan of [iget]: the slot that caches the inode, or the first empty
    slot. *)
Fixpoint iget_scan (l : list inode) (i : nat) (empty : option nat) (dev inum : Z) : nat + option nat :=
  match l with
  | [] => inr empty
  | e :: l =>
      if (0 <? i_ref e) && (i_dev e =? dev) && (i_inum e =? inum) then inl i
      else iget_scan l (Datatypes.S i)
             (match empty with None => if i_ref e =? 0 then Some i else None | Some _ => empty end) dev inum
  end.

Definition iget (dev inum : Z) : M (fs S) nat :=
  let! s := get in
  match iget_scan (f_inodes s) 0 None dev inum with
  | inl ip => modi ip (fun ino => with_ref (i_ref ino + 1) ino) ;;; ret ip
  | inr None => panic "iget: no inodes"
  | inr (Some ip) =>
      modi ip (fun ino => Inode dev inum 1 (i_locked ino) 0 (i_type ino) (i_major ino) (i_minor ino) (i_nlink ino) (i_size ino) (i_addrs ino)) ;;;
      ret ip
  end.

Definition ialloc (dev type : Z) : M (fs S) nat :=
  let! s := get in
  let! r := for_ (Z.to_nat (sb_ninodes (f_sb s) - 1)) 1 (fun inum =>
    let! bp := fbread dev (IBLOCK inum (f_sb s)) in
    let o := dinode_off inum in
    let! d := fdata bp in
    if i16 (rd16 d o) =? 0 then
      fstore bp (wr16 (splice (Z.to_nat o) (replicate (Z.to_nat DINODE_SIZE) 0) d) o type) ;;;
      flog_write bp ;;;
      fbrelse bp ;;;
      let! ip := iget dev inum in
      ret (Some ip)
    else fbrelse bp ;;; ret None) in
  match r with
  | Some ip => ret ip
  | None => panic "ialloc: no inodes"
  end.

Definition iupdate (ip : nat) : M (fs S) unit :=
  let! ino := geti ip in
  let! s := get in
  let! bp := fbread (i_dev ino) (IBLOCK (i_inum ino) (f_sb s)) in
  let! d := fdata bp in
  fstore bp (dinode_store ino (dinode_off (i_inum ino)) d) ;;;
  flog_write bp ;;;
  fbrelse bp.

Definition idup (ip : nat) : M (fs S) nat :=
  modi ip (fun ino => with_ref (i_ref ino + 1) ino) ;;; ret ip.

Definition ilock (p : option nat) : M (fs S) unit :=
  match p with
  | None => panic "ilock"
  | Some ip =>
      let! ino := geti ip in
      if i_ref ino <? 1 then panic "ilock"
      else if i_locked ino then blocked "inode"
      else
        modi ip (with_ilocked true) ;;;
        if Z.land (i_flags ino) I_VALID =? 0 then
          let! s := get in
          let! bp := fbread (i_dev ino) (IBLOCK (i_inum ino) (f_sb s)) in
          let! d := fdata bp in
          modi ip (dinode_load d (dinode_off (i_inum ino))) ;;;
          fbrelse bp ;;;
          modi ip (fun ino => with_iflags (Z.lor (i_flags ino) I_VALID) ino) ;;;
          let! ino := geti ip in
          if i_type ino =? 0 then panic "ilock: no type" else ret tt
        else ret tt
  end.

Definition iunlock (p : option nat) : M (fs S) unit :=
  match p with
  | None => panic "iunlock"
  | Some ip =>
      let! ino := geti ip in
      if negb (i_locked ino) || (i_ref ino <? 1) then panic "iunlock"
      else modi ip (with_ilocked false)
  end.

(** ** Inode content *)

Definition bmap (ip : nat) (bn : Z) : M (fs S) Z :=
  let! ino := geti ip in
  if bn <? NDIRECT then
    let addr := addr_get ino bn in
    if addr =? 0 then
      let! addr := balloc (i_dev ino) in
      modi ip (addr_set bn addr) ;;;
      ret addr
    else ret addr
  else
    let bn := bn - NDIRECT in
    if bn <? NINDIRECT then
      let! ind := (if addr_get ino NDIRECT =? 0 then
                     let! addr := balloc (i_dev ino) in
                     modi ip (addr_set NDIRECT addr) ;;;
                     ret addr
                   else ret (addr_get ino NDIRECT)) in
      let! bp := fbread (i_dev ino) ind in
      let! a := fdata bp in
      let! addr := (if rd32 a (4 * bn) =? 0 then
                      let! addr := balloc (i_dev ino) in
                      let! a := fdata bp in
                      fstore bp (wr32 a (4 * bn) addr) ;;;
                      flog_write bp ;;;
                      ret addr
                    else ret (rd32 a (4 * bn))) in
      fbrelse bp ;;;
      ret addr
    else panic "bmap: out of range".

Definition itrunc (ip : nat) : M (fs S) unit :=
  for_each (Z.to_nat NDIRECT) 0 (fun i =>
    let! ino := geti ip in
    when (negb (addr_get ino i =? 0))
      (bfree (i_dev ino) (addr_get ino i) ;;; modi ip (addr_set i 0))) ;;;
  let! ino := geti ip in
  when (negb (addr_get ino NDIRECT =? 0))
    (let! bp := fbread (i_dev ino) (addr_get ino NDIRECT) in
     for_each (Z.to_nat NINDIRECT) 0 (fun j =>
       let! a := fdata bp in
       when (negb (rd32 a (4 * j) =? 0)) (bfree (i_dev ino) (rd32 a (4 * j)))) ;;;
     fbrelse bp ;;;
     bfree (i_dev ino) (addr_get ino NDIRECT) ;;;
     modi ip (addr_set NDIRECT 0)) ;;;
  modi ip (with_size 0) ;;;
  iupdate ip.

Definition iput (ip : nat) : M (fs S) unit :=
  let! ino := geti ip in
  when ((i_ref ino =? 1) && negb (Z.land (i_flags ino) I_VALID =? 0) && (i_nlink ino =? 0))
    (itrunc ip ;;;
     modi ip (with_type 0) ;;;
     iupdate ip ;;;
     modi ip (with_iflags 0)) ;;;
  modi ip (fun ino => with_ref (i_ref ino - 1) ino).

Definition iunlockput (ip : nat) : M (fs S) unit :=
  iunlock (Some ip) ;;; iput ip.

Record stat := Stat { st_type : Z; st_dev : Z; st_ino : Z; st_nlink : Z; st_size : Z }.
Definition stati (ip : nat) : M (fs S) stat :=
  let! ino := geti ip in
  ret (Stat (i_type ino) (i32 (i_dev ino)) (i_inum ino) (i_nlink ino) (i_size ino)).

(** [n] bytes of [l] from offset [o]. *)
Definition slice (o n : Z) (l : list Z) : list Z := take (Z.to_nat n) (drop (Z.to_nat o) l).

(** [for(tot=0; tot<n; tot+=m, off+=m, dst+=m)]; the loop body runs at most
    [n] times because [m > 0]. *)
Fixpoint readi_loop (fuel : nat) (ip : nat) (tot off n : Z) (dst : list Z) : M (fs S) (list Z) :=
  if tot <? n then
    match fuel with
    | O => undef "fuel"
    | Datatypes.S fuel =>
        let! b := bmap ip (off / BSIZE) in
        let! ino := geti ip in
        let! bp := fbread (i_dev ino) b in
        let m := Z.min (u32 (n - tot)) (BSIZE - off mod BSIZE) in
        let! d := fdata bp in
        fbrelse bp ;;;
        readi_loop fuel ip (u32 (tot + m)) (u32 (off + m)) n (dst ++ slice (off mod BSIZE) m d)
    end
  else ret dst.

(** The return value and the bytes stored at [dst]. *)
Definition readi (ip : nat) (off n : Z) : M (fs S) (Z * list Z) :=
  let! ino := geti ip in
  if i_type ino =? T_DEV then
    if (i_major ino <? 0) || (NDEV <=? i_major ino) then ret (-1, [])
    else match dev_read (i_major ino) with
         | None => ret (-1, [])
         | Some rd => rd ip n
         end
  else if (i_size ino <? off) || (u32 (off + n) <? off) then ret (-1, [])
  else
    let n := if i_size ino <? u32 (off + n) then u32 (i_size ino - off) else n in
    if i_type ino =? T_SFILE then
      if ADDRS_SIZE <? off + n then undef "read past ip->addrs"
      else ret (i32 n, slice off n (i_addrs ino))
    else
      let! dst := readi_loop (Z.to_nat n) ip 0 off n [] in
      ret (i32 n, dst).

Fixpoint writei_loop (fuel : nat) (ip : nat) (src : list Z) (tot off n : Z) : M (fs S) Z :=
  if tot <? n then
    match fuel with
    | O => undef "fuel"
    | Datatypes.S fuel =>
        let! b := bmap ip (off / BSIZE) in
        let! ino := geti ip in
        let! bp := fbread (i_dev ino) b in
        let m := Z.min (u32 (n - tot)) (BSIZE - off mod BSIZE) in
        let! d := fdata bp in
        fstore bp (splice (Z.to_nat (off mod BSIZE)) (take (Z.to_nat m) src) d) ;;;
        flog_write bp ;;;
        fbrelse bp ;;;
        writei_loop fuel ip (drop (Z.to_nat m) src) (u32 (tot + m)) (u32 (off + m)) n
    end
  else ret off.

(** [src] holds the (at least [n]) bytes at the source address. *)
Definition writei (ip : nat) (src : list Z) (off n : Z) : M (fs S) Z :=
  let! ino := geti ip in
  if i_type ino =? T_DEV then
    if (i_major ino <? 0) || (NDEV <=? i_major ino) then ret (-1)
    else match dev_write (i_major ino) with
         | None => ret (-1)
         | Some wr => wr ip src n
         end
  else if (i_size ino <? off) || (u32 (off + n) <? off) then ret (-1)
  else if MAXFILE * BSIZE <? u32 (off + n) then ret (-1)
  else
    let! off :=
      (if i_type ino =? T_SFILE then
         if ADDRS_SIZE <? off + n then undef "write past ip->addrs"
         else
           modi ip (fun ino => with_addrs (splice (Z.to_nat off) (take (Z.to_nat n) src) (i_addrs ino)) ino) ;;;
           ret (u32 (off + n))
       else writei_loop (Z.to_nat n) ip src 0 off n) in
    let! ino := geti ip in
    when ((0 <? n) && (i_size ino <? off)) (modi ip (with_size off) ;;; iupdate ip) ;;;
    let! ino := geti ip in
    when ((i_type ino =? T_SFILE) && ((0 <? n) && (i_size ino <? off))) (modi ip (with_size off) ;;; iupdate ip) ;;;
    ret (i32 n).

(** ** Directories *)

(** A [char *] to a name is the list of the bytes from it on. *)
Definition namecmp (s t : list Z) : Z := Kstring.strncmp (Kstring.nthZ s) (Kstring.nthZ t) DIRSIZ.

(** [struct dirent] as its 16 bytes. *)
Definition de_inum (de : list Z) : Z := rd16 de 0.
Definition de_name (de : list Z) : list Z := drop 2 de.

(** The entry's inode and byte offset. *)
Definition dirlookup (dp : nat) (name : list Z) : M (fs S) (option (nat * Z)) :=
  let! ino := geti dp in
  if negb (i_type ino =? T_DIR) && negb (i_type ino =? T_SDIR) then panic "dirlookup not DIR"
  else
    for_ (Z.to_nat ((i_size ino + DIRENT_SIZE - 1) / DIRENT_SIZE)) 0 (fun k =>
      let off := k * DIRENT_SIZE in
      let! (r, de) := readi dp off DIRENT_SIZE in
      if negb (r =? DIRENT_SIZE) then panic "dirlink read"
      else if de_inum de =? 0 then ret None
      else if namecmp name (de_name de) =? 0 then
        let! ip := iget (i_dev ino) (de_inum de) in
        ret (Some (ip, off))
      else ret None).

Definition dirlink (dp : nat) (name : list Z) (inum : Z) : M (fs S) Z :=
  let! found := dirlookup dp name in
  match found with
  | Some (ip, _) => iput ip ;;; ret (-1)
  | None =>
      let! ino := geti dp in
      let n := Z.to_nat ((i_size ino + DIRENT_SIZE - 1) / DIRENT_SIZE) in
      let! slot := for_ n 0 (fun k =>
        let off := k * DIRENT_SIZE in
        let! (r, de) := readi dp off DIRENT_SIZE in
        if negb (r =? DIRENT_SIZE) then panic "dirlink read"
        else if de_inum de =? 0 then ret (Some off) else ret None) in
      let off := match slot with Some off => off | None => Z.of_nat n * DIRENT_SIZE end in
      let de := le_bytes 2 inum ++ Kstring.padded (Z.to_nat DIRSIZ) (Kstring.nthZ name) 0 in
      let! w := writei dp de off DIRENT_SIZE in
      if negb (w =? DIRENT_SIZE) then panic "dirlink" else ret 0
  end.

(** ** Paths

    A path is the list of its bytes up to, not including, the NUL. *)

Definition SLASH : Z := 47.

(** [while( *path == '/') path++;] *)
Fixpoint skip_slashes (path : list Z) : list Z :=
  match path with
  | c :: rest => if c =? SLASH then skip_slashes rest else path
  | [] => []
  end.
(** [while( *path != '/' && *path != 0) path++;] *)
Fixpoint skip_name (path : list Z) : list Z :=
  match path with
  | c :: rest => if c =? SLASH then path else skip_name rest
  | [] => []
  end.

(** [name] is the buffer of [DIRSIZ] bytes the element is copied to. *)
Definition skipelem (path name : list Z) : option (list Z * list Z) :=
  let s := skip_slashes path in
  match s with
  | [] => None
  | _ =>
      let path := skip_name s in
      let len := Z.of_nat (length s) - Z.of_nat (length path) in
      let name :=
        if DIRSIZ <=? len then splice 0 (take (Z.to_nat DIRSIZ) s) name
        else splice 0 (take (Z.to_nat len) s ++ [0]) name in
      Some (skip_slashes path, name)
  end.

(** [cwd] is [proc->cwd].  Every element consumes a byte of the path, so its
    length bounds the number of iterations. *)
Fixpoint namex_loop (fuel : nat) (ip : nat) (path : list Z) (nameiparent : bool) (name : list Z) :
    M (fs S) (option nat * list Z) :=
  match skipelem path name with
  | None => if nameiparent then iput ip ;;; ret (None, name) else ret (Some ip, name)
  | Some (path, name) =>
      match fuel with
      | O => undef "fuel"
      | Datatypes.S fuel =>
          ilock (Some ip) ;;;
          let! ino := geti ip in
          if negb (i_type ino =? T_DIR) && negb (i_type ino =? T_SDIR) then
            iunlockput ip ;;; ret (None, name)
          else if nameiparent && (match path with [] => true | _ => false end) then
            iunlock (Some ip) ;;; ret (Some ip, name)
          else
            let! next := dirlookup ip name in
            match next with
            | None => iunlockput ip ;;; ret (None, name)
            | Some (next, _) => iunlockput ip ;;; namex_loop fuel next path nameiparent name
            end
      end
  end.

Definition namex (cwd : nat) (path : list Z) (nameiparent : bool) (name : list Z) : M (fs S) (option nat * list Z) :=
  let! ip := (match path with
              | c :: _ => if c =? SLASH then iget ROOTDEV ROOTINO else idup cwd
              | [] => idup cwd
              end) in
  namex_loop (length path) ip path nameiparent name.

Definition namei (cwd : nat) (path : list Z) : M (fs S) (option nat) :=
  let! (ip, _) := namex cwd path false (replicate (Z.to_nat DIRSIZ) 0) in ret ip.
Definition nameiparent (cwd : nat) (path name : list Z) : M (fs S) (option nat * list Z) :=
  namex cwd path true name.

Definition iinit (dev : Z) : M (fs S) unit :=
  let! sb := readsb dev in modify (set_sb sb).

Definition begin_op : M (fs S) unit := onbl bl_begin_op.
Definition end_op : M (fs S) unit := onbl bl_end_op.

End ops.

Definition inode0 : inode := Inode 0 0 0 false 0 0 0 0 0 0 (replicate (Z.to_nat ADDRS_SIZE) 0).
Definition fs0 {S} (b : S) : fs S := Fs b (SuperBlock 0 0 0 0 0 0 0) (replicate (Z.to_nat NINODE) inode0).
