(* ===== verification/FsBlocks.v ===== *)
(** * Block operations of the file system

    Proof rules for the block-layer calls of [fs.c], and the block allocator:
    [bzero], [balloc] and [bfree] against the free map as a set of bits. *)

From S2P Require Import Prelude CString Bio Layout Blocks Fs.

(** [f] with block [b] replaced by [d]. *)
Definition fup (f : Z -> block) (b : Z) (d : block) : Z -> block :=
  fun c => if decide (c = b) then d else f c.

Lemma fup_eq f b d : fup f b d b = d.
Proof. unfold fup. by rewrite decide_True. Qed.
Lemma fup_ne f b d c : c <> b -> fup f b d c = f c.
Proof. unfold fup. intros. by rewrite decide_False. Qed.

(** Blocks in use: pinned or held. *)
Definition inuse (h : gmap nat Z) (p : gset Z) : gset Z := p ∪ map_img h.

Section rules.
Context {S : Type} `{BlockLayerOk S}.
Implicit Types (f : Z -> block) (h : gmap nat Z) (p : gset Z) (s : fs S) (x : S).

(** Inside a transaction the layer shows [f]; [h] are the buffers held,
    unmodified; [p] the blocks logged so far. *)
Definition brp x f h p : Prop := bl_rep x (BAbs f h ∅ p).

Lemma brp_ext x f f' h p : brp x f h p -> (forall b, bl_dom b -> f' b = f b) -> brp x f' h p.
Proof. intros HR He. by eapply bl_ext. Qed.

Lemma wp_onbl {A} (m : M S A) (Q : A -> fs S -> Prop) s :
  wp m (fun a x => Q a (set_bl x s)) (f_bl s) -> wp (onbl m) Q s.
Proof. intros Hm. by apply wp_zoom. Qed.

Lemma wp_geti ip i (Q : inode -> fs S -> Prop) s : f_inodes s !! ip = Some i -> Q i s -> wp (geti ip) Q s.
Proof. intros Hi HQ. unfold geti. apply wp_bind, wp_get. by eapply wp_the. Qed.

Lemma wp_fbread b (Q : nat -> fs S -> Prop) s f h p :
  brp (f_bl s) f h p -> bl_dom b -> b ∉@{gset Z} map_img h ->
  (b ∈ p \/ (size (inuse h p) < NBUF)%nat) ->
  (forall i x, h !! i = None -> brp x f (<[i := b]> h) p -> Q i (set_bl x s)) ->
  wp (fbread ROOTDEV b) Q s.
Proof.
  intros HR Hb Hh Hc HQ. unfold fbread. apply wp_onbl. eapply wp_mono.
  - apply (bl_bread_ok _ _ b HR); [done | | done].
    intros i Hi. simpl in Hi. apply Hh. by eapply elem_of_map_img_2.
  - intros i x [Hn HR']. by apply HQ.
Qed.

Lemma wp_fdata i b (Q : block -> fs S -> Prop) s f h p :
  brp (f_bl s) f h p -> h !! i = Some b -> Q (f b) s -> wp (fdata i) Q s.
Proof. intros HR Hi HQ. unfold fdata. apply wp_gets. by rewrite (bl_get _ _ i b HR). Qed.

Lemma wp_fbrelse i b (Q : unit -> fs S -> Prop) s f h p :
  brp (f_bl s) f (<[i := b]> h) p -> h !! i = None ->
  (forall x, brp x f h p -> Q tt (set_bl x s)) -> wp (fbrelse i) Q s.
Proof.
  intros HR Hn HQ. unfold fbrelse. apply wp_onbl. eapply wp_mono.
  - apply (bl_brelse_ok _ _ i b HR); [apply lookup_insert_eq | apply not_elem_of_empty].
  - intros [] x HR'. apply HQ. eapply bl_ext; [apply HR' | done | | done | done].
    simpl. by rewrite delete_insert_id.
Qed.

(** [memmove]/[memset] into a buffer, [log_write], [brelse]. *)
Lemma wp_fwrite i b d (Q : unit -> fs S -> Prop) s f h p :
  brp (f_bl s) f h p -> h !! i = Some b -> bl_loggable b -> block_ok d -> (size p < MAXTXN)%nat ->
  (forall x, brp x (fup f b d) h ({[b]} ∪ p) -> Q tt (set_bl x s)) ->
  wp (fstore i d ;;; flog_write i) Q s.
Proof.
  intros HR Hi Hb Hd Hp HQ. unfold fstore, flog_write. apply wp_bind, wp_onbl. eapply wp_mono.
  { by apply (bl_store_ok _ _ i b d HR). }
  intros [] x HR1. apply wp_onbl. eapply wp_mono.
  { by apply (bl_log_write_ok _ _ i b HR1). }
  intros [] x' HR2. apply HQ. eapply bl_ext; [apply HR2 | done | done | | done].
  simpl. set_solver.
Qed.

Lemma wp_fwrite_bind {A} i b d (k : M (fs S) A) (Q : A -> fs S -> Prop) s f h p :
  brp (f_bl s) f h p -> h !! i = Some b -> bl_loggable b -> block_ok d -> (size p < MAXTXN)%nat ->
  (forall x, brp x (fup f b d) h ({[b]} ∪ p) -> wp k Q (set_bl x s)) ->
  wp (fstore i d ;;; flog_write i ;;; k) Q s.
Proof.
  intros HR Hi Hb Hd Hp HQ.
  assert (Hw : wp (fstore i d ;;; flog_write i) (fun _ s' => wp k Q s') s) by (by eapply wp_fwrite).
  apply wp_bind_inv in Hw. apply wp_bind. eapply wp_mono; [exact Hw|].
  intros [] s'. apply wp_bind.
Qed.

(** Capacity: blocks about to be used are counted with those in use. *)
Lemma inuse_insert h p i b : h !! i = None -> inuse (<[i := b]> h) p = {[b]} ∪ inuse h p.
Proof. intros Hn. unfold inuse. rewrite map_img_insert_notin_L by done. set_solver. Qed.

Lemma size_add (b : Z) (X : gset Z) : (size ({[b]} ∪ X) <= Datatypes.S (size X))%nat.
Proof.
  rewrite size_union_alt, size_singleton.
  assert (size (X ∖ {[b]}) <= size X)%nat by (apply subseteq_size; set_solver). lia.
Qed.
Lemma pin_inuse h p : (size p <= size (inuse h p))%nat.
Proof. apply subseteq_size. unfold inuse. set_solver. Qed.
Lemma inuse_add b h p : (size (inuse h ({[b]} ∪ p)) <= Datatypes.S (size (inuse h p)))%nat.
Proof. unfold inuse. rewrite <- (assoc_L union). apply size_add. Qed.

End rules.

(** ** The free map *)

(** The bit of block [b] in a block of the free map. *)
Definition bit (d : block) (bi : Z) : bool := Z.testbit (byte_at d (bi / 8)) (bi mod 8).

#[local] Transparent u8.
Lemma u8_testbit v k : 0 <= k < 8 -> Z.testbit (u8 v) k = Z.testbit v k.
Proof. intros. unfold u8. by rewrite Z.mod_pow2_bits_low by lia. Qed.
#[local] Opaque u8.

Lemma bmask_test v bi : (Z.land v (bmask bi) =? 0) = negb (Z.testbit v (bi mod 8)).
Proof.
  unfold bmask. assert (0 <= bi mod 8 < 8) by (apply Z.mod_pos_bound; lia).
  rewrite Z.shiftl_1_l. apply land_pow2_zero. lia.
Qed.

Lemma find_free_spec n bi d :
  match find_free n bi d with
  | Some r => bi <= r < bi + Z.of_nat n /\ bit d r = false
  | None => forall c, bi <= c < bi + Z.of_nat n -> bit d c = true
  end.
Proof.
  revert bi. induction n as [|n IH]; intros bi; cbn [find_free].
  - intros c Hc. lia.
  - rewrite bmask_test. fold (bit d bi). destruct (bit d bi) eqn:E; simpl.
    + specialize (IH (bi + 1)). destruct (find_free n (bi + 1) d).
      * split; [lia | tauto].
      * intros c Hc. destruct (decide (c = bi)) as [->|]; [done|]. apply IH. lia.
    + split; [lia | done].
Qed.

Lemma byte_put_get d k j v :
  0 <= k < Z.of_nat (length d) -> 0 <= j -> byte_at (byte_put d k v) j = if decide (j = k) then u8 v else byte_at d j.
Proof.
  intros Hk Hj. unfold byte_at, byte_put, Kstring.nthZ. rewrite !nth_lookup. case_decide as E.
  - subst. rewrite list_lookup_insert_eq by lia. done.
  - rewrite list_lookup_insert_ne by lia. done.
Qed.

Lemma byte_put_ok d k v : block_ok d -> block_ok (byte_put d k v).
Proof.
  intros [Hl Hb]. split; [unfold byte_put; by rewrite length_insert|].
  apply Forall_insert; [done | apply u8_range].
Qed.

(** Replacing the byte that holds bit [b] by one that differs in that bit only. *)
Lemma bit_put d b c (v : bool) w :
  length d = 512%nat -> 0 <= b < BPB -> 0 <= c ->
  (forall k, 0 <= k < 8 -> Z.testbit w k = if decide (k = b mod 8) then v else Z.testbit (byte_at d (b / 8)) k) ->
  bit (byte_put d (b / 8) w) c = if decide (c = b) then v else bit d c.
Proof.
  intros Hl Hb Hc Hw. unfold BPB, BSIZE in Hb. unfold bit.
  assert (Hq : 0 <= b / 8 < 512) by (split; [apply Z.div_pos | apply Z.div_lt_upper_bound]; lia).
  assert (Hqc : 0 <= c / 8) by (apply Z.div_pos; lia).
  rewrite byte_put_get by lia.
  assert (Hm : 0 <= c mod 8 < 8) by (apply Z.mod_pos_bound; lia).
  case_decide as E1.
  - rewrite u8_testbit, Hw by done. rewrite <- E1. case_decide as E2; case_decide as E3; try done.
    + exfalso. apply E3. rewrite (Z.div_mod c 8), (Z.div_mod b 8) by lia. congruence.
    + congruence.
  - rewrite decide_False; [done|]. by intros ->.
Qed.

Definition bit_set (b : Z) (d : block) : block := byte_put d (b / 8) (Z.lor (byte_at d (b / 8)) (bmask b)).
Definition bit_clear (b : Z) (d : block) : block := byte_put d (b / 8) (Z.land (byte_at d (b / 8)) (Z.lnot (bmask b))).

Lemma bmask_bit b k : 0 <= k -> Z.testbit (bmask b) k = bool_decide (k = b mod 8).
Proof.
  intros. unfold bmask. rewrite Z.shiftl_1_l. assert (0 <= b mod 8 < 8) by (apply Z.mod_pos_bound; lia).
  case_bool_decide; [subst; by apply Z.pow2_bits_true; lia | by apply Z.pow2_bits_false; lia].
Qed.

Lemma bit_bit_set d b c :
  length d = 512%nat -> 0 <= b < BPB -> 0 <= c -> bit (bit_set b d) c = if decide (c = b) then true else bit d c.
Proof.
  intros. apply bit_put; try done. intros k Hk. rewrite Z.lor_spec, bmask_bit by lia.
  case_decide; [rewrite bool_decide_true by done; apply orb_true_r | rewrite bool_decide_false by done; apply orb_false_r].
Qed.
Lemma bit_bit_clear d b c :
  length d = 512%nat -> 0 <= b < BPB -> 0 <= c -> bit (bit_clear b d) c = if decide (c = b) then false else bit d c.
Proof.
  intros. apply bit_put; try done. intros k Hk. rewrite Z.land_spec, Z.lnot_spec, bmask_bit by lia.
  case_decide; [rewrite bool_decide_true by done; apply andb_false_r | rewrite bool_decide_false by done; apply andb_true_r].
Qed.

(** ** The allocator *)

Lemma zero_block_ok : block_ok (replicate (Z.to_nat BSIZE) 0).
Proof. split; [by rewrite length_replicate|]. apply Forall_replicate. unfold is_byte. lia. Qed.

(** A file system whose free map fits in one block (as [mkfs] lays it out for
    [FSSIZE] = 1000 blocks); data blocks start at [dstart]. *)
Record geometry {S} `{BlockLayerOk S} (sb : superblock) (dstart : Z) : Prop := {
  g_sb : sb_ok sb;
  g_size : dstart <= sb_size sb <= BPB;
  g_start : 1 < dstart;
  g_super : bl_dom 1;
  g_bmap : bl_loggable (sb_bmapstart sb) /\ 1 < sb_bmapstart sb < dstart;
  g_inode : forall i, 0 <= i < sb_ninodes sb ->
    bl_loggable (IBLOCK i sb) /\ 1 < IBLOCK i sb < dstart /\ IBLOCK i sb <> sb_bmapstart sb;
  g_data : forall b, dstart <= b < sb_size sb -> bl_loggable b
}.

Section alloc.
Context {S : Type} `{BlockLayerOk S}.
Context (sb : superblock) (dstart : Z) (G : geometry sb dstart).
Implicit Types (f : Z -> block) (h : gmap nat Z) (p : gset Z) (s : fs S) (x : S).

Local Abbreviation bm := (sb_bmapstart sb).

Definition used f (b : Z) : bool := bit (f bm) b.
Definition datablk (b : Z) : Prop := dstart <= b < sb_size sb.

(** The super block on disk is [sb] and no metadata block is free. *)
Record map_ok f : Prop := {
  m_sb : sb_decode (f 1) = sb;
  m_meta : forall b, 0 <= b < dstart -> used f b = true
}.

Lemma bm_eq b : 0 <= b < BPB -> BBLOCK b sb = bm.
Proof.
  intros Hb. unfold BBLOCK. rewrite (Z.div_small b BPB) by done. apply u32_small.
  destruct (g_sb _ _ G) as (_&_&_&_&_&_&?). lia.
Qed.

Lemma bzero_spec s f h p b (Q : unit -> fs S -> Prop) :
  brp (f_bl s) f h p -> bl_loggable b -> b ∉@{gset Z} map_img h -> (size (inuse h p) < MAXTXN)%nat ->
  (forall x, brp x (fup f b (replicate (Z.to_nat BSIZE) 0)) h ({[b]} ∪ p) -> Q tt (set_bl x s)) ->
  wp (bzero ROOTDEV b) Q s.
Proof.
  intros HR Hb Hh Hc HQ. unfold bzero, MAXTXN in *. apply wp_bind. eapply wp_fbread; [done | by apply bl_loggable_dom | done | |].
  { right. unfold NBUF. lia. }
  intros i x Hn HR1. eapply wp_fwrite_bind; [exact HR1 | apply lookup_insert_eq | done | apply zero_block_ok | |].
  { pose proof (pin_inuse h p). unfold MAXTXN. lia. }
  intros x2 HR2. eapply wp_fbrelse; [exact HR2 | done |]. intros x3 HR3. apply HQ. exact HR3.
Qed.

(** The state after allocating [b]: its bit is set, its content is zero. *)
Definition alloc_view f (b : Z) : Z -> block :=
  fup (fup f bm (bit_set b (f bm))) b (replicate (Z.to_nat BSIZE) 0).

Lemma used_alloc f b c :
  length (f bm) = 512%nat -> datablk b -> 0 <= c ->
  used (alloc_view f b) c = if decide (c = b) then true else used f c.
Proof.
  intros Hl Hb Hc. unfold used, alloc_view. pose proof (g_bmap _ _ G). pose proof (g_size _ _ G). unfold datablk in *.
  rewrite fup_ne, fup_eq by lia. apply bit_bit_set; [done | lia | done].
Qed.

Lemma bm_dom : bl_dom bm.
Proof. apply bl_loggable_dom, G. Qed.

Lemma brp_len x f h p b : brp x f h p -> bl_dom b -> length (f b) = 512%nat.
Proof. intros HR Hb. by apply (bl_block_ok _ _ b HR). Qed.

Lemma brp_ok x f h p b : brp x f h p -> bl_dom b -> block_ok (f b).
Proof. intros HR Hb. by apply (bl_block_ok _ _ b HR). Qed.

Lemma balloc_spec s f h p (Q : Z -> fs S -> Prop) :
  f_sb s = sb -> brp (f_bl s) f h p -> map_ok f ->
  (exists b, 0 <= b < sb_size sb /\ used f b = false) ->
  bm ∉@{gset Z} map_img h -> (forall b, b ∈@{gset Z} map_img h -> used f b = true) ->
  (size (inuse h p) + 1 < MAXTXN)%nat ->
  (forall b x, datablk b -> used f b = false ->
     brp x (alloc_view f b) h ({[b]} ∪ ({[bm]} ∪ p)) -> Q b (set_bl x s)) ->
  wp (balloc ROOTDEV) Q s.
Proof.
  intros Hsb HR Hm (b0 & Hb0 & Hf0) Hbm Hh Hc HQ. unfold balloc, MAXTXN in *. apply wp_bind, wp_get. rewrite Hsb.
  pose proof (g_size _ _ G) as Hsz. pose proof (g_start _ _ G) as Hst.
  assert (E1 : (sb_size sb + BPB - 1) / BPB = 1).
  { unfold BPB, BSIZE in *. symmetry. apply (Z.div_unique _ _ _ (sb_size sb - 1)); lia. }
  rewrite E1. change (Z.to_nat 1) with 1%nat. cbn [for_]. change (0 * BPB) with 0. cbn zeta. rewrite Z.sub_0_r.
  rewrite bm_eq by (unfold BPB, BSIZE; lia).
  apply wp_bind, wp_bind, wp_bind. eapply wp_fbread; [done | apply bm_dom | done | right; unfold NBUF; lia|].
  intros i x Hn HR1. apply wp_bind. eapply wp_fdata; [exact HR1 | apply lookup_insert_eq |].
  pose proof (find_free_spec (Z.to_nat (BPB `min` sb_size sb)) 0 (f bm)) as HF.
  destruct (find_free (Z.to_nat (BPB `min` sb_size sb)) 0 (f bm)) as [bi|].
  - destruct HF as [Hbi Hbit]. rewrite Z.min_r in Hbi by lia.
    assert (Hd : datablk bi).
    { unfold datablk. split; [|lia]. destruct (decide (bi < dstart)); [|lia].
      pose proof (m_meta _ Hm bi). unfold used in *. rewrite Hbit in *. intuition lia. }
    assert (Hbih : bi ∉@{gset Z} map_img h) by (intros Hx%Hh; unfold used in Hx; congruence).
    eapply wp_fwrite_bind; [exact HR1 | apply lookup_insert_eq | apply G
      | eapply byte_put_ok, brp_ok; [exact HR1 | apply bm_dom] | |].
    { pose proof (pin_inuse h p). unfold MAXTXN. lia. }
    intros x2 HR2. apply wp_bind. eapply wp_fbrelse; [exact HR2 | done |]. intros x3 HR3.
    apply wp_bind. rewrite Z.add_0_l. eapply bzero_spec; [exact HR3 | by apply G | done | |].
    { pose proof (inuse_add bm h p). unfold MAXTXN. lia. }
    intros x4 HR4. apply wp_ret, wp_ret, wp_ret. apply HQ; [done | exact Hbit | exact HR4].
  - exfalso. unfold used in Hf0. rewrite HF in Hf0; [done|]. rewrite Z.min_r by lia. lia.
Qed.

Lemma readsb_spec s f h p (Q : superblock -> fs S -> Prop) :
  brp (f_bl s) f h p -> sb_decode (f 1) = sb -> 1 ∉@{gset Z} map_img h -> (size (inuse h p) < NBUF)%nat ->
  (forall x, brp x f h p -> Q sb (set_bl x s)) -> wp (readsb ROOTDEV) Q s.
Proof.
  intros HR Hd Hh Hc HQ. unfold readsb. apply wp_bind. eapply wp_fbread; [done | apply G | done | by right |].
  intros i x Hn HR1. apply wp_bind. eapply wp_fdata; [exact HR1 | apply lookup_insert_eq |].
  apply wp_bind. eapply wp_fbrelse; [exact HR1 | done |]. intros x2 HR2. apply wp_ret. rewrite Hd. by apply HQ.
Qed.

(** The state after freeing [b]: its bit is clear. *)
Definition free_view f (b : Z) : Z -> block := fup f bm (bit_clear b (f bm)).

Lemma used_free f b c :
  length (f bm) = 512%nat -> datablk b -> 0 <= c ->
  used (free_view f b) c = if decide (c = b) then false else used f c.
Proof.
  intros Hl Hb Hc. unfold used, free_view. pose proof (g_size _ _ G). pose proof (g_start _ _ G). unfold datablk in *.
  rewrite fup_eq. apply bit_bit_clear; [done | lia | done].
Qed.

Lemma bfree_spec s f h p b (Q : unit -> fs S -> Prop) :
  f_sb s = sb -> brp (f_bl s) f h p -> sb_decode (f 1) = sb -> datablk b -> used f b = true ->
  1 ∉@{gset Z} map_img h -> bm ∉@{gset Z} map_img h -> (size (inuse h p) < MAXTXN)%nat ->
  (forall x, brp x (free_view f b) h ({[bm]} ∪ p) -> Q tt (set_bl x s)) ->
  wp (bfree ROOTDEV b) Q s.
Proof.
  intros Hsb HR Hd Hb Hu H1 Hbm Hc HQ. unfold bfree, MAXTXN in *. apply wp_bind.
  eapply readsb_spec; [done | done | done | unfold NBUF; lia|]. intros x HR1.
  apply wp_bind, wp_modify. pose proof (g_size _ _ G). pose proof (g_start _ _ G). unfold datablk in *.
  rewrite bm_eq by lia. apply wp_bind.
  eapply wp_fbread; [exact HR1 | apply bm_dom | done | right; unfold NBUF; lia|].
  intros i x2 Hn HR2. apply wp_bind. eapply wp_fdata; [exact HR2 | apply lookup_insert_eq |].
  rewrite Z.mod_small, bmask_test by lia. fold (bit (f bm) b). fold (used f b). rewrite Hu. cbn [negb].
  eapply wp_fwrite_bind; [exact HR2 | apply lookup_insert_eq | apply G
    | eapply byte_put_ok, brp_ok; [exact HR2 | apply bm_dom] | |].
  { pose proof (pin_inuse h p). unfold MAXTXN. lia. }
  intros x3 HR3. eapply wp_fbrelse; [exact HR3 | done |]. intros x4 HR4.
  unfold set_bl, set_sb. cbn. rewrite <- Hsb at 1. apply HQ. exact HR4.
Qed.

Lemma balloc_full s f h p :
  f_sb s = sb -> brp (f_bl s) f h p -> (forall b, 0 <= b < sb_size sb -> used f b = true) ->
  bm ∉@{gset Z} map_img h -> (size (inuse h p) < NBUF)%nat ->
  balloc ROOTDEV s = Panic "balloc: out of blocks".
Proof.
  intros Hsb HR Hu Hbm Hc. unfold balloc. erewrite bind_Ret by done. rewrite Hsb.
  pose proof (g_size _ _ G). pose proof (g_start _ _ G).
  match goal with |- bind ?m ?k s = _ => assert (Hw : wp m (fun r _ => r = None) s) end.
  { assert (E1 : (sb_size sb + BPB - 1) / BPB = 1).
    { unfold BPB, BSIZE in *. symmetry. apply (Z.div_unique _ _ _ (sb_size sb - 1)); lia. }
    rewrite E1. change (Z.to_nat 1) with 1%nat. cbn [for_]. change (0 * BPB) with 0. cbn zeta. rewrite Z.sub_0_r.
    rewrite bm_eq by (unfold BPB, BSIZE; lia).
    apply wp_bind, wp_bind. eapply wp_fbread; [done | apply bm_dom | done | by right |].
    intros i x Hn HR1. apply wp_bind. eapply wp_fdata; [exact HR1 | apply lookup_insert_eq |].
    pose proof (find_free_spec (Z.to_nat (BPB `min` sb_size sb)) 0 (f bm)) as HF.
    destruct (find_free (Z.to_nat (BPB `min` sb_size sb)) 0 (f bm)) as [bi|].
    - destruct HF as [Hbi Hbit]. rewrite Z.min_r in Hbi by lia.
      specialize (Hu bi). unfold used in Hu. rewrite Hu in Hbit by lia. done.
    - apply wp_bind. eapply wp_fbrelse; [exact HR1 | done |]. intros. by apply wp_ret, wp_ret. }
  destruct (wp_run _ _ _ Hw) as (r & s' & E & ->). by rewrite (bind_Ret _ _ _ _ _ E).
Qed.

Lemma bfree_twice s f h p b :
  f_sb s = sb -> brp (f_bl s) f h p -> sb_decode (f 1) = sb -> datablk b -> used f b = false ->
  1 ∉@{gset Z} map_img h -> bm ∉@{gset Z} map_img h -> (size (inuse h p) < NBUF)%nat ->
  bfree ROOTDEV b s = Panic "freeing free block".
Proof.
  intros Hsb HR Hd Hb Hu H1 Hbm Hc. unfold bfree. pose proof (g_size _ _ G). pose proof (g_start _ _ G).
  unfold datablk in *.
  assert (W1 : wp (readsb ROOTDEV) (fun r s' => r = sb /\ exists x, s' = set_bl x s /\ brp x f h p) s).
  { eapply readsb_spec; [done | done | done | done |]. intros x HR1. split; [done|]. by exists x. }
  destruct (wp_run _ _ _ W1) as (r & s1 & E1 & -> & x & -> & HR1). rewrite (bind_Ret _ _ _ _ _ E1).
  erewrite bind_Ret by done. rewrite bm_eq by lia.
  assert (W2 : wp (fbread ROOTDEV bm) (fun i s' => exists y, s' = set_bl y (set_sb sb (set_bl x s)) /\ brp y f (<[i := bm]> h) p)
     (set_sb sb (set_bl x s))).
  { eapply wp_fbread; [exact HR1 | apply bm_dom | done | by right |]. intros i y _ HR2. by exists y. }
  destruct (wp_run _ _ _ W2) as (i & s2 & E2 & y & -> & HR2). rewrite (bind_Ret _ _ _ _ _ E2).
  erewrite bind_Ret; [|unfold fdata, gets; reflexivity]. cbn [set_bl f_bl].
  rewrite (bl_get _ _ i bm HR2) by apply lookup_insert_eq. cbn [a_vw].
  rewrite Z.mod_small, bmask_test by lia. fold (bit (f bm) b). fold (used f b). by rewrite Hu.
Qed.
End alloc.
