(* ===== verification/FsInode.v ===== *)
(** * Inodes on disk and in the cache

    The encoding of [struct dinode], [iupdate], [ilock] and the inode cache
    ([iget], [idup], [iput]). *)

From S2P Require Import Prelude CString Bio Layout Blocks Fs FsBlocks.

(** ** Encoding *)

Lemma rd16_wr16 d o v : 0 <= o -> o + 2 <= Z.of_nat (length d) -> rd16 (wr16 d o v) o = u16 v.
Proof. intros. unfold rd16, wr16. by rewrite rd_wr by lia. Qed.

Lemma rd_splice n k l d off :
  0 <= off -> (k + length l <= length d)%nat ->
  off + Z.of_nat n <= Z.of_nat k \/ Z.of_nat (k + length l) <= off ->
  rd n (splice k l d) off = rd n d off.
Proof. intros. unfold rd. f_equal. apply splice_read_other; lia. Qed.

(** In-memory fields that fit the on-disk ones. *)
Record inode_range (i : inode) : Prop := {
  ir_type : - 2 ^ 15 <= i_type i < 2 ^ 15;
  ir_major : - 2 ^ 15 <= i_major i < 2 ^ 15;
  ir_minor : - 2 ^ 15 <= i_minor i < 2 ^ 15;
  ir_nlink : - 2 ^ 15 <= i_nlink i < 2 ^ 15;
  ir_size : 0 <= i_size i < 2 ^ 32;
  ir_len : length (i_addrs i) = 52%nat;
  ir_bytes : Forall is_byte (i_addrs i)
}.

(** The disk fields of [i] with the cache fields of [j]. *)
Definition disk_fields (i j : inode) : inode :=
  Inode (i_dev j) (i_inum j) (i_ref j) (i_locked j) (i_flags j)
    (i_type i) (i_major i) (i_minor i) (i_nlink i) (i_size i) (i_addrs i).

(** Evaluate a read from a chain of stores at literal distances. *)
Ltac rd_chain :=
  unfold rd16, rd32, wr16, wr32;
  repeat (rewrite rd_splice by (rewrite ?length_wr; lia));
  repeat (rewrite rd_wr_other by (rewrite ?length_wr; lia));
  try (rewrite rd_wr by (rewrite ?length_wr; lia)).

Lemma dinode_store_ok i o d : inode_range i -> block_ok d -> block_ok (dinode_store i o d).
Proof.
  intros Hi Hd. unfold dinode_store. split.
  - rewrite length_splice. unfold wr16, wr32. rewrite !length_wr. apply Hd.
  - apply splice_Forall; [apply Hi|]. unfold wr16, wr32. repeat apply wr_bytes. apply Hd.
Qed.

Lemma dinode_roundtrip i j o d :
  inode_range i -> block_ok d -> 0 <= o -> o + 64 <= 512 ->
  dinode_load (dinode_store i o d) o j = disk_fields i j.
Proof.
  intros [R1 R2 R3 R4 R5 R6 R7] [Hl _] Ho Ho2. change (Z.to_nat BSIZE) with 512%nat in Hl. unfold dinode_load, dinode_store, disk_fields, ADDRS_SIZE, NDIRECT.
  f_equal; try (rd_chain; match goal with |- i16 (?v mod _) = _ => transitivity (i16 (u16 v)); [reflexivity|]; rewrite i16_u16; by apply i16_small end).
  - rd_chain. transitivity (u32 (i_size i)); [reflexivity|]. by apply u32_small.
  - change (Z.to_nat (4 * (12 + 1))) with 52%nat. rewrite <- R6 at 1. apply splice_read.
    unfold wr16, wr32. rewrite !length_wr. lia.
Qed.

(** Storing one inode leaves the others of its block alone. *)
Lemma dinode_store_other i j o o' d :
  length (i_addrs i) = 52%nat -> block_ok d -> 0 <= o -> o + 64 <= 512 -> 0 <= o' -> o' + 64 <= 512 ->
  o' + 64 <= o \/ o + 64 <= o' ->
  dinode_load (dinode_store i o d) o' j = dinode_load d o' j.
Proof.
  intros Hlen [Hl _] Ho Ho2 Ho' Ho2' Hd. change (Z.to_nat BSIZE) with 512%nat in Hl. unfold dinode_load, dinode_store, ADDRS_SIZE, NDIRECT.
  f_equal; try (rd_chain; done).
  change (Z.to_nat (4 * (12 + 1))) with 52%nat. unfold wr16, wr32.
  rewrite splice_read_other by (rewrite ?length_wr; lia). unfold wr.
  by rewrite !splice_read_other by (rewrite ?length_splice, ?length_le_bytes; lia).
Qed.

Lemma dinode_off_range inum : 0 <= dinode_off inum /\ dinode_off inum + 64 <= 512.
Proof. unfold dinode_off, DINODE_SIZE. change IPB with 8. pose proof (Z.mod_pos_bound inum 8). lia. Qed.

Section inode.
Context {S : Type} {BL : BlockLayer S} {BLO : BlockLayerOk S} {DS : DevSw S}.
Context (sb : superblock) (dstart : Z) (G : geometry sb dstart).
Implicit Types (f : Z -> block) (h : gmap nat Z) (p : gset Z) (s : fs S) (x : S).

(** The view after [iupdate]. *)
Definition iupd_view f (i : inode) : Z -> block :=
  fup f (IBLOCK (i_inum i) sb) (dinode_store i (dinode_off (i_inum i)) (f (IBLOCK (i_inum i) sb))).

(** The inode as recorded on disk. *)
Definition on_disk f (i : inode) : inode :=
  dinode_load (f (IBLOCK (i_inum i) sb)) (dinode_off (i_inum i)) i.

Lemma iupdate_spec s ip i f p (Q : unit -> fs S -> Prop) :
  f_sb s = sb -> f_inodes s !! ip = Some i -> i_dev i = ROOTDEV -> brp (f_bl s) f ∅ p ->
  0 <= i_inum i < sb_ninodes sb -> inode_range i -> (size p < MAXTXN)%nat ->
  (forall x, brp x (iupd_view f i) ∅ ({[IBLOCK (i_inum i) sb]} ∪ p) -> Q tt (set_bl x s)) ->
  wp (iupdate ip) Q s.
Proof.
  intros Hsb Hi Hdev HR Hin Hrg Hp HQ. unfold iupdate, MAXTXN in *. apply wp_bind. eapply wp_geti; [exact Hi|].
  apply wp_bind, wp_get. rewrite Hdev, Hsb. destruct (g_inode _ _ G _ Hin) as (Hlog & _ & _). apply wp_bind.
  eapply wp_fbread; [exact HR | by apply bl_loggable_dom | rewrite map_img_empty_L; set_solver | |].
  { right. unfold inuse. rewrite map_img_empty_L, union_empty_r_L. unfold NBUF. lia. }
  intros j x _ HR1. apply wp_bind. eapply wp_fdata; [exact HR1 | apply lookup_insert_eq|].
  eapply wp_fwrite_bind; [exact HR1 | apply lookup_insert_eq | done | | done|].
  { apply dinode_store_ok; [done|]. eapply brp_ok; [exact HR1 | by apply bl_loggable_dom]. }
  intros y HR2. eapply wp_fbrelse; [exact HR2 | done|]. intros z HR3. apply HQ. exact HR3.
Qed.

Lemma on_disk_iupd f i : block_ok (f (IBLOCK (i_inum i) sb)) -> inode_range i -> on_disk (iupd_view f i) i = i.
Proof.
  intros HR Hrg. unfold on_disk, iupd_view. rewrite fup_eq. destruct (dinode_off_range (i_inum i)).
  rewrite dinode_roundtrip; [by destruct i | done..].
Qed.

(** [iupdate] of one inode does not change what is recorded for another. *)
Lemma on_disk_iupd_other f i j :
  block_ok (f (IBLOCK (i_inum i) sb)) -> 0 <= i_inum i < sb_ninodes sb -> 0 <= i_inum j < sb_ninodes sb -> i_inum i <> i_inum j ->
  length (i_addrs i) = 52%nat -> on_disk (iupd_view f i) j = on_disk f j.
Proof.
  intros HR Hi Hj Hne Hlen. unfold on_disk, iupd_view.
  destruct (decide (IBLOCK (i_inum j) sb = IBLOCK (i_inum i) sb)) as [E|E]; [|by rewrite fup_ne].
  rewrite E, fup_eq. destruct (dinode_off_range (i_inum i)), (dinode_off_range (i_inum j)).
  apply dinode_store_other; try done. destruct (g_sb _ _ G) as (_&_&Hni&_&_&His&_).
  unfold IBLOCK in E. apply u32_add_inj in E; change IPB with 8 in *.
  - unfold dinode_off, DINODE_SIZE. change IPB with 8.
    pose proof (Z.div_mod (i_inum i) 8). pose proof (Z.div_mod (i_inum j) 8). lia.
  - pose proof (Z.div_mod (i_inum j) 8). pose proof (Z.mod_pos_bound (i_inum j) 8). lia.
  - pose proof (Z.div_mod (i_inum i) 8). pose proof (Z.mod_pos_bound (i_inum i) 8). lia.
Qed.

(** Every block of a running file system is a block. *)
Lemma inode_block_ok x f h p inum : brp x f h p -> 0 <= inum < sb_ninodes sb -> block_ok (f (IBLOCK inum sb)).
Proof. intros HR Hin. eapply brp_ok; [exact HR|]. apply bl_loggable_dom, G. done. Qed.
End inode.
