(* ===== verification/FsFile.v ===== *)
(** * File content: [bmap], [readi], [writei]

    A file that is neither a device nor a small file is an array of bytes
    spread over blocks that only this inode owns.  [readi] returns a slice of
    that array and [writei] overwrites and extends it, leaving every block of
    every other file as it was. *)

From S2P Require Import Prelude CString Bio Layout Blocks Fs FsBlocks.

(** ** Slots

    Block pointers of an inode: 0-11 direct, 12 the indirect block, 13-140
    its entries. *)

Definition NSLOT : Z := 141.
Definition slot (f : Z -> block) (ad : list Z) (k : Z) : Z :=
  if k <=? 12 then rd32 ad (4 * k)
  else if rd32 ad 48 =? 0 then 0 else rd32 (f (rd32 ad 48)) (4 * (k - 13)).

(** The block that holds bytes [512*bn ..] of the file; 0 if none. *)
Definition bslot (bn : Z) : Z := if bn <? 12 then bn else bn + 1.
Definition iblk (f : Z -> block) (ad : list Z) (bn : Z) : Z := slot f ad (bslot bn).

Lemma bslot_range bn : 0 <= bn < MAXFILE -> 0 <= bslot bn < NSLOT /\ bslot bn <> 12.
Proof.
  change MAXFILE with 140. unfold bslot, NSLOT. destruct (Z.ltb_spec bn 12); lia.
Qed.
Lemma bslot_inj a b : 0 <= a -> 0 <= b -> bslot a = bslot b -> a = b.
Proof. unfold bslot. destruct (Z.ltb_spec a 12), (Z.ltb_spec b 12); lia. Qed.

Lemma rd32_zero n off : 0 <= off -> rd32 (replicate n 0) off = 0.
Proof.
  intros Ho. unfold rd32, rd. rewrite drop_replicate, take_replicate.
  generalize ((4 `min` (n - Z.to_nat off))%nat) as k. induction k as [|k IH]; [done|].
  cbn [replicate le_word]. rewrite IH. done.
Qed.

Section file.
Context {S : Type} `{BlockLayerOk S}.
Context (sb : superblock) (dstart : Z) (G : geometry sb dstart).
Implicit Types (f : Z -> block) (h : gmap nat Z) (p : gset Z) (s : fs S) (x : S) (ad : list Z).

Local Abbreviation bm := (sb_bmapstart sb).
Local Abbreviation used := (used sb).
Local Abbreviation datablk := (datablk sb dstart).
Local Abbreviation alloc_view := (alloc_view sb).

Record file_ok f ad : Prop := {
  fo_len : length ad = 52%nat;
  fo_bytes : Forall is_byte ad;
  fo_slot : forall k, 0 <= k < NSLOT -> slot f ad k <> 0 -> datablk (slot f ad k) /\ used f (slot f ad k) = true;
  fo_inj : forall k j, 0 <= k < NSLOT -> 0 <= j < NSLOT -> slot f ad k <> 0 -> slot f ad k = slot f ad j -> k = j
}.

(** The file's block map and the free map grow from [f], [ad] to [f'], [ad'];
    blocks the file does not own are untouched. *)
Record grows f ad f' ad' : Prop := {
  gr_slot : forall k, 0 <= k < NSLOT -> slot f ad k <> 0 -> slot f' ad' k = slot f ad k;
  gr_frame : forall b, bl_dom b -> b <> 0 -> b <> bm -> used f b = true -> (forall k, 0 <= k < NSLOT -> slot f' ad' k <> b) -> f' b = f b;
  gr_used : forall c, 0 <= c -> used f c = true -> used f' c = true;
  gr_new : forall c, 0 < c -> used f' c = true -> used f c = true \/ exists k, 0 <= k < NSLOT /\ slot f' ad' k = c;
  gr_fresh : forall k, 0 <= k < NSLOT -> slot f ad k = 0 -> slot f' ad' k <> 0 ->
    datablk (slot f' ad' k) /\ used f (slot f' ad' k) = false;
  gr_map : map_ok sb dstart f -> map_ok sb dstart f'
}.

Lemma grows_refl f ad : grows f ad f ad.
Proof. split; auto. by intros k Hk ->. Qed.

Lemma file_no_zero f ad k : file_ok f ad -> 0 <= k < NSLOT -> slot f ad k <> 0 -> slot f ad k <> bm /\ dstart <= slot f ad k.
Proof.
  intros HF Hk Hs. destruct (fo_slot _ _ HF k Hk Hs) as [Hd _]. unfold FsBlocks.datablk in Hd.
  pose proof (g_bmap _ _ G). lia.
Qed.

Lemma grows_trans f ad f' ad' f'' ad'' :
  grows f ad f' ad' -> grows f' ad' f'' ad'' -> grows f ad f'' ad''.
Proof.
  intros H1 H2. split.
  - intros k Hk Hs. rewrite (gr_slot _ _ _ _ H2), (gr_slot _ _ _ _ H1); try done.
    by rewrite (gr_slot _ _ _ _ H1).
  - intros b Hb Hb0 Hbm Hu Hn. rewrite (gr_frame _ _ _ _ H2 b), (gr_frame _ _ _ _ H1 b); try done.
    + intros k Hk Hs. apply (Hn k Hk). rewrite (gr_slot _ _ _ _ H2); congruence.
    + apply (gr_used _ _ _ _ H1); [|done]. apply bl_dom_range in Hb. lia.
  - intros c Hc Hu. apply (gr_used _ _ _ _ H2), (gr_used _ _ _ _ H1); done.
  - intros c Hc Hu. destruct (gr_new _ _ _ _ H2 c Hc Hu) as [Hu'|?]; [|by right].
    destruct (gr_new _ _ _ _ H1 c Hc Hu') as [?|(k & Hk & E)]; [by left|].
    right. exists k. split; [done|]. rewrite (gr_slot _ _ _ _ H2); [done | done | lia].
  - intros k Hk Hs Hs''. destruct (decide (slot f' ad' k = 0)) as [Hs'|Hs'].
    + destruct (gr_fresh _ _ _ _ H2 k Hk Hs' Hs'') as [Hd Hu]. split; [done|].
      destruct (used f (slot f'' ad'' k)) eqn:E; [|done]. rewrite (gr_used _ _ _ _ H1) in Hu; [done | | done].
      unfold FsBlocks.datablk in Hd. pose proof (g_start _ _ G). lia.
    + rewrite (gr_slot _ _ _ _ H2) by done. by apply (gr_fresh _ _ _ _ H1).
  - intros Hm. by apply (gr_map _ _ _ _ H2), (gr_map _ _ _ _ H1).
Qed.

(** ** Adding one block *)

(** [f'], [ad'] is [f], [ad] with the free block [b] allocated to slot [k]. *)
Record adds f ad k b f' ad' : Prop := {
  ad_range : 0 <= k < NSLOT;
  ad_old : slot f ad k = 0;
  ad_free : datablk b /\ used f b = false;
  ad_len : length ad' = 52%nat;
  ad_bytes : Forall is_byte ad';
  ad_slot : forall j, 0 <= j < NSLOT -> slot f' ad' j = if decide (j = k) then b else slot f ad j;
  ad_used : forall c, 0 <= c -> used f' c = if decide (c = b) then true else used f c;
  ad_frame : forall c, c <> b -> c <> bm -> c <> slot f' ad' 12 -> f' c = f c;
  ad_super : f' 1 = f 1;
  ad_zero : k <> 12 -> f' b = replicate (Z.to_nat BSIZE) 0
}.

Lemma datablk_pos b : datablk b -> 1 < b.
Proof. intros Hb. pose proof (g_start _ _ G). unfold FsBlocks.datablk in Hb. lia. Qed.

Lemma adds_grows f ad k b f' ad' : adds f ad k b f' ad' -> grows f ad f' ad'.
Proof.
  intros HA. pose proof (ad_free _ _ _ _ _ _ HA) as [Hd Hf]. pose proof (datablk_pos b Hd). split.
  - intros j Hj Hs. rewrite (ad_slot _ _ _ _ _ _ HA) by done. case_decide; [|done].
    subst. by destruct Hs; apply HA.
  - intros c Hc Hc0 Hbm Hu Hn. apply (ad_frame _ _ _ _ _ _ HA); [congruence | done |].
    intros ->. apply (Hn 12); [unfold NSLOT; lia | done].
  - intros c Hc Hu. rewrite (ad_used _ _ _ _ _ _ HA) by done. by case_decide.
  - intros c Hc. rewrite (ad_used _ _ _ _ _ _ HA) by lia. case_decide; [|by left].
    subst. right. exists k. split; [apply HA|]. rewrite (ad_slot _ _ _ _ _ _ HA) by apply HA. by rewrite decide_True.
  - intros j Hj Hs. rewrite (ad_slot _ _ _ _ _ _ HA) by done. case_decide; [done|]. by rewrite Hs.
  - intros [Hm1 Hm2]. split; [by rewrite (ad_super _ _ _ _ _ _ HA)|].
    intros c Hc. rewrite (ad_used _ _ _ _ _ _ HA) by lia. case_decide; [done | by apply Hm2].
Qed.

Lemma adds_file_ok f ad k b f' ad' : adds f ad k b f' ad' -> file_ok f ad -> file_ok f' ad'.
Proof.
  intros HA HF. pose proof (ad_free _ _ _ _ _ _ HA) as [Hd Hf]. pose proof (datablk_pos b Hd).
  pose proof (ad_slot _ _ _ _ _ _ HA) as HS. split; try apply HA.
  - intros j Hj. rewrite !HS by done. case_decide; intros Hs.
    + split; [done|]. rewrite (ad_used _ _ _ _ _ _ HA) by lia. by rewrite decide_True.
    + destruct (fo_slot _ _ HF j Hj Hs) as [Hdj Hu]. split; [done|]. pose proof (datablk_pos _ Hdj).
      rewrite (ad_used _ _ _ _ _ _ HA) by lia. by case_decide.
  - assert (Hx : forall j, 0 <= j < NSLOT -> slot f ad j <> 0 -> slot f ad j <> b).
    { intros j Hj Hs E. destruct (fo_slot _ _ HF j Hj Hs). congruence. }
    intros j i Hj Hi. rewrite !HS by done. repeat case_decide; intros Hs E; subst; try done.
    + exfalso. apply (Hx i); congruence.
    + exfalso. by apply (Hx j).
    + by apply (fo_inj _ _ HF).
Qed.

Lemma used_ne_free f b c : used f b = true -> used f c = false -> b <> c.
Proof. congruence. Qed.

Lemma wr32_len ad o v : length (wr32 ad o v) = length ad.
Proof. apply length_wr. Qed.

(** A direct or the indirect pointer. *)
Lemma adds_direct f ad k b :
  file_ok f ad -> length (f bm) = 512%nat -> 0 <= k <= 12 -> slot f ad k = 0 -> datablk b -> used f b = false ->
  adds f ad k b (alloc_view f b) (wr32 ad (4 * k) b).
Proof.
  intros HF Hl Hk Hs Hd Hf. pose proof (datablk_pos b Hd). pose proof (fo_len _ _ HF) as Hlen.
  pose proof (g_bmap _ _ G) as [_ Hbm]. pose proof (g_size _ _ G) as Hsz. assert (Hd' := Hd). unfold FsBlocks.datablk in Hd'.
  unfold BPB, BSIZE in Hsz.
  assert (Hb32 : u32 b = b) by (apply u32_small; lia).
  assert (Hget : forall j, 0 <= j <= 12 -> rd32 (wr32 ad (4 * k) b) (4 * j) = if decide (j = k) then b else rd32 ad (4 * j)).
  { intros j Hj. case_decide; [subst; rewrite rd32_wr32 by lia; done | rewrite rd32_wr32_ne by lia; done]. }
  assert (Hslot : forall j, 0 <= j < NSLOT -> slot (alloc_view f b) (wr32 ad (4 * k) b) j = if decide (j = k) then b else slot f ad j).
  { intros j Hj. unfold slot at 1. destruct (Z.leb_spec j 12).
    - rewrite Hget by lia. unfold slot. case_decide; [done|]. destruct (Z.leb_spec j 12); [done | lia].
    - rewrite (decide_False (P := j = k)) by lia.
      pose proof (Hget 12 ltac:(lia)) as H12. change (4 * 12) with 48 in H12. rewrite H12. case_decide as E.
      + subst k. destruct (Z.eqb_spec b 0); [lia|]. unfold FsBlocks.alloc_view. rewrite fup_eq.
        rewrite rd32_zero by lia. unfold slot. destruct (Z.leb_spec j 12); [lia|].
        change (rd32 ad 48 = 0) in Hs. by rewrite Hs.
      + unfold slot. destruct (Z.leb_spec j 12); [lia|].
        destruct (Z.eqb_spec (rd32 ad 48) 0) as [|Hi]; [done|].
        destruct (fo_slot _ _ HF 12) as [Hid Hiu]; [unfold NSLOT; lia | done|].
        change (slot f ad 12) with (rd32 ad 48) in *.
        unfold FsBlocks.alloc_view. rewrite !fup_ne; [done | unfold FsBlocks.datablk in Hid; lia | by eapply used_ne_free]. }
  split; try done.
  - unfold NSLOT. lia.
  - by rewrite wr32_len.
  - apply wr_bytes, HF.
  - intros c Hc. by eapply used_alloc.
  - intros c Hcb Hcm _. unfold FsBlocks.alloc_view. by rewrite !fup_ne.
  - unfold FsBlocks.alloc_view. rewrite !fup_ne; [done | lia | lia].
  - intros _. unfold FsBlocks.alloc_view. apply fup_eq.
Qed.

(** An entry of the indirect block. *)
Lemma adds_indirect f ad k b :
  let i := slot f ad 12 in
  file_ok f ad -> length (f bm) = 512%nat -> length (f i) = 512%nat -> i <> 0 -> 12 < k < NSLOT ->
  slot f ad k = 0 -> datablk b -> used f b = false ->
  adds f ad k b (fup (alloc_view f b) i (wr32 (alloc_view f b i) (4 * (k - 13)) b)) ad.
Proof.
  intros i HF Hl Hli Hi Hk Hs Hd Hf. pose proof (datablk_pos b Hd).
  pose proof (g_bmap _ _ G) as [_ Hbm]. pose proof (g_size _ _ G) as Hsz. unfold BPB, BSIZE in Hsz.
  assert (Hd' := Hd). unfold FsBlocks.datablk in Hd'. assert (Hb32 : u32 b = b) by (apply u32_small; lia).
  destruct (fo_slot _ _ HF 12) as [Hid Hiu]; [unfold NSLOT; lia | done|]. fold i in Hid, Hiu.
  assert (Hid' := Hid). unfold FsBlocks.datablk in Hid'.
  assert (Hib : i <> b) by (by eapply used_ne_free).
  assert (Ei : alloc_view f b i = f i) by (unfold FsBlocks.alloc_view; rewrite !fup_ne by lia; done).
  rewrite Ei. assert (E48 : rd32 ad 48 = i) by done.
  split; try done; try apply HF.
  - lia.
  - intros j Hj. unfold slot. rewrite E48. destruct (Z.eqb_spec i 0); [done|]. rewrite fup_eq.
    destruct (Z.leb_spec j 12); [by rewrite decide_False by lia|]. unfold NSLOT in *. case_decide.
    + subst j. rewrite rd32_wr32 by lia. done.
    + rewrite rd32_wr32_ne by lia. done.
  - intros c Hc. unfold used. rewrite fup_ne by lia. by eapply used_alloc.
  - intros c Hcb Hcm Hci. rewrite fup_ne by done. unfold FsBlocks.alloc_view. by rewrite !fup_ne.
  - rewrite fup_ne by lia. unfold FsBlocks.alloc_view. rewrite !fup_ne; [done | lia | lia].
  - intros _. rewrite fup_ne by done. unfold FsBlocks.alloc_view. apply fup_eq.
Qed.

(** ** Free space *)

Definition nfree f : nat :=
  size (filter (fun b => used f b = false) (list_to_set (seqZ 0 (sb_size sb)) : gset Z)).

Lemma nfree_pos f : (0 < nfree f)%nat -> exists b, 0 <= b < sb_size sb /\ used f b = false.
Proof.
  intros Hn. unfold nfree in Hn. destruct (size_pos_elem_of _ Hn) as [b Hb].
  rewrite elem_of_filter, elem_of_list_to_set, elem_of_seqZ in Hb. exists b. split; [lia | tauto].
Qed.

Lemma adds_nfree f ad k b f' ad' : adds f ad k b f' ad' -> nfree f = Datatypes.S (nfree f').
Proof.
  intros HA. pose proof (ad_free _ _ _ _ _ _ HA) as [Hd Hf]. pose proof (datablk_pos b Hd). unfold nfree.
  set (X := list_to_set (seqZ 0 (sb_size sb)) : gset Z).
  assert (HbX : b ∈ X). { unfold X. rewrite elem_of_list_to_set, elem_of_seqZ. unfold FsBlocks.datablk in Hd. lia. }
  assert (E : filter (fun c => used f c = false) X = {[b]} ∪ filter (fun c => used f' c = false) X).
  { apply set_eq. intros c. rewrite elem_of_union, elem_of_singleton, !elem_of_filter. split.
    - intros [Hc HcX]. destruct (decide (c = b)); [by left|]. right. split; [|done].
      rewrite (ad_used _ _ _ _ _ _ HA); [by rewrite decide_False|].
      unfold X in HcX. rewrite elem_of_list_to_set, elem_of_seqZ in HcX. lia.
    - intros [->|[Hc HcX]]; [done|]. split; [|done].
      rewrite (ad_used _ _ _ _ _ _ HA) in Hc; [by case_decide|].
      unfold X in HcX. rewrite elem_of_list_to_set, elem_of_seqZ in HcX. lia. }
  rewrite E, size_union, size_singleton; [done|].
  apply disjoint_singleton_l. rewrite elem_of_filter. intros [Hc _].
  rewrite (ad_used _ _ _ _ _ _ HA), decide_True in Hc by (done || lia). done.
Qed.


(** ** [bmap] *)

(** The block layer and one inode updated. *)
Definition upd s x (ip : nat) (i : inode) : fs S := Fs x (f_sb s) (<[ip := i]> (f_inodes s)).

Lemma set_bl_self s : set_bl (f_bl s) s = s.
Proof. by destruct s. Qed.

Lemma upd_same s x ip i : f_inodes s !! ip = Some i -> set_bl x s = upd s x ip (with_addrs (i_addrs i) i).
Proof.
  intros Hi. unfold upd, set_bl. f_equal. symmetry. apply list_insert_id. rewrite Hi. by destruct i.
Qed.

Lemma alter_insert {A} (g : A -> A) (l : list A) k a : l !! k = Some a -> alter g k l = <[k := g a]> l.
Proof.
  intros Hk. apply list_eq. intros j. pose proof (lookup_lt_Some _ _ _ Hk). destruct (decide (j = k)) as [->|].
  - rewrite list_lookup_alter_eq, list_lookup_insert_eq, Hk by done. done.
  - by rewrite list_lookup_alter_ne, list_lookup_insert_ne by done.
Qed.

Lemma wp_modi ip i g (Q : unit -> fs S -> Prop) s :
  f_inodes s !! ip = Some i -> Q tt (upd s (f_bl s) ip (g i)) -> wp (modi ip g) Q s.
Proof.
  intros Hi HQ. unfold modi. apply wp_modify. rewrite (alter_insert g _ _ _ Hi). exact HQ.
Qed.

Lemma upd_lookup s x ip i j : f_inodes s !! ip = Some j -> f_inodes (upd s x ip i) !! ip = Some i.
Proof. intros Hj. cbn. apply list_lookup_insert_eq. by eapply lookup_lt_Some. Qed.

(** Free blocks, counting the indirect block as available until it exists. *)
Definition pot f ad : nat := (nfree f + if decide (slot f ad 12 = 0%Z) then 0 else 1)%nat.

Lemma adds_pot f ad k b f' ad' :
  adds f ad k b f' ad' -> pot f ad = (pot f' ad' + if decide (k = 12%Z) then 0 else 1)%nat.
Proof.
  intros HA. unfold pot. rewrite (adds_nfree _ _ _ _ _ _ HA). pose proof (ad_old _ _ _ _ _ _ HA) as Ho.
  destruct (ad_free _ _ _ _ _ _ HA) as [Hd _]. apply datablk_pos in Hd.
  rewrite (ad_slot _ _ _ _ _ _ HA 12) by (unfold NSLOT; lia).
  destruct (decide (k = 12)) as [->|]; [|rewrite (decide_False (P := 12 = k)) by lia; lia].
  rewrite (decide_True (P := 12 = 12)), Ho, (decide_True (P := 0 = 0)), decide_False by (done || lia). lia.
Qed.

(** What extending the block map preserves. *)
Record bstep f ad f' ad' : Prop := {
  bs_grow : grows f ad f' ad';
  bs_file : file_ok f' ad';
  bs_data : forall k, 0 <= k < NSLOT -> k <> 12 -> slot f ad k <> 0 -> f' (slot f ad k) = f (slot f ad k)
}.

Lemma bstep_refl f ad : file_ok f ad -> bstep f ad f ad.
Proof. intros. split; [apply grows_refl | done | done]. Qed.

Lemma bstep_trans f ad f' ad' f'' ad'' : bstep f ad f' ad' -> bstep f' ad' f'' ad'' -> bstep f ad f'' ad''.
Proof.
  intros H1 H2. split; [by eapply grows_trans; [apply H1 | apply H2] | apply H2 |].
  intros k Hk Hk12 Hs. pose proof (gr_slot _ _ _ _ (bs_grow _ _ _ _ H1) k Hk Hs) as E.
  rewrite <- (bs_data _ _ _ _ H1 k Hk Hk12 Hs), <- E. apply (bs_data _ _ _ _ H2); congruence.
Qed.

Lemma adds_bstep f ad k b f' ad' : adds f ad k b f' ad' -> file_ok f ad -> bstep f ad f' ad'.
Proof.
  intros HA HF. split; [by eapply adds_grows | by eapply adds_file_ok |].
  intros j Hj Hj12 Hs. destruct (fo_slot _ _ HF j Hj Hs) as [Hdj Huj].
  destruct (ad_free _ _ _ _ _ _ HA) as [Hd Hf]. destruct (file_no_zero f ad j HF Hj Hs).
  assert (Hjb : slot f ad j <> b) by (by eapply used_ne_free).
  apply (ad_frame _ _ _ _ _ _ HA); [done | done |].
  rewrite (ad_slot _ _ _ _ _ _ HA) by (unfold NSLOT; lia). case_decide; [done|].
  intros E. apply Hj12. apply (fo_inj _ _ HF); done || (unfold NSLOT; lia).
Qed.

(** The outcome of [bmap] for block [bn]. *)
Record bmapped f ad p bn (r : Z) f' ad' p' : Prop := {
  bp_step : bstep f ad f' ad';
  bp_r : r = iblk f' ad' bn;
  bp_nz : r <> 0;
  bp_other : forall c, 0 <= c < MAXFILE -> c <> bn -> iblk f' ad' c = iblk f ad c;
  bp_pin : forall b, b ∈ p' -> b = r \/ b = bm \/ (b = slot f' ad' 12 /\ b <> 0) \/ b ∈ p;
  bp_mono : p ⊆ p';
  bp_pot : (pot f ad <= Datatypes.S (pot f' ad'))%nat;
  bp_old : iblk f ad bn <> 0 -> f' = f /\ ad' = ad /\ p' = p
}.

Section bmap.
Context (s : fs S) (ip : nat) (i : inode).
Context (Hsb : f_sb s = sb) (Hi : f_inodes s !! ip = Some i) (Hdev : i_dev i = ROOTDEV).

(** Allocating a direct block or the indirect block. *)
Lemma alloc_direct f p k (Q : Z -> fs S -> Prop) :
  brp (f_bl s) f ∅ p -> map_ok sb dstart f -> file_ok f (i_addrs i) -> 0 <= k <= 12 -> slot f (i_addrs i) k = 0 ->
  (0 < nfree f)%nat -> (size p + 1 < MAXTXN)%nat ->
  (forall b x, adds f (i_addrs i) k b (alloc_view f b) (wr32 (i_addrs i) (4 * k) b) ->
     brp x (alloc_view f b) ∅ ({[b]} ∪ ({[bm]} ∪ p)) ->
     Q b (upd s x ip (with_addrs (wr32 (i_addrs i) (4 * k) b) i))) ->
  wp (let! addr := balloc (i_dev i) in modi ip (addr_set k addr) ;;; ret addr) Q s.
Proof.
  intros HR Hm HF Hk Hs Hn Hc HQ. rewrite Hdev. apply wp_bind.
  assert (Hi0 : inuse ∅ p = p) by (unfold inuse; rewrite map_img_empty_L; set_solver).
  eapply balloc_spec; [exact G | done | exact HR | done | by apply nfree_pos | | | by rewrite Hi0 |].
  { rewrite map_img_empty_L. set_solver. }
  { intros b. rewrite map_img_empty_L. set_solver. }
  intros b x Hd Hf HR'. apply wp_bind. eapply wp_modi; [exact Hi|]. apply wp_ret.
  apply HQ; [|exact HR']. apply adds_direct; try done. eapply brp_len; [exact HR | apply (bm_dom sb dstart G)].
Qed.

Lemma bmap_ind f p (Q : Z -> fs S -> Prop) :
  brp (f_bl s) f ∅ p -> map_ok sb dstart f -> file_ok f (i_addrs i) ->
  (slot f (i_addrs i) 12 <> 0 \/ (0 < nfree f)%nat) -> (size p + 1 < MAXTXN)%nat ->
  (forall f' ad' p' x, brp x f' ∅ p' -> bstep f (i_addrs i) f' ad' -> slot f' ad' 12 <> 0 ->
     (forall k, 0 <= k < NSLOT -> k <> 12 -> slot f' ad' k = slot f (i_addrs i) k) ->
     (forall b, b ∈ p' -> b = bm \/ b = slot f' ad' 12 \/ b ∈ p) -> p ⊆ p' -> (size p' <= size p + 2)%nat ->
     pot f' ad' = pot f (i_addrs i) ->
     (slot f (i_addrs i) 12 <> 0 -> f' = f /\ ad' = i_addrs i /\ p' = p) ->
     Q (slot f' ad' 12) (upd s x ip (with_addrs ad' i))) ->
  wp (if addr_get i NDIRECT =? 0 then
        let! addr := balloc (i_dev i) in modi ip (addr_set NDIRECT addr) ;;; ret addr
      else ret (addr_get i NDIRECT)) Q s.
Proof.
  intros HR Hm HF Hn Hc HQ. change (addr_get i NDIRECT) with (slot f (i_addrs i) 12).
  destruct (Z.eqb_spec (slot f (i_addrs i) 12) 0) as [E|E].
  - eapply (alloc_direct f p 12); try done; [by destruct Hn|]. intros b x HA HR'.
    assert (Eb : slot (alloc_view f b) (wr32 (i_addrs i) (4 * 12) b) 12 = b).
    { rewrite (ad_slot _ _ _ _ _ _ HA) by (unfold NSLOT; lia). by rewrite decide_True. }
    rewrite <- Eb at 1. pose proof (datablk_pos b (proj1 (ad_free _ _ _ _ _ _ HA))).
    apply (HQ _ _ _ _ HR'); [by eapply adds_bstep | lia | | | set_solver | | | done].
    + intros k Hk Hk12. rewrite (ad_slot _ _ _ _ _ _ HA) by done. by rewrite decide_False.
    + rewrite Eb. intros c. set_solver.
    + pose proof (size_add b ({[bm]} ∪ p)). pose proof (size_add bm p). lia.
    + pose proof (adds_pot _ _ _ _ _ _ HA) as Hp. rewrite decide_True in Hp by done. lia.
  - apply wp_ret. rewrite <- (set_bl_self s), (upd_same s _ ip i Hi).
    apply (HQ f (i_addrs i) p); try done; [by apply bstep_refl | | lia]. tauto.
Qed.

(** Reading or allocating entry [k] of an existing indirect block. *)
Lemma bmap_entry f p k (Q : Z -> fs S -> Prop) :
  let ind := slot f (i_addrs i) 12 in
  brp (f_bl s) f ∅ p -> map_ok sb dstart f -> file_ok f (i_addrs i) -> ind <> 0 -> 12 < k < NSLOT ->
  (slot f (i_addrs i) k <> 0 \/ (0 < nfree f)%nat) -> (size p + 3 < MAXTXN)%nat ->
  (slot f (i_addrs i) k <> 0 -> forall x, brp x f ∅ p -> Q (slot f (i_addrs i) k) (set_bl x s)) ->
  (forall b f' x, adds f (i_addrs i) k b f' (i_addrs i) ->
     brp x f' ∅ ({[ind]} ∪ ({[b]} ∪ ({[bm]} ∪ p))) -> Q b (set_bl x s)) ->
  wp (let! bp := fbread (i_dev i) ind in
      let! a := fdata bp in
      let! addr := (if rd32 a (4 * (k - 13)) =? 0 then
                      let! addr := balloc (i_dev i) in
                      let! a := fdata bp in
                      fstore bp (wr32 a (4 * (k - 13)) addr) ;;;
                      flog_write bp ;;;
                      ret addr
                    else ret (rd32 a (4 * (k - 13)))) in
      fbrelse bp ;;; ret addr) Q s.
Proof.
  intros ind HR Hm HF Hnz Hk Hn Hc HQ1 HQ2. unfold MAXTXN in Hc. rewrite Hdev.
  destruct (fo_slot _ _ HF 12) as [Hid Hiu]; [unfold NSLOT; lia | done|]. fold ind in Hid, Hiu.
  assert (Hil : bl_loggable ind) by (by apply G).
  assert (Hi0 : inuse ∅ p = p) by (unfold inuse; rewrite map_img_empty_L; set_solver).
  assert (Es : slot f (i_addrs i) k = rd32 (f ind) (4 * (k - 13))).
  { unfold slot at 1. destruct (Z.leb_spec k 12); [lia|]. change (rd32 (i_addrs i) 48) with ind.
    by destruct (Z.eqb_spec ind 0). }
  apply wp_bind. eapply wp_fbread; [exact HR | by apply bl_loggable_dom | rewrite map_img_empty_L; set_solver
    | right; rewrite Hi0; unfold NBUF; lia|].
  intros j x Hj HR1. apply wp_bind. eapply wp_fdata; [exact HR1 | apply lookup_insert_eq|]. rewrite <- Es.
  apply wp_bind. destruct (Z.eqb_spec (slot f (i_addrs i) k) 0) as [E|E].
  - assert (Himg : map_img (SA := gset Z) (<[j := ind]> (∅ : gmap nat Z)) = {[ind]})
      by (rewrite map_img_insert_notin_L, map_img_empty_L by done; set_solver).
    assert (Hibm : ind <> bm) by (unfold FsBlocks.datablk in Hid; pose proof (g_bmap _ _ G); lia).
    apply wp_bind. eapply balloc_spec; [exact G | exact Hsb | exact HR1 | done | apply nfree_pos; by destruct Hn | | | |].
    { rewrite Himg. set_solver. }
    { rewrite Himg. intros b ->%elem_of_singleton. done. }
    { rewrite inuse_insert, Hi0 by done. pose proof (size_add ind p). unfold MAXTXN. lia. }
    intros b y Hd Hf HR2. apply wp_bind. eapply wp_fdata; [exact HR2 | apply lookup_insert_eq|].
    assert (HA := adds_indirect f (i_addrs i) k b HF). fold ind in HA. cbv zeta in HA.
    eapply wp_fwrite_bind; [exact HR2 | apply lookup_insert_eq | done | | |].
    { apply wr_block_ok. eapply brp_ok; [exact HR2 | by apply bl_loggable_dom]. }
    { pose proof (size_add b ({[bm]} ∪ p)). pose proof (size_add bm p). unfold MAXTXN. lia. }
    intros z HR3. apply wp_ret, wp_bind. eapply wp_fbrelse; [exact HR3 | done|]. intros z' HR4. apply wp_ret.
    eapply (HQ2 b); [apply HA; try done | exact HR4].
    + eapply brp_len; [exact HR | apply (bm_dom sb dstart G)].
    + eapply brp_len; [exact HR | by apply bl_loggable_dom].
  - apply wp_ret, wp_bind. eapply wp_fbrelse; [exact HR1 | done|]. intros y HR2. by apply wp_ret, HQ1.
Qed.
End bmap.


Lemma bmapped_refl f ad p bn : file_ok f ad -> iblk f ad bn <> 0 -> bmapped f ad p bn (iblk f ad bn) f ad p.
Proof. intros. split; try done; [by apply bstep_refl | tauto | lia]. Qed.

Lemma bmapped_adds f ad p p' bn b f' ad' :
  file_ok f ad -> adds f ad (bslot bn) b f' ad' -> 0 <= bn < MAXFILE ->
  (forall c, c ∈ p' -> c = b \/ c = bm \/ (c = slot f' ad' 12 /\ c <> 0) \/ c ∈ p) -> p ⊆ p' ->
  bmapped f ad p bn b f' ad' p'.
Proof.
  intros HF HA Hbn Hp Hpp. destruct (bslot_range bn Hbn) as [Hr H12].
  assert (Eb : iblk f' ad' bn = b) by (unfold iblk; rewrite (ad_slot _ _ _ _ _ _ HA), decide_True; done).
  pose proof (datablk_pos b (proj1 (ad_free _ _ _ _ _ _ HA))). split; try done.
  - by eapply adds_bstep.
  - lia.
  - intros c Hc Hne. unfold iblk. destruct (bslot_range c Hc).
    rewrite (ad_slot _ _ _ _ _ _ HA), decide_False; [done | | done].
    intros E. apply Hne. apply bslot_inj in E; lia.
  - rewrite (adds_pot _ _ _ _ _ _ HA), decide_False by done. lia.
  - intros Ho. by destruct Ho; apply HA.
Qed.

Lemma bmap_spec s ip i f p bn (Q : Z -> fs S -> Prop) :
  f_sb s = sb -> f_inodes s !! ip = Some i -> i_dev i = ROOTDEV ->
  brp (f_bl s) f ∅ p -> map_ok sb dstart f -> file_ok f (i_addrs i) -> 0 <= bn < MAXFILE ->
  (iblk f (i_addrs i) bn <> 0 \/ (2 <= pot f (i_addrs i))%nat) -> (size p + 5 < MAXTXN)%nat ->
  (forall r f' ad' p' x, brp x f' ∅ p' -> bmapped f (i_addrs i) p bn r f' ad' p' ->
     Q r (upd s x ip (with_addrs ad' i))) ->
  wp (bmap ip bn) Q s.
Proof.
  intros Hsb Hi Hdev HR Hm HF Hbn Hn Hc HQ. unfold bmap. apply wp_bind. eapply wp_geti; [exact Hi|].
  change NDIRECT with 12. pose proof (bslot_range bn Hbn) as [Hbr Hb12]. unfold iblk in Hn.
  unfold bslot in Hn, Hbr, Hb12. destruct (Z.ltb_spec bn 12) as [Hlt|Hge].
  - assert (Eb : iblk f (i_addrs i) bn = addr_get i bn).
    { unfold iblk, bslot, slot, addr_get. destruct (Z.ltb_spec bn 12); [|lia]. by destruct (Z.leb_spec bn 12); [|lia]. }
    rewrite <- Eb. destruct (Z.eqb_spec (iblk f (i_addrs i) bn) 0) as [E|E].
    + assert (Es : slot f (i_addrs i) bn = 0) by (unfold iblk, bslot in E; by destruct (Z.ltb_spec bn 12); [|lia]).
      eapply (alloc_direct s ip i); try done; [lia | | lia |].
      { destruct Hn as [Hn|Hn]; [done|]. unfold pot in Hn. case_decide; lia. }
      intros b x HA HR'. eapply HQ; [exact HR'|]. eapply bmapped_adds; try done.
      * unfold bslot. by destruct (Z.ltb_spec bn 12); [|lia].
      * intros c. set_solver.
      * set_solver.
    + apply wp_ret. rewrite <- (set_bl_self s), (upd_same s _ ip i Hi). eapply HQ; [exact HR | by apply bmapped_refl].
  - change NINDIRECT with 128. change MAXFILE with 140 in Hbn. destruct (Z.ltb_spec (bn - 12) 128); [|lia].
    apply wp_bind. eapply (bmap_ind s ip i); try done; [|lia|].
    { destruct Hn as [Hn|Hn].
      - left. intros E. apply Hn. unfold slot. destruct (Z.leb_spec (bn + 1) 12); [lia|].
        change (rd32 (i_addrs i) 48) with (slot f (i_addrs i) 12). by rewrite E.
      - unfold pot in Hn. case_decide; [right; lia | by left]. }
    intros f1 ad1 p1 x1 HR1 HB1 Hnz1 Hsame Hp1 Hpp1 Hsz1 Hpot1 Hold1.
    replace (bn - 12) with (bn + 1 - 13) by lia.
    assert (Ebn : bslot bn = bn + 1) by (unfold bslot; by destruct (Z.ltb_spec bn 12); [lia|]).
    change (i_dev i) with (i_dev (with_addrs ad1 i)).
    eapply (bmap_entry (upd s x1 ip (with_addrs ad1 i)) ip (with_addrs ad1 i)); try done; try lia.
    + by eapply upd_lookup.
    + by apply (gr_map _ _ _ _ (bs_grow _ _ _ _ HB1)).
    + apply HB1.
    + rewrite Hsame by lia. destruct Hn as [Hn|Hn]; [by left | right].
      rewrite <- Hpot1 in Hn. unfold pot in Hn. rewrite decide_False in Hn by done. lia.
    + intros Hs x HR2. cbn in Hs. unfold set_bl, upd. cbn. apply (HQ _ f1 ad1 p1); [done|].
      split; [done | unfold iblk; by rewrite Ebn | done | | | done | lia |].
      * intros c Hc' Hne. unfold iblk. destruct (bslot_range c Hc'). by rewrite Hsame.
      * intros c Hc'. destruct (Hp1 c Hc') as [?|[->|?]]; auto.
      * unfold iblk. rewrite Ebn. intros Ho. apply Hold1. intros E. apply Ho. unfold slot.
        destruct (Z.leb_spec (bn + 1) 12); [lia|]. change (rd32 (i_addrs i) 48) with (slot f (i_addrs i) 12). by rewrite E.
    + intros b f2 x HA HR2. cbn [with_addrs i_addrs] in HA, HR2. unfold set_bl, upd. cbn.
      apply (HQ _ f2 ad1 _ _ HR2). rewrite <- Ebn in HA.
      pose proof (bs_file _ _ _ _ HB1) as HF1. destruct (bslot_range bn Hbn) as [? Hb12'].
      assert (E12 : slot f2 ad1 12 = slot f1 ad1 12).
      { rewrite (ad_slot _ _ _ _ _ _ HA), decide_False by (done || (unfold NSLOT; lia)). done. }
      destruct (bmapped_adds f1 ad1 p1 ({[slot f1 ad1 12]} ∪ ({[b]} ∪ ({[bm]} ∪ p1))) bn b f2 ad1 HF1 HA Hbn)
        as [B1 B2 B3 B4 B5 B6 B7 B8].
      { intros c. rewrite E12. set_solver. }
      { set_solver. }
      split; try done.
      * by eapply bstep_trans.
      * intros c Hc' Hne. rewrite B4 by done. unfold iblk. destruct (bslot_range c Hc'). by rewrite Hsame.
      * intros c Hc'. destruct (B5 c Hc') as [?|[?|[?|Hx]]]; auto. destruct (Hp1 c Hx) as [?|[Hx'|?]]; auto.
        right. right. left. rewrite E12. by subst c.
      * by etrans.
      * lia.
      * intros Ho. exfalso. pose proof (ad_old _ _ _ _ _ _ HA) as Hz. rewrite Hsame in Hz by (rewrite Ebn; lia).
        by apply Ho.
Qed.

End file.
