(* ===== verification/FsIo.v ===== *)
(** * Reading and writing files: [readi], [writei]

    The content of a regular file or directory as a list of bytes, and the
    refinement of [readi] and [writei] to slicing and splicing that list. *)

From S2P Require Import Prelude CString Bio Layout Blocks Fs FsBlocks FsInode FsFile.

(** Byte [o] of a file. *)
Definition fbyte (f : Z -> block) (ad : list Z) (o : Z) : Z :=
  Kstring.nthZ (f (iblk f ad (o / BSIZE))) (o mod BSIZE).
Definition content (f : Z -> block) (ad : list Z) (n : Z) : list Z := fbyte f ad <$> seqZ 0 n.

(** A file without holes. *)
Definition dense (f : Z -> block) (ad : list Z) (n : Z) : Prop :=
  forall bn, 0 <= bn -> bn * BSIZE < n -> iblk f ad bn <> 0.

Lemma slice_lookup o n l k :
  0 <= o -> 0 <= n -> slice o n l !! k = if decide (Z.of_nat k < n) then l !! (Z.to_nat o + k)%nat else None.
Proof.
  intros Ho Hn. unfold slice. case_decide.
  - rewrite lookup_take_lt, lookup_drop by lia. done.
  - apply lookup_take_ge. lia.
Qed.

Lemma fmap_seqZ_lookup {A} (g : Z -> A) o n k :
  (g <$> seqZ o n) !! k = if decide (Z.of_nat k < n) then Some (g (o + Z.of_nat k)) else None.
Proof.
  rewrite list_lookup_fmap. case_decide.
  - rewrite lookup_seqZ_lt by lia. done.
  - rewrite lookup_seqZ_ge by lia. done.
Qed.

Lemma nthZ_lookup (l : list Z) k x : l !! k = Some x -> Kstring.nthZ l (Z.of_nat k) = x.
Proof. intros Hk. unfold Kstring.nthZ. by rewrite Nat2Z.id, nth_lookup, Hk. Qed.

Lemma lookup_nthZ (l : list Z) k : (k < length l)%nat -> l !! k = Some (Kstring.nthZ l (Z.of_nat k)).
Proof.
  intros Hk. destruct (lookup_lt_is_Some_2 l k Hk) as [x Hx]. by rewrite (nthZ_lookup _ _ _ Hx).
Qed.

(** Offsets inside the block of [o]. *)
Lemma block_offset o k : 0 <= o -> 0 <= k -> o mod BSIZE + k < BSIZE ->
  (o + k) / BSIZE = o / BSIZE /\ (o + k) mod BSIZE = o mod BSIZE + k.
Proof.
  intros Ho Hk Hl. unfold BSIZE in *. pose proof (Z.div_mod o 512). pose proof (Z.mod_pos_bound o 512).
  assert (E : o + k = 512 * (o / 512) + (o mod 512 + k)) by lia. split.
  - symmetry. apply (Z.div_unique _ _ _ (o mod 512 + k)); lia.
  - symmetry. apply (Z.mod_unique _ _ (o / 512)); lia.
Qed.

Lemma slice_fbyte f ad o m :
  0 <= o -> 0 <= m -> o mod BSIZE + m <= BSIZE -> length (f (iblk f ad (o / BSIZE))) = 512%nat ->
  slice (o mod BSIZE) m (f (iblk f ad (o / BSIZE))) = fbyte f ad <$> seqZ o m.
Proof.
  intros Ho Hm Hl Hlen. apply list_eq. intros k.
  pose proof (Z.mod_pos_bound o BSIZE ltac:(unfold BSIZE; lia)) as Hb.
  rewrite slice_lookup, fmap_seqZ_lookup by lia. case_decide; [|done].
  destruct (block_offset o (Z.of_nat k)) as [E1 E2]; [lia | lia | lia|].
  unfold BSIZE in *. rewrite lookup_nthZ by lia. unfold fbyte, BSIZE. rewrite E1, E2. do 2 f_equal. lia.
Qed.

Lemma seqZ_app' o m n : 0 <= m <= n -> seqZ o m ++ seqZ (o + m) (n - m) = seqZ o n.
Proof. intros. replace n with (m + (n - m)) at 2 by lia. by rewrite seqZ_app by lia. Qed.

Section io.
Context {S : Type} {BL : BlockLayer S} {BLO : BlockLayerOk S} {DS : DevSw S}.
Context (sb : superblock) (dstart : Z) (G : geometry sb dstart).
Implicit Types (f : Z -> block) (p : gset Z) (s : fs S) (x : S) (ad : list Z).

Local Abbreviation bm := (sb_bmapstart sb).
Local Abbreviation file_ok := (file_ok sb dstart).
Local Abbreviation map_ok := (map_ok sb dstart).

(** A locked in-memory inode whose file is in order. *)
Record open_file s ip i f p : Prop := {
  of_sb : f_sb s = sb;
  of_ip : f_inodes s !! ip = Some i;
  of_dev : i_dev i = ROOTDEV;
  of_rep : brp (f_bl s) f ∅ p;
  of_map : map_ok f;
  of_file : file_ok f (i_addrs i);
  of_dense : dense f (i_addrs i) (i_size i);
  of_size : 0 <= i_size i <= MAXFILE * BSIZE
}.

Lemma blk_dom f ad bn : file_ok f ad -> 0 <= bn < MAXFILE -> iblk f ad bn <> 0 -> bl_loggable (iblk f ad bn).
Proof.
  intros HF Hbn Hnz. destruct (bslot_range bn Hbn) as [Hr _].
  destruct (fo_slot _ _ _ _ HF _ Hr Hnz) as [Hd _]. by apply G.
Qed.

Lemma blk_ne_bm f ad bn : file_ok f ad -> 0 <= bn < MAXFILE -> iblk f ad bn <> 0 -> iblk f ad bn <> bm.
Proof.
  intros HF Hbn Hnz. destruct (bslot_range bn Hbn) as [Hr _]. by apply (file_no_zero sb dstart G f ad _ HF Hr Hnz).
Qed.

Lemma inuse_empty p : inuse ∅ p = p.
Proof. unfold inuse. rewrite map_img_empty_L. set_solver. Qed.

(** Reading one block of the file. *)
Lemma read_block {A} (k : nat -> M (fs S) A) s ip i f p bn (Q : A -> fs S -> Prop) :
  open_file s ip i f p -> (size p + 5 < MAXTXN)%nat -> 0 <= bn -> bn * BSIZE < i_size i ->
  (forall x j, brp x f (<[j := iblk f (i_addrs i) bn]> ∅) p -> wp (k j) Q (set_bl x s)) ->
  wp (let! b := bmap ip bn in let! ino := geti ip in let! bp := fbread (i_dev ino) b in k bp) Q s.
Proof.
  intros [O1 O2 O3 O4 O5 O6 O7 O8] Hp Hbn Hlt HQ. assert (Hnz := O7 bn Hbn Hlt).
  assert (Hmax : bn < MAXFILE) by (unfold MAXFILE, NDIRECT, NINDIRECT, BSIZE in *; lia).
  apply wp_bind. eapply bmap_spec; try done; [by left|].
  intros r f' ad' p' x HR' HB. destruct (bp_old _ _ _ _ _ _ _ _ _ _ HB Hnz) as (-> & -> & ->).
  rewrite (bp_r _ _ _ _ _ _ _ _ _ _ HB). rewrite <- (upd_same s x ip i O2).
  apply wp_bind. eapply wp_geti; [exact O2|]. rewrite O3. apply wp_bind.
  eapply wp_fbread; [exact HR' | apply bl_loggable_dom; by apply blk_dom | rewrite map_img_empty_L; set_solver | |].
  - right. rewrite inuse_empty. unfold MAXTXN, NBUF in *. lia.
  - intros j y _ HR. by apply HQ.
Qed.

Lemma open_file_bl s ip i f p x : open_file s ip i f p -> brp x f ∅ p -> open_file (set_bl x s) ip i f p.
Proof. intros [] ?. by split. Qed.

Lemma readi_loop_spec fuel s ip i f p tot off n dst (Q : list Z -> fs S -> Prop) :
  open_file s ip i f p -> (size p + 5 < MAXTXN)%nat ->
  0 <= tot <= n -> n < 2 ^ 32 -> 0 <= off -> off + (n - tot) <= i_size i -> n - tot <= Z.of_nat fuel ->
  (forall x, brp x f ∅ p -> Q (dst ++ (fbyte f (i_addrs i) <$> seqZ off (n - tot))) (set_bl x s)) ->
  wp (readi_loop fuel ip tot off n dst) Q s.
Proof.
  revert s tot off dst. induction fuel as [|fuel IH]; intros s tot off dst HO Hp Ht Hn32 Hoff Hsz Hfu HQ; cbn [readi_loop].
  - destruct (Z.ltb_spec tot n); [lia|]. apply wp_ret. replace (n - tot) with 0 in HQ by lia.
    rewrite app_nil_r in HQ. rewrite <- (set_bl_self s). apply HQ, HO.
  - destruct (Z.ltb_spec tot n); cycle 1.
    { apply wp_ret. replace (n - tot) with 0 in HQ by lia. rewrite app_nil_r in HQ. rewrite <- (set_bl_self s). apply HQ, HO. }
    pose proof (Z.mod_pos_bound off BSIZE ltac:(unfold BSIZE; lia)) as Hmod.
    pose proof (Z.div_mod off BSIZE ltac:(unfold BSIZE; lia)) as Hdm. pose proof (of_size _ _ _ _ _ HO) as Hmax.
    change (MAXFILE * BSIZE) with 71680 in Hmax.
    assert (Hbn : 0 <= off / BSIZE) by (apply Z.div_pos; unfold BSIZE; lia).
    rewrite (u32_small (n - tot)) by lia. set (m := (n - tot) `min` (BSIZE - off mod BSIZE)).
    assert (Hm : 0 < m /\ m <= n - tot /\ off mod BSIZE + m <= BSIZE) by (unfold m; lia).
    rewrite (u32_small (tot + m)), (u32_small (off + m)) by lia.
    eapply read_block; [exact HO | done | done | lia|]. intros x j HR1.
    apply wp_bind. eapply wp_fdata; [exact HR1 | apply lookup_insert_eq|].
    apply wp_bind. eapply wp_fbrelse; [exact HR1 | done|]. intros y HR2.
    assert (Hmx : off / BSIZE < MAXFILE) by (change MAXFILE with 140; unfold BSIZE in *; lia).
    rewrite slice_fbyte; [|lia|lia|lia|].
    + apply IH; [by apply (open_file_bl s) | done | lia | done | lia | lia | lia |].
      intros z HR3. replace (n - (tot + m)) with (n - tot - m) by lia. rewrite <- (assoc_L app), <- fmap_app, seqZ_app' by lia.
      change (set_bl z (set_bl y (set_bl x s))) with (set_bl z s). by apply HQ.
    + eapply brp_len; [exact HR2|]. apply bl_loggable_dom, blk_dom; [apply HO | done|].
      apply (of_dense _ _ _ _ _ HO); lia.
Qed.

(** ** Writing *)

Lemma slot_fup f ad b d k : b <> slot f ad 12 -> slot (fup f b d) ad k = slot f ad k.
Proof.
  intros Hb. unfold slot at 1 2. destruct (k <=? 12); [done|].
  change (rd32 ad 48) with (slot f ad 12). destruct (slot f ad 12 =? 0); [done|]. by rewrite fup_ne.
Qed.

(** The bytes of [src] are at offset [off]; the other bytes of allocated
    blocks are as before. *)
Record stored f ad (off : Z) (src : list Z) f' ad' : Prop := {
  sd_grow : grows sb dstart f ad f' ad';
  sd_file : file_ok f' ad';
  sd_new : forall o, off <= o < off + Z.of_nat (length src) ->
    iblk f' ad' (o / BSIZE) <> 0 /\ fbyte f' ad' o = Kstring.nthZ src (o - off);
  sd_old : forall o, 0 <= o < MAXFILE * BSIZE -> iblk f ad (o / BSIZE) <> 0 ->
    ~ (off <= o < off + Z.of_nat (length src)) -> fbyte f' ad' o = fbyte f ad o
}.

Lemma div_range o : 0 <= o < MAXFILE * BSIZE -> 0 <= o / BSIZE < MAXFILE.
Proof.
  unfold BSIZE. change MAXFILE with 140. intros. pose proof (Z.div_mod o 512). pose proof (Z.mod_pos_bound o 512). lia.
Qed.

Lemma stored_nil f ad off : file_ok f ad -> stored f ad off [] f ad.
Proof. intros. split; [apply grows_refl | done | simpl; lia | done]. Qed.

Lemma grows_iblk f ad f' ad' bn :
  grows sb dstart f ad f' ad' -> 0 <= bn < MAXFILE -> iblk f ad bn <> 0 -> iblk f' ad' bn = iblk f ad bn.
Proof. intros HG Hbn. apply (gr_slot _ _ _ _ _ _ HG), bslot_range, Hbn. Qed.

Lemma nthZ_app_l (a b : list Z) k : 0 <= k < Z.of_nat (length a) -> Kstring.nthZ (a ++ b) k = Kstring.nthZ a k.
Proof. intros. unfold Kstring.nthZ. apply app_nth1. lia. Qed.
Lemma nthZ_app_r (a b : list Z) k :
  Z.of_nat (length a) <= k -> Kstring.nthZ (a ++ b) k = Kstring.nthZ b (k - Z.of_nat (length a)).
Proof. intros. unfold Kstring.nthZ. rewrite app_nth2 by lia. f_equal. lia. Qed.

Lemma stored_app f ad off a b f1 ad1 f2 ad2 :
  0 <= off -> off + Z.of_nat (length (a ++ b)) <= MAXFILE * BSIZE ->
  stored f ad off a f1 ad1 -> stored f1 ad1 (off + Z.of_nat (length a)) b f2 ad2 -> stored f ad off (a ++ b) f2 ad2.
Proof.
  intros Hoff Hmax H1 H2. rewrite length_app in Hmax. split.
  - eapply grows_trans; [exact G | apply H1 | apply H2].
  - apply H2.
  - rewrite length_app. intros o Ho. assert (Hr := div_range o ltac:(lia)).
    destruct (decide (o < off + Z.of_nat (length a))).
    + destruct (sd_new _ _ _ _ _ _ H1 o) as [Hn Hb]; [lia|]. split.
      * rewrite (grows_iblk f1 ad1 f2 ad2); [done | apply H2 | done | done].
      * rewrite (sd_old _ _ _ _ _ _ H2) by (done || lia). rewrite nthZ_app_l by lia. done.
    + destruct (sd_new _ _ _ _ _ _ H2 o) as [Hn Hb]; [lia|]. split; [done|].
      rewrite Hb, nthZ_app_r by lia. f_equal. lia.
  - rewrite length_app. intros o Ho Hn Hout. assert (Hr := div_range o Ho).
    rewrite (sd_old _ _ _ _ _ _ H2) by (done || lia || (rewrite (grows_iblk f ad f1 ad1); [done | apply H1 | done | done])).
    apply (sd_old _ _ _ _ _ _ H1); [done | done | lia].
Qed.

Lemma nthZ_splice k (a l : list Z) j :
  (k + length a <= length l)%nat -> 0 <= j ->
  Kstring.nthZ (splice k a l) j =
    if decide (Z.of_nat k <= j < Z.of_nat k + Z.of_nat (length a)) then Kstring.nthZ a (j - Z.of_nat k) else Kstring.nthZ l j.
Proof.
  intros Hl Hj. unfold Kstring.nthZ. rewrite !nth_lookup. case_decide.
  - rewrite lookup_splice_new by lia. do 2 f_equal. lia.
  - rewrite lookup_splice_old by lia. done.
Qed.


Lemma data_ne_ind f ad bn : file_ok f ad -> 0 <= bn < MAXFILE -> iblk f ad bn <> 0 -> iblk f ad bn <> slot f ad 12.
Proof.
  intros HF Hbn Hnz E. destruct (bslot_range bn Hbn) as [Hr H12].
  apply H12, (fo_inj _ _ _ _ HF); done || (unfold NSLOT; lia).
Qed.

(** Overwriting a data block of the file. *)
Lemma write_data f ad bn d :
  file_ok f ad -> 0 <= bn < MAXFILE -> iblk f ad bn <> 0 ->
  let f' := fup f (iblk f ad bn) d in
  grows sb dstart f ad f' ad /\ file_ok f' ad /\ (forall c, iblk f' ad c = iblk f ad c) /\
  (forall c, 0 <= c < MAXFILE -> c <> bn -> f' (iblk f ad c) = f (iblk f ad c)).
Proof.
  intros HF Hbn Hnz f'. destruct (bslot_range bn Hbn) as [Hr H12].
  destruct (fo_slot _ _ _ _ HF _ Hr Hnz) as [Hd Hu]. fold (iblk f ad bn) in Hd, Hu.
  assert (Hd' := Hd). unfold datablk in Hd'. pose proof (g_bmap _ _ G) as [_ Hbm]. pose proof (g_start _ _ G).
  pose proof (data_ne_ind f ad bn HF Hbn Hnz) as Hi12.
  assert (Hs : forall k, slot f' ad k = slot f ad k) by (intros k; by apply slot_fup).
  assert (Hus : forall c, used sb f' c = used sb f c) by (intros c; unfold used, f'; by rewrite fup_ne by lia).
  split_and!.
  - split.
    + intros k Hk Hk0. apply Hs.
    + intros b Hb Hb0 Hbb Hub Hn. unfold f'. apply fup_ne. intros ->. apply (Hn (bslot bn)); [done|]. apply Hs.
    + intros c _. by rewrite Hus.
    + intros c _. rewrite Hus. by left.
    + intros k Hk Hk0. by rewrite Hs.
    + intros [M1 M2]. split; [unfold f'; rewrite fup_ne by lia; done|]. intros b Hb. rewrite Hus. by apply M2.
  - destruct HF as [F1 F2 F3 F4]. split; try done.
    + intros k Hk. rewrite Hs, Hus. by apply F3.
    + intros k j Hk Hj. rewrite !Hs. by apply F4.
  - intros c. apply Hs.
  - intros c Hc Hne. unfold f'. apply fup_ne. intros E. apply Hne. destruct (bslot_range c Hc) as [Hcr _].
    apply bslot_inj; [lia | lia|]. apply (fo_inj _ _ _ _ HF); try done. unfold iblk in E, Hnz. congruence.
Qed.

Lemma write_block_stored f ad p off a r f1 ad1 p1 :
  0 <= off -> off mod BSIZE + Z.of_nat (length a) <= BSIZE -> off / BSIZE < MAXFILE ->
  length (f1 r) = 512%nat ->
  bmapped sb dstart f ad p (off / BSIZE) r f1 ad1 p1 ->
  stored f ad off a (fup f1 r (splice (Z.to_nat (off mod BSIZE)) a (f1 r))) ad1.
Proof.
  intros Hoff Hla Hmax Hlen HB. assert (Hb0 : 0 <= off / BSIZE) by (apply Z.div_pos; unfold BSIZE; lia).
  pose proof (bp_step _ _ _ _ _ _ _ _ _ _ HB) as [SG SF SD]. pose proof (bp_nz _ _ _ _ _ _ _ _ _ _ HB) as Hnz.
  pose proof (bp_r _ _ _ _ _ _ _ _ _ _ HB) as Er. rewrite Er in Hnz.
  destruct (write_data f1 ad1 (off / BSIZE) (splice (Z.to_nat (off mod BSIZE)) a (f1 r)) SF ltac:(lia) Hnz)
    as (WG & WF & WI & WD). rewrite <- Er in WG, WF, WI, WD. set (f2 := fup f1 r _) in *.
  pose proof (Z.mod_pos_bound off BSIZE ltac:(unfold BSIZE; lia)) as Hm.
  assert (Hdat : forall o, 0 <= o < MAXFILE * BSIZE -> o / BSIZE = off / BSIZE ->
    fbyte f2 ad1 o = if decide (off <= o < off + Z.of_nat (length a)) then Kstring.nthZ a (o - off)
                     else Kstring.nthZ (f1 r) (o mod BSIZE)).
  { intros o Ho Ed. unfold fbyte. rewrite WI, Ed, <- Er. unfold f2. rewrite fup_eq.
    pose proof (Z.mod_pos_bound o BSIZE ltac:(unfold BSIZE; lia)) as Hmo.
    pose proof (Z.div_mod o BSIZE ltac:(unfold BSIZE; lia)). pose proof (Z.div_mod off BSIZE ltac:(unfold BSIZE; lia)).
    rewrite nthZ_splice, Z2Nat.id by (unfold BSIZE in *; lia).
    rewrite Ed in *. repeat case_decide; lia || (f_equal; lia). }
  split; [by eapply grows_trans | done | |].
  - intros o Ho. assert (Ed : o / BSIZE = off / BSIZE).
    { replace o with (off + (o - off)) by lia. apply block_offset; lia. }
    split; [by rewrite WI, Ed|]. rewrite Hdat; [by rewrite decide_True | | done].
    pose proof (Z.div_mod off BSIZE ltac:(unfold BSIZE; lia)). change MAXFILE with 140 in *. unfold BSIZE in *. lia.
  - intros o Ho Hn Hout. assert (Hr := div_range o Ho). destruct (bslot_range _ Hr) as [Hs Hs12].
    pose proof (grows_iblk _ _ _ _ _ SG Hr Hn) as E1. pose proof (SD _ Hs Hs12 Hn) as E2. fold (iblk f ad (o / BSIZE)) in E2.
    unfold fbyte at 2. rewrite <- E2, <- E1. destruct (decide (o / BSIZE = off / BSIZE)) as [Ed|Ed].
    + rewrite Hdat, decide_False by done. rewrite Ed, <- Er. done.
    + unfold fbyte. rewrite WI. by rewrite WD.
Qed.


(** Log space: the free map and the indirect block are logged once. *)
Definition bud f ad p : nat :=
  (size ({[bm]} ∪ p) + if decide (slot f ad 12 <> 0%Z /\ slot f ad 12 ∈ {[bm]} ∪ p) then 0 else 1)%nat.

Lemma bud_pin f ad p : (size p <= bud f ad p)%nat.
Proof. unfold bud. assert (size p <= size ({[bm]} ∪ p))%nat by (apply subseteq_size; set_solver). lia. Qed.

Lemma bud_bound f ad p : (bud f ad p <= size p + 2)%nat.
Proof. unfold bud. pose proof (size_add bm p). case_decide; lia. Qed.

Lemma bud_step f ad p bn r f1 ad1 p1 f2 :
  bmapped sb dstart f ad p bn r f1 ad1 p1 -> slot f2 ad1 12 = slot f1 ad1 12 ->
  (bud f2 ad1 ({[r]} ∪ p1) <= Datatypes.S (bud f ad p))%nat.
Proof.
  intros HB E2. unfold bud. rewrite E2. set (i1 := slot f1 ad1 12).
  pose proof (bp_pin _ _ _ _ _ _ _ _ _ _ HB) as Hpin. pose proof (bp_mono _ _ _ _ _ _ _ _ _ _ HB) as Hmono. fold i1 in Hpin.
  set (A := {[bm]} ∪ p) in *. set (A2 := {[bm]} ∪ ({[r]} ∪ p1)).
  assert (Hkeep : slot f ad 12 <> 0 -> i1 = slot f ad 12).
  { apply (gr_slot _ _ _ _ _ _ (bs_grow _ _ _ _ _ _ (bp_step _ _ _ _ _ _ _ _ _ _ HB))). unfold NSLOT. lia. }
  assert (HA : A ⊆ A2) by (unfold A, A2; set_solver).
  destruct (decide (i1 <> 0%Z /\ i1 ∈ A2)) as [[Hi1 Hin]|Hni].
  - assert (Hsub : A2 ⊆ {[r]} ∪ ({[i1]} ∪ A)).
    { unfold A2, A. intros c Hc. destruct (decide (c ∈ p1)) as [Hc1|]; [destruct (Hpin c Hc1) as [?|[?|[[? ?]|?]]]|]; set_solver. }
    apply subseteq_size in Hsub. pose proof (size_add r ({[i1]} ∪ A)). pose proof (size_add i1 A).
    destruct (decide (i1 ∈ A)) as [Hia|Hia].
    + assert (E : {[i1]} ∪ A = A) by set_solver. rewrite E in *. case_decide; lia.
    + rewrite decide_False; [lia|]. intros [Hs Hsa]. apply Hia. by rewrite Hkeep.
  - assert (Hsub : A2 ⊆ {[r]} ∪ A).
    { unfold A2, A. intros c Hc. destruct (decide (c ∈ p1)) as [Hc1|]; [destruct (Hpin c Hc1) as [?|[?|[[? ?]|?]]]|]; set_solver. }
    apply subseteq_size in Hsub. pose proof (size_add r A). rewrite (decide_False (P := slot f ad 12 <> 0%Z /\ _)); [lia|].
    intros [Hs Hsa]. apply Hni. rewrite Hkeep by done. split; [done|]. by apply HA.
Qed.

Lemma pot_same f f' ad : slot f' ad 12 = slot f ad 12 -> (forall c, used sb f' c = used sb f c) -> pot sb f' ad = pot sb f ad.
Proof.
  intros Es Hu. unfold pot, nfree. rewrite Es. do 2 f_equal. apply set_eq. intros c. rewrite !elem_of_filter. by rewrite Hu.
Qed.

Definition covers f ad (bn : Z) (k : nat) : Prop :=
  (forall c, bn <= c < bn + Z.of_nat k -> iblk f ad c <> 0) \/ (k + 1 <= pot sb f ad)%nat.

Lemma writei_loop_spec fuel k s ip i f p src tot off n (Q : Z -> fs S -> Prop) :
  f_sb s = sb -> f_inodes s !! ip = Some i -> i_dev i = ROOTDEV ->
  brp (f_bl s) f ∅ p -> map_ok f -> file_ok f (i_addrs i) ->
  Forall is_byte src -> Z.of_nat (length src) = n - tot ->
  0 <= tot <= n -> n < 2 ^ 32 -> 0 <= off -> off + (n - tot) <= MAXFILE * BSIZE ->
  (tot < n -> off + (n - tot) <= (off / BSIZE + Z.of_nat k) * BSIZE) -> off / BSIZE + Z.of_nat k <= MAXFILE ->
  n - tot <= Z.of_nat fuel -> covers f (i_addrs i) (off / BSIZE) k -> (bud f (i_addrs i) p + k + 4 < MAXTXN)%nat ->
  (forall f' ad' p' x, brp x f' ∅ p' -> stored f (i_addrs i) off src f' ad' -> (bud f' ad' p' <= bud f (i_addrs i) p + k)%nat ->
     p ⊆ p' -> ((forall c, off / BSIZE <= c < off / BSIZE + Z.of_nat k -> iblk f (i_addrs i) c <> 0) -> ad' = i_addrs i) ->
     (pot sb f (i_addrs i) <= k + pot sb f' ad')%nat ->
     Q (off + (n - tot)) (upd s x ip (with_addrs ad' i))) ->
  wp (writei_loop fuel ip src tot off n) Q s.
Proof.
  revert k s i f p src tot off. induction fuel as [|fuel IH];
    intros k s i f p src tot off Hsb Hi Hdev HR Hm HF Hby Hlen Ht Hn Hoff Hmax Hk HkM Hfu Hcov Hbud HQ; cbn [writei_loop].
  - destruct (Z.ltb_spec tot n); [lia|]. apply wp_ret. assert (src = []) as -> by (apply nil_length_inv; lia).
    replace (n - tot) with 0 in HQ by lia. rewrite Z.add_0_r in HQ. rewrite <- (set_bl_self s), (upd_same s _ ip i Hi).
    eapply HQ; [exact HR | by apply stored_nil | lia | done | done | lia].
  - destruct (Z.ltb_spec tot n); cycle 1.
    { apply wp_ret. assert (src = []) as -> by (apply nil_length_inv; lia).
      replace (n - tot) with 0 in HQ by lia. rewrite Z.add_0_r in HQ. rewrite <- (set_bl_self s), (upd_same s _ ip i Hi).
      eapply HQ; [exact HR | by apply stored_nil | lia | done | done | lia]. }
    pose proof (Z.mod_pos_bound off BSIZE ltac:(unfold BSIZE; lia)) as Hmod.
    pose proof (Z.div_mod off BSIZE ltac:(unfold BSIZE; lia)) as Hdm.
    assert (Hbn : 0 <= off / BSIZE) by (apply Z.div_pos; unfold BSIZE; lia).
    specialize (Hk ltac:(lia)). assert (Hk1 : (0 < k)%nat) by (destruct k; [exfalso; unfold BSIZE in *; lia | lia]).
    assert (H32 : MAXFILE * BSIZE < 2 ^ 32) by (vm_compute; reflexivity).
    rewrite (u32_small (n - tot)) by lia. set (m := (n - tot) `min` (BSIZE - off mod BSIZE)).
    assert (Hm' : 0 < m /\ m <= n - tot /\ off mod BSIZE + m <= BSIZE /\ (m = n - tot \/ off mod BSIZE + m = BSIZE)) by (unfold m; lia).
    rewrite (u32_small (tot + m)), (u32_small (off + m)) by lia.
    apply wp_bind. eapply bmap_spec; [exact G | done | done | done | exact HR | done | done | lia | | |].
    { destruct Hcov as [Hc|Hc]; [left; apply Hc; lia | right; lia]. }
    { pose proof (bud_pin f (i_addrs i) p). lia. }
    intros r f1 ad1 p1 x1 HR1 HB. assert (Hbn' : 0 <= off / BSIZE < MAXFILE) by lia.
    pose proof (bp_step _ _ _ _ _ _ _ _ _ _ HB) as [SG SF SD]. pose proof (bp_nz _ _ _ _ _ _ _ _ _ _ HB) as Hnz.
    pose proof (bp_r _ _ _ _ _ _ _ _ _ _ HB) as Er.
    assert (Hlog : bl_loggable r) by (rewrite Er in *; by apply blk_dom).
    set (a := take (Z.to_nat m) src). assert (Hla : Z.of_nat (length a) = m) by (unfold a; rewrite length_take; lia).
    set (f2 := fup f1 r (splice (Z.to_nat (off mod BSIZE)) a (f1 r))).
    assert (E12 : slot f2 ad1 12 = slot f1 ad1 12) by (apply slot_fup; rewrite Er in *; by apply data_ne_ind).
    pose proof (bud_step _ _ _ _ _ _ _ _ f2 HB E12) as Hb2. pose proof (bud_pin f2 ad1 ({[r]} ∪ p1)) as Hp2.
    assert (Hp1 : (size p1 <= size ({[r]} ∪ p1))%nat) by (apply subseteq_size; set_solver).
    pose proof (brp_len _ _ _ _ _ HR1 (bl_loggable_dom _ Hlog)) as Hlr.
    assert (HST : stored f (i_addrs i) off a f2 ad1) by (eapply write_block_stored; [done | lia | lia | done | exact HB]).
    apply wp_bind. eapply wp_geti; [by eapply upd_lookup|]. cbn [with_addrs i_dev]. rewrite Hdev.
    apply wp_bind. eapply wp_fbread; [exact HR1 | by apply bl_loggable_dom | rewrite map_img_empty_L; set_solver | |].
    { right. rewrite inuse_empty. unfold MAXTXN, NBUF in *. lia. }
    intros j x2 _ HR2. apply wp_bind. eapply wp_fdata; [exact HR2 | apply lookup_insert_eq|].
    eapply wp_fwrite_bind; [exact HR2 | apply lookup_insert_eq | done | | lia|].
    { split; [by rewrite length_splice|]. apply splice_Forall; [by apply Forall_take|].
      by apply (brp_ok _ _ _ _ _ HR1 (bl_loggable_dom _ Hlog)). }
    intros x3 HR3. apply wp_bind. eapply wp_fbrelse; [exact HR3 | done|]. intros x4 HR4. fold f2 in HR4.
    set (k' := if decide (m = n - tot) then 0%nat else (k - 1)%nat).
    assert (Hk' : (m = n - tot /\ k' = 0%nat /\ (off + m) / BSIZE <= MAXFILE) \/
      (m <> n - tot /\ k' = (k - 1)%nat /\ (off + m) / BSIZE = off / BSIZE + 1)).
    { unfold k'. case_decide; [left|right]; split_and!; try done.
      - apply Z.div_le_upper_bound; unfold BSIZE in *; lia.
      - symmetry. apply (Z.div_unique _ _ _ 0); unfold BSIZE in *; lia. }
    assert (Hpot2 : (pot sb f (i_addrs i) <= 1 + pot sb f2 ad1)%nat).
    { pose proof (bp_pot _ _ _ _ _ _ _ _ _ _ HB). rewrite (pot_same f1 f2); [lia | done|].
      intros c. unfold used, f2. rewrite fup_ne; [done|]. rewrite Er in *. apply not_eq_sym. by apply blk_ne_bm. }
    eapply (IH k' (upd s x4 ip (with_addrs ad1 i)) (with_addrs ad1 i) f2 ({[r]} ∪ p1)); try done.
    + by eapply upd_lookup.
    + by apply (gr_map _ _ _ _ _ _ (sd_grow _ _ _ _ _ _ HST)).
    + apply HST.
    + by apply Forall_drop.
    + rewrite length_drop. lia.
    + lia.
    + lia.
    + lia.
    + intros Hlt. destruct Hk' as [?|(_ & -> & ->)]; [lia|]. unfold BSIZE in *. lia.
    + destruct Hk' as [(_ & -> & ?)|(_ & -> & ->)]; lia.
    + lia.
    + destruct Hk' as [(_ & -> & _)|(_ & -> & ->)]; [left; simpl; lia|]. destruct Hcov as [Hc|Hc]; [left|right].
      * intros c Hc'. rewrite (grows_iblk f (i_addrs i)); [apply Hc; lia | apply HST | lia | apply Hc; lia].
      * cbn [with_addrs i_addrs]. lia.
    + destruct Hk' as [(_ & -> & _)|(_ & -> & _)]; cbn [with_addrs i_addrs]; lia.
    + intros f' ad' p' x HR' HS Hb' Hpp Hsame Hpot'. cbn [with_addrs i_addrs] in *. unfold upd in *. cbn. rewrite list_insert_insert_eq.
      replace (off + m + (n - (tot + m))) with (off + (n - tot)) by lia.
      eapply HQ; [exact HR' | | destruct Hk' as [(_ & E & _)|(_ & E & _)]; lia | | | destruct Hk' as [(_ & E & _)|(_ & E & _)]; lia].
      2:{ transitivity p1; [apply (bp_mono _ _ _ _ _ _ _ _ _ _ HB)|]. transitivity ({[r]} ∪ p1); [apply union_subseteq_r | exact Hpp]. }
      2:{ intros Hex. destruct (bp_old _ _ _ _ _ _ _ _ _ _ HB) as (Ef & Ea & _); [apply Hex; lia|].
          rewrite Hsame; [done|]. intros c Hc. rewrite (grows_iblk f (i_addrs i));
            [apply Hex | apply HST | | apply Hex]; destruct Hk' as [(_ & E & _)|(_ & E & E')]; rewrite E, ?E' in *; lia. }
      rewrite <- (take_drop (Z.to_nat m) src). fold a. eapply stored_app; [done | | exact HST |].
      * unfold a. rewrite take_drop. lia.
      * by rewrite Hla.
Qed.


(** ** [readi] and [writei] *)

(** The bytes of a file; a small file keeps them in the inode. *)
Definition data f (i : inode) : list Z :=
  if i_type i =? T_SFILE then take (Z.to_nat (i_size i)) (i_addrs i) else content f (i_addrs i) (i_size i).

Record inode_ok f (i : inode) : Prop := {
  io_dev : i_dev i = ROOTDEV;
  io_inum : 0 <= i_inum i < sb_ninodes sb;
  io_range : inode_range i;
  io_type : i_type i <> T_DEV;
  io_small : i_type i = T_SFILE -> i_size i <= ADDRS_SIZE;
  io_file : i_type i <> T_SFILE -> file_ok f (i_addrs i) /\ dense f (i_addrs i) (i_size i) /\ i_size i <= MAXFILE * BSIZE
}.

(** The inode at [ip] is cached, and its file is in order. *)
Record cached s ip i f p : Prop := {
  ca_sb : f_sb s = sb;
  ca_ip : f_inodes s !! ip = Some i;
  ca_rep : brp (f_bl s) f ∅ p;
  ca_map : map_ok f;
  ca_ok : inode_ok f i
}.

Lemma cached_open s ip i f p : cached s ip i f p -> i_type i <> T_SFILE -> open_file s ip i f p.
Proof.
  intros [C1 C2 C3 C4 [I1 I2 I3 I4 I5 I6]] Ht. destruct (I6 Ht) as (F1 & F2 & F3). split; try done.
  split; [apply I3 | done].
Qed.

Lemma length_content f ad n : 0 <= n -> length (content f ad n) = Z.to_nat n.
Proof. intros. unfold content. by rewrite length_fmap, length_seqZ. Qed.

Lemma slice_content f ad n o m : 0 <= o -> 0 <= m -> o + m <= n -> slice o m (content f ad n) = fbyte f ad <$> seqZ o m.
Proof.
  intros. apply list_eq. intros k. rewrite slice_lookup, fmap_seqZ_lookup by lia. case_decide; [|done].
  unfold content. rewrite fmap_seqZ_lookup, decide_True by lia. do 2 f_equal. lia.
Qed.

Lemma slice_take (l : list Z) n o m : 0 <= o -> 0 <= m -> o + m <= n -> slice o m (take (Z.to_nat n) l) = slice o m l.
Proof.
  intros. apply list_eq. intros k. rewrite !slice_lookup by lia. case_decide; [|done]. apply lookup_take_lt. lia.
Qed.

(** What [read] of [n] bytes at [off] returns for a file with bytes [d]. *)
Definition read_result (d : list Z) (off n : Z) : Z * list Z :=
  let size := Z.of_nat (length d) in
  if (size <? off) || (2 ^ 32 <=? off + n) then (-1, [])
  else let m := Z.min n (size - off) in (m, slice off m d).

Lemma length_data f i : inode_ok f i -> Z.of_nat (length (data f i)) = i_size i.
Proof.
  intros HI. pose proof (io_range _ _ HI) as [_ _ _ _ Hz Hl _]. unfold data. destruct (Z.eqb_spec (i_type i) T_SFILE).
  - rewrite length_take, Hl. pose proof (io_small _ _ HI e). change ADDRS_SIZE with 52 in *. lia.
  - rewrite length_content; lia.
Qed.

Lemma readi_spec s ip i f p off n (Q : Z * list Z -> fs S -> Prop) :
  cached s ip i f p -> (size p + 5 < MAXTXN)%nat -> 0 <= off < 2 ^ 32 -> 0 <= n < 2 ^ 32 ->
  (forall x, brp x f ∅ p -> Q (read_result (data f i) off n) (set_bl x s)) ->
  wp (readi ip off n) Q s.
Proof.
  intros HC Hp Hoff Hn HQ. pose proof (ca_ok _ _ _ _ _ HC) as HI. pose proof (io_range _ _ HI) as [_ _ _ _ Hz Hl _].
  unfold readi. apply wp_bind. eapply wp_geti; [apply HC|].
  destruct (Z.eqb_spec (i_type i) T_DEV); [by destruct (io_type _ _ HI)|].
  unfold read_result in HQ. rewrite (length_data _ _ HI) in HQ. rewrite u32_add_wrap by done.
  destruct ((i_size i <? off) || (2 ^ 32 <=? off + n)) eqn:E.
  { apply wp_ret. rewrite <- (set_bl_self s). apply HQ, HC. }
  apply orb_false_iff in E as [E1 E2]. rewrite (u32_small (off + n)) by lia.
  assert (Em : (if i_size i <? off + n then u32 (i_size i - off) else n) = n `min` (i_size i - off)).
  { destruct (Z.ltb_spec (i_size i) (off + n)); [rewrite u32_small by lia|]; lia. }
  rewrite Em. cbn zeta in HQ. set (m := n `min` (i_size i - off)) in *. assert (Hm : 0 <= m /\ off + m <= i_size i) by lia.
  destruct (Z.eqb_spec (i_type i) T_SFILE) as [Es|Es].
  - pose proof (io_small _ _ HI Es). destruct (Z.ltb_spec ADDRS_SIZE (off + m)); [lia|]. apply wp_ret.
    change ADDRS_SIZE with 52 in *. rewrite i32_small by lia. unfold data in HQ.
    destruct (Z.eqb_spec (i_type i) T_SFILE); [|done]. rewrite slice_take in HQ by lia. rewrite <- (set_bl_self s). apply HQ, HC.
  - pose proof (cached_open _ _ _ _ _ HC Es) as HO. pose proof (of_size _ _ _ _ _ HO) as Hsz. change (MAXFILE * BSIZE) with 71680 in Hsz.
    apply wp_bind. eapply readi_loop_spec; [exact HO | done | lia | lia | lia | lia | lia |].
    intros x HR. apply wp_ret. rewrite i32_small by lia. rewrite Z.sub_0_r. cbn [app].
    unfold data in HQ. destruct (Z.eqb_spec (i_type i) T_SFILE); [done|]. rewrite slice_content in HQ by lia. by apply HQ.
Qed.


(** What writing a file leaves alone: every block in use that the file does
    not own, and every other inode on disk. *)
Record isolates f (i : inode) f' (i' : inode) : Prop := {
  is_frame : forall b, bl_dom b -> b <> 0 -> b <> bm -> b <> IBLOCK (i_inum i) sb -> used sb f b = true ->
    (forall k, 0 <= k < NSLOT -> slot f' (i_addrs i') k <> b) -> f' b = f b;
  is_inodes : forall j, 0 <= i_inum j < sb_ninodes sb -> i_inum j <> i_inum i -> on_disk sb f' j = on_disk sb f j;
  is_slot : forall k, 0 <= k < NSLOT -> slot f (i_addrs i) k <> 0 -> slot f' (i_addrs i') k = slot f (i_addrs i) k;
  is_fresh : forall k, 0 <= k < NSLOT -> slot f (i_addrs i) k = 0 -> slot f' (i_addrs i') k <> 0 ->
    used sb f (slot f' (i_addrs i') k) = false;
  is_used : forall c, 0 <= c -> used sb f c = true -> used sb f' c = true;
  is_new : forall c, 0 < c -> used sb f' c = true -> used sb f c = true \/ exists k, 0 <= k < NSLOT /\ slot f' (i_addrs i') k = c
}.

(** Changing an inode block does not affect file content or the free map. *)
Lemma meta_keep f ad inum d :
  file_ok f ad -> 0 <= inum < sb_ninodes sb ->
  let f' := fup f (IBLOCK inum sb) d in
  file_ok f' ad /\ (forall k, slot f' ad k = slot f ad k) /\ (forall c, used sb f' c = used sb f c) /\
  (forall o, 0 <= o < MAXFILE * BSIZE -> iblk f ad (o / BSIZE) <> 0 -> fbyte f' ad o = fbyte f ad o) /\
  (map_ok f -> map_ok f').
Proof.
  intros HF Hin f'. destruct (g_inode _ _ G _ Hin) as (_ & Hb & Hbm).
  assert (Hs : forall k, slot f' ad k = slot f ad k).
  { intros k. destruct (decide (slot f ad 12 = 0)) as [E|E].
    - unfold slot. change (rd32 ad 48) with (slot f ad 12). rewrite E. done.
    - apply slot_fup. destruct (file_no_zero sb dstart G f ad 12 HF) as [_ ?]; [unfold NSLOT; lia | done | lia]. }
  assert (Hu : forall c, used sb f' c = used sb f c) by (intros c; unfold used, f'; by rewrite fup_ne).
  split_and!; try done.
  - destruct HF as [F1 F2 F3 F4]. split; try done.
    + intros k Hk. rewrite Hs, Hu. by apply F3.
    + intros k j Hk Hj. rewrite !Hs. by apply F4.
  - intros o Ho Hn. unfold fbyte, iblk. rewrite Hs. unfold f'. rewrite fup_ne; [done|].
    destruct (bslot_range _ (div_range o Ho)) as [Hr _].
    destruct (file_no_zero sb dstart G f ad _ HF Hr Hn) as [_ ?]. lia.
  - intros [M1 M2]. split; [unfold f'; rewrite fup_ne by lia; done|]. intros b Hb'. rewrite Hu. by apply M2.
Qed.

Lemma grows_inodes f ad f' ad' j :
  grows sb dstart f ad f' ad' -> file_ok f' ad' -> map_ok f -> 0 <= i_inum j < sb_ninodes sb ->
  on_disk sb f' j = on_disk sb f j.
Proof.
  intros HG HF Hm Hj. destruct (g_inode _ _ G _ Hj) as (Hlog & Hb & Hbm). unfold on_disk. f_equal.
  apply (gr_frame _ _ _ _ _ _ HG); [by apply bl_loggable_dom | lia | done | apply (m_meta _ _ _ Hm); lia |].
  intros k Hk E. destruct (decide (slot f' ad' k = 0)); [lia|].
  destruct (file_no_zero sb dstart G f' ad' k HF Hk) as [_ ?]; [done | lia].
Qed.

Lemma grows_isolates f i f' i' :
  grows sb dstart f (i_addrs i) f' (i_addrs i') -> file_ok f' (i_addrs i') -> map_ok f -> isolates f i f' i'.
Proof.
  intros HG HF Hm. split; try apply HG.
  - intros b ? ? ? _. by apply (gr_frame _ _ _ _ _ _ HG).
  - intros j Hj _. by eapply grows_inodes.
Qed.

Lemma iupd_isolates f i f' i' :
  block_ok (f' (IBLOCK (i_inum i) sb)) -> isolates f i f' i' -> file_ok f' (i_addrs i') -> i_inum i' = i_inum i -> 0 <= i_inum i < sb_ninodes sb ->
  isolates f i (iupd_view sb f' i') i'.
Proof.
  intros HR HI HF Ein Hin. unfold iupd_view. rewrite Ein.
  destruct (meta_keep f' (i_addrs i') (i_inum i) (dinode_store i' (dinode_off (i_inum i)) (f' (IBLOCK (i_inum i) sb))) HF Hin)
    as (K1 & K2 & K3 & K4 & K5). destruct HI as [I1 I2 I3 I4 I5 I6]. split.
  - intros b ? ? ? ? ? Hn. rewrite fup_ne by done. apply I1; try done. intros k Hk. rewrite <- K2. by apply Hn.
  - intros j Hj Hne. rewrite <- I2 by done. rewrite <- Ein. eapply on_disk_iupd_other; try done; [by rewrite Ein | by rewrite Ein | congruence | apply HF].
  - intros k Hk Hk0. rewrite K2. by apply I3.
  - intros k Hk Hk0. rewrite K2. by apply I4.
  - intros c Hc. rewrite K3. by apply I5.
  - intros c Hc. rewrite K3. intros Hu. destruct (I6 c Hc Hu) as [?|(k & Hk & E)]; [by left|]. right. exists k. by rewrite K2.
Qed.


(** A file whose blocks are disjoint from those of the file written. *)
Lemma isolates_other f i f' i' j :
  map_ok f -> inode_ok f j -> i_type j <> T_SFILE -> isolates f i f' i' -> 0 <= i_inum i < sb_ninodes sb ->
  (forall k l, 0 <= k < NSLOT -> 0 <= l < NSLOT -> slot f (i_addrs j) l <> 0 -> slot f (i_addrs i) k <> slot f (i_addrs j) l) ->
  inode_ok f' j /\ data f' j = data f j /\
  (forall l, 0 <= l < NSLOT -> slot f' (i_addrs j) l = slot f (i_addrs j) l) /\
  (forall l, 0 <= l < NSLOT -> slot f (i_addrs j) l <> 0 -> f' (slot f (i_addrs j) l) = f (slot f (i_addrs j) l)).
Proof.
  intros Hm [I1 I2 I3 I4 I5 I6] Ht HS Hin Hdis. destruct (I6 Ht) as (F1 & F2 & F3).
  assert (Hkeep : forall l, 0 <= l < NSLOT -> slot f (i_addrs j) l <> 0 -> f' (slot f (i_addrs j) l) = f (slot f (i_addrs j) l)).
  { intros l Hl Hnz. destruct (fo_slot _ _ _ _ F1 l Hl Hnz) as [Hd Hu]. destruct (file_no_zero sb dstart G _ _ _ F1 Hl Hnz) as [Hbm Hge].
    destruct (g_inode _ _ G _ Hin) as (_ & Hib & _).
    apply (is_frame _ _ _ _ HS); [by apply bl_loggable_dom, G | done | done | lia | done|].
    intros k Hk E. destruct (decide (slot f (i_addrs i) k = 0)) as [E0|E0].
    - pose proof (is_fresh _ _ _ _ HS k Hk E0 ltac:(congruence)). congruence.
    - apply (Hdis k l Hk Hl Hnz). rewrite <- (is_slot _ _ _ _ HS k Hk E0). done. }
  assert (Hslot : forall l, 0 <= l < NSLOT -> slot f' (i_addrs j) l = slot f (i_addrs j) l).
  { intros l Hl. unfold slot. destruct (l <=? 12); [done|]. change (rd32 (i_addrs j) 48) with (slot f (i_addrs j) 12).
    destruct (Z.eqb_spec (slot f (i_addrs j) 12) 0) as [|Hnz]; [done|]. by rewrite (Hkeep 12) by (done || (unfold NSLOT; lia)). }
  assert (HF' : file_ok f' (i_addrs j)).
  { destruct F1 as [L1 L2 L3 L4]. split; try done.
    - intros l Hl. rewrite Hslot by done. intros Hnz. destruct (L3 l Hl Hnz) as [Hd Hu]. split; [done|].
      apply (is_used _ _ _ _ HS); [|done]. unfold datablk in Hd. pose proof (g_start _ _ G). lia.
    - intros l m Hl Hm'. rewrite !Hslot by done. by apply L4. }
  assert (Hdat : forall o, 0 <= o < i_size j -> fbyte f' (i_addrs j) o = fbyte f (i_addrs j) o).
  { intros o Ho. destruct (bslot_range _ (div_range o ltac:(lia))) as [Hr _]. unfold fbyte, iblk. rewrite Hslot by done.
    rewrite Hkeep; [done | done |]. apply F2; [apply Z.div_pos; unfold BSIZE; lia|].
    pose proof (Z.mul_div_le o BSIZE ltac:(unfold BSIZE; lia)). lia. }
  split_and!; [| |done|done].
  - split; try done. intros _. split_and!; try done. intros bn Hbn Hlt. unfold iblk. rewrite Hslot; [by apply F2|].
    apply bslot_range. change MAXFILE with 140 in *. unfold BSIZE in *. lia.
  - unfold data. destruct (Z.eqb_spec (i_type j) T_SFILE); [done|]. unfold content. apply list_fmap_ext.
    intros k o Ho%list_elem_of_lookup_2%elem_of_seqZ. apply Hdat. lia.
Qed.

(** The bytes of a file after writing [src] at [off]. *)
Definition overwrite (off : Z) (src d : list Z) : list Z :=
  take (Z.to_nat off) d ++ src ++ drop (Z.to_nat off + length src) d.

Lemma stored_content f ad off src f' ad' n :
  stored f ad off src f' ad' -> dense f ad n -> 0 <= off <= n -> n <= MAXFILE * BSIZE ->
  off + Z.of_nat (length src) <= MAXFILE * BSIZE ->
  content f' ad' (Z.max n (off + Z.of_nat (length src))) = overwrite off src (content f ad n).
Proof.
  intros HS HD Hoff Hn Hl. apply list_eq. intros k. unfold overwrite, content. rewrite fmap_seqZ_lookup.
  assert (Hold : forall o, 0 <= o < n -> iblk f ad (o / BSIZE) <> 0).
  { intros o Ho. apply HD; [apply Z.div_pos; unfold BSIZE; lia|].
    pose proof (Z.mul_div_le o BSIZE ltac:(unfold BSIZE; lia)). lia. }
  assert (Hlen : length (take (Z.to_nat off) (fbyte f ad <$> seqZ 0 n)) = Z.to_nat off)
    by (rewrite length_take, length_fmap, length_seqZ; lia).
  destruct (decide (Z.of_nat k < off)).
  - rewrite decide_True by lia. rewrite lookup_app_l by lia. rewrite lookup_take_lt by lia.
    rewrite fmap_seqZ_lookup, decide_True by lia. f_equal. apply (sd_old _ _ _ _ _ _ HS); [lia | apply Hold; lia | lia].
  - rewrite lookup_app_r, Hlen by lia. destruct (decide (Z.of_nat k < off + Z.of_nat (length src))).
    + rewrite decide_True by lia. rewrite lookup_app_l by lia. rewrite lookup_nthZ by lia. f_equal.
      rewrite (proj2 (sd_new _ _ _ _ _ _ HS (0 + Z.of_nat k) ltac:(lia))). f_equal. lia.
    + rewrite lookup_app_r by lia. rewrite lookup_drop, fmap_seqZ_lookup.
      replace (Z.of_nat (Z.to_nat off + length src + (k - Z.to_nat off - length src))) with (Z.of_nat k) by lia.
      repeat case_decide; try lia; [|done]. f_equal. apply (sd_old _ _ _ _ _ _ HS); [lia | apply Hold; lia | lia].
Qed.

Lemma stored_dense f ad off src f' ad' n :
  stored f ad off src f' ad' -> dense f ad n -> 0 <= off <= n -> n <= MAXFILE * BSIZE ->
  off + Z.of_nat (length src) <= MAXFILE * BSIZE -> dense f' ad' (Z.max n (off + Z.of_nat (length src))).
Proof.
  intros HS HD Hoff Hn Hl bn Hbn Hlt.
  assert (Hb : bn < MAXFILE) by (change MAXFILE with 140 in *; unfold BSIZE in *; lia).
  destruct (decide (bn * BSIZE < n)).
  - rewrite (grows_iblk f ad); [by apply HD | apply HS | lia | by apply HD].
  - destruct (sd_new _ _ _ _ _ _ HS (bn * BSIZE)) as [Hnz _]; [lia|]. by rewrite Z.div_mul in Hnz by (unfold BSIZE; lia).
Qed.

(** Blocks touched by a write of [n] bytes at [off]. *)
Definition nblocks (off n : Z) : nat := Z.to_nat ((off + n + BSIZE - 1) / BSIZE - off / BSIZE).

Lemma nblocks_spec off n : 0 <= off -> 0 <= n -> off + n <= MAXFILE * BSIZE ->
  off + n <= (off / BSIZE + Z.of_nat (nblocks off n)) * BSIZE /\ off / BSIZE + Z.of_nat (nblocks off n) <= MAXFILE /\
  forall c, off / BSIZE <= c < off / BSIZE + Z.of_nat (nblocks off n) -> c * BSIZE < off + n.
Proof.
  unfold nblocks, BSIZE. change MAXFILE with 140. intros Ho Hn Hm.
  pose proof (Z.div_mod (off + n + 512 - 1) 512). pose proof (Z.mod_pos_bound (off + n + 512 - 1) 512).
  pose proof (Z.div_mod off 512). pose proof (Z.mod_pos_bound off 512).
  rewrite Z2Nat.id by lia. split_and!; lia.
Qed.

End io.
