(* ===== verification/FsWrite.v ===== *)
(** * [writei] on regular files and directories

    The whole function, against the file as a list of bytes. *)

From S2P Require Import Prelude CString Bio Layout Blocks Fs FsBlocks FsInode FsFile FsIo.

Section write.
Context {S : Type} {BL : BlockLayer S} {BLO : BlockLayerOk S} {DS : DevSw S}.
Context (sb : superblock) (dstart : Z) (G : geometry sb dstart).
Implicit Types (f : Z -> block) (p : gset Z) (s : fs S) (x : S) (ad : list Z).

Local Abbreviation bm := (sb_bmapstart sb).
Local Abbreviation file_ok := (file_ok sb dstart).
Local Abbreviation map_ok := (map_ok sb dstart).
Local Abbreviation inode_ok := (inode_ok sb dstart).
Local Abbreviation cached := (cached sb dstart).
Local Abbreviation isolates := (isolates sb).

(** A regular file or directory after a successful [writei]. *)
Record written s ip i f p off src s' i' f' p' : Prop := {
  wn_state : s' = upd s (f_bl s') ip i';
  wn_cached : cached s' ip i' f' p';
  wn_fields : exists ad', i' = with_size (Z.max (i_size i) (off + Z.of_nat (length src))) (with_addrs ad' i);
  wn_data : data f' i' = overwrite off src (data f i);
  wn_iso : isolates f i f' i';
  wn_disk : on_disk sb f i = i -> on_disk sb f' i' = i';
  wn_pin : p ⊆ p' /\ (size p' <= size p + nblocks off (Z.of_nat (length src)) + 3)%nat;
  wn_pot : (pot sb f (i_addrs i) <= nblocks off (Z.of_nat (length src)) + pot sb f' (i_addrs i'))%nat
}.

Lemma stored_inode f i off src f' ad' :
  inode_ok f i -> i_type i <> T_SFILE -> stored sb dstart f (i_addrs i) off src f' ad' ->
  0 <= off <= i_size i -> off + Z.of_nat (length src) <= MAXFILE * BSIZE ->
  inode_ok f' (with_size (Z.max (i_size i) (off + Z.of_nat (length src))) (with_addrs ad' i)).
Proof.
  intros [I1 I2 [R1 R2 R3 R4 R5 R6 R7] I4 I5 I6] Ht HS Hoff Hl. destruct (I6 Ht) as (F1 & F2 & F3).
  pose proof (sd_file _ _ _ _ _ _ _ _ HS) as HF. assert (MAXFILE * BSIZE < 2 ^ 32) by (vm_compute; reflexivity).
  split; try done; cbn.
  - split; try done; cbn; [lia | apply HF | apply HF].
  - intros _. split_and!; [done | | lia]. eapply stored_dense; try done; lia.
Qed.

Lemma with_size_same (z : Z) i : z = i_size i -> with_size z i = i.
Proof. intros ->. by destruct i. Qed.

Lemma inode_ok_meta f i inum d :
  inode_ok f i -> i_type i <> T_SFILE -> 0 <= inum < sb_ninodes sb -> inode_ok (fup f (IBLOCK inum sb) d) i /\
  data (fup f (IBLOCK inum sb) d) i = data f i.
Proof.
  intros [I1 I2 I3 I4 I5 I6] Ht Hin. destruct (I6 Ht) as (F1 & F2 & F3).
  destruct (meta_keep sb dstart G f (i_addrs i) inum d F1 Hin) as (K1 & K2 & K3 & K4 & K5). split.
  - split; try done. intros _. split_and!; try done. intros bn Hbn Hlt. unfold iblk. rewrite K2. by apply F2.
  - unfold data. destruct (Z.eqb_spec (i_type i) T_SFILE); [done|]. unfold content. apply list_fmap_ext.
    intros k o Ho%list_elem_of_lookup_2%elem_of_seqZ. apply K4; [lia|]. apply F2; [apply Z.div_pos; unfold BSIZE; lia|].
    pose proof (Z.mul_div_le o BSIZE ltac:(unfold BSIZE; lia)). lia.
Qed.

Section one.
Context (s : fs S) (ip : nat) (i : inode) (f : Z -> block) (p : gset Z) (src : list Z) (off n : Z).
Context (HC : cached s ip i f p) (Ht : i_type i <> T_SFILE) (Hlen : Z.of_nat (length src) = n).
Context (Hoff : 0 <= off <= i_size i) (Hmax : off + n <= MAXFILE * BSIZE).

(** After the loop, when the file did not grow. *)
Lemma written_plain x f' ad' p' :
  brp x f' ∅ p' -> stored sb dstart f (i_addrs i) off src f' ad' -> off + n <= i_size i -> ad' = i_addrs i ->
  p ⊆ p' -> (size p' <= size p + nblocks off n + 3)%nat -> (pot sb f (i_addrs i) <= nblocks off n + pot sb f' ad')%nat ->
  written s ip i f p off src (upd s x ip (with_addrs ad' i)) (with_addrs ad' i) f' p'.
Proof.
  intros HR HS Hle -> Hp Hsz Hpot. pose proof (ca_ok _ _ _ _ _ _ _ HC) as HI.
  pose proof (stored_inode f i off src f' (i_addrs i) HI Ht HS Hoff ltac:(lia)) as HI'.
  assert (E : with_size (i_size i `max` (off + Z.of_nat (length src))) (with_addrs (i_addrs i) i) = with_addrs (i_addrs i) i)
    by (apply with_size_same; cbn; lia).
  rewrite E in HI'. destruct (io_file _ _ _ _ HI Ht) as (F1 & F2 & F3).
  pose proof (sd_grow _ _ _ _ _ _ _ _ HS) as HG. pose proof (sd_file _ _ _ _ _ _ _ _ HS) as HF.
  split.
  - done.
  - split; try done; [apply HC | eapply upd_lookup, HC |]. apply (gr_map _ _ _ _ _ _ HG), HC.
  - by exists (i_addrs i).
  - unfold data. cbn [with_addrs i_type i_addrs i_size]. destruct (Z.eqb_spec (i_type i) T_SFILE); [done|].
    rewrite <- (stored_content sb dstart _ _ _ _ _ _ (i_size i) HS) by (done || lia). f_equal. lia.
  - apply (grows_isolates sb dstart G); [done | done | apply HC].
  - intros Hd. assert (Ei : with_addrs (i_addrs i) i = i) by (by destruct i). rewrite Ei.
    rewrite <- Hd at 2. eapply grows_inodes; [exact G | exact HG | done | apply HC | apply HI].
  - by rewrite Hlen.
  - by rewrite Hlen.
Qed.

(** After the loop and [iupdate], when it grew. *)
Lemma written_grown x y f' ad' p' i2 :
  brp y f' ∅ p' -> stored sb dstart f (i_addrs i) off src f' ad' -> i_size i < off + n ->
  i2 = with_size (off + n) (with_addrs ad' i) ->
  brp x (iupd_view sb f' i2) ∅ ({[IBLOCK (i_inum i) sb]} ∪ p') ->
  p ⊆ p' -> (size p' <= size p + nblocks off n + 2)%nat -> (pot sb f (i_addrs i) <= nblocks off n + pot sb f' ad')%nat ->
  written s ip i f p off src (upd s x ip i2) i2 (iupd_view sb f' i2) ({[IBLOCK (i_inum i) sb]} ∪ p').
Proof.
  intros HR HS Hgt E2 HRx Hp Hsz Hpot. pose proof (ca_ok _ _ _ _ _ _ _ HC) as HI.
  pose proof (stored_inode f i off src f' ad' HI Ht HS Hoff ltac:(lia)) as HI'.
  rewrite Z.max_r, Hlen, <- E2 in HI' by lia.
  destruct (io_file _ _ _ _ HI Ht) as (F1 & F2 & F3). assert (Ein : i_inum i2 = i_inum i) by (by rewrite E2).
  pose proof (sd_grow _ _ _ _ _ _ _ _ HS) as HG. pose proof (sd_file _ _ _ _ _ _ _ _ HS) as HF.
  assert (Ead : i_addrs i2 = ad') by (by rewrite E2). assert (Ht2 : i_type i2 <> T_SFILE) by (by rewrite E2).
  assert (Hin := io_inum _ _ _ _ HI). rewrite <- Ead in HF, HG.
  destruct (inode_ok_meta f' i2 (i_inum i2) (dinode_store i2 (dinode_off (i_inum i2)) (f' (IBLOCK (i_inum i2) sb))) HI' Ht2 (io_inum _ _ _ _ HI')) as [HI2 HD2].
  fold (iupd_view sb f' i2) in HI2, HD2.
  split.
  - done.
  - split; try done; [apply HC | eapply upd_lookup, HC |].
    unfold iupd_view. rewrite Ein. apply (meta_keep sb dstart G f' (i_addrs i2)); try done. apply (gr_map _ _ _ _ _ _ HG), HC.
  - exists ad'. rewrite Hlen, Z.max_r by lia. done.
  - rewrite HD2. unfold data. rewrite Ead, E2. cbn [with_addrs with_size i_type i_size]. destruct (Z.eqb_spec (i_type i) T_SFILE); [done|].
    rewrite <- (stored_content sb dstart _ _ _ _ _ _ (i_size i) HS) by (done || lia). f_equal. lia.
  - eapply iupd_isolates; try done; [eapply inode_block_ok; done|]. apply (grows_isolates sb dstart G); [done | done | apply HC].
  - intros _. apply on_disk_iupd; [|apply HI']. eapply inode_block_ok; [exact G | exact HR | by rewrite Ein].
  - rewrite Hlen. split; [|pose proof (size_add (IBLOCK (i_inum i) sb) p'); lia].
    transitivity p'; [done | apply union_subseteq_r].
  - rewrite Hlen, Ead. unfold iupd_view. rewrite Ein. rewrite Ead in HF.
    destruct (meta_keep sb dstart G f' ad' (i_inum i) (dinode_store i2 (dinode_off (i_inum i)) (f' (IBLOCK (i_inum i) sb))) HF Hin)
      as (_ & K2 & K3 & _). by rewrite (pot_same sb f' _ ad' (K2 12) K3).
Qed.
End one.

Lemma writei_spec s ip i f p src off n (Q : Z -> fs S -> Prop) :
  cached s ip i f p -> i_type i <> T_SFILE -> Forall is_byte src -> Z.of_nat (length src) = n ->
  0 <= off <= i_size i -> off + n <= MAXFILE * BSIZE ->
  (off + n <= i_size i \/ (nblocks off n + 1 <= pot sb f (i_addrs i))%nat) ->
  (size p + nblocks off n + 6 < MAXTXN)%nat ->
  (forall s' i' f' p', written s ip i f p off src s' i' f' p' -> Q n s') ->
  wp (writei ip src off n) Q s.
Proof.
  intros HC Ht Hby Hlen Hoff Hmax Hsp Hbud HQ. pose proof (ca_ok _ _ _ _ _ _ _ HC) as HI.
  destruct (io_file _ _ _ _ HI Ht) as (F1 & F2 & F3). assert (H32 : MAXFILE * BSIZE < 2 ^ 31) by (vm_compute; reflexivity).
  pose proof HC as [C1 C2 C3 C4 _]. destruct (nblocks_spec off n) as (N1 & N2 & N3); [lia | lia | done|].
  unfold writei. apply wp_bind. eapply wp_geti; [exact C2|].
  destruct (Z.eqb_spec (i_type i) T_DEV); [by destruct (io_type _ _ _ _ HI)|].
  rewrite u32_add_wrap, (u32_small (off + n)) by lia.
  destruct (Z.ltb_spec (i_size i) off); [lia|]. destruct (Z.leb_spec (2 ^ 32) (off + n)); [lia|]. cbn [orb].
  destruct (Z.ltb_spec (MAXFILE * BSIZE) (off + n)); [lia|].
  destruct (Z.eqb_spec (i_type i) T_SFILE) as [|_]; [done|].
  apply wp_bind. eapply (writei_loop_spec sb dstart G (Z.to_nat n) (nblocks off n));
    [done | exact C2 | apply HI | exact C3 | done | done | done | lia | lia | lia | lia | lia | by rewrite Z.sub_0_r | done | lia | | |].
  { destruct Hsp as [Hle|Hpot]; [left; intros c Hc; apply F2; [|specialize (N3 c Hc); lia] | by right].
    pose proof (Z.div_pos off BSIZE). unfold BSIZE in *. lia. }
  { pose proof (bud_bound sb f (i_addrs i) p). lia. }
  intros f' ad' p' x HR HS Hb Hp Hsame Hpot. pose proof (bud_bound sb f (i_addrs i) p). pose proof (bud_pin sb dstart G f' ad' p').
  rewrite Z.sub_0_r. apply wp_bind. eapply wp_geti; [by eapply upd_lookup|]. cbn [with_addrs i_size].
  apply wp_bind. destruct ((0 <? n) && (i_size i <? off + n)) eqn:Eg; cbn [when].
  - apply andb_true_iff in Eg as [Eg1 Eg2]. set (i2 := with_size (off + n) (with_addrs ad' i)).
    pose proof (stored_inode f i off src f' ad' HI Ht HS Hoff ltac:(lia)) as HI2. rewrite Z.max_r, Hlen in HI2 by lia. fold i2 in HI2.
    assert (Hl2 : f_inodes (upd (upd s x ip (with_addrs ad' i)) x ip i2) !! ip = Some i2).
    { eapply upd_lookup. by eapply upd_lookup. }
    apply wp_bind. eapply wp_modi; [by eapply upd_lookup|]. fold i2.
    eapply (iupdate_spec sb dstart G _ ip i2 f' p');
      [done | exact Hl2 | apply HI | exact HR | apply HI | apply HI2 | lia |].
    intros y HRy. apply wp_bind. eapply wp_geti; [exact Hl2|]. cbn [i2 with_size with_addrs i_type].
    destruct (Z.eqb_spec (i_type i) T_SFILE); [done|]. cbn [andb when]. apply wp_bind, wp_ret, wp_ret.
    rewrite i32_small by lia. eapply (HQ _ i2 _ ({[IBLOCK (i_inum i) sb]} ∪ p')).
    unfold upd, set_bl. cbn. rewrite list_insert_insert_eq. eapply written_grown; try done; lia.
  - apply wp_ret. apply wp_bind. eapply wp_geti; [by eapply upd_lookup|]. cbn [with_addrs i_type].
    destruct (Z.eqb_spec (i_type i) T_SFILE); [done|]. cbn [andb when]. apply wp_bind, wp_ret, wp_ret.
    rewrite i32_small by lia. assert (Hle : off + n <= i_size i) by lia.
    eapply HQ. eapply written_plain; try done; [|lia]. apply Hsame. intros c Hc. apply F2; [|specialize (N3 c Hc); lia].
    pose proof (Z.div_pos off BSIZE). unfold BSIZE in *. lia.
Qed.

End write.
