(* ===== verification/FsSmall.v ===== *)
(** * [writei] on small files

    Files of type [T_SFILE] keep their data in the inode: which writes reach
    the disk, and where they run past the 52 bytes of [addrs]. *)

From S2P Require Import Prelude CString Bio Layout Blocks Log LogBlocks Fs FsBlocks FsInode FsFile FsIo FsWrite.

Section small.
Context {S : Type} {BL : BlockLayer S} {BLO : BlockLayerOk S} {DS : DevSw S}.
Context (sb : superblock) (dstart : Z) (G : geometry sb dstart).
Implicit Types (f : Z -> block) (p : gset Z) (s : fs S) (x : S) (ad : list Z).

Local Abbreviation cached := (cached sb dstart).

Definition small_put (off : Z) (src : list Z) (i : inode) : inode :=
  with_addrs (splice (Z.to_nat off) src (i_addrs i)) i.

Lemma overwrite_take off src (l : list Z) n :
  0 <= off <= n -> n <= Z.of_nat (length l) -> off + Z.of_nat (length src) <= Z.of_nat (length l) ->
  take (Z.to_nat (Z.max n (off + Z.of_nat (length src)))) (splice (Z.to_nat off) src l) =
  overwrite off src (take (Z.to_nat n) l).
Proof.
  intros Hoff Hn Hl. apply list_eq. intros k. unfold overwrite.
  assert (Hlt : length (take (Z.to_nat off) (take (Z.to_nat n) l)) = Z.to_nat off) by (rewrite !length_take; lia).
  destruct (decide (k < Z.to_nat off)%nat).
  - rewrite lookup_take_lt, lookup_splice_old by lia. rewrite lookup_app_l by lia. by rewrite !lookup_take_lt by lia.
  - rewrite lookup_app_r, Hlt by lia. destruct (decide (k < Z.to_nat off + length src)%nat).
    + rewrite lookup_take_lt, lookup_splice_new by lia. by rewrite lookup_app_l by lia.
    + rewrite lookup_app_r by lia. rewrite lookup_drop.
      replace (Z.to_nat off + length src + (k - Z.to_nat off - length src))%nat with k by lia.
      destruct (decide (k < Z.to_nat n)%nat).
      * rewrite !lookup_take_lt by lia. apply lookup_splice_old; lia.
      * rewrite !lookup_take_ge by lia. done.
Qed.

Lemma map_meta f inum d : map_ok sb dstart f -> 0 <= inum < sb_ninodes sb -> map_ok sb dstart (fup f (IBLOCK inum sb) d).
Proof.
  intros [M1 M2] Hin. destruct (g_inode _ _ G _ Hin) as (_ & Hb & Hbm). split.
  - rewrite fup_ne by lia. done.
  - intros b Hb'. unfold used. rewrite fup_ne by done. by apply M2.
Qed.

Lemma inode_ok_small f g i : i_type i = T_SFILE -> inode_ok sb dstart f i -> inode_ok sb dstart g i.
Proof. intros Ht [I1 I2 I3 I4 I5 I6]. by split. Qed.

Section put.
Context (s : fs S) (ip : nat) (i : inode) (f : Z -> block) (p : gset Z) (src : list Z) (off n : Z).
Context (HC : cached s ip i f p) (Ht : i_type i = T_SFILE) (Hlen : Z.of_nat (length src) = n).
Context (Hoff : 0 <= off <= i_size i).

Lemma small_not_dev : (i_type i =? T_DEV) = false.
Proof using Ht. by rewrite Ht. Qed.

Lemma small_inode_range : Forall is_byte src -> off + n <= ADDRS_SIZE ->
  inode_ok sb dstart f (with_size (Z.max (i_size i) (off + n)) (small_put off src i)).
Proof.
  intros Hby Hle. pose proof (ca_ok _ _ _ _ _ _ _ HC) as [I1 I2 [R1 R2 R3 R4 R5 R6 R7] I4 I5 I6].
  specialize (I5 Ht). change ADDRS_SIZE with 52 in *. split; try done; cbn.
  - split; try done; cbn; [lia | by rewrite length_splice |]. by apply splice_Forall.
  - intros _. change ADDRS_SIZE with 52. lia.
Qed.

Lemma small_data : off + n <= ADDRS_SIZE ->
  data f (with_size (Z.max (i_size i) (off + n)) (small_put off src i)) = overwrite off src (data f i).
Proof.
  intros Hle. unfold data. cbn. rewrite Ht. cbn [Z.eqb T_SFILE Pos.eqb].
  pose proof (ca_ok _ _ _ _ _ _ _ HC) as HI. pose proof (ir_len _ (io_range _ _ _ _ HI)) as Hl.
  pose proof (io_small _ _ _ _ HI Ht). change ADDRS_SIZE with 52 in *. rewrite <- Hlen. apply overwrite_take; lia.
Qed.

Lemma data_small_view g j : i_type j = T_SFILE -> data g j = data f j.
Proof. unfold data. by intros ->. Qed.

Lemma writei_small_spec (Q : Z -> fs S -> Prop) :
  Forall is_byte src -> off + n <= ADDRS_SIZE -> (size p < MAXTXN)%nat ->
  (forall s' i' f' p', cached s' ip i' f' p' -> i' = with_size (Z.max (i_size i) (off + n)) (small_put off src i) ->
    f' = (if decide (i_size i < off + n) then iupd_view sb f i' else f) -> Q n s') ->
  wp (writei ip src off n) Q s.
Proof.
  intros Hby Hle Hp HQ. pose proof HC as [C1 C2 C3 C4 HI]. pose proof (small_inode_range Hby Hle) as HI2.
  pose proof (ir_size _ (io_range _ _ _ _ HI)) as Hsz. pose proof (io_small _ _ _ _ HI Ht) as Hsm.
  assert (EM : MAXFILE * BSIZE = 71680) by reflexivity. change ADDRS_SIZE with 52 in Hsm, Hle.
  unfold writei. apply wp_bind. eapply wp_geti; [exact C2|].
  rewrite small_not_dev, u32_add_wrap, (u32_small (off + n)) by lia.
  destruct (Z.ltb_spec (i_size i) off); [lia|]. destruct (Z.leb_spec (2 ^ 32) (off + n)); [lia|]. cbn [orb].
  destruct (Z.ltb_spec (MAXFILE * BSIZE) (off + n)); [lia|]. rewrite Ht. cbn [Z.eqb T_SFILE Pos.eqb].
  change ADDRS_SIZE with 52. destruct (Z.ltb_spec 52 (off + n)); [lia|]. rewrite take_ge by lia.
  apply wp_bind, wp_bind. eapply wp_modi; [exact C2|]. apply wp_ret. fold (small_put off src i).
  set (i1 := small_put off src i) in *. set (s1 := upd s (f_bl s) ip i1).
  assert (L1 : f_inodes s1 !! ip = Some i1) by (by eapply upd_lookup).
  apply wp_bind. eapply wp_geti; [exact L1|]. change (i_size i1) with (i_size i). apply wp_bind.
  destruct ((0 <? n) && (i_size i <? off + n)) eqn:Eg; cbn [when].
  - apply andb_true_iff in Eg as [_ Eg]. rewrite Z.max_r in HI2, HQ by lia. set (i2 := with_size (off + n) i1) in *.
    apply wp_bind. eapply wp_modi; [exact L1|]. fold i2.
    assert (L2 : f_inodes (upd s1 (f_bl s1) ip i2) !! ip = Some i2) by (by eapply upd_lookup).
    eapply (iupdate_spec sb dstart G _ ip i2 f p); [done | exact L2 | apply HI | exact C3 | apply HI | apply HI2 | done |].
    intros y HRy. apply wp_bind. eapply wp_geti; [exact L2|]. change (i_type i2) with (i_type i). rewrite Ht.
    cbn [Z.eqb T_SFILE Pos.eqb andb i2 with_size i_size]. rewrite Z.ltb_irrefl, andb_false_r. cbn [when].
    apply wp_bind, wp_ret, wp_ret. rewrite i32_small by lia.
    eapply (HQ _ i2 (iupd_view sb f i2) ({[IBLOCK (i_inum i) sb]} ∪ p)); [|done|by rewrite decide_True by lia].
    unfold s1, upd, set_bl. cbn. rewrite list_insert_insert_eq.
    split; [done | by eapply (upd_lookup s) | done | by apply map_meta, HI | by eapply inode_ok_small].
  - apply wp_ret, wp_bind. eapply wp_geti; [exact L1|]. change (i_type i1) with (i_type i). change (i_size i1) with (i_size i).
    rewrite Ht, Eg. cbn [Z.eqb T_SFILE Pos.eqb andb when]. apply wp_bind, wp_ret, wp_ret. rewrite i32_small by lia.
    assert (Hle2 : off + n <= i_size i) by lia.
    eapply (HQ s1 i1 f p); [|unfold i1; rewrite with_size_same; [done | cbn; lia] | by rewrite decide_False by lia].
    rewrite Z.max_l in HI2 by lia. rewrite with_size_same in HI2 by done. by split.
Qed.
End put.
End small.
