(* ===== verification/FsCache.v ===== *)
(** * The inode cache: [iget], [idup], [ilock], [iunlock], [iput]

    A slot with a positive reference count caches one inode, and no two such
    slots cache the same one.  Reference counts account exactly for the
    references handed out. *)

From S2P Require Import Prelude CString Bio Layout Blocks Fs FsBlocks FsInode FsFile FsIo.

Definition live (i : inode) : Prop := 0 < i_ref i.
Definition caches_inode (dev inum : Z) (i : inode) : Prop := live i /\ i_dev i = dev /\ i_inum i = inum.

(** The invariant of [icache]. *)
Record icache_ok (l : list inode) : Prop := {
  ic_ref : forall k i, l !! k = Some i -> 0 <= i_ref i;
  ic_uniq : forall j k dev inum a b, l !! j = Some a -> l !! k = Some b ->
    caches_inode dev inum a -> caches_inode dev inum b -> j = k
}.

Lemma iget_scan_spec l n empty dev inum :
  (forall k i, l !! k = Some i -> 0 <= i_ref i) ->
  match iget_scan l n empty dev inum with
  | inl ip => (n <= ip)%nat /\ exists i, l !! (ip - n)%nat = Some i /\ caches_inode dev inum i
  | inr e =>
      (forall k i, l !! k = Some i -> ~ caches_inode dev inum i) /\
      match empty, e with
      | Some a, _ => e = Some a
      | None, Some ip => (n <= ip)%nat /\ exists i, l !! (ip - n)%nat = Some i /\ i_ref i = 0
      | None, None => forall k i, l !! k = Some i -> live i
      end
  end.
Proof.
  revert n empty. induction l as [|e l IH]; intros n empty Href; cbn [iget_scan].
  { split; [intros k i Hk; done|]. destruct empty; [done|]. intros k i Hk. done. }
  assert (Hr0 : 0 <= i_ref e) by (by apply (Href 0%nat)).
  assert (Href' : forall k i, l !! k = Some i -> 0 <= i_ref i) by (intros k i Hk; by apply (Href (S k))).
  destruct ((0 <? i_ref e) && (i_dev e =? dev) && (i_inum e =? inum)) eqn:E.
  { split; [lia|]. exists e. rewrite Nat.sub_diag. split; [done|]. unfold caches_inode, live. lia. }
  assert (Hne : ~ caches_inode dev inum e) by (unfold caches_inode, live; lia).
  specialize (IH (S n) (match empty with None => if i_ref e =? 0 then Some n else None | Some _ => empty end) Href').
  destruct (iget_scan l (S n) _ dev inum) as [ip|r].
  - destruct IH as [Hn (i & Hi & Hc)]. split; [lia|]. exists i. split; [|done].
    replace (ip - n)%nat with (S (ip - S n)) by lia. done.
  - destruct IH as [Hno Hr]. split.
    { intros [|k] i Hk; [by injection Hk as <- | by eapply Hno]. }
    destruct empty as [a|]; [done|]. destruct (Z.eqb_spec (i_ref e) 0) as [E0|E0].
    + rewrite Hr. split; [lia|]. exists e. by rewrite Nat.sub_diag.
    + destruct r as [ip|].
      * destruct Hr as [Hn (i & Hi & Hi0)]. split; [lia|]. exists i. split; [|done].
        replace (ip - n)%nat with (S (ip - S n)) by lia. done.
      * intros [|k] i Hk; [injection Hk as <-; unfold live; lia | by eapply Hr].
Qed.

(** References to inode [inum] of device [dev] in the cache. *)
Definition refs (l : list inode) (dev inum : Z) : Z :=
  foldr (fun i n => (if decide (caches_inode dev inum i) then i_ref i else 0) + n) 0 l.

Lemma refs_insert l k a b dev inum :
  l !! k = Some a ->
  refs (<[k := b]> l) dev inum = refs l dev inum
    - (if decide (caches_inode dev inum a) then i_ref a else 0) + (if decide (caches_inode dev inum b) then i_ref b else 0).
Proof.
  revert k. induction l as [|e l IH]; intros [|k] Hk; simpl in *; [done | done | |].
  - injection Hk as ->. lia.
  - rewrite IH by done. lia.
Qed.

Section cache.
Context {S : Type} {BL : BlockLayer S} {BLO : BlockLayerOk S} {DS : DevSw S}.
Implicit Types s : fs S.

(** The inodes after [iget]. *)
Lemma iget_spec s dev inum :
  icache_ok (f_inodes s) ->
  if decide (Exists (fun i => caches_inode dev inum i \/ i_ref i = 0) (f_inodes s)) then
    exists ip i i', iget dev inum s = Ret ip (set_inodes (<[ip := i']> (f_inodes s)) s) /\ f_inodes s !! ip = Some i /\
      caches_inode dev inum i' /\
      (i' = with_ref (i_ref i + 1) i /\ caches_inode dev inum i \/
       i_ref i = 0 /\ i_ref i' = 1 /\ i_flags i' = 0 /\ i_locked i' = i_locked i /\
         (forall k j, f_inodes s !! k = Some j -> ~ caches_inode dev inum j))
  else iget dev inum s = Panic "iget: no inodes".
Proof.
  intros HI. pose proof (iget_scan_spec (f_inodes s) 0 None dev inum (ic_ref _ HI)) as HS.
  unfold iget. rewrite (bind_Ret _ _ s s s) by done. destruct (iget_scan (f_inodes s) 0 None dev inum) as [ip|[ip|]].
  - destruct HS as [_ (i & Hi & Hc)]. rewrite Nat.sub_0_r in Hi. rewrite decide_True by (apply Exists_exists; exists i; split; [by eapply list_elem_of_lookup_2 | auto]).
    exists ip, i, (with_ref (i_ref i + 1) i). unfold modi, bind, modify, ret. rewrite (alter_insert _ _ _ _ Hi).
    split_and!; [done | done | |by left]. unfold caches_inode, live in *. cbn. lia.
  - destruct HS as [Hno [_ (i & Hi & Hi0)]]. rewrite Nat.sub_0_r in Hi. rewrite decide_True by (apply Exists_exists; exists i; split; [by eapply list_elem_of_lookup_2 | auto]).
    eexists ip, i, _. unfold modi, bind, modify, ret. rewrite (alter_insert _ _ _ _ Hi).
    split_and!; [reflexivity | done | |right; by split_and!]. unfold caches_inode, live. cbn. lia.
  - destruct HS as [Hno Hall]. rewrite decide_False; [done|].
    intros (i & (k & Hk)%list_elem_of_lookup & [Hc|H0])%Exists_exists; [by eapply Hno|].
    specialize (Hall k i Hk). unfold live in Hall. lia.
Qed.

Lemma caches_dev dev inum d n i : caches_inode dev inum i -> caches_inode d n i <-> d = dev /\ n = inum.
Proof. unfold caches_inode. intros (H1 & H2 & H3). split; [intros (_ & ? & ?); by subst | intros [-> ->]; done]. Qed.

(** C39: [iget] returns the one slot that caches the inode, hands out exactly
    one more reference to it and none to any other, and keeps the cache free
    of duplicates; it panics only when every slot is in use. *)
Theorem iget_correct s dev inum :
  icache_ok (f_inodes s) ->
  (exists ip s' i, iget dev inum s = Ret ip s' /\ f_bl s' = f_bl s /\ f_sb s' = f_sb s /\
     f_inodes s' !! ip = Some i /\ caches_inode dev inum i /\ icache_ok (f_inodes s') /\
     (forall k, k <> ip -> f_inodes s' !! k = f_inodes s !! k) /\
     (forall d n, refs (f_inodes s') d n = refs (f_inodes s) d n + if decide (d = dev /\ n = inum) then 1 else 0)) \/
  (iget dev inum s = Panic "iget: no inodes" /\ forall k i, f_inodes s !! k = Some i -> live i).
Proof using.
  intros HI. pose proof (iget_spec s dev inum HI) as HS. case_decide as Hd.
  - left. destruct HS as (ip & i & i' & E & Hi & Hc' & Hcase). pose proof (lookup_lt_Some _ _ _ Hi) as Hlt.
    exists ip, (set_inodes (<[ip := i']> (f_inodes s)) s), i'. cbn [set_inodes f_bl f_sb f_inodes].
    assert (Hold : forall d n, caches_inode d n i -> d = dev /\ n = inum).
    { intros d n Hx. destruct Hcase as [[_ Hc]|[H0 _]]; [by apply (caches_dev dev inum) in Hx|]. unfold caches_inode, live in Hx. lia. }
    assert (Hdup : forall j a, f_inodes s !! j = Some a -> caches_inode dev inum a -> j = ip).
    { intros j a Hj Ha. destruct Hcase as [[_ Hc]|(_ & _ & _ & _ & Hno)]; [by eapply (ic_uniq _ HI) | by apply (Hno j a) in Hj]. }
    split_and!; try done.
    + by apply list_lookup_insert_eq.
    + split.
      * intros k j. rewrite list_lookup_insert_Some. intros [(-> & <- & _)|[_ Hj]]; [|by eapply ic_ref].
        unfold caches_inode, live in Hc'. lia.
      * intros j k d n a b. rewrite !list_lookup_insert_Some.
        intros [(-> & <- & _)|[Hja Hj]] [(-> & <- & _)|[Hkb Hk]] Ha Hb; [done | | | by eapply (ic_uniq _ HI)].
        -- apply (caches_dev dev inum) in Ha as [-> ->]; [|done]. symmetry. by eapply Hdup.
        -- apply (caches_dev dev inum) in Hb as [-> ->]; [|done]. by eapply Hdup.
    + intros k Hk. by rewrite list_lookup_insert_ne.
    + intros d n. rewrite (refs_insert _ _ i) by done. destruct (decide (d = dev /\ n = inum)) as [[-> ->]|Hne].
      * rewrite (decide_True (P := caches_inode dev inum i')) by done. destruct Hcase as [[-> Hc]|(H0 & H1 & _)].
        -- rewrite decide_True by done. cbn. lia.
        -- rewrite H1. case_decide as Hx; [unfold caches_inode, live in Hx; lia | lia].
      * rewrite (decide_False (P := caches_inode d n i)) by (intros Hx%Hold; done).
        rewrite (decide_False (P := caches_inode d n i')); [lia|]. intros Hx. by apply (caches_dev dev inum) in Hx.
  - right. split; [done|]. intros k i Hk. pose proof (ic_ref _ HI k i Hk). unfold live. destruct (decide (i_ref i = 0)); [|lia].
    destruct Hd. apply Exists_exists. exists i. split; [by eapply list_elem_of_lookup_2 | by right].
Qed.

Lemma modi_run ip i g s : f_inodes s !! ip = Some i -> modi ip g s = Ret tt (set_inodes (<[ip := g i]> (f_inodes s)) s).
Proof. intros Hi. unfold modi, modify. by rewrite (alter_insert _ _ _ _ Hi). Qed.

(** [iput] where the inode stays: [ip->ref--]. *)
Lemma iput_run ip i s : f_inodes s !! ip = Some i -> (i_ref i =? 1) && negb (Z.land (i_flags i) I_VALID =? 0) && (i_nlink i =? 0) = false ->
  iput ip s = Ret tt (set_inodes (<[ip := with_ref (i_ref i - 1) i]> (f_inodes s)) s).
Proof.
  intros Hi E. unfold iput. rewrite (bind_Ret _ _ s i s) by (unfold geti, bind, get; by rewrite Hi).
  rewrite E. unfold bind at 1, when, ret. by rewrite (modi_run ip i).
Qed.

(** A slot that was free and is free again is as good as before. *)
Lemma icache_reuse l ip i j : icache_ok l -> l !! ip = Some i -> i_ref i = 0 -> i_ref j = 0 ->
  icache_ok (<[ip := j]> l) /\ (forall k a, l !! k = Some a -> live a -> <[ip := j]> l !! k = Some a) /\
  forall d n, refs (<[ip := j]> l) d n = refs l d n.
Proof.
  intros HI Hi H0 Hj. assert (forall d n a, i_ref a = 0 -> ~ caches_inode d n a) as Hno by (unfold caches_inode, live; lia). split_and!.
  - split.
    + intros k a. rewrite list_lookup_insert_Some. intros [(-> & <- & _)|[_ Ha]]; [lia | by eapply ic_ref].
    + intros k k' d n a b. rewrite !list_lookup_insert_Some. intros [(-> & <- & _)|[_ Ha]] [(-> & <- & _)|[_ Hb]] Hca Hcb; first [by destruct (Hno _ _ _ Hj Hca) | by destruct (Hno _ _ _ Hj Hcb) | idtac].
      by eapply (ic_uniq _ HI).
  - intros k a Ha Hl. rewrite list_lookup_insert_ne; [done|]. intros ->. rewrite Hi in Ha. injection Ha as ->. unfold live in Hl. lia.
  - intros d n. rewrite (refs_insert _ _ i) by done. rewrite !decide_False by (by apply Hno). lia.
Qed.

(** [iget] and then [iput] leaves every cached inode, the references to it and
    the disk as they were. *)
Lemma iget_iput s dev inum :
  icache_ok (f_inodes s) ->
  (exists ip s1 s', iget dev inum s = Ret ip s1 /\ iput ip s1 = Ret tt s' /\ f_bl s' = f_bl s /\ f_sb s' = f_sb s /\ icache_ok (f_inodes s') /\
     (forall k i, f_inodes s !! k = Some i -> live i -> f_inodes s' !! k = Some i) /\
     forall d n, refs (f_inodes s') d n = refs (f_inodes s) d n) \/
  (iget dev inum s = Panic "iget: no inodes" /\ forall k i, f_inodes s !! k = Some i -> live i).
Proof using.
  intros HI. pose proof (iget_spec s dev inum HI) as HS. case_decide as Hd.
  - left. destruct HS as (ip & i & i' & E & Hi & _ & Hcase). pose proof (lookup_lt_Some _ _ _ Hi) as Hlt. exists ip. eexists _, _. split; [exact E|].
    split; [apply (iput_run ip i'); [by apply list_lookup_insert_eq|]|].
    { destruct Hcase as [[-> Hc]|(_ & _ & -> & _)]; [|by rewrite andb_false_r]. destruct Hc as [Hl _]. unfold live in Hl. cbn.
      destruct (Z.eqb_spec (i_ref i + 1) 1); [lia | done]. }
    cbn [set_inodes f_bl f_sb f_inodes]. rewrite list_insert_insert_eq. do 2 (split; [done|]).
    destruct Hcase as [[-> Hc]|(H0 & H1 & _)]; [|apply (icache_reuse _ _ i); [done | done | done | cbn; lia]].
    assert (with_ref (i_ref (with_ref (i_ref i + 1) i) - 1) (with_ref (i_ref i + 1) i) = i) as -> by (destruct i; unfold with_ref; cbn; f_equal; lia).
    by rewrite list_insert_id.
  - right. split; [done|]. intros k i Hk. pose proof (ic_ref _ HI k i Hk). unfold live. destruct (decide (i_ref i = 0)); [|lia].
    destruct Hd. apply Exists_exists. exists i. split; [by eapply list_elem_of_lookup_2 | by right].
Qed.

(** [iput] of a reference to an inode that stays linked or referenced
    drops exactly that reference and keeps the cache free of duplicates. *)
Theorem iput_drops_ref s ip i dev inum :
  icache_ok (f_inodes s) -> f_inodes s !! ip = Some i -> caches_inode dev inum i -> 1 < i_ref i \/ i_nlink i <> 0 ->
  exists s', iput ip s = Ret tt s' /\ f_bl s' = f_bl s /\ icache_ok (f_inodes s') /\
    (forall k, k <> ip -> f_inodes s' !! k = f_inodes s !! k) /\
    (forall d n, refs (f_inodes s') d n = refs (f_inodes s) d n - if decide (d = dev /\ n = inum) then 1 else 0).
Proof using.
  intros HI Hi Hc Hk. pose proof (lookup_lt_Some _ _ _ Hi) as Hlt. assert (Hl : 0 < i_ref i) by apply Hc.
  exists (set_inodes (<[ip := with_ref (i_ref i - 1) i]> (f_inodes s)) s). split.
  { apply iput_run; [done|]. destruct (Z.eqb_spec (i_ref i) 1), (Z.eqb_spec (i_nlink i) 0); rewrite ?andb_false_r; lia || done. }
  cbn [set_inodes f_bl f_inodes]. split; [done|]. split_and!.
  - split.
    + intros k j. rewrite list_lookup_insert_Some. intros [(-> & <- & _)|[_ Hj]]; [cbn; lia | by eapply ic_ref].
    + assert (Hsub : forall d n, caches_inode d n (with_ref (i_ref i - 1) i) -> caches_inode d n i)
        by (unfold caches_inode, live; cbn; intros d n (? & ? & ?); done).
      intros j k d n a b. rewrite !list_lookup_insert_Some.
      intros [(-> & <- & _)|[Hja Hj]] [(-> & <- & _)|[Hkb Hk']] Ha Hb; [done | | | by eapply (ic_uniq _ HI)].
      * eapply (ic_uniq _ HI _ _ d n); [exact Hi | exact Hk' | by apply Hsub | done].
      * eapply (ic_uniq _ HI _ _ d n); [exact Hj | exact Hi | done | by apply Hsub].
  - intros k Hne. by rewrite list_lookup_insert_ne.
  - intros d n. rewrite (refs_insert _ _ i) by done. destruct (decide (d = dev /\ n = inum)) as [[-> ->]|Hne].
    + rewrite (decide_True (P := caches_inode dev inum i)) by done. case_decide as Hx; [cbn; lia|].
      assert (i_ref i - 1 = 0); [|lia]. unfold caches_inode, live in *. cbn in Hx. lia.
    + rewrite !decide_False; [lia | |]; unfold caches_inode in *; cbn; intros (_ & H1 & H2); destruct Hc as (_ & H3 & H4);
        apply Hne; split; congruence.
Qed.

(** [ilock] takes the sleep lock of a referenced inode: it waits while
    the lock is held, and on return the inode is locked, valid and, if it was
    not valid before, equal to its record on disk; a free inode on disk or a
    missing reference panics. *)
Theorem ilock_correct sb dstart (G : geometry sb dstart) s ip i f p :
  f_sb s = sb -> brp (f_bl s) f ∅ p -> (size p < MAXTXN)%nat -> f_inodes s !! ip = Some i -> i_dev i = ROOTDEV ->
  0 <= i_inum i < sb_ninodes sb ->
  if decide (i_ref i < 1) then ilock (Some ip) s = Panic "ilock"
  else if i_locked i then ilock (Some ip) s = Blocked "inode"
  else if decide (Z.land (i_flags i) I_VALID = 0) then
    let j := on_disk sb f (with_ilocked true i) in
    if decide (i_type j = 0) then ilock (Some ip) s = Panic "ilock: no type"
    else exists x, ilock (Some ip) s = Ret tt (upd s x ip (with_iflags (Z.lor (i_flags i) I_VALID) j)) /\ brp x f ∅ p
  else ilock (Some ip) s = Ret tt (upd s (f_bl s) ip (with_ilocked true i)).
Proof using.
  intros Hsb HR Hp Hi Hdev Hin. unfold ilock. rewrite (bind_Ret _ _ s i s) by (unfold geti, bind, get; by rewrite Hi).
  destruct (decide (i_ref i < 1)) as [Hr|Hr]; [by rewrite (proj2 (Z.ltb_lt _ _) Hr)|].
  destruct (Z.ltb_spec (i_ref i) 1) as [|_]; [lia|]. destruct (i_locked i); [done|].
  pose proof (modi_run ip i (with_ilocked true) s Hi) as E1. rewrite (bind_Ret _ _ _ _ _ E1). clear E1.
  change (set_inodes (<[ip := with_ilocked true i]> (f_inodes s)) s) with (upd s (f_bl s) ip (with_ilocked true i)).
  set (s1 := upd s (f_bl s) ip (with_ilocked true i)). pose proof (lookup_lt_Some _ _ _ Hi) as Hlt.
  assert (L1 : f_inodes s1 !! ip = Some (with_ilocked true i)) by (by eapply upd_lookup).
  destruct (decide (Z.land (i_flags i) I_VALID = 0)) as [Hv|Hv]; cycle 1.
  { destruct (Z.eqb_spec (Z.land (i_flags i) I_VALID) 0); done. }
  rewrite (proj2 (Z.eqb_eq _ _) Hv). cbn zeta. set (j := on_disk sb f (with_ilocked true i)).
  match goal with |- context [?m s1] => change (wpo m (fun o => if decide (i_type j = 0) then o = Panic "ilock: no type" else
    exists x, o = Ret tt (upd s x ip (with_iflags (Z.lor (i_flags i) I_VALID) j)) /\ brp x f ∅ p) s1) end.
  destruct (g_inode _ _ G _ Hin) as (Hlog & _ & _).
  apply wpo_bind, wp_get, wpo_bind. rewrite Hdev. cbn [s1 upd f_sb]. rewrite Hsb.
  eapply (wp_fbread _ _ s1 f ∅ p); [exact HR | by apply bl_loggable_dom | rewrite map_img_empty_L; set_solver | |].
  { right. unfold inuse. rewrite map_img_empty_L, union_empty_r_L. unfold MAXTXN, NBUF in *. lia. }
  intros b x _ HR1. apply wpo_bind. eapply wp_fdata; [exact HR1 | apply lookup_insert_eq|].
  apply wpo_bind. eapply wp_modi; [exact L1|]. apply wpo_bind. eapply wp_fbrelse; [exact HR1 | done|]. intros y HR2.
  apply wpo_bind. eapply wp_modi; [by eapply (upd_lookup (set_bl x s1))|]. apply wpo_bind.
  eapply wp_geti; [cbn; apply list_lookup_insert_eq; by rewrite !length_insert|].
  unfold wpo. change (i_type (with_iflags _ _)) with (i_type j).
  case_decide as Ht; [by rewrite Ht|]. destruct (Z.eqb_spec (i_type j) 0); [done|].
  exists y. split; [|exact HR2]. unfold ret, upd. cbn. rewrite !list_insert_insert_eq. done.
Qed.
End cache.
