(* ===== verification/FsDir.v ===== *)
(** * Directories: [namecmp], [dirlookup], [dirlink]

    A directory is a file of 16-byte entries.  [dirlookup] finds the first
    entry in use with the given name; [dirlink] adds an entry that later
    lookups find, without affecting any other name. *)

From S2P Require Import Prelude CString Bio Layout Blocks Fs FsBlocks FsInode FsFile FsIo FsWrite.

(** ** Names *)

(** The C string of at most [n] bytes at [g i]. *)
Fixpoint cstr (n : nat) (g : Z -> Z) (i : Z) : list Z :=
  match n with
  | O => []
  | S n' => if g i =? 0 then [] else g i :: cstr n' g (i + 1)
  end.
Definition cname (l : list Z) : list Z := cstr (Z.to_nat DIRSIZ) (Kstring.nthZ l) 0.

Lemma strncmp_cstr n p q i :
  (forall j, is_byte (p j)) -> (forall j, is_byte (q j)) ->
  Kstring.strncmp_loop n p q i = 0 <-> cstr n p i = cstr n q i.
Proof.
  intros Hp Hq. revert i. induction n as [|n IH]; intros i; cbn [Kstring.strncmp_loop cstr]; [done|].
  rewrite !u8_small by (apply Hp || apply Hq).
  destruct (Z.eqb_spec (p i) 0) as [E|E]; cbn [negb andb].
  - rewrite E. destruct (Z.eqb_spec (q i) 0); split; intros; lia || done.
  - destruct (Z.eqb_spec (p i) (q i)) as [E2|E2].
    + rewrite <- E2. destruct (Z.eqb_spec (p i) 0); [done|]. rewrite IH. split; [by intros -> | by intros [= ->]].
    + split; [intros; lia|]. destruct (q i =? 0); [done|]. intros [= ?]. done.
Qed.

Lemma nthZ_byte l j : Forall is_byte l -> is_byte (Kstring.nthZ l j).
Proof.
  intros Hl. unfold Kstring.nthZ. rewrite nth_lookup. destruct (l !! Z.to_nat j) eqn:E; simpl; [|unfold is_byte; lia].
  by eapply Forall_lookup_1.
Qed.

Lemma namecmp_cname s t : Forall is_byte s -> Forall is_byte t -> namecmp s t = 0 <-> cname s = cname t.
Proof. intros Hs Ht. apply strncmp_cstr; intros j; by apply nthZ_byte. Qed.

Lemma cstr_ext n g h i : (forall j, i <= j < i + Z.of_nat n -> g j = h j) -> cstr n g i = cstr n h i.
Proof.
  revert i. induction n as [|n IH]; intros i He; [done|]. cbn [cstr]. rewrite (He i) by lia.
  destruct (h i =? 0); [done|]. f_equal. apply IH. intros j Hj. apply He. lia.
Qed.

Lemma cstr_shift n g i d : cstr n (fun j => g (j + d)) i = cstr n g (i + d).
Proof.
  revert i. induction n as [|n IH]; intros i; [done|]. cbn [cstr]. destruct (g (i + d) =? 0); [done|]. f_equal.
  rewrite IH. f_equal. lia.
Qed.

Lemma cstr_padded n t i : cstr n (Kstring.nthZ (Kstring.padded n t i)) 0 = cstr n t i.
Proof.
  revert i. induction n as [|n IH]; intros i; [done|]. cbn [Kstring.padded cstr].
  destruct (Z.eqb_spec (t i) 0) as [E|E].
  - done.
  - change (Kstring.nthZ (t i :: Kstring.padded n t (i + 1)) 0) with (t i).
    destruct (Z.eqb_spec (t i) 0); [done|]. f_equal. rewrite <- IH.
    rewrite (cstr_ext n _ (fun j => Kstring.nthZ (Kstring.padded n t (i + 1)) (j + -1)) 1).
    + rewrite cstr_shift. done.
    + intros j Hj. rewrite Kstring.nthZ_cons by lia. done.
Qed.

(** The name stored by [strncpy(de.name, name, DIRSIZ)] reads back. *)
Lemma cname_padded name : cname (Kstring.padded (Z.to_nat DIRSIZ) (Kstring.nthZ name) 0) = cname name.
Proof. apply cstr_padded. Qed.

Lemma padded_bytes n t i : (forall j, is_byte (t j)) -> Forall is_byte (Kstring.padded n t i).
Proof.
  intros Ht. revert i. induction n as [|n IH]; intros i; [constructor|]. cbn [Kstring.padded].
  destruct (t i =? 0); [apply Forall_replicate; unfold is_byte; lia | by constructor].
Qed.

(** ** Entries *)

Definition dent (d : list Z) (k : Z) : list Z := slice (DIRENT_SIZE * k) DIRENT_SIZE d.
Definition dmatch (nm d : list Z) (k : Z) : bool :=
  negb (de_inum (dent d k) =? 0) && bool_decide (cname (de_name (dent d k)) = nm).
Definition nents (d : list Z) : Z := Z.of_nat (length d) / DIRENT_SIZE.
(** The index of the first entry in use with name [nm]. *)
Definition dir_lookup (nm d : list Z) : option Z := List.find (dmatch nm d) (seqZ 0 (nents d)).
Definition dir_inum (d : list Z) (k : Z) : Z := de_inum (dent d k).

Lemma find_seqZ (P : Z -> bool) m lo :
  match List.find P (seqZ lo (Z.of_nat m)) with
  | Some k => lo <= k < lo + Z.of_nat m /\ P k = true /\ (forall j, lo <= j < k -> P j = false)
  | None => forall j, lo <= j < lo + Z.of_nat m -> P j = false
  end.
Proof.
  revert lo. induction m as [|m IH]; intros lo.
  - simpl. intros j Hj. lia.
  - rewrite seqZ_cons by lia. simpl. destruct (P lo) eqn:E; [split; [lia|]; split; [done|]; intros; lia|].
    replace (Z.pred (Z.of_nat (S m))) with (Z.of_nat m) by lia. specialize (IH (Z.succ lo)).
    destruct (List.find P (seqZ (Z.succ lo) (Z.of_nat m))) as [k|].
    + destruct IH as (H1 & H2 & H3). split; [lia|]. split; [done|]. intros j Hj.
      destruct (decide (j = lo)) as [->|]; [done|]. apply H3. lia.
    + intros j Hj. destruct (decide (j = lo)) as [->|]; [done|]. apply IH. lia.
Qed.

Lemma nents_nonneg d : 0 <= nents d.
Proof. apply Z.div_pos; [lia | done]. Qed.

(** [dir_lookup] returns [k] exactly when [k] is the first match. *)
Lemma dir_lookup_some nm d k :
  dir_lookup nm d = Some k <-> 0 <= k < nents d /\ dmatch nm d k = true /\ (forall j, 0 <= j < k -> dmatch nm d j = false).
Proof.
  unfold dir_lookup. pose proof (nents_nonneg d). pose proof (find_seqZ (dmatch nm d) (Z.to_nat (nents d)) 0) as HF.
  rewrite Z2Nat.id in HF by done. destruct (List.find (dmatch nm d) (seqZ 0 (nents d))) as [k'|].
  - destruct HF as (H1 & H2 & H3). split; [by intros [= <-]|]. intros (K1 & K2 & K3). f_equal.
    destruct (decide (k' < k)); [rewrite K3 in H2 by lia; done|]. destruct (decide (k < k')); [rewrite H3 in K2 by lia; done|]. lia.
  - split; [done|]. intros (K1 & K2 & _). rewrite HF in K2 by lia. done.
Qed.

Lemma dir_lookup_none nm d : dir_lookup nm d = None <-> (forall j, 0 <= j < nents d -> dmatch nm d j = false).
Proof.
  unfold dir_lookup. pose proof (nents_nonneg d). pose proof (find_seqZ (dmatch nm d) (Z.to_nat (nents d)) 0) as HF.
  rewrite Z2Nat.id in HF by done. destruct (List.find (dmatch nm d) (seqZ 0 (nents d))) as [k'|].
  - destruct HF as (H1 & H2 & H3). split; [done|]. intros K. rewrite K in H2 by lia. done.
  - done.
Qed.

Section dir.
Context {S : Type} {BL : BlockLayer S} {BLO : BlockLayerOk S} {DS : DevSw S}.
Context (sb : superblock) (dstart : Z) (G : geometry sb dstart).
Implicit Types (f : Z -> block) (p : gset Z) (s : fs S) (x : S).

Local Abbreviation cached := (cached sb dstart).

(** A cached directory. *)
Record cached_dir s dp i f p : Prop := {
  cd_cached : cached s dp i f p;
  cd_type : i_type i = T_DIR \/ i_type i = T_SDIR;
  cd_size : i_size i mod DIRENT_SIZE = 0
}.

Lemma dir_regular s dp i f p : cached_dir s dp i f p -> i_type i <> T_SFILE.
Proof. intros [_ [->| ->] _]; done. Qed.

Lemma dir_nents s dp i f p : cached_dir s dp i f p -> i_size i = DIRENT_SIZE * nents (data f i).
Proof.
  intros HD. unfold nents. rewrite (length_data sb dstart) by apply HD. pose proof (cd_size _ _ _ _ _ HD).
  unfold DIRENT_SIZE in *. pose proof (Z.div_mod (i_size i) 16). lia.
Qed.

Lemma data_bytes s dp i f p : cached_dir s dp i f p -> Forall is_byte (data f i).
Proof.
  intros HD. pose proof (dir_regular _ _ _ _ _ HD) as Ht. destruct HD as [[C1 C2 C3 C4 HI] _ _].
  destruct (io_file _ _ _ _ HI Ht) as (F1 & F2 & F3). unfold data. destruct (Z.eqb_spec (i_type i) T_SFILE); [done|].
  apply Forall_fmap, Forall_forall. intros o Ho%elem_of_seqZ. apply nthZ_byte.
  assert (Hr := div_range o ltac:(lia)). pose proof (Z.mul_div_le o BSIZE ltac:(unfold BSIZE; lia)).
  apply (brp_ok _ _ _ _ _ C3). apply bl_loggable_dom, (blk_dom sb dstart G); [done | done|]. apply F2; lia.
Qed.

Lemma cached_bl s ip i f p x : cached s ip i f p -> brp x f ∅ p -> cached (set_bl x s) ip i f p.
Proof. intros [] ?. by split. Qed.

(** Reading entry [k]. *)
Lemma read_entry s dp i f p k (Q : Z * list Z -> fs S -> Prop) :
  cached_dir s dp i f p -> (size p + 5 < MAXTXN)%nat -> 0 <= k < nents (data f i) ->
  (forall x, brp x f ∅ p -> Q (DIRENT_SIZE, dent (data f i) k) (set_bl x s)) ->
  wp (readi dp (k * DIRENT_SIZE) DIRENT_SIZE) Q s.
Proof.
  intros HD Hp Hk HQ. pose proof (dir_nents _ _ _ _ _ HD) as Hn. pose proof (dir_regular _ _ _ _ _ HD) as Ht.
  pose proof (ca_ok _ _ _ _ _ _ _ (cd_cached _ _ _ _ _ HD)) as HI. destruct (io_file _ _ _ _ HI Ht) as (_ & _ & Hz).
  change (MAXFILE * BSIZE) with 71680 in Hz. unfold DIRENT_SIZE in *.
  eapply readi_spec; [exact G | apply HD | done | lia | lia|]. intros x HR.
  unfold read_result. rewrite (length_data sb dstart) by done.
  destruct (Z.ltb_spec (i_size i) (k * 16)); [lia|]. destruct (Z.leb_spec (2 ^ 32) (k * 16 + 16)); [lia|]. cbn [orb].
  rewrite Z.min_l by lia. unfold dent, DIRENT_SIZE in HQ. rewrite (Z.mul_comm k 16). by apply HQ.
Qed.

(** ** [dirlookup] *)

Lemma dir_test s dp i f p name k :
  cached_dir s dp i f p -> Forall is_byte name -> 0 <= k < nents (data f i) ->
  dmatch (cname name) (data f i) k =
    if de_inum (dent (data f i) k) =? 0 then false else (namecmp name (de_name (dent (data f i) k)) =? 0).
Proof.
  intros HD Hn Hk. unfold dmatch. destruct (de_inum (dent (data f i) k) =? 0); [done|]. cbn [negb andb].
  assert (Hb : Forall is_byte (de_name (dent (data f i) k))).
  { unfold de_name, dent, slice. apply Forall_drop, Forall_take, Forall_drop. by eapply data_bytes. }
  case_bool_decide as E.
  - symmetry. apply Z.eqb_eq, namecmp_cname; done.
  - symmetry. apply Z.eqb_neq. rewrite namecmp_cname by done. congruence.
Qed.

Lemma dir_iters s dp i f p :
  cached_dir s dp i f p -> (i_size i + DIRENT_SIZE - 1) / DIRENT_SIZE = nents (data f i).
Proof.
  intros HD. rewrite (dir_nents _ _ _ _ _ HD). unfold DIRENT_SIZE.
  symmetry. apply (Z.div_unique _ _ _ 15); lia.
Qed.

(** The outcome of [dirlookup]. *)
Lemma dirlookup_outcome s dp i f p name :
  cached_dir s dp i f p -> Forall is_byte name -> (size p + 5 < MAXTXN)%nat ->
  exists x, brp x f ∅ p /\ dirlookup dp name s =
    match dir_lookup (cname name) (data f i) with
    | None => Ret None (set_bl x s)
    | Some k => (let! ip := iget (i_dev i) (dir_inum (data f i) k) in ret (Some (ip, k * DIRENT_SIZE))) (set_bl x s)
    end.
Proof.
  intros HD Hn Hp. set (R := fun o : outcome (fs S) (option (nat * Z)) => exists x, brp x f ∅ p /\ o =
    match dir_lookup (cname name) (data f i) with
    | None => Ret None (set_bl x s)
    | Some k => (let! ip := iget (i_dev i) (dir_inum (data f i) k) in ret (Some (ip, k * DIRENT_SIZE))) (set_bl x s)
    end). change (wpo (dirlookup dp name) R s).
  unfold dirlookup. apply wpo_bind. eapply wp_geti; [apply HD|].
  assert (Hty : negb (i_type i =? T_DIR) && negb (i_type i =? T_SDIR) = false)
    by (destruct (cd_type _ _ _ _ _ HD) as [-> | ->]; done).
  rewrite Hty, (dir_iters _ _ _ _ _ HD). pose proof (nents_nonneg (data f i)).
  apply (wpo_for_ (fun j s' => exists x, s' = set_bl x s /\ brp x f ∅ p /\
    forall k, 0 <= k < j -> dmatch (cname name) (data f i) k = false)).
  - exists (f_bl s). rewrite set_bl_self. split_and!; [done | apply HD | lia].
  - intros j s' Hj (x & -> & HR & Hbefore). rewrite Z2Nat.id in Hj by done.
    assert (HD' : cached_dir (set_bl x s) dp i f p) by (destruct HD; split; try done; by apply cached_bl).
    apply wpo_bind. eapply read_entry; [exact HD' | done | lia|]. intros y HRy. rewrite Z.eqb_refl. cbn [negb].
    pose proof (dir_test _ _ _ _ _ name j HD Hn ltac:(lia)) as Ht.
    destruct (de_inum (dent (data f i) j) =? 0).
    { exists y. split_and!; [done | done|]. intros k Hk. destruct (decide (k = j)) as [->|]; [done | apply Hbefore; lia]. }
    destruct (namecmp name (de_name (dent (data f i) j)) =? 0).
    + assert (El : dir_lookup (cname name) (data f i) = Some j) by (apply dir_lookup_some; split_and!; [lia | lia | done | done]).
      unfold wpo. change (set_bl y (set_bl x s)) with (set_bl y s).
      assert (HRo : R ((let! ip := iget (i_dev i) (dir_inum (data f i) j) in ret (Some (ip, j * DIRENT_SIZE))) (set_bl y s)))
        by (exists y; split; [done | by rewrite El]).
      unfold dir_inum in HRo. revert HRo. unfold bind, ret. by destruct (iget _ _ _).
    + exists y. split_and!; [done | done|]. intros k Hk. destruct (decide (k = j)) as [->|]; [done | apply Hbefore; lia].
  - intros s' (x & -> & HR & Hall). exists x. split; [done|].
    assert (El : dir_lookup (cname name) (data f i) = None) by (apply dir_lookup_none; intros j Hj; apply Hall; lia).
    by rewrite El.
Qed.

Lemma dirlookup_none s dp i f p name (Q : option (nat * Z) -> fs S -> Prop) :
  cached_dir s dp i f p -> Forall is_byte name -> (size p + 5 < MAXTXN)%nat -> dir_lookup (cname name) (data f i) = None ->
  (forall x, brp x f ∅ p -> Q None (set_bl x s)) -> wp (dirlookup dp name) Q s.
Proof.
  intros HD Hn Hp Hnone HQ. destruct (dirlookup_outcome s dp i f p name HD Hn Hp) as (x & HR & E). rewrite Hnone in E.
  eapply wp_intro; [exact E | by apply HQ].
Qed.

(** ** [dirlink] *)

(** The offset of the first unused entry, or the end. *)
Definition free_slot (d : list Z) : Z :=
  match List.find (fun k => de_inum (dent d k) =? 0) (seqZ 0 (nents d)) with Some k => k | None => nents d end.

Lemma free_slot_range d : 0 <= free_slot d <= nents d.
Proof.
  unfold free_slot. pose proof (nents_nonneg d). pose proof (find_seqZ (fun k => de_inum (dent d k) =? 0) (Z.to_nat (nents d)) 0) as HF.
  rewrite Z2Nat.id in HF by done. destruct (List.find _ _); lia.
Qed.

Lemma free_slot_unused d : free_slot d < nents d -> dir_inum d (free_slot d) = 0.
Proof.
  unfold free_slot, dir_inum. pose proof (find_seqZ (fun k => de_inum (dent d k) =? 0) (Z.to_nat (nents d)) 0) as HF.
  rewrite Z2Nat.id in HF by apply nents_nonneg. destruct (List.find _ _); [|lia]. intros _. destruct HF as (_ & HF & _). lia.
Qed.

Definition new_entry (name : list Z) (inum : Z) : list Z :=
  le_bytes 2 inum ++ Kstring.padded (Z.to_nat DIRSIZ) (Kstring.nthZ name) 0.

Lemma new_entry_length name inum : length (new_entry name inum) = 16%nat.
Proof. unfold new_entry. rewrite length_app, length_le_bytes, Kstring.length_padded. done. Qed.

Lemma new_entry_bytes name inum : Forall is_byte name -> Forall is_byte (new_entry name inum).
Proof.
  intros Hn. apply Forall_app. split; [apply le_bytes_is_byte|]. apply padded_bytes. intros j. by apply nthZ_byte.
Qed.

(** The directory after linking. *)
Definition linked (d name : list Z) (inum : Z) : list Z :=
  overwrite (free_slot d * DIRENT_SIZE) (new_entry name inum) d.

Lemma dirlink_scan s dp i f p (Q : option Z -> fs S -> Prop) :
  cached_dir s dp i f p -> (size p + 5 < MAXTXN)%nat ->
  (forall x r, brp x f ∅ p ->
     (match r with Some off => off | None => nents (data f i) * DIRENT_SIZE end) = free_slot (data f i) * DIRENT_SIZE ->
     Q r (set_bl x s)) ->
  wp (for_ (Z.to_nat ((i_size i + DIRENT_SIZE - 1) / DIRENT_SIZE)) 0 (fun k =>
        let off := k * DIRENT_SIZE in
        let! (r, de) := readi dp off DIRENT_SIZE in
        if negb (r =? DIRENT_SIZE) then panic "dirlink read"
        else if de_inum de =? 0 then ret (Some off) else ret None)) Q s.
Proof.
  intros HD Hp HQ. rewrite (dir_iters _ _ _ _ _ HD). pose proof (nents_nonneg (data f i)) as Hn0.
  pose proof (find_seqZ (fun k => de_inum (dent (data f i) k) =? 0) (Z.to_nat (nents (data f i))) 0) as HF.
  rewrite Z2Nat.id in HF by done. unfold free_slot in HQ.
  apply (wp_for_ (fun j s' => exists x, s' = set_bl x s /\ brp x f ∅ p /\
    forall k, 0 <= k < j -> de_inum (dent (data f i) k) <> 0)).
  - exists (f_bl s). rewrite set_bl_self. split_and!; [done | apply HD | lia].
  - intros j s' Hj (x & -> & HR & Hbefore). rewrite Z2Nat.id in Hj by done.
    assert (HD' : cached_dir (set_bl x s) dp i f p) by (destruct HD; split; try done; by apply cached_bl).
    apply wp_bind. eapply read_entry; [exact HD' | done | lia|]. intros y HRy. rewrite Z.eqb_refl. cbn [negb].
    destruct (Z.eqb_spec (de_inum (dent (data f i) j)) 0) as [E|E]; apply wp_ret.
    + apply HQ; [done|]. destruct (List.find _ _) as [k|].
      * destruct HF as (H1 & H2 & H3). f_equal. destruct (decide (j < k)); [specialize (H3 j ltac:(lia)); lia|].
        destruct (decide (k < j)); [specialize (Hbefore k ltac:(lia)); lia | lia].
      * specialize (HF j ltac:(lia)). lia.
    + exists y. split_and!; [done | done|]. intros k Hk. destruct (decide (k = j)) as [->|]; [done | apply Hbefore; lia].
  - intros s' (x & -> & HR & Hall). apply HQ; [done|]. destruct (List.find _ _) as [k|]; [|done].
    destruct HF as (H1 & H2 & _). specialize (Hall k ltac:(lia)). lia.
Qed.

Lemma nblocks_entry k : 0 <= k -> nblocks (k * DIRENT_SIZE) DIRENT_SIZE = 1%nat.
Proof.
  intros Hk. unfold nblocks, DIRENT_SIZE, BSIZE. pose proof (Z.div_mod k 32). pose proof (Z.mod_pos_bound k 32).
  assert (E1 : k * 16 / 512 = k / 32) by (symmetry; apply (Z.div_unique _ _ _ (16 * (k mod 32))); lia).
  assert (E2 : (k * 16 + 16 + 512 - 1) / 512 = k / 32 + 1) by (symmetry; apply (Z.div_unique _ _ _ (16 * (k mod 32) + 15)); lia).
  rewrite E1, E2. lia.
Qed.

Lemma dirlink_spec s dp i f p name inum (Q : Z -> fs S -> Prop) :
  cached_dir s dp i f p -> Forall is_byte name -> dir_lookup (cname name) (data f i) = None ->
  i_size i + DIRENT_SIZE <= MAXFILE * BSIZE -> (2 <= pot sb f (i_addrs i))%nat -> (size p + 7 < MAXTXN)%nat ->
  (forall s' i' f' p', cached_dir s' dp i' f' p' -> data f' i' = linked (data f i) name inum -> isolates sb f i f' i' ->
     (on_disk sb f i = i -> on_disk sb f' i' = i') -> p ⊆ p' /\ (size p' <= size p + 4)%nat -> Q 0 s') ->
  wp (dirlink dp name inum) Q s.
Proof.
  intros HD Hby Hnone Hmax Hpot Hp HQ. unfold dirlink. apply wp_bind.
  eapply dirlookup_none; [exact HD | done | lia | done|]. intros x HR.
  assert (HD1 : cached_dir (set_bl x s) dp i f p) by (destruct HD; split; try done; by apply cached_bl).
  apply wp_bind. eapply wp_geti; [apply HD1|]. apply wp_bind.
  eapply dirlink_scan; [exact HD1 | lia|]. intros y r HRy Er.
  assert (HD2 : cached_dir (set_bl y (set_bl x s)) dp i f p) by (destruct HD1; split; try done; by apply cached_bl).
  pose proof (dir_iters _ _ _ _ _ HD) as Hit. pose proof (nents_nonneg (data f i)). pose proof (free_slot_range (data f i)) as Hfs.
  pose proof (dir_nents _ _ _ _ _ HD) as Hsz. rewrite Hit, Z2Nat.id, Er by lia. fold (new_entry name inum).
  pose proof (new_entry_length name inum) as Hle. apply wp_bind.
  eapply (writei_spec sb dstart G _ dp i f p (new_entry name inum) (free_slot (data f i) * DIRENT_SIZE) DIRENT_SIZE);
    [apply HD2 | by eapply dir_regular | by apply new_entry_bytes | by rewrite Hle | | | | |].
  - unfold DIRENT_SIZE in *. lia.
  - unfold DIRENT_SIZE in *. lia.
  - right. by rewrite nblocks_entry by lia.
  - rewrite nblocks_entry by lia. lia.
  - intros s' i' f' p' [W1 W2 (ad' & W3) W4 W5 W6 W7]. rewrite Z.eqb_refl. cbn [negb]. apply wp_ret.
    rewrite Hle in W7. change (Z.of_nat 16) with DIRENT_SIZE in W7. rewrite nblocks_entry in W7 by lia.
    eapply HQ; try done; [|destruct W7; split; [done | lia]]. split; [done | rewrite W3; apply HD|].
    rewrite W3. cbn [with_size with_addrs i_size]. rewrite Hle, Hsz. unfold DIRENT_SIZE in *.
    destruct (Z.max_spec (16 * nents (data f i)) (free_slot (data f i) * 16 + Z.of_nat 16)) as [[_ ->]|[_ ->]].
    + replace (free_slot (data f i) * 16 + Z.of_nat 16) with ((free_slot (data f i) + 1) * 16) by lia. apply Z.mod_mul. lia.
    + rewrite Z.mul_comm. apply Z.mod_mul. lia.
Qed.
End dir.

(** ** Lookups after [dirlink] *)

Lemma slice_overwrite off src d o n :
  0 <= off <= Z.of_nat (length d) -> 0 <= o -> 0 <= n -> o + n <= off \/ off + Z.of_nat (length src) <= o ->
  slice o n (overwrite off src d) = slice o n d.
Proof.
  intros Hoff Ho Hn Hd. apply list_eq. intros k. rewrite !slice_lookup by done. case_decide; [|done]. unfold overwrite.
  assert (Hl : length (take (Z.to_nat off) d) = Z.to_nat off) by (rewrite length_take; lia).
  destruct (decide (Z.to_nat o + k < Z.to_nat off)%nat).
  - rewrite lookup_app_l by lia. apply lookup_take_lt. lia.
  - rewrite lookup_app_r, Hl by lia. rewrite lookup_app_r by lia. rewrite lookup_drop. f_equal. lia.
Qed.

Lemma slice_overwrite_new off src d :
  0 <= off <= Z.of_nat (length d) -> slice off (Z.of_nat (length src)) (overwrite off src d) = src.
Proof.
  intros Hoff. unfold slice, overwrite. rewrite Nat2Z.id.
  assert (Hl : length (take (Z.to_nat off) d) = Z.to_nat off) by (rewrite length_take; lia).
  rewrite drop_app_length' by lia. by rewrite take_app_length.
Qed.

Section linked.
Context (d : list Z) (Hd : Z.of_nat (length d) = DIRENT_SIZE * nents d).
Context (name : list Z) (inum : Z) (Hin : u16 inum <> 0).

Lemma linked_length : nents (linked d name inum) = Z.max (nents d) (free_slot d + 1).
Proof.
  pose proof (free_slot_range d). unfold nents at 1, linked, overwrite. unfold DIRENT_SIZE in *.
  rewrite !length_app, length_take, length_drop, new_entry_length.
  replace (Z.of_nat (Z.to_nat (free_slot d * 16) `min` length d + (16 + (length d - (Z.to_nat (free_slot d * 16) + 16)))))
    with (Z.max (nents d) (free_slot d + 1) * 16) by lia.
  apply Z.div_mul. lia.
Qed.

Lemma linked_dent k : 0 <= k ->
  dent (linked d name inum) k = if decide (k = free_slot d) then new_entry name inum else dent d k.
Proof.
  intros Hk. pose proof (free_slot_range d). unfold dent, linked. unfold DIRENT_SIZE in *. case_decide.
  - subst k. rewrite (Z.mul_comm 16). replace 16 with (Z.of_nat (length (new_entry name inum))) at 2 by (by rewrite new_entry_length).
    apply slice_overwrite_new. lia.
  - apply slice_overwrite; rewrite ?new_entry_length; lia.
Qed.

Lemma new_entry_inum : de_inum (new_entry name inum) = u16 inum.
Proof.
  unfold de_inum, rd16, rd, new_entry. rewrite drop_0.
  rewrite take_app_length' by (by rewrite length_le_bytes). by rewrite le_word_bytes.
Qed.
Lemma new_entry_name : cname (de_name (new_entry name inum)) = cname name.
Proof.
  unfold de_name, new_entry. rewrite drop_app_length' by (by rewrite length_le_bytes). apply cname_padded.
Qed.

Lemma linked_match nm k : 0 <= k ->
  dmatch nm (linked d name inum) k = if decide (k = free_slot d) then bool_decide (cname name = nm) else dmatch nm d k.
Proof.
  intros Hk. unfold dmatch. rewrite linked_dent by done. case_decide; [|done].
  rewrite new_entry_inum, new_entry_name. by destruct (Z.eqb_spec (u16 inum) 0).
Qed.

Lemma lookup_linked : dir_lookup (cname name) d = None ->
  dir_lookup (cname name) (linked d name inum) = Some (free_slot d) /\ dir_inum (linked d name inum) (free_slot d) = u16 inum.
Proof.
  intros Hn. pose proof (free_slot_range d). rewrite dir_lookup_none in Hn. split.
  - apply dir_lookup_some. rewrite linked_length. split_and!; [lia | lia | |].
    + rewrite linked_match, decide_True by (done || lia). by apply bool_decide_true.
    + intros j Hj. rewrite linked_match, decide_False by lia. apply Hn. lia.
  - unfold dir_inum. rewrite linked_dent, decide_True by (done || lia). apply new_entry_inum.
Qed.

Lemma lookup_linked_other nm : nm <> cname name ->
  dir_lookup nm (linked d name inum) = dir_lookup nm d /\
  (forall k, dir_lookup nm d = Some k -> dir_inum (linked d name inum) k = dir_inum d k).
Proof.
  intros Hne. pose proof (free_slot_range d) as Hfs. pose proof linked_length as Hl.
  assert (Hm : forall j, 0 <= j < nents d -> dmatch nm (linked d name inum) j = dmatch nm d j).
  { intros j Hj. rewrite linked_match by lia. case_decide as E; [|done]. rewrite bool_decide_false by done.
    unfold dmatch. fold (dir_inum d j). subst j. by rewrite free_slot_unused by lia. }
  assert (Hlast : forall j, 0 <= j -> nents d <= j < nents (linked d name inum) -> dmatch nm (linked d name inum) j = false).
  { intros j Hj Hjr. rewrite Hl in Hjr. rewrite linked_match, decide_True by lia. by apply bool_decide_false. }
  split.
  - destruct (dir_lookup nm d) as [k|] eqn:E.
    + apply dir_lookup_some in E as (H1 & H2 & H3). apply dir_lookup_some. split_and!; [lia | lia | by rewrite Hm|].
      intros j Hj. rewrite Hm by lia. by apply H3.
    + rewrite dir_lookup_none in E. apply dir_lookup_none. intros j Hj. destruct (decide (j < nents d)); [rewrite Hm by lia; apply E; lia|].
      apply Hlast; lia.
  - intros k Hk%dir_lookup_some. destruct Hk as (H1 & H2 & _). unfold dir_inum. rewrite linked_dent by lia. case_decide as E; [|done].
    exfalso. unfold dmatch in H2. fold (dir_inum d k) in H2. rewrite E, free_slot_unused in H2 by lia. done.
Qed.
End linked.
