(* ===== verification/FsExample.v ===== *)
(** * A concrete file system

    A disk of 60 blocks laid out as [mkfs] does (boot block, super block, a
    log of 30 blocks, one inode block, one block of free map, data from block
    34), booted and with a transaction open: it satisfies the hypotheses of
    the theorems on files and directories. *)

From S2P Require Import Prelude CString Bio Layout Blocks Log LogBlocks Fs FsBlocks FsInode FsFile FsIo.

(** Inode 2, empty, of the given type; inode 3, a file of five bytes in block
    34; inode 4, a small file of three bytes. *)
Definition ex_inode (type : Z) : inode := Inode ROOTDEV 2 1 true I_VALID type 0 0 1 0 (replicate 52 0).
Definition ex_other : inode := Inode ROOTDEV 3 1 true I_VALID T_FILE 0 0 1 5 ([34] ++ replicate 51 0).
Definition ex_small : inode := Inode ROOTDEV 4 1 true I_VALID T_SFILE 0 0 1 3 ([7; 8; 9] ++ replicate 49 0).

Definition ex_bitmap : block := replicate 4 255 ++ [7] ++ replicate 507 0.
Definition ex_hello : list Z := [104; 101; 108; 108; 111].
Definition fs_disk : gmap Z block :=
  <[33 := ex_bitmap]> (<[34 := ex_hello ++ replicate 507 0]>
    (<[32 := dinode_store ex_other (dinode_off 3) (dinode_store ex_small (dinode_off 4) zero_block)]> Log.ex_disk)).

#[export] Instance ex_devsw : DevSw log := {| dev_read _ := None; dev_write _ := None |}.

Lemma ex_geom : 1 < 2 /\ 30 <= 30 /\ 2 + 30 <= 60 /\ 60 < 2 ^ 31.
Proof. lia. Qed.

#[export] Instance ex_layer_ok : BlockLayerOk log :=
  log_blocks_ok 2 30 60 (proj1 ex_geom) (proj1 (proj2 ex_geom)) (proj1 (proj2 (proj2 ex_geom))) (proj2 (proj2 (proj2 ex_geom))).

Lemma ex_layer D :
  disk_ok 60 D -> sb_logstart (sb_decode (dview D 1)) = 2 -> sb_nlog (sb_decode (dview D 1)) = 30 ->
  hd_n (dview D 2) = 0 -> exists x : log, brp x (dview D) ∅ ∅.
Proof.
  intros HD Hst Hsz Hh.
  pose proof (initlog_clean 2 30 60 D (boot D 60) (boot_brep D 60 HD) eq_refl) as HI.
  destruct (wp_run _ _ _ (HI eq_refl (proj1 ex_geom) (proj1 (proj2 ex_geom)) (proj1 (proj2 (proj2 ex_geom))) (proj2 (proj2 (proj2 ex_geom))) HD Hst Hsz Hh))
    as ([] & x & _ & HR). by exists x.
Qed.

Lemma ex_geometry : geometry ex_sb 34.
Proof.
  assert (HL : forall b, 32 <= b < 60 -> bl_loggable b) by (intros b Hb; split; [split; lia | lia]).
  split.
  - unfold sb_ok. simpl. lia.
  - change (sb_size ex_sb) with 60. change BPB with 4096. lia.
  - lia.
  - split; lia.
  - split; [apply HL; simpl; lia | simpl; lia].
  - intros i Hi. change (sb_ninodes ex_sb) with 8 in Hi.
    assert (E : IBLOCK i ex_sb = 32).
    { unfold IBLOCK. change IPB with 8. rewrite Z.div_small by lia. simpl. apply u32_small. lia. }
    rewrite E. split; [apply HL; lia | simpl; lia].
  - intros b Hb. apply HL. simpl in Hb. lia.
Qed.

Lemma fs_disk_ok : disk_ok 60 fs_disk.
Proof. apply disk_okb_ok. vm_compute. reflexivity. Qed.

Lemma fs_disk_map : map_ok ex_sb 34 (dview fs_disk).
Proof.
  split; [vm_compute; reflexivity|].
  assert (HB : forallb (fun b => used ex_sb (dview fs_disk) b) (seqZ 0 34) = true) by (vm_compute; reflexivity).
  rewrite forallb_forall in HB. intros b Hb. apply HB, list_elem_of_In, elem_of_seqZ. lia.
Qed.

Definition ex_state (x : log) (i : inode) : fs log := Fs x ex_sb [i].

Lemma slot_empty f k : slot f (replicate 52 0) k = 0.
Proof.
  unfold slot. destruct (Z.leb_spec k 12).
  - destruct (decide (0 <= k)); [apply rd32_zero; lia|]. unfold rd32, rd.
    replace (Z.to_nat (4 * k)) with 0%nat by lia. reflexivity.
  - rewrite rd32_zero by lia. done.
Qed.

Lemma ex_cached : exists x, forall i, inode_ok ex_sb 34 (dview fs_disk) i ->
  cached ex_sb 34 (ex_state x i) 0 i (dview fs_disk) ∅.
Proof.
  destruct (ex_layer fs_disk fs_disk_ok) as [x HR]; [vm_compute; reflexivity.. |].
  exists x. intros i Hi. split; [done | done | done | apply fs_disk_map | done].
Qed.

Lemma ex_inode_ok type : type <> T_DEV -> 0 <= type < 100 -> inode_ok ex_sb 34 (dview fs_disk) (ex_inode type).
Proof.
  intros Ht Hr. assert (HB : Forall is_byte (replicate 52 0)) by (apply Forall_replicate; unfold is_byte; lia).
  split; try done.
  - split; unfold ex_inode; cbn [i_type i_major i_minor i_nlink i_size i_addrs]; done || lia.
  - intros _. cbn [ex_inode i_addrs i_size].
    split; [|split; [intros bn ? ?; unfold BSIZE in *; lia | done]]. split; [done | done | |].
    + intros k _. by rewrite slot_empty.
    + intros k j _ _. by rewrite slot_empty.
Qed.

Lemma ex_pot type : pot ex_sb (dview fs_disk) (i_addrs (ex_inode type)) = 25%nat.
Proof. vm_compute. reflexivity. Qed.

Lemma other_slots k : 0 <= k < NSLOT -> slot (dview fs_disk) (i_addrs ex_other) k = if decide (k = 0) then 34 else 0.
Proof.
  intros Hk. assert (HB : forallb (fun k => slot (dview fs_disk) (i_addrs ex_other) k =? if decide (k = 0) then 34 else 0) (seqZ 0 NSLOT) = true)
    by (vm_compute; reflexivity).
  rewrite forallb_forall in HB. apply Z.eqb_eq, HB, list_elem_of_In, elem_of_seqZ. lia.
Qed.

Lemma ex_other_ok : inode_ok ex_sb 34 (dview fs_disk) ex_other.
Proof.
  assert (HB : Forall is_byte (i_addrs ex_other)).
  { apply Forall_app. split; [|apply Forall_replicate]; repeat constructor; unfold is_byte; lia. }
  split; try done.
  intros _. split; [|split; [|done]].
  - split; [done | done | |].
    + intros k Hk. rewrite other_slots by done. case_decide; [|done]. intros _.
      split; [split; simpl; lia | vm_compute; reflexivity].
    + intros k j Hk Hj. rewrite !other_slots by done. repeat case_decide; congruence.
  - intros bn Hbn Hlt. cbn [ex_other i_size] in Hlt. assert (bn = 0) as -> by (unfold BSIZE in Hlt; lia).
    vm_compute. discriminate.
Qed.

Lemma ex_small_ok : inode_ok ex_sb 34 (dview fs_disk) ex_small.
Proof.
  split; try done. split; try done.
  apply Forall_app. split; [|apply Forall_replicate; unfold is_byte; lia].
  repeat (apply Forall_cons; split; [unfold is_byte; lia|]). constructor.
Qed.

Lemma ex_small_disk : on_disk ex_sb (dview fs_disk) ex_small = ex_small.
Proof. vm_compute. reflexivity. Qed.
