(* ===== verification/FsTheorems.v ===== *)
(** * Theorems on files

    The behaviour of [readi], [writei], [balloc] and [bfree] as equations on
    their outcome, and a concrete file system on the logged disk that
    satisfies the hypotheses. *)

From S2P Require Import Prelude CString Bio Layout Blocks Log LogBlocks Fs FsBlocks FsInode FsFile FsIo FsWrite FsSmall FsExample.

Section theorems.
Context {S : Type} {BL : BlockLayer S} {BLO : BlockLayerOk S} {DS : DevSw S}.
Context (sb : superblock) (dstart : Z) (G : geometry sb dstart).
Implicit Types (f : Z -> block) (p : gset Z) (s : fs S) (x : S).

(** C24: [readi] on a cached inode returns -1 for an offset past the end or a
    range that overflows, and otherwise the bytes of the file from [off] on,
    cut at the end of the file; the file system content does not change. *)
Theorem readi_correct s ip i f p off n :
  cached sb dstart s ip i f p -> (size p + 5 < MAXTXN)%nat -> 0 <= off < 2 ^ 32 -> 0 <= n < 2 ^ 32 ->
  exists x, readi ip off n s = Ret (read_result (data f i) off n) (set_bl x s) /\ brp x f ∅ p.
Proof using G.
  intros HC Hp Hoff Hn.
  destruct (wp_run (readi ip off n) (fun r s' => exists x, r = read_result (data f i) off n /\ s' = set_bl x s /\ brp x f ∅ p) s)
    as (r & s' & E & x & -> & -> & HR); [|by exists x].
  eapply readi_spec; try done. intros x HR. by exists x.
Qed.

(** C3: [writei] at an offset inside a regular file or directory stores the
    bytes there, extends the file as needed, returns their number, and
    affects no block in use that the file does not own and no other inode. *)
Theorem writei_correct s ip i f p src off :
  let n := Z.of_nat (length src) in
  cached sb dstart s ip i f p -> i_type i <> T_SFILE -> Forall is_byte src ->
  0 <= off <= i_size i -> off + n <= MAXFILE * BSIZE ->
  (off + n <= i_size i \/ (nblocks off n + 1 <= pot sb f (i_addrs i))%nat) ->
  (size p + nblocks off n + 6 < MAXTXN)%nat ->
  exists s' i' f' p', writei ip src off n s = Ret n s' /\ cached sb dstart s' ip i' f' p' /\
    data f' i' = overwrite off src (data f i) /\ i_size i' = Z.max (i_size i) (off + n) /\
    isolates sb f i f' i' /\ (on_disk sb f i = i -> on_disk sb f' i' = i').
Proof using G.
  intros n HC Ht Hby Hoff Hmax Hsp Hb.
  destruct (wp_run (writei ip src off n) (fun r s' => r = n /\ exists i' f' p', written sb dstart s ip i f p off src s' i' f' p') s)
    as (r & s' & E & -> & i' & f' & p' & HW).
  { eapply writei_spec; try done. intros s' i' f' p' HW. split; [done|]. by exists i', f', p'. }
  exists s', i', f', p'. split; [done|]. destruct HW as [W1 W2 (ad' & W3) W4 W5 W6 W7 W8]. split_and!; try done. by rewrite W3.
Qed.

(** a write whose range is invalid is refused and changes nothing. *)
Theorem writei_refused s ip i src off n :
  f_inodes s !! ip = Some i -> i_type i <> T_DEV -> 0 <= i_size i < 2 ^ 32 -> 0 <= off < 2 ^ 32 -> 0 <= n < 2 ^ 32 ->
  i_size i < off \/ 2 ^ 32 <= off + n \/ MAXFILE * BSIZE < off + n ->
  writei ip src off n s = Ret (-1) s.
Proof using.
  intros Hi Ht Hz Hoff Hn Hbad. unfold writei, geti at 1. rewrite (bind_Ret _ _ s i s) by (unfold bind, get; by rewrite Hi).
  destruct (Z.eqb_spec (i_type i) T_DEV); [done|]. rewrite u32_add_wrap by done.
  destruct (Z.ltb_spec (i_size i) off); [done|]. destruct (Z.leb_spec (2 ^ 32) (off + n)); [done|]. cbn [orb].
  rewrite u32_small by lia. destruct (Z.ltb_spec (MAXFILE * BSIZE) (off + n)); [done | lia].
Qed.

(** another regular file, whose blocks are disjoint from those of the
    file written, keeps its bytes and stays well formed. *)
Theorem other_file_kept f i f' i' j :
  map_ok sb dstart f -> inode_ok sb dstart f j -> i_type j <> T_SFILE -> isolates sb f i f' i' ->
  0 <= i_inum i < sb_ninodes sb ->
  (forall k l, 0 <= k < NSLOT -> 0 <= l < NSLOT -> slot f (i_addrs j) l <> 0 -> slot f (i_addrs i) k <> slot f (i_addrs j) l) ->
  inode_ok sb dstart f' j /\ data f' j = data f j.
Proof using G.
  intros Hm Hj Ht HS Hin Hdis. by destruct (isolates_other sb dstart G f i f' i' j Hm Hj Ht HS Hin Hdis) as (H1 & H2 & _).
Qed.


(** a write inside a small file changes only the in-memory inode: the
    inode on disk keeps the old bytes, so the new ones are lost when the
    cache entry is reloaded. *)
Theorem small_overwrite_not_saved s ip i f p src off :
  let n := Z.of_nat (length src) in
  cached sb dstart s ip i f p -> i_type i = T_SFILE -> Forall is_byte src -> (size p < MAXTXN)%nat ->
  0 <= off -> off + n <= i_size i -> on_disk sb f i = i ->
  exists s' i' p', writei ip src off n s = Ret n s' /\ cached sb dstart s' ip i' f p' /\
    data f i' = overwrite off src (data f i) /\ data f (on_disk sb f i') = data f i.
Proof using G.
  intros n HC Ht Hby Hp Hoff Hle Hd. pose proof (ca_ok _ _ _ _ _ _ _ HC) as HI. pose proof (io_small _ _ _ _ HI Ht) as Hsm.
  destruct (wp_run (writei ip src off n) (fun r s' => r = n /\ exists i' p', cached sb dstart s' ip i' f p' /\
     i' = with_size (Z.max (i_size i) (off + n)) (small_put off src i)) s)
    as (r & s' & E & -> & i' & p' & HC' & Ei).
  { eapply (writei_small_spec sb dstart G s ip i f p src off n); try done; [lia | lia|]. intros s' i' f' p' HC' Ei Ef. split; [done|].
    rewrite decide_False in Ef by lia. subst f'. by exists i', p'. }
  exists s', i', p'. split; [done|]. split; [done|]. split.
  - rewrite Ei. eapply small_data; done || lia.
  - transitivity (data f (on_disk sb f i)); [|by rewrite Hd]. rewrite Ei. done.
Qed.

(** [balloc] returns a block that was free, zeroed and marked in use, and
    [bfree] of that block restores the free map; freeing it once more panics,
    and with no free block [balloc] panics. *)
Theorem alloc_free s f p :
  f_sb s = sb -> brp (f_bl s) f ∅ p -> map_ok sb dstart f -> (size p + 3 < MAXTXN)%nat ->
  if decide (0 < nfree sb f)%nat then
    exists b x, balloc ROOTDEV s = Ret b (set_bl x s) /\ datablk sb dstart b /\ used sb f b = false /\
      let f1 := alloc_view sb f b in
      brp x f1 ∅ ({[b]} ∪ ({[sb_bmapstart sb]} ∪ p)) /\ f1 b = replicate (Z.to_nat BSIZE) 0 /\
      (forall c, c <> b -> c <> sb_bmapstart sb -> f1 c = f c) /\
      (forall c, 0 <= c -> used sb f1 c = if decide (c = b) then true else used sb f c) /\
      exists y, bfree ROOTDEV b (set_bl x s) = Ret tt (set_bl y s) /\
        bfree ROOTDEV b (set_bl y s) = Panic "freeing free block" /\
        let f2 := free_view sb f1 b in
        brp y f2 ∅ ({[sb_bmapstart sb]} ∪ ({[b]} ∪ ({[sb_bmapstart sb]} ∪ p))) /\
        (forall c, 0 <= c -> used sb f2 c = used sb f c)
  else balloc ROOTDEV s = Panic "balloc: out of blocks".
Proof using G.
  intros Hsb HR Hm Hp. assert (Hi0 : inuse ∅ p = p) by (unfold inuse; rewrite map_img_empty_L; set_solver).
  assert (Hnin : forall b : Z, b ∉@{gset Z} map_img (∅ : gmap nat Z)) by (intros b; rewrite map_img_empty_L; set_solver).
  case_decide as Hn.
  - destruct (wp_run (balloc ROOTDEV) (fun b s' => exists x, s' = set_bl x s /\ datablk sb dstart b /\ used sb f b = false /\
      brp x (alloc_view sb f b) ∅ ({[b]} ∪ ({[sb_bmapstart sb]} ∪ p))) s) as (b & s' & E & x & -> & Hd & Hu & HR').
    { eapply balloc_spec; [exact G | done | exact HR | done | by apply nfree_pos | done | | rewrite Hi0; lia |].
      - intros b Hb. by apply Hnin in Hb.
      - intros b x Hd Hu HR'. by exists x. }
    exists b, x. split_and!; try done.
    assert (Hl : length (f (sb_bmapstart sb)) = 512%nat) by (eapply brp_len; [exact HR | apply (bm_dom sb dstart G)]).
    assert (Hl1 : length (alloc_view sb f b (sb_bmapstart sb)) = 512%nat) by (eapply brp_len; [exact HR' | apply (bm_dom sb dstart G)]).
    assert (Hu1 : forall c, 0 <= c -> used sb (alloc_view sb f b) c = if decide (c = b) then true else used sb f c)
      by (intros c Hc; by eapply used_alloc).
    assert (Hpos : 1 < b) by (unfold datablk in Hd; pose proof (g_start _ _ G); lia).
    assert (Hsb1 : forall d, sb_decode (fup (alloc_view sb f b) (sb_bmapstart sb) d 1) = sb /\ sb_decode (alloc_view sb f b 1) = sb).
    { intros d. pose proof (g_bmap _ _ G). unfold alloc_view. rewrite !fup_ne by lia. split; apply Hm. }
    assert (Hsz : forall q : gset Z, (size ({[b]} ∪ ({[sb_bmapstart sb]} ∪ q)) <= size q + 2)%nat).
    { intros q. pose proof (size_add b ({[sb_bmapstart sb]} ∪ q)). pose proof (size_add (sb_bmapstart sb) q). lia. }
    assert (Hi1 : forall q, inuse ∅ q = q) by (intros q; unfold inuse; rewrite map_img_empty_L; set_solver).
    destruct (wp_run (bfree ROOTDEV b) (fun _ s' => exists y, s' = set_bl y s /\ brp y (free_view sb (alloc_view sb f b) b) ∅
      ({[sb_bmapstart sb]} ∪ ({[b]} ∪ ({[sb_bmapstart sb]} ∪ p)))) (set_bl x s)) as ([] & s' & E2 & y & -> & HR2).
    { eapply bfree_spec; [exact G | done | exact HR' | by apply (Hsb1 []) | done | | done | done | |].
      - rewrite Hu1 by lia. by rewrite decide_True.
      - rewrite Hi1. pose proof (Hsz p). lia.
      - intros y HR2. by exists y. }
    assert (Hu2 : forall c, 0 <= c -> used sb (free_view sb (alloc_view sb f b) b) c = used sb f c).
    { intros c Hc. erewrite used_free by done. case_decide; [by subst|]. rewrite Hu1 by done. by rewrite decide_False. }
    cbn zeta. split_and!; [done | unfold alloc_view; apply fup_eq | | done |].
    + intros c Hcb Hcm. unfold alloc_view. by rewrite !fup_ne.
    + exists y. split_and!; try done. eapply bfree_twice; [exact G | done | exact HR2 | apply Hsb1 | done | | done | done |].
      * rewrite Hu2 by lia. done.
      * rewrite Hi1. pose proof (Hsz p). pose proof (size_add (sb_bmapstart sb) ({[b]} ∪ ({[sb_bmapstart sb]} ∪ p))).
        unfold MAXTXN, NBUF in *. lia.
  - eapply balloc_full; [exact G | done | exact HR | | done | rewrite Hi0; unfold MAXTXN, NBUF in *; lia].
    intros b Hb. destruct (used sb f b) eqn:Eu; [done|]. destruct Hn. unfold nfree.
    assert (Hin : b ∈ filter (fun b => used sb f b = false) (list_to_set (seqZ 0 (sb_size sb)) : gset Z)).
    { rewrite elem_of_filter, elem_of_list_to_set, elem_of_seqZ. split; [done | lia]. }
    destruct (decide (size (filter (fun b => used sb f b = false) (list_to_set (seqZ 0 (sb_size sb)) : gset Z)) = 0%nat)) as [E|E]; [|lia].
    apply size_empty_inv in E. set_solver.
Qed.
End theorems.

(** ** Witnesses *)

Lemma bytes_ok (l : list Z) : forallb (fun x => (0 <=? x) && (x <? 256)) l = true -> Forall is_byte l.
Proof. rewrite forallb_forall. intros Hf. apply Forall_forall. intros x Hx%list_elem_of_In%Hf. unfold is_byte. lia. Qed.

Lemma readi_correct_witness : exists x y,
  readi 0 1 9 (ex_state x ex_other) = Ret (4, [101; 108; 108; 111]) (set_bl y (ex_state x ex_other)).
Proof.
  destruct ex_cached as [x Hx].
  destruct (readi_correct ex_sb 34 ex_geometry (ex_state x ex_other) 0 ex_other (dview fs_disk) ∅ 1 9 (Hx _ ex_other_ok))
    as (y & Hy & _); [rewrite size_empty; unfold MAXTXN; lia | lia | lia |].
  exists x, y. rewrite Hy. f_equal.
Defined.

Lemma writei_correct_witness : exists x s' i' f',
  writei 0 [1; 2; 3] 0 3 (ex_state x (ex_inode T_FILE)) = Ret 3 s' /\ data f' i' = [1; 2; 3].
Proof.
  destruct ex_cached as [x Hx].
  destruct (writei_correct ex_sb 34 ex_geometry (ex_state x (ex_inode T_FILE)) 0 (ex_inode T_FILE) (dview fs_disk) ∅ [1; 2; 3] 0)
    as (s' & i' & f' & p' & E & _ & Hd & _).
  - apply Hx, ex_inode_ok; [discriminate | unfold T_FILE; lia].
  - discriminate.
  - apply bytes_ok. reflexivity.
  - simpl. lia.
  - vm_compute. discriminate.
  - right. rewrite ex_pot. vm_compute. lia.
  - rewrite size_empty. vm_compute. lia.
  - exists x, s', i', f'. split; [exact E|]. rewrite Hd. reflexivity.
Defined.

Lemma writei_refused_witness : exists x, writei 0 [1] 4 1 (ex_state x ex_small) = Ret (-1) (ex_state x ex_small).
Proof.
  destruct ex_cached as [x _]. exists x.
  apply (writei_refused (ex_state x ex_small) 0 ex_small [1] 4 1); [reflexivity | discriminate | simpl; lia | lia | lia | simpl; lia].
Defined.

Lemma other_file_kept_witness : exists f' i',
  isolates ex_sb (dview fs_disk) (ex_inode T_FILE) f' i' /\ data f' i' = [1; 2; 3] /\ data f' ex_other = ex_hello.
Proof.
  destruct ex_cached as [x Hx].
  destruct (wp_run (writei 0 [1; 2; 3] 0 3) (fun _ _ => exists f' i', isolates ex_sb (dview fs_disk) (ex_inode T_FILE) f' i' /\
    data f' i' = [1; 2; 3]) (ex_state x (ex_inode T_FILE))) as (_ & _ & _ & f' & i' & HI & Hd).
  { eapply (writei_spec ex_sb 34 ex_geometry); [apply Hx, ex_inode_ok; [discriminate | unfold T_FILE; lia] | discriminate
      | apply bytes_ok; reflexivity | reflexivity | simpl; lia | vm_compute; discriminate
      | right; rewrite ex_pot; vm_compute; lia | rewrite size_empty; vm_compute; lia |].
    intros s' i' f' p' [_ _ _ Hd HI _ _]. exists f', i'. split; [exact HI|]. rewrite Hd. reflexivity. }
  exists f', i'. split; [exact HI|]. split; [exact Hd|].
  rewrite (proj2 (other_file_kept ex_sb 34 ex_geometry (dview fs_disk) (ex_inode T_FILE) f' i' ex_other fs_disk_map ex_other_ok
    ltac:(discriminate) HI ltac:(simpl; lia) ltac:(intros k l _ _; cbn [ex_inode i_addrs]; rewrite slot_empty; congruence))).
  vm_compute. reflexivity.
Defined.


Lemma small_overwrite_not_saved_witness : exists x s' i',
  writei 0 [4; 5] 0 2 (ex_state x ex_small) = Ret 2 s' /\ data (dview fs_disk) i' = [4; 5; 9] /\
  data (dview fs_disk) (on_disk ex_sb (dview fs_disk) i') = [7; 8; 9].
Proof.
  destruct ex_cached as [x Hx].
  destruct (small_overwrite_not_saved ex_sb 34 ex_geometry (ex_state x ex_small) 0 ex_small (dview fs_disk) ∅ [4; 5] 0)
    as (s' & i' & p' & E & _ & Hd & Ho).
  - apply Hx, ex_small_ok.
  - reflexivity.
  - apply bytes_ok. reflexivity.
  - rewrite size_empty. unfold MAXTXN. lia.
  - lia.
  - simpl. lia.
  - apply ex_small_disk.
  - exists x, s', i'. split; [exact E|]. split; [rewrite Hd; reflexivity | rewrite Ho; reflexivity].
Defined.

Lemma alloc_free_witness : exists x b y,
  balloc ROOTDEV (ex_state x ex_small) = Ret b (set_bl y (ex_state x ex_small)) /\ 34 <= b < 60.
Proof.
  destruct ex_cached as [x Hx]. pose proof (Hx _ ex_small_ok) as HC.
  assert (H := alloc_free ex_sb 34 ex_geometry (ex_state x ex_small) (dview fs_disk) ∅ eq_refl (ca_rep _ _ _ _ _ _ _ HC) fs_disk_map).
  rewrite size_empty in H. specialize (H ltac:(unfold MAXTXN; lia)).
  assert (En : nfree ex_sb (dview fs_disk) = 25%nat) by (vm_compute; reflexivity). rewrite En in H.
  destruct H as (b & y & E & Hd & _). exists x, b, y. split; [exact E | exact Hd].
Defined.
