(* ===== verification/FsDirTheorems.v ===== *)
(** * Theorems on directories and the inode cache

    Outcomes of [dirlookup] and [dirlink], with concrete instances. *)

From S2P Require Import Prelude CString Bio Layout Blocks Log LogBlocks Fs FsBlocks FsInode FsFile FsIo FsWrite FsCache FsDir FsExample.

Section theorems.
Context {S : Type} {BL : BlockLayer S} {BLO : BlockLayerOk S} {DS : DevSw S}.
Context (sb : superblock) (dstart : Z) (G : geometry sb dstart).
Implicit Types (f : Z -> block) (p : gset Z) (s : fs S) (x : S).

(** C33: [dirlookup] finds the first entry in use whose name, as a C string of
    at most 14 bytes, equals [name], and returns [iget] of its inode and its
    byte offset; it returns 0 when there is none. *)
Theorem dirlookup_correct s dp i f p name :
  cached_dir sb dstart s dp i f p -> Forall is_byte name -> (size p + 5 < MAXTXN)%nat ->
  exists x, brp x f ∅ p /\ dirlookup dp name s =
    match dir_lookup (cname name) (data f i) with
    | None => Ret None (set_bl x s)
    | Some k => (let! ip := iget (i_dev i) (dir_inum (data f i) k) in ret (Some (ip, k * DIRENT_SIZE))) (set_bl x s)
    end.
Proof using G.
  intros HD Hn Hp. pose proof (dirlookup_outcome sb dstart G s dp i f p name HD Hn Hp) as (x & HR & E). by exists x.
Qed.

(** [dirlink] of a name that is there: [-1]. *)
Lemma dirlink_refused s dp i f p name inum k :
  cached_dir sb dstart s dp i f p -> Forall is_byte name -> dir_lookup (cname name) (data f i) = Some k -> (size p + 5 < MAXTXN)%nat ->
  icache_ok (f_inodes s) -> live i ->
  (exists s', dirlink dp name inum s = Ret (-1) s' /\ cached_dir sb dstart s' dp i f p /\ icache_ok (f_inodes s') /\
     (forall j a, f_inodes s !! j = Some a -> live a -> f_inodes s' !! j = Some a) /\
     forall d n, refs (f_inodes s') d n = refs (f_inodes s) d n) \/
  (dirlink dp name inum s = Panic "iget: no inodes" /\ forall j a, f_inodes s !! j = Some a -> live a).
Proof using G.
  intros HD Hn Hk Hp HI Hl. destruct (dirlookup_outcome sb dstart G s dp i f p name HD Hn Hp) as (x & HR & E). rewrite Hk in E.
  unfold dirlink. destruct (iget_iput (set_bl x s) (i_dev i) (dir_inum (data f i) k) HI) as [(ip & s1 & s' & E1 & E2 & Eb & Es & HI' & Hc & Hr)|[E1 Hall]].
  - left. exists s'. rewrite (bind_Ret _ _ _ _ _ E1) in E. rewrite (bind_Ret _ _ _ _ _ E), (bind_Ret _ _ _ _ _ E2). split_and!; try done.
    destruct HD as [[C1 C2 _ C4 C5] D2 D3]. split; [|done | done]. split; [by rewrite Es | by apply Hc | by rewrite Eb | done | done].
  - right. split; [|done]. unfold bind at 1 in E. rewrite E1 in E. unfold bind at 1. by rewrite E.
Qed.

(** C19: [dirlink].  For a name that is not in the directory it returns 0; then
    the name leads to [inum], every other name leads where it did, and no other
    file is affected.  For a name that is there it returns -1: the directory,
    the disk, every cached inode and every reference count are as they were.
    The one other outcome for such a name is the panic of [iget] for want of a
    free slot in the inode cache. *)
Theorem dirlink_correct s dp i f p name inum :
  cached_dir sb dstart s dp i f p -> Forall is_byte name -> 0 < inum < 2 ^ 16 -> (size p + 7 < MAXTXN)%nat ->
  match dir_lookup (cname name) (data f i) with
  | None =>
      i_size i + DIRENT_SIZE <= MAXFILE * BSIZE -> (2 <= pot sb f (i_addrs i))%nat ->
      exists s' i' f' p' k, dirlink dp name inum s = Ret 0 s' /\ cached_dir sb dstart s' dp i' f' p' /\
        dir_lookup (cname name) (data f' i') = Some k /\ dir_inum (data f' i') k = inum /\
        (forall nm, nm <> cname name -> dir_lookup nm (data f' i') = dir_lookup nm (data f i) /\
           forall j, dir_lookup nm (data f i) = Some j -> dir_inum (data f' i') j = dir_inum (data f i) j) /\
        isolates sb f i f' i' /\ (on_disk sb f i = i -> on_disk sb f' i' = i')
  | Some _ =>
      icache_ok (f_inodes s) -> live i ->
      (exists s', dirlink dp name inum s = Ret (-1) s' /\ cached_dir sb dstart s' dp i f p /\ icache_ok (f_inodes s') /\
         (forall j a, f_inodes s !! j = Some a -> live a -> f_inodes s' !! j = Some a) /\
         forall d n, refs (f_inodes s') d n = refs (f_inodes s) d n) \/
      (dirlink dp name inum s = Panic "iget: no inodes" /\ forall j a, f_inodes s !! j = Some a -> live a)
  end.
Proof using G.
  intros HD Hn Hin Hp. destruct (dir_lookup (cname name) (data f i)) as [k|] eqn:Hnone.
  { apply (dirlink_refused s dp i f p name inum k); [done | done | done | lia]. }
  intros Hmax Hpot.
  destruct (wp_run (dirlink dp name inum) (fun r s' => r = 0 /\ exists i' f' p', cached_dir sb dstart s' dp i' f' p' /\
    data f' i' = linked (data f i) name inum /\ isolates sb f i f' i' /\ (on_disk sb f i = i -> on_disk sb f' i' = i')) s)
    as (r & s' & E & -> & i' & f' & p' & HD' & Hd & HI & Ho).
  { eapply dirlink_spec; try done. intros s' i' f' p' ? ? ? ? _. split; [done|]. by exists i', f', p'. }
  assert (Hlen : Z.of_nat (length (data f i)) = DIRENT_SIZE * nents (data f i)).
  { rewrite (length_data sb dstart) by apply HD. by eapply dir_nents. }
  assert (Hu : u16 inum = inum) by (apply u16_small; lia).
  destruct (lookup_linked (data f i) Hlen name inum ltac:(lia) Hnone) as [L1 L2].
  exists s', i', f', p', (free_slot (data f i)). rewrite Hd. split_and!; try done; [by rewrite L2|].
  intros nm Hne. by apply lookup_linked_other; [|lia|].
Qed.
End theorems.

(** ** Witnesses *)

Lemma ex_name_bytes : Forall is_byte [97; 98].
Proof. repeat (apply Forall_cons; split; [unfold is_byte; lia|]). constructor. Qed.

(** An empty directory with a transaction open. *)
Lemma ex_dir : exists x, cached_dir ex_sb 34 (ex_state x (ex_inode T_DIR)) 0 (ex_inode T_DIR) (dview fs_disk) ∅.
Proof.
  destruct ex_cached as [x Hx]. exists x. split; [apply Hx, ex_inode_ok; [discriminate | unfold T_DIR; lia] | by left | done].
Qed.

(** A directory with one entry, of the name "llo". *)
Definition ex_full : inode := Inode ROOTDEV 3 1 true I_VALID T_DIR 0 0 1 16 ([34] ++ replicate 51 0).
Definition ex_full_state (x : log) : fs log := Fs x ex_sb [ex_full; inode0].

Lemma ex_full_dir : exists x, cached_dir ex_sb 34 (ex_full_state x) 0 ex_full (dview fs_disk) ∅.
Proof.
  assert (inode_ok ex_sb 34 (dview fs_disk) ex_full) as Hok.
  { destruct ex_other_ok as [O1 O2 O3 O4 O5 O6]. destruct (O6 ltac:(done)) as (F1 & F2 & F3). split; try done; [by destruct O3|].
    intros _. split; [exact F1|]. split; [|done]. intros bn Hbn Hlt. apply F2; [done|]. cbn in Hlt |- *. unfold BSIZE in *. lia. }
  destruct ex_cached as [x Hx]. exists x. destruct (Hx ex_full Hok) as [C1 C2 C3 C4 C5]. by split; [|left|].
Qed.
Lemma ex_full_cache x : icache_ok (f_inodes (ex_full_state x)).
Proof.
  split.
  - intros [|[|k]] i Hi; injection Hi as <- || done; done.
  - intros [|[|j]] [|[|k]] d n a b Ha Hb [Hla _] [Hlb _]; try done; injection Ha as <- || done; injection Hb as <- || done; done.
Qed.

Lemma dirlink_correct_witness :
  (exists x s' d k, dirlink 0 [97; 98] 7 (ex_state x (ex_inode T_DIR)) = Ret 0 s' /\ dir_lookup [97; 98] d = Some k /\ dir_inum d k = 7) /\
  (exists x s', dirlink 0 [108; 108; 111] 7 (ex_full_state x) = Ret (-1) s' /\ cached_dir ex_sb 34 s' 0 ex_full (dview fs_disk) ∅).
Proof.
  assert (size (∅ : gset Z) + 7 < MAXTXN)%nat as Hp by (rewrite size_empty; unfold MAXTXN; lia). split.
  - destruct ex_dir as [x HD].
    destruct (dirlink_correct ex_sb 34 ex_geometry (ex_state x (ex_inode T_DIR)) 0 (ex_inode T_DIR) (dview fs_disk) ∅ [97; 98] 7
      HD ex_name_bytes ltac:(lia) Hp) as (s' & i' & f' & p' & k & E & _ & L & I & _); [vm_compute; discriminate | rewrite ex_pot; lia|].
    exists x, s', (data f' i'), k. split; [exact E|]. split; [exact L | exact I].
  - destruct ex_full_dir as [x HD]. assert (Forall is_byte [108; 108; 111]) as Hn by (repeat (apply Forall_cons; split; [unfold is_byte; lia|]); constructor).
    pose proof (dirlink_correct ex_sb 34 ex_geometry (ex_full_state x) 0 ex_full (dview fs_disk) ∅ [108; 108; 111] 7 HD Hn ltac:(lia) Hp) as W.
    assert (dir_lookup (cname [108; 108; 111]) (data (dview fs_disk) ex_full) = Some 0) as Ek by (vm_compute; reflexivity). rewrite Ek in W.
    destruct (W (ex_full_cache x) ltac:(done)) as [(s' & E & HD' & _)|[_ Hall]]; [by exists x, s'|].
    specialize (Hall 1%nat inode0 eq_refl). discriminate Hall.
Defined.

Lemma dirlookup_correct_witness : exists t y k,
  dirlookup 0 [97; 98] t = (let! ip := iget ROOTDEV 7 in ret (Some (ip, k * DIRENT_SIZE))) (set_bl y t).
Proof.
  destruct ex_dir as [x HD].
  destruct (wp_run (dirlink 0 [97; 98] 7) (fun _ s' => exists i' f' p', cached_dir ex_sb 34 s' 0 i' f' p' /\
    data f' i' = linked [] [97; 98] 7 /\ (size p' <= 4)%nat) (ex_state x (ex_inode T_DIR))) as (_ & t & _ & i' & f' & p' & HD' & Hd & Hp).
  { eapply (dirlink_spec ex_sb 34 ex_geometry); [exact HD | apply ex_name_bytes | reflexivity | vm_compute; discriminate
      | rewrite ex_pot; lia | rewrite size_empty; unfold MAXTXN; lia |].
    intros s' i' f' p' H1 H2 _ _ [_ H3]. exists i', f', p'. split; [exact H1|]. split; [exact H2|].
    rewrite size_empty in H3. exact H3. }
  destruct (dirlookup_correct ex_sb 34 ex_geometry t 0 i' f' p' [97; 98] HD' ex_name_bytes) as (y & _ & E).
  - unfold MAXTXN. lia.
  - exists t, y, 0. rewrite E, Hd. replace (i_dev i') with ROOTDEV by (symmetry; apply HD').
    assert (El : dir_lookup (cname [97; 98]) (linked [] [97; 98] 7) = Some 0) by (vm_compute; reflexivity).
    assert (Ei : dir_inum (linked [] [97; 98] 7) 0 = 7) by (vm_compute; reflexivity).
    rewrite El, Ei. reflexivity.
Defined.

Definition ex_empty_cache (x : log) : fs log := Fs x ex_sb (replicate 3 inode0).

Lemma ex_empty_ok x : icache_ok (f_inodes (ex_empty_cache x)).
Proof.
  assert (Hr : forall k i, f_inodes (ex_empty_cache x) !! k = Some i -> i_ref i = 0)
    by (intros k i [-> _]%lookup_replicate; done).
  split.
  - intros k i Hk. rewrite (Hr k i Hk). done.
  - intros j k dev inum a b Ha _ [Hl _] _. unfold live in Hl. rewrite (Hr j a Ha) in Hl. lia.
Qed.

Lemma iget_correct_witness : exists x s', iget 1 5 (ex_empty_cache x) = Ret 0%nat s' /\ refs (f_inodes s') 1 5 = 1.
Proof.
  destruct ex_cached as [x _]. exists x.
  destruct (iget_correct (ex_empty_cache x) 1 5 (ex_empty_ok x)) as [(ip & s' & i & E & _ & _ & _ & _ & _ & _ & Hr)|[E _]].
  - exists s'. specialize (Hr 1 5). rewrite Hr. split; [|reflexivity]. rewrite E. revert E. vm_compute. by intros [= <- _].
  - discriminate E.
Defined.

Lemma iput_drops_ref_witness : exists x s', iput 0 (ex_state x ex_other) = Ret tt s' /\ refs (f_inodes s') 1 3 = 0.
Proof.
  destruct ex_cached as [x _]. exists x.
  destruct (iput_drops_ref (ex_state x ex_other) 0 ex_other 1 3) as (s' & E & _ & _ & _ & Hr).
  - split.
    + intros [|k] i Hk; [injection Hk as <-; simpl; lia | done].
    + intros [|j] [|k] dev inum a b Ha Hb; done.
  - reflexivity.
  - split; [unfold live; simpl; lia | split; reflexivity].
  - right. discriminate.
  - exists s'. split; [exact E|]. rewrite Hr. reflexivity.
Defined.

(** Inode 3 referenced but not yet read from disk. *)
Definition ex_unread : inode := Inode ROOTDEV 3 1 false 0 0 0 0 0 0 (replicate 52 0).

Lemma ilock_correct_witness : exists x y, ilock (Some 0%nat) (ex_state x ex_unread) = Ret tt (ex_state y ex_other).
Proof.
  destruct ex_cached as [x Hx]. pose proof (ca_rep _ _ _ _ _ _ _ (Hx _ ex_small_ok)) as HR.
  assert (H := ilock_correct ex_sb 34 ex_geometry (ex_state x ex_unread) 0 ex_unread (dview fs_disk) ∅ eq_refl HR).
  rewrite size_empty in H. specialize (H ltac:(unfold MAXTXN; lia) eq_refl eq_refl ltac:(simpl; lia)).
  assert (Ed : on_disk ex_sb (dview fs_disk) (with_ilocked true ex_unread) =
    with_iflags 0 ex_other) by (vm_compute; reflexivity).
  cbn [ex_unread i_ref i_locked i_flags] in H. rewrite decide_False in H by lia. rewrite decide_True in H by reflexivity.
  cbn zeta in H. rewrite Ed in H. cbn [with_iflags i_type ex_other] in H. rewrite decide_False in H by discriminate.
  destruct H as (y & E & _). exists x, y. rewrite E. reflexivity.
Defined.
