(* ===== verification/FsPath.v ===== *)
(** * Path names: [skipelem]

    [namex] walks a path element by element with [skipelem]; here it is
    compared with splitting the path at its slashes. *)

From S2P Require Import Prelude CString Bio Layout Blocks Fs FsDir.

(** The non-empty parts of a path between slashes. *)
Fixpoint comps_from (cur : list Z) (path : list Z) : list (list Z) :=
  match path with
  | [] => if decide (cur = []) then [] else [cur]
  | c :: rest =>
      if c =? SLASH then (if decide (cur = []) then comps_from [] rest else cur :: comps_from [] rest)
      else comps_from (cur ++ [c]) rest
  end.
Definition comps (path : list Z) : list (list Z) := comps_from [] path.

Lemma comps_skip path : comps (skip_slashes path) = comps path.
Proof.
  unfold comps. induction path as [|c rest IH]; [done|]. cbn [skip_slashes]. destruct (c =? SLASH) eqn:E; [|done].
  rewrite IH. cbn [comps_from]. rewrite E. done.
Qed.

(** The first element of a path that does not start with a slash. *)
Fixpoint elem (path : list Z) : list Z :=
  match path with
  | c :: rest => if c =? SLASH then [] else c :: elem rest
  | [] => []
  end.

Lemma elem_skip path : path = elem path ++ skip_name path.
Proof.
  induction path as [|c rest IH]; [done|]. cbn [elem skip_name]. destruct (c =? SLASH); [done|]. simpl. by f_equal.
Qed.

Lemma comps_from_elem cur path : cur ++ elem path <> [] ->
  comps_from cur path = (cur ++ elem path) :: comps (skip_name path).
Proof.
  revert cur. induction path as [|c rest IH]; intros cur Hne; cbn [comps_from elem skip_name] in *.
  - rewrite app_nil_r in *. by rewrite decide_False.
  - destruct (c =? SLASH) eqn:E.
    + rewrite app_nil_r in *. rewrite decide_False by done. unfold comps. cbn [comps_from]. rewrite E. done.
    + rewrite IH; [by rewrite <- (assoc_L app)|]. by destruct cur.
Qed.

Lemma skip_slashes_head path c rest : skip_slashes path = c :: rest -> c <> SLASH.
Proof.
  induction path as [|d path IH]; cbn [skip_slashes]; [done|]. destruct (Z.eqb_spec d SLASH); [done|]. by intros [= -> ->].
Qed.

Lemma skip_slashes_length path : (length (skip_slashes path) <= length path)%nat.
Proof. induction path as [|c rest IH]; cbn [skip_slashes]; [done|]. destruct (c =? SLASH); simpl; lia. Qed.

Lemma cstr_list n l i (t : list Z) :
  Forall (fun c => c <> 0) l -> 0 <= i -> (forall k, 0 <= k < Z.of_nat (length l) -> Kstring.nthZ t (i + k) = Kstring.nthZ l k) ->
  ((length l < n)%nat -> Kstring.nthZ t (i + Z.of_nat (length l)) = 0) ->
  cstr n (Kstring.nthZ t) i = take n l.
Proof.
  revert n i. induction l as [|c l IH]; intros n i Hnz Hi Ht Hend.
  - destruct n as [|n]; [done|]. cbn [cstr take]. specialize (Hend ltac:(simpl; lia)). simpl in Hend. rewrite Z.add_0_r in Hend. by rewrite Hend.
  - destruct n as [|n]; [done|]. cbn [cstr take]. pose proof (Ht 0 ltac:(simpl; lia)) as H0. rewrite Z.add_0_r in H0.
    change (Kstring.nthZ (c :: l) 0) with c in H0. rewrite H0. inversion_clear Hnz.
    destruct (Z.eqb_spec c 0); [done|]. f_equal. apply IH; [done | lia | |].
    + intros k Hk. specialize (Ht (k + 1) ltac:(simpl length; lia)). replace (i + 1 + k) with (i + (k + 1)) by lia. rewrite Ht.
      rewrite Kstring.nthZ_cons by lia. f_equal. lia.
    + intros Hl. rewrite <- (Hend ltac:(simpl; lia)). f_equal. simpl length. lia.
Qed.

(** The name buffer after copying [e]. *)
Lemma copied_name (e rest name : list Z) :
  Forall (fun c => c <> 0) e -> length name = Z.to_nat DIRSIZ ->
  cname (if DIRSIZ <=? Z.of_nat (length e) then splice 0 (take (Z.to_nat DIRSIZ) (e ++ rest)) name
         else splice 0 (take (length e) (e ++ rest) ++ [0]) name) = take (Z.to_nat DIRSIZ) e.
Proof.
  intros Hnz Hl. change (Z.to_nat DIRSIZ) with 14%nat in *. change DIRSIZ with 14.
  assert (Hnth : forall k (a : list Z), (length a <= 14)%nat -> 0 <= k < Z.of_nat (length a) -> Kstring.nthZ (splice 0 a name) k = Kstring.nthZ a k).
  { intros k a Ha Hk. unfold Kstring.nthZ. rewrite !nth_lookup, lookup_splice_new by lia. do 2 f_equal. lia. }
  unfold cname. change (Z.to_nat DIRSIZ) with 14%nat. destruct (Z.leb_spec 14 (Z.of_nat (length e))).
  - rewrite take_app_le by lia. rewrite (cstr_list 14 (take 14 e)).
    + apply take_take || (rewrite take_take; f_equal; lia).
    + by apply Forall_take.
    + lia.
    + intros k Hk. rewrite Z.add_0_l. apply Hnth; [rewrite length_take; lia | done].
    + rewrite length_take. lia.
  - rewrite take_app_le, take_ge by lia. apply cstr_list; [done | lia | |].
    + intros k Hk. rewrite Z.add_0_l, Hnth by (rewrite length_app; simpl; lia).
      unfold Kstring.nthZ. apply app_nth1. lia.
    + intros _. rewrite Z.add_0_l, Hnth by (rewrite length_app; simpl; lia).
      unfold Kstring.nthZ. rewrite app_nth2 by lia. by replace (Z.to_nat (Z.of_nat (length e)) - length e)%nat with 0%nat by lia.
Qed.

(** [skipelem] removes exactly the first element of the path: it fails
    only when there is none, the rest has the remaining elements and no
    leading slash and is shorter, and the name buffer holds the element cut
    to 14 bytes. *)
Theorem skipelem_correct path name :
  Forall (fun c => c <> 0) path -> length name = Z.to_nat DIRSIZ ->
  match skipelem path name with
  | None => comps path = []
  | Some (rest, name') =>
      exists e, comps path = e :: comps rest /\ cname name' = take (Z.to_nat DIRSIZ) e /\
        (forall c r, rest = c :: r -> c <> SLASH) /\ (length rest < length path)%nat
  end.
Proof.
  intros Hnz Hl. unfold skipelem. rewrite <- comps_skip. pose proof (skip_slashes_length path) as Hlen.
  assert (Hs : Forall (fun c => c <> 0) (skip_slashes path)).
  { clear - Hnz. induction path as [|c rest IH]; cbn [skip_slashes]; [done|]. inversion Hnz; subst. destruct (c =? SLASH); auto. }
  destruct (skip_slashes path) as [|c s] eqn:E; [done|]. pose proof (skip_slashes_head _ _ _ E) as Hc.
  pose proof (elem_skip (c :: s)) as Hes. set (e := elem (c :: s)) in *. set (r := skip_name (c :: s)) in *.
  assert (He : e <> []) by (unfold e; cbn [elem]; by destruct (Z.eqb_spec c SLASH)).
  assert (Hle : Z.of_nat (length (c :: s)) - Z.of_nat (length r) = Z.of_nat (length e)) by (rewrite Hes, length_app; lia).
  rewrite Hle, Nat2Z.id. exists e. split_and!.
  - rewrite comps_skip. unfold comps. rewrite comps_from_elem by done. done.
  - rewrite Hes. apply copied_name; [|done]. rewrite Hes in Hs. by apply Forall_app in Hs as [? _].
  - intros d t. apply skip_slashes_head.
  - pose proof (skip_slashes_length r). assert (length e <> 0)%nat by (by destruct e).
    apply (f_equal length) in Hes. rewrite length_app in Hes. lia.
Qed.

(** "//usr/bin" *)
Lemma skipelem_correct_witness :
  let path := [47; 47; 117; 115; 114; 47; 98; 105; 110] in
  exists name', skipelem path (replicate 14 0) = Some ([98; 105; 110], name') /\ comps path = [[117; 115; 114]; [98; 105; 110]].
Proof.
  cbn zeta. eexists. split; [vm_compute; reflexivity|].
  assert (H := skipelem_correct [47; 47; 117; 115; 114; 47; 98; 105; 110] (replicate 14 0)).
  destruct H as (e & Hc & _ & _).
  - repeat (apply Forall_cons; split; [discriminate|]). constructor.
  - reflexivity.
  - reflexivity.
Defined.
