(* ===== verification/Mkfs.v ===== *)
(** * The file-system builder: mkfs.c

    [mkfs] writes the image the kernel boots from: super block, inodes, the
    root directory and the files given on its command line.  The image is a
    map from sectors to blocks; a failed assertion or a short read ends the
    program, which is the outcome [Panic].  The host is little endian. *)

From S2P Require Import Prelude CString Bio Layout Fs.

Definition NINODES : Z := 200.
Definition nbitmap : Z := FSSIZE / (BSIZE * 8) + 1.
Definition ninodeblocks : Z := NINODES / IPB + 1.
Definition nlog : Z := LOGSIZE.
Definition nmeta : Z := 2 + nlog + ninodeblocks + nbitmap.
Definition nblocks : Z := FSSIZE - nmeta.

Record mkfs := Mkfs { mk_img : gmap Z block; mk_freeinode : Z; mk_freeblock : Z }.
Definition set_img (g : gmap Z block -> gmap Z block) (s : mkfs) : mkfs := Mkfs (g (mk_img s)) (mk_freeinode s) (mk_freeblock s).

(** [a[0] = x; a[1] = x >> 8; ...; return y;] *)
Definition xshort (x : Z) : Z := le_word (le_bytes 2 x).
Definition xint (x : Z) : Z := le_word (le_bytes 4 x).

Definition mk_sb : superblock :=
  SuperBlock (xint FSSIZE) (xint nblocks) (xint NINODES) (xint nlog) (xint 2) (xint (2 + nlog)) (xint (2 + nlog + ninodeblocks)).

Definition wsect (sec : Z) (buf : block) : M mkfs unit := modify (set_img <[sec := buf]>).
Definition rsect (sec : Z) : M mkfs block :=
  let! s := get in
  match mk_img s !! sec with Some d => ret d | None => panic "read" end.

(** A [struct dinode] of zeros; the other fields are those of an inode in the
    kernel that has been read. *)
Definition dinode0 (inum : Z) : inode := Inode ROOTDEV inum 1 true I_VALID 0 0 0 0 0 (replicate (Z.to_nat ADDRS_SIZE) 0).

Definition winode (inum : Z) (ip : inode) : M mkfs unit :=
  let bn := IBLOCK inum mk_sb in
  let! buf := rsect bn in
  wsect bn (dinode_store ip (dinode_off inum) buf).
Definition rinode (inum : Z) : M mkfs inode :=
  let bn := IBLOCK inum mk_sb in
  let! buf := rsect bn in
  ret (dinode_load buf (dinode_off inum) (dinode0 inum)).

Definition mk_ialloc (type : Z) : M mkfs Z :=
  let! s := get in
  let inum := mk_freeinode s in
  modify (fun s => Mkfs (mk_img s) (u32 (inum + 1)) (mk_freeblock s)) ;;;
  winode inum (with_size (xint 0) (with_nlink (xshort 1) (with_type (xshort type) (dinode0 inum)))) ;;;
  ret inum.

(** [for(i = 0; i < used; i++) buf[i/8] = buf[i/8] | (0x1 << (i%8));] *)
Fixpoint mk_bits (n : nat) : block :=
  match n with
  | O => zero_block
  | S n => let d := mk_bits n in
           let i := Z.of_nat n in
           byte_put d (i / 8) (Z.lor (byte_at d (i / 8)) (Z.shiftl 1 (i mod 8)))
  end.
Definition mk_balloc (used : Z) : M mkfs unit :=
  if negb (used <? BSIZE * 8) then panic "assert" else
  wsect (sb_bmapstart mk_sb) (mk_bits (Z.to_nat used)).

(** [freeblock++] *)
Definition next_block : M mkfs Z :=
  let! s := get in
  modify (fun s => Mkfs (mk_img s) (mk_freeinode s) (u32 (mk_freeblock s + 1))) ;;;
  ret (mk_freeblock s).

(** The first half of the loop of [iappend]: the block [x] of file block
    [fbn], with the changed [din.addrs]. *)
Definition iappend_block (ad : list Z) (fbn : Z) : M mkfs (list Z * Z) :=
  if fbn <? NDIRECT then
    let! ad :=
      (if xint (rd32 ad (4 * fbn)) =? 0 then let! b := next_block in ret (wr32 ad (4 * fbn) (xint b))
       else ret ad) in
    ret (ad, xint (rd32 ad (4 * fbn)))
  else
    let! ad :=
      (if xint (rd32 ad (4 * NDIRECT)) =? 0 then let! b := next_block in ret (wr32 ad (4 * NDIRECT) (xint b))
       else ret ad) in
    let! indirect := rsect (xint (rd32 ad (4 * NDIRECT))) in
    let! indirect :=
      (if rd32 indirect (4 * (fbn - NDIRECT)) =? 0 then
         let! b := next_block in
         let indirect := wr32 indirect (4 * (fbn - NDIRECT)) (xint b) in
         wsect (xint (rd32 ad (4 * NDIRECT))) indirect ;;;
         ret indirect
       else ret indirect) in
    ret (ad, xint (rd32 indirect (4 * (fbn - NDIRECT)))).

(** Every round consumes a byte of [p] at least. *)
Fixpoint iappend_loop (fuel : nat) (ad : list Z) (off : Z) (p : list Z) : M mkfs (list Z * Z) :=
  match fuel with
  | O => undef "iappend: fuel"
  | S fuel =>
      if Z.of_nat (length p) <=? 0 then ret (ad, off)
      else
        let fbn := off / BSIZE in
        if negb (fbn <? MAXFILE) then panic "assert"
        else
          let! (ad, x) := iappend_block ad fbn in
          let n1 := Z.min (Z.of_nat (length p)) ((fbn + 1) * BSIZE - off) in
          let! buf := rsect x in
          wsect x (splice (Z.to_nat (off - fbn * BSIZE)) (take (Z.to_nat n1) p) buf) ;;;
          iappend_loop fuel ad (u32 (off + n1)) (drop (Z.to_nat n1) p)
  end.

Definition iappend (inum : Z) (p : list Z) : M mkfs unit :=
  let! din := rinode inum in
  let off := xint (i_size din) in
  let! (ad, off) := iappend_loop (Datatypes.S (length p)) (i_addrs din) off p in
  winode inum (with_size (xint off) (with_addrs ad din)).

(** A [struct dirent]: zeros, the inode number, and the name by [strncpy]. *)
Definition dirent (name : list Z) (inum : Z) : list Z :=
  le_bytes 2 (xshort inum) ++ Kstring.padded (Z.to_nat DIRSIZ) (Kstring.nthZ name) 0.

(** The name without a leading ['_']. *)
Definition skip_underscore (arg : list Z) : list Z :=
  match arg with c :: l => if c =? 95 then l else arg | [] => [] end.

(** [while((cc = read(fd, buf, sizeof(buf))) > 0) iappend(inum, buf, cc);] for
    the pieces that the reads return. *)
Fixpoint append_all (inum : Z) (pieces : list (list Z)) : M mkfs unit :=
  match pieces with
  | [] => ret tt
  | p :: l => iappend inum p ;;; append_all inum l
  end.

Definition add_file (rootino : Z) (file : list Z * list (list Z)) : M mkfs unit :=
  let '(arg, pieces) := file in
  if existsb (fun c => c =? 47) arg then panic "assert"
  else
    let! inum := mk_ialloc T_FILE in
    iappend rootino (dirent (skip_underscore arg) inum) ;;;
    append_all inum pieces.
Fixpoint add_files (rootino : Z) (files : list (list Z * list (list Z))) : M mkfs unit :=
  match files with
  | [] => ret tt
  | x :: l => add_file rootino x ;;; add_files rootino l
  end.

(** [main], for the files named on the command line and the pieces in which
    they are read. *)
Definition mkfs_main (files : list (list Z * list (list Z))) : M mkfs unit :=
  modify (fun s => Mkfs (mk_img s) (mk_freeinode s) nmeta) ;;;
  for_each (Z.to_nat FSSIZE) 0 (fun i => wsect i zero_block) ;;;
  wsect 1 (sb_encode mk_sb zero_block) ;;;
  let! rootino := mk_ialloc T_DIR in
  if negb (rootino =? ROOTINO) then panic "assert"
  else
    iappend rootino (dirent [46] rootino) ;;;
    iappend rootino (dirent [46; 46] rootino) ;;;
    add_files rootino files ;;;
    let! din := rinode rootino in
    let off := xint (i_size din) in
    let off := u32 ((off / BSIZE + 1) * BSIZE) in
    winode rootino (with_size (xint off) din) ;;;
    let! s := get in
    mk_balloc (mk_freeblock s).

(** The image file is empty when the program starts. *)
Definition mkfs0 : mkfs := Mkfs ∅ 1 0.
