(* ===== verification/MkfsImage.v ===== *)
(** * Appending to a file of the image

    The loop of [iappend] (mkfs.c) over a view of the image as the kernel will
    see it: the view has the free map that [balloc] writes at the end, with
    the blocks below [freeblock] in use.  Appending extends the file by the
    bytes given, in blocks of its own. *)

From S2P Require Import Prelude CString Bio Layout Blocks Fs Mkfs FsBlocks FsInode FsFile FsIo.

(** ** Words and bits *)
Lemma xint_eq x : xint x = u32 x.
Proof. unfold xint. rewrite le_word_bytes. reflexivity. Qed.
Lemma xshort_eq x : xshort x = u16 x.
Proof. unfold xshort. rewrite le_word_bytes. reflexivity. Qed.

Lemma mk_sb_eq : mk_sb = SuperBlock 1000 941 200 30 2 32 58.
Proof. vm_compute. reflexivity. Qed.
Lemma nmeta_eq : nmeta = 59.
Proof. reflexivity. Qed.

Lemma mk_bits_S n : mk_bits (S n) = bit_set (Z.of_nat n) (mk_bits n).
Proof. reflexivity. Qed.
Lemma mk_bits_ok n : block_ok (mk_bits n).
Proof. induction n as [|n IH]; [apply zero_block_ok|]. rewrite mk_bits_S. by apply byte_put_ok. Qed.
Lemma mk_bits_bit n c : (n <= 4096)%nat -> 0 <= c -> bit (mk_bits n) c = bool_decide (c < Z.of_nat n).
Proof.
  induction n as [|n IH]; intros Hn Hc.
  - rewrite bool_decide_false by lia. unfold bit, byte_at, zero_block, Kstring.nthZ. cbn [mk_bits]. unfold zero_block. rewrite nth_lookup.
    destruct (replicate _ _ !! _) eqn:E; [apply lookup_replicate in E as [-> _]|]; apply Z.bits_0.
  - rewrite mk_bits_S, bit_bit_set by (apply mk_bits_ok || (unfold BPB, BSIZE; lia) || lia). rewrite IH by lia. destruct (decide (c = Z.of_nat n)) as [->|Hne].
    + by rewrite bool_decide_true by lia.
    + apply bool_decide_ext. lia.
Qed.

(** ** The view of an image *)
Section image.
Context {S : Type} {BL : BlockLayer S} {BLO : BlockLayerOk S} {DS : DevSw S}.
Context (G : geometry mk_sb nmeta).
Implicit Types (g : Z -> block) (ad : list Z) (s : mkfs).

Local Abbreviation file_ok := (file_ok mk_sb nmeta).
Local Abbreviation map_ok := (map_ok mk_sb nmeta).
Local Abbreviation used := (used mk_sb).
Local Abbreviation alloc_view := (alloc_view mk_sb).
Local Abbreviation bmapped := (bmapped mk_sb nmeta).

Record viewed s g : Prop := {
  vw_img : forall b, 0 <= b < FSSIZE -> b <> 58 -> mk_img s !! b = Some (g b);
  vw_bm : g 58 = mk_bits (Z.to_nat (mk_freeblock s));
  vw_ok : forall b, block_ok (g b);
  vw_zero : forall b, mk_freeblock s <= b -> g b = zero_block;
  vw_next : nmeta <= mk_freeblock s <= FSSIZE;
  vw_sb : sb_decode (g 1) = mk_sb;
  vw_log : forall b, 2 <= b < 32 -> g b = zero_block
}.

Lemma viewed_used s g c : viewed s g -> 0 <= c -> used g c = bool_decide (c < mk_freeblock s).
Proof.
  intros H Hc. pose proof (vw_next _ _ H) as Hn. rewrite nmeta_eq in Hn. unfold FSSIZE in Hn. unfold FsBlocks.used. rewrite mk_sb_eq. cbn [sb_bmapstart].
  rewrite (vw_bm _ _ H), mk_bits_bit by lia. apply bool_decide_ext. lia.
Qed.
Lemma viewed_map s g : viewed s g -> map_ok g.
Proof.
  intros H. split; [apply H|]. intros b Hb. rewrite (viewed_used s) by (done || lia). apply bool_decide_true. pose proof (vw_next _ _ H). lia.
Qed.

(** A sector other than the free map. *)
Lemma viewed_write s g b d : viewed s g -> 32 <= b < mk_freeblock s -> b <> 58 -> block_ok d -> viewed (set_img <[b := d]> s) (fup g b d).
Proof.
  intros [H1 H2 H3 H4 H5 H6 H7] Hb Hb58 Hd. split; cbn [mk_img mk_freeblock set_img]; try done.
  - intros c Hc Hc58. destruct (decide (c = b)) as [->|Hne]; [by rewrite lookup_insert_eq, fup_eq|]. rewrite lookup_insert_ne, fup_ne by done. by apply H1.
  - by rewrite fup_ne.
  - intros c. destruct (decide (c = b)) as [->|Hne]; [by rewrite fup_eq | by rewrite fup_ne].
  - intros c Hc. rewrite fup_ne by lia. by apply H4.
  - rewrite fup_ne by lia. done.
  - intros c Hc. rewrite fup_ne by lia. by apply H7.
Qed.

Definition bump s : mkfs := Mkfs (mk_img s) (mk_freeinode s) (mk_freeblock s + 1).

Lemma viewed_alloc s g : viewed s g -> mk_freeblock s < FSSIZE -> viewed (bump s) (alloc_view g (mk_freeblock s)).
Proof.
  intros [H1 H2 H3 H4 H5 H6 H7] Hlt. rewrite nmeta_eq in *. unfold FSSIZE in *. set (b := mk_freeblock s) in *.
  assert (forall c, c <> 58 -> alloc_view g b c = g c) as Hsame.
  { intros c Hc. unfold FsBlocks.alloc_view. rewrite mk_sb_eq. cbn [sb_bmapstart]. destruct (decide (c = b)) as [->|Hne].
    - rewrite fup_eq. symmetry. by apply H4.
    - by rewrite !fup_ne. }
  assert (alloc_view g b 58 = mk_bits (Datatypes.S (Z.to_nat b))) as Hbm.
  { unfold FsBlocks.alloc_view. rewrite mk_sb_eq. cbn [sb_bmapstart]. rewrite fup_ne, fup_eq by lia. rewrite mk_bits_S, Z2Nat.id, H2 by lia. done. }
  split; cbn [mk_img mk_freeblock bump]; fold b.
  - intros c Hc Hc58. rewrite Hsame by done. by apply H1.
  - rewrite Hbm. f_equal. lia.
  - intros c. destruct (decide (c = 58)) as [->|Hne]; [rewrite Hbm; apply mk_bits_ok | by rewrite Hsame].
  - intros c Hc. rewrite Hsame by lia. apply H4. lia.
  - rewrite nmeta_eq. unfold FSSIZE. lia.
  - by rewrite Hsame.
  - intros c Hc. rewrite Hsame by lia. by apply H7.
Qed.

Lemma next_block_run s : 0 <= mk_freeblock s < FSSIZE -> next_block s = Ret (mk_freeblock s) (bump s).
Proof. intros H. unfold next_block, bind, get, modify, ret, bump. rewrite u32_small; [done|]. unfold FSSIZE in H. lia. Qed.
Lemma rsect_run s g b : viewed s g -> 0 <= b < FSSIZE -> b <> 58 -> rsect b s = Ret (g b) s.
Proof. intros H Hb Hne. unfold rsect, bind, get. by rewrite (vw_img _ _ H b Hb Hne). Qed.

(** ** One block of the file *)

(** Exactly the blocks for [n] bytes. *)
Record exact g ad (n : Z) : Prop := {
  ex_blk : forall bn, 0 <= bn < MAXFILE -> (iblk g ad bn <> 0 <-> bn * BSIZE < n);
  ex_ind : slot g ad 12 <> 0 <-> 12 * BSIZE < n
}.
Definition cost (n : Z) : Z := (n + 511) / 512 + (if 6144 <? n then 1 else 0).

Lemma cost_block off m : 0 <= off -> off + 1 <= m <= (off / BSIZE + 1) * BSIZE -> cost m = cost (off + 1).
Proof.
  intros Ho Hm. unfold cost, BSIZE in *. pose proof (Z.div_mod off 512 ltac:(lia)). pose proof (Z.mod_pos_bound off 512 ltac:(lia)).
  assert ((m + 511) / 512 = off / 512 + 1) as -> by (symmetry; apply (Z.div_unique_pos _ _ _ (m + 511 - 512 * (off / 512 + 1))); lia).
  assert ((off + 1 + 511) / 512 = off / 512 + 1) as -> by (symmetry; apply (Z.div_unique_pos _ _ _ (off + 1 + 511 - 512 * (off / 512 + 1))); lia).
  destruct (Z.ltb_spec 6144 m), (Z.ltb_spec 6144 (off + 1)); lia.
Qed.
Lemma cost_same off : 0 <= off -> off mod BSIZE <> 0 -> cost (off + 1) = cost off.
Proof.
  intros Ho Hm. unfold cost, BSIZE in *. pose proof (Z.div_mod off 512 ltac:(lia)). pose proof (Z.mod_pos_bound off 512 ltac:(lia)).
  assert ((off + 511) / 512 = off / 512 + 1) as -> by (symmetry; apply (Z.div_unique_pos _ _ _ (off + 511 - 512 * (off / 512 + 1))); lia).
  assert ((off + 1 + 511) / 512 = off / 512 + 1) as -> by (symmetry; apply (Z.div_unique_pos _ _ _ (off + 1 + 511 - 512 * (off / 512 + 1))); lia).
  destruct (Z.ltb_spec 6144 off), (Z.ltb_spec 6144 (off + 1)); lia.
Qed.
Lemma cost_next off : 0 <= off -> off mod BSIZE = 0 -> cost (off + 1) = cost off + (if off =? 6144 then 2 else 1).
Proof.
  intros Ho Hm. unfold cost, BSIZE in *. pose proof (Z.div_mod off 512 ltac:(lia)).
  assert ((off + 511) / 512 = off / 512) as -> by (symmetry; apply (Z.div_unique_pos _ _ _ 511); lia).
  assert ((off + 1 + 511) / 512 = off / 512 + 1) as -> by (symmetry; apply (Z.div_unique_pos _ _ _ 0); lia).
  destruct (Z.ltb_spec 6144 off), (Z.ltb_spec 6144 (off + 1)), (Z.eqb_spec off 6144); lia.
Qed.

Lemma exact_block g ad off m : exact g ad (off + 1) -> 0 <= off -> off + 1 <= m <= (off / BSIZE + 1) * BSIZE -> exact g ad m.
Proof.
  intros [E1 E2] Ho Hm. unfold BSIZE in *. pose proof (Z.div_mod off 512 ltac:(lia)). pose proof (Z.mod_pos_bound off 512 ltac:(lia)). split.
  - intros bn Hbn. rewrite (E1 bn Hbn). unfold BSIZE. lia.
  - rewrite E2. unfold BSIZE. lia.
Qed.
Lemma exact_same g ad off : exact g ad off -> 0 <= off -> off mod BSIZE <> 0 -> exact g ad (off + 1).
Proof.
  intros [E1 E2] Ho Hm. unfold BSIZE in *. pose proof (Z.div_mod off 512 ltac:(lia)). pose proof (Z.mod_pos_bound off 512 ltac:(lia)). split.
  - intros bn Hbn. rewrite (E1 bn Hbn). unfold BSIZE. lia.
  - rewrite E2. unfold BSIZE. lia.
Qed.

Lemma exact_adds g ad off b g' ad' : exact g ad off -> 0 <= off -> off mod BSIZE = 0 -> off / BSIZE < MAXFILE -> off <> 6144 ->
  adds mk_sb nmeta g ad (bslot (off / BSIZE)) b g' ad' -> exact g' ad' (off + 1).
Proof using G.
  intros [E1 E2] Ho Hm Hmax Hne HA. assert (0 <= off / BSIZE) as H0 by (apply Z.div_pos; unfold BSIZE; lia).
  destruct (bslot_range (off / BSIZE) ltac:(lia)) as [Hr H12]. pose proof (datablk_pos _ _ G b (proj1 (ad_free _ _ _ _ _ _ _ _ HA))) as Hb.
  pose proof (Z.div_mod off BSIZE ltac:(unfold BSIZE; lia)) as Hd. unfold BSIZE in *. split.
  - intros bn Hbn. unfold iblk. destruct (bslot_range bn Hbn) as [Hbr _]. rewrite (ad_slot _ _ _ _ _ _ _ _ HA) by done. case_decide as Eb.
    + apply bslot_inj in Eb; [|lia|lia]. subst bn. unfold BSIZE. lia.
    + assert (bn <> off / 512) by (by intros ->). fold (iblk g ad bn). rewrite (E1 bn Hbn). unfold BSIZE. lia.
  - rewrite (ad_slot _ _ _ _ _ _ _ _ HA), decide_False by (done || (unfold NSLOT; lia)). rewrite E2. unfold BSIZE. lia.
Qed.

Lemma slot_word g ad k : file_ok g ad -> 0 <= k <= 12 -> slot g ad k = rd32 ad (4 * k) /\ xint (rd32 ad (4 * k)) = rd32 ad (4 * k).
Proof.
  intros HF Hk. split; [unfold slot; by destruct (Z.leb_spec k 12); [|lia]|]. rewrite xint_eq. apply u32_small.
  pose proof (rd_range 4 ad (4 * k) (fo_bytes _ _ _ _ HF) ltac:(lia)) as H. rewrite (fo_len _ _ _ _ HF) in H. unfold rd32. apply H. lia.
Qed.

(** Block [x] holds byte [off], the next one of the file. *)
Record placed s g ad (off x : Z) s' g' ad' : Prop := {
  pl_view : viewed s' g';
  pl_map : bmapped g ad ∅ (off / BSIZE) x g' ad' ∅;
  pl_exact : exact g' ad' (off + 1);
  pl_free : mk_freeblock s' = mk_freeblock s + (cost (off + 1) - cost off);
  pl_ino : mk_freeinode s' = mk_freeinode s;
  pl_zero : iblk g ad (off / BSIZE) = 0 -> g' x = zero_block
}.

Lemma file_block off : 0 <= off -> off / BSIZE < MAXFILE -> 0 <= off / BSIZE < MAXFILE.
Proof. intros. split; [apply Z.div_pos; unfold BSIZE; lia | done]. Qed.

Lemma exact_here g ad off : exact g ad off -> 0 <= off -> off / BSIZE < MAXFILE -> (iblk g ad (off / BSIZE) <> 0 <-> off mod BSIZE <> 0).
Proof.
  intros HE Ho Hm. rewrite (ex_blk _ _ _ HE) by (by apply file_block). pose proof (Z.div_mod off BSIZE ltac:(unfold BSIZE; lia)).
  pose proof (Z.mod_pos_bound off BSIZE ltac:(unfold BSIZE; lia)). unfold BSIZE in *. lia.
Qed.

Lemma placed_old s g ad off : viewed s g -> file_ok g ad -> exact g ad off -> 0 <= off -> off / BSIZE < MAXFILE -> iblk g ad (off / BSIZE) <> 0 ->
  placed s g ad off (iblk g ad (off / BSIZE)) s g ad.
Proof using G.
  intros HV HF HE Ho Hm Hnz. assert (off mod BSIZE <> 0) as Hmod by (by apply (exact_here g ad)).
  split; [done | by apply bmapped_refl | by apply exact_same | rewrite cost_same by done; lia | done | done].
Qed.

Lemma placed_new s g ad off b s' g' ad' : file_ok g ad -> exact g ad off -> 0 <= off -> off / BSIZE < MAXFILE -> iblk g ad (off / BSIZE) = 0 -> off <> 6144 ->
  adds mk_sb nmeta g ad (bslot (off / BSIZE)) b g' ad' -> viewed s' g' -> mk_freeblock s' = mk_freeblock s + 1 -> mk_freeinode s' = mk_freeinode s ->
  placed s g ad off b s' g' ad'.
Proof using G.
  intros HF HE Ho Hm Hz H6 HA HV Hf Hi. assert (off mod BSIZE = 0) as Hmod.
  { destruct (Z.eq_dec (off mod BSIZE) 0) as [|Hne]; [done|]. apply (exact_here g ad) in Hne; done. }
  split; [done | | by eapply exact_adds | | done |].
  - eapply bmapped_adds; try done; by apply file_block.
  - rewrite cost_next by done. destruct (Z.eqb_spec off 6144); lia.
  - intros _. apply (ad_zero _ _ _ _ _ _ _ _ HA). by apply bslot_range, file_block.
Qed.

(** Allocating one slot leaves the others. *)
Lemma adds_other g ad k b g' ad' bn : adds mk_sb nmeta g ad k b g' ad' -> k = 12 \/ k <> bslot bn -> 0 <= bn < MAXFILE -> iblk g' ad' bn = iblk g ad bn.
Proof.
  intros HA Hk Hbn. destruct (bslot_range bn Hbn) as [Hr H12]. unfold iblk. rewrite (ad_slot _ _ _ _ _ _ _ _ HA), decide_False; [done | | done]. intros E. destruct Hk; congruence.
Qed.

(** Block 12 of the file comes with the indirect block. *)
Lemma placed_two s g ad b g1 ad1 b' s' g' off : file_ok g ad -> exact g ad off -> off = 6144 -> iblk g ad (off / BSIZE) = 0 ->
  adds mk_sb nmeta g ad 12 b g1 ad1 -> adds mk_sb nmeta g1 ad1 (bslot (off / BSIZE)) b' g' ad1 -> viewed s' g' ->
  mk_freeblock s' = mk_freeblock s + 2 -> mk_freeinode s' = mk_freeinode s -> placed s g ad off b' s' g' ad1.
Proof using G.
  intros HF HE -> Hz HA HA' HV Hf Hi. change (6144 / BSIZE) with 12 in *. change (bslot 12) with 13 in HA'. pose proof (adds_file_ok _ _ G _ _ _ _ _ _ HA HF) as HF1.
  assert (0 <= 12 < MAXFILE) as H12 by done. assert (b' <> 0 /\ b <> 0) as [Hb' Hb].
  { pose proof (datablk_pos _ _ G _ (proj1 (ad_free _ _ _ _ _ _ _ _ HA))). pose proof (datablk_pos _ _ G _ (proj1 (ad_free _ _ _ _ _ _ _ _ HA'))). lia. }
  destruct (bmapped_adds mk_sb nmeta G g1 ad1 ∅ ∅ 12 b' g' ad1 HF1 HA' H12) as [B1 B2 B3 B4 B5 B6 B7 B8]; [by intros c ?%not_elem_of_empty | done |].
  split; [done | | | | done | intros _; by apply (ad_zero _ _ _ _ _ _ _ _ HA')].
  - split; [eapply bstep_trans; [exact G | by eapply adds_bstep | exact B1] | exact B2 | exact Hb' | | by intros c ?%not_elem_of_empty | reflexivity | | intros Ho; by destruct Ho].
    + intros c Hc Hne. rewrite B4 by done. eapply adds_other; [exact HA | by left | done].
    + pose proof (adds_pot _ _ G _ _ _ _ _ _ HA) as Hp. rewrite decide_True in Hp by reflexivity. lia.
  - split.
    + intros bn Hbn. destruct (decide (bn = 12)) as [->|Hne].
      * rewrite <- B2. unfold BSIZE. lia.
      * rewrite B4 by done. rewrite (adds_other g ad 12 b g1 ad1 bn HA ltac:(by left) Hbn), (ex_blk _ _ _ HE bn Hbn). unfold BSIZE. lia.
    + rewrite (ad_slot _ _ _ _ _ _ _ _ HA'), decide_False by (done || (unfold NSLOT; lia)). rewrite (ad_slot _ _ _ _ _ _ _ _ HA), decide_True by (done || (unfold NSLOT; lia)). done.
  - rewrite Hf. change (cost (6144 + 1) - cost 6144) with 2. done.
Qed.

Lemma used_next s g : viewed s g -> used g (mk_freeblock s) = false.
Proof. intros HV. rewrite (viewed_used s) by (done || (pose proof (vw_next _ _ HV) as Hn; rewrite nmeta_eq in Hn; lia)). apply bool_decide_false. lia. Qed.
Lemma data_next s g : viewed s g -> mk_freeblock s < FSSIZE -> datablk mk_sb nmeta (mk_freeblock s).
Proof. intros HV Hlt. pose proof (vw_next _ _ HV). split; [lia|]. rewrite mk_sb_eq. unfold FSSIZE in *. cbn. lia. Qed.
Lemma viewed_bm_len s g : viewed s g -> length (g (sb_bmapstart mk_sb)) = 512%nat.
Proof. intros HV. rewrite mk_sb_eq. apply (vw_ok _ _ HV). Qed.
Lemma file_slot_range s g ad k : viewed s g -> file_ok g ad -> 0 <= k < NSLOT -> slot g ad k <> 0 -> 59 <= slot g ad k < mk_freeblock s.
Proof using G.
  intros HV HF Hk Hnz. destruct (fo_slot _ _ _ _ HF k Hk Hnz) as [[Hd _] Hu]. rewrite nmeta_eq in Hd.
  rewrite (viewed_used s) in Hu by (done || lia). apply bool_decide_eq_true in Hu. lia.
Qed.

(** The word [k] of [din.addrs] after the test for 0. *)
Lemma addr_spec s g ad k Q : viewed s g -> file_ok g ad -> 0 <= k <= 12 -> (slot g ad k = 0 -> mk_freeblock s < FSSIZE) ->
  (slot g ad k <> 0 -> Q ad s) ->
  (slot g ad k = 0 -> adds mk_sb nmeta g ad k (mk_freeblock s) (alloc_view g (mk_freeblock s)) (wr32 ad (4 * k) (mk_freeblock s)) ->
     viewed (bump s) (alloc_view g (mk_freeblock s)) -> Q (wr32 ad (4 * k) (mk_freeblock s)) (bump s)) ->
  wp (if xint (rd32 ad (4 * k)) =? 0 then let! b := next_block in ret (wr32 ad (4 * k) (xint b)) else ret ad) Q s.
Proof using G.
  intros HV HF Hk Hlt Hold Hnew. destruct (slot_word g ad k HF Hk) as [Es Ex]. rewrite Ex, <- Es. destruct (Z.eqb_spec (slot g ad k) 0) as [E|E].
  - specialize (Hlt E). pose proof (vw_next _ _ HV) as Hn. rewrite nmeta_eq in Hn. unfold FSSIZE in *.
    apply wp_bind, (wp_intro _ _ _ _ _ (next_block_run s ltac:(unfold FSSIZE; lia))), wp_ret. rewrite xint_eq, u32_small by lia. apply Hnew; [done | |].
    + apply adds_direct; try done; [by apply (viewed_bm_len s) | by apply (data_next s g) | by apply used_next].
    + by apply viewed_alloc.
  - apply wp_ret. by apply Hold.
Qed.

Lemma block_word d o : block_ok d -> 0 <= o -> o + 4 <= 512 -> xint (rd32 d o) = rd32 d o.
Proof.
  intros [Hl Hb] H0 H4. rewrite xint_eq. apply u32_small. change (Z.to_nat BSIZE) with 512%nat in Hl. pose proof (rd_range 4 d o Hb H0) as H. rewrite Hl in H. unfold rd32. apply H. lia.
Qed.

(** Entry [fbn - NDIRECT] of the indirect block after the test for 0. *)
Lemma entry_spec s g ad fbn (Q : list Z * Z -> mkfs -> Prop) : viewed s g -> file_ok g ad -> slot g ad 12 <> 0 -> 12 <= fbn < MAXFILE ->
  (iblk g ad fbn = 0 -> mk_freeblock s < FSSIZE) -> (iblk g ad fbn <> 0 -> Q (ad, iblk g ad fbn) s) ->
  (forall s' g', iblk g ad fbn = 0 -> adds mk_sb nmeta g ad (bslot fbn) (mk_freeblock s) g' ad -> viewed s' g' -> mk_freeblock s' = mk_freeblock s + 1 ->
     mk_freeinode s' = mk_freeinode s -> Q (ad, mk_freeblock s) s') ->
  wp (let! indirect := rsect (xint (rd32 ad (4 * NDIRECT))) in
      let! indirect :=
        (if rd32 indirect (4 * (fbn - NDIRECT)) =? 0 then
           let! b := next_block in
           let indirect := wr32 indirect (4 * (fbn - NDIRECT)) (xint b) in
           wsect (xint (rd32 ad (4 * NDIRECT))) indirect ;;;
           ret indirect
         else ret indirect) in
      ret (ad, xint (rd32 indirect (4 * (fbn - NDIRECT))))) Q s.
Proof using G.
  intros HV HF H12 Hfbn Hlt Hold Hnew. change NDIRECT with 12 in *. destruct (slot_word g ad 12 HF ltac:(lia)) as [Es Ex]. rewrite Ex, <- Es. set (i := slot g ad 12) in *.
  pose proof (file_slot_range s g ad 12 HV HF ltac:(unfold NSLOT; lia) H12) as Hi. fold i in Hi. pose proof (vw_next _ _ HV) as Hn. rewrite nmeta_eq in Hn. unfold FSSIZE in *.
  change MAXFILE with 140 in Hfbn. apply wp_bind, (wp_intro _ _ _ _ _ (rsect_run s g i HV ltac:(unfold FSSIZE; lia) ltac:(lia))).
  assert (bslot fbn = fbn + 1) as Eb by (unfold bslot; by destruct (Z.ltb_spec fbn 12); [lia|]).
  assert (iblk g ad fbn = rd32 (g i) (4 * (fbn - 12))) as Er.
  { unfold iblk. rewrite Eb. unfold slot. destruct (Z.leb_spec (fbn + 1) 12); [lia|]. change (rd32 ad 48) with i. destruct (Z.eqb_spec i 0); [done|]. f_equal. lia. }
  rewrite <- Er. destruct (Z.eqb_spec (iblk g ad fbn) 0) as [E|E].
  - specialize (Hlt E). set (b := mk_freeblock s) in *. apply wp_bind, wp_bind, (wp_intro _ _ _ _ _ (next_block_run s ltac:(unfold FSSIZE; lia))). fold b. rewrite xint_eq, u32_small by lia.
    apply wp_bind. unfold wsect. apply wp_modify, wp_ret, wp_ret. pose proof (vw_ok _ _ HV i) as [Hlen _]. change (Z.to_nat BSIZE) with 512%nat in Hlen.
    rewrite rd32_wr32 by (rewrite ?Hlen; lia). rewrite xint_eq, u32_idemp, u32_small by lia.
    assert (alloc_view g b i = g i) as Ei by (unfold FsBlocks.alloc_view; rewrite mk_sb_eq; cbn [sb_bmapstart]; rewrite !fup_ne by lia; done).
    apply (Hnew _ (fup (alloc_view g b) i (wr32 (alloc_view g b i) (4 * (fbn + 1 - 13)) b))); try done.
    + rewrite Eb. apply adds_indirect; try done; [by apply (viewed_bm_len s) | unfold NSLOT; lia | unfold iblk in E; by rewrite Eb in E | by apply (data_next s g) | by apply used_next].
    + rewrite Ei. replace (fbn + 1 - 13) with (fbn - 12) by lia. apply viewed_write; [apply viewed_alloc; [done | unfold FSSIZE; lia] | cbn; lia | lia |].
      unfold wr32. apply wr_block_ok, HV.
  - apply wp_bind, wp_ret, wp_ret. rewrite block_word by (apply HV || lia). rewrite <- Er. by apply Hold.
Qed.

Lemma iappend_block_spec s g ad off (Q : list Z * Z -> mkfs -> Prop) : viewed s g -> file_ok g ad -> exact g ad off -> 0 <= off -> off / BSIZE < MAXFILE ->
  mk_freeblock s + (cost (off + 1) - cost off) <= FSSIZE ->
  (forall x s' g' ad', placed s g ad off x s' g' ad' -> Q (ad', x) s') -> wp (iappend_block ad (off / BSIZE)) Q s.
Proof using G.
  intros HV HF HE Ho Hm Hroom HQ. pose proof (file_block off Ho Hm) as Hfbn. unfold iappend_block. change NDIRECT with 12 at 1.
  assert (iblk g ad (off / BSIZE) = 0 -> mk_freeblock s < FSSIZE) as Hlt.
  { intros Hz. assert (off mod BSIZE = 0) as Hmod by (destruct (Z.eq_dec (off mod BSIZE) 0) as [|Hne]; [done | by apply (exact_here g ad) in Hne]).
    rewrite cost_next in Hroom by done. destruct (off =? 6144); lia. }
  set (fbn := off / BSIZE) in *. destruct (Z.ltb_spec fbn 12) as [Hd|Hd].
  - assert (bslot fbn = fbn) as Eb by (unfold bslot; by destruct (Z.ltb_spec fbn 12); [|lia]).
    assert (iblk g ad fbn = slot g ad fbn) as Ei by (unfold iblk; by rewrite Eb). rewrite Ei in Hlt.
    apply wp_bind. apply (addr_spec s g ad fbn); try done; [lia | |].
    + intros Hnz. apply wp_ret. destruct (slot_word g ad fbn HF ltac:(lia)) as [Es Ex]. rewrite Ex, <- Es, <- Ei. rewrite <- Ei in Hnz. apply (HQ _ s g ad). by apply placed_old.
    + intros Hz HA HV'. apply wp_ret. pose proof (adds_file_ok _ _ G _ _ _ _ _ _ HA HF) as HF'. destruct (slot_word _ _ fbn HF' ltac:(lia)) as [Es Ex].
      rewrite Ex, <- Es, (ad_slot _ _ _ _ _ _ _ _ HA), decide_True by (done || (unfold NSLOT; lia)). rewrite <- Eb in HA at 1. rewrite <- Ei in Hz.
      eapply HQ, (placed_new s g ad off); try done. intros ->. unfold fbn in Hd. unfold BSIZE in Hd. done.
  - assert (slot g ad 12 = 0 -> off = 6144 /\ iblk g ad fbn = 0) as Hz6.
    { intros Hz. assert (off = 6144) as E6.
      { pose proof (proj2 (ex_ind _ _ _ HE)). unfold fbn, BSIZE in *. pose proof (Z.div_mod off 512 ltac:(lia)). pose proof (Z.mod_pos_bound off 512 ltac:(lia)). lia. }
      split; [done|]. destruct (Z.eq_dec (iblk g ad fbn) 0) as [|Hne]; [done|]. apply (exact_here g ad) in Hne; try done. by rewrite E6 in Hne. }
    apply wp_bind. apply (addr_spec s g ad 12); try done.
    + intros Hz. by apply Hlt, Hz6.
    + intros Hnz. apply (entry_spec s g ad fbn); try done.
      * intros Hb. apply (HQ _ s g ad). by apply placed_old.
      * intros s' g' Hz HA HV' Hf Hi. eapply HQ, (placed_new s g ad off); try done. intros ->. by apply (ex_ind _ _ _ HE) in Hnz.
    + intros Hz HA HV'. destruct (Hz6 Hz) as [E6 Eb]. pose proof (adds_file_ok _ _ G _ _ _ _ _ _ HA HF) as HF'.
      pose proof (adds_other g ad 12 _ _ _ fbn HA (or_introl eq_refl) Hfbn) as Hsame. pose proof (vw_next _ _ HV) as Hn. rewrite nmeta_eq in Hn.
      rewrite E6 in Hroom. change (cost (6144 + 1) - cost 6144) with 2 in Hroom.
      apply (entry_spec _ _ _ fbn _ HV' HF'); [|lia| | |].
      * rewrite (ad_slot _ _ _ _ _ _ _ _ HA), decide_True by (done || (unfold NSLOT; lia)). lia.
      * cbn. lia.
      * rewrite Hsame. done.
      * intros s' g' Hz' HA' HV2 Hf Hi. eapply HQ, (placed_two s g ad); try done. cbn in Hf. lia.
Qed.

(** ** The loop of iappend *)
Local Abbreviation stored := (stored mk_sb nmeta).

(** The last block is zero past the end. *)
Definition tail g ad (n : Z) : Prop := forall o, n <= o < MAXFILE * BSIZE -> iblk g ad (o / BSIZE) <> 0 -> fbyte g ad o = 0.

(** The bytes [p] at the end [off] of the file. *)
Record appended s g ad (off : Z) (p : list Z) s' g' ad' : Prop := {
  ap_view : viewed s' g';
  ap_file : file_ok g' ad';
  ap_exact : exact g' ad' (off + Z.of_nat (length p));
  ap_stored : stored g ad off p g' ad';
  ap_free : mk_freeblock s' = mk_freeblock s + (cost (off + Z.of_nat (length p)) - cost off);
  ap_ino : mk_freeinode s' = mk_freeinode s;
  ap_tail : tail g ad off -> tail g' ad' (off + Z.of_nat (length p))
}.

Lemma nthZ_zero n k : Kstring.nthZ (replicate n 0) k = 0.
Proof. unfold Kstring.nthZ. rewrite nth_lookup. destruct (replicate _ _ !! _) eqn:E; [|done]. by apply lookup_replicate in E as [-> _]. Qed.

(** One round: [a] fits in the block of [off]. *)
Lemma append_round s g ad off a x s1 g1 ad1 : file_ok g ad -> placed s g ad off x s1 g1 ad1 -> 0 <= off -> off / BSIZE < MAXFILE ->
  (0 < length a)%nat -> off + Z.of_nat (length a) <= (off / BSIZE + 1) * BSIZE -> Forall is_byte a ->
  0 <= x < FSSIZE /\ x <> 58 /\
  let d := splice (Z.to_nat (off - off / BSIZE * BSIZE)) a (g1 x) in appended s g ad off a (set_img <[x := d]> s1) (fup g1 x d) ad1.
Proof using G.
  intros HF [P1 P2 P3 P4 P5 P6] Ho Hm Hn Hfit Hby. pose proof (file_block off Ho Hm) as Hfbn.
  pose proof (bs_file _ _ _ _ _ _ (bp_step _ _ _ _ _ _ _ _ _ _ P2)) as HF1. pose proof (bp_nz _ _ _ _ _ _ _ _ _ _ P2) as Hnz. pose proof (bp_r _ _ _ _ _ _ _ _ _ _ P2) as Er.
  destruct (bslot_range _ Hfbn) as [Hbr _]. rewrite Er in Hnz. pose proof (file_slot_range s1 g1 ad1 _ P1 HF1 Hbr Hnz) as Hx. fold (iblk g1 ad1 (off / BSIZE)) in Hx. rewrite <- Er in Hx, Hnz.
  pose proof (vw_next _ _ P1) as Hnx. split_and!; [lia | lia | lia |]. cbn zeta.
  assert (off - off / BSIZE * BSIZE = off mod BSIZE) as Emod by (rewrite Z.mod_eq by (unfold BSIZE; lia); lia).
  pose proof (vw_ok _ _ P1 x) as [Hlen Hbytes]. change (Z.to_nat BSIZE) with 512%nat in Hlen. rewrite Emod. set (d := splice _ a (g1 x)).
  assert (block_ok d) as Hd by (split; [unfold d; by rewrite length_splice | by apply splice_Forall]).
  assert (stored g ad off a (fup g1 x d) ad1) as HS.
  { eapply write_block_stored; try done. pose proof (Z.div_mod off BSIZE ltac:(unfold BSIZE; lia)). lia. }
  assert (forall k, slot (fup g1 x d) ad1 k = slot g1 ad1 k) as Hslot.
  { intros k. apply slot_fup. rewrite Er. rewrite Er in Hnz. by apply (data_ne_ind mk_sb nmeta). }
  split; [apply viewed_write; [done | lia | lia | done] | apply HS | | done | | done |].
  - pose proof (exact_block g1 ad1 off (off + Z.of_nat (length a)) P3 Ho ltac:(lia)) as [X1 X2]. split; [intros bn Hbn; unfold iblk; rewrite Hslot; by apply X1 | by rewrite Hslot].
  - cbn [mk_freeblock set_img]. rewrite P4, (cost_block off (off + Z.of_nat (length a))) by lia. done.
  - intros HT o Ho2 Hb. assert (o / BSIZE = off / BSIZE) as Eo.
    { unfold iblk in Hb. rewrite Hslot in Hb. apply (ex_blk _ _ _ (exact_block g1 ad1 off (off + Z.of_nat (length a)) P3 Ho ltac:(lia))) in Hb; [|apply div_range; lia].
      unfold BSIZE in *. pose proof (Z.div_mod o 512 ltac:(lia)). pose proof (Z.mod_pos_bound o 512 ltac:(lia)).
      pose proof (Z.div_mod off 512 ltac:(lia)). pose proof (Z.mod_pos_bound off 512 ltac:(lia)). lia. }
    destruct (Z.eq_dec (iblk g ad (off / BSIZE)) 0) as [Ez|Enz].
    + unfold fbyte, iblk. rewrite Hslot, Eo. fold (iblk g1 ad1 (off / BSIZE)). rewrite <- Er, fup_eq. unfold d. rewrite (P6 Ez).
      pose proof (Z.mod_pos_bound o BSIZE ltac:(unfold BSIZE; lia)). pose proof (Z.mod_pos_bound off BSIZE ltac:(unfold BSIZE; lia)).
      pose proof (Z.div_mod o BSIZE ltac:(unfold BSIZE; lia)) as Hdo. pose proof (Z.div_mod off BSIZE ltac:(unfold BSIZE; lia)) as Hdo'. rewrite Eo in Hdo.
      rewrite nthZ_splice; [|unfold zero_block; rewrite length_replicate; unfold BSIZE in *; lia|lia]. rewrite decide_False by lia. apply nthZ_zero.
    + rewrite (sd_old _ _ _ _ _ _ _ _ HS) by (rewrite ?Eo; done || lia). apply HT; [lia | by rewrite Eo].
Qed.

Lemma appended_app s g ad off a b s1 g1 ad1 s2 g2 ad2 : 0 <= off -> off + Z.of_nat (length (a ++ b)) <= MAXFILE * BSIZE ->
  appended s g ad off a s1 g1 ad1 -> appended s1 g1 ad1 (off + Z.of_nat (length a)) b s2 g2 ad2 -> appended s g ad off (a ++ b) s2 g2 ad2.
Proof using G.
  intros Ho Hm [A1 A2 A3 A4 A5 A6 A7] [B1 B2 B3 B4 B5 B6 B7]. rewrite length_app in *. split; [done | done | | | | congruence |].
  - rewrite length_app. by replace (off + Z.of_nat (length a + length b)) with (off + Z.of_nat (length a) + Z.of_nat (length b)) by lia.
  - eapply stored_app; try done. by rewrite length_app.
  - rewrite length_app. replace (off + Z.of_nat (length a + length b)) with (off + Z.of_nat (length a) + Z.of_nat (length b)) by lia. lia.
  - rewrite length_app. replace (off + Z.of_nat (length a + length b)) with (off + Z.of_nat (length a) + Z.of_nat (length b)) by lia. auto.
Qed.

Lemma cost_mono a b : 0 <= a <= b -> cost a <= cost b.
Proof.
  intros H. unfold cost. assert ((a + 511) / 512 <= (b + 511) / 512) by (apply Z.div_le_mono; lia). destruct (Z.ltb_spec 6144 a), (Z.ltb_spec 6144 b); lia.
Qed.

Lemma iappend_loop_spec fuel : forall p s g ad off (Q : list Z * Z -> mkfs -> Prop), viewed s g -> file_ok g ad -> exact g ad off -> 0 <= off ->
  off + Z.of_nat (length p) <= MAXFILE * BSIZE -> (length p < fuel)%nat -> Forall is_byte p ->
  mk_freeblock s + (cost (off + Z.of_nat (length p)) - cost off) <= FSSIZE ->
  (forall s' g' ad', appended s g ad off p s' g' ad' -> Q (ad', off + Z.of_nat (length p)) s') -> wp (iappend_loop fuel ad off p) Q s.
Proof using G.
  induction fuel as [|fuel IH]; intros p s g ad off Q HV HF HE Ho Hmax Hfuel Hby Hroom HQ; [lia|]. cbn [iappend_loop].
  destruct (Z.leb_spec (Z.of_nat (length p)) 0) as [H0|Hpos].
  { destruct p; [|cbn in H0; lia]. apply wp_ret. assert (off + Z.of_nat (@length Z []) = off) as E by (cbn; lia). rewrite E in *. apply (HQ s g ad).
    split; rewrite ?E; try done; [by apply stored_nil | lia]. }
  assert (off / BSIZE < MAXFILE) as Hfbn by (apply Z.div_lt_upper_bound; unfold BSIZE in *; lia). destruct (Z.ltb_spec (off / BSIZE) MAXFILE); [|lia]. cbn [negb].
  pose proof (Z.div_mod off BSIZE ltac:(unfold BSIZE; lia)) as Hdm. pose proof (Z.mod_pos_bound off BSIZE ltac:(unfold BSIZE; lia)) as Hmb.
  set (n1 := Z.min (Z.of_nat (length p)) ((off / BSIZE + 1) * BSIZE - off)). assert (0 < n1 <= Z.of_nat (length p) /\ off + n1 <= (off / BSIZE + 1) * BSIZE) as [Hn1 Hn2] by (unfold n1, BSIZE in *; lia).
  assert (length (take (Z.to_nat n1) p) = Z.to_nat n1) as Hlt by (rewrite length_take; lia).
  apply wp_bind. apply (iappend_block_spec s g ad off); try done.
  { pose proof (cost_mono (off + 1) (off + Z.of_nat (length p)) ltac:(lia)). lia. }
  intros x s1 g1 ad1 HP. destruct (append_round s g ad off (take (Z.to_nat n1) p) x s1 g1 ad1 HF HP Ho Hfbn ltac:(lia) ltac:(lia) ltac:(by apply Forall_take)) as (Hx & Hx58 & HA).
  apply wp_bind, (wp_intro _ _ _ _ _ (rsect_run s1 g1 x (pl_view _ _ _ _ _ _ _ _ HP) Hx Hx58)). apply wp_bind. unfold wsect. apply wp_modify.
  assert (u32 (off + n1) = off + Z.of_nat (length (take (Z.to_nat n1) p))) as -> by (rewrite u32_small; [lia | change MAXFILE with 140 in *; unfold BSIZE in *; lia]).
  pose proof HA as [A1 A2 A3 A4 A5 A6 A7]. pose proof (take_drop (Z.to_nat n1) p) as Htd. assert (length (drop (Z.to_nat n1) p) = (length p - Z.to_nat n1)%nat) as Hld by apply length_drop.
  eapply (IH _ _ _ ad1); [exact A1 | exact A2 | exact A3 | lia | lia | lia | by apply Forall_drop | |].
  - rewrite A5. replace (off + Z.of_nat (length (take (Z.to_nat n1) p)) + Z.of_nat (length (drop (Z.to_nat n1) p))) with (off + Z.of_nat (length p)) by lia. lia.
  - intros s' g' ad' HB. replace (off + Z.of_nat (length (take (Z.to_nat n1) p)) + Z.of_nat (length (drop (Z.to_nat n1) p))) with (off + Z.of_nat (length p)) by lia.
    apply (HQ s' g' ad'). rewrite <- Htd. eapply appended_app; try done. by rewrite Htd.
Qed.
End image.
