(* ===== verification/MkfsFiles.v ===== *)
(** * The files of the image

    [ialloc] and [iappend] (mkfs.c) on an image that holds a list of files:
    each call adds an empty file or extends one of them, and the other files
    keep their inodes, their blocks and their bytes. *)

From S2P Require Import Prelude CString Bio Layout Blocks Fs Mkfs FsBlocks FsInode FsFile FsIo FsWrite MkfsImage.

Section files.
Context {S : Type} {BL : BlockLayer S} {BLO : BlockLayerOk S} {DS : DevSw S}.
Context (G : geometry mk_sb nmeta).
Implicit Types (g : Z -> block) (ad : list Z) (s : mkfs) (fl : list (Z * list Z)).

Local Abbreviation file_ok := (file_ok mk_sb nmeta).
Local Abbreviation inode_ok := (inode_ok mk_sb nmeta).

(** Inode [inum] as it is on the image. *)
Definition ino g (inum : Z) : inode := on_disk mk_sb g (dinode0 inum).

Record file_at g (inum ty : Z) (d : list Z) : Prop := {
  fa_ok : inode_ok g (ino g inum);
  fa_type : i_type (ino g inum) = ty;
  fa_regular : ty = T_DIR \/ ty = T_FILE;
  fa_nlink : i_nlink (ino g inum) = 1;
  fa_data : data g (ino g inum) = d;
  fa_exact : exact g (i_addrs (ino g inum)) (i_size (ino g inum));
  fa_tail : tail g (i_addrs (ino g inum)) (i_size (ino g inum))
}.
Definition sum_cost fl : Z := foldr (fun x t => cost (Z.of_nat (length x.2)) + t) 0 fl.

(** Inodes 1, 2, ... are the files [fl], without common blocks. *)
Record image s g fl : Prop := {
  im_view : viewed s g;
  im_count : mk_freeinode s = Z.of_nat (length fl) + 1;
  im_room : Z.of_nat (length fl) < NINODES;
  im_file : forall k ty d, fl !! k = Some (ty, d) -> file_at g (Z.of_nat k + 1) ty d;
  im_disj : forall j k a b, (j < length fl)%nat -> (k < length fl)%nat -> j <> k -> 0 <= a < NSLOT -> 0 <= b < NSLOT ->
    slot g (i_addrs (ino g (Z.of_nat j + 1))) a <> 0 -> slot g (i_addrs (ino g (Z.of_nat j + 1))) a <> slot g (i_addrs (ino g (Z.of_nat k + 1))) b;
  im_free : mk_freeblock s = nmeta + sum_cost fl
}.

Lemma inode_block inum : 0 <= inum < NINODES -> 32 <= IBLOCK inum mk_sb < 58.
Proof.
  intros H. unfold IBLOCK, NINODES in *. rewrite mk_sb_eq. cbn [sb_inodestart]. change IPB with 8.
  pose proof (Z.div_mod inum 8 ltac:(lia)). pose proof (Z.mod_pos_bound inum 8 ltac:(lia)). rewrite u32_small by lia. lia.
Qed.

Lemma rinode_run s g inum : viewed s g -> 0 <= inum < NINODES -> rinode inum s = Ret (ino g inum) s.
Proof. intros HV Hi. pose proof (inode_block inum Hi). unfold rinode. by rewrite (bind_Ret _ _ _ _ _ (rsect_run s g (IBLOCK inum mk_sb) HV ltac:(unfold FSSIZE; lia) ltac:(lia))). Qed.

Lemma winode_run s g i : viewed s g -> 0 <= i_inum i < NINODES -> inode_range i ->
  exists s', winode (i_inum i) i s = Ret tt s' /\ viewed s' (iupd_view mk_sb g i) /\ mk_freeblock s' = mk_freeblock s /\ mk_freeinode s' = mk_freeinode s.
Proof.
  intros HV Hi Hr. pose proof (inode_block _ Hi) as Hb. pose proof (vw_next _ _ HV) as Hn. rewrite nmeta_eq in Hn. unfold winode.
  rewrite (bind_Ret _ _ _ _ _ (rsect_run s g (IBLOCK (i_inum i) mk_sb) HV ltac:(unfold FSSIZE; lia) ltac:(lia))).
  eexists. split; [reflexivity|]. split; [|done]. apply viewed_write; [done | lia | lia |]. apply dinode_store_ok; [done | apply HV].
Qed.

(** Reading inode [inum] depends only on its number. *)
Lemma ino_on_disk g i inum : i_dev i = ROOTDEV -> i_inum i = inum -> i_ref i = 1 -> i_locked i = true -> i_flags i = I_VALID -> on_disk mk_sb g i = ino g inum.
Proof. intros H1 <- H3 H4 H5. unfold ino, on_disk, dinode_load. cbn. by rewrite H1, H3, H4, H5. Qed.

Lemma ino_inum g inum : i_inum (ino g inum) = inum.
Proof. done. Qed.

(** ** ialloc *)
Lemma slot_zero g k : 0 <= k -> slot g (replicate 52 0) k = 0.
Proof.
  intros Hk. unfold slot. destruct (Z.leb_spec k 12); [apply rd32_zero; lia|]. rewrite (rd32_zero 52 48) by lia. done.
Qed.

(** The inode that [ialloc] writes. *)
Definition fresh (ty inum : Z) : inode := with_size (xint 0) (with_nlink (xshort 1) (with_type (xshort ty) (dinode0 inum))).

Lemma fresh_at g inum ty : ty = T_DIR \/ ty = T_FILE -> 0 <= inum < NINODES -> block_ok (g (IBLOCK inum mk_sb)) ->
  ino (iupd_view mk_sb g (fresh ty inum)) inum = fresh ty inum /\ file_at (iupd_view mk_sb g (fresh ty inum)) inum ty [].
Proof using G.
  intros Hty Hi Hok. set (i := fresh ty inum). assert (i_addrs i = replicate 52 0) as Ea by done. assert (i_size i = 0) as Es by (vm_compute; done).
  assert (i_type i = ty) as Et by (destruct Hty as [->| ->]; vm_compute; done). assert (i_nlink i = 1) as El by (vm_compute; done).
  assert (Forall is_byte (replicate 52 0)) as Hz by (apply Forall_replicate; unfold is_byte; lia). assert (1 <= ty <= 2) as Ht by (unfold T_DIR, T_FILE in Hty; lia).
  assert (inode_range i) as Hr by (split; rewrite ?Ea, ?Es, ?Et, ?El; try done; cbn; lia).
  assert (ino (iupd_view mk_sb g i) inum = i) as E.
  { rewrite <- (ino_on_disk _ i inum) by done. by apply on_disk_iupd. }
  split; [done|]. split; rewrite ?E; try done.
  - split; [done | done | done | rewrite Et; unfold T_DEV; lia | rewrite Et; unfold T_SFILE; lia |].
    intros _. rewrite Ea, Es. split_and!; [|intros bn Hbn Hlt; unfold BSIZE in *; lia | done].
    split; [done | by apply Forall_replicate | |]; intros k; intros; rewrite slot_zero in * by lia; done.
  - unfold data. rewrite Es, Et. destruct Hty as [->| ->]; done.
  - rewrite Ea, Es. split; [|rewrite slot_zero by lia; unfold BSIZE; lia]. intros bn Hbn. unfold iblk. destruct (bslot_range bn Hbn). rewrite slot_zero by lia. unfold BSIZE. lia.
  - rewrite Ea. intros o Ho Hb. unfold iblk in Hb. destruct (bslot_range _ (div_range o ltac:(lia))). rewrite slot_zero in Hb by lia. done.
Qed.

Lemma file_regular g inum ty d : file_at g inum ty d -> i_type (ino g inum) <> T_SFILE /\ file_ok g (i_addrs (ino g inum)).
Proof. intros [F1 F2 F3 _ _ _ _]. assert (i_type (ino g inum) <> T_SFILE) as Ht by (rewrite F2; by destruct F3 as [->| ->]). split; [done | by apply (io_file _ _ _ _ F1)]. Qed.

(** Another file, whose inode, slots and blocks do not change. *)
Lemma file_at_keep g g' inum ty d : file_at g inum ty d -> ino g' inum = ino g inum -> inode_ok g' (ino g inum) -> data g' (ino g inum) = data g (ino g inum) ->
  (forall l, 0 <= l < NSLOT -> slot g' (i_addrs (ino g inum)) l = slot g (i_addrs (ino g inum)) l) ->
  (forall l, 0 <= l < NSLOT -> slot g (i_addrs (ino g inum)) l <> 0 -> g' (slot g (i_addrs (ino g inum)) l) = g (slot g (i_addrs (ino g inum)) l)) ->
  file_at g' inum ty d.
Proof.
  intros [F1 F2 F3 F4 F5 [F6 F6'] F7] E Hok Hd Hs Hb. split; rewrite ?E; try done; [by rewrite Hd| |].
  - split; [|rewrite Hs by (unfold NSLOT; lia); done]. intros bn Hbn. unfold iblk. rewrite Hs by (by apply bslot_range). by apply F6.
  - intros o Ho. pose proof (div_range o) as Hr. assert (0 <= i_size (ino g inum)) by (apply F1). destruct (bslot_range _ (Hr ltac:(lia))) as [Hbr _]. unfold iblk. rewrite Hs by done. intros Hnz.
    unfold fbyte, iblk. rewrite Hs, Hb by done. by apply F7.
Qed.

(** Writing the inode of another file. *)
Lemma file_at_meta g i inum ty d : file_at g inum ty d -> 0 <= inum < NINODES -> 0 <= i_inum i < NINODES -> i_inum i <> inum -> length (i_addrs i) = 52%nat ->
  block_ok (g (IBLOCK (i_inum i) mk_sb)) ->
  ino (iupd_view mk_sb g i) inum = ino g inum /\ (forall k, slot (iupd_view mk_sb g i) (i_addrs (ino g inum)) k = slot g (i_addrs (ino g inum)) k) /\ file_at (iupd_view mk_sb g i) inum ty d.
Proof using G.
  intros HF Hin Hi Hne Hlen Hok. destruct (file_regular _ _ _ _ HF) as [Ht Hfo].
  assert (ino (iupd_view mk_sb g i) inum = ino g inum) as E by (apply (on_disk_iupd_other mk_sb nmeta G); try done; by cbn).
  destruct (meta_keep mk_sb nmeta G g _ (i_inum i) (dinode_store i (dinode_off (i_inum i)) (g (IBLOCK (i_inum i) mk_sb))) Hfo Hi) as (_ & K2 & _).
  destruct (inode_ok_meta mk_sb nmeta G g _ (i_inum i) (dinode_store i (dinode_off (i_inum i)) (g (IBLOCK (i_inum i) mk_sb))) (fa_ok _ _ _ _ HF) Ht Hi) as [K3 K4].
  split_and!; [done | done |]. apply (file_at_keep g); try done. intros l Hl Hnz. unfold iupd_view. apply fup_ne.
  destruct (file_no_zero mk_sb nmeta G g _ l Hfo Hl Hnz) as [_ Hge]. pose proof (inode_block _ Hi). rewrite nmeta_eq in Hge. lia.
Qed.

Lemma sum_cost_app a b : sum_cost (a ++ b) = sum_cost a + sum_cost b.
Proof. induction a as [|x a IH]; [done|]. cbn [app sum_cost foldr] in *. unfold sum_cost in *. lia. Qed.

Lemma image_ialloc s g fl ty : image s g fl -> Z.of_nat (length fl) + 1 < NINODES -> ty = T_DIR \/ ty = T_FILE ->
  wp (mk_ialloc ty) (fun r s' => r = Z.of_nat (length fl) + 1 /\ exists g', image s' g' (fl ++ [(ty, [])])) s.
Proof using G.
  intros [I1 I2 I3 I4 I5 I6] Hroom Hty. unfold mk_ialloc. apply wp_bind, wp_get, wp_bind, wp_modify. rewrite I2. set (inum := Z.of_nat (length fl) + 1).
  rewrite u32_small by (unfold NINODES, inum in *; lia). set (s1 := Mkfs _ _ _). fold (fresh ty inum).
  assert (viewed s1 g) as HV by (destruct I1; by split). assert (0 <= inum < NINODES) as Hin by (unfold inum; lia).
  destruct (fresh_at g inum ty Hty Hin (vw_ok _ _ I1 _)) as [Ef Hfa]. pose proof (io_range _ _ _ _ (fa_ok _ _ _ _ Hfa)) as Hr. rewrite Ef in Hr.
  destruct (winode_run s1 g (fresh ty inum) HV Hin Hr) as (s' & Hw & HV' & Hfb & Hfi). change (i_inum (fresh ty inum)) with inum in Hw.
  apply wp_bind, (wp_intro _ _ _ _ _ Hw), wp_ret. split; [done|]. set (g' := iupd_view mk_sb g (fresh ty inum)) in *. exists g'.
  assert (forall k x, fl !! k = Some x -> ino g' (Z.of_nat k + 1) = ino g (Z.of_nat k + 1) /\
    (forall a, slot g' (i_addrs (ino g (Z.of_nat k + 1))) a = slot g (i_addrs (ino g (Z.of_nat k + 1))) a) /\ file_at g' (Z.of_nat k + 1) x.1 x.2) as Hold.
  { intros k [ty' d] Hk. pose proof (lookup_lt_Some _ _ _ Hk). apply (file_at_meta g (fresh ty inum)); try done; [by apply I4 | unfold NINODES in *; lia | cbn; unfold inum; lia | apply I1]. }
  assert (forall a, 0 <= a -> slot g' (i_addrs (ino g' inum)) a = 0) as Hnew by (intros a Ha; rewrite Ef; by apply slot_zero).
  split; try done.
  - rewrite Hfi. cbn [mk_freeinode s1]. rewrite length_app. cbn. unfold inum. lia.
  - rewrite length_app. cbn. lia.
  - intros k ty' d [Hk|[Hk E]]%lookup_app_Some; [by apply (Hold k (ty', d) Hk)|]. apply list_lookup_singleton_Some in E as [E1 E2]. injection E2 as <- <-.
    replace (Z.of_nat k + 1) with inum by (unfold inum; lia). done.
  - intros j k a b Hj Hk Hjk Ha Hb. rewrite length_app in Hj, Hk. cbn in Hj, Hk.
    destruct (decide (j = length fl)) as [->|Hj']; [by rewrite Hnew by lia|]. destruct (lookup_lt_is_Some_2 fl j) as [x Hx]; [lia|]. destruct (Hold j x Hx) as (-> & -> & _).
    destruct (decide (k = length fl)) as [->|Hk']; [by rewrite Hnew by lia|]. destruct (lookup_lt_is_Some_2 fl k) as [y Hy]; [lia|]. destruct (Hold k y Hy) as (-> & -> & _).
    apply I5; lia.
  - rewrite Hfb. cbn [mk_freeblock s1]. rewrite I6, sum_cost_app. change (sum_cost [(ty, [])]) with 0. lia.
Qed.

(** ** iappend *)

(** The inode after [iappend]. *)
Definition longer (i : inode) ad (n : Z) : inode := with_size (xint n) (with_addrs ad i).

(** The file that grows. *)
Lemma file_at_appended s g inum ty d p s1 g1 ad1 : file_at g inum ty d -> 0 <= inum < NINODES -> viewed s g -> viewed s1 g1 ->
  Z.of_nat (length d + length p) <= MAXFILE * BSIZE -> i_size (ino g inum) = Z.of_nat (length d) ->
  appended s g (i_addrs (ino g inum)) (i_size (ino g inum)) p s1 g1 ad1 ->
  let i' := longer (ino g inum) ad1 (i_size (ino g inum) + Z.of_nat (length p)) in
  inode_range i' /\ ino (iupd_view mk_sb g1 i') inum = i' /\ file_at (iupd_view mk_sb g1 i') inum ty (d ++ p) /\
  isolates mk_sb g (ino g inum) (iupd_view mk_sb g1 i') i'.
Proof using G.
  intros HF Hin HV HV1 Hmax Hsz [A1 A2 A3 A4 A5 A6 A7] i'. destruct (file_regular _ _ _ _ HF) as [Ht Hfo]. pose proof HF as [F1 F2 F3 F4 F5 F6 F7]. set (i := ino g inum) in *.
  assert (MAXFILE * BSIZE < 2 ^ 32) as Hm32 by (vm_compute; reflexivity). destruct (io_file _ _ _ _ F1 Ht) as (_ & Fd & _).
  assert (Z.max (i_size i) (i_size i + Z.of_nat (length p)) = i_size i + Z.of_nat (length p)) as Emax by lia.
  assert (i' = with_size (Z.max (i_size i) (i_size i + Z.of_nat (length p))) (with_addrs ad1 i)) as Ei' by (unfold i', longer; by rewrite xint_eq, u32_small, Emax by lia).
  assert (inode_ok g1 i') as HI1 by (rewrite Ei'; eapply stored_inode; try done; lia).
  assert (data g1 i' = d ++ p) as HD1.
  { rewrite Ei'. unfold data in *. cbn [i_type with_size with_addrs i_addrs i_size]. destruct (Z.eqb_spec (i_type i) T_SFILE); [done|].
    rewrite (stored_content mk_sb nmeta g (i_addrs i) (i_size i) p g1 ad1 (i_size i)); try done; try lia. rewrite F5. unfold overwrite. rewrite Hsz, Nat2Z.id, firstn_all.
    rewrite drop_ge by lia. by rewrite app_nil_r. }
  assert (i_size i' = i_size i + Z.of_nat (length p)) as Es by (rewrite Ei', Emax; done).
  assert (ino (iupd_view mk_sb g1 i') inum = i') as E by (rewrite <- (ino_on_disk _ i' inum) by done; apply on_disk_iupd; [apply HV1 | apply HI1]).
  destruct (inode_ok_meta mk_sb nmeta G g1 i' inum (dinode_store i' (dinode_off inum) (g1 (IBLOCK inum mk_sb))) HI1 Ht Hin) as [K3 K4].
  destruct (meta_keep mk_sb nmeta G g1 ad1 inum (dinode_store i' (dinode_off inum) (g1 (IBLOCK inum mk_sb))) A2 Hin) as (_ & K2 & _ & K5 & _).
  set (g2 := fup g1 _ _) in K2, K3, K4, K5. change (iupd_view mk_sb g1 i') with g2 in *. split_and!; [apply HI1 | done | |].
  - split; rewrite ?E; try done; [by etrans | |].
    + rewrite Es. change (i_addrs i') with ad1. destruct A3 as [X1 X2]. split; [intros bn Hbn; unfold iblk; rewrite (K2 (bslot bn)); by apply X1 | by rewrite (K2 12)].
    + rewrite Es. change (i_addrs i') with ad1. intros o Ho Hb. assert (0 <= i_size i) by apply F1. unfold iblk in Hb. rewrite K2 in Hb. rewrite K5 by (done || lia). by apply A7.
  - change (isolates mk_sb g i (iupd_view mk_sb g1 i') i'). apply (iupd_isolates mk_sb nmeta G); try done; [apply HV1|]. apply (grows_isolates mk_sb nmeta G); [apply A4 | done | by apply (viewed_map s)].
Qed.

Lemma sum_cost_insert fl k ty d e : fl !! k = Some (ty, d) -> sum_cost (<[k := (ty, e)]> fl) = sum_cost fl + (cost (Z.of_nat (length e)) - cost (Z.of_nat (length d))).
Proof.
  intros Hk. pose proof (lookup_lt_Some _ _ _ Hk). rewrite insert_take_drop by done. rewrite <- (take_drop_middle fl k (ty, d) Hk) at 3. rewrite !sum_cost_app. cbn [sum_cost foldr snd]. unfold sum_cost. lia.
Qed.

(** One file has changed, in blocks of its own. *)
Lemma image_changed s g fl k ty d e s2 g2 i' : let inum := Z.of_nat k + 1 in
  image s g fl -> fl !! k = Some (ty, d) -> viewed s2 g2 -> ino g2 inum = i' -> file_at g2 inum ty e -> isolates mk_sb g (ino g inum) g2 i' ->
  mk_freeinode s2 = mk_freeinode s -> mk_freeblock s2 = mk_freeblock s + (cost (Z.of_nat (length e)) - cost (Z.of_nat (length d))) ->
  image s2 g2 (<[k := (ty, e)]> fl).
Proof using G.
  intros inum HI Hk HV2 E HF' HS Hfi Hfb. pose proof HI as [I1 I2 I3 I4 I5 I6]. pose proof (lookup_lt_Some _ _ _ Hk) as Hkl.
  assert (0 <= inum < NINODES) as Hin by (unfold inum, NINODES in *; lia).
  assert (forall j x, fl !! j = Some x -> j <> k -> ino g2 (Z.of_nat j + 1) = ino g (Z.of_nat j + 1) /\
    (forall a, 0 <= a < NSLOT -> slot g2 (i_addrs (ino g (Z.of_nat j + 1))) a = slot g (i_addrs (ino g (Z.of_nat j + 1))) a) /\ file_at g2 (Z.of_nat j + 1) x.1 x.2) as Hold.
  { intros j [tj dj] Hj Hjk. pose proof (lookup_lt_Some _ _ _ Hj). assert (0 <= Z.of_nat j + 1 < NINODES) as Hjn by (unfold NINODES in *; lia). pose proof (I4 _ _ _ Hj) as HFj. destruct (file_regular _ _ _ _ HFj) as [Htj _].
    assert (ino g2 (Z.of_nat j + 1) = ino g (Z.of_nat j + 1)) as Ej by (apply (is_inodes _ _ _ _ _ HS); [exact Hjn | cbn; unfold inum; lia]).
    destruct (isolates_other mk_sb nmeta G g (ino g inum) g2 i' (ino g (Z.of_nat j + 1))) as (O1 & O2 & O3 & O4); try done; [by apply (viewed_map s) | apply HFj | |].
    { intros a b Ha Hb Hnz E'. apply (I5 j k b a); try done; lia. }
    split_and!; try done. by apply (file_at_keep g). }
  assert (forall j a b, (j < length fl)%nat -> j <> k -> 0 <= a < NSLOT -> 0 <= b < NSLOT -> slot g2 (i_addrs i') a <> 0 -> slot g2 (i_addrs i') a <> slot g (i_addrs (ino g (Z.of_nat j + 1))) b) as Hnew.
  { intros j a b Hj Hjk Ha Hb Hnz Eq. destruct (lookup_lt_is_Some_2 fl j) as [[tj dj] Hx]; [lia|]. destruct (file_regular _ _ _ _ (I4 _ _ _ Hx)) as [_ Hfj].
    destruct (Z.eq_dec (slot g (i_addrs (ino g inum)) a) 0) as [Ez|Enz].
    - pose proof (is_fresh _ _ _ _ _ HS a Ha Ez Hnz) as Hu. destruct (fo_slot _ _ _ _ Hfj b Hb) as [_ Hu']; congruence.
    - rewrite (is_slot _ _ _ _ _ HS a Ha Enz) in Eq. by apply (I5 k j a b). }
  split.
  - done.
  - by rewrite Hfi, length_insert.
  - by rewrite length_insert.
  - intros j tj dj [(-> & E' & _)|[Hne Hj]]%list_lookup_insert_Some; [injection E' as <- <-; done | by apply (Hold j (tj, dj))].
  - rewrite length_insert. intros j l a b Hj Hl Hjl Ha Hb. destruct (decide (j = k)) as [->|Hjk].
    + fold inum. rewrite E. destruct (lookup_lt_is_Some_2 fl l) as [x Hx]; [lia|]. destruct (Hold l x Hx ltac:(done)) as (-> & Hs & _). rewrite Hs by done. by apply Hnew.
    + destruct (lookup_lt_is_Some_2 fl j) as [x Hx]; [lia|]. destruct (Hold j x Hx ltac:(done)) as (-> & Hs & _). rewrite Hs by done. destruct (decide (l = k)) as [->|Hlk].
      * fold inum. rewrite E. intros Hnz Eq. apply (Hnew j b a); try done; congruence.
      * destruct (lookup_lt_is_Some_2 fl l) as [y Hy]; [lia|]. destruct (Hold l y Hy ltac:(done)) as (-> & Hs' & _). rewrite Hs' by done. by apply I5.
  - rewrite Hfb, I6, (sum_cost_insert fl k ty d e Hk). lia.
Qed.

Lemma image_append s g fl k ty d p : image s g fl -> fl !! k = Some (ty, d) -> Forall is_byte p ->
  Z.of_nat (length d + length p) <= MAXFILE * BSIZE -> nmeta + sum_cost (<[k := (ty, d ++ p)]> fl) <= FSSIZE ->
  wp (iappend (Z.of_nat k + 1) p) (fun _ s' => exists g', image s' g' (<[k := (ty, d ++ p)]> fl)) s.
Proof using G.
  intros HI Hk Hby Hmax Hroom. pose proof HI as [I1 I2 I3 I4 I5 I6]. pose proof (I4 _ _ _ Hk) as HF. pose proof (lookup_lt_Some _ _ _ Hk) as Hkl. set (inum := Z.of_nat k + 1) in *.
  assert (0 <= inum < NINODES) as Hin by (unfold inum, NINODES in *; lia). destruct (file_regular _ _ _ _ HF) as [Ht Hfo]. pose proof HF as [F1 F2 F3 F4 F5 F6 F7].
  assert (i_size (ino g inum) = Z.of_nat (length d)) as Hsz by (rewrite <- F5; symmetry; by apply (length_data mk_sb nmeta)).
  pose proof (sum_cost_insert fl k ty d (d ++ p) Hk) as Hsum. rewrite length_app in Hsum. rewrite Hsum in Hroom.
  assert (MAXFILE * BSIZE < 2 ^ 32) as Hm32 by (vm_compute; reflexivity).
  unfold iappend. apply wp_bind, (wp_intro _ _ _ _ _ (rinode_run s g inum I1 Hin)). rewrite xint_eq, u32_small by lia. apply wp_bind.
  apply (iappend_loop_spec G _ p s g); try done; [lia | lia | lia | rewrite I6, Hsz; replace (Z.of_nat (length d) + Z.of_nat (length p)) with (Z.of_nat (length d + length p)) by lia; lia |].
  intros s1 g1 ad1 HA. destruct (file_at_appended s g inum ty d p s1 g1 ad1 HF Hin I1 (ap_view _ _ _ _ _ _ _ _ HA) Hmax Hsz HA) as (Hr & E & HF' & HS).
  fold (longer (ino g inum) ad1 (i_size (ino g inum) + Z.of_nat (length p))). set (i' := longer _ _ _) in *.
  destruct (winode_run s1 g1 i' (ap_view _ _ _ _ _ _ _ _ HA) Hin Hr) as (s2 & Hw & HV2 & Hfb & Hfi). change (i_inum i') with inum in Hw.
  apply (wp_intro _ _ _ _ _ Hw). set (g2 := iupd_view mk_sb g1 i') in *. exists g2.
  apply (image_changed s g fl k ty d (d ++ p) s2 g2 i'); try done; [rewrite Hfi; exact (ap_ino _ _ _ _ _ _ _ _ HA)|].
  rewrite Hfb, (ap_free _ _ _ _ _ _ _ _ HA), Hsz, length_app. by replace (Z.of_nat (length d) + Z.of_nat (length p)) with (Z.of_nat (length d + length p)) by lia.
Qed.
End files.
