(* ===== verification/MkfsTheorems.v ===== *)
(** * Theorems on mkfs

    The image that [mkfs] (mkfs.c) builds is a well-formed file system with the
    files given to it: their inodes, their bytes and their entries in the root. *)

From S2P Require Import Prelude CString Bio Layout Blocks Log LogBlocks Fs Mkfs FsBlocks FsInode FsFile FsIo FsWrite FsDir MkfsImage MkfsFiles.

(** The root directory's entries for [files], the first of them inode [n + 2]. *)
Fixpoint entries (n : nat) (files : list (list Z * list (list Z))) : list Z :=
  match files with
  | [] => []
  | (arg, _) :: l => dirent (skip_underscore arg) (Z.of_nat n + 2) ++ entries (Datatypes.S n) l
  end.
Definition contents (files : list (list Z * list (list Z))) : list (Z * list Z) := (fun f => (T_FILE, concat f.2)) <$> files.
Definition root_entries (files : list (list Z * list (list Z))) : list Z := dirent [46] 1 ++ dirent [46; 46] 1 ++ entries 0 files.

(** A file that [mkfs] accepts: a name without ['/'] and bytes that fit. *)
Definition acceptable (f : list Z * list (list Z)) : Prop :=
  Forall is_byte f.1 /\ ~ 47 ∈ f.1 /\ Forall (Forall is_byte) f.2 /\ Z.of_nat (length (concat f.2)) <= MAXFILE * BSIZE.

Lemma length_dirent name inum : length (dirent name inum) = 16%nat.
Proof. unfold dirent. by rewrite length_app, length_le_bytes, Kstring.length_padded. Qed.
Lemma dirent_bytes name inum : Forall is_byte name -> Forall is_byte (dirent name inum).
Proof.
  intros H. apply Forall_app. split; [apply le_bytes_is_byte|]. apply padded_bytes. intros j. by apply nthZ_byte.
Qed.
Lemma length_entries n files : length (entries n files) = (16 * length files)%nat.
Proof. revert n. induction files as [|[a p] l IH]; intros n; [done|]. cbn [entries length]. rewrite length_app, length_dirent, IH. lia. Qed.
Lemma cost_nonneg n : 0 <= n -> 0 <= cost n.
Proof. intros H. unfold cost. assert (0 <= (n + 511) / 512) by (apply Z.div_pos; lia). destruct (6144 <? n); lia. Qed.
Lemma sum_cost_nonneg l : 0 <= sum_cost l.
Proof. induction l as [|x l IH]; [done|]. cbn [sum_cost foldr]. fold (sum_cost l). pose proof (cost_nonneg (Z.of_nat (length x.2)) ltac:(lia)). lia. Qed.

Section main.
Context {S : Type} {BL : BlockLayer S} {BLO : BlockLayerOk S} {DS : DevSw S}.
Context (G : geometry mk_sb nmeta).
Implicit Types (g : Z -> block) (s : mkfs) (fl : list (Z * list Z)).

Lemma append_all_spec pieces : forall s g fl k ty d, image s g fl -> fl !! k = Some (ty, d) -> Forall (Forall is_byte) pieces ->
  Z.of_nat (length d + length (concat pieces)) <= MAXFILE * BSIZE -> nmeta + sum_cost (<[k := (ty, d ++ concat pieces)]> fl) <= FSSIZE ->
  wp (append_all (Z.of_nat k + 1) pieces) (fun _ s' => exists g', image s' g' (<[k := (ty, d ++ concat pieces)]> fl)) s.
Proof using G.
  induction pieces as [|p l IH]; intros s g fl k ty d HI Hk Hby Hmax Hroom; cbn [append_all concat] in *.
  { apply wp_ret. exists g. rewrite app_nil_r. by rewrite list_insert_id. }
  inversion_clear Hby as [|? ? Hp Hl]. rewrite length_app in Hmax. pose proof (lookup_lt_Some _ _ _ Hk) as Hkl.
  apply wp_bind. eapply wp_mono; [apply (image_append G s g fl k ty d p); try done; [lia|]|].
  - rewrite (sum_cost_insert fl k ty d) in * by done. rewrite !length_app in *.
    pose proof (cost_mono (Z.of_nat (length d + length p)) (Z.of_nat (length d + (length p + length (concat l)))) ltac:(lia)). lia.
  - intros [] s' (g' & HI'). eapply wp_mono; [apply (IH s' g' _ k ty (d ++ p) HI')|].
    + by rewrite list_lookup_insert_eq.
    + done.
    + rewrite length_app. lia.
    + by rewrite list_insert_insert_eq, <- app_assoc.
    + intros [] s2 (g2 & HI2). exists g2. by rewrite list_insert_insert_eq, <- app_assoc in HI2.
Qed.

Lemma add_file_spec s g dir fs f : image s g ((T_DIR, dir) :: fs) -> acceptable f -> Z.of_nat (length fs) + 2 < NINODES ->
  nmeta + cost (Z.of_nat (length dir) + 16) + sum_cost fs + cost (Z.of_nat (length (concat f.2))) <= FSSIZE -> Z.of_nat (length dir) + 16 <= MAXFILE * BSIZE ->
  wp (add_file 1 f) (fun _ s' => exists g', image s' g' ((T_DIR, dir ++ dirent (skip_underscore f.1) (Z.of_nat (length fs) + 2)) :: fs ++ [(T_FILE, concat f.2)])) s.
Proof using G.
  intros HI (Hb & Hs & Hp & Hlen) Hn Hroom Hdir. destruct f as [arg pieces]. cbn [fst snd] in *. unfold add_file.
  assert (existsb (fun c => c =? 47) arg = false) as ->.
  { apply not_true_iff_false. intros (x & Hx & E)%existsb_exists. apply Z.eqb_eq in E. subst x. by apply Hs, list_elem_of_In. }
  apply wp_bind. eapply wp_mono; [apply (image_ialloc G s g _ T_FILE HI); [cbn [length]; lia | by right]|]. cbn [length].
  intros r s1 (-> & g1 & HI1). cbn [app] in HI1. replace (Z.of_nat (Datatypes.S (length fs)) + 1) with (Z.of_nat (length fs) + 2) by lia.
  pose proof (cost_nonneg (Z.of_nat (length (concat pieces))) ltac:(lia)) as Hc0.
  assert (Forall is_byte (skip_underscore arg)) as Hskip.
  { destruct Hb as [|c l Hc Hl]; [done|]. cbn [skip_underscore]. case_match; [done | by constructor]. }
  apply wp_bind. change 1 with (Z.of_nat 0 + 1) at 1. eapply wp_mono; [apply (image_append G s1 g1 _ 0 T_DIR dir _ HI1 eq_refl)|].
  - by apply dirent_bytes.
  - rewrite length_dirent. lia.
  - cbn [insert list_insert]. cbn [sum_cost foldr snd]. fold (sum_cost (fs ++ [(T_FILE, [])])). rewrite sum_cost_app, length_app, length_dirent. change (sum_cost [(T_FILE, [])]) with 0.
    replace (Z.of_nat (length dir + 16)) with (Z.of_nat (length dir) + 16) by lia. lia.
  - cbn [insert list_insert]. intros [] s2 (g2 & HI2). replace (append_all (Z.of_nat (length fs) + 2) pieces) with (append_all (Z.of_nat (Datatypes.S (length fs)) + 1) pieces) by (f_equal; lia).
    set (dir' := dir ++ dirent _ _) in *. assert (Z.of_nat (length dir') = Z.of_nat (length dir) + 16) as Hd' by (unfold dir'; rewrite length_app, length_dirent; lia).
    assert (forall x, <[Datatypes.S (length fs) := x]> ((T_DIR, dir') :: fs ++ [(T_FILE, [])]) = (T_DIR, dir') :: fs ++ [x]) as Hins.
    { intros x. change ((T_DIR, dir') :: <[length fs := x]> (fs ++ [(T_FILE, [])]) = (T_DIR, dir') :: fs ++ [x]). f_equal. rewrite insert_app_r_alt by lia. by rewrite Nat.sub_diag. }
    eapply wp_mono; [apply (append_all_spec pieces s2 g2 _ (Datatypes.S (length fs)) T_FILE [] HI2)|].
    + change ((fs ++ [(T_FILE, [])]) !! length fs = Some (T_FILE, [])). rewrite lookup_app_r by lia. by rewrite Nat.sub_diag.
    + done.
    + cbn. lia.
    + rewrite Hins. cbn [sum_cost foldr snd]. fold (sum_cost (fs ++ [(T_FILE, [] ++ concat pieces)])). rewrite sum_cost_app, Hd'. cbn [app sum_cost foldr snd]. lia.
    + intros [] s3 (g3 & HI3). exists g3. by rewrite Hins in HI3.
Qed.

Lemma add_files_spec files : forall s g dir fs, image s g ((T_DIR, dir) :: fs) -> Forall acceptable files -> Z.of_nat (length fs + length files) + 1 < NINODES ->
  nmeta + cost (Z.of_nat (length dir) + 16 * Z.of_nat (length files)) + sum_cost fs + sum_cost (contents files) <= FSSIZE ->
  Z.of_nat (length dir) + 16 * Z.of_nat (length files) <= MAXFILE * BSIZE ->
  wp (add_files 1 files) (fun _ s' => exists g', image s' g' ((T_DIR, dir ++ entries (length fs) files) :: fs ++ contents files)) s.
Proof using G.
  induction files as [|f l IH]; intros s g dir fs HI Hacc Hn Hroom Hdir; cbn [add_files entries length] in *.
  { apply wp_ret. exists g. by rewrite !app_nil_r. }
  inversion_clear Hacc as [|? ? Hf Hl]. change (contents (f :: l)) with ((T_FILE, concat f.2) :: contents l) in *. cbn [sum_cost foldr snd] in Hroom. fold (sum_cost (contents l)) in Hroom.
  pose proof (sum_cost_nonneg (contents l)). pose proof (cost_mono (Z.of_nat (length dir) + 16) (Z.of_nat (length dir) + 16 * Z.of_nat (Datatypes.S (length l))) ltac:(lia)).
  apply wp_bind. eapply wp_mono; [apply (add_file_spec s g dir fs f); try done; lia|]. intros [] s1 (g1 & HI1).
  eapply wp_mono; [apply (IH s1 g1 _ _ HI1 Hl)|].
  - rewrite length_app. cbn. lia.
  - rewrite length_app, length_dirent, sum_cost_app. cbn [sum_cost foldr snd]. replace (Z.of_nat (length dir + 16) + 16 * Z.of_nat (length l)) with (Z.of_nat (length dir) + 16 * Z.of_nat (Datatypes.S (length l))) by lia. lia.
  - rewrite length_app, length_dirent. lia.
  - intros [] s2 (g2 & HI2). exists g2. rewrite <- !app_assoc, length_app, Nat.add_1_r in HI2. by destruct f.
Qed.

(** ** The empty image *)
Definition blank : Z -> block := fun b => if b =? 1 then sb_encode mk_sb zero_block else if b =? 58 then mk_bits 59 else zero_block.

Lemma mk_sb_ok : sb_ok mk_sb.
Proof. rewrite mk_sb_eq. unfold sb_ok. cbn. lia. Qed.
Lemma sb_encode_ok d : block_ok d -> block_ok (sb_encode mk_sb d).
Proof. intros H. unfold sb_encode, wr32. by repeat apply wr_block_ok. Qed.

Lemma blank_image s : (forall b, 0 <= b < FSSIZE -> mk_img s !! b = Some (if b =? 1 then sb_encode mk_sb zero_block else zero_block)) ->
  mk_freeinode s = 1 -> mk_freeblock s = nmeta -> image s blank [].
Proof.
  intros Himg Hi Hb. assert (block_ok zero_block) as Hz by apply zero_block_ok. split; [| by rewrite Hi | done | done | cbn; lia | rewrite Hb; cbn; lia].
  split.
  - intros b Hr Hne. rewrite Himg by done. unfold blank. destruct (b =? 1); [done|]. destruct (Z.eqb_spec b 58); done.
  - change (blank 58) with (mk_bits 59). rewrite Hb. f_equal.
  - intros b. unfold blank. destruct (b =? 1); [by apply sb_encode_ok|]. destruct (b =? 58); [apply mk_bits_ok | done].
  - intros b Hge. rewrite Hb, nmeta_eq in Hge. unfold blank. destruct (Z.eqb_spec b 1); [lia|]. destruct (Z.eqb_spec b 58); [lia | done].
  - rewrite Hb, nmeta_eq. unfold FSSIZE. lia.
  - change (blank 1) with (sb_encode mk_sb zero_block). apply sb_roundtrip; [apply mk_sb_ok | exact Hz].
  - intros b Hr. unfold blank. destruct (Z.eqb_spec b 1); [lia|]. destruct (Z.eqb_spec b 58); [lia | done].
Qed.

Lemma wipe_spec s Q : (forall s', (forall b, 0 <= b < FSSIZE -> mk_img s' !! b = Some zero_block) -> mk_freeinode s' = mk_freeinode s -> mk_freeblock s' = mk_freeblock s -> Q tt s') ->
  wp (for_each (Z.to_nat FSSIZE) 0 (fun i => wsect i zero_block)) Q s.
Proof.
  intros HQ. apply (wp_for_each (fun i s' => (forall b, 0 <= b < i -> mk_img s' !! b = Some zero_block) /\ mk_freeinode s' = mk_freeinode s /\ mk_freeblock s' = mk_freeblock s)).
  - split_and!; [lia | done | done].
  - intros i s' Hi (H1 & H2 & H3). unfold wsect. apply wp_modify. split_and!; try done. intros b Hb. cbn. destruct (decide (b = i)) as [->|Hne]; [by rewrite lookup_insert_eq|].
    rewrite lookup_insert_ne by done. apply H1. lia.
  - intros s' (H1 & H2 & H3). rewrite Z2Nat.id in H1 by (unfold FSSIZE; lia). apply HQ; [exact H1 | exact H2 | exact H3].
Qed.

(** ** The image *)

(** The files of the image, with the view [g] of its blocks. *)
Record built g (files : list (list Z * list (list Z))) : Prop := {
  bt_sb : sb_decode (g 1) = mk_sb;
  bt_log : forall b, 2 <= b < 32 -> g b = zero_block;
  bt_map : map_ok mk_sb nmeta g;
  bt_root : inode_ok mk_sb nmeta g (ino g ROOTINO) /\ i_type (ino g ROOTINO) = T_DIR /\ i_nlink (ino g ROOTINO) = 1 /\
    i_size (ino g ROOTINO) mod BSIZE = 0 /\ exists n, data g (ino g ROOTINO) = root_entries files ++ replicate n 0;
  bt_file : forall k f, files !! k = Some f -> inode_ok mk_sb nmeta g (ino g (Z.of_nat k + 2)) /\
    i_type (ino g (Z.of_nat k + 2)) = T_FILE /\ data g (ino g (Z.of_nat k + 2)) = concat f.2
}.

(** The size of the root directory goes up to the end of its last block. *)
Lemma root_rounded s g dir : file_at g 1 T_DIR dir -> viewed s g -> Z.of_nat (length dir) mod BSIZE <> 0 ->
  let n := (Z.of_nat (length dir) / BSIZE + 1) * BSIZE in let i' := with_size n (ino g 1) in
  inode_range i' /\ ino (iupd_view mk_sb g i') 1 = i' /\ inode_ok mk_sb nmeta (iupd_view mk_sb g i') i' /\
  data (iupd_view mk_sb g i') i' = dir ++ replicate (Z.to_nat (n - Z.of_nat (length dir))) 0.
Proof using G.
  intros HF HV Hmod n i'. destruct (file_regular _ _ _ _ HF) as [Ht Hfo]. pose proof HF as [F1 F2 F3 F4 F5 F6 F7]. set (i := ino g 1) in *. set (len := Z.of_nat (length dir)) in *.
  assert (i_size i = len) as Hsz by (unfold len; rewrite <- F5; symmetry; by apply (length_data mk_sb nmeta)). destruct (io_file _ _ _ _ F1 Ht) as (_ & _ & Hmax). rewrite Hsz in *.
  pose proof (Z.div_mod len BSIZE ltac:(unfold BSIZE; lia)) as Hdm. pose proof (Z.mod_pos_bound len BSIZE ltac:(unfold BSIZE; lia)) as Hmb.
  assert (len < n <= MAXFILE * BSIZE) as Hn by (unfold n; change MAXFILE with 140 in *; unfold BSIZE in *; lia). assert (MAXFILE * BSIZE < 2 ^ 32) as Hm32 by (vm_compute; reflexivity).
  assert (dense g (i_addrs i) n) as Hdense.
  { intros bn Hbn Hlt. apply (ex_blk _ _ _ F6); [change MAXFILE with 140 in *|]; unfold n, BSIZE in *; lia. }
  assert (inode_ok mk_sb nmeta g i') as HI.
  { destruct F1 as [O1 O2 [R1 R2 R3 R4 R5 R6 R7] O4 O5 O6]. split; try done; [split; try done; cbn; lia|]. intros _. split_and!; [done | done | cbn; lia]. }
  split; [apply HI|]. split; [rewrite <- (ino_on_disk _ i' 1) by done; apply on_disk_iupd; [apply HV | apply HI]|].
  destruct (inode_ok_meta mk_sb nmeta G g i' 1 (dinode_store i' (dinode_off 1) (g (IBLOCK 1 mk_sb))) HI Ht ltac:(done)) as [K3 K4].
  split; [exact K3|]. etrans; [exact K4|]. unfold data in *. change (i_type i') with (i_type i). destruct (Z.eqb_spec (i_type i) T_SFILE); [done|]. change (i_addrs i') with (i_addrs i). change (i_size i') with n.
  rewrite Hsz in F5. rewrite <- F5 at 1. unfold content. rewrite <- (seqZ_app' 0 len n) by lia. rewrite fmap_app. f_equal. apply list_eq. intros k. rewrite fmap_seqZ_lookup.
  destruct (decide (Z.of_nat k < n - len)) as [Hk|Hk]; [|rewrite lookup_ge_None_2; [done | rewrite length_replicate; lia]].
  rewrite lookup_replicate_2 by lia. f_equal. apply F7; [lia|]. apply Hdense; [apply Z.div_pos; unfold BSIZE; lia|]. pose proof (Z.mul_div_le (0 + len + Z.of_nat k) BSIZE ltac:(unfold BSIZE; lia)). lia.
Qed.

(** The files fit: their inodes, their blocks, and a root directory whose last
    block is not exactly full. *)
Record fits (files : list (list Z * list (list Z))) : Prop := {
  ft_ok : Forall acceptable files;
  ft_inodes : Z.of_nat (length files) + 1 < NINODES;
  ft_blocks : nmeta + cost (32 + 16 * Z.of_nat (length files)) + sum_cost (contents files) <= FSSIZE;
  ft_root : (32 + 16 * Z.of_nat (length files)) mod BSIZE <> 0
}.

Lemma length_root files : Z.of_nat (length (root_entries files)) = 32 + 16 * Z.of_nat (length files).
Proof. unfold root_entries. rewrite !length_app, !length_dirent, length_entries. lia. Qed.

(** The end of [main]: the root inode and the free map. *)
Lemma finish_spec s g files : image s g ((T_DIR, root_entries files) :: contents files) -> fits files ->
  wp (let! din := rinode ROOTINO in
      let off := xint (i_size din) in
      let off := u32 ((off / BSIZE + 1) * BSIZE) in
      winode ROOTINO (with_size (xint off) din) ;;;
      let! s := get in
      mk_balloc (mk_freeblock s))
    (fun _ s' => exists g', (forall b, 0 <= b < FSSIZE -> mk_img s' !! b = Some (g' b) /\ block_ok (g' b)) /\ built g' files) s.
Proof using G.
  intros [I1 I2 I3 I4 I5 I6] [Hacc Hn Hb Hroot]. pose proof (I4 0%nat _ _ eq_refl) as HF. change (Z.of_nat 0 + 1) with 1 in HF. rewrite <- length_root in Hroot.
  destruct (root_rounded s g _ HF I1 Hroot) as (Hr & Ei & Hok & Hd). set (n := (_ / BSIZE + 1) * BSIZE) in *. set (i' := with_size n (ino g 1)) in *.
  assert (i_size (ino g 1) = Z.of_nat (length (root_entries files))) as Hsz by (rewrite <- (fa_data _ _ _ _ HF) at 1; symmetry; apply (length_data mk_sb nmeta), HF).
  assert (0 <= n < 2 ^ 32) as Hn32 by (apply Hr). assert (0 <= Z.of_nat (length (root_entries files)) < 2 ^ 32) as Hl32 by (rewrite <- Hsz; apply (ir_size _ (io_range _ _ _ _ (fa_ok _ _ _ _ HF)))).
  unfold ROOTINO. apply wp_bind, (wp_intro _ _ _ _ _ (rinode_run s g 1 I1 ltac:(done))). rewrite Hsz, (xint_eq (Z.of_nat _)), (u32_small (Z.of_nat _)) by lia. fold n. rewrite (u32_small n), xint_eq, (u32_small n) by lia. fold i'.
  destruct (winode_run s g i' I1 ltac:(done) Hr) as (s1 & Hw & HV & Hfb & _). apply wp_bind, (wp_intro _ _ _ _ _ Hw), wp_bind, wp_get.
  pose proof (vw_next _ _ HV) as Hnx. rewrite nmeta_eq in Hnx. unfold FSSIZE in Hnx. unfold mk_balloc. destruct (Z.ltb_spec (mk_freeblock s1) (BSIZE * 8)) as [_|Hbad]; [|unfold BSIZE in *; lia]. cbn [negb].
  unfold wsect. apply wp_modify. set (g2 := iupd_view mk_sb g i') in *. exists g2. split.
  - intros b Hb'. split; [|apply (vw_ok _ _ HV)]. cbn [mk_img set_img]. change (sb_bmapstart mk_sb) with 58. destruct (decide (b = 58)) as [->|Hne].
    + rewrite lookup_insert_eq. f_equal. symmetry. apply (vw_bm _ _ HV).
    + rewrite lookup_insert_ne by done. by apply (vw_img _ _ HV).
  - split; [apply (vw_sb _ _ HV) | apply (vw_log _ _ HV) | by apply (viewed_map s1) | unfold ROOTINO; rewrite Ei; split_and!; [exact Hok | exact (fa_type _ _ _ _ HF) | exact (fa_nlink _ _ _ _ HF) | unfold i', n; cbn [i_size with_size]; apply Z_mod_mult | eexists; exact Hd] |].
    intros k f Hk. assert (file_at g (Z.of_nat (Datatypes.S k) + 1) T_FILE (concat f.2)) as HFk by (apply I4; change (contents files !! k = Some (T_FILE, concat f.2)); unfold contents; rewrite list_lookup_fmap, Hk; done).
    pose proof (lookup_lt_Some _ _ _ Hk) as Hkl. replace (Z.of_nat (Datatypes.S k) + 1) with (Z.of_nat k + 2) in HFk by lia.
    destruct (file_at_meta G g i' (Z.of_nat k + 2) T_FILE (concat f.2)) as (_ & _ & HF2); try done; [unfold NINODES in *; lia | cbn; lia | apply Hr | apply I1 |]. fold g2 in HF2.
    exact (conj (fa_ok _ _ _ _ HF2) (conj (fa_type _ _ _ _ HF2) (fa_data _ _ _ _ HF2))).
Qed.

Lemma mkfs_spec files : fits files -> wp (mkfs_main files)
  (fun _ s' => exists g, (forall b, 0 <= b < FSSIZE -> mk_img s' !! b = Some (g b) /\ block_ok (g b)) /\ built g files) mkfs0.
Proof using G.
  intros Hfit. pose proof Hfit as [Hacc Hn Hb Hroot]. unfold mkfs_main. apply wp_bind, wp_modify, wp_bind, wipe_spec. cbn [mk_freeinode mk_freeblock mk_img mkfs0]. intros s1 H1 H2 H3.
  pose proof (sum_cost_nonneg (contents files)) as Hs0. assert (forall m, 0 <= m <= 32 + 16 * Z.of_nat (length files) -> nmeta + cost m <= FSSIZE) as Hc.
  { intros m Hm. pose proof (cost_mono m (32 + 16 * Z.of_nat (length files)) ltac:(lia)). lia. }
  apply wp_bind. unfold wsect at 1. apply wp_modify. set (s2 := set_img _ s1). assert (image s2 blank []) as HI.
  { apply blank_image; [|done|done]. intros b Hb'. cbn. destruct (Z.eqb_spec b 1) as [->|]; [by rewrite lookup_insert_eq|]. rewrite lookup_insert_ne by lia. by apply H1. }
  apply wp_bind. eapply wp_mono; [apply (image_ialloc G s2 blank [] T_DIR HI); [done | by left]|]. intros r s3 (-> & g3 & HI3). cbn [app length] in HI3. change (Z.of_nat 0 + 1) with 1. cbn [Z.eqb Pos.eqb negb ROOTINO].
  assert (forall d, Forall is_byte d -> nmeta + sum_cost [(T_DIR, d)] = nmeta + cost (Z.of_nat (length d))) as Hs1 by (intros d _; cbn [sum_cost foldr snd]; lia).
  assert (Forall is_byte (dirent [46] 1) /\ Forall is_byte (dirent [46; 46] 1)) as [Hd1 Hd2] by (split; apply dirent_bytes; repeat constructor; lia).
  apply wp_bind. change 1 with (Z.of_nat 0 + 1) at 1. eapply wp_mono; [apply (image_append G s3 g3 [(T_DIR, [])] 0 T_DIR [] _ HI3 eq_refl Hd1)|]; [rewrite length_dirent; done | |].
  { cbn [insert list_insert]. rewrite Hs1 by done. rewrite length_app, length_dirent. apply Hc. cbn. lia. }
  cbn [insert list_insert]. intros [] s4 (g4 & HI4). cbn [app] in HI4.
  apply wp_bind. change 1 with (Z.of_nat 0 + 1) at 1. eapply wp_mono; [apply (image_append G s4 g4 [(T_DIR, dirent [46] 1)] 0 T_DIR _ _ HI4 eq_refl Hd2)|]; [rewrite !length_dirent; done | |].
  { cbn [insert list_insert]. rewrite Hs1 by (by apply Forall_app). rewrite length_app, !length_dirent. apply Hc. cbn. lia. }
  cbn [insert list_insert]. intros [] s5 (g5 & HI5). apply wp_bind.
  assert (Z.of_nat (length (dirent [46] 1 ++ dirent [46; 46] 1)) = 32) as Hl by (rewrite length_app, !length_dirent; done).
  eapply wp_mono; [apply (add_files_spec files s5 g5 _ [] HI5 Hacc)|]; [cbn [length]; lia | rewrite Hl; change (sum_cost []) with 0; lia | rewrite Hl; change MAXFILE with 140; unfold BSIZE, NINODES in *; lia |].
  intros [] s6 (g6 & HI6). rewrite <- app_assoc in HI6. cbn [app length] in HI6. by apply (finish_spec s6 g6).
Qed.
End main.
