(* ===== verification/MkfsBoot.v ===== *)
(** * Booting from the image that mkfs builds

    The kernel reads the super block and recovers the log ([forkret], proc.c)
    on a disk that holds the image, looks a file up by its path ([namei]) and
    reads it ([readi]): the bytes are those given to [mkfs]. *)

From S2P Require Import Prelude CString Bio Layout Blocks Log LogBlocks Fs Mkfs FsBlocks FsInode FsFile FsIo FsCache FsDir FsPath MkfsImage MkfsFiles MkfsTheorems.

(** The first process to run [forkret]: [iinit(ROOTDEV); initlog(ROOTDEV);]. *)
Definition fsinit {DS : DevSw log} : M (fs log) unit := iinit ROOTDEV ;;; onbl (initlog ROOTDEV).

(** What a system call does to read the file [path] from its start. *)
Definition read_path {S} {BL : BlockLayer S} {DS : DevSw S} (path : list Z) (n : Z) : M (fs S) (option (Z * list Z)) :=
  let! ip := namei 0 path in
  match ip with
  | None => ret None
  | Some ip => ilock (Some ip) ;;; let! r := readi ip 0 n in ret (Some r)
  end.

(** ** The root directory *)

Definition names (files : list (list Z * list (list Z))) : list (list Z) := [46] :: [46; 46] :: ((fun f => skip_underscore f.1) <$> files).
(** The names are C strings, not empty and distinct in their first 14 bytes. *)
Record named (files : list (list Z * list (list Z))) : Prop := {
  nm_cstring : forall k f, files !! k = Some f -> skip_underscore f.1 <> [] /\ Forall (fun c => c <> 0) (skip_underscore f.1);
  nm_distinct : NoDup (cname <$> names files)
}.

Lemma dent_concat (l : list (list Z)) t j e : Forall (fun e => length e = 16%nat) l -> l !! j = Some e -> dent (concat l ++ t) (Z.of_nat j) = e.
Proof.
  intros Hl. revert j. induction Hl as [|a l Ha Hl IH]; intros j; [done|]. unfold dent, slice, DIRENT_SIZE in *. change (Z.to_nat 16) with 16%nat in *. cbn [concat]. rewrite <- app_assoc.
  destruct j as [|j]; cbn [lookup list_lookup].
  - intros [= ->]. change (Z.to_nat (16 * Z.of_nat 0)) with 0%nat. by rewrite drop_0, take_app_length'.
  - intros Hj. replace (Z.to_nat (16 * Z.of_nat (Datatypes.S j))) with (length a + Z.to_nat (16 * Z.of_nat j))%nat by lia. rewrite drop_app_add. by apply IH.
Qed.

Definition root_list (files : list (list Z * list (list Z))) : list (list Z) :=
  dirent [46] 1 :: dirent [46; 46] 1 :: imap (fun k f => dirent (skip_underscore f.1) (Z.of_nat k + 2)) files.
Lemma entries_concat n files : entries n files = concat (imap (fun k f => dirent (skip_underscore f.1) (Z.of_nat (n + k) + 2)) files).
Proof.
  revert n. induction files as [|[a p] l IH]; intros n; [done|]. cbn [entries]. rewrite imap_cons. cbn [concat fst]. rewrite Nat.add_0_r, IH. do 2 f_equal.
  apply imap_ext. intros i x _. cbn. do 2 f_equal. lia.
Qed.
Lemma root_list_file files k : root_list files !! Datatypes.S (Datatypes.S k) = (fun f => dirent (skip_underscore f.1) (Z.of_nat k + 2)) <$> files !! k.
Proof. apply (list_lookup_imap (fun k f => dirent (skip_underscore f.1) (Z.of_nat k + 2))). Qed.
Lemma names_file files k : names files !! Datatypes.S (Datatypes.S k) = (fun f => skip_underscore f.1) <$> files !! k.
Proof. apply (list_lookup_fmap (fun f => skip_underscore f.1)). Qed.
Lemma root_concat files : root_entries files = concat (root_list files).
Proof. unfold root_entries, root_list. cbn [concat]. by rewrite entries_concat. Qed.
Lemma root_sixteen files : Forall (fun e => length e = 16%nat) (root_list files).
Proof.
  apply Forall_lookup_2. intros i x. destruct i as [|[|i]]; [intros [= <-]; apply length_dirent.. |]. rewrite root_list_file. intros (f & _ & ->)%fmap_Some. apply length_dirent.
Qed.

Lemma dirent_entry name inum : 0 <= inum < 2 ^ 16 -> de_inum (dirent name inum) = inum /\ cname (de_name (dirent name inum)) = cname name.
Proof.
  intros H. change (dirent name inum) with (new_entry name (xshort inum)). rewrite new_entry_inum, new_entry_name. split; [|done].
  unfold xshort. rewrite le_word_bytes. rewrite Z.mod_small by (cbn; lia). by apply u16_small.
Qed.

(** The names that the entries of the root have. *)
Lemma root_names files j e : Z.of_nat (length files) + 1 < NINODES -> root_list files !! j = Some e ->
  0 < de_inum e /\ exists nm, names files !! j = Some nm /\ cname (de_name e) = cname nm.
Proof.
  intros Hn. unfold NINODES in *. destruct j as [|[|j]].
  - intros [= <-]. destruct (dirent_entry [46] 1) as [-> ->]; [lia|]. split; [lia|]. by eexists.
  - intros [= <-]. destruct (dirent_entry [46; 46] 1) as [-> ->]; [lia|]. split; [lia|]. by eexists.
  - rewrite root_list_file. intros (f & Hf & ->)%fmap_Some. pose proof (lookup_lt_Some _ _ _ Hf).
    destruct (dirent_entry (skip_underscore f.1) (Z.of_nat j + 2)) as [-> ->]; [lia|]. split; [lia|]. exists (skip_underscore f.1). by rewrite names_file, Hf.
Qed.

(** A file's name leads to its inode. *)
Lemma root_lookup files n k f : Z.of_nat (length files) + 1 < NINODES -> named files -> files !! k = Some f ->
  let d := root_entries files ++ replicate n 0 in
  exists j, dir_lookup (cname (skip_underscore f.1)) d = Some j /\ dir_inum d j = Z.of_nat k + 2.
Proof.
  intros Hn [_ Hnd] Hk d. pose proof (lookup_lt_Some _ _ _ Hk) as Hkl. exists (Z.of_nat (Datatypes.S (Datatypes.S k))).
  assert (root_list files !! Datatypes.S (Datatypes.S k) = Some (dirent (skip_underscore f.1) (Z.of_nat k + 2))) as He.
  { by rewrite root_list_file, Hk. }
  assert (forall j e, root_list files !! j = Some e -> dent d (Z.of_nat j) = e) as Hd by (intros j e Hj; unfold d; rewrite root_concat; apply dent_concat; [apply root_sixteen | done]).
  destruct (dirent_entry (skip_underscore f.1) (Z.of_nat k + 2)) as [Ei Ec]; [unfold NINODES in *; lia|]. split.
  - apply dir_lookup_some. split_and!; [lia | | |].
    + unfold nents, d. rewrite length_app. pose proof (length_root files). unfold DIRENT_SIZE. set (m := Z.of_nat (_ + _)).
      assert (Z.of_nat k + 3 <= m / 16); [apply Z.div_le_lower_bound; unfold m; lia | lia].
    + unfold dmatch. rewrite (Hd _ _ He), Ei, Ec. rewrite bool_decide_true by done. destruct (Z.eqb_spec (Z.of_nat k + 2) 0); [lia | done].
    + intros j Hj. destruct (lookup_lt_is_Some_2 (root_list files) (Z.to_nat j)) as [e Hje].
      { unfold root_list. cbn [length]. rewrite length_imap. lia. }
      unfold dmatch. rewrite <- (Z2Nat.id j) by lia. rewrite (Hd _ _ Hje). destruct (root_names files _ _ Hn Hje) as (_ & nm & Hnm & ->).
      rewrite bool_decide_false; [by rewrite andb_false_r|]. intros E. apply (NoDup_lookup _ (Z.to_nat j) (Datatypes.S (Datatypes.S k)) (cname nm)) in Hnd; [lia | by rewrite list_lookup_fmap, Hnm |].
      rewrite list_lookup_fmap, names_file, Hk. cbn. by rewrite E.
  - unfold dir_inum. by rewrite (Hd _ _ He).
Qed.

(** ** Paths *)

Lemma skip_name_all name : ~ 47 ∈ name -> skip_name name = [].
Proof.
  induction name as [|c l IH]; [done|]. rewrite not_elem_of_cons. intros [Hc Hl]. cbn [skip_name]. unfold SLASH. destruct (Z.eqb_spec c 47); [done | by apply IH].
Qed.

Lemma cname_take name : Forall (fun c => c <> 0) name -> cname name = take (Z.to_nat DIRSIZ) name.
Proof.
  intros H. apply cstr_list; [done | lia | done |]. intros _. unfold Kstring.nthZ. rewrite nth_lookup, lookup_ge_None_2; [done | lia].
Qed.

Lemma skipelem_root name buf : name <> [] -> ~ 47 ∈ name -> Forall (fun c => c <> 0) name -> Forall is_byte name ->
  length buf = Z.to_nat DIRSIZ -> Forall is_byte buf ->
  exists nm, skipelem (47 :: name) buf = Some ([], nm) /\ cname nm = cname name /\ Forall is_byte nm.
Proof.
  intros Hne Hns Hnz Hb Hl Hbuf. destruct name as [|c l]; [done|].
  assert (skip_slashes (47 :: c :: l) = c :: l) as Es.
  { cbn. unfold SLASH. destruct (Z.eqb_spec c 47) as [->|]; [set_solver | done]. }
  unfold skipelem. rewrite Es. cbv zeta. rewrite (skip_name_all _ Hns). set (name := c :: l) in *. change (Z.of_nat (@length Z [])) with 0. rewrite Z.sub_0_r, Nat2Z.id.
  eexists. split; [reflexivity|]. split.
  - rewrite (cname_take name Hnz). pose proof (copied_name name [] buf Hnz Hl) as H. rewrite app_nil_r in H. exact H.
  - destruct (DIRSIZ <=? _); apply splice_Forall; try done; [by apply Forall_take|]. apply Forall_app. split; [by apply Forall_take|]. repeat constructor; lia.
Qed.

Section walk.
Context {S : Type} {BL : BlockLayer S} {BLO : BlockLayerOk S} {DS : DevSw S}.
Context (G : geometry mk_sb nmeta).
Implicit Types (f : Z -> block) (p : gset Z) (s : fs S) (x : S).

(** A cache entry that [iget] has just given to inode [n]. *)
Definition got (n : Z) : inode := Inode ROOTDEV n 1 false 0 0 0 0 0 0 (replicate (Z.to_nat ADDRS_SIZE) 0).

Lemma iget_first s : f_inodes s = replicate (Z.to_nat NINODE) inode0 ->
  iget ROOTDEV ROOTINO s = Ret 0%nat (set_inodes (<[0%nat := got ROOTINO]> (replicate (Z.to_nat NINODE) inode0)) s).
Proof.
  intros H. unfold iget. rewrite (bind_Ret _ _ s s s) by done. rewrite H.
  assert (iget_scan (replicate (Z.to_nat NINODE) inode0) 0 None ROOTDEV ROOTINO = inr (Some 0%nat)) as -> by reflexivity.
  assert (f_inodes s !! 0%nat = Some inode0) as Hl by (by rewrite H). rewrite (bind_Ret _ _ _ _ _ (modi_run 0 inode0 _ s Hl)). by rewrite H.
Qed.

Lemma iget_scan_empty m k a dev n : iget_scan (replicate m inode0) k (Some a) dev n = inr (Some a).
Proof. revert k. induction m as [|m IH]; intros k; [done|]. apply IH. Qed.

Lemma iget_scan_second i m n : i_ref i = 1 -> i_inum i = ROOTINO -> n <> ROOTINO ->
  iget_scan (i :: inode0 :: replicate m inode0) 0 None ROOTDEV n = inr (Some 1%nat).
Proof.
  intros Hr Hi Hn. cbn [iget_scan]. rewrite Hr, Hi. destruct (Z.eqb_spec ROOTINO n); [done|]. rewrite andb_false_r. apply (iget_scan_empty m 2 1).
Qed.

(** With the root in the first entry, another inode takes the second. *)
Lemma iget_second s i n m : i_ref i = 1 -> i_inum i = ROOTINO -> n <> ROOTINO -> f_inodes s = i :: inode0 :: replicate m inode0 ->
  iget ROOTDEV n s = Ret 1%nat (set_inodes (<[1%nat := got n]> (f_inodes s)) s).
Proof.
  intros Hr Hi Hn H. pose proof (iget_scan_second i m n Hr Hi Hn) as E. rewrite <- H in E.
  assert (f_inodes s !! 1%nat = Some inode0) as Hl by (by rewrite H).
  unfold iget. rewrite (bind_Ret _ _ s s s) by done. rewrite E. by rewrite (bind_Ret _ _ _ _ _ (modi_run 1 inode0 _ s Hl)).
Qed.

Lemma ilock_got s ip n f p : f_sb s = mk_sb -> brp (f_bl s) f ∅ p -> (size p < MAXTXN)%nat -> f_inodes s !! ip = Some (got n) -> 0 <= n < NINODES ->
  i_type (ino f n) <> 0 -> exists x, ilock (Some ip) s = Ret tt (upd s x ip (ino f n)) /\ brp x f ∅ p.
Proof using G.
  intros Hsb HR Hp Hi Hn Ht. pose proof (ilock_correct mk_sb nmeta G s ip (got n) f p Hsb HR Hp Hi eq_refl Hn) as H.
  rewrite decide_False in H by (cbn; lia). cbn [i_locked got] in H. rewrite decide_True in H by done. cbn zeta in H. rewrite decide_False in H by exact Ht. exact H.
Qed.

Lemma iunlockput_root s i : f_inodes s !! 0%nat = Some i -> i_locked i = true -> i_ref i = 1 -> i_nlink i = 1 ->
  iunlockput 0 s = Ret tt (set_inodes (<[0%nat := with_ref 0 (with_ilocked false i)]> (f_inodes s)) s).
Proof.
  intros Hi Hl Hr Hn. set (s1 := set_inodes (<[0%nat := with_ilocked false i]> (f_inodes s)) s).
  assert (iunlock (Some 0%nat) s = Ret tt s1) as E.
  { unfold iunlock. rewrite (bind_Ret _ _ s i s) by (unfold geti, bind, get; by rewrite Hi). rewrite Hl, Hr. exact (modi_run 0 i (with_ilocked false) s Hi). }
  unfold iunlockput. rewrite (bind_Ret _ _ _ _ _ E).
  assert (f_inodes s1 !! 0%nat = Some (with_ilocked false i)) as Hi1 by (apply list_lookup_insert_eq; by eapply lookup_lt_Some).
  unfold iput. rewrite (bind_Ret _ _ s1 _ s1) by (unfold geti, bind, get; by rewrite Hi1). cbn [i_ref i_nlink i_flags with_ilocked]. rewrite Hr, Hn, andb_false_r.
  unfold bind at 1, when, ret. rewrite (modi_run 0 (with_ilocked false i)) by done. cbn [s1 set_inodes f_inodes]. rewrite list_insert_insert_eq. cbn [i_ref with_ilocked]. by rewrite Hr.
Qed.

(** [namei] of a path with one element, from a cold inode cache. *)
Lemma namei_root s f p name j : f_sb s = mk_sb -> brp (f_bl s) f ∅ p -> (size p + 5 < MAXTXN)%nat ->
  f_inodes s = replicate (Z.to_nat NINODE) inode0 -> map_ok mk_sb nmeta f -> inode_ok mk_sb nmeta f (ino f ROOTINO) ->
  i_type (ino f ROOTINO) = T_DIR -> i_nlink (ino f ROOTINO) = 1 -> i_size (ino f ROOTINO) mod DIRENT_SIZE = 0 ->
  name <> [] -> ~ 47 ∈ name -> Forall (fun c => c <> 0) name -> Forall is_byte name ->
  dir_lookup (cname name) (data f (ino f ROOTINO)) = Some j -> dir_inum (data f (ino f ROOTINO)) j <> ROOTINO ->
  wp (namei 0 (47 :: name)) (fun r s' => r = Some 1%nat /\ f_sb s' = mk_sb /\ brp (f_bl s') f ∅ p /\
    f_inodes s' !! 1%nat = Some (got (dir_inum (data f (ino f ROOTINO)) j))) s.
Proof using G.
  intros Hsb HR Hp Hc Hm Hok Hty Hnl Hsz N1 N2 N3 N4 Hj Hjr.
  destruct (skipelem_root name (replicate (Z.to_nat DIRSIZ) 0) N1 N2 N3 N4) as (nm & Esk & Ecn & Hnm); [by rewrite length_replicate | apply Forall_replicate; unfold is_byte; lia|].
  unfold namei, namex. change (47 =? SLASH) with true. cbn iota. apply wp_bind, wp_bind, (wp_intro _ _ _ _ _ (iget_first s Hc)). set (s1 := set_inodes _ s).
  cbn [length namex_loop]. rewrite Esk.
  destruct (ilock_got s1 0 ROOTINO f p Hsb HR ltac:(lia) eq_refl ltac:(done) ltac:(by rewrite Hty)) as (x & El & HRx). apply wp_bind, (wp_intro _ _ _ _ _ El). set (s2 := upd s1 x 0 (ino f ROOTINO)).
  assert (f_inodes s2 = ino f ROOTINO :: inode0 :: replicate 48 inode0) as Hc2 by reflexivity.
  apply wp_bind. apply (wp_geti 0 (ino f ROOTINO)); [done|]. rewrite Hty. cbn [Z.eqb Pos.eqb T_DIR negb andb].
  assert (cached_dir mk_sb nmeta s2 0 (ino f ROOTINO) f p) as HD by (split; [by split | by left | done]).
  destruct (dirlookup_outcome mk_sb nmeta G s2 0 _ f p nm HD Hnm Hp) as (y & HRy & Ed). rewrite Ecn, Hj in Ed. change (i_dev (ino f ROOTINO)) with ROOTDEV in Ed.
  rewrite (bind_Ret _ _ _ _ _ (iget_second (set_bl y s2) (ino f ROOTINO) _ 48 eq_refl eq_refl Hjr Hc2)) in Ed. unfold ret in Ed.
  apply wp_bind, (wp_intro _ _ _ _ _ Ed). cbn iota. set (s3 := set_inodes _ _).
  apply wp_bind, (wp_intro _ _ _ _ _ (iunlockput_root s3 (ino f ROOTINO) eq_refl eq_refl eq_refl Hnl)).
  destruct name as [|c name]; [done|]. cbn [length namex_loop skipelem skip_slashes]. apply wp_ret, wp_ret. by split_and!.
Qed.
End walk.

(** ** The boot *)

Lemma mk_geom : 1 < 2 /\ 30 <= 30 /\ 2 + 30 <= FSSIZE /\ FSSIZE < 2 ^ 31.
Proof. unfold FSSIZE. lia. Qed.
#[local] Instance mk_layer_ok : BlockLayerOk log :=
  log_blocks_ok 2 30 FSSIZE (proj1 mk_geom) (proj1 (proj2 mk_geom)) (proj1 (proj2 (proj2 mk_geom))) (proj2 (proj2 (proj2 mk_geom))).

(** The super block of [mkfs] suits every layer that offers its blocks. *)
Lemma mk_geometry_for {S} {BL : BlockLayer S} {BLO : BlockLayerOk S} :
  bl_dom 1 -> (forall b, 32 <= b < FSSIZE -> bl_loggable b) -> geometry mk_sb nmeta.
Proof.
  intros H1 HL. rewrite nmeta_eq, mk_sb_eq. split.
  - unfold sb_ok. cbn. unfold FSSIZE. lia.
  - cbn [sb_size]. change BPB with 4096. unfold FSSIZE. lia.
  - lia.
  - exact H1.
  - split; [apply HL; cbn; unfold FSSIZE; lia | cbn; lia].
  - intros i Hi. pose proof (inode_block i) as HB. rewrite mk_sb_eq in HB. specialize (HB Hi). split; [apply HL; unfold FSSIZE; lia | cbn [sb_bmapstart]; lia].
  - intros b Hb. apply HL. unfold FSSIZE in *. cbn in Hb. lia.
Qed.
Lemma mk_geometry : geometry mk_sb nmeta.
Proof. apply mk_geometry_for; [split; unfold FSSIZE; lia | intros b Hb; split; [split; lia | lia]]. Qed.

Section booting.
Context {DS : DevSw log}.

(** [readsb] before the log is initialised. *)
Lemma iinit_spec D : disk_ok FSSIZE D ->
  wp (iinit ROOTDEV) (fun _ s => exists b, s = set_sb (sb_decode (dview D 1)) (fs0 (log0 b)) /\ brep b (idle (dview D) ∅) /\ same_disk (boot D FSSIZE) b) (fs0 (log0 (boot D FSSIZE))).
Proof.
  intros HD. pose proof (boot_brep D FSSIZE HD) as HR. unfold iinit, readsb. apply wp_bind, wp_bind. unfold fbread. apply wp_onbl, wp_inbio. eapply wp_mono.
  { apply bread_spec; [exact HR | cbn; unfold FSSIZE; lia | intros i; cbn; by rewrite lookup_empty | right; rewrite busy_idle, size_empty; unfold NBUF; lia]. }
  intros i b1 (_ & HR1 & HD1). apply wp_bind, wp_gets, wp_bind. unfold fbrelse. apply wp_onbl, wp_inbio. eapply wp_mono.
  { eapply (brelse_spec _ _ i 1); [exact HR1 | apply lookup_insert_eq | set_solver]. }
  intros [] b2 [HR2 HD2]. apply wp_ret, wp_modify. exists b2. split_and!.
  - change (bl_data _ i) with (bdata b1 i). by rewrite (brep_data _ _ i 1 HR1) by apply lookup_insert_eq.
  - eapply brep_ext; [apply HR2 | done | cbn | done | done]. by rewrite delete_insert_eq, delete_empty.
  - destruct HD1 as (E1 & E2 & E3), HD2 as (E4 & E5 & E6). split_and!; [exact (eq_trans E4 E1) | exact (eq_trans E5 E2) | exact (eq_trans E6 E3)].
Qed.

(** Recovery at boot: the kernel shows the contents that the disk stands for. *)
Lemma fsinit_recovers D : sound 2 30 FSSIZE D -> sb_decode (dview D 1) = mk_sb ->
  wp fsinit (fun _ s => f_sb s = mk_sb /\ f_inodes s = replicate (Z.to_nat NINODE) inode0 /\ lrep_quiet 2 30 FSSIZE (f_bl s) (logical 2 D) /\
    wrote (recovery_writes 2 (listed 2 D) (dview D)) (boot D FSSIZE) (lg_bio (f_bl s))) (fs0 (log0 (boot D FSSIZE))).
Proof.
  intros HS Hsb. unfold fsinit. apply wp_bind. eapply wp_mono; [apply iinit_spec, HS|]. intros [] s (b & -> & HR & H1 & H2 & H3). rewrite Hsb.
  apply wp_onbl. eapply wp_mono; [apply (initlog_quiet 2 30 FSSIZE D b); [unfold FSSIZE; lia | done..]|].
  intros [] l (Hq & W1 & W2 & W3). split_and!; [done | done | exact Hq|]. split_and!; cbn [f_bl set_bl]; congruence.
Qed.

Lemma fsinit_spec D : disk_ok FSSIZE D -> sb_decode (dview D 1) = mk_sb -> hd_n (dview D 2) = 0 ->
  wp (fsinit ;;; begin_op) (fun _ s => f_sb s = mk_sb /\ brp (f_bl s) (dview D) ∅ ∅ /\ f_inodes s = replicate (Z.to_nat NINODE) inode0)
    (fs0 (log0 (boot D FSSIZE))).
Proof.
  intros HD Hsb Hh. assert (1 < 2 /\ 0 < 30 /\ 2 + 30 <= FSSIZE /\ FSSIZE < 2 ^ 31) as HG by (unfold FSSIZE; lia).
  destruct (sound_empty 2 30 FSSIZE HG D HD) as [HS HL]; [by rewrite Hsb, mk_sb_eq | done|].
  apply wp_bind. eapply wp_mono; [by apply fsinit_recovers|]. intros [] s (H1 & H2 & H3 & _). unfold begin_op. apply wp_onbl.
  eapply wp_mono; [by apply begin_op_spec|]. intros [] x HR. split_and!; [done | | done].
  eapply brp_ext; [exact HR|]. intros b _. symmetry. apply HL.
Qed.

Lemma image_disk s g : (forall b, 0 <= b < FSSIZE -> mk_img s !! b = Some (g b) /\ block_ok (g b)) ->
  disk_ok FSSIZE (mk_img s) /\ (forall b, 0 <= b < FSSIZE -> dview (mk_img s) b = g b).
Proof.
  intros H. split; intros b Hb; [exists (g b); by apply H|]. unfold dview. by rewrite (proj1 (H b Hb)).
Qed.

Lemma acceptable_name f : acceptable f -> Forall is_byte (skip_underscore f.1) /\ ~ 47 ∈ skip_underscore f.1.
Proof.
  intros (Hb & Hs & _). unfold skip_underscore. destruct (f.1) as [|c l]; [done|]. destruct (c =? 95); [|done]. inversion Hb. set_solver.
Qed.

(** The view of the disk and the kernel's, on the blocks of the device. *)
Lemma read_path_spec s g files k f n :
  f_sb s = mk_sb -> brp (f_bl s) g ∅ ∅ -> f_inodes s = replicate (Z.to_nat NINODE) inode0 -> fits files -> named files -> built g files ->
  files !! k = Some f -> Z.of_nat (length (concat f.2)) <= n < 2 ^ 32 ->
  wp (read_path (47 :: skip_underscore f.1) n) (fun r _ => r = Some (Z.of_nat (length (concat f.2)), concat f.2)) s.
Proof.
  intros Hsb HR Hc Hfit Hnm [_ _ Hm (R1 & R2 & R3 & R4 & z & R5) HF] Hk Hn. destruct (HF k f Hk) as (F1 & F2 & F3). destruct (nm_cstring _ Hnm _ _ Hk) as [N1 N2].
  destruct (acceptable_name f) as [N3 N4]; [exact (Forall_lookup_1 _ _ _ _ (ft_ok _ Hfit) Hk)|]. pose proof (lookup_lt_Some _ _ _ Hk) as Hkl. pose proof (ft_inodes _ Hfit) as Hin.
  destruct (root_lookup files z k f Hin Hnm Hk) as (j & Hj & Hji). rewrite <- R5 in Hj, Hji.
  unfold read_path. apply wp_bind. eapply wp_mono.
  { apply (namei_root mk_geometry s g ∅ (skip_underscore f.1) j); try done; [rewrite size_empty; unfold MAXTXN; lia | | rewrite Hji; unfold ROOTINO; lia].
    unfold BSIZE, DIRENT_SIZE in *. apply Z.mod_divide; [lia|]. apply Z.mod_divide in R4; [|lia]. by apply (Z.divide_trans 16 512); [exists 32|]. }
  rewrite Hji. intros r s1 (-> & H1 & H2 & H3).
  destruct (ilock_got mk_geometry s1 1 (Z.of_nat k + 2) g ∅ H1 H2) as (x & El & HRx); [rewrite size_empty; unfold MAXTXN; lia | exact H3 | unfold NINODES in *; lia | by rewrite F2 |].
  apply wp_bind, (wp_intro _ _ _ _ _ El), wp_bind. eapply (readi_spec mk_sb nmeta mk_geometry).
  - split; [exact H1 | | exact HRx | exact Hm | exact F1]. apply list_lookup_insert_eq. by eapply lookup_lt_Some.
  - rewrite size_empty. unfold MAXTXN. lia.
  - lia.
  - lia.
  - intros y _. apply wp_ret. rewrite F3. unfold read_result. destruct (Z.ltb_spec (Z.of_nat (length (concat f.2))) 0); [lia|]. destruct (Z.leb_spec (2 ^ 32) (0 + n)); [lia|]. cbn [orb].
    rewrite Z.sub_0_r, Z.min_r by lia. unfold slice. rewrite Nat2Z.id, drop_0, firstn_all. done.
Qed.

(** C9: An image that [mkfs] builds boots: for every list of files that fits on
    the disk, with distinct names, [mkfs] finishes, and a kernel started on the
    image recovers its (empty) log, finds each file by its path in the root
    directory and reads exactly the bytes that were given to [mkfs]. *)
Theorem mkfs_boot_reads files k f n :
  fits files -> named files -> files !! k = Some f -> Z.of_nat (length (concat f.2)) <= n < 2 ^ 32 ->
  exists s y, mkfs_main files mkfs0 = Ret tt s /\
    (fsinit ;;; begin_op ;;; read_path (47 :: skip_underscore f.1) n) (fs0 (log0 (boot (mk_img s) FSSIZE))) =
      Ret (Some (Z.of_nat (length (concat f.2)), concat f.2)) y.
Proof.
  intros Hfit Hnm Hk Hn. destruct (wp_run _ _ _ (mkfs_spec mk_geometry files Hfit)) as ([] & s & Es & g & Hg & HB). destruct (image_disk s g Hg) as [HD Hv].
  assert (wp (fsinit ;;; begin_op ;;; read_path (47 :: skip_underscore f.1) n) (fun r _ => r = Some (Z.of_nat (length (concat f.2)), concat f.2))
    (fs0 (log0 (boot (mk_img s) FSSIZE)))) as HW.
  { apply wp_bind. assert (sb_decode (dview (mk_img s) 1) = mk_sb) as H1 by (rewrite Hv by (unfold FSSIZE; lia); apply HB).
    assert (hd_n (dview (mk_img s) 2) = 0) as H2 by (rewrite Hv, (bt_log _ _ HB) by (unfold FSSIZE; lia); vm_compute; reflexivity).
    pose proof (wp_bind_inv _ _ _ _ (fsinit_spec _ HD H1 H2)) as HI. eapply wp_mono; [exact HI|]. intros [] s1 Hs1. apply wp_bind. eapply wp_mono; [exact Hs1|].
    intros [] s2 (B1 & B2 & B3). refine (read_path_spec s2 g files k f n B1 _ B3 Hfit Hnm HB Hk Hn).
    eapply brp_ext; [exact B2|]. intros b [Hb _]. symmetry. by apply Hv. }
  destruct (wp_run _ _ _ HW) as (r & y & Ey & ->). exists s, y. split; [exact Es | exact Ey].
Qed.

End booting.

#[local] Instance mk_devsw : DevSw log := {| dev_read _ := None; dev_write _ := None |}.

(** Two files: [_ls] with three bytes read in two pieces, and [README]. *)
Definition ex_files : list (list Z * list (list Z)) :=
  [([95; 108; 115], [[7; 8]; [9]]); ([82; 69; 65; 68; 77; 69], [[104; 105; 10]])].
Lemma ex_fits : fits ex_files.
Proof.
  assert (HB : forall c, In c [95; 108; 115; 82; 69; 65; 68; 77; 7; 8; 9; 104; 105; 10] -> is_byte c) by (intros c Hc; cbn in Hc; unfold is_byte; lia).
  split; [|cbn; unfold NINODES; lia | vm_compute; discriminate | vm_compute; discriminate].
  repeat constructor; cbn; try set_solver; try (apply HB; cbn; tauto); change MAXFILE with 140; unfold BSIZE; lia.
Qed.
Lemma ex_named : named ex_files.
Proof.
  split; [|apply (bool_decide_unpack _); vm_compute; reflexivity].
  intros [|[|k]] f; intros [= <-]; cbn; (split; [discriminate|]); repeat (constructor; [lia|]); constructor.
Qed.

Lemma mkfs_boot_reads_witness : exists s y, mkfs_main ex_files mkfs0 = Ret tt s /\
  (fsinit ;;; begin_op ;;; read_path [47; 108; 115] 512) (fs0 (log0 (boot (mk_img s) FSSIZE))) = Ret (Some (3, [7; 8; 9])) y.
Proof. exact (mkfs_boot_reads ex_files 0 _ 512 ex_fits ex_named eq_refl ltac:(cbn; lia)). Defined.
