(* ===== verification/Memory.v ===== *)
(** * Words and pages in byte memory

    Loads and stores of 32-bit words and of byte ranges in the byte memory of
    [CString], with the frame lemmas the page allocator, the page tables and
    the system-call argument code share. *)

From S2P Require Import Prelude CString.
Import Kstring.

(** A 32-bit load, little endian. *)
Definition load32 (m : mem) (a : Z) : Z :=
  m a + 256 * (m (u32 (a + 1)) + 256 * (m (u32 (a + 2)) + 256 * m (u32 (a + 3)))).

(** [bs] stored from address [a] on. *)
Fixpoint store_bytes (m : mem) (a : Z) (bs : list Z) : mem :=
  match bs with
  | [] => m
  | b :: bs' => store_bytes (upd m a b) (u32 (a + 1)) bs'
  end.

(** The memories agree on [n] bytes from [a]. *)
Definition same_on (a n : Z) (m m' : mem) : Prop := forall x, a <= x < a + n -> m' x = m x.
(** ... and below [lo]. *)
Definition same_below (lo : Z) (m m' : mem) : Prop := forall x, x < lo -> m' x = m x.

Lemma store32_in m a w : 0 <= a -> a + 4 <= 2 ^ 32 -> forall x,
  store32 m a w x = if (a <=? x) && (x <? a + 4) then u8 (Z.shiftr w (8 * (x - a))) else m x.
Proof.
  intros H0 H1 x. unfold store32. rewrite !u32_small by lia. unfold upd.
  zb; simpl; try lia; subst; try done; try (do 2 f_equal; lia).
  by rewrite Z.sub_diag, Z.shiftr_0_r.
Qed.

Lemma load32_le m a : 0 <= a -> a + 4 <= 2 ^ 32 -> load32 m a = le_word (bytes_at m a 4).
Proof.
  intros. unfold load32. rewrite !u32_small by lia. unfold bytes_at.
  change (seqZ 0 (Z.of_nat 4)) with [0; 1; 2; 3].
  cbn [fmap list_fmap le_word]. rewrite Z.add_0_r. lia.
Qed.

Lemma load32_ext m m' a : 0 <= a -> a + 4 <= 2 ^ 32 -> same_on a 4 m m' -> load32 m' a = load32 m a.
Proof. intros ? ? Hs. unfold load32. rewrite !u32_small by lia. rewrite !Hs by lia. done. Qed.

Lemma load32_store32 m a w : 0 <= a -> a + 4 <= 2 ^ 32 -> load32 (store32 m a w) a = u32 w.
Proof.
  intros. rewrite load32_le by lia.
  assert (bytes_at (store32 m a w) a 4 = le_bytes 4 w) as ->.
  { unfold bytes_at, le_bytes. apply list_fmap_ext. intros i x Hx. apply lookup_seqZ in Hx as [-> Hi].
    rewrite store32_in by lia. zb; simpl; try lia. do 2 f_equal. lia. }
  rewrite le_word_bytes. done.
Qed.

Lemma store32_other m a w x : 0 <= a -> a + 4 <= 2 ^ 32 -> x < a \/ a + 4 <= x -> store32 m a w x = m x.
Proof. intros. rewrite store32_in by lia. zb; simpl; try lia; done. Qed.

Lemma load32_store32_ne m a b w : 0 <= a -> a + 4 <= 2 ^ 32 -> 0 <= b -> b + 4 <= 2 ^ 32 ->
  b + 4 <= a \/ a + 4 <= b -> load32 (store32 m a w) b = load32 m b.
Proof. intros. apply load32_ext; [lia | lia |]. intros x Hx. apply store32_other; lia. Qed.

Lemma store_bytes_in m a bs : 0 <= a -> a + Z.of_nat (length bs) <= 2 ^ 32 -> forall x,
  store_bytes m a bs x =
    if (a <=? x) && (x <? a + Z.of_nat (length bs)) then nthZ bs (x - a) else m x.
Proof.
  revert m a. induction bs as [|b bs IH]; intros m a H0 H1 x; cbn [store_bytes length] in *.
  { zb; simpl; try lia; done. }
  destruct (decide (bs = [])) as [->|Hne].
  { cbn [store_bytes length] in *. unfold upd. zb; simpl; try lia; subst; try done. by rewrite Z.sub_diag. }
  assert (length bs <> 0%nat) by (by destruct bs).
  rewrite u32_small, IH by lia. unfold upd.
  zb; simpl; try lia; subst; try done.
  - rewrite (nthZ_cons b bs) by lia. f_equal. lia.
  - by rewrite Z.sub_diag.
Qed.

Lemma bytes_at_cons m a n : bytes_at m a (Datatypes.S n) = m a :: bytes_at m (a + 1) n.
Proof.
  unfold bytes_at, seqZ. rewrite !Nat2Z.id. cbn [seq fmap list_fmap]. f_equal; [f_equal; lia|].
  rewrite <- fmap_S_seq, <- !list_fmap_compose. apply list_fmap_ext. intros i x _. cbn. f_equal. lia.
Qed.

Lemma bytes_at_store m a bs : 0 <= a -> a + Z.of_nat (length bs) <= 2 ^ 32 ->
  bytes_at (store_bytes m a bs) a (length bs) = bs.
Proof.
  intros H0 H1. apply list_eq. intros i. unfold bytes_at.
  destruct (decide (i < length bs)%nat) as [Hi|Hi].
  - rewrite list_lookup_fmap, lookup_seqZ_lt by lia. cbn [fmap option_fmap option_map].
    rewrite store_bytes_in by lia. zb; simpl; try lia.
    unfold nthZ. replace (Z.to_nat (a + (0 + Z.of_nat i) - a)) with i by lia.
    destruct (lookup_lt_is_Some_2 bs i Hi) as [b Hb]. rewrite Hb. f_equal.
    by apply nth_lookup_Some.
  - rewrite !lookup_ge_None_2; try done; [lia|]. rewrite length_fmap, length_seqZ. lia.
Qed.

Lemma store_bytes_other m a bs x : 0 <= a -> a + Z.of_nat (length bs) <= 2 ^ 32 ->
  x < a \/ a + Z.of_nat (length bs) <= x -> store_bytes m a bs x = m x.
Proof. intros. rewrite store_bytes_in by lia. zb; simpl; try lia; done. Qed.

(** ** Pages *)

Definition PGSIZE : Z := 4096.
Definition KERNBASE : Z := 0x80000000.
Definition PHYSTOP : Z := 0xE000000.
Definition V2P (a : Z) : Z := u32 (a - KERNBASE).
Definition P2V (a : Z) : Z := u32 (a + KERNBASE).
Definition PGROUNDUP (sz : Z) : Z := Z.land (u32 (sz + PGSIZE - 1)) (u32 (Z.lnot (PGSIZE - 1))).
Definition PGROUNDDOWN (a : Z) : Z := Z.land a (u32 (Z.lnot (PGSIZE - 1))).

Lemma page_mask x : 0 <= x < 2 ^ 32 -> Z.land x (u32 (Z.lnot (PGSIZE - 1))) = x - x mod PGSIZE.
Proof.
  intros Hx. assert (u32 (Z.lnot (PGSIZE - 1)) = Z.shiftl (Z.ones 20) 12) as -> by reflexivity.
  replace (x - x mod PGSIZE) with (Z.shiftl (Z.shiftr x 12) 12).
  2: { rewrite Z.shiftl_mul_pow2, Z.shiftr_div_pow2 by lia. unfold PGSIZE.
       pose proof (Z.div_mod x 4096). change (2 ^ 12) with 4096. lia. }
  apply Z.bits_inj'. intros i Hi. rewrite Z.land_spec, !Z.shiftl_spec by lia.
  destruct (Z.ltb_spec i 12); [by rewrite !(Z.testbit_neg_r _ (i - 12)), andb_false_r by lia|].
  rewrite Z.shiftr_spec by lia. replace (i - 12 + 12) with i by lia.
  destruct (Z.ltb_spec i 32).
  - rewrite Z.ones_spec_low by lia. apply andb_true_r.
  - rewrite Z.ones_spec_high, andb_false_r by lia. symmetry. rewrite <- (Z.mod_small x (2 ^ 32)) by lia.
    apply Z.mod_pow2_bits_high. lia.
Qed.

Lemma PGROUNDDOWN_eq a : 0 <= a < 2 ^ 32 -> PGROUNDDOWN a = a - a mod PGSIZE.
Proof. apply page_mask. Qed.

(** Rounding up gives the least page boundary not below [sz]. *)
Lemma PGROUNDUP_spec sz : 0 <= sz -> sz + PGSIZE <= 2 ^ 32 ->
  sz <= PGROUNDUP sz < sz + PGSIZE /\ PGROUNDUP sz mod PGSIZE = 0.
Proof.
  intros H0 H1. unfold PGROUNDUP.
  unfold PGSIZE in *. rewrite u32_small, page_mask by lia. unfold PGSIZE. set (x := sz + 4096 - 1).
  pose proof (Z.div_mod x 4096 ltac:(lia)). pose proof (Z.mod_pos_bound x 4096 ltac:(lia)).
  split; [lia|]. replace (x - x mod 4096) with (x / 4096 * 4096) by lia. apply Z.mod_mul. lia.
Qed.

Lemma mod_page_gap a b : a mod PGSIZE = 0 -> b mod PGSIZE = 0 -> a <> b -> a + PGSIZE <= b \/ b + PGSIZE <= a.
Proof.
  unfold PGSIZE. intros Ha Hb Hne. pose proof (Z.div_mod a 4096). pose proof (Z.div_mod b 4096). lia.
Qed.

(** What [allocuvm] or [deallocuvm] return to [growproc(n)]; [grant] tells
    whether [allocuvm] finds the pages. *)
Definition brk_ret (grant : bool) (sz n : Z) : Z :=
  let newsz := u32 (sz + n) in
  if 0 <? n then
    if KERNBASE <=? newsz then 0 else if newsz <? sz then sz
    else if grant then newsz else 0
  else if n <? 0 then if sz <=? newsz then sz else newsz
  else sz.
(** The size of a process after [growproc(n)], [None] where it returns -1. *)
Definition brk_size (grant : bool) (sz n : Z) : option Z :=
  let r := brk_ret grant sz n in
  if negb (n =? 0) && (r =? 0) then None else Some r.
