(* ===== verification/X86.v ===== *)
(** * The processor

    What the kernel's assembly code and its descriptor tables need of an
    80386: the registers, a flat byte memory as the kernel sees it, the
    segment and gate descriptors of mmu.h with their bit fields, the way the
    processor reads them back when it delivers an interrupt, and the
    instructions that swtch.S, trapasm.S, vectors.S, usys.S and initcode.S
    use.  A routine is the list of its
    instructions.  Segments are flat, so an offset is the address; the checks
    made when a data segment register is loaded, and page faults on the
    kernel's own stack, are left out. *)

From S2P Require Import Prelude CString Memory.
Import Kstring.

(** ** Bit fields *)

(** [n] bits of [x] from bit [i] on. *)
Definition bits (x i n : Z) : Z := Z.land (Z.shiftr x i) (Z.ones n).

(** A structure of bit fields, each with its width, the first in the low bits. *)
Fixpoint pack (l : list (Z * Z)) : Z :=
  match l with
  | [] => 0
  | (v, w) :: l => v mod 2 ^ w + 2 ^ w * pack l
  end.
Definition width (l : list (Z * Z)) : Z := foldr (fun f n => f.2 + n) 0 l.

Lemma bits_eq x i n : 0 <= i -> 0 <= n -> bits x i n = x / 2 ^ i mod 2 ^ n.
Proof. intros. unfold bits. by rewrite Z.land_ones, Z.shiftr_div_pow2 by lia. Qed.

Lemma width_pos l : Forall (fun f => 0 <= f.2) l -> 0 <= width l.
Proof. unfold width. induction 1 as [|f l Hf _ IH]; cbn in *; lia. Qed.
Lemma pack_range l : Forall (fun f => 0 <= f.2) l -> 0 <= pack l < 2 ^ width l.
Proof.
  induction 1 as [|[v w] l Hw Hl IH]; [done|]. cbn [pack width foldr] in *. cbn [snd] in Hw.
  change (foldr (fun f n => f.2 + n) 0 l) with (width l) in *. pose proof (width_pos l Hl).
  rewrite Z.pow_add_r by (cbn; lia). cbn [snd]. pose proof (Z.mod_pos_bound v (2 ^ w) ltac:(lia)). nia.
Qed.

(** Reading a field back. *)
Lemma bits_pack l1 v w l2 : Forall (fun f => 0 <= f.2) l1 -> 0 <= w -> bits (pack (l1 ++ (v, w) :: l2)) (width l1) w = v mod 2 ^ w.
Proof.
  intros Hl Hw. induction Hl as [|[u k] l Hk Hl IH]; cbn [app pack width foldr].
  - rewrite bits_eq by lia. rewrite Z.div_1_r, Z.mul_comm, Z.mod_add by lia. apply Z.mod_mod. lia.
  - change (foldr (fun f n => f.2 + n) 0 l) with (width l). pose proof (width_pos l Hl). cbn [snd] in *. rewrite bits_eq by lia.
    rewrite Z.pow_add_r, <- Z.div_div, (Z.mul_comm (2 ^ k) (pack _)), Z.div_add by lia.
    rewrite (Z.div_small (u mod 2 ^ k)) by (apply Z.mod_pos_bound; lia). rewrite Z.add_0_l, <- bits_eq by lia. exact IH.
Qed.

(** ** Words of 64 bits in memory *)

Definition load64 (m : mem) (a : Z) : Z := le_word (bytes_at m a 8).
Definition store64 (m : mem) (a q : Z) : mem := store_bytes m a (le_bytes 8 q).

Lemma load64_store64 m a q : 0 <= a -> a + 8 <= 2 ^ 32 -> load64 (store64 m a q) a = q mod 2 ^ 64.
Proof.
  intros. unfold load64, store64. replace 8%nat with (length (le_bytes 8 q)) at 2 by apply length_le_bytes.
  rewrite bytes_at_store by (rewrite ?length_le_bytes; lia). apply (le_word_bytes 8).
Qed.
Lemma store64_other m a q x : 0 <= a -> a + 8 <= 2 ^ 32 -> x < a \/ a + 8 <= x -> store64 m a q x = m x.
Proof. intros. unfold store64. apply store_bytes_other; rewrite ?length_le_bytes; lia. Qed.
Lemma bytes_at_ext m m' a n : same_on a (Z.of_nat n) m m' -> bytes_at m' a n = bytes_at m a n.
Proof. intros Hs. unfold bytes_at. apply list_fmap_ext. intros i x Hx. apply lookup_seqZ in Hx as [-> Hi]. apply Hs. lia. Qed.
Lemma load64_ext m m' a : same_on a 8 m m' -> load64 m' a = load64 m a.
Proof. intros Hs. unfold load64. f_equal. by apply bytes_at_ext. Qed.

Lemma load64_store64_ne m a b q : 0 <= a -> a + 8 <= 2 ^ 32 -> b + 8 <= a \/ a + 8 <= b -> load64 (store64 m a q) b = load64 m b.
Proof. intros. apply load64_ext. intros x Hx. apply store64_other; lia. Qed.
Lemma load64_store32_ne m a b w : 0 <= a -> a + 4 <= 2 ^ 32 -> b + 8 <= a \/ a + 4 <= b -> load64 (store32 m a w) b = load64 m b.
Proof. intros. apply load64_ext. intros x Hx. apply store32_other; lia. Qed.
Lemma load32_store64_ne m a b q : 0 <= a -> a + 8 <= 2 ^ 32 -> 0 <= b -> b + 4 <= 2 ^ 32 -> b + 4 <= a \/ a + 8 <= b ->
  load32 (store64 m a q) b = load32 m b.
Proof. intros. apply load32_ext; [lia | lia |]. intros x Hx. apply store64_other; lia. Qed.

(** ** Descriptors (mmu.h) *)

Definition STA_X : Z := 0x8.
Definition STA_W : Z := 0x2.
Definition STA_R : Z := 0x2.
Definition STS_T32A : Z := 0x9.
Definition STS_IG32 : Z := 0xE.
Definition STS_TG32 : Z := 0xF.
Definition SEG_KCODE : Z := 1.
Definition SEG_KDATA : Z := 2.
Definition SEG_KCPU : Z := 3.
Definition SEG_UCODE : Z := 4.
Definition SEG_UDATA : Z := 5.
Definition SEG_TSS : Z := 6.
Definition NSEGS : Z := 7.
Definition DPL_USER : Z := 3.
Definition FL_TF : Z := 0x100.
Definition FL_IF : Z := 0x200.
Definition FL_NT : Z := 0x4000.
Definition FL_RF : Z := 0x10000.
Definition FL_VM : Z := 0x20000.
Definition CR0_PE : Z := 0x1.
Definition CR0_WP : Z := 0x10000.
Definition CR0_PG : Z := 0x80000000.
Definition CR4_PSE : Z := 0x10.

Record segdesc := Segdesc {
  lim_15_0 : Z; base_15_0 : Z; base_23_16 : Z; sd_type : Z; sd_s : Z; sd_dpl : Z; sd_p : Z;
  lim_19_16 : Z; sd_avl : Z; sd_rsv1 : Z; sd_db : Z; sd_g : Z; base_31_24 : Z
}.
Definition segdesc_fields (d : segdesc) : list (Z * Z) :=
  [(lim_15_0 d, 16); (base_15_0 d, 16); (base_23_16 d, 8); (sd_type d, 4); (sd_s d, 1); (sd_dpl d, 2); (sd_p d, 1);
   (lim_19_16 d, 4); (sd_avl d, 1); (sd_rsv1 d, 1); (sd_db d, 1); (sd_g d, 1); (base_31_24 d, 8)].

Definition SEG (type base lim dpl : Z) : segdesc :=
  Segdesc (Z.land (Z.shiftr lim 12) 0xffff) (Z.land (u32 base) 0xffff) (Z.land (Z.shiftr (u32 base) 16) 0xff) type 1 dpl 1
    (Z.shiftr (u32 lim) 28) 0 0 1 1 (Z.shiftr (u32 base) 24).
Definition SEG16 (type base lim dpl : Z) : segdesc :=
  Segdesc (Z.land lim 0xffff) (Z.land (u32 base) 0xffff) (Z.land (Z.shiftr (u32 base) 16) 0xff) type 1 dpl 1
    (Z.shiftr (u32 lim) 16) 0 0 1 0 (Z.shiftr (u32 base) 24).
Definition with_s (v : Z) (d : segdesc) : segdesc :=
  Segdesc (lim_15_0 d) (base_15_0 d) (base_23_16 d) (sd_type d) v (sd_dpl d) (sd_p d)
    (lim_19_16 d) (sd_avl d) (sd_rsv1 d) (sd_db d) (sd_g d) (base_31_24 d).

Record gatedesc := Gatedesc {
  off_15_0 : Z; gd_cs : Z; gd_args : Z; gd_rsv1 : Z; gd_type : Z; gd_s : Z; gd_dpl : Z; gd_p : Z; off_31_16 : Z
}.
Definition gatedesc_fields (g : gatedesc) : list (Z * Z) :=
  [(off_15_0 g, 16); (gd_cs g, 16); (gd_args g, 5); (gd_rsv1 g, 3); (gd_type g, 4); (gd_s g, 1); (gd_dpl g, 2); (gd_p g, 1); (off_31_16 g, 16)].

(** Every field is assigned, so the old value does not matter. *)
Definition SETGATE (istrap : bool) (sel off d : Z) : gatedesc :=
  Gatedesc (Z.land (u32 off) 0xffff) sel 0 0 (if istrap then STS_TG32 else STS_IG32) 0 d 1 (Z.shiftr (u32 off) 16).

(** *** What the processor reads *)

Record segment := Segment { s_base : Z; s_limit : Z; s_type : Z; s_app : bool; s_dpl : Z; s_present : bool }.
Definition decode_seg (q : Z) : segment :=
  let lim := bits q 0 16 + 2 ^ 16 * bits q 48 4 in
  Segment (bits q 16 16 + 2 ^ 16 * bits q 32 8 + 2 ^ 24 * bits q 56 8)
    (if bits q 55 1 =? 1 then lim * 4096 + 4095 else lim)
    (bits q 40 4) (bits q 44 1 =? 1) (bits q 45 2) (bits q 47 1 =? 1).

Record gate := Gate { g_off : Z; g_sel : Z; g_type : Z; g_sys : bool; g_dpl : Z; g_present : bool }.
Definition decode_gate (q : Z) : gate :=
  Gate (bits q 0 16 + 2 ^ 16 * bits q 48 16) (bits q 16 16) (bits q 40 4) (bits q 44 1 =? 0) (bits q 45 2) (bits q 47 1 =? 1).

Lemma bits_field l k i v w : Forall (fun f => 0 <= f.2) l -> l !! k = Some (v, w) -> width (take k l) = i -> bits (pack l) i w = v mod 2 ^ w.
Proof.
  intros Hl Hk <-. rewrite <- (take_drop_middle l k (v, w) Hk) at 1. pose proof (Forall_lookup_1 _ _ _ _ Hl Hk).
  apply bits_pack; [by apply Forall_take | done].
Qed.

Lemma segdesc_widths d : Forall (fun f => 0 <= f.2) (segdesc_fields d).
Proof. repeat constructor; cbn; lia. Qed.
Lemma gatedesc_widths g : Forall (fun f => 0 <= f.2) (gatedesc_fields g).
Proof. repeat constructor; cbn; lia. Qed.

(** The processor reads the fields that the C structures hold. *)
Lemma decode_segdesc d : decode_seg (pack (segdesc_fields d)) =
  let lim := lim_15_0 d mod 2 ^ 16 + 2 ^ 16 * (lim_19_16 d mod 2 ^ 4) in
  Segment (base_15_0 d mod 2 ^ 16 + 2 ^ 16 * (base_23_16 d mod 2 ^ 8) + 2 ^ 24 * (base_31_24 d mod 2 ^ 8))
    (if sd_g d mod 2 =? 1 then lim * 4096 + 4095 else lim)
    (sd_type d mod 2 ^ 4) (sd_s d mod 2 =? 1) (sd_dpl d mod 2 ^ 2) (sd_p d mod 2 =? 1).
Proof.
  pose proof (bits_field _ 0 0 _ _ (segdesc_widths d) eq_refl eq_refl) as E0. pose proof (bits_field _ 1 16 _ _ (segdesc_widths d) eq_refl eq_refl) as E1.
  pose proof (bits_field _ 2 32 _ _ (segdesc_widths d) eq_refl eq_refl) as E2. pose proof (bits_field _ 3 40 _ _ (segdesc_widths d) eq_refl eq_refl) as E3.
  pose proof (bits_field _ 4 44 _ _ (segdesc_widths d) eq_refl eq_refl) as E4. pose proof (bits_field _ 5 45 _ _ (segdesc_widths d) eq_refl eq_refl) as E5.
  pose proof (bits_field _ 6 47 _ _ (segdesc_widths d) eq_refl eq_refl) as E6. pose proof (bits_field _ 7 48 _ _ (segdesc_widths d) eq_refl eq_refl) as E7.
  pose proof (bits_field _ 11 55 _ _ (segdesc_widths d) eq_refl eq_refl) as E11. pose proof (bits_field _ 12 56 _ _ (segdesc_widths d) eq_refl eq_refl) as E12.
  set (q := pack (segdesc_fields d)) in *. unfold decode_seg.
  by rewrite E0, E1, E2, E3, E4, E5, E6, E7, E11, E12.
Qed.
Lemma decode_gatedesc g : decode_gate (pack (gatedesc_fields g)) =
  Gate (off_15_0 g mod 2 ^ 16 + 2 ^ 16 * (off_31_16 g mod 2 ^ 16)) (gd_cs g mod 2 ^ 16) (gd_type g mod 2 ^ 4) (gd_s g mod 2 =? 0)
    (gd_dpl g mod 2 ^ 2) (gd_p g mod 2 =? 1).
Proof.
  pose proof (bits_field _ 0 0 _ _ (gatedesc_widths g) eq_refl eq_refl) as E0. pose proof (bits_field _ 1 16 _ _ (gatedesc_widths g) eq_refl eq_refl) as E1.
  pose proof (bits_field _ 4 40 _ _ (gatedesc_widths g) eq_refl eq_refl) as E4. pose proof (bits_field _ 5 44 _ _ (gatedesc_widths g) eq_refl eq_refl) as E5.
  pose proof (bits_field _ 6 45 _ _ (gatedesc_widths g) eq_refl eq_refl) as E6. pose proof (bits_field _ 7 47 _ _ (gatedesc_widths g) eq_refl eq_refl) as E7.
  pose proof (bits_field _ 8 48 _ _ (gatedesc_widths g) eq_refl eq_refl) as E8.
  set (q := pack (gatedesc_fields g)) in *. unfold decode_gate.
  by rewrite E0, E1, E4, E5, E6, E7, E8.
Qed.

(** The parts of a 32-bit base or offset. *)
Lemma low_half x : Z.land x 0xffff = x mod 2 ^ 16.
Proof. change 0xffff with (Z.ones 16). by rewrite Z.land_ones. Qed.
Lemma low_byte x : Z.land x 0xff = x mod 2 ^ 8.
Proof. change 0xff with (Z.ones 8). by rewrite Z.land_ones. Qed.
Lemma split_base x : 0 <= x < 2 ^ 32 ->
  x mod 2 ^ 16 mod 2 ^ 16 + 2 ^ 16 * (x / 2 ^ 16 mod 2 ^ 8 mod 2 ^ 8) + 2 ^ 24 * (x / 2 ^ 24 mod 2 ^ 8) = x.
Proof.
  intros Hx. rewrite !Z.mod_mod by lia. rewrite (Z.mod_small (x / 2 ^ 24)) by (split; [apply Z.div_pos | apply Z.div_lt_upper_bound]; lia).
  pose proof (Z.div_mod x (2 ^ 16) ltac:(lia)). pose proof (Z.div_mod (x / 2 ^ 16) (2 ^ 8) ltac:(lia)) as E.
  rewrite Z.div_div in E by lia. change (2 ^ 16 * 2 ^ 8) with (2 ^ 24) in E. lia.
Qed.

Lemma decode_SEG type base lim dpl : 0 <= base < 2 ^ 32 -> 0 <= lim < 2 ^ 32 -> 0 <= type < 16 -> 0 <= dpl < 4 ->
  decode_seg (pack (segdesc_fields (SEG type base lim dpl))) = Segment base (lim / 4096 * 4096 + 4095) type true dpl true.
Proof.
  intros Hb Hl Ht Hd. rewrite decode_segdesc. unfold SEG. cbn [lim_15_0 base_15_0 base_23_16 sd_type sd_s sd_dpl sd_p lim_19_16 sd_g base_31_24].
  rewrite !u32_small, !low_half, low_byte, !Z.shiftr_div_pow2, (Z.mod_small type), (Z.mod_small dpl) by lia. cbv zeta. rewrite split_base by done.
  f_equal. change (1 mod 2 =? 1) with true. cbn iota. do 2 f_equal. rewrite Z.mod_mod by lia.
  rewrite (Z.mod_small (lim / 2 ^ 28)) by (split; [apply Z.div_pos | apply Z.div_lt_upper_bound]; lia).
  pose proof (Z.div_mod (lim / 2 ^ 12) (2 ^ 16) ltac:(lia)) as E. rewrite Z.div_div in E by lia. change (2 ^ 12 * 2 ^ 16) with (2 ^ 28) in E. change (2 ^ 12) with 4096 in *. lia.
Qed.

Lemma decode_TSS base lim : 0 <= base < 2 ^ 32 -> 0 <= lim < 2 ^ 20 ->
  decode_seg (pack (segdesc_fields (with_s 0 (SEG16 STS_T32A base lim 0)))) = Segment base lim STS_T32A false 0 true.
Proof.
  intros Hb Hl. rewrite decode_segdesc. unfold SEG16, with_s. cbn [lim_15_0 base_15_0 base_23_16 sd_type sd_s sd_dpl sd_p lim_19_16 sd_g base_31_24].
  rewrite !u32_small, !low_half, low_byte, !Z.shiftr_div_pow2 by lia. cbv zeta. rewrite split_base by done.
  f_equal. change (0 mod 2 =? 1) with false. cbn iota. rewrite Z.mod_mod by lia.
  rewrite (Z.mod_small (lim / 2 ^ 16)) by (split; [apply Z.div_pos | apply Z.div_lt_upper_bound]; lia). pose proof (Z.div_mod lim (2 ^ 16) ltac:(lia)). lia.
Qed.

Lemma decode_SETGATE (t : bool) sel off d : 0 <= off < 2 ^ 32 -> 0 <= sel < 2 ^ 16 -> 0 <= d < 4 ->
  decode_gate (pack (gatedesc_fields (SETGATE t sel off d))) = Gate off sel (if t then STS_TG32 else STS_IG32) true d true.
Proof.
  intros Ho Hs Hd. rewrite decode_gatedesc. unfold SETGATE. cbn [off_15_0 gd_cs gd_type gd_s gd_dpl gd_p off_31_16].
  rewrite !u32_small, low_half, Z.shiftr_div_pow2, (Z.mod_small sel), (Z.mod_small d), Z.mod_mod by lia.
  rewrite (Z.mod_small (off / 2 ^ 16)) by (split; [apply Z.div_pos | apply Z.div_lt_upper_bound]; lia). pose proof (Z.div_mod off (2 ^ 16) ltac:(lia)).
  f_equal; [lia | by destruct t].
Qed.

(** ** Registers *)

Inductive reg := EAX | ECX | EDX | EBX | ESP | EBP | ESI | EDI.
Inductive sreg := CS | DS | ES | FS | GS | SS.
Record regs := Regs { eax : Z; ecx : Z; edx : Z; ebx : Z; esp : Z; ebp : Z; esi : Z; edi : Z }.
Record segs := Segs { cs : Z; ds : Z; es : Z; fs : Z; gs : Z; ss : Z }.

Definition get_reg (r : reg) (x : regs) : Z :=
  match r with EAX => eax x | ECX => ecx x | EDX => edx x | EBX => ebx x | ESP => esp x | EBP => ebp x | ESI => esi x | EDI => edi x end.
Definition set_reg (r : reg) (v : Z) (x : regs) : regs :=
  match r with
  | EAX => Regs v (ecx x) (edx x) (ebx x) (esp x) (ebp x) (esi x) (edi x)
  | ECX => Regs (eax x) v (edx x) (ebx x) (esp x) (ebp x) (esi x) (edi x)
  | EDX => Regs (eax x) (ecx x) v (ebx x) (esp x) (ebp x) (esi x) (edi x)
  | EBX => Regs (eax x) (ecx x) (edx x) v (esp x) (ebp x) (esi x) (edi x)
  | ESP => Regs (eax x) (ecx x) (edx x) (ebx x) v (ebp x) (esi x) (edi x)
  | EBP => Regs (eax x) (ecx x) (edx x) (ebx x) (esp x) v (esi x) (edi x)
  | ESI => Regs (eax x) (ecx x) (edx x) (ebx x) (esp x) (ebp x) v (edi x)
  | EDI => Regs (eax x) (ecx x) (edx x) (ebx x) (esp x) (ebp x) (esi x) v
  end.
Definition get_seg (g : sreg) (x : segs) : Z :=
  match g with CS => cs x | DS => ds x | ES => es x | FS => fs x | GS => gs x | SS => ss x end.
Definition set_seg (g : sreg) (v : Z) (x : segs) : segs :=
  match g with
  | CS => Segs v (ds x) (es x) (fs x) (gs x) (ss x)
  | DS => Segs (cs x) v (es x) (fs x) (gs x) (ss x)
  | ES => Segs (cs x) (ds x) v (fs x) (gs x) (ss x)
  | FS => Segs (cs x) (ds x) (es x) v (gs x) (ss x)
  | GS => Segs (cs x) (ds x) (es x) (fs x) v (ss x)
  | SS => Segs (cs x) (ds x) (es x) (fs x) (gs x) v
  end.

(** [gdtr] and [idtr] hold a base and a limit. *)
Record system := System { gdtr : Z * Z; idtr : Z * Z; tr : Z; cr0 : Z; cr3 : Z; cr4 : Z }.
Record machine := Machine { rg : regs; sg : segs; eip : Z; eflags : Z; sys : system; ram : mem }.

Definition set_rg (x : regs) (s : machine) : machine := Machine x (sg s) (eip s) (eflags s) (sys s) (ram s).
Definition set_sg (x : segs) (s : machine) : machine := Machine (rg s) x (eip s) (eflags s) (sys s) (ram s).
Definition set_eip (v : Z) (s : machine) : machine := Machine (rg s) (sg s) v (eflags s) (sys s) (ram s).
Definition set_eflags (v : Z) (s : machine) : machine := Machine (rg s) (sg s) (eip s) v (sys s) (ram s).
Definition set_sys (x : system) (s : machine) : machine := Machine (rg s) (sg s) (eip s) (eflags s) x (ram s).
Definition set_ram (m : mem) (s : machine) : machine := Machine (rg s) (sg s) (eip s) (eflags s) (sys s) m.

(** The privilege of a selector; that of [CS] is the current one. *)
Definition rpl (sel : Z) : Z := sel mod 4.
Definition cpl (s : machine) : Z := rpl (cs (sg s)).

(** ** The stack *)

Definition push (v : Z) (s : machine) : machine :=
  let sp := u32 (esp (rg s) - 4) in
  set_ram (store32 (ram s) sp v) (set_rg (set_reg ESP sp (rg s)) s).
Definition top (s : machine) : Z := load32 (ram s) (esp (rg s)).
Definition drop4 (s : machine) : machine := set_rg (set_reg ESP (u32 (esp (rg s) + 4)) (rg s)) s.

Definition pushes (l : list Z) (s : machine) : machine := foldl (fun s v => push v s) s l.

(** The words [l] in memory from [a] on. *)
Definition words (m : mem) (a : Z) (l : list Z) : Prop := forall k v, l !! k = Some v -> load32 m (a + 4 * Z.of_nat k) = v.
(** The memories agree outside [lo .. hi - 1]. *)
Definition same_outside (lo hi : Z) (m m' : mem) : Prop := forall x, x < lo \/ hi <= x -> m' x = m x.

(** The [n] bytes from [a] on and the [k] from [b] on do not meet. *)
Definition apart (a n b k : Z) : Prop := a + n <= b \/ b + k <= a.

Lemma words_app m a l l' : words m a (l ++ l') <-> words m a l /\ words m (a + 4 * Z.of_nat (length l)) l'.
Proof.
  split.
  - intros H. split; intros k v Hk.
    + apply H. by apply lookup_app_l_Some.
    + rewrite <- (H (length l + k)%nat v); [f_equal; lia|]. rewrite lookup_app_r by lia. by replace (length l + k - length l)%nat with k by lia.
  - intros [H1 H2] k v [Hk|[Hl Hk]]%lookup_app_Some; [by apply H1|]. rewrite <- (H2 _ _ Hk). f_equal. lia.
Qed.
Lemma words_same m m' a l : 0 <= a -> a + 4 * Z.of_nat (length l) <= 2 ^ 32 -> same_on a (4 * Z.of_nat (length l)) m m' -> words m a l -> words m' a l.
Proof.
  intros H0 H1 Hs H k v Hk. pose proof (lookup_lt_Some _ _ _ Hk). rewrite <- (H k v Hk). apply load32_ext; [lia | lia|].
  intros x Hx. apply Hs. lia.
Qed.

Lemma push_run v s : 4 <= esp (rg s) < 2 ^ 32 ->
  push v s = set_ram (store32 (ram s) (esp (rg s) - 4) v) (set_rg (set_reg ESP (esp (rg s) - 4) (rg s)) s).
Proof. intros H. unfold push. by rewrite u32_small by lia. Qed.

(** Pushing a list puts it on the stack, the last word on top, and changes
    nothing else. *)
Lemma pushes_run l s : 4 * Z.of_nat (length l) <= esp (rg s) < 2 ^ 32 -> exists m,
  pushes l s = set_ram m (set_rg (set_reg ESP (esp (rg s) - 4 * Z.of_nat (length l)) (rg s)) s) /\
  words m (esp (rg s) - 4 * Z.of_nat (length l)) (rev (u32 <$> l)) /\
  same_outside (esp (rg s) - 4 * Z.of_nat (length l)) (esp (rg s)) (ram s) m.
Proof.
  revert s. induction l as [|v l IH]; intros s Hs.
  - exists (ram s). split_and!; [|by intros k w | done]. cbn. rewrite Z.sub_0_r. by destruct s as [[] ? ? ? ? ?].
  - cbn [length] in Hs. change (pushes (v :: l) s) with (pushes l (push v s)). rewrite push_run by lia. set (s1 := set_ram _ _).
    assert (esp (rg s1) = esp (rg s) - 4) as E1 by reflexivity. destruct (IH s1) as (m & Em & Hw & Ho); [rewrite E1; lia|]. rewrite E1 in *. exists m.
    cbn [length]. rewrite Nat2Z.inj_succ. replace (esp (rg s) - 4 * Z.succ (Z.of_nat (length l))) with (esp (rg s) - 4 - 4 * Z.of_nat (length l)) by lia. split_and!.
    + rewrite Em. done.
    + cbn [fmap list_fmap rev]. apply words_app. split; [exact Hw|]. rewrite length_rev, length_fmap. intros k w Hk.
      apply list_lookup_singleton_Some in Hk as [-> <-]. replace (_ + 4 * Z.of_nat 0) with (esp (rg s) - 4) by lia.
      rewrite <- (load32_store32 (ram s) (esp (rg s) - 4) v) by lia. apply load32_ext; [lia | lia|]. intros x Hx. apply Ho. lia.
    + intros x Hx. rewrite Ho by lia. apply store32_other; lia.
Qed.

(** ** Instructions *)

Section instructions.
(** The flags that an addition or a logical operation leaves. *)
Context (alu : Z -> Z -> Z -> Z).

Inductive instr :=
| Pushl (r : reg) | PushI (v : Z) | PushSeg (g : sreg) | Pushal
| Popl (r : reg) | PopSeg (g : sreg) | Popal
| Load (off : Z) (b r : reg)
| Store (r b : reg)
| Mov (r d : reg)
| MovI (v : Z) (r : reg)
| MovAX (v : Z)
| MovSeg (g : sreg)
| AddI (v : Z) (r : reg)
| Ret | Iret
| Jmp (a : Z)
| Call (f : machine -> machine) (ra : Z).

(** [popal] skips the saved [esp]. *)
Definition popal (s : machine) : machine :=
  let w k := load32 (ram s) (u32 (esp (rg s) + 4 * k)) in
  set_rg (Regs (w 7) (w 6) (w 5) (w 4) (u32 (esp (rg s) + 32)) (w 2) (w 1) (w 0)) s.

(** [iret] also takes the stack pointer and segment when it returns to a
    less privileged level. *)
Definition iret (s : machine) : machine :=
  let w k := load32 (ram s) (u32 (esp (rg s) + 4 * k)) in
  let s' := set_eip (w 0) (set_eflags (w 2) (set_sg (set_seg CS (u16 (w 1)) (sg s)) s)) in
  if cpl s <? rpl (u16 (w 1)) then set_sg (set_seg SS (u16 (w 4)) (sg s')) (set_rg (set_reg ESP (w 3) (rg s)) s')
  else set_rg (set_reg ESP (u32 (esp (rg s) + 12)) (rg s)) s'.

(** A called function starts with its return address, which the caller
    gives, on the stack. *)
Definition exec (i : instr) (s : machine) : machine :=
  match i with
  | Pushl r => push (get_reg r (rg s)) s
  | PushI v => push v s
  | PushSeg g => push (get_seg g (sg s)) s
  | Pushal =>
      let x := rg s in
      push (edi x) (push (esi x) (push (ebp x) (push (esp x) (push (ebx x) (push (edx x) (push (ecx x) (push (eax x) s)))))))
  | Popl r => let v := top s in let s := drop4 s in set_rg (set_reg r v (rg s)) s
  | PopSeg g => set_sg (set_seg g (u16 (top s)) (sg s)) (drop4 s)
  | Popal => popal s
  | Load off b r => set_rg (set_reg r (load32 (ram s) (u32 (get_reg b (rg s) + off))) (rg s)) s
  | Store r b => set_ram (store32 (ram s) (get_reg b (rg s)) (get_reg r (rg s))) s
  | Mov r d => set_rg (set_reg d (get_reg r (rg s)) (rg s)) s
  | MovI v r => set_rg (set_reg r (u32 v) (rg s)) s
  | MovAX v => set_rg (set_reg EAX (eax (rg s) - eax (rg s) mod 2 ^ 16 + u16 v) (rg s)) s
  | MovSeg g => set_sg (set_seg g (u16 (eax (rg s))) (sg s)) s
  | AddI v r => set_eflags (alu (eflags s) (get_reg r (rg s)) v) (set_rg (set_reg r (u32 (get_reg r (rg s) + v)) (rg s)) s)
  | Ret => set_eip (top s) (drop4 s)
  | Iret => iret s
  | Jmp a => set_eip a s
  | Call f ra => f (push ra s)
  end.
Definition run (l : list instr) (s : machine) : machine := foldl (fun s i => exec i s) s l.

Lemma run_app l l' s : run (l ++ l') s = run l' (run l s).
Proof. apply foldl_app. Qed.
Lemma run_cons i l s : run (i :: l) s = run l (exec i s).
Proof. done. Qed.
End instructions.

(** ** Interrupts *)

Definition segment_at (s : machine) (sel : Z) : segment := decode_seg (load64 (ram s) ((gdtr (sys s)).1 + 8 * (sel / 8))).
Definition gate_at (s : machine) (n : Z) : gate := decode_gate (load64 (ram s) ((idtr (sys s)).1 + 8 * n)).

(** The offsets of [esp0] and [ss0] in [struct taskstate]. *)
Definition TS_ESP0 : Z := 4.
Definition TS_SS0 : Z := 8.
Definition TS_IOMB : Z := 102.
Definition TS_SIZE : Z := 104.

(** The stack for the new privilege level: that of the task state when the
    privilege rises, with the old stack pointer pushed on it. *)
Definition enter_stack (s : machine) : machine :=
  let ts := s_base (segment_at s (tr (sys s))) in
  let s' := set_sg (set_seg SS (u16 (load32 (ram s) (ts + TS_SS0))) (sg s))
              (set_rg (set_reg ESP (load32 (ram s) (ts + TS_ESP0)) (rg s)) s) in
  push (esp (rg s)) (push (ss (sg s)) s').

Definition new_flags (type f : Z) : Z :=
  let f := Z.land f (Z.lnot (Z.lor FL_TF (Z.lor FL_NT (Z.lor FL_RF FL_VM)))) in
  if type =? STS_IG32 then Z.land f (Z.lnot FL_IF) else f.

(** Delivery through the descriptor table of vector [n], with the error code
    that some exceptions push; [None] is a further fault. *)
Definition deliver (n : Z) (err : option Z) (s : machine) : option machine :=
  let g := gate_at s n in
  let c := segment_at s (g_sel g) in
  if ((idtr (sys s)).2 <? 8 * n + 7) || negb (g_present g) || negb (g_sys g) || negb ((g_type g =? STS_IG32) || (g_type g =? STS_TG32)) then None
  else if ((gdtr (sys s)).2 <? 8 * (g_sel g / 8) + 7) || negb (s_present c) || negb (s_app c) || negb (Z.testbit (s_type c) 3) || (cpl s <? s_dpl c) then None
  else
    let s1 := if s_dpl c <? cpl s then enter_stack s else s in
    let s2 := push (eip s) (push (cs (sg s)) (push (eflags s) s1)) in
    let s3 := match err with Some e => push e s2 | None => s2 end in
    Some (set_eip (g_off g) (set_sg (set_seg CS (g_sel g - rpl (g_sel g) + s_dpl c) (sg s3)) (set_eflags (new_flags (g_type g) (eflags s)) s3))).

(** [int n], a two-byte instruction: a program may only use the gates of its
    privilege, any other is a general protection fault (vector 13) with
    the return address at the instruction. *)
Definition int_n (n : Z) (s : machine) : option machine :=
  if g_dpl (gate_at s n) <? cpl s then deliver 13 (Some (8 * n + 2)) (set_eip (u32 (eip s - 2)) s)
  else deliver n None s.

(** ** Types: registers keep their widths, memory holds bytes *)

Definition bytes (m : mem) : Prop := forall a, is_byte (m a).
Record wf (s : machine) : Prop := {
  wf_regs : forall r, 0 <= get_reg r (rg s) < 2 ^ 32;
  wf_segs : forall g, 0 <= get_seg g (sg s) < 2 ^ 16;
  wf_eip : 0 <= eip s < 2 ^ 32;
  wf_eflags : 0 <= eflags s < 2 ^ 32;
  wf_ram : bytes (ram s)
}.

Lemma upd_bytes m a v : bytes m -> is_byte v -> bytes (upd m a v).
Proof. intros Hm Hv x. unfold upd. by destruct (x =? a). Qed.
Lemma store32_bytes m a v : bytes m -> bytes (store32 m a v).
Proof. intros Hm. unfold store32. repeat apply upd_bytes; try done; apply u8_range. Qed.
Lemma store_bytes_bytes m a l : bytes m -> Forall is_byte l -> bytes (store_bytes m a l).
Proof. intros Hm Hl. revert m a Hm. induction Hl as [|b l Hb _ IH]; intros m a Hm; [done|]. cbn. by apply IH, upd_bytes. Qed.
Lemma store64_bytes m a q : bytes m -> bytes (store64 m a q).
Proof. intros Hm. by apply store_bytes_bytes, le_bytes_is_byte. Qed.
Lemma load32_range m a : bytes m -> 0 <= load32 m a < 2 ^ 32.
Proof.
  intros Hm. unfold load32. pose proof (Hm a) as H0. pose proof (Hm (u32 (a + 1))) as H1. pose proof (Hm (u32 (a + 2))) as H2. pose proof (Hm (u32 (a + 3))) as H3.
  unfold is_byte in *. lia.
Qed.
Lemma load64_range m a : bytes m -> 0 <= load64 m a < 2 ^ 64.
Proof.
  intros Hm. unfold load64. assert (length (bytes_at m a 8) = 8%nat) as Hl by (unfold bytes_at; by rewrite length_fmap, length_seqZ).
  pose proof (le_word_range (bytes_at m a 8)) as H. rewrite Hl in H. apply H. unfold bytes_at. apply Forall_fmap, Forall_forall. intros x _. apply Hm.
Qed.
Lemma bits_range x i n : 0 <= n -> 0 <= bits x i n < 2 ^ n.
Proof. intros Hn. unfold bits. rewrite Z.land_ones by lia. apply Z.mod_pos_bound. lia. Qed.

Lemma set_reg_range r v x : 0 <= v < 2 ^ 32 -> (forall q, 0 <= get_reg q x < 2 ^ 32) -> forall q, 0 <= get_reg q (set_reg r v x) < 2 ^ 32.
Proof. intros Hv Hx q. pose proof (Hx q). destruct r, q; done. Qed.
Lemma set_seg_range g v x : 0 <= v < 2 ^ 16 -> (forall q, 0 <= get_seg q x < 2 ^ 16) -> forall q, 0 <= get_seg q (set_seg g v x) < 2 ^ 16.
Proof. intros Hv Hx q. pose proof (Hx q). destruct g, q; done. Qed.

Lemma set_reg_wf r v s : 0 <= v < 2 ^ 32 -> wf s -> wf (set_rg (set_reg r v (rg s)) s).
Proof. intros Hv [W1 W2 W3 W4 W5]. split; try done. by apply set_reg_range. Qed.
Lemma set_seg_wf g v s : 0 <= v < 2 ^ 16 -> wf s -> wf (set_sg (set_seg g v (sg s)) s).
Proof. intros Hv [W1 W2 W3 W4 W5]. split; try done. by apply set_seg_range. Qed.
Lemma set_eip_wf v s : 0 <= v < 2 ^ 32 -> wf s -> wf (set_eip v s).
Proof. by intros Hv [W1 W2 W3 W4 W5]. Qed.
Lemma set_eflags_wf v s : 0 <= v < 2 ^ 32 -> wf s -> wf (set_eflags v s).
Proof. by intros Hv [W1 W2 W3 W4 W5]. Qed.
Lemma set_ram_wf m s : bytes m -> wf s -> wf (set_ram m s).
Proof. by intros Hm [W1 W2 W3 W4 W5]. Qed.
Lemma push_wf v s : wf s -> wf (push v s).
Proof.
  intros Hs. unfold push. apply set_ram_wf; [by apply store32_bytes, Hs|]. apply set_reg_wf; [apply u32_range | done].
Qed.
Lemma top_range s : wf s -> 0 <= top s < 2 ^ 32.
Proof. intros Hs. by apply load32_range, Hs. Qed.
Lemma drop4_wf s : wf s -> wf (drop4 s).
Proof. intros Hs. apply set_reg_wf; [apply u32_range | done]. Qed.

(** An instruction of the code: a label is an address, and a function that is
    called keeps the types. *)
Definition instr_ok (i : instr) : Prop :=
  match i with Jmp a => 0 <= a < 2 ^ 32 | Call f _ => forall s, wf s -> wf (f s) | _ => True end.

Lemma popal_wf s : wf s -> wf (popal s).
Proof.
  intros Hs. destruct Hs as [W1 W2 W3 W4 W5]. split; try done. unfold popal. cbv zeta. cbn [rg set_rg].
  intros []; cbn [get_reg eax ecx edx ebx esp ebp esi edi]; (by apply load32_range) || apply u32_range.
Qed.
Lemma iret_wf s : wf s -> wf (iret s).
Proof.
  intros Hs. pose proof (fun a => load32_range (ram s) a (wf_ram s Hs)) as HL. unfold iret. cbv zeta. set (s' := set_eip _ _).
  assert (wf s') as Hs' by (apply set_eip_wf; [apply HL|]; apply set_eflags_wf; [apply HL|]; apply set_seg_wf; [apply u16_range | done]).
  destruct (_ <? _).
  - apply (set_seg_wf SS _ (set_rg (set_reg ESP _ (rg s)) s')); [apply u16_range|]. apply (set_reg_wf ESP _ s'); [apply HL | done].
  - apply (set_reg_wf ESP _ s'); [apply u32_range | done].
Qed.

Lemma exec_wf alu i s : (forall f a b, 0 <= alu f a b < 2 ^ 32) -> instr_ok i -> wf s -> wf (exec alu i s).
Proof.
  intros Ha Hi Hs. pose proof (top_range s Hs) as Ht. destruct i; cbn [exec].
  - by apply push_wf.
  - by apply push_wf.
  - by apply push_wf.
  - by repeat apply push_wf.
  - by apply (set_reg_wf r _ (drop4 s)), drop4_wf.
  - apply (set_seg_wf g _ (drop4 s)); [apply u16_range | by apply drop4_wf].
  - by apply popal_wf.
  - apply set_reg_wf; [by apply load32_range, Hs | done].
  - apply set_ram_wf; [by apply store32_bytes, Hs | done].
  - apply set_reg_wf; [by apply Hs | done].
  - apply set_reg_wf; [apply u32_range | done].
  - apply set_reg_wf; [|done]. pose proof (wf_regs s Hs EAX) as He. cbn [get_reg] in He. pose proof (u16_range v). pose proof (Z.div_mod (eax (rg s)) (2 ^ 16) ltac:(lia)). pose proof (Z.mod_pos_bound (eax (rg s)) (2 ^ 16) ltac:(lia)). lia.
  - apply set_seg_wf; [apply u16_range | done].
  - apply set_eflags_wf; [apply Ha|]. apply set_reg_wf; [apply u32_range | done].
  - by apply set_eip_wf, drop4_wf.
  - by apply iret_wf.
  - by apply set_eip_wf.
  - apply Hi. by apply push_wf.
Qed.
Lemma run_wf alu l s : (forall f a b, 0 <= alu f a b < 2 ^ 32) -> Forall instr_ok l -> wf s -> wf (run alu l s).
Proof. intros Ha Hl. revert s. induction Hl as [|i l Hi _ IH]; intros s Hs; [done|]. rewrite run_cons. by apply IH, exec_wf. Qed.
