(* ===== verification/Kalloc.v ===== *)
(** * The physical page allocator (kalloc.c)

    The free list threads through the free pages themselves: the first word
    of a free page is the address of the next one.  [kend] is the address of
    the linker symbol [end], the first address after the kernel image.  The
    spin lock makes each operation atomic. *)

From S2P Require Import Prelude CString Memory.
Import Kstring.

(** [km_mem] is the memory at kernel virtual addresses; [km_numberz] is the
    global [numberz] of sysfile.c, which [allocuvm] sets. *)
Record kmem := Kmem { km_mem : mem; km_use_lock : bool; km_freelist : Z; km_numberz : Z }.

Definition set_mem (s : kmem) (m : mem) : kmem := Kmem m (km_use_lock s) (km_freelist s) (km_numberz s).
Definition set_freelist (s : kmem) (r : Z) : kmem := Kmem (km_mem s) (km_use_lock s) r (km_numberz s).
Definition set_use_lock (s : kmem) (b : bool) : kmem := Kmem (km_mem s) b (km_freelist s) (km_numberz s).
Definition set_numberz (s : kmem) (n : Z) : kmem := Kmem (km_mem s) (km_use_lock s) (km_freelist s) n.

Section kalloc.
Context (kend : Z).

Definition kfree (v : Z) : M kmem unit :=
  if negb (v mod PGSIZE =? 0) || (v <? kend) || (PHYSTOP <=? V2P v) then panic "kfree" else
  modify (fun s => set_mem s (memset v 1 PGSIZE (km_mem s))) ;;;
  modify (fun s => set_mem s (store32 (km_mem s) v (km_freelist s))) ;;;
  modify (fun s => set_freelist s v).

Definition kalloc : M kmem Z :=
  let! r := gets km_freelist in
  when (negb (r =? 0)) (modify (fun s => set_freelist s (load32 (km_mem s) r))) ;;;
  ret r.

(** [for(; p + PGSIZE <= vend; p += PGSIZE) kfree(p);] *)
Fixpoint freerange_loop (fuel : nat) (p vend : Z) : M kmem unit :=
  match fuel with
  | O => undef "freerange: fuel"
  | S fuel' =>
      if u32 (p + PGSIZE) <=? vend then kfree p ;;; freerange_loop fuel' (u32 (p + PGSIZE)) vend
      else ret tt
  end.
Definition freerange (vstart vend : Z) : M kmem unit :=
  let p := PGROUNDUP vstart in
  freerange_loop (Z.to_nat ((vend - p) / PGSIZE + 2)) p vend.

Definition kinit1 (vstart vend : Z) : M kmem unit :=
  modify (fun s => set_use_lock s false) ;;; freerange vstart vend.
Definition kinit2 (vstart vend : Z) : M kmem unit :=
  freerange vstart vend ;;; modify (fun s => set_use_lock s true).

(** ** The free list *)

(** The pages the allocator manages. *)
Definition page_ok (v : Z) : Prop :=
  v mod PGSIZE = 0 /\ kend <= v < KERNBASE + PHYSTOP.

Fixpoint chain (m : mem) (p : Z) (l : list Z) : Prop :=
  match l with
  | [] => p = 0
  | x :: l' => p = x /\ chain m (load32 m x) l'
  end.

(** [l] is the free list, in order. *)
Record kinv (s : kmem) (l : list Z) : Prop := {
  ki_chain : chain (km_mem s) (km_freelist s) l;
  ki_nodup : NoDup l;
  ki_pages : Forall page_ok l;
}.

(** Only the [PGSIZE] bytes at [v] may differ. *)
Definition outside (v : Z) (m m' : mem) : Prop :=
  forall a, a < v \/ v + PGSIZE <= a -> m' a = m a.

Hypothesis Hend : KERNBASE < kend.

Lemma page_ok_bounds v : page_ok v -> KERNBASE < v /\ v + PGSIZE <= KERNBASE + PHYSTOP.
Proof.
  intros [Hm Hr]. split; [lia|]. unfold PGSIZE, KERNBASE, PHYSTOP in *.
  pose proof (Z.div_mod v 4096). lia.
Qed.

Lemma page_ok_guard v : page_ok v ->
  negb (v mod PGSIZE =? 0) || (v <? kend) || (PHYSTOP <=? V2P v) = false.
Proof.
  intros Hv. pose proof (page_ok_bounds v Hv) as Hb. destruct Hv as [Hm Hr]. rewrite Hm. unfold V2P.
  unfold KERNBASE, PHYSTOP, PGSIZE in *. rewrite u32_small by lia.
  destruct (Z.ltb_spec v kend), (Z.leb_spec 234881024 (v - 2147483648)); simpl; try lia; done.
Qed.

Lemma freechain_ext m m' p l : Forall page_ok l -> (forall v, v ∈ l -> same_on v PGSIZE m m') ->
  chain m p l -> chain m' p l.
Proof.
  revert p. induction l as [|x l IH]; intros p Hl Hs; cbn [chain]; [done|].
  apply Forall_cons in Hl as [Hx Hl]. intros [-> Hc]. split; [done|].
  pose proof (page_ok_bounds x Hx) as Hb. unfold PGSIZE, KERNBASE, PHYSTOP in *.
  rewrite (load32_ext m m' x) by (first [lia | intros a Ha; apply (Hs x); [left | lia]]).
  apply IH; [done | | done]. intros v Hv. apply Hs. by right.
Qed.

(** Writes outside the free pages leave the free list alone. *)
Lemma kinv_write s l m' : kinv s l -> (forall v, v ∈ l -> same_on v PGSIZE (km_mem s) m') ->
  kinv (set_mem s m') l.
Proof. intros [Hc Hn Hp] Hs. split; [|done|done]. by eapply freechain_ext. Qed.

Lemma kfree_spec s l v Q : kinv s l -> page_ok v -> v ∉ l ->
  (forall s', kinv s' (v :: l) -> outside v (km_mem s) (km_mem s') -> Q tt s') ->
  wp (kfree v) Q s.
Proof.
  intros [Hc Hn Hp] Hv Hvl HQ. unfold kfree. rewrite page_ok_guard by done. wp_steps.
  pose proof (page_ok_bounds v Hv) as Hb. unfold PGSIZE, KERNBASE, PHYSTOP in Hb.
  cbn [set_mem set_freelist km_mem km_freelist].
  set (m1 := memset v 1 PGSIZE (km_mem s)). set (m2 := store32 m1 v (km_freelist s)).
  assert (Ho : outside v (km_mem s) m2).
  { unfold m2, m1, outside, PGSIZE in *. intros a Ha. rewrite store32_other, memset_correct by lia.
    zb; simpl; try lia; done. }
  apply HQ; [|done]. split; cbn [set_mem set_freelist km_mem km_freelist]; [|by constructor | by constructor].
  split; [done|]. assert (load32 m2 v = u32 (km_freelist s)) as -> by (apply load32_store32; lia).
  assert (u32 (km_freelist s) = km_freelist s) as ->.
  { apply u32_small. destruct l as [|x l]; cbn [chain] in Hc; [lia|]. destruct Hc as [-> _].
    apply Forall_cons in Hp as [Hx _]. apply page_ok_bounds in Hx. unfold KERNBASE, PHYSTOP, PGSIZE in *. lia. }
  apply (freechain_ext (km_mem s)); [done | | done].
  intros x Hx a Ha. apply Ho. rewrite Forall_forall in Hp. specialize (Hp x Hx).
  destruct (mod_page_gap v x); [apply Hv | apply Hp | by intros -> | lia | lia].
Qed.

Lemma kalloc_spec s l Q : kinv s l ->
  (l = [] -> Q 0 s) ->
  (forall v l', l = v :: l' -> kinv (set_freelist s (load32 (km_mem s) v)) l' ->
     Q v (set_freelist s (load32 (km_mem s) v))) ->
  wp kalloc Q s.
Proof.
  intros [Hc Hn Hp] H0 H1. unfold kalloc. wp_steps.
  destruct l as [|v l]; cbn [chain] in Hc.
  - rewrite Hc, Z.eqb_refl. cbn [negb when]. wp_steps. by apply H0.
  - destruct Hc as [-> Hc]. apply NoDup_cons in Hn as [_ Hn]. apply Forall_cons in Hp as [Hv Hp].
    pose proof (page_ok_bounds v Hv) as Hb. unfold KERNBASE, PGSIZE, PHYSTOP in Hb.
    destruct (Z.eqb_spec v 0); [lia|]. cbn [negb when]. wp_steps. by apply (H1 v l).
Qed.

(** ** Who owns a page

    Clients of the allocator hold pages ([o]): they allocate, free a page they
    hold, and write into the pages they hold. *)
Inductive client_step : kmem * list Z -> kmem * list Z -> Prop :=
| cl_alloc s o v s' : kalloc s = Ret v s' -> v <> 0 -> client_step (s, o) (s', v :: o)
| cl_oom s o s' : kalloc s = Ret 0 s' -> client_step (s, o) (s', o)
| cl_free s o o' v s' : o ≡ₚ v :: o' -> kfree v s = Ret tt s' -> client_step (s, o) (s', o')
| cl_write s o v m' : v ∈ o -> outside v (km_mem s) m' -> client_step (s, o) (set_mem s m', o).

(** Free and held pages together are the pages [all], without repetition. *)
Definition owns (all : list Z) (x : kmem * list Z) : Prop :=
  exists l, kinv x.1 l /\ l ++ x.2 ≡ₚ all.

Lemma client_step_owns all x y : NoDup all -> Forall page_ok all ->
  owns all x -> client_step x y -> owns all y.
Proof.
  intros Hn Hp (l & Hk & Hall) Hst.
  assert (Hnd : NoDup (l ++ x.2)) by (by rewrite Hall).
  assert (Hpo : Forall page_ok (l ++ x.2)) by (by rewrite Hall).
  apply NoDup_app in Hnd as (_ & Hdis & Hno). apply Forall_app in Hpo as [_ Hpo].
  destruct Hst as [s o v s' E Hv | s o s' E | s o o' v s' Ho E | s o v m' Hv Hm]; cbn [fst snd] in *.
  - pose proof (kalloc_spec s l (fun r t => r = v -> exists l', kinv t l' /\ l = v :: l') Hk) as W.
    unfold wp in W. rewrite E in W. destruct W as (l' & Hk' & ->); [done | by intros ? l' -> ? ->; eauto | done|].
    exists l'. split; [done|]. rewrite <- Hall. symmetry. apply Permutation_middle.
  - pose proof (kalloc_spec s l (fun r t => r = 0 -> t = s) Hk) as W.
    unfold wp in W. rewrite E in W. rewrite W; [by exists l | done | | done].
    intros v l' -> Hk' ->. destruct Hk as [_ _ Hpg]. apply Forall_cons in Hpg as [Hv _].
    apply page_ok_bounds in Hv. unfold KERNBASE in Hv. lia.
  - rewrite Ho in Hpo. apply Forall_cons in Hpo as [Hv _].
    assert (Hvl : v ∉ l) by (intros Hin; apply (Hdis v Hin); rewrite Ho; left).
    pose proof (kfree_spec s l v (fun _ t => kinv t (v :: l)) Hk Hv Hvl) as W.
    unfold wp in W. rewrite E in W. exists (v :: l). split; [by apply W|].
    rewrite <- Hall, Ho. apply Permutation_middle.
  - exists l. split; [|done]. apply kinv_write; [done|]. intros w Hw a Ha. apply Hm.
    destruct Hk as [_ _ Hpg]. rewrite Forall_forall in Hpg, Hpo.
    destruct (mod_page_gap v w); [apply (Hpo v Hv) | apply (Hpg w Hw) | intros ->; by apply (Hdis w) | lia | lia].
Qed.

(** C17: however clients of the page allocator interleave allocations, frees of
    pages they hold and arbitrary writes into pages they hold, no page is ever
    handed to two holders, none is both free and held, and none is lost; and
    in every state so reached [kalloc] returns and freeing a held page does not
    panic. *)
Theorem page_ownership s l s' o' :
  kinv s l -> rtc client_step (s, []) (s', o') ->
  exists l', kinv s' l' /\ l' ++ o' ≡ₚ l /\ NoDup (l' ++ o') /\
    wp kalloc (fun v _ => v = hd 0 l') s' /\
    forall v, v ∈ o' -> wp (kfree v) (fun _ t => kinv t (v :: l')) s'.
Proof.
  intros Hk Hr. pose proof Hk as [_ Hn Hp].
  assert (owns l (s', o')) as (l' & Hk' & Hall).
  { remember (s', o') as y eqn:E. clear E. remember (s, []) as x eqn:E.
    assert (Hx : owns l x) by (subst; exists l; by rewrite app_nil_r). clear E.
    induction Hr as [|x y z Hxy Hyz IH]; [done|]. apply IH. by eapply client_step_owns. }
  cbn [fst snd] in *. assert (Hnd : NoDup (l' ++ o')) by (by rewrite Hall).
  exists l'. split_and!; [done | done | done | |].
  - apply (kalloc_spec s' l'); [done | by intros -> | by intros ? ? ->].
  - intros v Hv. apply (kfree_spec s' l'); [done | | | done].
    + rewrite Forall_forall in Hp. apply Hp. rewrite <- Hall. apply elem_of_app. by right.
    + intros Hin. apply NoDup_app in Hnd as (_ & Hd & _). by apply (Hd v).
Qed.

(** ** Initialisation *)

(** Only bytes of these pages may differ. *)
Definition outside_all (l : list Z) (m m' : mem) : Prop := forall a, (forall v, v ∈ l -> a < v \/ v + PGSIZE <= a) -> m' a = m a.

(** The page addresses [p], [p + PGSIZE], ..., [n] of them. *)
Definition pages_from (p : Z) (n : nat) : list Z := (fun i => p + i * PGSIZE) <$> seqZ 0 (Z.of_nat n).

Lemma pages_from_S p n : pages_from p (S n) = p :: pages_from (p + PGSIZE) n.
Proof.
  unfold pages_from. rewrite seqZ_cons by lia. rewrite fmap_cons. f_equal; [lia|].
  replace (Z.pred (Z.of_nat (S n))) with (Z.of_nat n) by lia.
  rewrite <- (fmap_add_seqZ 1 0), <- list_fmap_compose. apply list_fmap_ext. intros i x _. cbn. lia.
Qed.

Lemma elem_of_pages_from v p n : v ∈ pages_from p n <-> exists i, 0 <= i < Z.of_nat n /\ v = p + i * PGSIZE.
Proof. unfold pages_from. rewrite list_elem_of_fmap. setoid_rewrite elem_of_seqZ. naive_solver lia. Qed.

Lemma freerange_loop_spec fuel p vend s l n Q :
  kinv s l -> p mod PGSIZE = 0 -> kend <= p -> vend <= KERNBASE + PHYSTOP ->
  p + Z.of_nat n * PGSIZE <= vend < p + (Z.of_nat n + 1) * PGSIZE -> (n < fuel)%nat ->
  (forall v, v ∈ pages_from p n -> v ∉ l) ->
  (forall s', kinv s' (rev (pages_from p n) ++ l) -> outside_all (pages_from p n) (km_mem s) (km_mem s') -> Q tt s') ->
  wp (freerange_loop fuel p vend) Q s.
Proof.
  revert n p s l. induction fuel as [|fuel IH]; intros n p s l Hk Hm Hp Hv Hn Hf Hd HQ; [lia|].
  cbn [freerange_loop]. pose proof Hend as Hend'. unfold KERNBASE, PHYSTOP, PGSIZE in Hv, Hn, Hm, Hend' |- *.
  rewrite u32_small by lia. destruct n as [|n].
  { destruct (Z.leb_spec (p + 4096) vend); [lia|]. wp_steps. by apply HQ. }
  destruct (Z.leb_spec (p + 4096) vend); [|lia]. rewrite pages_from_S in Hd, HQ. wp_steps.
  apply (kfree_spec s l); [done | | apply Hd; left |].
  { split; [done|]. unfold KERNBASE, PHYSTOP. lia. }
  intros s' Hk' Ho. apply (IH n (p + 4096) s' (p :: l)); [done | | lia | done | | lia | |].
  - unfold PGSIZE in *. by rewrite Z.add_mod, Hm by lia.
  - unfold PGSIZE. lia.
  - intros v Hin. apply not_elem_of_cons. split; [|apply Hd; by right].
    apply elem_of_pages_from in Hin as (i & ? & ->). unfold PGSIZE. lia.
  - intros t Ht Hot. apply HQ; [cbn [rev]; by rewrite <- app_assoc|]. intros a Ha.
    rewrite Hot by (intros w Hw; apply Ha; by right). apply Ho, Ha. left.
Qed.

Definition npages (vstart vend : Z) : nat := Z.to_nat ((vend - PGROUNDUP vstart) / PGSIZE).

Lemma freerange_spec vstart vend s l Q :
  kinv s l -> kend <= vstart -> PGROUNDUP vstart <= vend <= KERNBASE + PHYSTOP -> vstart + PGSIZE <= 2 ^ 32 ->
  (forall v, v ∈ pages_from (PGROUNDUP vstart) (npages vstart vend) -> v ∉ l) ->
  (forall s', kinv s' (rev (pages_from (PGROUNDUP vstart) (npages vstart vend)) ++ l) ->
     outside_all (pages_from (PGROUNDUP vstart) (npages vstart vend)) (km_mem s) (km_mem s') -> Q tt s') ->
  wp (freerange vstart vend) Q s.
Proof.
  intros Hk Hs He Hw Hd HQ. destruct (PGROUNDUP_spec vstart) as [Hr Hm]; [unfold KERNBASE in *; lia | done|].
  unfold freerange. set (p := PGROUNDUP vstart) in *.
  apply (freerange_loop_spec _ _ _ _ _ (npages vstart vend) _ Hk Hm); try done; unfold npages; fold p;
    unfold PGSIZE, KERNBASE, PHYSTOP in *;
    pose proof (Z.div_mod (vend - p) 4096 ltac:(lia)); pose proof (Z.mod_pos_bound (vend - p) 4096 ltac:(lia));
    pose proof (Z.div_pos (vend - p) 4096 ltac:(lia) ltac:(lia)); lia.
Qed.

Lemma elem_of_range vstart vend v : KERNBASE <= vstart -> vstart + PGSIZE <= 2 ^ 32 ->
  v ∈ pages_from (PGROUNDUP vstart) (npages vstart vend) <-> v mod PGSIZE = 0 /\ vstart <= v /\ v + PGSIZE <= vend.
Proof.
  intros Hs Hw. rewrite elem_of_pages_from. destruct (PGROUNDUP_spec vstart) as [Hr Hm]; [unfold KERNBASE in *; lia | done|].
  unfold npages. set (p := PGROUNDUP vstart) in *. unfold PGSIZE in *.
  pose proof (Z.div_mod (vend - p) 4096 ltac:(lia)). pose proof (Z.mod_pos_bound (vend - p) 4096 ltac:(lia)). split.
  - intros (i & Hi & ->). split_and!; [|lia|lia]. by rewrite Z_mod_plus_full.
  - intros (Hv & ? & ?). exists ((v - p) / 4096). pose proof (Z.div_mod p 4096). pose proof (Z.div_mod v 4096).
    pose proof (Z.div_mod (v - p) 4096 ltac:(lia)). pose proof (Z.mod_pos_bound (v - p) 4096 ltac:(lia)).
    assert ((v - p) mod 4096 = 0) by (by rewrite Zminus_mod, Hv, Hm). lia.
Qed.

(** after [kinit1] the free list holds exactly the whole pages between
    [vstart] and [vend], each once, and nothing else. *)
Theorem kinit1_frees vstart vend s :
  km_freelist s = 0 -> kend <= vstart <= vend -> PGROUNDUP vstart <= vend <= KERNBASE + PHYSTOP ->
  wp (kinit1 vstart vend) (fun _ s' => exists l, kinv s' l /\
      forall v, v ∈ l <-> v mod PGSIZE = 0 /\ vstart <= v /\ v + PGSIZE <= vend) s.
Proof.
  intros Hf [Hs Hse] He. unfold kinit1. wp_steps.
  assert (Hk : kinv (set_use_lock s false) []) by (split; [done | constructor | constructor]).
  assert (Hw : vstart + PGSIZE <= 2 ^ 32) by (unfold PGSIZE, KERNBASE, PHYSTOP in *; lia).
  apply (freerange_spec _ _ _ _ _ Hk Hs He Hw); [by intros; apply not_elem_of_nil|].
  intros s' Hk' _. eexists. split; [done|]. intros v. rewrite app_nil_r, list_elem_of_In, <- in_rev, <- list_elem_of_In. apply elem_of_range; lia.
Qed.
End kalloc.

(** ** Concrete runs *)

Definition ex_end : Z := 0x80104000.
(** One free page, at [0x80200000]. *)
Definition ex_kmem : kmem := Kmem (fun _ => 0) true 0x80200000 0.

Lemma ex_kmem_inv : kinv ex_end ex_kmem [0x80200000].
Proof.
  split; [done | apply NoDup_singleton |]. constructor; [|constructor].
  split; [done|]. unfold ex_end, KERNBASE, PHYSTOP. lia.
Qed.

Lemma page_ownership_witness :
  exists l', kinv ex_end (set_freelist ex_kmem 0) l' /\ l' ++ [0x80200000] ≡ₚ [0x80200000].
Proof.
  destruct (page_ownership ex_end ltac:(done) ex_kmem [0x80200000] (set_freelist ex_kmem 0) [0x80200000]
              ex_kmem_inv) as (l' & Hk & Hp & _).
  - apply rtc_once. apply (cl_alloc ex_end ex_kmem [] 0x80200000); [reflexivity | done].
  - by exists l'.
Defined.

Lemma kinit1_frees_witness :
  wp (kinit1 ex_end 0x80104800 0x80106000)
    (fun _ s' => exists l, kinv ex_end s' l /\
      forall v, v ∈ l <-> v mod PGSIZE = 0 /\ 0x80104800 <= v /\ v + PGSIZE <= 0x80106000)
    (set_freelist ex_kmem 0).
Proof.
  apply (kinit1_frees ex_end ltac:(done)); [done | unfold ex_end; lia |].
  split; [|unfold KERNBASE, PHYSTOP; lia]. vm_compute. done.
Defined.
