(* ===== verification/Mp.v ===== *)
(** * Finding the processors: mp.c

    The search of the firmware's memory for the MP floating pointer, the checks
    of the configuration table and the loop over its entries; and [cpunum] of
    lapic.c, which looks a processor up in the table found.  Memory is a function
    from virtual addresses to bytes, as the kernel maps it. *)

From S2P Require Import Prelude CString Memory Kalloc.

Definition NCPU : nat := 8.
Definition MPPROC : Z := 0.
Definition MPBUS : Z := 1.
Definition MPIOAPIC : Z := 2.
Definition MPIOINTR : Z := 3.
Definition MPLINTR : Z := 4.

(** Sizes of the structures of mp.h. *)
Definition MP_SIZE : Z := 16.
Definition MPCONF_SIZE : Z := 44.
Definition MPPROC_SIZE : Z := 20.
Definition MPIOAPIC_SIZE : Z := 8.

(** The variables that [mpinit] sets, and the bytes it writes to ports. *)
Record mpstate := Mpstate {
  cpus : list Z;
  ismp : bool;
  ncpu : nat;
  ioapicid : Z;
  lapic : Z;
  ports : list (Z * Z)
}.

Definition load16 (m : mem) (a : Z) : Z := m a + 256 * m (u32 (a + 1)).

Definition sum (m : mem) (addr : Z) (len : nat) : Z := u8 (foldr Z.add 0 (bytes_at m addr len)).

Definition sig_mp : list Z := [95; 77; 80; 95].
Definition sig_pcmp : list Z := [80; 67; 77; 80].

(** [for(p = addr; p < e; p += sizeof(struct mp))] *)
Fixpoint mpsearch_loop (fuel : nat) (m : mem) (p e : Z) : option Z :=
  match fuel with
  | O => None
  | S fuel =>
      if p <? e then
        if bool_decide (bytes_at m p 4 = sig_mp) && (sum m p 16 =? 0) then Some p
        else mpsearch_loop fuel m (u32 (p + MP_SIZE)) e
      else None
  end.
(** The range has [len / 16] places to look at. *)
Definition mpsearch1 (m : mem) (a len : Z) : option Z :=
  let addr := P2V a in
  mpsearch_loop (S (Z.to_nat (len / MP_SIZE))) m addr (u32 (addr + len)).

Definition mpsearch (m : mem) : option Z :=
  let bda := P2V 0x400 in
  let p := u32 (Z.shiftl (Z.lor (Z.shiftl (m (bda + 0x0f)) 8) (m (bda + 0x0e))) 4) in
  let rom := mpsearch1 m 0xf0000 0x10000 in
  if negb (p =? 0) then
    match mpsearch1 m p 1024 with Some mp => Some mp | None => rom end
  else
    let p := u32 (Z.lor (Z.shiftl (m (bda + 0x14)) 8) (m (bda + 0x13)) * 1024) in
    match mpsearch1 m (u32 (p - 1024)) 1024 with Some mp => Some mp | None => rom end.

(** [mp] and [conf]. *)
Definition mpconfig (m : mem) : option (Z * Z) :=
  match mpsearch m with
  | None => None
  | Some mp =>
      let physaddr := load32 m (u32 (mp + 4)) in
      if physaddr =? 0 then None
      else
        let conf := P2V physaddr in
        let version := m (u32 (conf + 6)) in
        if negb (bool_decide (bytes_at m conf 4 = sig_pcmp)) then None
        else if negb (version =? 1) && negb (version =? 4) then None
        else if negb (sum m conf (Z.to_nat (load16 m (u32 (conf + 4)))) =? 0) then None
        else Some (mp, conf)
  end.

(** The loop over the entries from [p] to [e].  [break] in the last case leaves
    the [switch] and not the loop, and [p] stays where it is.  [None]: not
    finished after [fuel] rounds. *)
Fixpoint mp_entries (fuel : nat) (m : mem) (p e : Z) (s : mpstate) : option mpstate :=
  match fuel with
  | O => None
  | S fuel =>
      if negb (p <? e) then Some s
      else
        let ty := m p in
        if ty =? MPPROC then
          let s := if (ncpu s <? NCPU)%nat
                   then Mpstate (<[ncpu s := m (u32 (p + 1))]> (cpus s)) (ismp s) (S (ncpu s)) (ioapicid s) (lapic s) (ports s)
                   else s in
          mp_entries fuel m (u32 (p + MPPROC_SIZE)) e s
        else if ty =? MPIOAPIC then
          mp_entries fuel m (u32 (p + MPIOAPIC_SIZE)) e (Mpstate (cpus s) (ismp s) (ncpu s) (m (u32 (p + 1))) (lapic s) (ports s))
        else if (ty =? MPBUS) || (ty =? MPIOINTR) || (ty =? MPLINTR) then mp_entries fuel m (u32 (p + 8)) e s
        else mp_entries fuel m p e (Mpstate (cpus s) false (ncpu s) (ioapicid s) (lapic s) (ports s))
  end.

(** [imcr]: what the port 0x23 reads. *)
Definition mpinit (fuel : nat) (m : mem) (imcr : Z) (s : mpstate) : option mpstate :=
  match mpconfig m with
  | None => Some s
  | Some (mp, conf) =>
      let s := Mpstate (cpus s) true (ncpu s) (ioapicid s) (load32 m (u32 (conf + 36))) (ports s) in
      match mp_entries fuel m (u32 (conf + MPCONF_SIZE)) (u32 (conf + load16 m (u32 (conf + 4)))) s with
      | None => None
      | Some s =>
          if negb (ismp s) then Some (Mpstate (cpus s) (ismp s) 1 0 0 (ports s))
          else if negb (m (u32 (mp + 12)) =? 0) then
            Some (Mpstate (cpus s) (ismp s) (ncpu s) (ioapicid s) (lapic s) (ports s ++ [(0x22, 0x70); (0x23, Z.lor imcr 1)]))
          else Some s
      end
  end.

(** [cpunum] of lapic.c, from the APIC identifier of the processor it runs on. *)
Fixpoint cpu_index (l : list Z) (apicid : Z) (i : nat) : option nat :=
  match l with
  | [] => None
  | c :: l => if c =? apicid then Some i else cpu_index l apicid (S i)
  end.
Definition cpunum (id : Z) : M mpstate Z := fun s =>
  if lapic s =? 0 then Ret 0 s
  else match cpu_index (take (ncpu s) (cpus s)) (Z.shiftr id 24) 0 with
       | Some i => Ret (Z.of_nat i) s
       | None => Panic "unknown apicid"
       end.

(** ** The table as a list of entries *)

Inductive entry :=
| EProc (apicid : Z)
| EIoapic (apicno : Z)
| EOther (ty : Z).

Definition entry_size (x : entry) : Z := match x with EProc _ => MPPROC_SIZE | _ => 8 end.
Definition entry_at (m : mem) (p : Z) (x : entry) : Prop :=
  match x with
  | EProc id => m p = MPPROC /\ m (p + 1) = id
  | EIoapic no => m p = MPIOAPIC /\ m (p + 1) = no
  | EOther ty => m p = ty /\ (ty = MPBUS \/ ty = MPIOINTR \/ ty = MPLINTR)
  end.
(** The entries from [p] on; the last one ends at [e] or after it. *)
Fixpoint table (m : mem) (p e : Z) (l : list entry) : Prop :=
  match l with
  | [] => e <= p
  | x :: l => p < e /\ entry_at m p x /\ table m (p + entry_size x) e l
  end.

Fixpoint procs (l : list entry) : list Z :=
  match l with [] => [] | EProc id :: l => id :: procs l | _ :: l => procs l end.
Fixpoint last_ioapic (l : list entry) (d : Z) : Z :=
  match l with [] => d | EIoapic no :: l => last_ioapic l no | _ :: l => last_ioapic l d end.

(** The entries from [p] to [q]. *)
Fixpoint prefix_to (m : mem) (p q : Z) (l : list entry) : Prop :=
  match l with
  | [] => q = p
  | x :: l => entry_at m p x /\ prefix_to m (p + entry_size x) q l
  end.

Definition mp_ok (s : mpstate) : Prop := length (cpus s) = NCPU /\ (ncpu s <= NCPU)%nat.

(** What the loop does to the variables for the entries [l]. *)
Definition scanned (l : list entry) (s s' : mpstate) : Prop :=
  mp_ok s' /\ ismp s' = ismp s /\ lapic s' = lapic s /\ ports s' = ports s /\ ioapicid s' = last_ioapic l (ioapicid s) /\
  take (ncpu s') (cpus s') = take NCPU (take (ncpu s) (cpus s) ++ procs l) /\ ncpu s' = ((ncpu s + length (procs l)) `min` NCPU)%nat.

Lemma scanned_nil s : mp_ok s -> scanned [] s s.
Proof.
  intros [Hl Hn]. unfold scanned. split; [done|]. do 4 (split; [done|]). cbn [procs length]. rewrite app_nil_r, take_take, Nat.min_r by lia. split; [done|lia].
Qed.

(** The effect of one entry. *)
Definition add_entry (x : entry) (s : mpstate) : mpstate :=
  match x with
  | EProc id => if (ncpu s <? NCPU)%nat then Mpstate (<[ncpu s := id]> (cpus s)) (ismp s) (S (ncpu s)) (ioapicid s) (lapic s) (ports s) else s
  | EIoapic no => Mpstate (cpus s) (ismp s) (ncpu s) no (lapic s) (ports s)
  | EOther _ => s
  end.

Lemma scanned_cons x l s s' : mp_ok s -> scanned l (add_entry x s) s' -> scanned (x :: l) s s'.
Proof.
  intros [Hl Hn]. destruct x as [id|no|ty]; cbn [add_entry]; [|done..].
  destruct (Nat.ltb_spec (ncpu s) NCPU) as [Hlt|Hge]; intros (H1 & H2 & H3 & H4 & H5 & H6 & H7); cbn [cpus ismp ncpu ioapicid lapic ports] in *;
    repeat split; try done; cbn [procs length]; try apply H1; try lia.
  - rewrite H6. f_equal. rewrite (take_S_r _ _ id) by (apply list_lookup_insert_eq; lia). rewrite take_insert_ge by lia.
    by rewrite <- app_assoc.
  - rewrite H6. assert (ncpu s = NCPU) as -> by lia. rewrite !take_app_le by (rewrite length_take; lia). done.
Qed.

Lemma mp_ok_add x s : mp_ok s -> mp_ok (add_entry x s).
Proof.
  intros [Hl Hn]. destruct x as [id|no|ty]; cbn [add_entry]; [|done..]. destruct (Nat.ltb_spec (ncpu s) NCPU); [|done]. split; cbn; [by rewrite length_insert|lia].
Qed.

Lemma entry_size_pos x : 0 < entry_size x <= 20.
Proof. destruct x; cbn; unfold MPPROC_SIZE; lia. Qed.

(** One round of the loop. *)
Lemma mp_entries_cons fuel m p e x s : 0 <= p -> p < e -> e + 20 <= 2 ^ 32 -> entry_at m p x ->
  mp_entries (S fuel) m p e s = mp_entries fuel m (p + entry_size x) e (add_entry x s).
Proof.
  intros Hp He Hb Hx. cbn [mp_entries]. replace (p <? e) with true by lia. cbn [negb].
  destruct x as [id|no|ty]; cbn [entry_at entry_size add_entry] in *; unfold MPPROC_SIZE, MPIOAPIC_SIZE.
  - destruct Hx as [-> <-]. cbn [Z.eqb MPPROC]. rewrite !u32_small by lia. done.
  - destruct Hx as [-> <-]. change (MPIOAPIC =? MPPROC) with false. change (MPIOAPIC =? MPIOAPIC) with true. cbn iota. rewrite !u32_small by lia. done.
  - destruct Hx as [-> Ht]. destruct Ht as [-> |[-> | ->]]; cbn; rewrite !u32_small by lia; done.
Qed.

Lemma mp_entries_ok l : forall fuel m p e s, 0 <= p -> e + 20 <= 2 ^ 32 -> table m p e l -> (length l < fuel)%nat -> mp_ok s ->
  exists s', mp_entries fuel m p e s = Some s' /\ scanned l s s'.
Proof.
  induction l as [|x l IH]; intros [|fuel] m p e s Hp He Ht Hf Hs; cbn [length] in Hf; try lia.
  - cbn in Ht. exists s. split; [|by apply scanned_nil]. cbn [mp_entries]. by replace (p <? e) with false by lia.
  - destruct Ht as (Hlt & Hx & Ht). rewrite (mp_entries_cons _ _ _ _ x) by done. pose proof (entry_size_pos x).
    destruct (IH fuel m (p + entry_size x) e (add_entry x s)) as (s' & E & Hs'); [lia|lia|done|lia|by apply mp_ok_add|].
    exists s'. split; [done|]. by apply scanned_cons.
Qed.

(** Whatever the table holds, the array of processors is respected. *)
Lemma mp_entries_bounds fuel : forall m p e s s', mp_ok s -> mp_entries fuel m p e s = Some s' -> mp_ok s'.
Proof.
  induction fuel as [|fuel IH]; intros m p e s s' Hs E; [done|]. cbn [mp_entries] in E. destruct (negb _); [by injection E as <-|].
  destruct (_ =? MPPROC); [|destruct (_ =? MPIOAPIC); [|destruct (_ || _)]]; (eapply IH; [|exact E]); try done.
  exact (mp_ok_add (EProc (m (u32 (p + 1)))) s Hs).
Qed.
Lemma mpinit_bounds fuel m imcr s s' : mp_ok s -> mpinit fuel m imcr s = Some s' -> mp_ok s'.
Proof.
  intros Hs E. unfold mpinit in E. destruct (mpconfig m) as [[mp conf]|]; [|by injection E as <-].
  destruct (mp_entries _ _ _ _ _) as [s1|] eqn:E1; [|done]. assert (mp_ok s1) as [H1 H2] by (eapply mp_entries_bounds; [|exact E1]; exact Hs).
  destruct (negb (ismp s1)); [injection E as <-; split; [done|cbn; unfold NCPU; lia]|]. by destruct (negb _); injection E as <-.
Qed.

Lemma mp_entries_stuck fuel m p e s : p < e -> 4 < m p -> mp_entries fuel m p e s = None.
Proof.
  intros Hp Hm. revert s. induction fuel as [|fuel IH]; intros s; [done|]. cbn [mp_entries]. replace (p <? e) with true by lia. cbn [negb].
  unfold MPPROC, MPIOAPIC, MPBUS, MPIOINTR, MPLINTR. replace (m p =? 0) with false by lia. replace (m p =? 2) with false by lia.
  replace (m p =? 1) with false by lia. replace (m p =? 3) with false by lia. replace (m p =? 4) with false by lia. apply IH.
Qed.
Lemma mp_entries_hangs l : forall fuel m p q e s, 0 <= p -> e + 20 <= 2 ^ 32 -> prefix_to m p q l -> q < e -> 4 < m q ->
  mp_entries fuel m p e s = None.
Proof.
  induction l as [|x l IH]; intros fuel m p q e s Hp He Ht Hq Hm.
  - cbn in Ht. subst q. by apply mp_entries_stuck.
  - destruct Ht as [Hx Ht]. pose proof (entry_size_pos x). destruct fuel as [|fuel]; [done|].
    assert (Hle : forall l p, prefix_to m p q l -> p <= q).
    { clear. induction l as [|x l IH]; intros p; cbn; [lia|]. intros [_ H]. pose proof (entry_size_pos x). apply IH in H. lia. }
    specialize (Hle _ _ Ht). rewrite (mp_entries_cons _ _ _ _ x) by (done || lia). by apply (IH fuel m _ q); [lia|..].
Qed.

Lemma cpu_index_nth l i id : NoDup l -> l !! i = Some id -> forall k, cpu_index l id k = Some (k + i)%nat.
Proof.
  revert i. induction l as [|c l IH]; intros i Hn Hi k; [done|]. apply NoDup_cons in Hn as [Hc Hn]. cbn. destruct i as [|i]; cbn in Hi.
  - injection Hi as ->. rewrite Z.eqb_refl. f_equal. lia.
  - destruct (Z.eqb_spec c id) as [->|]; [by apply list_elem_of_lookup_2 in Hi|]. rewrite (IH i) by done. f_equal. lia.
Qed.

(** ** The theorems *)

(** C37: the processors are found.  If the configuration table that [mpconfig]
    accepts consists of entries of the known types, the loop of [mpinit] ends
    after one round per entry; then [ismp] is set, [cpus] lists the APIC
    identifiers of the processor entries in order, the first [NCPU] of them,
    [ioapicid] is that of the last I/O APIC entry, and [cpunum] maps each
    processor of the list to its index. *)
Theorem mpinit_correct m imcr s mp conf l fuel (len := load16 m (u32 (conf + 4))) : mpconfig m = Some (mp, conf) ->
  0 <= conf -> conf + MPCONF_SIZE < 2 ^ 32 -> 0 <= len -> conf + len + 20 <= 2 ^ 32 -> table m (conf + MPCONF_SIZE) (conf + len) l -> (length l < fuel)%nat ->
  length (cpus s) = NCPU -> ncpu s = 0%nat -> exists s', mpinit fuel m imcr s = Some s' /\
  ismp s' = true /\ lapic s' = load32 m (u32 (conf + 36)) /\ ncpu s' = (length (procs l) `min` NCPU)%nat /\
  take (ncpu s') (cpus s') = take NCPU (procs l) /\ ioapicid s' = last_ioapic l (ioapicid s) /\
  (lapic s' <> 0 -> NoDup (procs l) -> forall i id, procs l !! i = Some id -> (i < NCPU)%nat -> cpunum (Z.shiftl id 24) s' = Ret (Z.of_nat i) s').
Proof.
  intros Hc H0 H1 H2 H3 Ht Hf Hl Hn. unfold mpinit. rewrite Hc. fold len.
  rewrite (u32_small (conf + MPCONF_SIZE)), (u32_small (conf + len)) by (unfold MPCONF_SIZE in *; lia).
  set (s1 := Mpstate _ true _ _ _ _).
  destruct (mp_entries_ok l fuel m (conf + MPCONF_SIZE) (conf + len) s1) as (s2 & E & _ & K1 & K2 & _ & K4 & K5 & K6);
    [unfold MPCONF_SIZE; lia|lia|done|done|split; cbn; lia|]. cbn [s1 ncpu cpus ismp lapic ports ioapicid] in *. rewrite Hn in *.
  rewrite E, K1. cbn [negb take app Nat.add] in *.
  assert (Hcpu : forall ps b, let s' := Mpstate (cpus s2) b (ncpu s2) (ioapicid s2) (lapic s2) ps in lapic s' <> 0 -> NoDup (procs l) ->
    forall i id, procs l !! i = Some id -> (i < NCPU)%nat -> cpunum (Z.shiftl id 24) s' = Ret (Z.of_nat i) s').
  { intros ps b s' Hlap Hnd i id Hi Hlt. unfold cpunum. rewrite (proj2 (Z.eqb_neq _ _) Hlap). cbn [s' cpus ncpu]. rewrite K5.
    rewrite Z.shiftr_shiftl_l by lia. rewrite Z.shiftl_0_r.
    assert (Hn2 : NoDup (take NCPU (procs l))) by (rewrite <- (take_drop NCPU (procs l)) in Hnd; by apply NoDup_app in Hnd as [? _]).
    rewrite (cpu_index_nth _ i) by (done || by rewrite lookup_take_lt). done. }
  destruct (negb _); eexists; (split; [reflexivity|]); cbn [ncpu cpus ismp lapic ports ioapicid]; (repeat split; try done).
  - apply Hcpu.
  - specialize (Hcpu (ports s2) (ismp s2)). destruct s2. exact Hcpu.
Qed.

(** a table with an entry of an unknown type hangs the kernel.  The code
    means to fall back to one processor, but [break] leaves the [switch] only:
    the loop of [mpinit] looks at the same entry for ever, whatever precedes it. *)
Theorem mpinit_hangs m imcr s mp conf l q fuel (len := load16 m (u32 (conf + 4))) : mpconfig m = Some (mp, conf) ->
  0 <= conf -> conf + MPCONF_SIZE < 2 ^ 32 -> 0 <= len -> conf + len + 20 <= 2 ^ 32 -> prefix_to m (conf + MPCONF_SIZE) q l -> q < conf + len -> 4 < m q ->
  mpinit fuel m imcr s = None.
Proof.
  intros Hc H0 H1 H2 H3 Ht Hq Hm. unfold mpinit. rewrite Hc. fold len.
  rewrite (u32_small (conf + MPCONF_SIZE)), (u32_small (conf + len)) by (unfold MPCONF_SIZE in *; lia).
  rewrite (mp_entries_hangs l fuel m _ q); [done|unfold MPCONF_SIZE; lia|lia|done|done|done].
Qed.

(** Firmware tables: two processors and an I/O APIC; a processor and an entry of
    type 9. *)
Definition mp_bytes : list Z := [95; 77; 80; 95; 16; 240; 9; 0; 1; 4; 151; 0; 0; 0; 0; 0].
Definition conf_bytes : list Z := [80; 67; 77; 80; 92; 0; 4; 136; 0; 0; 0; 0; 0; 0; 0; 0; 0; 0; 0; 0; 0; 0; 0; 0; 0; 0; 0; 0; 0; 0; 0; 0; 0; 0; 2; 0; 0; 0; 224; 254; 0; 0; 0; 0; 0; 0; 0; 0; 0; 0; 0; 0; 0; 0; 0; 0; 0; 0; 0; 0; 0; 0; 0; 0; 0; 1; 0; 0; 0; 0; 0; 0; 0; 0; 0; 0; 0; 0; 0; 0; 0; 0; 0; 0; 2; 5; 0; 0; 0; 0; 0; 0].
Definition odd_bytes : list Z := [80; 67; 77; 80; 72; 0; 4; 155; 0; 0; 0; 0; 0; 0; 0; 0; 0; 0; 0; 0; 0; 0; 0; 0; 0; 0; 0; 0; 0; 0; 0; 0; 0; 0; 2; 0; 0; 0; 224; 254; 0; 0; 0; 0; 0; 0; 0; 0; 0; 0; 0; 0; 0; 0; 0; 0; 0; 0; 0; 0; 0; 0; 0; 0; 9; 0; 0; 0; 0; 0; 0; 0].
Definition firmware (conf : list Z) : mem :=
  store_bytes (store_bytes (upd (fun _ => 0) (P2V 0x40f) 0x9f) (P2V 0x9f000) mp_bytes) (P2V 0x9f010) conf.
Definition mp0 : mpstate := Mpstate (replicate 8 0) false 0 0 0 [].

Lemma mpinit_correct_witness : exists s', mpinit 4 (firmware conf_bytes) 0 mp0 = Some s' /\ take (ncpu s') (cpus s') = [0; 1] /\ ioapicid s' = 5 /\
  cpunum (Z.shiftl 1 24) s' = Ret 1 s'.
Proof.
  destruct (mpinit_correct (firmware conf_bytes) 0 mp0 (P2V 0x9f000) (P2V 0x9f010) [EProc 0; EProc 1; EIoapic 5] 4) as (s' & E & _ & Hl & _ & Hc & Hi & Hn);
    [vm_compute; reflexivity|vm_compute; congruence|vm_compute; reflexivity|vm_compute; congruence|vm_compute; congruence
    |vm_compute; repeat split; congruence|cbn; lia|reflexivity|reflexivity|].
  exists s'. split; [exact E|]. split; [exact Hc|]. split; [exact Hi|].
  refine (Hn _ _ 1%nat 1 eq_refl _); [rewrite Hl; vm_compute; congruence|apply (bool_decide_unpack _); vm_compute; exact I|unfold NCPU; lia].
Defined.

Lemma mpinit_hangs_witness : mpinit 1000 (firmware odd_bytes) 0 mp0 = None.
Proof.
  apply (mpinit_hangs (firmware odd_bytes) 0 mp0 (P2V 0x9f000) (P2V 0x9f010) [EProc 0] (P2V 0x9f010 + MPCONF_SIZE + 20));
    [vm_compute; reflexivity|vm_compute; congruence|vm_compute; reflexivity|vm_compute; congruence|vm_compute; congruence
    |vm_compute; repeat split; congruence|vm_compute; reflexivity|vm_compute; reflexivity].
Defined.
