(* ===== verification/Vm.v ===== *)
(** * Page tables (vm.c)

    The two-level x86 page tables, kept in the physical pages the allocator
    hands out, and the operations on address spaces.  Addresses of pages are
    kernel virtual addresses; entries hold physical addresses.  [kend] and
    [kdata] are the linker symbols [end] and [data].  [seginit] and the
    loading of registers by [switchuvm] and [switchkvm] are in [Segments.v]. *)

From S2P Require Import Prelude CString Memory Kalloc.
Import Kstring.

Definition EXTMEM : Z := 0x100000.
Definition DEVSPACE : Z := 0xFE000000.
Definition KERNLINK : Z := KERNBASE + EXTMEM.
Definition NPDENTRIES : Z := 1024.

Definition PTE_P : Z := 1.
Definition PTE_W : Z := 2.
Definition PTE_U : Z := 4.
Definition PTE_ADDR (pte : Z) : Z := Z.land pte (u32 (Z.lnot 0xFFF)).
Definition PTE_FLAGS (pte : Z) : Z := Z.land pte 0xFFF.
Definition PDX (va : Z) : Z := Z.land (Z.shiftr va 22) 0x3FF.
Definition PTX (va : Z) : Z := Z.land (Z.shiftr va 12) 0x3FF.
Definition PGADDR (d t o : Z) : Z := u32 (Z.lor (Z.lor (Z.shiftl d 22) (Z.shiftl t 12)) o).

Section vm.
Context (kend kdata : Z).

Definition peek32 (a : Z) : M kmem Z := gets (fun s => load32 (km_mem s) a).
Definition poke32 (a w : Z) : M kmem unit := modify (fun s => set_mem s (store32 (km_mem s) a w)).
Definition kmemset (a c n : Z) : M kmem unit := modify (fun s => set_mem s (memset a c n (km_mem s))).

(** The address of the page-table entry, or 0. *)
Definition walkpgdir (pgdir va : Z) (alloc : bool) : M kmem Z :=
  let pde := u32 (pgdir + 4 * PDX va) in
  let! e := peek32 pde in
  if negb (Z.land e PTE_P =? 0) then
    ret (u32 (P2V (PTE_ADDR e) + 4 * PTX va))
  else if negb alloc then ret 0
  else
    let! pgtab := kalloc in
    if pgtab =? 0 then ret 0
    else
      kmemset pgtab 0 PGSIZE ;;;
      poke32 pde (Z.lor (Z.lor (Z.lor (V2P pgtab) PTE_P) PTE_W) PTE_U) ;;;
      ret (u32 (pgtab + 4 * PTX va)).

(** [for(;;)] from page [a] to page [last]; the number of pages between them
    bounds the iterations. *)
Fixpoint mappages_loop (fuel : nat) (pgdir a last pa perm : Z) : M kmem Z :=
  match fuel with
  | O => undef "mappages: fuel"
  | S fuel =>
      let! pte := walkpgdir pgdir a true in
      if pte =? 0 then ret (-1)
      else
        let! e := peek32 pte in
        if negb (Z.land e PTE_P =? 0) then panic "remap"
        else
          poke32 pte (Z.lor (Z.lor pa perm) PTE_P) ;;;
          if a =? last then ret 0
          else mappages_loop fuel pgdir (u32 (a + PGSIZE)) last (u32 (pa + PGSIZE)) perm
  end.
Definition mappages (pgdir va size pa perm : Z) : M kmem Z :=
  let a := PGROUNDDOWN va in
  let last := PGROUNDDOWN (u32 (va + size - 1)) in
  mappages_loop (Z.to_nat (u32 (last - a) / PGSIZE + 1)) pgdir a last pa perm.

(** [kmap[]]: virtual start, physical start and end, permissions. *)
Definition kmap : list (Z * Z * Z * Z) :=
  [ (KERNBASE, 0, EXTMEM, PTE_W);
    (KERNLINK, V2P KERNLINK, V2P kdata, 0);
    (kdata, V2P kdata, PHYSTOP, PTE_W);
    (DEVSPACE, DEVSPACE, 0, PTE_W) ].

Fixpoint setupkvm_loop (pgdir : Z) (ks : list (Z * Z * Z * Z)) : M kmem Z :=
  match ks with
  | [] => ret pgdir
  | (virt, phys_start, phys_end, perm) :: ks =>
      let! r := mappages pgdir virt (u32 (phys_end - phys_start)) phys_start perm in
      if r <? 0 then ret 0 else setupkvm_loop pgdir ks
  end.
Definition setupkvm : M kmem Z :=
  let! pgdir := kalloc in
  if pgdir =? 0 then ret 0
  else
    kmemset pgdir 0 PGSIZE ;;;
    if DEVSPACE <? P2V PHYSTOP then panic "PHYSTOP too high"
    else setupkvm_loop pgdir kmap.

(** [init] are the bytes of the program image. *)
Definition inituvm (pgdir : Z) (init : list Z) : M kmem unit :=
  if PGSIZE <=? Z.of_nat (length init) then panic "inituvm: more than a page"
  else
    let! mem := kalloc in
    kmemset mem 0 PGSIZE ;;;
    let! _ := mappages pgdir 0 PGSIZE (V2P mem) (Z.lor PTE_W PTE_U) in
    modify (fun s => set_mem s (store_bytes (km_mem s) mem init)).

(** [for(; a < oldsz; a += PGSIZE)]; [a] advances by at least a page. *)
Fixpoint deallocuvm_loop (fuel : nat) (pgdir a oldsz : Z) : M kmem unit :=
  match fuel with
  | O => undef "deallocuvm: fuel"
  | S fuel =>
      if a <? oldsz then
        let! pte := walkpgdir pgdir a false in
        if pte =? 0 then
          deallocuvm_loop fuel pgdir (u32 (u32 (PGADDR (PDX a + 1) 0 0 - PGSIZE) + PGSIZE)) oldsz
        else
          let! e := peek32 pte in
          when (negb (Z.land e PTE_P =? 0))
            (let pa := PTE_ADDR e in
             if pa =? 0 then panic "kfree"
             else kfree kend (P2V pa) ;;; poke32 pte 0) ;;;
          deallocuvm_loop fuel pgdir (u32 (a + PGSIZE)) oldsz
      else ret tt
  end.
Definition deallocuvm (pgdir oldsz newsz : Z) : M kmem Z :=
  if oldsz <=? newsz then ret oldsz
  else
    let a := PGROUNDUP newsz in
    deallocuvm_loop (Z.to_nat ((oldsz - a) / PGSIZE + 2)) pgdir a oldsz ;;;
    ret newsz.

Definition updatem (newsz : Z) : M kmem unit := modify (fun s => set_numberz s newsz).

Fixpoint allocuvm_loop (fuel : nat) (pgdir a oldsz newsz : Z) : M kmem Z :=
  match fuel with
  | O => undef "allocuvm: fuel"
  | S fuel =>
      if a <? newsz then
        let! mem := kalloc in
        if mem =? 0 then
          let! _ := deallocuvm pgdir newsz oldsz in ret 0
        else
          kmemset mem 0 PGSIZE ;;;
          let! r := mappages pgdir a PGSIZE (V2P mem) (Z.lor PTE_W PTE_U) in
          if r <? 0 then
            let! _ := deallocuvm pgdir newsz oldsz in
            kfree kend mem ;;;
            ret 0
          else allocuvm_loop fuel pgdir (u32 (a + PGSIZE)) oldsz newsz
      else updatem newsz ;;; ret newsz
  end.
Definition allocuvm (pgdir oldsz newsz : Z) : M kmem Z :=
  if KERNBASE <=? newsz then ret 0
  else if newsz <? oldsz then ret oldsz
  else
    let a := PGROUNDUP oldsz in
    allocuvm_loop (Z.to_nat ((newsz - a) / PGSIZE + 2)) pgdir a oldsz newsz.

Definition freevm (pgdir : Z) : M kmem unit :=
  if pgdir =? 0 then panic "freevm: no pgdir"
  else
    let! _ := deallocuvm pgdir KERNBASE 0 in
    for_each (Z.to_nat NPDENTRIES) 0 (fun i =>
      let! e := peek32 (u32 (pgdir + 4 * i)) in
      when (negb (Z.land e PTE_P =? 0)) (kfree kend (P2V (PTE_ADDR e)))) ;;;
    kfree kend pgdir.

Definition clearpteu (pgdir uva : Z) : M kmem unit :=
  let! pte := walkpgdir pgdir uva false in
  if pte =? 0 then panic "clearpteu"
  else
    let! e := peek32 pte in
    poke32 pte (Z.land e (u32 (Z.lnot PTE_U))).

(** [for(i = 0; i < sz; i += PGSIZE)]: [Some d] on success, [None] for
    [goto bad]. *)
Fixpoint copyuvm_loop (fuel : nat) (pgdir d i sz : Z) : M kmem (option Z) :=
  match fuel with
  | O => undef "copyuvm: fuel"
  | S fuel =>
      if i <? sz then
        let! pte := walkpgdir pgdir i false in
        if pte =? 0 then panic "copyuvm: pte should exist"
        else
          let! e := peek32 pte in
          if Z.land e PTE_P =? 0 then panic "copyuvm: page not present"
          else
            let pa := PTE_ADDR e in
            let flags := PTE_FLAGS e in
            let! mem := kalloc in
            if mem =? 0 then ret None
            else
              modify (fun s => set_mem s (memmove mem (P2V pa) PGSIZE (km_mem s))) ;;;
              let! r := mappages d i PGSIZE (V2P mem) flags in
              if r <? 0 then ret None else copyuvm_loop fuel pgdir d (u32 (i + PGSIZE)) sz
      else ret (Some d)
  end.
Definition copyuvm (pgdir sz : Z) : M kmem Z :=
  let! d := setupkvm in
  if d =? 0 then ret 0
  else
    let! r := copyuvm_loop (Z.to_nat (sz / PGSIZE + 2)) pgdir d 0 sz in
    match r with
    | Some d => ret d
    | None => freevm d ;;; ret 0
    end.

(** [*pte] is read without a check that [walkpgdir] found a page table. *)
Definition uva2ka (pgdir uva : Z) : M kmem Z :=
  let! pte := walkpgdir pgdir uva false in
  if pte =? 0 then undef "uva2ka: null pte"
  else
    let! e := peek32 pte in
    if Z.land e PTE_P =? 0 then ret 0
    else if Z.land e PTE_U =? 0 then ret 0
    else ret (P2V (PTE_ADDR e)).

(** [buf] holds the [len] bytes to copy; each round copies at least one. *)
Fixpoint copyout_loop (fuel : nat) (pgdir va : Z) (buf : list Z) : M kmem Z :=
  match buf with
  | [] => ret 0
  | _ =>
      match fuel with
      | O => undef "copyout: fuel"
      | S fuel =>
          let va0 := PGROUNDDOWN va in
          let! pa0 := uva2ka pgdir va0 in
          if pa0 =? 0 then ret (-1)
          else
            let n := Z.min (u32 (PGSIZE - (va - va0))) (Z.of_nat (length buf)) in
            modify (fun s => set_mem s (store_bytes (km_mem s) (u32 (pa0 + (va - va0))) (take (Z.to_nat n) buf))) ;;;
            copyout_loop fuel pgdir (u32 (va0 + PGSIZE)) (drop (Z.to_nat n) buf)
      end
  end.
Definition copyout (pgdir va : Z) (buf : list Z) : M kmem Z := copyout_loop (length buf) pgdir va buf.

End vm.

(** ** Address translation by the hardware *)

(** The kernel address of the byte that supervisor code reaches at virtual
    address [va] under page directory [pgdir]. *)
Definition translate (m : mem) (pgdir va : Z) : option Z :=
  let pde := load32 m (u32 (pgdir + 4 * PDX va)) in
  if Z.land pde PTE_P =? 0 then None
  else
    let pte := load32 m (u32 (P2V (PTE_ADDR pde) + 4 * PTX va)) in
    if Z.land pte PTE_P =? 0 then None else Some (u32 (P2V (PTE_ADDR pte) + va mod PGSIZE)).
