(* ===== verification/Pipe.v ===== *)
(** * Pipes (pipe.c)

    [struct pipe] with its two free-running 32-bit counters, and the reading
    and writing loops.  The pipe's spin lock is held from entry to return or
    to [sleep], so one run of a loop up to the point where it returns or goes
    to sleep is one atomic step; a sleeping thread resumes the loop where it
    left it.  [wakeup] calls are part of the result of a step.
    [pipealloc] and [pipeclose]'s release of the page are in [File.v], where
    the file table and the page allocator are. *)

From S2P Require Import Prelude CString.
Import Kstring.

Definition PIPESIZE : Z := 512.

Record pipe := Pipe {
  p_data : list Z; p_nread : Z; p_nwrite : Z; p_readopen : bool; p_writeopen : bool
}.

(** Sleep channels: the addresses [&p->nread] and [&p->nwrite]. *)
Inductive chan := ch_nread | ch_nwrite.
#[export] Instance chan_eq_dec : EqDecision chan.
Proof. solve_decision. Defined.

Definition full (p : pipe) : bool := p_nwrite p =? u32 (p_nread p + PIPESIZE).
Definition empty (p : pipe) : bool := p_nread p =? p_nwrite p.

(** [p->data[p->nwrite++ % PIPESIZE] = b] *)
Definition put (b : Z) (p : pipe) : pipe :=
  Pipe (<[Z.to_nat (p_nwrite p mod PIPESIZE) := b]> (p_data p)) (p_nread p) (u32 (p_nwrite p + 1))
    (p_readopen p) (p_writeopen p).
(** [p->data[p->nread++ % PIPESIZE]] *)
Definition peek (p : pipe) : Z := nthZ (p_data p) (p_nread p mod PIPESIZE).
Definition advance (p : pipe) : pipe :=
  Pipe (p_data p) (u32 (p_nread p + 1)) (p_nwrite p) (p_readopen p) (p_writeopen p).

(** How a run of [pipewrite] ends: a return value, or asleep on [&p->nwrite]
    at loop index [i]. *)
Inductive wresult := WDone (r : Z) | WSleep (i : Z).

(** The loop of [pipewrite] from index [i]; [bs] are the bytes [addr[i..n)]. *)
Fixpoint pipewrite_at (killed : bool) (p : pipe) (bs : list Z) (i : Z) : pipe * wresult * list chan :=
  match bs with
  | [] => (p, WDone i, [ch_nread])
  | b :: bs' =>
      if full p then
        if negb (p_readopen p) || killed then (p, WDone (-1), [])
        else (p, WSleep i, [ch_nread])
      else pipewrite_at killed (put b p) bs' (i + 1)
  end.
(** [addr] holds the bytes at the address; [n] of them are to be written. *)
Definition pipewrite (killed : bool) (p : pipe) (addr : list Z) (n : Z) : pipe * wresult * list chan :=
  if n <? 0 then (p, WDone n, [ch_nread]) else pipewrite_at killed p (take (Z.to_nat n) addr) 0.

(** The copying loop of [piperead]: the bytes stored at [addr]. *)
Fixpoint piperead_copy (n : nat) (p : pipe) : pipe * list Z :=
  match n with
  | O => (p, [])
  | S n' =>
      if empty p then (p, [])
      else let '(p', bs) := piperead_copy n' (advance p) in (p', peek p :: bs)
  end.

Inductive rresult := RDone (r : Z) (bs : list Z) | RSleep.

Definition piperead (killed : bool) (p : pipe) (n : Z) : pipe * rresult * list chan :=
  if empty p && p_writeopen p then
    if killed then (p, RDone (-1) [], []) else (p, RSleep, [])
  else let '(p', bs) := piperead_copy (Z.to_nat n) p in (p', RDone (Z.of_nat (length bs)) bs, [ch_nwrite]).

(** The part of [pipeclose] under the lock: the pipe, the wakeup, and whether
    the page is to be freed. *)
Definition pipeclose_end (p : pipe) (writable : bool) : pipe * chan * bool :=
  let '(p, c) := if writable
    then (Pipe (p_data p) (p_nread p) (p_nwrite p) (p_readopen p) false, ch_nread)
    else (Pipe (p_data p) (p_nread p) (p_nwrite p) false (p_writeopen p), ch_nwrite) in
  (p, c, negb (p_readopen p) && negb (p_writeopen p)).

(** What [pipealloc] stores; [data] is whatever the page held. *)
Definition pipe_init (data : list Z) : pipe := Pipe data 0 0 true true.

(** ** The queue a pipe stores *)

(** The number of buffered bytes; correct also when the counters have wrapped
    around. *)
Definition count (p : pipe) : Z := u32 (p_nwrite p - p_nread p).
Definition contents (p : pipe) : list Z :=
  (fun i => nthZ (p_data p) ((p_nread p + i) mod PIPESIZE)) <$> seqZ 0 (count p).

Record pipe_ok (p : pipe) : Prop := {
  po_data : length (p_data p) = Z.to_nat PIPESIZE;
  po_nread : 0 <= p_nread p < 2 ^ 32;
  po_nwrite : 0 <= p_nwrite p < 2 ^ 32;
  po_count : count p <= PIPESIZE;
}.

Lemma u32_sub_step a b c : u32 (a - b) + c < 2 ^ 32 -> 0 <= u32 (a - b) + c -> u32 (a + c - b) = u32 (a - b) + c.
Proof.
  intros H1 H2. rewrite <- (u32_small (u32 (a - b) + c)) by lia.
  transitivity ((a + c - b) mod 2 ^ 32); [reflexivity|].
  transitivity (((a - b) mod 2 ^ 32 + c) mod 2 ^ 32); [|reflexivity].
  rewrite Zplus_mod_idemp_l. f_equal. lia.
Qed.
Lemma u32_sub_l a b : u32 (u32 a - b) = u32 (a - b).
Proof.
  transitivity ((a mod 2 ^ 32 - b) mod 2 ^ 32); [reflexivity|]. by rewrite Zminus_mod_idemp_l.
Qed.
Lemma u32_sub_r a b : u32 (a - u32 b) = u32 (a - b).
Proof.
  transitivity ((a - b mod 2 ^ 32) mod 2 ^ 32); [reflexivity|]. by rewrite Zminus_mod_idemp_r.
Qed.

Lemma u32_mod512 a : u32 a mod PIPESIZE = a mod PIPESIZE.
Proof.
  transitivity ((a mod 2 ^ 32) mod PIPESIZE); [reflexivity|]. unfold PIPESIZE.
  rewrite (Z.div_mod a (2 ^ 32)) at 2 by lia.
  replace (2 ^ 32 * (a / 2 ^ 32) + a mod 2 ^ 32) with (a mod 2 ^ 32 + (8388608 * (a / 2 ^ 32)) * 512) by lia.
  by rewrite Z_mod_plus_full.
Qed.

Lemma nwrite_count p : pipe_ok p -> p_nwrite p = u32 (p_nread p + count p).
Proof.
  intros [_ _ Hw _]. unfold count. rewrite <- (u32_small (p_nwrite p)) at 1 by lia.
  transitivity ((p_nread p + (p_nwrite p - p_nread p) mod 2 ^ 32) mod 2 ^ 32); [|reflexivity].
  rewrite Zplus_mod_idemp_r. transitivity (p_nwrite p mod 2 ^ 32); [reflexivity|]. f_equal. lia.
Qed.

Lemma count_range p : 0 <= count p < 2 ^ 32.
Proof. apply u32_range. Qed.

Lemma full_count p : pipe_ok p -> full p = (count p =? PIPESIZE).
Proof.
  intros Hp. unfold full. rewrite (nwrite_count p Hp), !(Z.add_comm (p_nread p)).
  pose proof (count_range p). destruct (Z.eqb_spec (count p) PIPESIZE) as [->|Hne]; [apply Z.eqb_refl|].
  apply Z.eqb_neq. intros E. apply Hne. apply (u32_add_inj _ _ (p_nread p)); unfold PIPESIZE in *; [lia | lia | done].
Qed.

Lemma empty_count p : pipe_ok p -> empty p = (count p =? 0).
Proof.
  intros [_ Hr Hw _]. unfold empty, count. destruct (Z.eqb_spec (p_nread p) (p_nwrite p)) as [->|Hne].
  { by rewrite Z.sub_diag. }
  symmetry. apply Z.eqb_neq. intros E. apply Hne. symmetry. apply (u32_add_inj _ _ (- p_nread p)); [lia | lia|].
  rewrite Z.add_opp_diag_r, Z.add_opp_r, E. done.
Qed.

Lemma length_contents p : Z.of_nat (length (contents p)) = count p.
Proof. unfold contents. rewrite length_fmap, length_seqZ. pose proof (count_range p). lia. Qed.

Lemma contents_lookup p i : contents p !! i =
  if decide (Z.of_nat i < count p) then Some (nthZ (p_data p) ((p_nread p + Z.of_nat i) mod PIPESIZE)) else None.
Proof.
  unfold contents. rewrite list_lookup_fmap. destruct (decide _).
  - by rewrite lookup_seqZ_lt.
  - by rewrite lookup_seqZ_ge by lia.
Qed.

Lemma nthZ_insert l i j b : 0 <= i < Z.of_nat (length l) -> 0 <= j ->
  nthZ (<[Z.to_nat i := b]> l) j = if i =? j then b else nthZ l j.
Proof.
  intros Hi Hj. unfold nthZ. rewrite !nth_lookup. destruct (Z.eqb_spec i j) as [->|].
  - by rewrite list_lookup_insert_eq by lia.
  - by rewrite list_lookup_insert_ne by lia.
Qed.

(** A stored byte goes to the end of the queue. *)
Lemma put_ok b p : pipe_ok p -> full p = false -> pipe_ok (put b p) /\ contents (put b p) = contents p ++ [b].
Proof.
  intros Hp Hf. rewrite (full_count p Hp) in Hf. apply Z.eqb_neq in Hf. pose proof (count_range p) as Hc0.
  pose proof (nwrite_count p Hp) as Hnw. destruct Hp as [Hd Hr Hw Hc]. unfold PIPESIZE in Hd, Hc, Hf.
  assert (Hcnt : count (put b p) = count p + 1).
  { unfold count in *. cbn [put p_nwrite p_nread]. rewrite u32_sub_l. apply u32_sub_step; lia. }
  split.
  { split; [by cbn [put p_data]; rewrite length_insert | done | apply u32_range | unfold PIPESIZE; lia]. }
  apply list_eq. intros i. rewrite contents_lookup, Hcnt. cbn [put p_data p_nread].
  pose proof (length_contents p) as Hl. unfold PIPESIZE in *.
  pose proof (Z.mod_pos_bound (p_nwrite p) 512). pose proof (Z.mod_pos_bound (p_nread p + Z.of_nat i) 512).
  rewrite nthZ_insert by lia. destruct (decide (Z.of_nat i < count p)).
  - rewrite lookup_app_l by lia. rewrite contents_lookup, !decide_True by lia. unfold PIPESIZE.
    destruct (Z.eqb_spec (p_nwrite p mod 512) ((p_nread p + Z.of_nat i) mod 512)) as [E|]; [|done].
    exfalso. rewrite Hnw, u32_mod512 in E. unfold PIPESIZE in E.
    pose proof (Z.div_mod (p_nread p + count p) 512). pose proof (Z.div_mod (p_nread p + Z.of_nat i) 512). lia.
  - rewrite lookup_app_r by lia. destruct (decide (Z.of_nat i < count p + 1)).
    + replace (Z.of_nat i) with (count p) by lia. rewrite Hnw at 1. rewrite u32_mod512. unfold PIPESIZE.
      rewrite Z.eqb_refl. replace (i - length (contents p))%nat with 0%nat by lia. done.
    + rewrite lookup_ge_None_2; [done|]. cbn [length]. lia.
Qed.

(** A byte is taken from the front of the queue. *)
Lemma advance_ok p : pipe_ok p -> empty p = false -> pipe_ok (advance p) /\ contents p = peek p :: contents (advance p).
Proof.
  intros Hp He. rewrite (empty_count p Hp) in He. apply Z.eqb_neq in He. pose proof (count_range p) as Hc0.
  destruct Hp as [Hd Hr Hw Hc].
  assert (Hcnt : count (advance p) = count p - 1).
  { unfold count in *. cbn [advance p_nwrite p_nread]. rewrite u32_sub_r.
    replace (p_nwrite p - (p_nread p + 1)) with (p_nwrite p + - 1 - p_nread p) by lia.
    rewrite u32_sub_step by lia. lia. }
  split; [split; [done | apply u32_range | done | lia]|].
  apply list_eq. intros [|i]; rewrite contents_lookup.
  - rewrite decide_True by lia. cbn [lookup list_lookup]. unfold peek. by rewrite Z.add_0_r.
  - cbn [lookup list_lookup]. transitivity (contents (advance p) !! i); [|done]. rewrite contents_lookup, Hcnt.
    destruct (decide (Z.of_nat (S i) < count p)).
    + rewrite decide_True by lia. cbn [advance p_data p_nread]. do 2 f_equal.
      rewrite <- (Zplus_mod_idemp_l (u32 _)), u32_mod512, Zplus_mod_idemp_l. f_equal. lia.
    + by rewrite decide_False by lia.
Qed.

(** ** The loops *)

Definition room (p : pipe) : nat := Z.to_nat (PIPESIZE - count p).

Lemma count_contents p q l : contents q = contents p ++ l -> count q = count p + Z.of_nat (length l).
Proof. intros E. rewrite <- !length_contents, E, length_app. lia. Qed.

(** [pipewrite] stores bytes in order until they run out or the buffer is
    full, and its way out depends on which. *)
Lemma pipewrite_at_spec killed p bs i : pipe_ok p ->
  let '(p', r, w) := pipewrite_at killed p bs i in
  pipe_ok p' /\ contents p' = contents p ++ take (room p) bs /\
  p_readopen p' = p_readopen p /\ p_writeopen p' = p_writeopen p /\ p_nread p' = p_nread p /\
  (r, w) = if decide (length bs <= room p)%nat then (WDone (i + Z.of_nat (length bs)), [ch_nread])
           else if negb (p_readopen p) || killed then (WDone (-1), [])
           else (WSleep (i + Z.of_nat (room p)), [ch_nread]).
Proof.
  revert p i. induction bs as [|b bs IH]; intros p i Hp; cbn [pipewrite_at].
  { rewrite take_nil, app_nil_r, Z.add_0_r. by rewrite decide_True by (cbn; lia). }
  destruct (full p) eqn:Hf.
  - assert (room p = 0%nat) as Hr.
    { rewrite (full_count p Hp) in Hf. apply Z.eqb_eq in Hf. unfold room. lia. }
    rewrite Hr, decide_False by (cbn; lia). rewrite take_0, app_nil_r, Z.add_0_r.
    by destruct (negb (p_readopen p) || killed).
  - destruct (put_ok b p Hp Hf) as [Hp' Hc].
    assert (room p = S (room (put b p))) as Hr.
    { pose proof (count_contents p (put b p) [b] Hc) as E. cbn [length] in E. unfold room. rewrite E.
      rewrite (full_count p Hp) in Hf. apply Z.eqb_neq in Hf. destruct Hp. lia. }
    specialize (IH (put b p) (i + 1) Hp'). destruct (pipewrite_at killed (put b p) bs (i + 1)) as [[p' r] w].
    destruct IH as (? & Hcs & ? & ? & ? & ->). split_and!; try done.
    + rewrite Hcs, Hc, Hr. cbn [take]. by rewrite <- app_assoc.
    + rewrite Hr. cbn [length put p_readopen].
      destruct (decide (length bs <= room (put b p))%nat); [rewrite decide_True by lia | rewrite decide_False by lia];
        [do 2 f_equal; lia|]. destruct (_ || _); [done|]. do 2 f_equal. lia.
Qed.

Lemma piperead_copy_spec n p : pipe_ok p ->
  let '(p', bs) := piperead_copy n p in
  pipe_ok p' /\ bs = take n (contents p) /\ contents p' = drop n (contents p) /\
  p_readopen p' = p_readopen p /\ p_writeopen p' = p_writeopen p.
Proof.
  revert p. induction n as [|n IH]; intros p Hp; cbn [piperead_copy]; [done|].
  destruct (empty p) eqn:He.
  - rewrite (empty_count p Hp) in He. apply Z.eqb_eq in He. pose proof (length_contents p) as Hl.
    destruct (contents p); [done|]. cbn [length] in Hl. lia.
  - destruct (advance_ok p Hp He) as [Hp' Hc]. specialize (IH (advance p) Hp').
    destruct (piperead_copy n (advance p)) as [p' bs]. destruct IH as (? & -> & ? & ? & ?). by rewrite Hc.
Qed.

(** ** Threads sharing a pipe *)

Inductive thread :=
| Writer (rest : list Z) (i : Z)
| WriterAsleep (rest : list Z) (i : Z)
| Reader (n : Z)
| ReaderAsleep (n : Z)
| Finished (r : Z).

(** [ps_in] and [ps_out] record every byte stored in and taken from the pipe. *)
Record psys := PSys { ps_pipe : pipe; ps_threads : list thread; ps_in : list Z; ps_out : list Z }.

Definition wake (c : chan) (t : thread) : thread :=
  match c, t with
  | ch_nread, ReaderAsleep n => Reader n
  | ch_nwrite, WriterAsleep rest i => Writer rest i
  | _, _ => t
  end.
Definition wakeups (w : list chan) (ts : list thread) : list thread := foldr (fun c ts => wake c <$> ts) ts w.

(** One thread runs until it releases the pipe's lock; [killed] is its
    [proc->killed] during that time. *)
Inductive pstep (may_be_killed : bool) : psys -> psys -> Prop :=
| ps_spawn s t : (forall rest i, t <> WriterAsleep rest i) -> (forall n, t <> ReaderAsleep n) ->
    pstep may_be_killed s (PSys (ps_pipe s) (ps_threads s ++ [t]) (ps_in s) (ps_out s))
| ps_write s k killed rest i p' r w : ps_threads s !! k = Some (Writer rest i) ->
    (killed = true -> may_be_killed = true) ->
    pipewrite_at killed (ps_pipe s) rest i = (p', r, w) ->
    pstep may_be_killed s
      (PSys p'
         (<[k := match r with WDone v => Finished v | WSleep j => WriterAsleep (drop (Z.to_nat (j - i)) rest) j end]>
            (wakeups w (ps_threads s)))
         (ps_in s ++ take (Z.to_nat (u32 (p_nwrite p' - p_nwrite (ps_pipe s)))) rest) (ps_out s))
| ps_read s k killed n p' r w : ps_threads s !! k = Some (Reader n) ->
    (killed = true -> may_be_killed = true) ->
    piperead killed (ps_pipe s) n = (p', r, w) ->
    pstep may_be_killed s
      (PSys p' (<[k := match r with RDone v _ => Finished v | RSleep => ReaderAsleep n end]> (wakeups w (ps_threads s)))
         (ps_in s) (ps_out s ++ match r with RDone _ bs => bs | RSleep => [] end))
| ps_close s writable p' c fr : pipeclose_end (ps_pipe s) writable = (p', c, fr) ->
    pstep may_be_killed s (PSys p' (wakeups [c] (ps_threads s)) (ps_in s) (ps_out s)).

Definition fifo (s : psys) : Prop := pipe_ok (ps_pipe s) /\ ps_in s = ps_out s ++ contents (ps_pipe s).

Lemma pipewrite_at_stored killed p bs i p' r w : pipe_ok p -> pipewrite_at killed p bs i = (p', r, w) ->
  contents p' = contents p ++ take (Z.to_nat (u32 (p_nwrite p' - p_nwrite p))) bs.
Proof.
  intros Hp E. pose proof (pipewrite_at_spec killed p bs i Hp) as H. rewrite E in H.
  destruct H as (Hp' & Hc & _ & _ & Hnr & _). rewrite Hc at 1. f_equal.
  pose proof (count_contents _ _ _ Hc) as Hcnt.
  assert (u32 (p_nwrite p' - p_nwrite p) = Z.of_nat (length (take (room p) bs))) as ->.
  { pose proof (count_range p). pose proof (count_range p'). pose proof (po_count p' Hp') as Hle. unfold PIPESIZE in Hle.
    rewrite (nwrite_count p' Hp'), (nwrite_count p Hp), Hnr, u32_sub_l, u32_sub_r.
    replace (p_nread p + count p' - (p_nread p + count p)) with (count p' - count p) by lia.
    rewrite u32_small by lia. lia. }
  rewrite length_take, Nat2Z.id. destruct (decide (room p <= length bs)%nat).
  - by rewrite Nat.min_l.
  - by rewrite Nat.min_r, !take_ge by lia.
Qed.

Lemma pipeclose_end_keeps p writable p' c fr : pipeclose_end p writable = (p', c, fr) ->
  p_data p' = p_data p /\ p_nread p' = p_nread p /\ p_nwrite p' = p_nwrite p.
Proof. unfold pipeclose_end. by destruct writable; intros [= <- <- <-]. Qed.

Lemma fifo_step b s s' : fifo s -> pstep b s s' -> fifo s'.
Proof.
  intros [Hp Hf] Hst. destruct Hst as [s t|s k killed rest i p' r w _ _ E|s k killed n p' r w _ _ E|s wr p' c fr E];
    unfold fifo; cbn [ps_pipe ps_in ps_out].
  - done.
  - pose proof (pipewrite_at_spec killed _ rest i Hp) as H. rewrite E in H. destruct H as (Hp' & _). split; [done|].
    rewrite (pipewrite_at_stored _ _ _ _ _ _ _ Hp E), Hf, app_assoc. done.
  - unfold piperead in E. destruct (empty (ps_pipe s) && _); [destruct killed|].
    1-2: injection E as <- <- <-; by rewrite app_nil_r.
    pose proof (piperead_copy_spec (Z.to_nat n) _ Hp) as H. destruct (piperead_copy _ _) as [q bs].
    destruct H as (? & -> & Hd & _). injection E as <- <- <-. split; [done|].
    by rewrite Hd, <- app_assoc, take_drop.
  - apply pipeclose_end_keeps in E as (Hd & Hr & Hw). destruct Hp as [H1 H2 H3 H4].
    unfold contents, count in *. rewrite Hd, Hr, Hw. split; [|done].
    split; unfold count; rewrite ?Hd, ?Hr, ?Hw; done.
Qed.

(** C16: a pipe is a first-in first-out queue of at most [PIPESIZE] bytes under
    every interleaving of any number of readers, writers and closes, whether
    or not threads are killed meanwhile and however often the 32-bit counters
    wrap: what the readers got so far, followed by the buffered bytes, is what
    the writers stored so far. *)
Theorem pipe_fifo p s :
  pipe_ok p -> contents p = [] -> rtc (pstep true) (PSys p [] [] []) s ->
  ps_in s = ps_out s ++ contents (ps_pipe s) /\ Z.of_nat (length (contents (ps_pipe s))) <= PIPESIZE.
Proof.
  intros Hp Hc Hr. assert (fifo s) as [Hok Hf].
  { remember (PSys p [] [] []) as x eqn:E.
    assert (fifo x) as Hx by (subst; split; [done|]; cbn; by rewrite Hc). clear E.
    induction Hr as [|x y z Hxy Hyz IH]; [done|]. by eapply IH, fifo_step. }
  split; [done|]. rewrite length_contents. apply Hok.
Qed.

(** ** No thread sleeps longer than it must *)

Definition sleeps_justified (p : pipe) (t : thread) : Prop :=
  match t with
  | ReaderAsleep _ => empty p = true /\ p_writeopen p = true
  | WriterAsleep _ _ => full p = true /\ p_readopen p = true
  | _ => True
  end.

(** A thread inside [piperead] holds a reference to the read end, so the read
    end is open. *)
Definition read_end_held (s : psys) : Prop :=
  forall n, Reader n ∈ ps_threads s \/ ReaderAsleep n ∈ ps_threads s -> p_readopen (ps_pipe s) = true.

Definition calm_step (s s' : psys) : Prop := pstep false s s' /\ read_end_held s'.

Lemma wakeups_elem c ts t : t ∈ wakeups [c] ts -> exists t', t' ∈ ts /\ t = wake c t'.
Proof. cbn. intros H. apply list_elem_of_fmap in H as (t' & -> & ?). by exists t'. Qed.

Lemma insert_elem (k : nat) (t u : thread) (ts : list thread) : u ∈ <[k := t]> ts -> u = t \/ u ∈ ts.
Proof.
  intros H. apply list_elem_of_lookup in H as [j Hj]. apply list_lookup_insert_Some in Hj as [(_ & -> & _)|[_ Hj]]; [by left|].
  right. by eapply list_elem_of_lookup_2.
Qed.

Lemma pipewrite_at_full killed p bs i : full p = true -> (pipewrite_at killed p bs i).1.1 = p.
Proof. destruct bs; cbn [pipewrite_at]; [done|]. intros ->. by destruct (_ || _). Qed.

Lemma write_justified s k rest i p' r w : pipe_ok (ps_pipe s) -> read_end_held s ->
  (forall t, t ∈ ps_threads s -> sleeps_justified (ps_pipe s) t) ->
  pipewrite_at false (ps_pipe s) rest i = (p', r, w) ->
  forall t, t ∈ <[k := match r with WDone v => Finished v | WSleep j => WriterAsleep (drop (Z.to_nat (j - i)) rest) j end]>
            (wakeups w (ps_threads s)) -> sleeps_justified p' t.
Proof.
  intros Hp Hh Hj E t Ht. pose proof (pipewrite_at_spec false _ rest i Hp) as H. rewrite E in H.
  destruct H as (Hp' & Hc & Hro & Hwo & _ & Hrw). pose proof (count_range (ps_pipe s)) as Hc0.
  pose proof (pipewrite_at_full false (ps_pipe s) rest i) as Hfull. rewrite E in Hfull. cbn [fst] in Hfull.
  pose proof (count_contents _ _ _ Hc) as Hcnt. rewrite length_take in Hcnt.
  assert (Hold : forall u, u ∈ ps_threads s -> (forall n, u <> ReaderAsleep n) -> sleeps_justified p' u).
  { intros u Hu Hn. specialize (Hj u Hu). destruct u; cbn in *; try done; [|by destruct (Hn n)].
    destruct Hj as [Hf Hr]. rewrite (Hfull Hf). done. }
  assert (Hw : forall u, u ∈ wakeups [ch_nread] (ps_threads s) -> sleeps_justified p' u).
  { intros u Hu. apply wakeups_elem in Hu as (u' & Hu' & ->).
    destruct u'; cbn [wake]; try done; by apply (Hold (WriterAsleep rest0 i0)). }
  destruct (decide (length rest <= room (ps_pipe s))%nat) as [Hle|Hle].
  { injection Hrw as -> ->. apply insert_elem in Ht as [->|Ht]; [done | by apply Hw]. }
  rewrite orb_false_r in Hrw. destruct (p_readopen (ps_pipe s)) eqn:Hopen; cbn [negb] in Hrw.
  - injection Hrw as -> ->. apply insert_elem in Ht as [->|Ht]; [|by apply Hw]. cbn. split; [|by rewrite Hro].
    rewrite (full_count p' Hp'). apply Z.eqb_eq. unfold room in *. destruct Hp. lia.
  - injection Hrw as -> ->. apply insert_elem in Ht as [->|Ht]; [done|]. apply Hold; [done|].
    intros n ->. specialize (Hh n (or_intror Ht)). congruence.
Qed.

Lemma read_justified s k n p' r w : pipe_ok (ps_pipe s) ->
  (forall t, t ∈ ps_threads s -> sleeps_justified (ps_pipe s) t) ->
  piperead false (ps_pipe s) n = (p', r, w) ->
  forall t, t ∈ <[k := match r with RDone v _ => Finished v | RSleep => ReaderAsleep n end]> (wakeups w (ps_threads s)) ->
  sleeps_justified p' t.
Proof.
  intros Hp Hj E t Ht. unfold piperead in E. destruct (empty (ps_pipe s) && p_writeopen (ps_pipe s)) eqn:Hb.
  { injection E as <- <- <-. apply insert_elem in Ht as [->|Ht]; [|by apply Hj].
    cbn. by apply andb_true_iff. }
  destruct (piperead_copy _ _) as [q bs]. injection E as <- <- <-.
  apply insert_elem in Ht as [->|Ht]; [done|]. apply wakeups_elem in Ht as (u & Hu & ->).
  specialize (Hj u Hu). destruct u; cbn in *; try done. destruct Hj as [H1 H2]. by rewrite H1, H2 in Hb.
Qed.

Lemma calm_step_justified s s' : pipe_ok (ps_pipe s) -> read_end_held s ->
  (forall t, t ∈ ps_threads s -> sleeps_justified (ps_pipe s) t) -> calm_step s s' ->
  forall t, t ∈ ps_threads s' -> sleeps_justified (ps_pipe s') t.
Proof.
  intros Hp Hh Hj [Hst _].
  destruct Hst as [s t Hw Hr|s k killed rest i p' r w _ Hk E|s k killed n p' r w _ Hk E|s wr p' c fr E];
    cbn [ps_pipe ps_threads].
  - intros u Hu. apply elem_of_app in Hu as [Hu|Hu]; [by apply Hj|].
    apply list_elem_of_singleton in Hu as ->. destruct t; try done; [by destruct (Hw rest i) | by destruct (Hr n)].
  - destruct killed; [by specialize (Hk eq_refl)|]. by eapply write_justified.
  - destruct killed; [by specialize (Hk eq_refl)|]. by eapply read_justified.
  - intros t Ht. apply wakeups_elem in Ht as (u & Hu & ->). specialize (Hj u Hu).
    unfold pipeclose_end in E. destruct wr; injection E as <- <- <-; by destruct u.
Qed.

(** C34: no wakeup is lost: as long as no thread is killed, a reader is asleep
    only while the pipe is empty and the write end open, and a writer only
    while the pipe is full and the read end open. *)
Theorem pipe_no_lost_wakeup p s t :
  pipe_ok p -> contents p = [] -> rtc calm_step (PSys p [] [] []) s ->
  t ∈ ps_threads s -> sleeps_justified (ps_pipe s) t.
Proof.
  intros Hp Hc Hr. remember (PSys p [] [] []) as x eqn:E.
  assert (fifo x) as Hx by (subst; split; [done|]; cbn; by rewrite Hc).
  assert (read_end_held x) as Hh by (subst; intros n [H|H]; by apply not_elem_of_nil in H).
  assert (forall t, t ∈ ps_threads x -> sleeps_justified (ps_pipe x) t) as Hj
    by (subst; intros u Hu; by apply not_elem_of_nil in Hu).
  clear E. induction Hr as [|x y z Hxy Hyz IH]; [by apply Hj|].
  apply IH; [by eapply fifo_step, Hxy | apply Hxy | by eapply calm_step_justified, Hxy; [apply Hx|..]].
Qed.

(** ** Concrete runs *)

(** A fresh pipe whose counters are about to wrap around. *)
Definition ex_pipe : pipe := Pipe (replicate 512 0) (2 ^ 32 - 2) (2 ^ 32 - 2) true true.

Lemma ex_pipe_ok : pipe_ok ex_pipe /\ contents ex_pipe = [].
Proof. split; [|reflexivity]. split; [reflexivity | cbn; lia | cbn; lia | vm_compute; congruence]. Qed.

(** A reader that finds the pipe empty, then a writer of three bytes. *)
Definition ex_start : psys := PSys ex_pipe [] [] [].
Definition ex_mid : psys := PSys ex_pipe [ReaderAsleep 2; Writer [1; 2; 3] 0] [] [].

Lemma ex_mid_reach : rtc calm_step ex_start ex_mid.
Proof.
  eapply rtc_l; [split; [apply (ps_spawn _ _ (Reader 2)); congruence | by intros n _]|].
  eapply rtc_l; [split; [by eapply (ps_read _ _ 0 false) | by intros n _]|].
  eapply rtc_l; [split; [apply (ps_spawn _ _ (Writer [1; 2; 3] 0)); congruence | by intros n _]|].
  apply rtc_refl.
Qed.

Lemma calm_pstep s s' : rtc calm_step s s' -> rtc (pstep true) s s'.
Proof.
  intros Hr. induction Hr as [|x y z [Hxy _] Hyz IH]; [apply rtc_refl|]. eapply rtc_l; [|exact IH].
  destruct Hxy as [s t|s k killed rest i p' r w|s k killed n p' r w|s wr p' c fr];
    [by apply ps_spawn | by apply (ps_write _ s k killed rest i p' r w)
    | by apply (ps_read _ s k killed n p' r w) | by apply (ps_close _ s wr p' c fr)].
Qed.

Lemma ex_run : exists s, rtc (pstep true) ex_start s /\ ps_out s = [1; 2] /\ ps_threads s = [Finished 2; Finished 3].
Proof.
  eexists. split.
  { etransitivity; [apply calm_pstep, ex_mid_reach|].
    eapply rtc_l; [eapply (ps_write _ _ 1 false [1; 2; 3] 0); [done | done | reflexivity]|].
    eapply rtc_l; [eapply (ps_read _ _ 0 false 2); [reflexivity | done | reflexivity]|]. apply rtc_refl. }
  done.
Qed.

Lemma pipe_fifo_witness : exists s, rtc (pstep true) ex_start s /\
  ps_in s = [1; 2] ++ contents (ps_pipe s) /\ ps_threads s = [Finished 2; Finished 3].
Proof.
  destruct ex_run as (s & Hr & Ho & Ht). exists s.
  destruct (pipe_fifo ex_pipe s (proj1 ex_pipe_ok) (proj2 ex_pipe_ok) Hr) as [Hf _]. by rewrite Ho in Hf.
Defined.

Lemma pipe_no_lost_wakeup_witness : sleeps_justified (ps_pipe ex_mid) (ReaderAsleep 2).
Proof.
  apply (pipe_no_lost_wakeup ex_pipe ex_mid); [apply ex_pipe_ok | apply ex_pipe_ok | apply ex_mid_reach |]. left.
Defined.

(** killing can lose a wakeup: a writer that fills the pipe and is then
    found to be killed returns without [wakeup(&p->nread)], so a reader that
    went to sleep on the empty pipe stays asleep although 512 bytes are there
    to be read and the write end is still open. *)
Theorem killed_writer_loses_wakeup :
  exists s, rtc (pstep true) ex_start s /\ ps_threads s = [ReaderAsleep 2; Finished (-1)] /\
    length (contents (ps_pipe s)) = 512%nat /\ p_writeopen (ps_pipe s) = true.
Proof.
  eexists (PSys _ _ _ _). split.
  { eapply rtc_l; [apply (ps_spawn _ _ (Reader 2)); congruence|].
    eapply rtc_l; [by eapply (ps_read _ _ 0 false)|].
    eapply rtc_l; [apply (ps_spawn _ _ (Writer (replicate 513 7) 0)); congruence|].
    eapply rtc_l; [eapply (ps_write _ _ 1 true (replicate 513 7) 0); [reflexivity | done |] |apply rtc_refl].
    vm_compute. reflexivity. }
  vm_compute. done.
Qed.
