(* ===== verification/Kern.v ===== *)
(** * The kernel state

    The state the upper layers of the kernel share: the file system, the open
    file table, the pipes, physical memory, the process table and the
    counters.  A [struct file *] is an index into [ftable], a [struct proc *]
    an index into [ptable.proc], a [struct pipe *] the address of its page.
    User memory is reached through the page table of the current process. *)

From S2P Require Import Prelude CString Bio Layout Blocks Fs Memory Kalloc Vm Pipe.

Definition NFILE : Z := 100.
Definition NOFILE : Z := 16.
Definition NPROC : Z := 64.
Definition MAXARG : Z := 32.
Definition KSTACKSIZE : Z := 4096.

(** [struct file] *)
Inductive fdtype := FD_NONE | FD_PIPE | FD_INODE.
Record file := File {
  fl_type : fdtype; fl_ref : Z; fl_readable : bool; fl_writable : bool;
  fl_pipe : Z; fl_ip : nat; fl_off : Z
}.
Definition file0 : file := File FD_NONE 0 false false 0 0 0.
Definition with_fref (r : Z) (f : file) : file :=
  File (fl_type f) r (fl_readable f) (fl_writable f) (fl_pipe f) (fl_ip f) (fl_off f).
Definition with_ftype (t : fdtype) (f : file) : file :=
  File t (fl_ref f) (fl_readable f) (fl_writable f) (fl_pipe f) (fl_ip f) (fl_off f).
Definition with_foff (o : Z) (f : file) : file :=
  File (fl_type f) (fl_ref f) (fl_readable f) (fl_writable f) (fl_pipe f) (fl_ip f) o.

(** [struct proc]; the trap frame is kept as a record, the kernel context is
    in [Switch.v]. *)
Inductive procstate := UNUSED | EMBRYO | SLEEPING | RUNNABLE | RUNNING | ZOMBIE.
#[export] Instance procstate_eq_dec : EqDecision procstate.
Proof. solve_decision. Defined.

(** Sleep channels are addresses: of a pipe's counters, of a process, of
    [ticks], or another kernel object. *)
Inductive wchan := WPipe (p : Z) (c : Pipe.chan) | WProc (k : nat) | WTicks | WAddr (a : Z).
#[export] Instance wchan_eq_dec : EqDecision wchan.
Proof. solve_decision. Defined.

Record trapframe := Trapframe {
  tf_eax : Z; tf_esp : Z; tf_eip : Z;
  tf_cs : Z; tf_ds : Z; tf_es : Z; tf_ss : Z; tf_eflags : Z;
  tf_regs : list Z
}.
Definition tf0 : trapframe := Trapframe 0 0 0 0 0 0 0 0 [].

Record proc := Proc {
  p_sz : Z; p_pgdir : Z; p_kstack : Z; p_state : procstate; p_pid : Z; p_parent : option nat;
  p_tf : trapframe; p_chan : option wchan; p_killed : bool;
  p_ofile : list (option nat); p_cwd : option nat; p_name : list Z
}.
Definition proc0 : proc :=
  Proc 0 0 0 UNUSED 0 None tf0 None false (replicate (Z.to_nat NOFILE) None) None (replicate 16 0).

Definition with_mm (sz pgdir : Z) (p : proc) : proc :=
  Proc sz pgdir (p_kstack p) (p_state p) (p_pid p) (p_parent p) (p_tf p) (p_chan p) (p_killed p) (p_ofile p) (p_cwd p) (p_name p).
Definition with_kstack (k : Z) (p : proc) : proc :=
  Proc (p_sz p) (p_pgdir p) k (p_state p) (p_pid p) (p_parent p) (p_tf p) (p_chan p) (p_killed p) (p_ofile p) (p_cwd p) (p_name p).
Definition with_state (st : procstate) (p : proc) : proc :=
  Proc (p_sz p) (p_pgdir p) (p_kstack p) st (p_pid p) (p_parent p) (p_tf p) (p_chan p) (p_killed p) (p_ofile p) (p_cwd p) (p_name p).
Definition with_pid (i : Z) (p : proc) : proc :=
  Proc (p_sz p) (p_pgdir p) (p_kstack p) (p_state p) i (p_parent p) (p_tf p) (p_chan p) (p_killed p) (p_ofile p) (p_cwd p) (p_name p).
Definition with_parent (q : option nat) (p : proc) : proc :=
  Proc (p_sz p) (p_pgdir p) (p_kstack p) (p_state p) (p_pid p) q (p_tf p) (p_chan p) (p_killed p) (p_ofile p) (p_cwd p) (p_name p).
Definition with_tf (t : trapframe) (p : proc) : proc :=
  Proc (p_sz p) (p_pgdir p) (p_kstack p) (p_state p) (p_pid p) (p_parent p) t (p_chan p) (p_killed p) (p_ofile p) (p_cwd p) (p_name p).
Definition with_chan (c : option wchan) (p : proc) : proc :=
  Proc (p_sz p) (p_pgdir p) (p_kstack p) (p_state p) (p_pid p) (p_parent p) (p_tf p) c (p_killed p) (p_ofile p) (p_cwd p) (p_name p).
Definition with_killed (b : bool) (p : proc) : proc :=
  Proc (p_sz p) (p_pgdir p) (p_kstack p) (p_state p) (p_pid p) (p_parent p) (p_tf p) (p_chan p) b (p_ofile p) (p_cwd p) (p_name p).
Definition with_ofile (l : list (option nat)) (p : proc) : proc :=
  Proc (p_sz p) (p_pgdir p) (p_kstack p) (p_state p) (p_pid p) (p_parent p) (p_tf p) (p_chan p) (p_killed p) l (p_cwd p) (p_name p).
Definition with_cwd (c : option nat) (p : proc) : proc :=
  Proc (p_sz p) (p_pgdir p) (p_kstack p) (p_state p) (p_pid p) (p_parent p) (p_tf p) (p_chan p) (p_killed p) (p_ofile p) c (p_name p).
Definition with_name (n : list Z) (p : proc) : proc :=
  Proc (p_sz p) (p_pgdir p) (p_kstack p) (p_state p) (p_pid p) (p_parent p) (p_tf p) (p_chan p) (p_killed p) (p_ofile p) (p_cwd p) n.
Definition with_eax (v : Z) (t : trapframe) : trapframe :=
  Trapframe v (tf_esp t) (tf_eip t) (tf_cs t) (tf_ds t) (tf_es t) (tf_ss t) (tf_eflags t) (tf_regs t).
Definition with_entry (eip esp : Z) (t : trapframe) : trapframe :=
  Trapframe (tf_eax t) esp eip (tf_cs t) (tf_ds t) (tf_es t) (tf_ss t) (tf_eflags t) (tf_regs t).

(** [k_self] is [proc], the process running on this CPU; [k_counts] and
    [k_inits] are [count_array] and [inits] of sysfile.c. *)
Record kern (S : Type) := Kern {
  k_fs : fs S; k_files : list file; k_pipes : gmap Z pipe; k_kmem : kmem;
  k_procs : list proc; k_self : nat; k_initproc : option nat; k_nextpid : Z;
  k_ticks : Z; k_counts : list Z; k_inits : Z
}.
Arguments Kern {S}.
Arguments k_fs {S}. Arguments k_files {S}. Arguments k_pipes {S}. Arguments k_kmem {S}.
Arguments k_procs {S}. Arguments k_self {S}. Arguments k_initproc {S}. Arguments k_nextpid {S}.
Arguments k_ticks {S}. Arguments k_counts {S}. Arguments k_inits {S}.

Definition set_fs {S} (x : fs S) (s : kern S) : kern S :=
  Kern x (k_files s) (k_pipes s) (k_kmem s) (k_procs s) (k_self s) (k_initproc s) (k_nextpid s) (k_ticks s) (k_counts s) (k_inits s).
Definition set_files {S} (x : list file) (s : kern S) : kern S :=
  Kern (k_fs s) x (k_pipes s) (k_kmem s) (k_procs s) (k_self s) (k_initproc s) (k_nextpid s) (k_ticks s) (k_counts s) (k_inits s).
Definition set_pipes {S} (x : gmap Z pipe) (s : kern S) : kern S :=
  Kern (k_fs s) (k_files s) x (k_kmem s) (k_procs s) (k_self s) (k_initproc s) (k_nextpid s) (k_ticks s) (k_counts s) (k_inits s).
Definition set_kmem {S} (x : kmem) (s : kern S) : kern S :=
  Kern (k_fs s) (k_files s) (k_pipes s) x (k_procs s) (k_self s) (k_initproc s) (k_nextpid s) (k_ticks s) (k_counts s) (k_inits s).
Definition set_procs {S} (x : list proc) (s : kern S) : kern S :=
  Kern (k_fs s) (k_files s) (k_pipes s) (k_kmem s) x (k_self s) (k_initproc s) (k_nextpid s) (k_ticks s) (k_counts s) (k_inits s).
Definition set_self {S} (x : nat) (s : kern S) : kern S :=
  Kern (k_fs s) (k_files s) (k_pipes s) (k_kmem s) (k_procs s) x (k_initproc s) (k_nextpid s) (k_ticks s) (k_counts s) (k_inits s).
Definition set_initproc {S} (x : option nat) (s : kern S) : kern S :=
  Kern (k_fs s) (k_files s) (k_pipes s) (k_kmem s) (k_procs s) (k_self s) x (k_nextpid s) (k_ticks s) (k_counts s) (k_inits s).
Definition set_nextpid {S} (x : Z) (s : kern S) : kern S :=
  Kern (k_fs s) (k_files s) (k_pipes s) (k_kmem s) (k_procs s) (k_self s) (k_initproc s) x (k_ticks s) (k_counts s) (k_inits s).
Definition set_ticks {S} (x : Z) (s : kern S) : kern S :=
  Kern (k_fs s) (k_files s) (k_pipes s) (k_kmem s) (k_procs s) (k_self s) (k_initproc s) (k_nextpid s) x (k_counts s) (k_inits s).
Definition set_counts {S} (c : list Z) (i : Z) (s : kern S) : kern S :=
  Kern (k_fs s) (k_files s) (k_pipes s) (k_kmem s) (k_procs s) (k_self s) (k_initproc s) (k_nextpid s) (k_ticks s) c i.

Section access.
Context {S : Type}.

Definition onfs {A} (m : M (fs S) A) : M (kern S) A := zoom k_fs set_fs m.
Definition onkm {A} (m : M kmem A) : M (kern S) A := zoom k_kmem set_kmem m.

Definition getp (k : nat) : M (kern S) proc := let! s := get in the "proc" (k_procs s !! k).
Definition modp (k : nat) (g : proc -> proc) : M (kern S) unit :=
  modify (fun s => set_procs (alter g k (k_procs s)) s).
(** The current process. *)
Definition self : M (kern S) proc := let! s := get in getp (k_self s).
Definition modself (g : proc -> proc) : M (kern S) unit := let! s := get in modp (k_self s) g.

Definition getf (f : nat) : M (kern S) file := let! s := get in the "file" (k_files s !! f).
Definition modf (f : nat) (g : file -> file) : M (kern S) unit :=
  modify (fun s => set_files (alter g f (k_files s)) s).

(** The byte at virtual address [a] of the current process; an unmapped
    address faults. *)
Definition ubyte (a : Z) : M (kern S) Z :=
  let! p := self in
  let! s := get in
  match translate (km_mem (k_kmem s)) (p_pgdir p) a with
  | Some ka => ret (km_mem (k_kmem s) ka)
  | None => undef "page fault"
  end.
Definition ustore (a b : Z) : M (kern S) unit :=
  let! p := self in
  let! s := get in
  match translate (km_mem (k_kmem s)) (p_pgdir p) a with
  | Some ka => onkm (modify (fun k => set_mem k (upd (km_mem k) ka b)))
  | None => undef "page fault"
  end.
Fixpoint ubytes (a : Z) (n : nat) : M (kern S) (list Z) :=
  match n with
  | O => ret []
  | Datatypes.S n => let! b := ubyte a in let! bs := ubytes (u32 (a + 1)) n in ret (b :: bs)
  end.
Fixpoint ustores (a : Z) (bs : list Z) : M (kern S) unit :=
  match bs with
  | [] => ret tt
  | b :: bs => ustore a b ;;; ustores (u32 (a + 1)) bs
  end.
End access.
