(* ===== verification/Entry.v ===== *)
(** * Entering the kernel (bootasm.S, entryother.S, entry.S, asm.h)

    The code that takes a processor from real mode to [bootmain], to [main]
    and, for the other processors, to [mpenter].  Memory is physical; the
    segment registers keep the base that was in force when they were loaded,
    and an address goes through segmentation, paging and the A20 gate.  Code
    lies in memory, so that the next instruction is fetched at an address that
    is translated like any other. *)

From S2P Require Import Prelude CString Memory X86 Kalloc Vm Kern.
Import Kstring.

(** The keyboard controller, which also drives address line 20. *)
Class Kbc (P : Type) := {
  kb_in : Z -> P -> Z * P;
  kb_out : Z -> Z -> P -> P;
  kb_a20 : P -> bool
}.

(** The status register at 0x64: bit 1 is set while the controller is busy. *)
Definition kb_idle {P} `{Kbc P} (p : P) : Prop := Z.testbit (kb_in 0x64 p).1 1 = false.
Definition kb_poll {P} `{Kbc P} (p : P) : P := (kb_in 0x64 p).2.
(** The controller does not stay busy; an idle one that gets the command to
    write its output port and, when it is idle again, the value 0xdf, opens the
    gate. *)
Class KbcOk (P : Type) `{Kbc P} := {
  kb_ready : forall p, exists n, kb_idle (Nat.iter n kb_poll p);
  kb_enables : forall p n, kb_idle p -> let q := Nat.iter n kb_poll (kb_out 0x64 0xd1 (kb_poll p)) in kb_idle q -> kb_a20 (kb_out 0x60 0xdf (kb_poll q)) = true
}.

(** ** The processor *)

Section entry.
Context {P : Type} `{Kbc P}.

(** [e_base] holds the bases of the segment registers, [e_32] is the size of
    the code segment, [e_zf] and [e_if] are two of the flags. *)
Record cpu := Cpu { e_rg : regs; e_sg : segs; e_base : segs; e_32 : bool; e_eip : Z; e_zf : bool; e_if : bool; e_sys : system; e_mem : mem; e_kbc : P }.

Definition with_rg (x : regs) (s : cpu) : cpu := Cpu x (e_sg s) (e_base s) (e_32 s) (e_eip s) (e_zf s) (e_if s) (e_sys s) (e_mem s) (e_kbc s).
Definition with_seg (g : sreg) (sel base : Z) (s : cpu) : cpu :=
  Cpu (e_rg s) (set_seg g sel (e_sg s)) (set_seg g base (e_base s)) (e_32 s) (e_eip s) (e_zf s) (e_if s) (e_sys s) (e_mem s) (e_kbc s).
Definition with_32 (b : bool) (s : cpu) : cpu := Cpu (e_rg s) (e_sg s) (e_base s) b (e_eip s) (e_zf s) (e_if s) (e_sys s) (e_mem s) (e_kbc s).
Definition with_eip (a : Z) (s : cpu) : cpu := Cpu (e_rg s) (e_sg s) (e_base s) (e_32 s) a (e_zf s) (e_if s) (e_sys s) (e_mem s) (e_kbc s).
Definition with_zf (b : bool) (s : cpu) : cpu := Cpu (e_rg s) (e_sg s) (e_base s) (e_32 s) (e_eip s) b (e_if s) (e_sys s) (e_mem s) (e_kbc s).
Definition with_if (b : bool) (s : cpu) : cpu := Cpu (e_rg s) (e_sg s) (e_base s) (e_32 s) (e_eip s) (e_zf s) b (e_sys s) (e_mem s) (e_kbc s).
Definition with_sys (y : system) (s : cpu) : cpu := Cpu (e_rg s) (e_sg s) (e_base s) (e_32 s) (e_eip s) (e_zf s) (e_if s) y (e_mem s) (e_kbc s).
Definition with_mem (m : mem) (s : cpu) : cpu := Cpu (e_rg s) (e_sg s) (e_base s) (e_32 s) (e_eip s) (e_zf s) (e_if s) (e_sys s) m (e_kbc s).
Definition with_kbc (p : P) (s : cpu) : cpu := Cpu (e_rg s) (e_sg s) (e_base s) (e_32 s) (e_eip s) (e_zf s) (e_if s) (e_sys s) (e_mem s) p.

(** *** Addresses *)

Definition protected (y : system) : bool := Z.testbit (cr0 y) 0.
Definition paging (y : system) : bool := Z.testbit (cr0 y) 31.

Definition PTE_PS : Z := 0x80.

(** The page-table walk of a kernel access; [None] is a page fault.  A write
    needs a writable page when [CR0_WP] is set. *)
Definition walk (y : system) (m : mem) (write : bool) (a : Z) : option Z :=
  let may e := Z.testbit e 0 && (negb write || Z.testbit e 1 || negb (Z.testbit (cr0 y) 16)) in
  let pde := load32 m (PTE_ADDR (cr3 y) + 4 * PDX a) in
  if negb (may pde) then None
  else if Z.testbit pde 7 && Z.testbit (cr4 y) 4 then Some (bits pde 22 10 * 2 ^ 22 + a mod 2 ^ 22)
  else
    let pte := load32 m (PTE_ADDR pde + 4 * PTX a) in
    if negb (may pte) then None else Some (PTE_ADDR pte + a mod 2 ^ 12).

(** Without the gate, bit 20 of an address is 0. *)
Definition gate_a20 (p : P) (a : Z) : Z := if kb_a20 p then a else Z.ldiff a (2 ^ 20).
Definition translate (s : cpu) (write : bool) (a : Z) : option Z :=
  gate_a20 (e_kbc s) <$> (if paging (e_sys s) then walk (e_sys s) (e_mem s) write a else Some a).

Definition read32 (g : sreg) (a : Z) (s : cpu) : option Z := load32 (e_mem s) <$> translate s false (get_seg g (e_base s) + a).
Definition read64 (a : Z) (s : cpu) : option Z := load64 (e_mem s) <$> translate s false a.
Definition write32 (g : sreg) (a v : Z) (s : cpu) : option cpu :=
  (fun pa => with_mem (store32 (e_mem s) pa v) s) <$> translate s true (get_seg g (e_base s) + a).

(** *** Segment registers *)

(** A selector as the base; in protected mode a descriptor of the table. *)
Definition descriptor (sel : Z) (s : cpu) : option Z :=
  if (gdtr (e_sys s)).2 <? 8 * (sel / 8) + 7 then None
  else q ← read64 ((gdtr (e_sys s)).1 + 8 * (sel / 8)) s; if s_present (decode_seg q) && s_app (decode_seg q) then Some q else None.
Definition load_sreg (g : sreg) (sel : Z) (s : cpu) : option cpu :=
  if negb (protected (e_sys s)) then Some (with_seg g sel (16 * sel) s)
  else if sel / 4 =? 0 then match g with SS | CS => None | _ => Some (with_seg g sel 0 s) end
  else q ← descriptor sel s; Some (with_seg g sel (s_base (decode_seg q)) s).

(** *** Instructions *)

Inductive creg := CR0 | CR3 | CR4.
Definition get_creg (c : creg) (y : system) : Z := match c with CR0 => cr0 y | CR3 => cr3 y | CR4 => cr4 y end.
Definition set_creg (c : creg) (v : Z) (y : system) : system :=
  match c with
  | CR0 => System (gdtr y) (idtr y) (tr y) v (cr3 y) (cr4 y)
  | CR3 => System (gdtr y) (idtr y) (tr y) (cr0 y) v (cr4 y)
  | CR4 => System (gdtr y) (idtr y) (tr y) (cr0 y) (cr3 y) v
  end.

Inductive ei :=
| Cli
| XorAX | MovAX (v : Z) | MovAL (v : Z) | MovS (g : sreg)
| InAL (port : Z) | OutAL (port : Z) | TestAL (v : Z) | Jnz (a : Z)
| Lgdt (a : Z) | FromCR (c : creg) | ToCR (c : creg) | OrEAX (v : Z)
| Ljmp (sel a : Z)
| MovR (v : Z) (r : reg) | LoadR (a : Z) (r : reg)
| JmpEAX | CallD (a : Z) | CallM (a : Z).

Definition with_eax (v : Z) (s : cpu) : cpu := with_rg (set_reg EAX v (e_rg s)) s.
Definition epush (v : Z) (s : cpu) : option cpu :=
  let sp := u32 (esp (e_rg s) - 4) in write32 SS sp v (with_rg (set_reg ESP sp (e_rg s)) s).

(** The instruction pointer is already at the next instruction; [None] is a
    fault. *)
Definition eexec (i : ei) (s : cpu) : option cpu :=
  let x := eax (e_rg s) in
  match i with
  | Cli => Some (with_if false s)
  | XorAX => Some (with_zf true (with_eax (x - x mod 2 ^ 16) s))
  | MovAX v => Some (with_eax (x - x mod 2 ^ 16 + v) s)
  | MovAL v => Some (with_eax (x - x mod 2 ^ 8 + v) s)
  | MovS g => load_sreg g (x mod 2 ^ 16) s
  | InAL port => let '(v, p) := kb_in port (e_kbc s) in Some (with_kbc p (with_eax (x - x mod 2 ^ 8 + v mod 2 ^ 8) s))
  | OutAL port => Some (with_kbc (kb_out port (x mod 2 ^ 8) (e_kbc s)) s)
  | TestAL v => Some (with_zf (Z.land (x mod 2 ^ 8) v =? 0) s)
  | Jnz a => Some (if e_zf s then s else with_eip a s)
  | Lgdt a => (* 24 bits of the base in 16-bit code *)
      lim ← read32 DS a s; base ← read32 DS (a + 2) s;
      let y := e_sys s in
      let base := if e_32 s then base else base mod 2 ^ 24 in
      Some (with_sys (System (base, u16 lim) (idtr y) (tr y) (cr0 y) (cr3 y) (cr4 y)) s)
  | FromCR c => Some (with_eax (get_creg c (e_sys s)) s)
  | ToCR c =>
      let s := with_sys (set_creg c x (e_sys s)) s in
      if paging (e_sys s) && negb (protected (e_sys s)) then None else Some s
  | OrEAX v => Some (with_eax (Z.lor x v) s)
  | Ljmp sel a =>
      q ← descriptor sel s;
      if Z.testbit (s_type (decode_seg q)) 3 then Some (with_eip a (with_32 (Z.testbit q 54) (with_seg CS sel (s_base (decode_seg q)) s))) else None
  | MovR v r => Some (with_rg (set_reg r v (e_rg s)) s)
  | LoadR a r => v ← read32 DS a s; Some (with_rg (set_reg r v (e_rg s)) s)
  | JmpEAX => Some (with_eip x s)
  | CallD a => s' ← epush (e_eip s) s; Some (with_eip a s')
  | CallM a => v ← read32 DS a s; s' ← epush (e_eip s) s; Some (with_eip v s')
  end.

(** Code at physical address [base]: each instruction with its length, and
    whether it was assembled for 32 bits. *)
Definition ecode : Type := list (bool * ei * Z).
Fixpoint at_offset (l : ecode) (k : Z) : option (bool * ei * Z) :=
  match l with
  | [] => None
  | x :: l => if k =? 0 then Some x else at_offset l (k - x.2)
  end.
Definition estep (base : Z) (l : ecode) (s : cpu) : option cpu :=
  pa ← translate s false (cs (e_base s) + e_eip s);
  '(b, i, n) ← at_offset l (pa - base);
  if Bool.eqb b (e_32 s) then eexec i (with_eip (e_eip s + n) s) else None.
Definition esteps (base : Z) (l : ecode) : cpu -> cpu -> Prop := rtc (fun s s' => estep base l s = Some s').

(** ** The code *)

(** asm.h: a descriptor as the assembler lays it out. *)
Definition SEG_NULLASM : list Z := [0; 0; 0; 0; 0; 0; 0; 0].
Definition SEG_ASM (type base lim : Z) : list Z :=
  le_bytes 2 (Z.land (Z.shiftr lim 12) 0xffff) ++ le_bytes 2 (Z.land base 0xffff) ++
  [Z.land (Z.shiftr base 16) 0xff; Z.lor 0x90 type; Z.lor 0xC0 (Z.land (Z.shiftr lim 28) 0xf); Z.land (Z.shiftr base 24) 0xff].
(** [gdt] and [gdtdesc] of bootasm.S and entryother.S, at [gdt]. *)
Definition boot_gdt (gdt : Z) : list Z :=
  SEG_NULLASM ++ SEG_ASM (Z.lor STA_X STA_R) 0 0xffffffff ++ SEG_ASM STA_W 0 0xffffffff ++ le_bytes 2 23 ++ le_bytes 4 gdt.

(** The parts that both have: the first instructions, *)
Definition real_start : ecode := [ (false, Cli, 1); (false, XorAX, 2); (false, MovS DS, 2); (false, MovS ES, 2); (false, MovS SS, 2) ].
(** and those from [lgdt] on: [desc] and [start32] are labels,
    [n] is the length of the long jump. *)
Definition mode_switch (desc start32 n : Z) : ecode :=
  [ (false, Lgdt desc, 5); (false, FromCR CR0, 3); (false, OrEAX CR0_PE, 4); (false, ToCR CR0, 3); (false, Ljmp (Z.shiftl SEG_KCODE 3) start32, n);
    (true, MovAX (Z.shiftl SEG_KDATA 3), 4); (true, MovS DS, 2); (true, MovS ES, 2); (true, MovS SS, 2);
    (true, MovAX 0, 4); (true, MovS FS, 2); (true, MovS GS, 2) ].

(** bootasm.S, loaded at 0x7c00, up to the call. *)
Definition bootasm (bootmain : Z) : ecode :=
  real_start ++
  [ (* seta20.1, at 0x7c09 *)
    (false, InAL 0x64, 2); (false, TestAL 0x2, 2); (false, Jnz 0x7c09, 2); (false, MovAL 0xd1, 2); (false, OutAL 0x64, 2);
    (* seta20.2, at 0x7c13 *)
    (false, InAL 0x64, 2); (false, TestAL 0x2, 2); (false, Jnz 0x7c13, 2); (false, MovAL 0xdf, 2); (false, OutAL 0x60, 2) ] ++
  mode_switch 0x7c78 0x7c31 5 ++
  [ (true, MovR 0x7c00 ESP, 5); (true, CallD bootmain, 5) ].

(** entryother.S, copied to 0x7000. *)
Definition entryother : ecode :=
  real_start ++ mode_switch 0x7084 0x7020 8 ++
  [ (true, FromCR CR4, 3); (true, OrEAX CR4_PSE, 3); (true, ToCR CR4, 3);
    (true, LoadR (0x7000 - 12) EAX, 5); (true, ToCR CR3, 3);
    (true, FromCR CR0, 3); (true, OrEAX (Z.lor CR0_PE (Z.lor CR0_PG CR0_WP)), 5); (true, ToCR CR0, 3);
    (true, LoadR (0x7000 - 4) ESP, 6); (true, CallM (0x7000 - 8), 6) ].

(** entry.S; [pgdir] (the address of [entrypgdir]), [stack] and [main] are addresses of the linked
    kernel. *)
Definition entry_S (pgdir stack main : Z) : ecode :=
  [ (true, FromCR CR4, 3); (true, OrEAX CR4_PSE, 3); (true, ToCR CR4, 3);
    (true, MovR (V2P pgdir) EAX, 5); (true, ToCR CR3, 3);
    (true, FromCR CR0, 3); (true, OrEAX (Z.lor CR0_PG CR0_WP), 5); (true, ToCR CR0, 3);
    (true, MovR (stack + KSTACKSIZE) ESP, 5); (true, MovR main EAX, 5); (true, JmpEAX, 2) ].

(** The boot page table of main.c. *)
Definition entry_pde : Z := Z.lor (Z.lor PTE_P PTE_W) PTE_PS.
Definition entrypgdir : list Z := <[512%nat := entry_pde]> (<[0%nat := entry_pde]> (replicate 1024 0)).

(** ** Paging with the boot page table *)

Definition MB4 : Z := 2 ^ 22.
(** The boot page table is in force. *)
Record boot_paging (s : cpu) : Prop := {
  bp_on : paging (e_sys s) = true;
  bp_pse : Z.testbit (cr4 (e_sys s)) 4 = true;
  bp_table : words (e_mem s) (PTE_ADDR (cr3 (e_sys s))) entrypgdir;
  bp_a20 : kb_a20 (e_kbc s) = true
}.

Lemma PDX_eq a : PDX a = a / 2 ^ 22 mod 2 ^ 10.
Proof. unfold PDX. change 0x3FF with (Z.ones 10). by rewrite Z.land_ones, Z.shiftr_div_pow2. Qed.
Lemma entrypgdir_at k : (k < 1024)%nat -> entrypgdir !! k = Some (if decide (k = 0%nat \/ k = 512%nat) then entry_pde else 0).
Proof.
  intros Hk. unfold entrypgdir. destruct (decide (k = 512%nat)) as [->|H5]; [by rewrite list_lookup_insert_eq by (rewrite length_insert, length_replicate; lia)|]. rewrite list_lookup_insert_ne by done.
  destruct (decide (k = 0%nat)) as [->|H0]; [done|]. rewrite list_lookup_insert_ne by done. rewrite lookup_replicate_2 by done. by case_decide; [lia|].
Qed.

(** The first 4 megabytes are mapped at 0 and at [KERNBASE], and nothing
    else is. *)
Lemma boot_translate s w a : boot_paging s -> 0 <= a < 2 ^ 32 -> translate s w a =
  if decide (a < MB4) then Some a else if decide (KERNBASE <= a < KERNBASE + MB4) then Some (a - KERNBASE) else None.
Proof.
  intros [B1 B2 B3 B4] Ha. unfold translate. rewrite B1. unfold walk. cbv zeta. rewrite PDX_eq. unfold MB4, KERNBASE.
  assert (0 <= a / 2 ^ 22 < 2 ^ 10) as Hd by (split; [apply Z.div_pos | apply Z.div_lt_upper_bound]; lia). rewrite (Z.mod_small _ _ Hd).
  pose proof (Z.div_mod a (2 ^ 22) ltac:(lia)) as Em. pose proof (Z.mod_pos_bound a (2 ^ 22) ltac:(lia)) as Hm. set (d := a / 2 ^ 22) in *.
  assert (load32 (e_mem s) (PTE_ADDR (cr3 (e_sys s)) + 4 * d) = if decide (d = 0 \/ d = 512) then entry_pde else 0) as ->.
  { rewrite <- (Z2Nat.id d) at 1 by lia. apply B3. rewrite entrypgdir_at by lia. f_equal. destruct (decide (d = 0 \/ d = 512)), (decide (Z.to_nat d = 0%nat \/ Z.to_nat d = 512%nat)); lia || done. }
  destruct (decide (d = 0 \/ d = 512)) as [Hp|Hp].
  - change (Z.testbit entry_pde 0) with true. change (Z.testbit entry_pde 1) with true. change (Z.testbit entry_pde 7) with true. rewrite B2, orb_true_r. cbn [andb orb negb]. change (bits entry_pde 22 10 * 2 ^ 22) with 0.
    cbn [fmap option_fmap option_map]. unfold gate_a20. rewrite B4. destruct (decide (a < 2 ^ 22)); [f_equal; lia|]. rewrite decide_True by lia. f_equal. lia.
  - rewrite Z.bits_0. cbn [andb negb]. cbn iota. rewrite !decide_False by lia. done.
Qed.

(** ** Steps *)

Lemma translate_off s w a : paging (e_sys s) = false -> kb_a20 (e_kbc s) = true -> translate s w a = Some a.
Proof. intros Hp Ha. unfold translate, gate_a20. by rewrite Hp, Ha. Qed.
Lemma estep_at base l s k b i n : translate s false (cs (e_base s) + e_eip s) = Some (base + k) -> at_offset l k = Some (b, i, n) -> e_32 s = b ->
  estep base l s = eexec i (with_eip (e_eip s + n) s).
Proof. intros E1 E2 E3. unfold estep. rewrite E1. cbn [mbind option_bind]. replace (base + k - base) with k by lia. rewrite E2. cbn. by rewrite E3, eqb_reflx. Qed.
Lemma esteps_at base l s k b i n s1 s' : translate s false (cs (e_base s) + e_eip s) = Some (base + k) -> at_offset l k = Some (b, i, n) -> e_32 s = b ->
  eexec i (with_eip (e_eip s + n) s) = Some s1 -> esteps base l s1 s' -> esteps base l s s'.
Proof. intros E1 E2 E3 E4 HS. eapply rtc_l; [|exact HS]. cbn beta. by rewrite (estep_at _ _ _ _ _ _ _ E1 E2 E3). Qed.

Lemma PTE_ADDR_aligned a : 0 <= a < 2 ^ 32 -> a mod PGSIZE = 0 -> PTE_ADDR a = a.
Proof. intros Ha Hm. etransitivity; [exact (page_mask a Ha)|]. rewrite Hm. lia. Qed.
Lemma V2P_low a : KERNBASE <= a -> a < KERNBASE + MB4 -> V2P a = a - KERNBASE.
Proof. unfold V2P, KERNBASE, MB4. intros. apply u32_small. lia. Qed.

(** A piece of the code at its offset. *)
Definition code_len (l : ecode) : Z := foldr (fun x n => x.2 + n) 0 l.
Lemma at_offset_post l l' j x : at_offset l j = Some x -> at_offset (l ++ l') j = Some x.
Proof. revert j. induction l as [|y l IH]; intros j Hj; [done|]. cbn in *. destruct (j =? 0); [done | by apply IH]. Qed.
Lemma at_offset_pos l j x : Forall (fun y => 0 < y.2) l -> at_offset l j = Some x -> 0 <= j.
Proof. intros Hl. revert j. induction Hl as [|y l Hy _ IH]; intros j Hj; [done|]. cbn in *. destruct (Z.eqb_spec j 0) as [E|E]; [lia|]. specialize (IH _ Hj). lia. Qed.
Lemma at_offset_pre l l' j x : Forall (fun y => 0 < y.2) l -> Forall (fun y => 0 < y.2) l' -> at_offset l' j = Some x -> at_offset (l ++ l') (code_len l + j) = Some x.
Proof.
  intros Hl Hl' Hj. pose proof (at_offset_pos _ _ _ Hl' Hj). induction Hl as [|y l Hy Hl IH]; [exact Hj|]. cbn [app at_offset code_len foldr].
  change (foldr (fun x n => x.2 + n) 0 l) with (code_len l) in *. assert (0 <= code_len l) by (clear - Hl; unfold code_len; induction Hl; cbn; lia).
  rewrite (proj2 (Z.eqb_neq _ _)) by lia. by replace (y.2 + code_len l + j - y.2) with (code_len l + j) by lia.
Qed.
Lemma code_part l1 l2 l3 j x : forallb (fun y => 0 <? y.2) (l1 ++ l2) = true -> at_offset l2 j = Some x -> at_offset (l1 ++ l2 ++ l3) (code_len l1 + j) = Some x.
Proof.
  intros Hb%Is_true_true_2%forallb_True Hj. assert (Forall (fun y => 0 < y.2) (l1 ++ l2)) as Hp by (eapply Forall_impl; [exact Hb|]; intros y Hy; cbn in Hy; apply Z.ltb_lt; by destruct (0 <? y.2)).
  apply Forall_app in Hp as [H1 H2]. rewrite app_assoc. by apply at_offset_post, at_offset_pre.
Qed.

(** The bits that the code sets in the control registers. *)
Lemma pse_set c : Z.testbit (Z.lor c CR4_PSE) 4 = true.
Proof. rewrite Z.lor_spec. apply orb_true_r. Qed.
Lemma pg_set c v : Z.testbit v 31 = true -> Z.testbit (Z.lor c v) 31 = true.
Proof. intros Hv. rewrite Z.lor_spec, Hv. apply orb_true_r. Qed.
Lemma pe_kept c v : Z.testbit c 0 = true \/ Z.testbit v 0 = true -> Z.testbit (Z.lor c v) 0 = true.
Proof. intros [Hc|Hv]; rewrite Z.lor_spec; [by rewrite Hc | rewrite Hv; apply orb_true_r]. Qed.

Lemma eexec_ToCR c s : (paging (set_creg c (eax (e_rg s)) (e_sys s)) = true -> protected (set_creg c (eax (e_rg s)) (e_sys s)) = true) ->
  eexec (ToCR c) s = Some (with_sys (set_creg c (eax (e_rg s)) (e_sys s)) s).
Proof. intros Hs. cbn [eexec]. cbv zeta. change (e_sys (with_sys ?y s)) with y. destruct (paging _); [rewrite Hs by done | idtac]; done. Qed.

Ltac estate := cbv beta iota delta [with_eip with_eax with_rg with_sys with_zf with_if with_mem with_kbc with_32 with_seg set_reg set_creg get_creg get_reg set_seg get_seg e_rg e_sg e_base e_32 e_eip e_zf e_if e_sys e_mem e_kbc
  eax ecx edx ebx esp ebp esi edi cs ds es fs gs ss gdtr idtr tr cr0 cr3 cr4].
Ltac ered := cbn [eexec]; cbv zeta; estate; reflexivity.
Ltac elow k H tac := eapply (esteps_at _ _ _ k); [apply H; [reflexivity | estate; lia] | reflexivity | reflexivity | tac |]; estate.
Ltac ehigh k H tac := eapply (esteps_at _ _ _ k); [apply H; [lia | estate; lia] | reflexivity | reflexivity | tac |]; estate.

(** The instruction at an offset that is not a numeral. *)
Ltac eoff := cbn [at_offset mode_switch snd]; repeat (rewrite (proj2 (Z.eqb_neq _ _)) by lia); rewrite (proj2 (Z.eqb_eq _ _)) by lia; reflexivity.

(** *** entry.S *)

(** C28: the boot processor enters [main].  Started at the physical address of
    [entry] with paging off, the code of entry.S turns on paging with
    [entrypgdir], and although it then still runs at low addresses every
    instruction is found; it ends at [main] with the boot stack, and with the
    first 4 megabytes of memory visible at 0 and at [KERNBASE], which is where
    the kernel is linked, and nothing else. *)
Theorem entry_reaches_main s entry pgdir stack main :
  e_32 s = true -> cs (e_base s) = 0 -> protected (e_sys s) = true -> paging (e_sys s) = false -> kb_a20 (e_kbc s) = true ->
  KERNBASE <= entry -> entry + 40 <= KERNBASE + MB4 -> KERNBASE <= pgdir < KERNBASE + MB4 -> pgdir mod PGSIZE = 0 ->
  words (e_mem s) (V2P pgdir) entrypgdir -> e_eip s = V2P entry ->
  exists s', esteps (V2P entry) (entry_S pgdir stack main) s s' /\ e_eip s' = main /\ esp (e_rg s') = stack + KSTACKSIZE /\
    e_mem s' = e_mem s /\ e_base s' = e_base s /\ protected (e_sys s') = true /\
    forall w a, 0 <= a < 2 ^ 32 -> translate s' w a =
      if decide (a < MB4) then Some a else if decide (KERNBASE <= a < KERNBASE + MB4) then Some (a - KERNBASE) else None.
Proof.
  destruct s as [[xa xc xd xb xsp xbp xsi xdi] G B b eip z i [g id tk c0 c3 c4] m p]. cbn [e_32 e_base e_sys e_kbc e_mem e_eip e_rg]. unfold protected, paging. cbn [cr0].
  intros -> HB Hpe Hpg Ha20 HE1 HE2 HP Hal Hw ->. rewrite (V2P_low entry) by lia. rewrite (V2P_low pgdir) in Hw by lia.
  set (E := entry - KERNBASE) in *. assert (0 <= E /\ E + 40 <= MB4) as HE by (unfold E; lia). clearbody E.
  assert (PTE_ADDR (V2P pgdir) = pgdir - KERNBASE) as Ep.
  { rewrite V2P_low by lia. apply PTE_ADDR_aligned; [unfold MB4, KERNBASE in *; lia|]. unfold KERNBASE, PGSIZE in *. by rewrite Zminus_mod, Hal. }
  set (y := System g id tk (Z.lor c0 (Z.lor CR0_PG CR0_WP)) (V2P pgdir) (Z.lor c4 CR4_PSE)).
  assert (forall x z' e, boot_paging (Cpu x G B true e z' i y m p)) as Hbp.
  { intros x z' e. split; cbn [e_sys e_mem e_kbc cr0 cr3 cr4 y paging]; [by apply pg_set | apply pse_set | by rewrite Ep | exact Ha20]. }
  eexists. split; [|split_and!].
  - assert (forall x z' e y' k, cr0 y' = c0 -> e = E + k -> translate (Cpu x G B true e z' i y' m p) false (cs B + e) = Some (E + k)) as Hlow.
    { intros x z' e y' k Hy ->. rewrite translate_off; [by rewrite HB | cbn; unfold paging; by rewrite Hy | done]. }
    assert (forall x z' e k, 0 <= k < 40 -> e = E + k -> translate (Cpu x G B true e z' i y m p) false (cs B + e) = Some (E + k)) as Hhigh.
    { intros x z' e k Hk ->. rewrite boot_translate; [|apply Hbp | unfold MB4, KERNBASE in *; lia]. rewrite HB. by rewrite decide_True by lia. }
    elow 0 Hlow ered. elow 3 Hlow ered. elow 6 Hlow ltac:(apply eexec_ToCR; unfold paging; estate; by rewrite Hpg).
    elow 9 Hlow ered. elow 14 Hlow ltac:(apply eexec_ToCR; unfold paging; estate; by rewrite Hpg).
    elow 17 Hlow ered. elow 20 Hlow ered. elow 25 Hlow ltac:(apply eexec_ToCR; intros _; apply pe_kept; by left).
    fold y. ehigh 28 Hhigh ered. ehigh 33 Hhigh ered. ehigh 38 Hhigh ered. apply rtc_refl.
  - reflexivity.
  - reflexivity.
  - reflexivity.
  - reflexivity.
  - unfold protected, y. estate. apply pe_kept. by left.
  - intros w a Ha. apply boot_translate; [apply Hbp | exact Ha].
Qed.

(** *** From real to protected mode *)

Lemma low16 x v : 0 <= v < 2 ^ 16 -> (x - x mod 2 ^ 16 + v) mod 2 ^ 16 = v.
Proof.
  intros Hv. pose proof (Z.div_mod x (2 ^ 16) ltac:(lia)) as E. replace (x - x mod 2 ^ 16 + v) with (v + x / 2 ^ 16 * 2 ^ 16) by lia. rewrite Z.mod_add by lia. by apply Z.mod_small.
Qed.
Lemma translate_real s w a : paging (e_sys s) = false -> 0 <= a < 2 ^ 20 -> translate s w a = Some a.
Proof.
  intros Hp Ha. unfold translate, gate_a20. rewrite Hp. cbn [fmap option_fmap option_map]. f_equal. destruct (kb_a20 _); [done|].
  apply Z.bits_inj'. intros n Hn. rewrite Z.ldiff_spec, Z.pow2_bits_eqb by lia. destruct (Z.eqb_spec 20 n) as [<-|]; [|by rewrite andb_true_r].
  rewrite andb_false_r. symmetry. apply Z.testbit_false; [lia|]. by rewrite Z.div_small.
Qed.

Definition code_desc : Z := le_word (SEG_ASM (Z.lor STA_X STA_R) 0 0xffffffff).
Definition data_desc : Z := le_word (SEG_ASM STA_W 0 0xffffffff).

(** The table that the code carries, as the processor reads it. *)
Lemma gdt_read m a : a = 0x706c \/ a = 0x7c60 -> bytes_at m a 30 = boot_gdt a ->
  u16 (load32 m (a + 24)) = 23 /\ load32 m (a + 26) mod 2 ^ 24 = a /\ load64 m (a + 8) = code_desc /\ load64 m (a + 16) = data_desc.
Proof.
  intros Ha Hb. assert (length (boot_gdt a) = 30%nat) as Hlen by reflexivity. assert (forall k v, boot_gdt a !! k = Some v -> m (a + Z.of_nat k) = v) as Hm.
  { intros k v Hk. rewrite <- Hb in Hk. unfold bytes_at in Hk. apply list_lookup_fmap_Some in Hk as (x & -> & Hx). apply lookup_seqZ in Hx as [-> _]. done. }
  assert (forall k, (k + 8 <= 30)%nat -> load64 m (a + Z.of_nat k) = le_word (take 8 (drop k (boot_gdt a)))) as H8.
  { intros k Hk. unfold load64. f_equal. apply list_eq. intros j. destruct (decide (j < 8)%nat) as [Hj|Hj].
    - rewrite lookup_take_lt, lookup_drop by done. destruct (lookup_lt_is_Some_2 (boot_gdt a) (k + j)%nat) as [v Hv]; [lia|]. rewrite Hv, <- (Hm _ _ Hv).
      unfold bytes_at. rewrite list_lookup_fmap, lookup_seqZ_lt by lia. cbn [fmap option_fmap option_map]. do 2 f_equal. lia.
    - rewrite !lookup_ge_None_2; [done | rewrite length_take; lia | unfold bytes_at; rewrite length_fmap, length_seqZ; lia]. }
  assert (forall k v0 v1 v2 v3, take 4 (drop k (boot_gdt a)) = [v0; v1; v2; v3] -> load32 m (a + Z.of_nat k) = le_word [v0; v1; v2; v3]) as H4.
  { intros k v0 v1 v2 v3 Hk. assert (forall j v, (j < 4)%nat -> [v0; v1; v2; v3] !! j = Some v -> m (a + Z.of_nat k + Z.of_nat j) = v) as Hj.
    { intros j v Hj Hv. rewrite <- Hk, lookup_take_lt, lookup_drop in Hv by done. rewrite <- (Hm _ _ Hv). f_equal. lia. }
    assert (k < 30)%nat by (pose proof (f_equal length Hk) as HL; rewrite length_take, length_drop, Hlen in HL; cbn [length] in HL; lia).
    unfold load32. rewrite !u32_small by lia. pose proof (Hj 0%nat v0 ltac:(lia) eq_refl) as J0. cbn [Z.of_nat] in J0. rewrite Z.add_0_r in J0.
    rewrite J0, (Hj 1%nat v1 ltac:(lia) eq_refl : m (a + Z.of_nat k + 1) = _), (Hj 2%nat v2 ltac:(lia) eq_refl : m (a + Z.of_nat k + 2) = _), (Hj 3%nat v3 ltac:(lia) eq_refl : m (a + Z.of_nat k + 3) = _). cbn [le_word]. lia. }
  split_and!.
  - change 24 with (Z.of_nat 24). destruct Ha as [-> | ->]; by rewrite (H4 24%nat _ _ _ _ eq_refl).
  - change 26 with (Z.of_nat 26). destruct Ha as [-> | ->]; by rewrite (H4 26%nat _ _ _ _ eq_refl).
  - change 8 with (Z.of_nat 8). destruct Ha as [-> | ->]; by rewrite (H8 8%nat) by lia.
  - change 16 with (Z.of_nat 16). destruct Ha as [-> | ->]; by rewrite (H8 16%nat) by lia.
Qed.

Lemma read32_real g a s : paging (e_sys s) = false -> get_seg g (e_base s) = 0 -> 0 <= a < 2 ^ 20 -> read32 g a s = Some (load32 (e_mem s) a).
Proof. intros Hp Hg Ha. unfold read32. by rewrite Hg, translate_real. Qed.

(** The table is loaded and paging is off. *)
Record gdt_ready (gdt : Z) (s : cpu) : Prop := {
  gr_mode : protected (e_sys s) = true;
  gr_paging : paging (e_sys s) = false;
  gr_gdtr : gdtr (e_sys s) = (gdt, 23);
  gr_code : load64 (e_mem s) (gdt + 8) = code_desc;
  gr_data : load64 (e_mem s) (gdt + 16) = data_desc
}.
Lemma ready_desc gdt s sel q : 0 <= gdt < 2 ^ 19 -> gdt_ready gdt s -> (sel = 8 /\ q = code_desc) \/ (sel = 16 /\ q = data_desc) -> descriptor sel s = Some q.
Proof.
  intros Hg [_ G2 G3 G4 G5] Hs. unfold descriptor, read64. rewrite G3. cbn [fst snd].
  destruct Hs as [[-> ->]|[-> ->]]; [change (23 <? 8 * (8 / 8) + 7) with false; change (8 * (8 / 8)) with 8 | change (23 <? 8 * (16 / 8) + 7) with false; change (8 * (16 / 8)) with 16];
    cbn iota; rewrite translate_real by (done || lia); cbn [fmap option_fmap option_map mbind option_bind]; by rewrite ?G4, ?G5.
Qed.
Lemma ready_ljmp gdt s a : 0 <= gdt < 2 ^ 19 -> gdt_ready gdt s -> eexec (Ljmp (Z.shiftl SEG_KCODE 3) a) s = Some (with_eip a (with_32 true (with_seg CS 8 0 s))).
Proof. intros Hg Hr. cbn [eexec]. change (Z.shiftl SEG_KCODE 3) with 8. by rewrite (ready_desc gdt s 8 code_desc Hg Hr) by auto. Qed.
Lemma ready_data gdt s g : 0 <= gdt < 2 ^ 19 -> gdt_ready gdt s -> eax (e_rg s) mod 2 ^ 16 = 16 -> eexec (MovS g) s = Some (with_seg g 16 0 s).
Proof.
  intros Hg Hr E. cbn [eexec]. rewrite E. unfold load_sreg. rewrite (gr_mode _ _ Hr). cbn [negb]. change (16 / 4 =? 0) with false. cbn iota.
  by rewrite (ready_desc gdt s 16 data_desc Hg Hr) by auto.
Qed.
Lemma ready_null s g : protected (e_sys s) = true -> eax (e_rg s) mod 2 ^ 16 = 0 -> g = FS \/ g = GS -> eexec (MovS g) s = Some (with_seg g 0 0 s).
Proof. intros Hp E Hg. cbn [eexec]. rewrite E. unfold load_sreg. rewrite Hp. by destruct Hg as [-> | ->]. Qed.
Lemma real_zero s g : protected (e_sys s) = false -> eax (e_rg s) mod 2 ^ 16 = 0 -> eexec (MovS g) s = Some (with_seg g 0 0 s).
Proof. intros Hp E. cbn [eexec]. rewrite E. unfold load_sreg. by rewrite Hp. Qed.

Lemma mode_switch_run base l k0 n gdt s : (forall j x, at_offset (mode_switch (gdt + 24) (base + k0 + 15 + n) n) j = Some x -> at_offset l (k0 + j) = Some x) ->
  gdt = 0x706c \/ gdt = 0x7c60 -> bytes_at (e_mem s) gdt 30 = boot_gdt gdt -> 0 < n -> 0 <= base + k0 -> base + k0 + n + 40 < 2 ^ 20 ->
  e_32 s = false -> protected (e_sys s) = false -> paging (e_sys s) = false -> ds (e_base s) = 0 -> cs (e_base s) + e_eip s = base + k0 ->
  exists x, let y := e_sys s in let s' := Cpu (set_reg EAX x (e_rg s)) (Segs 8 16 16 0 0 16) (Segs 0 0 0 0 0 0) true (base + k0 + 15 + n + 18) (e_zf s) (e_if s)
      (System (gdt, 23) (idtr y) (tr y) (Z.lor (cr0 y) CR0_PE) (cr3 y) (cr4 y)) (e_mem s) (e_kbc s) in
    forall t, esteps base l s' t -> esteps base l s t.
Proof.
  destruct s as [[xa xc xd xb xsp xbp xsi xdi] [G1 G2 G3 G4 G5 G6] [B1 B2 B3 B4 B5 B6] b eip z i [g id tk c0 c3 c4] m p]. cbn [e_32 e_base e_sys e_kbc e_mem e_eip e_rg]. unfold protected, paging. cbn [cr0 ds cs].
  intros Hl Hg Hb Hn H0 H1 -> Hpe Hpg HB Hip. destruct (gdt_read m gdt Hg Hb) as (R1 & R2 & R3 & R4). assert (0 <= gdt < 2 ^ 19) as Hg' by (destruct Hg as [-> | ->]; lia).
  set (y := System (gdt, 23) id tk (Z.lor c0 CR0_PE) c3 c4).
  assert (Z.testbit (Z.lor c0 CR0_PE) 31 = false) as Hpg' by (rewrite Z.lor_spec, Hpg; done).
  assert (forall x G B c e, gdt_ready gdt (Cpu x G B c e z i y m p)) as Hr.
  { intros x G B c e. split; [by apply pe_kept; right | exact Hpg' | done | exact R3 | exact R4]. }
  assert (forall x G B c e y' k, Z.testbit (cr0 y') 31 = false -> cs B + e = base + (k0 + k) -> 0 <= k < n + 40 -> translate (Cpu x G B c e z i y' m p) false (cs B + e) = Some (base + (k0 + k))) as HT.
  { intros x G B c e y' k Hy -> Hk. apply translate_real; [exact Hy | lia]. }
  assert (forall c x G B e y' k b i' n' s1 t, at_offset (mode_switch (gdt + 24) (base + k0 + 15 + n) n) k = Some (b, i', n') -> c = b -> Z.testbit (cr0 y') 31 = false -> cs B + e = base + (k0 + k) -> 0 <= k < n + 40 ->
    eexec i' (Cpu x G B c (e + n') z i y' m p) = Some s1 -> esteps base l s1 t -> esteps base l (Cpu x G B c e z i y' m p) t) as Hgo.
  { intros c x G B e y' k b i' n' s1 t Hk Hc Hy He Hk' Hx Hs. eapply (esteps_at _ _ _ (k0 + k)); [by apply HT | by apply Hl | exact Hc | exact Hx | exact Hs]. }
  clear HT. eexists. intros t Ht.
  eapply (Hgo false _ _ _ _ _ 0); [eoff | done | exact Hpg | cbn; lia | lia | |].
  { cbn [eexec]. rewrite !read32_real by (done || lia). estate. cbn [mbind option_bind]. replace (gdt + 24 + 2) with (gdt + 26) by lia. rewrite R1, R2. reflexivity. }
  eapply (Hgo false _ _ _ _ _ 5); [eoff | done | exact Hpg | cbn; lia | lia | ered|].
  eapply (Hgo false _ _ _ _ _ 8); [eoff | done | exact Hpg | cbn; lia | lia | ered|].
  eapply (Hgo false _ _ _ _ _ 12); [eoff | done | exact Hpg | cbn; lia | lia | apply eexec_ToCR; estate; unfold paging; cbn [cr0]; by rewrite Hpg'|]. estate.
  eapply (Hgo false _ _ _ _ _ 15); [eoff | done | exact Hpg' | cbn; lia | lia | by apply (ready_ljmp gdt)|]. estate.
  eapply (Hgo true _ _ _ _ _ (15 + n)); [eoff | done | exact Hpg' | cbn; lia | lia | ered|].
  eapply (Hgo true _ _ _ _ _ (19 + n)); [eoff | done | exact Hpg' | cbn; lia | lia | apply (ready_data gdt); [done | apply Hr | by apply low16]|]. estate.
  eapply (Hgo true _ _ _ _ _ (21 + n)); [eoff | done | exact Hpg' | cbn; lia | lia | apply (ready_data gdt); [done | apply Hr | by apply low16]|]. estate.
  eapply (Hgo true _ _ _ _ _ (23 + n)); [eoff | done | exact Hpg' | cbn; lia | lia | apply (ready_data gdt); [done | apply Hr | by apply low16]|]. estate.
  eapply (Hgo true _ _ _ _ _ (25 + n)); [eoff | done | exact Hpg' | cbn; lia | lia | ered|].
  eapply (Hgo true _ _ _ _ _ (29 + n)); [eoff | done | exact Hpg' | cbn; lia | lia | apply ready_null; [by apply pe_kept; right | by apply low16 | by left]|]. estate.
  eapply (Hgo true _ _ _ _ _ (31 + n)); [eoff | done | exact Hpg' | cbn; lia | lia | apply ready_null; [by apply pe_kept; right | by apply low16 | by right]|]. estate.
  replace (base + k0 + 15 + n + 18) with (base + k0 + 15 + n + 4 + 2 + 2 + 2 + 4 + 2 + 2) in Ht by lia. exact Ht.
Qed.

Lemma real_start_run base l s : e_32 s = false -> protected (e_sys s) = false -> paging (e_sys s) = false -> cs (e_base s) + e_eip s = base -> 0 <= base -> base + 10 < 2 ^ 20 ->
  exists x, let G := e_sg s in let B := e_base s in forall t,
    esteps base (real_start ++ l) (Cpu (set_reg EAX x (e_rg s)) (Segs (cs G) 0 0 (fs G) (gs G) 0) (Segs (cs B) 0 0 (fs B) (gs B) 0) false (e_eip s + 9) true false (e_sys s) (e_mem s) (e_kbc s)) t ->
    esteps base (real_start ++ l) s t.
Proof.
  destruct s as [[xa xc xd xb xsp xbp xsi xdi] [G1 G2 G3 G4 G5 G6] [B1 B2 B3 B4 B5 B6] b eip z i y m p]. cbn [e_32 e_base e_sys e_kbc e_mem e_eip e_rg e_sg cs fs gs].
  intros -> Hpe Hpg Hip H0 H1.
  assert (forall x G B e z' i' k, cs B + e = base + k -> 0 <= k < 10 -> translate (Cpu x G B false e z' i' y m p) false (cs B + e) = Some (base + k)) as HT.
  { intros x G B e z' i' k -> Hk. apply translate_real; [exact Hpg | lia]. }
  assert ((xa - xa mod 2 ^ 16) mod 2 ^ 16 = 0) as E by (rewrite <- (Z.add_0_r (xa - _)); by apply low16).
  eexists. intros t Ht.
  eapply (esteps_at _ _ _ 0); [apply HT; [cbn; lia | lia] | reflexivity | reflexivity | ered|].
  eapply (esteps_at _ _ _ 1); [apply HT; [cbn; lia | lia] | reflexivity | reflexivity | ered|].
  eapply (esteps_at _ _ _ 3); [apply HT; [cbn; lia | lia] | reflexivity | reflexivity | by apply real_zero|]. estate.
  eapply (esteps_at _ _ _ 5); [apply HT; [cbn; lia | lia] | reflexivity | reflexivity | by apply real_zero|]. estate.
  eapply (esteps_at _ _ _ 7); [apply HT; [cbn; lia | lia] | reflexivity | reflexivity | by apply real_zero|]. estate.
  replace (eip + 1 + 2 + 2 + 2 + 2) with (eip + 9) by lia. exact Ht.
Qed.

(** *** entryother.S *)

(** C20: another processor enters [mpenter].  Started by the interrupt of
    [startothers] in real mode at 0x7000, with the page table, the entry point
    and the stack in the words below the code, the code of entryother.S gets
    to protected mode with flat segments, turns paging on and calls [mpenter]
    on its stack, with interrupts off and the first 4 megabytes of memory
    visible at 0 and at [KERNBASE]. *)
Theorem ap_reaches_mpenter s pgdir mpenter stack :
  e_32 s = false -> protected (e_sys s) = false -> paging (e_sys s) = false -> kb_a20 (e_kbc s) = true -> cs (e_base s) = 0x7000 -> e_eip s = 0 ->
  bytes_at (e_mem s) 0x706c 30 = boot_gdt 0x706c -> words (e_mem s) (0x7000 - 12) [V2P pgdir; mpenter; stack] ->
  KERNBASE <= pgdir -> pgdir + PGSIZE <= KERNBASE + MB4 -> pgdir mod PGSIZE = 0 -> words (e_mem s) (V2P pgdir) entrypgdir ->
  KERNBASE + 4 <= stack <= KERNBASE + MB4 -> apart (stack - 4) 4 pgdir PGSIZE ->
  exists s', esteps 0x7000 entryother s s' /\ e_eip s' = mpenter /\ esp (e_rg s') = stack - 4 /\ e_if s' = false /\ e_32 s' = true /\
    e_sg s' = Segs 8 16 16 0 0 16 /\ e_base s' = Segs 0 0 0 0 0 0 /\ e_mem s' = store32 (e_mem s) (stack - 4 - KERNBASE) 0x705a /\
    forall w a, 0 <= a < 2 ^ 32 -> translate s' w a =
      if decide (a < MB4) then Some a else if decide (KERNBASE <= a < KERNBASE + MB4) then Some (a - KERNBASE) else None.
Proof.
  intros H32 Hpe Hpg Ha20 HB Hip Hg Hw P1 P2 P3 Hpd Hst Hap.
  destruct (real_start_run 0x7000 (drop 5 entryother) s H32 Hpe Hpg ltac:(lia) ltac:(lia) ltac:(lia)) as [x0 Hs0]. cbv zeta in Hs0. change (real_start ++ drop 5 entryother) with entryother in Hs0.
  destruct s as [[xa xc xd xb xsp xbp xsi xdi] [G1 G2 G3 G4 G5 G6] [B1 B2 B3 B4 B5 B6] b eip z i [g id tk c0 c3 c4] m p]. cbn [e_32 e_base e_sys e_kbc e_mem e_eip e_rg e_sg cs fs gs] in *. subst b B1 eip.
  match type of Hs0 with forall t, esteps _ _ ?s1 t -> _ => destruct (mode_switch_run 0x7000 entryother 9 8 0x706c s1) as [x1 Hs1] end; try done; [intros j x; exact (code_part real_start (mode_switch 0x7084 0x7020 8) (drop 17 entryother) j x eq_refl) | by left|].
  cbn [e_32 e_base e_sys e_kbc e_mem e_eip e_rg e_sg e_zf e_if idtr tr cr0 cr3 cr4] in Hs1.
  assert (PTE_ADDR (V2P pgdir) = pgdir - KERNBASE) as Ep.
  { rewrite V2P_low by (unfold PGSIZE in *; lia). apply PTE_ADDR_aligned; [unfold MB4, KERNBASE, PGSIZE in *; lia|]. unfold KERNBASE, PGSIZE in *. by rewrite Zminus_mod, P3. }
  set (y := System (0x706c, 23) id tk (Z.lor (Z.lor c0 CR0_PE) (Z.lor CR0_PE (Z.lor CR0_PG CR0_WP))) (V2P pgdir) (Z.lor c4 CR4_PSE)) in *.
  assert (Z.testbit (Z.lor c0 CR0_PE) 31 = false) as Hpg' by (rewrite Z.lor_spec; unfold paging in Hpg; cbn [cr0] in Hpg; by rewrite Hpg).
  assert (forall x G B c e z' m1, words m1 (V2P pgdir) entrypgdir -> boot_paging (Cpu x G B c e z' false y m1 p)) as Hbp.
  { intros x G B c e z' m1 Hm. split; cbn [e_sys e_mem e_kbc cr3 cr4 y]; [by apply pg_set | apply pse_set | rewrite Ep; by rewrite V2P_low in Hm by (unfold PGSIZE in *; lia) | exact Ha20]. }
  assert (forall x G e y' k, Z.testbit (cr0 y') 31 = false -> e = 0x7000 + k -> 0 <= k < 100 ->
    translate (Cpu x G (Segs 0 0 0 0 0 0) true e true false y' m p) false (0 + e) = Some (0x7000 + k)) as Hlow by (intros x G e y' k Hy -> Hk; apply translate_real; [exact Hy | lia]).
  assert (forall x G e a, 0 <= a < MB4 -> translate (Cpu x G (Segs 0 0 0 0 0 0) true e true false y m p) false (0 + a) = Some a) as Hhigh.
  { intros x G e a Ha. rewrite boot_translate; [|by apply Hbp | unfold MB4 in *; lia]. by rewrite decide_True by lia. }
  assert (load32 m (0x7000 - 12) = V2P pgdir /\ load32 m (0x7000 - 8) = mpenter /\ load32 m (0x7000 - 4) = stack) as (W1 & W2 & W3) by (split_and!; [exact (Hw 0%nat _ eq_refl) | exact (Hw 1%nat _ eq_refl) | exact (Hw 2%nat _ eq_refl)]).
  eexists. split; [apply Hs0, Hs1|split_and!].
  - eapply (esteps_at _ _ _ 50); [apply Hlow; [done | done | lia] | reflexivity | reflexivity | ered|].
    eapply (esteps_at _ _ _ 53); [apply Hlow; [done | done | lia] | reflexivity | reflexivity | ered|].
    eapply (esteps_at _ _ _ 56); [apply Hlow; [done | done | lia] | reflexivity | reflexivity | apply eexec_ToCR; unfold paging; estate; by rewrite Hpg'|]. estate.
    eapply (esteps_at _ _ _ 59); [apply Hlow; [done | done | lia] | reflexivity | reflexivity | cbn [eexec]; rewrite read32_real by (done || lia); estate; cbn [mbind option_bind]; rewrite W1; reflexivity|]. estate.
    eapply (esteps_at _ _ _ 64); [apply Hlow; [done | done | lia] | reflexivity | reflexivity | apply eexec_ToCR; unfold paging; estate; by rewrite Hpg'|]. estate.
    eapply (esteps_at _ _ _ 67); [apply Hlow; [done | done | lia] | reflexivity | reflexivity | ered|].
    eapply (esteps_at _ _ _ 70); [apply Hlow; [done | done | lia] | reflexivity | reflexivity | ered|].
    eapply (esteps_at _ _ _ 75); [apply Hlow; [done | done | lia] | reflexivity | reflexivity | apply eexec_ToCR; intros _; apply pe_kept; by right|]. estate. fold y.
    eapply (esteps_at _ _ _ 78); [apply Hhigh; unfold MB4; lia | reflexivity | reflexivity | cbn [eexec]; unfold read32; estate; rewrite Hhigh by (unfold MB4; lia); cbn [fmap option_fmap option_map mbind option_bind]; rewrite W3; reflexivity|]. estate.
    eapply (esteps_at _ _ _ 84); [apply Hhigh; unfold MB4; lia | reflexivity | reflexivity | |apply rtc_refl].
    cbn [eexec]. unfold read32, epush, write32. estate. rewrite Hhigh by (unfold MB4; lia). cbn [fmap option_fmap option_map mbind option_bind]. rewrite W2, (u32_small (stack - 4)) by (unfold KERNBASE, MB4 in *; lia).
    rewrite boot_translate; [|by apply Hbp | unfold KERNBASE, MB4 in *; lia]. rewrite decide_False, decide_True by (unfold KERNBASE, MB4 in *; lia). cbn [fmap option_fmap option_map mbind option_bind]. reflexivity.
  - reflexivity.
  - reflexivity.
  - reflexivity.
  - reflexivity.
  - reflexivity.
  - reflexivity.
  - reflexivity.
  - intros w a Ha. apply boot_translate; [|exact Ha]. apply Hbp. rewrite V2P_low in * by (unfold PGSIZE in *; lia). unfold apart, PGSIZE, KERNBASE, MB4 in *.
    eapply words_same; [lia | | | exact Hpd]; change (length entrypgdir) with 1024%nat; [lia|]. intros x Hx. cbn [e_mem]. apply store32_other; lia.
Qed.

(** *** bootasm.S *)

Lemma low8 x v : 0 <= v < 2 ^ 8 -> (x - x mod 2 ^ 8 + v) mod 2 ^ 8 = v.
Proof.
  intros Hv. pose proof (Z.div_mod x (2 ^ 8) ltac:(lia)) as E. replace (x - x mod 2 ^ 8 + v) with (v + x / 2 ^ 8 * 2 ^ 8) by lia. rewrite Z.mod_add by lia. by apply Z.mod_small.
Qed.
Lemma test_busy x v : (Z.land ((x - x mod 2 ^ 8 + v mod 2 ^ 8) mod 2 ^ 8) 0x2 =? 0) = negb (Z.testbit v 1).
Proof.
  rewrite low8 by (apply Z.mod_pos_bound; lia). rewrite <- Z.land_ones, <- Z.land_assoc by lia. change (Z.land (Z.ones 8) 2) with (2 ^ 1).
  destruct (Z.testbit v 1) eqn:E; cbn [negb].
  - apply Z.eqb_neq. intros E0. apply (f_equal (fun z => Z.testbit z 1)) in E0. rewrite Z.land_spec, E in E0. done.
  - apply Z.eqb_eq, Z.bits_inj'. intros n Hn. rewrite Z.land_spec, Z.pow2_bits_eqb, Z.bits_0 by lia. destruct (Z.eqb_spec 1 n) as [<-|]; [by rewrite E | apply andb_false_r].
Qed.

Section boot.
Context `{!KbcOk P} (bootmain : Z).

(** A wait for the controller at offset [k] ends. *)
Lemma wait_run k xc xd xb xsp xbp xsi xdi G B i y m p : cs B = 0 -> paging y = false -> 0 <= k < 100 ->
  at_offset (bootasm bootmain) k = Some (false, InAL 0x64, 2) -> at_offset (bootasm bootmain) (k + 2) = Some (false, TestAL 0x2, 2) ->
  at_offset (bootasm bootmain) (k + 4) = Some (false, Jnz (0x7c00 + k), 2) ->
  forall xa z, exists n xa', kb_idle (Nat.iter n kb_poll p) /\ forall t,
    esteps 0x7c00 (bootasm bootmain) (Cpu (Regs xa' xc xd xb xsp xbp xsi xdi) G B false (0x7c00 + k + 6) true i y m (kb_poll (Nat.iter n kb_poll p))) t ->
    esteps 0x7c00 (bootasm bootmain) (Cpu (Regs xa xc xd xb xsp xbp xsi xdi) G B false (0x7c00 + k) z i y m p) t.
Proof.
  intros HB Hp Hk C0 C1 C2.
  assert (forall x e z p k', e = 0x7c00 + k' -> 0 <= k' < 110 -> translate (Cpu x G B false e z i y m p) false (cs B + e) = Some (0x7c00 + k')) as HT.
  { intros x e z p' k' -> Hk'. rewrite HB. apply translate_real; [exact Hp | lia]. }
  (* One round. *)
  assert (forall xa z p, exists xa', forall t, (forall s, (if Z.testbit (kb_in 0x64 p).1 1
        then s = Cpu (Regs xa' xc xd xb xsp xbp xsi xdi) G B false (0x7c00 + k) false i y m (kb_poll p)
        else s = Cpu (Regs xa' xc xd xb xsp xbp xsi xdi) G B false (0x7c00 + k + 6) true i y m (kb_poll p)) -> esteps 0x7c00 (bootasm bootmain) s t) ->
      esteps 0x7c00 (bootasm bootmain) (Cpu (Regs xa xc xd xb xsp xbp xsi xdi) G B false (0x7c00 + k) z i y m p) t) as Hround.
  { intros xa z p'. exists (xa - xa mod 2 ^ 8 + (kb_in 0x64 p').1 mod 2 ^ 8). intros t Ht.
    eapply (esteps_at _ _ _ k); [apply HT; [done | lia] | exact C0 | reflexivity | cbn [eexec]; rewrite (surjective_pairing (kb_in 0x64 _)); estate; reflexivity|].
    eapply (esteps_at _ _ _ (k + 2)); [apply HT; [estate; lia | lia] | exact C1 | reflexivity | cbn [eexec]; estate; rewrite test_busy; reflexivity|].
    eapply (esteps_at _ _ _ (k + 4)); [apply HT; [estate; lia | lia] | exact C2 | reflexivity | reflexivity|]. estate. apply Ht. fold (kb_poll p'). change (e_kbc _) with p'.
    replace (0x7c00 + k + 2 + 2 + 2) with (0x7c00 + k + 6) by lia. by destruct (Z.testbit (kb_in 100 p').1 1). }
  destruct (kb_ready p) as [n Hn]. revert p Hn. induction n as [|n IH]; intros p Hn xa z.
  - destruct (Hround xa z p) as [xa' Hr]. exists 0%nat, xa'. split; [exact Hn|]. intros t Ht. apply Hr. intros s. change (kb_idle p) in Hn. unfold kb_idle in Hn. rewrite Hn. by intros ->.
  - destruct (Hround xa z p) as [xa' Hr]. destruct (Z.testbit (kb_in 0x64 p).1 1) eqn:E.
    + rewrite Nat.iter_succ_r in Hn. destruct (IH (kb_poll p) Hn xa' false) as (n' & xa2 & Hi & Ht'). exists (Datatypes.S n'), xa2. rewrite Nat.iter_succ_r. split; [exact Hi|].
      intros t Ht. apply Hr. intros s ->. by apply Ht'.
    + exists 0%nat, xa'. split; [exact E|]. intros t Ht. apply Hr. by intros s ->.
Qed.

(** C29: the boot sector reaches [bootmain].  Loaded by the BIOS at 0x7c00 and
    started in real mode, with the gate of address line 20 open or not, the
    code of bootasm.S waits for the keyboard controller and opens the gate,
    gets to protected mode with flat segments and calls [bootmain] on a stack
    below itself, with interrupts off and every address meaning itself. *)
Theorem bootasm_reaches_bootmain s :
  e_32 s = false -> protected (e_sys s) = false -> paging (e_sys s) = false -> cs (e_base s) = 0 -> e_eip s = 0x7c00 ->
  bytes_at (e_mem s) 0x7c60 30 = boot_gdt 0x7c60 ->
  exists s', esteps 0x7c00 (bootasm bootmain) s s' /\ e_eip s' = bootmain /\ esp (e_rg s') = 0x7c00 - 4 /\ e_if s' = false /\ e_32 s' = true /\
    e_sg s' = Segs 8 16 16 0 0 16 /\ e_base s' = Segs 0 0 0 0 0 0 /\ e_mem s' = store32 (e_mem s) (0x7c00 - 4) 0x7c4d /\
    protected (e_sys s') = true /\ forall w a, translate s' w a = Some a.
Proof.
  intros H32 Hpe Hpg HB Hip Hg.
  destruct (real_start_run 0x7c00 (drop 5 (bootasm bootmain)) s H32 Hpe Hpg ltac:(lia) ltac:(lia) ltac:(lia)) as [x0 Hs0]. cbv zeta in Hs0. change (real_start ++ drop 5 (bootasm bootmain)) with (bootasm bootmain) in Hs0.
  destruct s as [[xa xc xd xb xsp xbp xsi xdi] [G1 G2 G3 G4 G5 G6] [B1 B2 B3 B4 B5 B6] b eip z i [g id tk c0 c3 c4] m p]. cbn [e_32 e_base e_sys e_kbc e_mem e_eip e_rg e_sg cs fs gs] in *. subst b B1 eip.
  assert (forall x G B e z' i' p' k', cs B = 0 -> e = 0x7c00 + k' -> 0 <= k' < 100 -> translate (Cpu x G B false e z' i' (System g id tk c0 c3 c4) m p') false (cs B + e) = Some (0x7c00 + k')) as HT.
  { intros x G B e z' i' p' k' HB -> Hk. rewrite HB. apply translate_real; [exact Hpg | lia]. }
  destruct (wait_run 9 xc xd xb xsp xbp xsi xdi (Segs G1 0 0 G4 G5 0) (Segs 0 0 0 B4 B5 0) false (System g id tk c0 c3 c4) m p eq_refl Hpg ltac:(lia) eq_refl eq_refl eq_refl x0 true) as (n & x1 & I1 & Hs1).
  set (q1 := Nat.iter n kb_poll p) in *.
  set (q2 := kb_out 0x64 0xd1 (kb_poll q1)) in *.
  destruct (wait_run 19 xc xd xb xsp xbp xsi xdi (Segs G1 0 0 G4 G5 0) (Segs 0 0 0 B4 B5 0) false (System g id tk c0 c3 c4) m q2 eq_refl Hpg ltac:(lia) eq_refl eq_refl eq_refl (x1 - x1 mod 2 ^ 8 + 0xd1) true) as (n2 & x2 & I2 & Hs2).
  set (q3 := kb_out 0x60 0xdf (kb_poll (Nat.iter n2 kb_poll q2))) in *. assert (kb_a20 q3 = true) as Hq3 by exact (kb_enables q1 n2 I1 I2).
  set (s3 := Cpu (Regs (x2 - x2 mod 2 ^ 8 + 0xdf) xc xd xb xsp xbp xsi xdi) (Segs G1 0 0 G4 G5 0) (Segs 0 0 0 B4 B5 0) false (0x7c00 + 29) true false (System g id tk c0 c3 c4) m q3).
  destruct (mode_switch_run 0x7c00 (bootasm bootmain) 29 5 0x7c60 s3) as [x3 Hs3]; try done; [intros j x; exact (code_part (take 15 (bootasm bootmain)) (mode_switch 0x7c78 0x7c31 5) (drop 27 (bootasm bootmain)) j x eq_refl) | by right|].
  cbn [e_32 e_base e_sys e_kbc e_mem e_eip e_rg e_sg e_zf e_if idtr tr cr0 cr3 cr4 s3] in Hs3.
  assert (Z.testbit (Z.lor c0 CR0_PE) 31 = false) as Hpg' by (rewrite Z.lor_spec; unfold paging in Hpg; cbn [cr0] in Hpg; by rewrite Hpg).
  set (y := System (0x7c60, 23) id tk (Z.lor c0 CR0_PE) c3 c4) in *.
  assert (forall x e w a, translate (Cpu x (Segs 8 16 16 0 0 16) (Segs 0 0 0 0 0 0) true e true false y m q3) w a = Some a) as HT' by (intros x e w a; by apply translate_off).
  eexists. split; [apply Hs0|split_and!].
  - apply Hs1.
    eapply (esteps_at _ _ _ 15); [apply HT; [done | done | lia] | reflexivity | reflexivity | ered|].
    eapply (esteps_at _ _ _ 17); [apply HT; [done | done | lia] | reflexivity | reflexivity | cbn [eexec]; estate; rewrite low8 by lia; fold q2; reflexivity|]. apply Hs2.
    eapply (esteps_at _ _ _ 25); [apply HT; [done | done | lia] | reflexivity | reflexivity | ered|].
    eapply (esteps_at _ _ _ 27); [apply HT; [done | done | lia] | reflexivity | reflexivity | cbn [eexec]; estate; rewrite low8 by lia; fold q3; reflexivity|]. apply Hs3.
    eapply (esteps_at _ _ _ 67); [apply HT' | reflexivity | reflexivity | ered|].
    eapply (esteps_at _ _ _ 72); [apply HT' | reflexivity | reflexivity | |apply rtc_refl].
    cbn [eexec]. unfold epush, write32. estate. change (u32 (0x7c00 - 4)) with (0x7c00 - 4). rewrite HT'. cbn [fmap option_fmap option_map mbind option_bind]. reflexivity.
  - reflexivity.
  - reflexivity.
  - reflexivity.
  - reflexivity.
  - reflexivity.
  - reflexivity.
  - reflexivity.
  - by apply pe_kept; right.
  - intros w a. apply translate_off; [exact Hpg' | exact Hq3].
Qed.
End boot.
End entry.

(** ** An example *)

(** A controller that is busy for two polls after a command: the polls left,
    whether the output port is to be written, and the gate. *)
Definition ex_kbc : Type := nat * bool * bool.
#[local] Instance ex_kbc_ops : Kbc ex_kbc := {|
  kb_in port p := (if p.1.1 is O then 0 else 2, (pred p.1.1, p.1.2, p.2));
  kb_out port v p :=
    if port =? 0x64 then (2%nat, v =? 0xd1, p.2) else (2%nat, false, if p.1.2 then Z.testbit v 1 else p.2);
  kb_a20 p := p.2
|}.
Lemma ex_polls n b c d : Nat.iter n kb_poll ((b, c, d) : ex_kbc) = ((b - n)%nat, c, d).
Proof.
  revert b. induction n as [|n IH]; intros b; [by rewrite Nat.sub_0_r|]. rewrite Nat.iter_succ_r. change (kb_poll (b, c, d)) with ((pred b, c, d) : ex_kbc). rewrite IH.
  f_equal. f_equal. lia.
Qed.
#[local] Instance ex_kbc_ok : KbcOk ex_kbc.
Proof.
  split.
  - intros [[b c] d]. exists b. rewrite ex_polls. by rewrite Nat.sub_diag.
  - intros [[b c] d] n Hi. change (kb_out 0x64 0xd1 (kb_poll (b, c, d))) with ((2%nat, true, d) : ex_kbc). rewrite ex_polls. intros q Hq. done.
Qed.

Definition ex_cpu (b : bool) (cs ip c0 : Z) (a20 : bool) (m : mem) : cpu :=
  Cpu (Regs 7 0 0 0 0x6f00 0 0 0) (Segs cs 0 0 0 0 0) (Segs (if b then 0 else 16 * cs) 0 0 0 0 0) b ip false true (System (0, 0) (0, 0) 0 c0 0 0) m ((1%nat, false, a20) : ex_kbc).

Lemma bootasm_reaches_bootmain_witness : exists s', esteps 0x7c00 (bootasm 0x7d00) (ex_cpu false 0 0x7c00 0 false (store_bytes (fun _ => 0) 0x7c60 (boot_gdt 0x7c60))) s' /\ e_eip s' = 0x7d00.
Proof.
  destruct (bootasm_reaches_bootmain 0x7d00 (ex_cpu false 0 0x7c00 0 false (store_bytes (fun _ => 0) 0x7c60 (boot_gdt 0x7c60)))) as (s' & E1 & E2 & _); [done | done | done | done | done | by vm_compute|].
  exists s'. split; [exact E1 | exact E2].
Defined.

(** A memory with the boot page table at 0x9000. *)
Definition ex_boot_mem : mem := fun x => if (x =? 0x9000) || (x =? 0x9800) then 0x83 else 0.
Lemma ex_boot_table : words ex_boot_mem 0x9000 entrypgdir.
Proof.
  intros k v Hk. pose proof (lookup_lt_Some _ _ _ Hk) as Hl. change (length entrypgdir) with 1024%nat in Hl. rewrite entrypgdir_at in Hk by done. injection Hk as <-.
  unfold load32. rewrite !u32_small by lia. unfold ex_boot_mem. destruct (decide (k = 0%nat \/ k = 512%nat)) as [[-> | ->]|Hk]; [done | done|].
  rewrite !(proj2 (Z.eqb_neq _ _)) by lia. done.
Qed.
Lemma entry_reaches_main_witness : exists s', esteps 0x10000c (entry_S 0x80009000 0x80010000 0x80102000) (ex_cpu true 8 0x10000c 1 true ex_boot_mem) s' /\ e_eip s' = 0x80102000.
Proof.
  destruct (entry_reaches_main (ex_cpu true 8 0x10000c 1 true ex_boot_mem) 0x8010000c 0x80009000 0x80010000 0x80102000) as (s' & E1 & E2 & _);
    [done | done | done | done | done | done | done | done | done | exact ex_boot_table | done|]. exists s'. split; [exact E1 | exact E2].
Defined.

Definition ex_ap_mem : mem := store_bytes (store32 (store32 (store32 ex_boot_mem (0x7000 - 12) 0x9000) (0x7000 - 8) 0x80103000) (0x7000 - 4) 0x80020000) 0x706c (boot_gdt 0x706c).
Lemma ex_ap_ok : bytes_at ex_ap_mem 0x706c 30 = boot_gdt 0x706c /\ words ex_ap_mem (0x7000 - 12) [0x9000; 0x80103000; 0x80020000] /\ words ex_ap_mem 0x9000 entrypgdir.
Proof.
  split_and!.
  - apply (bytes_at_store _ _ (boot_gdt 0x706c)); [lia | by vm_compute].
  - intros k v Hk. destruct k as [|[|[|k]]]; [injection Hk as <-; by vm_compute..|done].
  - eapply words_same; [lia | change (length entrypgdir) with 1024%nat; lia | | exact ex_boot_table]. change (length entrypgdir) with 1024%nat. intros x Hx. unfold ex_ap_mem.
    rewrite store_bytes_other by (change (length (boot_gdt 0x706c)) with 30%nat; lia). by rewrite !store32_other by lia.
Qed.
Lemma ap_reaches_mpenter_witness : exists s', esteps 0x7000 entryother (ex_cpu false 0x700 0 0 true ex_ap_mem) s' /\ e_eip s' = 0x80103000 /\ esp (e_rg s') = 0x8001fffc.
Proof.
  destruct ex_ap_ok as (A1 & A2 & A3).
  destruct (ap_reaches_mpenter (ex_cpu false 0x700 0 0 true ex_ap_mem) 0x80009000 0x80103000 0x80020000) as (s' & E1 & E2 & E3 & _);
    [done | done | done | done | done | done | exact A1 | change (V2P 0x80009000) with 0x9000; exact A2 | unfold KERNBASE; lia | unfold KERNBASE, PGSIZE, MB4; lia | reflexivity | change (V2P 0x80009000) with 0x9000; exact A3 | unfold KERNBASE, MB4; lia | right; unfold PGSIZE; lia|]. exists s'. split; [exact E1|]. split; [exact E2 | exact E3].
Defined.
