(* ===== verification/File.v ===== *)
(** * Open files (file.c) and the life of a pipe (pipe.c)

    The open file table, and the operations on a [struct file *]: a pipe end
    or an inode with an offset.  A pipe read or write that has to sleep is
    the outcome [Blocked]; what happens when it resumes is in [Pipe.v].
    [kend] is the linker symbol [end], which bounds [kfree]. *)

From S2P Require Import Prelude CString Bio Layout Blocks Fs Memory Kalloc Vm Pipe Kern.

Section file.
Context {S : Type} `{BlockLayer S} `{DevSw S}.
Context (kend : Z).

(** [wakeup] (proc.c): every process asleep on the channel becomes runnable. *)
Definition wakeup1 (c : option wchan) (l : list proc) : list proc :=
  (fun p => if bool_decide (p_state p = SLEEPING) && bool_decide (p_chan p = c) then with_state RUNNABLE p else p) <$> l.
Definition wakeup (c : option wchan) : M (kern S) unit :=
  modify (fun s => set_procs (wakeup1 c (k_procs s)) s).
Fixpoint wake_all (pp : Z) (cs : list chan) : M (kern S) unit :=
  match cs with
  | [] => ret tt
  | c :: cs => wakeup (Some (WPipe pp c)) ;;; wake_all pp cs
  end.

(** ** The file table *)

(** The scan of [filealloc]: the first entry with no references. *)
Fixpoint file_scan (l : list file) (i : nat) : option nat :=
  match l with
  | [] => None
  | f :: l => if fl_ref f =? 0 then Some i else file_scan l (Datatypes.S i)
  end.
Definition filealloc : M (kern S) (option nat) :=
  let! s := get in
  match file_scan (k_files s) 0 with
  | Some f => modf f (with_fref 1) ;;; ret (Some f)
  | None => ret None
  end.

Definition filedup (f : nat) : M (kern S) nat :=
  let! x := getf f in
  if fl_ref x <? 1 then panic "filedup"
  else modf f (fun x => with_fref (fl_ref x + 1) x) ;;; ret f.

(** ** Pipes *)

Definition pipe_at (pp : Z) : M (kern S) pipe := let! s := get in the "pipe" (k_pipes s !! pp).
Definition pipe_put (pp : Z) (p : pipe) : M (kern S) unit := modify (fun s => set_pipes (<[pp := p]> (k_pipes s)) s).

Definition pipeclose (pp : Z) (writable : bool) : M (kern S) unit :=
  let! p := pipe_at pp in
  let '(p, c, free) := pipeclose_end p writable in
  pipe_put pp p ;;;
  wakeup (Some (WPipe pp c)) ;;;
  when free (modify (fun s => set_pipes (delete pp (k_pipes s)) s) ;;; onkm (kfree kend pp)).

Definition fileclose (f : nat) : M (kern S) unit :=
  let! x := getf f in
  if fl_ref x <? 1 then panic "fileclose"
  else
    modf f (fun x => with_fref (fl_ref x - 1) x) ;;;
    if 0 <? fl_ref x - 1 then ret tt
    else
      modf f (fun x => with_ftype FD_NONE (with_fref 0 x)) ;;;
      match fl_type x with
      | FD_PIPE => pipeclose (fl_pipe x) (fl_writable x)
      | FD_INODE => onfs begin_op ;;; onfs (iput (fl_ip x)) ;;; onfs end_op
      | FD_NONE => ret tt
      end.

(** The two ends of a new pipe.  The buffer starts with whatever the page
    holds after the 52 bytes of the spin lock. *)
Definition pipealloc : M (kern S) (option (nat * nat)) :=
  let! f0 := filealloc in
  match f0 with
  | None => ret None
  | Some f0 =>
      let! f1 := filealloc in
      match f1 with
      | None => fileclose f0 ;;; ret None
      | Some f1 =>
          let! p := onkm kalloc in
          if p =? 0 then fileclose f0 ;;; fileclose f1 ;;; ret None
          else
            let! s := get in
            pipe_put p (pipe_init (bytes_at (km_mem (k_kmem s)) (p + 52) (Z.to_nat PIPESIZE))) ;;;
            modf f0 (fun x => File FD_PIPE (fl_ref x) true false p (fl_ip x) (fl_off x)) ;;;
            modf f1 (fun x => File FD_PIPE (fl_ref x) false true p (fl_ip x) (fl_off x)) ;;;
            ret (Some (f0, f1))
      end
  end.

Definition file_piperead (pp n : Z) : M (kern S) (Z * list Z) :=
  let! me := self in
  let! p := pipe_at pp in
  let '(p, r, w) := piperead (p_killed me) p n in
  match r with
  | RSleep => blocked "nread"
  | RDone v bs => pipe_put pp p ;;; wake_all pp w ;;; ret (v, bs)
  end.
Definition file_pipewrite (pp : Z) (addr : list Z) (n : Z) : M (kern S) Z :=
  let! me := self in
  let! p := pipe_at pp in
  let '(p, r, w) := pipewrite (p_killed me) p addr n in
  match r with
  | WSleep _ => blocked "nwrite"
  | WDone v => pipe_put pp p ;;; wake_all pp w ;;; ret v
  end.

(** ** Reading and writing *)

Definition filestat (f : nat) : M (kern S) (option stat) :=
  let! x := getf f in
  match fl_type x with
  | FD_INODE =>
      onfs (ilock (Some (fl_ip x))) ;;;
      let! st := onfs (stati (fl_ip x)) in
      onfs (iunlock (Some (fl_ip x))) ;;;
      ret (Some st)
  | _ => ret None
  end.

(** The return value and the bytes stored at [addr]. *)
Definition fileread (f : nat) (n : Z) : M (kern S) (Z * list Z) :=
  let! x := getf f in
  if negb (fl_readable x) then ret (-1, [])
  else
    match fl_type x with
    | FD_PIPE => file_piperead (fl_pipe x) n
    | FD_INODE =>
        onfs (ilock (Some (fl_ip x))) ;;;
        let! (r, bs) := onfs (readi (fl_ip x) (fl_off x) (u32 n)) in
        when (0 <? r) (modf f (fun x => with_foff (u32 (fl_off x + r)) x)) ;;;
        onfs (iunlock (Some (fl_ip x))) ;;;
        ret (r, bs)
    | FD_NONE => panic "fileread"
    end.

(** [int max = ((LOGSIZE-1-1-2) / 2) * 512] *)
Definition WRITE_MAX : Z := (LOGSIZE - 1 - 1 - 2) / 2 * 512.

(** [while(i < n)]: the value of [i] on exit; each round that continues adds
    [n1 > 0] to it. *)
Fixpoint filewrite_loop (fuel : nat) (f : nat) (ip : nat) (addr : list Z) (i n : Z) : M (kern S) Z :=
  match fuel with
  | O => undef "filewrite: fuel"
  | Datatypes.S fuel =>
      if i <? n then
        let n1 := Z.min (n - i) WRITE_MAX in
        onfs begin_op ;;;
        onfs (ilock (Some ip)) ;;;
        let! x := getf f in
        let! r := onfs (writei ip (take (Z.to_nat n1) (drop (Z.to_nat i) addr)) (fl_off x) (u32 n1)) in
        when (0 <? r) (modf f (fun x => with_foff (u32 (fl_off x + r)) x)) ;;;
        onfs (iunlock (Some ip)) ;;;
        onfs end_op ;;;
        if r <? 0 then ret i
        else if negb (r =? n1) then panic "short filewrite"
        else filewrite_loop fuel f ip addr (i + r) n
      else ret i
  end.

(** [addr] holds the [n] bytes at the address. *)
Definition filewrite (f : nat) (addr : list Z) (n : Z) : M (kern S) Z :=
  let! x := getf f in
  if negb (fl_writable x) then ret (-1)
  else
    match fl_type x with
    | FD_PIPE => file_pipewrite (fl_pipe x) addr n
    | FD_INODE =>
        let! i := filewrite_loop (Z.to_nat n + 1) f (fl_ip x) addr 0 n in
        ret (if i =? n then n else -1)
    | FD_NONE => panic "filewrite"
    end.

End file.
