(* ===== verification/Crash.v ===== *)
(** * Writing a file across crashes

    [filewrite] (file.c) splits a write into transactions.  The machine may
    stop after any of its disk writes, and again while the kernel recovers
    the log ([fsinit]: [iinit] and [initlog], run by the first process).  In
    the end the kernel starts, and the file holds its old bytes with a prefix
    of the new ones over them: all of them if the call returned. *)

From S2P Require Import Prelude CString Bio Layout Blocks Log LogBlocks Fs Mkfs FsBlocks FsInode FsFile FsIo FsWrite FsCache MkfsImage MkfsFiles MkfsTheorems MkfsBoot Kern File.

(** ** Overwriting in pieces *)


(** ** Files on the disk *)




(** ** Recovery *)





Section recovery.
Context {DS : DevSw log}.


#[local] Existing Instance mk_layer_ok.


End recovery.

(** ** One transaction of a write *)

Section writing.
Context {DS : DevSw log}.



Lemma same_disk_trans b0 b b' : same_disk b b' -> same_disk b0 b -> same_disk b0 b'.
Proof. intros (A1 & A2 & A3) (B1 & B2 & B3). split_and!; congruence. Qed.

(** The layer while the disk is that of [b0]. *)
Definition at_disk (b0 : bio) : BlockLayerOk log :=
  log_blocks_when 2 30 FSSIZE (proj1 mk_geom) (proj1 (proj2 mk_geom)) (proj1 (proj2 (proj2 mk_geom))) (proj2 (proj2 (proj2 mk_geom)))
    (same_disk b0) (same_disk_trans b0).




Section locked.
Context (b0 : bio).
#[local] Instance at_b0 : BlockLayerOk log := at_disk b0.

End locked.





(** ** All of the write *)









End writing.

(** ** An example: the image that [mkfs] makes of two files *)

#[local] Instance ex_devsw : DevSw log := {| dev_read _ := None; dev_write _ := None |}.



