(* ===== verification/Sysarg.v ===== *)
(** * System-call arguments (syscall.c)

    Fetching words, buffers and strings from the memory of the calling
    process.  A C function that returns -1 for an invalid argument returns
    [None] here.  Strings are handed on as the bytes before the NUL. *)

From S2P Require Import Prelude CString Bio Layout Blocks Fs Memory Kalloc Vm Pipe Kern.

Section args.
Context {S : Type}.

Definition fetchint (addr : Z) : M (kern S) (option Z) :=
  let! p := self in
  if (p_sz p <=? addr) || (p_sz p <? u32 (addr + 4)) then ret None
  else
    let! bs := ubytes addr 4 in
    ret (Some (i32 (le_word bs))).

(** [for(s = *pp; s < ep; s++) if( *s == 0) return s - *pp;] over the [n]
    bytes up to [ep]. *)
Fixpoint fetchstr_loop (n : nat) (a : Z) : M (kern S) (option (list Z)) :=
  match n with
  | O => ret None
  | Datatypes.S n =>
      let! b := ubyte a in
      if b =? 0 then ret (Some [])
      else
        let! r := fetchstr_loop n (u32 (a + 1)) in
        match r with
        | Some bs => ret (Some (b :: bs))
        | None => ret None
        end
  end.
Definition fetchstr (addr : Z) : M (kern S) (option (list Z)) :=
  let! p := self in
  if p_sz p <=? addr then ret None
  else fetchstr_loop (Z.to_nat (p_sz p - addr)) addr.

Definition argint (n : Z) : M (kern S) (option Z) :=
  let! p := self in
  fetchint (u32 (tf_esp (p_tf p) + 4 + 4 * n)).

(** The pointer, once the [size] bytes at it are checked. *)
Definition argptr (n size : Z) : M (kern S) (option Z) :=
  let! i := argint n in
  match i with
  | None => ret None
  | Some i =>
      let! p := self in
      if (size <? 0) || (p_sz p <=? u32 i) || (p_sz p <? u32 (u32 i + size)) then ret None
      else ret (Some (u32 i))
  end.

Definition argstr (n : Z) : M (kern S) (option (list Z)) :=
  let! addr := argint n in
  match addr with
  | None => ret None
  | Some addr => fetchstr (u32 addr)
  end.

End args.
