(* ===== verification/Sysfile.v ===== *)
(** * File-system system calls (sysfile.c)

    Every system call of sysfile.c over the kernel state.  [return -1] on an
    error is the value -1; a null pointer the code dereferences is the
    outcome [Undef]. *)

From S2P Require Import Prelude CString Bio Layout Blocks Fs Memory Kalloc Vm Pipe Kern File Sysarg.

Definition O_RDONLY : Z := 0x000.
Definition O_WRONLY : Z := 0x001.
Definition O_RDWR : Z := 0x002.
Definition O_CREATE : Z := 0x200.
Definition O_SFILE : Z := 0x400.

Section sysfile.
Context {S : Type} `{BlockLayer S} `{DevSw S}.
Context (kend : Z).

(** ** Descriptors *)

(** The descriptor and its file. *)
Definition argfd (n : Z) : M (kern S) (option (nat * nat)) :=
  let! fd := argint n in
  match fd with
  | None => ret None
  | Some fd =>
      let! p := self in
      if (fd <? 0) || (NOFILE <=? fd) then ret None
      else
        match p_ofile p !! Z.to_nat fd with
        | Some (Some f) => ret (Some (Z.to_nat fd, f))
        | _ => ret None
        end
  end.

(** The first null entry of [ofile]. *)
Fixpoint fd_scan (l : list (option nat)) (i : nat) : option nat :=
  match l with
  | [] => None
  | None :: _ => Some i
  | Some _ :: l => fd_scan l (Datatypes.S i)
  end.
Definition fdalloc (f : nat) : M (kern S) Z :=
  let! p := self in
  match fd_scan (p_ofile p) 0 with
  | Some fd => modself (fun p => with_ofile (<[fd := Some f]> (p_ofile p)) p) ;;; ret (Z.of_nat fd)
  | None => ret (-1)
  end.
Definition fdclear (fd : nat) : M (kern S) unit :=
  modself (fun p => with_ofile (<[fd := None]> (p_ofile p)) p).

Definition sys_dup : M (kern S) Z :=
  let! a := argfd 0 in
  match a with
  | None => ret (-1)
  | Some (_, f) =>
      let! fd := fdalloc f in
      if fd <? 0 then ret (-1) else let! _ := filedup f in ret fd
  end.

Definition sys_read : M (kern S) Z :=
  let! a := argfd 0 in
  match a with
  | None => ret (-1)
  | Some (_, f) =>
      let! n := argint 2 in
      match n with
      | None => ret (-1)
      | Some n =>
          let! p := argptr 1 n in
          match p with
          | None => ret (-1)
          | Some p =>
              let! (r, bs) := fileread f n in
              ustores p bs ;;;
              ret r
          end
      end
  end.

Definition sys_write : M (kern S) Z :=
  let! a := argfd 0 in
  match a with
  | None => ret (-1)
  | Some (_, f) =>
      let! n := argint 2 in
      match n with
      | None => ret (-1)
      | Some n =>
          let! p := argptr 1 n in
          match p with
          | None => ret (-1)
          | Some p =>
              let! src := ubytes p (Z.to_nat n) in
              filewrite f src n
          end
      end
  end.

Definition sys_close : M (kern S) Z :=
  let! a := argfd 0 in
  match a with
  | None => ret (-1)
  | Some (fd, f) => fdclear fd ;;; fileclose kend f ;;; ret 0
  end.

(** The fields of [struct stat] at their offsets; the padding is not written. *)
Definition stat_store (st : Z) (x : stat) : M (kern S) unit :=
  ustores (u32 (st + 4)) (le_bytes 4 (st_dev x)) ;;;
  ustores (u32 (st + 8)) (le_bytes 4 (st_ino x)) ;;;
  ustores st (le_bytes 2 (st_type x)) ;;;
  ustores (u32 (st + 12)) (le_bytes 2 (st_nlink x)) ;;;
  ustores (u32 (st + 16)) (le_bytes 4 (st_size x)).
Definition STAT_SIZE : Z := 20.

Definition sys_fstat : M (kern S) Z :=
  let! a := argfd 0 in
  match a with
  | None => ret (-1)
  | Some (_, f) =>
      let! st := argptr 1 STAT_SIZE in
      match st with
      | None => ret (-1)
      | Some st =>
          let! r := filestat f in
          match r with
          | None => ret (-1)
          | Some x => stat_store st x ;;; ret 0
          end
      end
  end.

(** ** Names *)

Definition cwd_of : M (kern S) nat := let! p := self in the "proc->cwd" (p_cwd p).
Definition knamei (path : list Z) : M (kern S) (option nat) :=
  let! c := cwd_of in onfs (namei c path).
Definition knameiparent (path name : list Z) : M (kern S) (option nat * list Z) :=
  let! c := cwd_of in onfs (nameiparent c path name).
(** [char name[DIRSIZ]], uninitialised. *)
Definition name_buf : list Z := replicate (Z.to_nat DIRSIZ) 0.

(** The common ending of an error: [end_op(); return -1;]. *)
Definition fail_op : M (kern S) Z := onfs end_op ;;; ret (-1).

Definition sys_link : M (kern S) Z :=
  let! old := argstr 0 in
  match old with
  | None => ret (-1)
  | Some old =>
  let! new := argstr 1 in
  match new with
  | None => ret (-1)
  | Some new =>
  onfs begin_op ;;;
  let! ip := knamei old in
  match ip with
  | None => fail_op
  | Some ip =>
  onfs (ilock (Some ip)) ;;;
  let! ino := onfs (geti ip) in
  if i_type ino =? T_DIR then onfs (iunlockput ip) ;;; fail_op
  else if i_type ino =? T_SDIR then onfs (iunlockput ip) ;;; fail_op
  else
    onfs (modi ip (fun ino => with_nlink (i16 (i_nlink ino + 1)) ino)) ;;;
    onfs (iupdate ip) ;;;
    onfs (iunlock (Some ip)) ;;;
    let bad :=
      onfs (ilock (Some ip)) ;;;
      onfs (modi ip (fun ino => with_nlink (i16 (i_nlink ino - 1)) ino)) ;;;
      onfs (iupdate ip) ;;;
      onfs (iunlockput ip) ;;;
      fail_op in
    let! (dp, name) := knameiparent new name_buf in
    match dp with
    | None => bad
    | Some dp =>
        onfs (ilock (Some dp)) ;;;
        let! d := onfs (geti dp) in
        let! ino := onfs (geti ip) in
        let! r := (if i_dev d =? i_dev ino then onfs (dirlink dp name (i_inum ino)) else ret (-1)) in
        if r <? 0 then onfs (iunlockput dp) ;;; bad
        else
          onfs (iunlockput dp) ;;;
          onfs (iput ip) ;;;
          onfs end_op ;;;
          ret 0
    end
  end end end.

(** [for(off=2*sizeof(de); off<dp->size; off+=sizeof(de))] *)
Definition isdirempty (dp : nat) : M (kern S) bool :=
  let! ino := onfs (geti dp) in
  let! r := for_ (Z.to_nat ((i_size ino + DIRENT_SIZE - 1) / DIRENT_SIZE - 2)) 2 (fun k =>
    let! (r, de) := onfs (readi dp (k * DIRENT_SIZE) DIRENT_SIZE) in
    if negb (r =? DIRENT_SIZE) then panic "isdirempty: readi"
    else if negb (de_inum de =? 0) then ret (Some false) else ret None) in
  ret (match r with Some b => b | None => true end).

Definition DOT : list Z := [46].
Definition DOTDOT : list Z := [46; 46].

Definition sys_unlink : M (kern S) Z :=
  let! path := argstr 0 in
  match path with
  | None => ret (-1)
  | Some path =>
  onfs begin_op ;;;
  let! (dp, name) := knameiparent path name_buf in
  match dp with
  | None => fail_op
  | Some dp =>
  onfs (ilock (Some dp)) ;;;
  let bad := onfs (iunlockput dp) ;;; fail_op in
  if (namecmp name DOT =? 0) || (namecmp name DOTDOT =? 0) then bad
  else
  let! found := onfs (dirlookup dp name) in
  match found with
  | None => bad
  | Some (ip, off) =>
  onfs (ilock (Some ip)) ;;;
  let! ino := onfs (geti ip) in
  if i_nlink ino <? 1 then panic "unlink: nlink < 1"
  else
  let isdir := (i_type ino =? T_DIR) || (i_type ino =? T_SDIR) in
  let! empty := (if isdir then isdirempty ip else ret true) in
  if isdir && negb empty then onfs (iunlockput ip) ;;; bad
  else
    let! w := onfs (writei dp (replicate (Z.to_nat DIRENT_SIZE) 0) off DIRENT_SIZE) in
    if negb (w =? DIRENT_SIZE) then panic "unlink: writei"
    else
      when isdir (onfs (modi dp (fun d => with_nlink (i16 (i_nlink d - 1)) d)) ;;; onfs (iupdate dp)) ;;;
      onfs (iunlockput dp) ;;;
      onfs (modi ip (fun ino => with_nlink (i16 (i_nlink ino - 1)) ino)) ;;;
      onfs (iupdate ip) ;;;
      onfs (iunlockput ip) ;;;
      onfs end_op ;;;
      ret 0
  end end end.

(** The inode, locked, or null. *)
Definition create (path : list Z) (type major minor : Z) : M (kern S) (option nat) :=
  let! (dp, name) := knameiparent path name_buf in
  match dp with
  | None => ret None
  | Some dp =>
  onfs (ilock (Some dp)) ;;;
  let! found := onfs (dirlookup dp name) in
  match found with
  | Some (ip, _) =>
      onfs (iunlockput dp) ;;;
      onfs (ilock (Some ip)) ;;;
      let! ino := onfs (geti ip) in
      if (type =? T_FILE) && (i_type ino =? T_FILE) then ret (Some ip)
      else if (type =? T_SDIR) && (i_type ino =? T_SDIR) then ret (Some ip)
      else if (type =? T_SFILE) && (i_type ino =? T_SFILE) then ret (Some ip)
      else onfs (iunlockput ip) ;;; ret None
  | None =>
      let! d := onfs (geti dp) in
      let! ip := onfs (ialloc (i_dev d) type) in
      onfs (ilock (Some ip)) ;;;
      onfs (modi ip (with_devno major minor)) ;;;
      onfs (modi ip (with_nlink 1)) ;;;
      onfs (iupdate ip) ;;;
      let dots (msg : string) :=
        onfs (modi dp (fun d => with_nlink (i16 (i_nlink d + 1)) d)) ;;;
        onfs (iupdate dp) ;;;
        let! ino := onfs (geti ip) in
        let! r := onfs (dirlink ip DOT (i_inum ino)) in
        if r <? 0 then panic msg
        else
          let! d := onfs (geti dp) in
          let! r := onfs (dirlink ip DOTDOT (i_inum d)) in
          if r <? 0 then panic msg else ret tt in
      when (type =? T_DIR) (dots "create dotsz") ;;;
      when (type =? T_SDIR) (dots "create dots") ;;;
      let! ino := onfs (geti ip) in
      let! r := onfs (dirlink dp name (i_inum ino)) in
      if r <? 0 then panic "create: dirlink"
      else onfs (iunlockput dp) ;;; ret (Some ip)
  end end.

(** ** Opening *)

(** [ip], locked, for a path opened in mode [omode]; [None] where the code
    has ended the transaction and returns -1.  With [O_CREATE] the parent is
    looked up once more to inspect its type, and that reference is not
    dropped. *)
Definition open_inode (path : list Z) (omode : Z) : M (kern S) (option nat) :=
  if negb (Z.land omode O_CREATE =? 0) then
    let small := negb (Z.land omode O_SFILE =? 0) in
    let! (dp, _) := knameiparent path name_buf in
    let! dp := the "null dp" dp in
    let! d := onfs (geti dp) in
    if (if small then negb (i_type d =? T_SDIR) else i_type d =? T_SDIR) then
      onfs end_op ;;; ret None
    else
      let! ip := create path (if small then T_SFILE else T_FILE) 0 0 in
      match ip with
      | None => onfs end_op ;;; ret None
      | Some ip => ret (Some ip)
      end
  else
    let! ip := knamei path in
    match ip with
    | None => onfs end_op ;;; ret None
    | Some ip =>
        onfs (ilock (Some ip)) ;;;
        let! ino := onfs (geti ip) in
        if ((i_type ino =? T_DIR) || (i_type ino =? T_SDIR)) && negb (omode =? O_RDONLY) then
          onfs (iunlockput ip) ;;; onfs end_op ;;; ret None
        else ret (Some ip)
    end.

Definition sys_open : M (kern S) Z :=
  let! path := argstr 0 in
  match path with
  | None => ret (-1)
  | Some path =>
  let! omode := argint 1 in
  match omode with
  | None => ret (-1)
  | Some omode =>
  onfs begin_op ;;;
  let! ip := open_inode path omode in
  match ip with
  | None => ret (-1)
  | Some ip =>
  let! f := filealloc in
  match f with
  | None => onfs (iunlockput ip) ;;; fail_op
  | Some f =>
  let! fd := fdalloc f in
  if fd <? 0 then
    fileclose kend f ;;;
    onfs (iunlockput ip) ;;;
    fail_op
  else
    onfs (iunlock (Some ip)) ;;;
    onfs end_op ;;;
    modf f (fun x => File FD_INODE (fl_ref x) (Z.land omode O_WRONLY =? 0)
      (negb (Z.land omode O_WRONLY =? 0) || negb (Z.land omode O_RDWR =? 0)) (fl_pipe x) ip 0) ;;;
    ret fd
  end end end end.

(** The shape [sys_mkdir] and [mkSmallFilesdir] share: create, unlock, end. *)
Definition make_dir (type : Z) : M (kern S) Z :=
  onfs begin_op ;;;
  let! path := argstr 0 in
  match path with
  | None => fail_op
  | Some path =>
      let! ip := create path type 0 0 in
      match ip with
      | None => fail_op
      | Some ip => onfs (iunlockput ip) ;;; onfs end_op ;;; ret 0
      end
  end.
Definition sys_mkdir : M (kern S) Z := make_dir T_DIR.
Definition mkSmallFilesdir : M (kern S) Z := make_dir T_SDIR.

Definition sys_mknod : M (kern S) Z :=
  onfs begin_op ;;;
  let! path := argstr 0 in
  match path with
  | None => fail_op
  | Some path =>
  let! major := argint 1 in
  match major with
  | None => fail_op
  | Some major =>
  let! minor := argint 2 in
  match minor with
  | None => fail_op
  | Some minor =>
  let! ip := create path T_DEV (i16 major) (i16 minor) in
  match ip with
  | None => fail_op
  | Some ip => onfs (iunlockput ip) ;;; onfs end_op ;;; ret 0
  end end end end.

Definition sys_chdir : M (kern S) Z :=
  onfs begin_op ;;;
  let! path := argstr 0 in
  match path with
  | None => fail_op
  | Some path =>
  let! ip := knamei path in
  match ip with
  | None => fail_op
  | Some ip =>
  onfs (ilock (Some ip)) ;;;
  let! ino := onfs (geti ip) in
  if negb (i_type ino =? T_DIR) && negb (i_type ino =? T_SDIR) then onfs (iunlockput ip) ;;; fail_op
  else
    onfs (iunlock (Some ip)) ;;;
    let! c := cwd_of in
    onfs (iput c) ;;;
    onfs end_op ;;;
    modself (with_cwd (Some ip)) ;;;
    ret 0
  end end.

Definition sys_pipe : M (kern S) Z :=
  let! fd := argptr 0 8 in
  match fd with
  | None => ret (-1)
  | Some fd =>
  let! r := pipealloc kend in
  match r with
  | None => ret (-1)
  | Some (rf, wf) =>
  let! fd0 := fdalloc rf in
  if fd0 <? 0 then fileclose kend rf ;;; fileclose kend wf ;;; ret (-1)
  else
    let! fd1 := fdalloc wf in
    if fd1 <? 0 then
      fdclear (Z.to_nat fd0) ;;;
      fileclose kend rf ;;;
      fileclose kend wf ;;;
      ret (-1)
    else
      ustores fd (le_bytes 4 fd0) ;;;
      ustores (u32 (fd + 4)) (le_bytes 4 fd1) ;;;
      ret 0
  end end.

(** ** System-call counts *)

Definition NCOUNT : Z := 23.

(** [count_array[syscall]++] with no check of the index. *)
Definition updatecount (syscall : Z) : M (kern S) unit :=
  let! s := get in
  let counts := if k_inits s =? 0 then replicate (Z.to_nat NCOUNT) 0 else k_counts s in
  if (0 <=? syscall) && (syscall <? NCOUNT) then
    modify (set_counts (alter (fun c => i32 (c + 1)) (Z.to_nat syscall) counts) 1)
  else undef "count_array[syscall]".

(** [for(i = 0; i < 23; i++) counts[i] = count_array[i];] *)
Definition getcount : M (kern S) Z :=
  let! size := argint 1 in
  match size with
  | None => ret (-1)
  | Some size =>
  let! counts := argptr 0 size in
  match counts with
  | None => ret (-1)
  | Some counts =>
  if (size <? 23) || (counts =? 0) then ret (-1)
  else
    let! s := get in
    for_each (Z.to_nat NCOUNT) 0 (fun i =>
      ustores (u32 (counts + 4 * i)) (le_bytes 4 (Kstring.nthZ (k_counts s) i))) ;;;
    ret 0
  end end.

End sysfile.
