(* ===== verification/Exec.v ===== *)
(** * Loading a program (exec.c and loaduvm of vm.c) *)

From S2P Require Import Prelude CString Bio Layout Blocks Fs Memory Kalloc Vm Pipe Kern File Sysarg Sysfile.

(** [struct elfhdr] and [struct proghdr] at their field offsets. *)
Definition ELF_MAGIC : Z := 0x464C457F.
Definition ELF_PROG_LOAD : Z := 1.
Definition ELFHDR_SIZE : Z := 52.
Definition PROGHDR_SIZE : Z := 32.
Record elfhdr := Elfhdr { elf_magic : Z; elf_entry : Z; elf_phoff : Z; elf_phnum : Z }.
Definition elf_decode (d : list Z) : elfhdr := Elfhdr (rd32 d 0) (rd32 d 24) (rd32 d 28) (rd16 d 44).
Record proghdr := Proghdr { ph_type : Z; ph_off : Z; ph_vaddr : Z; ph_filesz : Z; ph_memsz : Z }.
Definition ph_decode (d : list Z) : proghdr := Proghdr (rd32 d 0) (rd32 d 4) (rd32 d 8) (rd32 d 16) (rd32 d 20).

(** [for(last=s=path; *s; s++) if( *s == '/') last = s+1;] *)
Fixpoint last_elem (path last : list Z) : list Z :=
  match path with
  | [] => last
  | c :: rest => last_elem rest (if c =? SLASH then rest else last)
  end.
(** [safestrcpy(proc->name, last, sizeof(proc->name))] on the 16-byte array. *)
Definition name_copy (old last : list Z) : list Z :=
  let m := store_bytes (store_bytes (fun _ => 0) 0 old) 4096 (last ++ [0]) in
  bytes_at (Kstring.safestrcpy 0 4096 16 m) 0 16.

Section exec.
Context {S : Type} `{BlockLayer S} `{DevSw S}.
Context (kend kdata : Z).

(** [for(i = 0; i < sz; i += PGSIZE)] *)
Fixpoint loaduvm_loop (fuel : nat) (pgdir addr : Z) (ip : nat) (offset sz i : Z) : M (kern S) Z :=
  match fuel with
  | O => undef "loaduvm: fuel"
  | Datatypes.S fuel =>
      if i <? sz then
        let! pte := onkm (walkpgdir pgdir (u32 (addr + i)) false) in
        if pte =? 0 then panic "loaduvm: address should exist"
        else
          let! e := onkm (peek32 pte) in
          let pa := PTE_ADDR e in
          let n := if u32 (sz - i) <? PGSIZE then u32 (sz - i) else PGSIZE in
          let! (r, bs) := onfs (readi ip (u32 (offset + i)) n) in
          onkm (modify (fun k => set_mem k (store_bytes (km_mem k) (P2V pa) bs))) ;;;
          if negb (u32 r =? n) then ret (-1)
          else loaduvm_loop fuel pgdir addr ip offset sz (u32 (i + PGSIZE))
      else ret 0
  end.
Definition loaduvm (pgdir addr : Z) (ip : nat) (offset sz : Z) : M (kern S) Z :=
  if negb (addr mod PGSIZE =? 0) then panic "loaduvm: addr must be page aligned"
  else loaduvm_loop (Z.to_nat (sz / PGSIZE + 2)) pgdir addr ip offset sz 0.

(** The checks of [switchuvm]; the loading of the task and page-table
    registers is in [Segments.v]. *)
Definition switchuvm (p : option proc) : M (kern S) unit :=
  match p with
  | None => panic "switchuvm: no process"
  | Some p =>
      if p_kstack p =? 0 then panic "switchuvm: no kstack"
      else if p_pgdir p =? 0 then panic "switchuvm: no pgdir"
      else ret tt
  end.

(** The loop over the program headers: the new size, or [None] for
    [goto bad]. *)
Fixpoint exec_load (phnum : nat) (pgdir : Z) (ip : nat) (off sz : Z) : M (kern S) (option Z) :=
  match phnum with
  | O => ret (Some sz)
  | Datatypes.S phnum =>
      let! (r, d) := onfs (readi ip off PROGHDR_SIZE) in
      if negb (r =? PROGHDR_SIZE) then ret None
      else
        let ph := ph_decode d in
        if negb (ph_type ph =? ELF_PROG_LOAD) then exec_load phnum pgdir ip (u32 (off + PROGHDR_SIZE)) sz
        else if ph_memsz ph <? ph_filesz ph then ret None
        else if u32 (ph_vaddr ph + ph_memsz ph) <? ph_vaddr ph then ret None
        else
          let! sz := onkm (allocuvm kend pgdir sz (u32 (ph_vaddr ph + ph_memsz ph))) in
          if sz =? 0 then ret None
          else if negb (ph_vaddr ph mod PGSIZE =? 0) then ret None
          else
            let! r := loaduvm pgdir (ph_vaddr ph) ip (ph_off ph) (ph_filesz ph) in
            if r <? 0 then ret None
            else exec_load phnum pgdir ip (u32 (off + PROGHDR_SIZE)) sz
  end.

(** The loop that pushes the argument strings: the stack pointer and the
    pointers to the strings. *)
Fixpoint push_args (argv : list (list Z)) (argc : Z) (pgdir sp : Z) (ustack : list Z) : M (kern S) (option (Z * list Z)) :=
  match argv with
  | [] => ret (Some (sp, ustack))
  | a :: argv =>
      if MAXARG <=? argc then ret None
      else
        let sp := Z.land (u32 (sp - (Z.of_nat (length a) + 1))) (u32 (Z.lnot 3)) in
        let! r := onkm (copyout pgdir sp (a ++ [0])) in
        if r <? 0 then ret None else push_args argv (argc + 1) pgdir sp (ustack ++ [sp])
  end.

Definition words (ws : list Z) : list Z := concat (le_bytes 4 <$> ws).

(** Everything after the image is loaded: the stack, the arguments and the
    switch to the new image; [None] for [goto bad] (with [ip == 0]). *)
Definition exec_start (path : list Z) (argv : list (list Z)) (entry pgdir sz : Z) : M (kern S) (option unit) :=
  let sz := PGROUNDUP sz in
  let! sz := onkm (allocuvm kend pgdir sz (u32 (sz + 2 * PGSIZE))) in
  if sz =? 0 then ret None
  else
    onkm (clearpteu pgdir (u32 (sz - 2 * PGSIZE))) ;;;
    let! r := push_args argv 0 pgdir sz [] in
    match r with
    | None => ret None
    | Some (sp, args) =>
        let argc := Z.of_nat (length args) in
        let ustack := [0xffffffff; argc; u32 (sp - (argc + 1) * 4)] ++ args ++ [0] in
        let sp := u32 (sp - (3 + argc + 1) * 4) in
        let! r := onkm (copyout pgdir sp (words ustack)) in
        if r <? 0 then ret None
        else
          modself (fun p => with_name (name_copy (p_name p) (last_elem path path)) p) ;;;
          let! p := self in
          let oldpgdir := p_pgdir p in
          modself (fun p => with_tf (with_entry entry sp (p_tf p)) (with_mm sz pgdir p)) ;;;
          let! p := self in
          switchuvm (Some p) ;;;
          onkm (freevm kend oldpgdir) ;;;
          ret (Some tt)
    end.

Definition exec (path : list Z) (argv : list (list Z)) : M (kern S) Z :=
  onfs begin_op ;;;
  let! ip := knamei path in
  match ip with
  | None => fail_op
  | Some ip =>
  onfs (ilock (Some ip)) ;;;
  let bad := onfs (iunlockput ip) ;;; fail_op in
  let! (r, d) := onfs (readi ip 0 ELFHDR_SIZE) in
  let elf := elf_decode d in
  if negb (r =? ELFHDR_SIZE) then bad
  else if negb (elf_magic elf =? ELF_MAGIC) then bad
  else
    let! pgdir := onkm (setupkvm kdata) in
    if pgdir =? 0 then bad
    else
      let! sz := exec_load (Z.to_nat (elf_phnum elf)) pgdir ip (elf_phoff elf) 0 in
      match sz with
      | None => onkm (freevm kend pgdir) ;;; bad
      | Some sz =>
          onfs (iunlockput ip) ;;;
          onfs end_op ;;;
          let! r := exec_start path argv (elf_entry elf) pgdir sz in
          match r with
          | None => onkm (freevm kend pgdir) ;;; ret (-1)
          | Some _ => ret 0
          end
      end
  end.

(** The argument loop of [sys_exec] (sysfile.c): [None] for [return -1]. *)
Fixpoint fetch_argv (n : nat) (uargv i : Z) : M (kern S) (option (list (list Z))) :=
  match n with
  | O => ret None
  | Datatypes.S n =>
      let! uarg := fetchint (u32 (uargv + 4 * i)) in
      match uarg with
      | None => ret None
      | Some uarg =>
          if uarg =? 0 then ret (Some [])
          else
            let! a := fetchstr (u32 uarg) in
            match a with
            | None => ret None
            | Some a =>
                let! rest := fetch_argv n uargv (i + 1) in
                ret (match rest with Some rest => Some (a :: rest) | None => None end)
            end
      end
  end.

Definition sys_exec : M (kern S) Z :=
  let! path := argstr 0 in
  match path with
  | None => ret (-1)
  | Some path =>
  let! uargv := argint 1 in
  match uargv with
  | None => ret (-1)
  | Some uargv =>
  let! argv := fetch_argv (Z.to_nat MAXARG) (u32 uargv) 0 in
  match argv with
  | None => ret (-1)
  | Some argv => exec path argv
  end end end.

End exec.
