(* ===== verification/Boot.v ===== *)
(** * The boot loader: bootmain.c

    The loader polls the drive, sector by sector, and builds the kernel's image
    in physical memory.  The drive is the one of Ide.v, used without interrupts;
    [PioOk] of BootTheorems.v says what the ATA interface documents for that: a read command
    started, the drive is ready when the status says so, and then the data port
    delivers the sector.  [entry()] is the address returned. *)

From S2P Require Import Prelude CString Memory Bio Ide Exec.
Import Kstring.

Definition SECTSIZE : Z := 512.
Definition SCRATCH : Z := 0x10000.

Record boot (D : Type) := Boot { bt_mem : mem; bt_dev : D }.
Arguments Boot {D}. Arguments bt_mem {D}. Arguments bt_dev {D}.

Section loader.
Context {D : Type} `{Ata D} (polls : nat).
Implicit Types s : boot D.

Definition boutb (port v : Z) : M (boot D) unit := modify (fun s => Boot (bt_mem s) (ata_outb port (u8 v) (bt_dev s))).

(** [while((inb(0x1F7) & 0xC0) != 0x40);] *)
Fixpoint waitdisk_loop (n : nat) : M (boot D) unit := fun s =>
  match n with
  | O => Blocked "waitdisk"
  | S n =>
      let '(r, d) := ata_inb 0x1f7 (bt_dev s) in
      if Z.land r 0xc0 =? 0x40 then Ret tt (Boot (bt_mem s) d) else waitdisk_loop n (Boot (bt_mem s) d)
  end.
Definition waitdisk : M (boot D) unit := waitdisk_loop polls.

Definition readsect (dst offset : Z) : M (boot D) unit :=
  waitdisk ;;;
  boutb 0x1f2 1 ;;;
  boutb 0x1f3 offset ;;;
  boutb 0x1f4 (Z.shiftr offset 8) ;;;
  boutb 0x1f5 (Z.shiftr offset 16) ;;;
  boutb 0x1f6 (Z.lor (Z.shiftr offset 24) 0xe0) ;;;
  boutb 0x1f7 0x20 ;;;
  waitdisk ;;;
  (fun s => let '(x, d) := ata_insl (bt_dev s) in Ret tt (Boot (store_bytes (bt_mem s) dst x) d)).

(** [for(; pa < epa; pa += SECTSIZE, offset++) readsect(pa, offset);] *)
Fixpoint readseg_loop (fuel : nat) (pa epa offset : Z) : M (boot D) unit :=
  match fuel with
  | O => undef "fuel"
  | S fuel =>
      if pa <? epa then readsect pa offset ;;; readseg_loop fuel (u32 (pa + SECTSIZE)) epa (u32 (offset + 1))
      else ret tt
  end.
(** There are at most [count / 512 + 2] sectors. *)
Definition readseg (pa count offset : Z) : M (boot D) unit :=
  let epa := u32 (pa + count) in
  let pa := u32 (pa - offset mod SECTSIZE) in
  let offset := u32 (offset / SECTSIZE + 1) in
  readseg_loop (Z.to_nat (count / SECTSIZE) + 3) pa epa offset.

(** The header fields at [a] in memory. *)
Definition ld16 (m : mem) (a : Z) : Z := m a + 256 * m (u32 (a + 1)).
Definition PH_SIZE : Z := 32.

Fixpoint load_segs (n : nat) (ph : Z) : M (boot D) unit :=
  match n with
  | O => ret tt
  | S n =>
      let! s := get in
      let m := bt_mem s in
      let off := load32 m (u32 (ph + 4)) in
      let pa := load32 m (u32 (ph + 12)) in
      let filesz := load32 m (u32 (ph + 16)) in
      readseg pa filesz off ;;;
      (* The fields are read again, from the memory as it is now. *)
      let! s := get in
      let m := bt_mem s in
      let filesz := load32 m (u32 (ph + 16)) in
      let memsz := load32 m (u32 (ph + 20)) in
      when (filesz <? memsz) (modify (fun s => Boot (stosb (Z.to_nat (memsz - filesz)) (u32 (pa + filesz)) 0 (bt_mem s)) (bt_dev s))) ;;;
      load_segs n (u32 (ph + PH_SIZE))
  end.

(** [None] where [bootmain] returns to bootasm.S, the entry point otherwise. *)
Definition bootmain : M (boot D) (option Z) :=
  readseg SCRATCH 4096 0 ;;;
  let! s := get in
  let m := bt_mem s in
  if negb (load32 m SCRATCH =? ELF_MAGIC) then ret None
  else
    let ph := u32 (SCRATCH + load32 m (SCRATCH + 28)) in
    load_segs (Z.to_nat (ld16 m (SCRATCH + 44))) ph ;;;
    let! s := get in
    ret (Some (load32 (bt_mem s) (SCRATCH + 24))).
End loader.
