(* ===== verification/BootTheorems.v ===== *)
(** * The boot loader loads the kernel

    On a drive that keeps the laws [PioOk], [bootmain] puts every segment of the
    kernel at its physical address, zeros what the file does not cover and
    returns the entry point. *)

From S2P Require Import Prelude CString Memory Bio Ide IdeTheorems Exec Boot.
Import Kstring.

Definition boot_port (p : Z) : Prop := p ∈ [0x1f2; 0x1f3; 0x1f4; 0x1f5; 0x1f6].
(** One sector, in LBA mode, of the first drive. *)
Definition boot_cmd (g : gmap Z Z) : Prop :=
  g !! 0x1f2 = Some 1 /\ Z.testbit (reg g 0x1f6) 6 = true /\ reg_drv g = false.

Class PioOk (D : Type) `{Ata D} (polls : nat) := {
  pio_disk : D -> gmap Z block;
  pio_regs : D -> gmap Z Z;
  pio_at : D -> ata_phase;
  pio_busy : D -> nat;
  pio_outb : forall p v d, boot_port p -> let d' := ata_outb p v d in
    pio_regs d' = <[p := v]> (pio_regs d) /\ pio_disk d' = pio_disk d /\ pio_at d' = pio_at d;
  pio_read : forall d, settled (pio_at d) -> boot_cmd (pio_regs d) -> let d' := ata_outb 0x1f7 0x20 d in
    pio_at d' = Busy (Rd false (reg_lba (pio_regs d))) /\ pio_disk d' = pio_disk d;
  (** A poll reports that the drive is at work, or that it has finished; the
      loader does not look at the error bit, and the law has no failed read. *)
  pio_inb : forall d r d', ata_inb 0x1f7 d = (r, d') -> pio_disk d' = pio_disk d /\
    (if Z.land r 0xc0 =? 0x40 then
       pio_at d' = match pio_at d with Busy (Rd _ l) => Ready (default zero_block (pio_disk d !! l)) | a => a end
     else pio_at d' = pio_at d /\ (pio_busy d' < pio_busy d)%nat);
  pio_ready : forall d, (pio_busy d < polls)%nat;
  pio_insl : forall d x, pio_at d = Ready x -> exists d', ata_insl d = (x, d') /\ pio_at d' = Idle /\ pio_disk d' = pio_disk d;
  pio_sectors : forall d l x, pio_disk d !! l = Some x -> length x = 512%nat
}.

Section loader.
Context {D : Type} `{HA : Ata D} (polls : nat) `{!PioOk D polls}.
Implicit Types (s : boot D) (d : D).

Definition sector d (l : Z) : block := default zero_block (pio_disk d !! l).
Lemma length_sector d l : length (sector d l) = 512%nat.
Proof. unfold sector. destruct (pio_disk d !! l) eqn:E; [by eapply pio_sectors|done]. Qed.

(** Byte [i] of the kernel's file, which starts at sector 1. *)
Definition file_byte d (i : Z) : Z := nthZ (sector d (i / SECTSIZE + 1)) (i mod SECTSIZE).

Lemma waitdisk_loop_ok n s : (pio_busy (bt_dev s) < n)%nat -> exists d',
  waitdisk_loop n s = Ret tt (Boot (bt_mem s) d') /\ pio_disk d' = pio_disk (bt_dev s) /\
  pio_at d' = match pio_at (bt_dev s) with Busy (Rd _ l) => Ready (sector (bt_dev s) l) | a => a end.
Proof.
  revert s. induction n as [|n IH]; intros s Hn; [lia|].
  cbn [waitdisk_loop]. destruct (ata_inb 0x1f7 (bt_dev s)) as [r d'] eqn:E. destruct (pio_inb _ _ _ E) as [Hd Hr]. destruct (_ =? _).
  - by exists d'.
  - destruct Hr as [Ha Hb]. destruct (IH (Boot (bt_mem s) d')) as (d2 & E2 & H2 & H3); [cbn; lia|]. exists d2. cbn in *. rewrite E2, H2, H3, Ha, Hd.
    unfold sector. by rewrite Hd.
Qed.
Lemma waitdisk_ok s : exists d', waitdisk polls s = Ret tt (Boot (bt_mem s) d') /\ pio_disk d' = pio_disk (bt_dev s) /\
  pio_at d' = match pio_at (bt_dev s) with Busy (Rd _ l) => Ready (sector (bt_dev s) l) | a => a end.
Proof. apply waitdisk_loop_ok, pio_ready. Qed.

(** The registers [readsect] writes. *)
Definition sect_regs (n : Z) : list (Z * Z) :=
  [(0x1f2, u8 1); (0x1f3, u8 n); (0x1f4, u8 (Z.shiftr n 8)); (0x1f5, u8 (Z.shiftr n 16)); (0x1f6, u8 (Z.lor (Z.shiftr n 24) 0xe0))].
Definition pouts (l : list (Z * Z)) d : D := foldl (fun d pv => ata_outb pv.1 pv.2 d) d l.
Lemma pouts_ok l d : Forall (fun pv => boot_port pv.1) l ->
  pio_regs (pouts l d) = foldl (fun g pv => <[pv.1 := pv.2]> g) (pio_regs d) l /\
  pio_disk (pouts l d) = pio_disk d /\ pio_at (pouts l d) = pio_at d.
Proof.
  intros Hl. revert d. induction Hl as [|[p v] l Hp _ IH]; intros d; [done|].
  destruct (pio_outb p v d Hp) as (Hr & Hd & Ha). cbn [pouts foldl fst snd].
  destruct (IH (ata_outb p v d)) as (H1 & H2 & H3). unfold pouts in *. rewrite H1, H2, H3, Hr, Hd, Ha. done.
Qed.

Lemma sect_drive n (r := u8 (Z.lor (Z.shiftr n 24) 0xe0)) : 0 <= n < 2 ^ 28 ->
  Z.land r 15 = Z.land (Z.shiftr n 24) 0x0f /\ Z.testbit r 6 = true /\ Z.testbit r 4 = false.
Proof.
  intros Hn. assert (Ht : 0 <= Z.shiftr n 24 < 16) by (rewrite Z.shiftr_div_pow2 by lia; split; [apply Z.div_pos; lia|apply Z.div_lt_upper_bound; lia]).
  unfold r. clear r. generalize dependent (Z.shiftr n 24). intros t Ht.
  assert (t = 0 \/ t = 1 \/ t = 2 \/ t = 3 \/ t = 4 \/ t = 5 \/ t = 6 \/ t = 7 \/ t = 8 \/ t = 9 \/ t = 10 \/ t = 11 \/ t = 12 \/ t = 13 \/ t = 14 \/ t = 15) as Hc by lia.
  repeat (destruct Hc as [-> |Hc]; [vm_compute; done|]). subst t. vm_compute. done.
Qed.

Lemma sect_regs_ok n d : 0 <= n < 2 ^ 28 -> let g := pio_regs (pouts (sect_regs n) d) in boot_cmd g /\ reg_lba g = n.
Proof.
  intros Hn g. destruct (pouts_ok (sect_regs n) d) as (Hg & _).
  { repeat constructor; cbn; unfold boot_port; set_solver. }
  destruct (sect_drive n Hn) as (Ht & H6 & H4).
  assert (Hl : forall p v, foldl (fun g pv => <[pv.1 := pv.2]> g) (pio_regs d) (sect_regs n) !! p = Some v -> reg g p = v).
  { intros p v Hp. unfold reg, g. rewrite Hg, Hp. done. }
  unfold sect_regs in *. cbn [foldl fst snd] in *. assert (E6 := Hl 0x1f6 _ (lookup_insert_eq _ _ _)).
  assert (Hu : forall z, u8 z = Z.land z 0xff) by (intros z; change 0xff with (Z.ones 8); by rewrite Z.land_ones by lia).
  repeat split.
  - unfold g. rewrite Hg. by simplify_map_eq.
  - by rewrite E6.
  - unfold reg_drv. by rewrite E6.
  - unfold reg_lba. rewrite E6, Ht. erewrite 3 Hl by (by simplify_map_eq). rewrite !Hu. by apply lba_bytes.
Qed.

Lemma readsect_ok dst n s : 0 <= n < 2 ^ 28 -> settled (pio_at (bt_dev s)) -> exists d',
  readsect polls dst n s = Ret tt (Boot (store_bytes (bt_mem s) dst (sector (bt_dev s) n)) d') /\
  settled (pio_at d') /\ pio_disk d' = pio_disk (bt_dev s).
Proof.
  intros Hn Hs. destruct (waitdisk_ok s) as (d1 & E1 & Hd1 & Ha1). pose (d2 := pouts (sect_regs n) d1).
  destruct (pouts_ok (sect_regs n) d1) as (_ & Hd2 & Ha2). { repeat constructor; cbn; unfold boot_port; set_solver. }
  destruct (sect_regs_ok n d1 Hn) as [Hc Hl]. fold d2 in Hc, Hl, Hd2, Ha2.
  assert (Hs2 : settled (pio_at d2)) by (rewrite Ha2, Ha1; by destruct (pio_at (bt_dev s)) as [| |[]|]).
  destruct (pio_read d2 Hs2 Hc) as [Ha3 Hd3]. rewrite Hl in Ha3.
  destruct (waitdisk_ok (Boot (bt_mem s) (ata_outb 0x1f7 0x20 d2))) as (d4 & E4 & Hd4 & Ha4). cbn [bt_mem bt_dev] in *. rewrite Ha3 in Ha4.
  destruct (pio_insl _ _ Ha4) as (d5 & E5 & Ha5 & Hd5). exists d5. split; [|by rewrite Ha5, Hd5, Hd4, Hd3, Hd2].
  unfold readsect. rewrite (bind_Ret _ _ _ _ _ E1). unfold boutb, modify, bind at 1 2 3 4 5 6. cbn [bt_mem bt_dev].
  erewrite bind_Ret by exact E4. cbn [bt_mem bt_dev]. rewrite E5. unfold sector. by rewrite Hd3, Hd2, Hd1.
Qed.

Lemma file_byte_disk d d' i : pio_disk d' = pio_disk d -> file_byte d' i = file_byte d i.
Proof. intros E. unfold file_byte, sector. by rewrite E. Qed.

(** The bytes [pa, epa) are the file's from [off] on; at most a sector's worth
    after them is written too. *)
Definition read_into (d : D) (m m' : mem) (pa epa off : Z) : Prop :=
  (forall x, pa <= x < epa -> m' x = file_byte d (off + (x - pa))) /\
  (forall x, x < pa \/ epa + 511 <= x -> m' x = m x).

Lemma readseg_loop_ok fuel pa epa n s :
  1 <= n -> n + Z.of_nat fuel <= 2 ^ 28 -> 0 <= pa -> epa + 512 <= 2 ^ 32 ->
  epa - pa <= SECTSIZE * (Z.of_nat fuel - 1) -> (0 < fuel)%nat -> settled (pio_at (bt_dev s)) -> exists m' d',
  readseg_loop polls fuel pa epa n s = Ret tt (Boot m' d') /\ settled (pio_at d') /\ pio_disk d' = pio_disk (bt_dev s) /\
  read_into (bt_dev s) (bt_mem s) m' pa epa (SECTSIZE * (n - 1)).
Proof.
  unfold SECTSIZE. revert pa n s. induction fuel as [|fuel IH]; intros pa n s Hn Hf Hpa He Hd H0 Hs; [lia|]. cbn [readseg_loop].
  destruct (Z.ltb_spec pa epa).
  2: { exists (bt_mem s), (bt_dev s). destruct s. repeat split; try done; intros x Hx; lia. }
  destruct (readsect_ok pa n s ltac:(lia) Hs) as (d1 & E1 & Hs1 & Hd1).
  rewrite (bind_Ret _ _ _ _ _ E1). unfold SECTSIZE. rewrite !u32_small by lia.
  destruct (decide (fuel = O)) as [->|Hne]; [lia|].
  destruct (IH (pa + 512) (n + 1) (Boot (store_bytes (bt_mem s) pa (sector (bt_dev s) n)) d1)) as (m' & d' & E2 & Hs2 & Hd2 & Hin & Hout); try done; try lia.
  exists m', d'. cbn [bt_dev bt_mem] in *. split; [done|]. split; [done|]. split; [congruence|].
  assert (Hst := store_bytes_in (bt_mem s) pa (sector (bt_dev s) n) Hpa). rewrite length_sector in Hst.
  split; intros x Hx; [destruct (Z.ltb_spec x (pa + 512))|].
  - rewrite Hout by lia. rewrite Hst by lia. zb; simpl; try lia. unfold file_byte, SECTSIZE.
    rewrite (Z.add_comm _ (x - pa)), (Z.mul_comm 512), Z_mod_plus_full, Z.div_add, Z.mod_small, Z.div_small by lia. do 2 f_equal; lia.
  - rewrite Hin by lia. rewrite (file_byte_disk (bt_dev s)) by done. f_equal. lia.
  - rewrite Hout by lia. rewrite Hst by lia. zb; simpl; try lia; done.
Qed.

(** Where the segment's first sector goes. *)
Definition seg_start (pa off : Z) : Z := pa - off mod SECTSIZE.

Lemma readseg_ok pa count off s :
  0 <= off -> 0 <= count -> off + count < 2 ^ 32 -> 0 <= seg_start pa off -> pa + count + 512 <= 2 ^ 32 -> settled (pio_at (bt_dev s)) ->
  exists m' d', readseg polls pa count off s = Ret tt (Boot m' d') /\ settled (pio_at d') /\ pio_disk d' = pio_disk (bt_dev s) /\
  (forall x, pa <= x < pa + count -> m' x = file_byte (bt_dev s) (off + (x - pa))) /\
  (forall x, x < seg_start pa off \/ pa + count + 511 <= x -> m' x = bt_mem s x).
Proof.
  unfold seg_start, SECTSIZE. intros Ho Hc Hoc Hp He Hs. assert (Hm := Z.mod_pos_bound off 512 ltac:(lia)).
  assert (Hdm := Z.div_mod off 512 ltac:(lia)). assert (Hq : 0 <= off / 512) by (apply Z.div_pos; lia).
  assert (Hdc := Z.div_mod count 512 ltac:(lia)). assert (Hmc := Z.mod_pos_bound count 512 ltac:(lia)).
  assert (0 <= count / 512) by (apply Z.div_pos; lia).
  unfold readseg, SECTSIZE. rewrite !u32_small by lia.
  destruct (readseg_loop_ok (Z.to_nat (count / 512) + 3) (pa - off mod 512) (pa + count) (off / 512 + 1) s) as (m' & d' & E & Hs' & Hd' & Hin & Hout);
    unfold SECTSIZE in *; try done; try lia.
  exists m', d'. repeat split; try done. intros x Hx. rewrite Hin by lia. f_equal. lia.
Qed.

(** *** Segments *)

Record seg := Seg { g_off : Z; g_pa : Z; g_filesz : Z; g_memsz : Z }.

(** The program headers at [ph] describe the segments. *)
Fixpoint headers (m : mem) (ph : Z) (gs : list seg) : Prop :=
  match gs with
  | [] => True
  | g :: gs => load32 m (ph + 4) = g_off g /\ load32 m (ph + 12) = g_pa g /\ load32 m (ph + 16) = g_filesz g /\
      load32 m (ph + 20) = g_memsz g /\ headers m (ph + PH_SIZE) gs
  end.

(** The segments are in increasing order above [lo], and what a segment's first
    sector holds before it overlaps no segment below. *)
Fixpoint layout (lo : Z) (gs : list seg) : Prop :=
  match gs with
  | [] => True
  | g :: gs => 0 <= g_off g /\ 0 <= g_filesz g <= g_memsz g /\ g_off g + g_filesz g < 2 ^ 32 /\
      lo <= seg_start (g_pa g) (g_off g) /\ g_pa g + g_memsz g + 512 <= 2 ^ 32 /\ layout (g_pa g + g_memsz g) gs
  end.

(** The file's bytes, then zeros. *)
Definition loaded (d : D) (m : mem) (g : seg) : Prop :=
  (forall x, g_pa g <= x < g_pa g + g_filesz g -> m x = file_byte d (g_off g + (x - g_pa g))) /\
  (forall x, g_pa g + g_filesz g <= x < g_pa g + g_memsz g -> m x = 0).

(** [headers] reads only the table it is given. *)
Lemma headers_on m m' ph gs : 0 <= ph -> ph + PH_SIZE * Z.of_nat (length gs) < 2 ^ 32 ->
  same_on ph (PH_SIZE * Z.of_nat (length gs)) m m' -> headers m ph gs -> headers m' ph gs.
Proof.
  unfold PH_SIZE. revert ph. induction gs as [|g gs IH]; intros ph H0 H1 Hs; [done|]. cbn [headers length] in *.
  intros (E1 & E2 & E3 & E4 & Hr). unfold PH_SIZE in *. repeat split; try (rewrite (load32_ext m); try lia; try done; intros x Hx; apply Hs; lia).
  apply IH; try lia; [|done]. intros x Hx. apply Hs. lia.
Qed.


(** What the loop's body leaves in memory for one segment. *)
Definition fill (g : seg) (m : mem) : mem :=
  if g_filesz g <? g_memsz g then stosb (Z.to_nat (g_memsz g - g_filesz g)) (g_pa g + g_filesz g) 0 m else m.

Lemma fill_ok g m x : 0 <= g_pa g + g_filesz g -> g_filesz g <= g_memsz g -> g_pa g + g_memsz g <= 2 ^ 32 ->
  fill g m x = if (g_pa g + g_filesz g <=? x) && (x <? g_pa g + g_memsz g) then 0 else m x.
Proof.
  intros H0 H1 H2. unfold fill. destruct (Z.ltb_spec (g_filesz g) (g_memsz g)).
  - rewrite stosb_spec by lia. zb; simpl; try lia; done.
  - zb; simpl; try lia; done.
Qed.

Lemma load_segs_ok gs lo ph s :
  0 <= ph -> ph + PH_SIZE * Z.of_nat (length gs) <= lo -> lo < 2 ^ 32 -> headers (bt_mem s) ph gs -> layout lo gs ->
  settled (pio_at (bt_dev s)) -> exists m' d',
  load_segs polls (length gs) ph s = Ret tt (Boot m' d') /\ settled (pio_at d') /\ pio_disk d' = pio_disk (bt_dev s) /\
  same_below lo (bt_mem s) m' /\ Forall (loaded (bt_dev s) m') gs.
Proof.
  revert lo ph s. induction gs as [|g gs IH]; intros lo ph s H0 Hph Hlo Hh Hl Hs.
  { exists (bt_mem s), (bt_dev s). by destruct s. }
  destruct Hl as (Ho & Hf & Hof & Hst & Hend & Hl). assert (Hmod := Z.mod_pos_bound (g_off g) SECTSIZE ltac:(unfold SECTSIZE; lia)).
  assert (Hpa : seg_start (g_pa g) (g_off g) <= g_pa g) by (unfold seg_start; lia).
  cbn [length] in Hph. unfold PH_SIZE in Hph.
  destruct (readseg_ok (g_pa g) (g_filesz g) (g_off g) s) as (m1 & d1 & E1 & Hs1 & Hd1 & Hin & Hout); try done; try lia.
  assert (Hh1 : headers m1 ph (g :: gs)).
  { apply (headers_on (bt_mem s)); unfold PH_SIZE; cbn [length]; try done; try lia. intros x Hx. apply Hout. lia. }
  assert (Hfill := fun x => fill_ok g m1 x ltac:(lia) ltac:(lia) ltac:(lia)).
  destruct (IH (g_pa g + g_memsz g) (ph + PH_SIZE) (Boot (fill g m1) d1)) as (m2 & d2 & E2 & Hs2 & Hd2 & Hlo2 & Hall);
    cbn [bt_mem bt_dev]; unfold PH_SIZE; try done; try lia.
  { destruct Hh1 as (_ & _ & _ & _ & Hh1). apply (headers_on m1); unfold PH_SIZE in *; try done; try lia.
    intros x Hx. rewrite Hfill. zb; simpl; try lia; done. }
  cbn [bt_mem bt_dev] in *. exists m2, d2. split.
  { destruct Hh as (F1 & F2 & F3 & _), Hh1 as (_ & _ & G3 & G4 & _). cbn [length load_segs]. unfold get, bind at 1.
    unfold PH_SIZE in *. rewrite !u32_small by lia. cbn [bt_mem]. rewrite F1, F2, F3.
    erewrite bind_Ret by exact E1. unfold bind at 1. cbn [bt_mem]. rewrite G3, G4, u32_small by lia.
    unfold fill in E2. destruct (_ <? _); exact E2. }
  split; [done|]. split; [congruence|]. split.
  - intros x Hx. rewrite Hlo2 by lia. rewrite Hfill. zb; simpl; try lia; apply Hout; lia.
  - constructor.
    + split; intros x Hx; rewrite Hlo2 by lia; rewrite Hfill; zb; simpl; try lia. by apply Hin.
    + eapply Forall_impl; [exact Hall|]. intros g' [Ha Hb]. split; intros x Hx; [|by apply Hb].
      rewrite Ha by done. by apply file_byte_disk.
Qed.

(** The first page of the file, where the loader looks at it. *)
Definition scratch (d : D) : mem := fun x => file_byte d (x - SCRATCH).

(** The file on the drive is a kernel with the segments [gs]: the header is
    ELF's, the program headers are in the first page, and the segments lie in
    increasing order above the scratch page. *)
Record kernel_file (d : D) (gs : list seg) : Prop := {
  kf_magic : load32 (scratch d) SCRATCH = ELF_MAGIC;
  kf_phnum : ld16 (scratch d) (SCRATCH + 44) = Z.of_nat (length gs);
  kf_phoff : 0 <= load32 (scratch d) (SCRATCH + 28) /\
    load32 (scratch d) (SCRATCH + 28) + PH_SIZE * Z.of_nat (length gs) <= 4096;
  kf_headers : headers (scratch d) (SCRATCH + load32 (scratch d) (SCRATCH + 28)) gs;
  kf_layout : layout (SCRATCH + 4096) gs
}.

Lemma first_page s : settled (pio_at (bt_dev s)) -> exists m' d',
  readseg polls SCRATCH 4096 0 s = Ret tt (Boot m' d') /\ settled (pio_at d') /\ pio_disk d' = pio_disk (bt_dev s) /\
  same_on SCRATCH 4096 (scratch (bt_dev s)) m'.
Proof.
  intros Hs. destruct (readseg_ok SCRATCH 4096 0 s) as (m' & d' & E & Hs' & Hd' & Hin & _); try done.
  exists m', d'. by repeat split.
Qed.

(** Anything but an ELF file is left to bootasm.S. *)
Lemma bootmain_refuses s : settled (pio_at (bt_dev s)) -> load32 (scratch (bt_dev s)) SCRATCH <> ELF_MAGIC ->
  exists s', bootmain polls s = Ret None s'.
Proof.
  intros Hs Hm. destruct (first_page s Hs) as (m1 & d1 & E1 & _ & _ & Hsame). exists (Boot m1 d1).
  unfold bootmain. erewrite bind_Ret by exact E1. unfold get, bind at 1. cbn [bt_mem].
  rewrite (load32_ext (scratch (bt_dev s))); try (unfold SCRATCH; lia).
  - by destruct (Z.eqb_spec (load32 (scratch (bt_dev s)) SCRATCH) ELF_MAGIC).
  - intros x Hx. apply Hsame. lia.
Qed.

(** C21: on a drive that holds a kernel, [bootmain] ends with every segment of it
    in place, the bytes of the file first and zeros up to its size in memory,
    and returns the entry point of the header; reading whole sectors damages no
    segment, since they are loaded in increasing order. *)
Theorem bootmain_loads s gs : settled (pio_at (bt_dev s)) -> kernel_file (bt_dev s) gs -> exists m' d',
  bootmain polls s = Ret (Some (load32 (scratch (bt_dev s)) (SCRATCH + 24))) (Boot m' d') /\
  pio_disk d' = pio_disk (bt_dev s) /\ Forall (loaded (bt_dev s) m') gs.
Proof.
  intros Hs K. destruct K as [Hmag Hnum [Ho1 Ho2] Hhd Hlay]. destruct (first_page s Hs) as (m1 & d1 & E1 & Hs1 & Hd1 & Hsame).
  assert (L : forall a, SCRATCH <= a -> a + 4 <= SCRATCH + 4096 -> load32 m1 a = load32 (scratch (bt_dev s)) a).
  { intros a Ha Hb. unfold SCRATCH in *. apply load32_ext; try lia. intros x Hx. apply Hsame. lia. }
  assert (Hn1 : ld16 m1 (SCRATCH + 44) = Z.of_nat (length gs)).
  { rewrite <- Hnum. unfold ld16. rewrite !Hsame; [done| |]; vm_compute; done. }
  set (po := load32 (scratch (bt_dev s)) (SCRATCH + 28)) in *. unfold PH_SIZE in *.
  destruct (load_segs_ok gs (SCRATCH + 4096) (SCRATCH + po) (Boot m1 d1)) as (m2 & d2 & E2 & _ & Hd2 & Hlo & Hall);
    cbn [bt_mem bt_dev]; unfold PH_SIZE; try done; try (unfold SCRATCH; lia).
  { eapply headers_on; [| | |exact Hhd]; unfold PH_SIZE, SCRATCH in *; try lia. intros x Hx. apply Hsame. lia. }
  exists m2, d2. cbn [bt_dev bt_mem] in *. split; [|split; [congruence|]].
  - unfold bootmain. erewrite bind_Ret by exact E1. unfold get, bind at 1. cbn [bt_mem].
    rewrite (L SCRATCH), Hmag, Z.eqb_refl by (unfold SCRATCH; lia). cbn [negb].
    rewrite Hn1, Nat2Z.id, (L (SCRATCH + 28)) by (unfold SCRATCH; lia). fold po.
    rewrite u32_small by (unfold SCRATCH in *; lia). erewrite bind_Ret by exact E2. unfold bind, ret. cbn [bt_mem].
    rewrite (load32_ext m1), L; try done; try (unfold SCRATCH; lia).
    intros x Hx. apply Hlo. unfold SCRATCH in *. lia.
  - eapply Forall_impl; [exact Hall|]. intros g [Ha Hb]. split; intros x Hx; [|by apply Hb]. rewrite Ha by done. by apply file_byte_disk.
Qed.
End loader.

(** ** A polled drive

    It is at work for one poll after a command. *)
Record pdrive := PDrive { pd_disk : gmap Z block; pd_regs : gmap Z Z; pd_at : ata_phase; pd_wait : bool }.

Definition pd_sectors (d : pdrive) : gmap Z block := (fun x => take 512 (x ++ zero_block)) <$> pd_disk d.
Definition pd_outb (p v : Z) (d : pdrive) : pdrive :=
  if p =? 0x1f7 then PDrive (pd_disk d) (pd_regs d) (Busy (Rd (reg_drv (pd_regs d)) (reg_lba (pd_regs d)))) true
  else PDrive (pd_disk d) (<[p := v]> (pd_regs d)) (pd_at d) (pd_wait d).
Definition pd_inb (p : Z) (d : pdrive) : Z * pdrive :=
  if pd_wait d then (0x80, PDrive (pd_disk d) (pd_regs d) (pd_at d) false)
  else (0x40, PDrive (pd_disk d) (pd_regs d)
    (match pd_at d with Busy (Rd _ l) => Ready (default zero_block (pd_sectors d !! l)) | a => a end) false).
Definition pd_insl (d : pdrive) : block * pdrive :=
  match pd_at d with Ready x => (x, PDrive (pd_disk d) (pd_regs d) Idle (pd_wait d)) | _ => ([], d) end.
#[export] Instance pdrive_ata : Ata pdrive := {| ata_outb := pd_outb; ata_inb := pd_inb; ata_outsl := fun _ d => d; ata_insl := pd_insl |}.

#[export, refine] Instance pdrive_ok : PioOk pdrive 2 := {|
  pio_disk := pd_sectors; pio_regs := pd_regs; pio_at := pd_at; pio_busy := fun d => if pd_wait d then 1%nat else 0%nat
|}.
Proof.
  - intros p v d Hp. cbn. unfold pd_outb. destruct (Z.eqb_spec p 0x1f7) as [-> |]; [|done]. unfold boot_port in Hp. set_solver.
  - intros d _ (_ & _ & Hv). cbn [ata_outb pdrive_ata]. unfold pd_outb. change (0x1f7 =? 0x1f7) with true. cbn -[reg_drv reg_lba]. by rewrite Hv.
  - intros d r d'. cbn. unfold pd_inb. destruct (pd_wait d); intros [= <- <-]; cbn; repeat split; lia.
  - intros d. destruct (pd_wait d); lia.
  - intros d x E. cbn. unfold pd_insl. rewrite E. eauto.
  - intros d l x. unfold pd_sectors. rewrite lookup_fmap, fmap_Some. intros (y & _ & ->).
    rewrite length_take, length_app. change (length zero_block) with 512%nat. lia.
Defined.

(** A kernel with two segments; the first begins in the middle of a sector. *)
Definition kernel0 : pdrive :=
  let words := mjoin (M := list) (le_bytes 4 <$> [ELF_MAGIC; 0; 0; 0; 0; 1; 0x10000c; 52; 0; 0; 0; 2; 0;
    1; 0x210; 0; 0x100010; 4; 8; 7; 4; 1; 0x400; 0; 0x100020; 2; 2; 7; 4]) in
  PDrive (<[1 := words]> (<[2 := replicate 16 9 ++ [1; 2; 3; 4; 5]]> (<[3 := [6; 7]]> ∅))) ∅ Idle false.
Definition segs0 : list seg := [Seg 0x210 0x100010 4 8; Seg 0x400 0x100020 2 2].

Lemma kernel0_file : kernel_file 2 kernel0 segs0.
Proof. constructor; vm_compute; repeat split; solve [done|discriminate]. Qed.

Lemma bootmain_loads_witness : exists m' d',
  bootmain 2 (Boot (fun _ => 0xff) kernel0) = Ret (Some 0x10000c) (Boot m' d') /\ Forall (loaded 2 kernel0 m') segs0.
Proof.
  destruct (bootmain_loads 2 (Boot (fun _ => 0xff) kernel0) segs0) as (m' & d' & E & _ & H); [exact I|exact kernel0_file|].
  exists m', d'. split; [|exact H]. rewrite E. do 2 f_equal.
Defined.
