(* ===== verification/Proc.v ===== *)
(** * Processes (proc.c)

    The process table and its operations.  Each section that holds
    [ptable.lock] is a function on the list of processes; the operations
    compose them with the other parts of the kernel.  An operation that calls
    [sched] ends with the value [Asleep]: the process has left the CPU in the
    state it set.  Saved contexts are in [Switch.v], the interrupt flag and
    the checks of [sched] in [Sched.v]. *)

From S2P Require Import Prelude CString Bio Layout Blocks Fs Memory Kalloc Vm Pipe Kern File Sysarg Sysfile Exec.

(** A return value, or a switch to the scheduler. *)
Inductive result := Val (v : Z) | Asleep.

(** ** Sections under [ptable.lock] *)

(** The scan of [allocproc]. *)
Fixpoint unused_scan (l : list proc) (i : nat) : option nat :=
  match l with
  | [] => None
  | p :: l => if bool_decide (p_state p = UNUSED) then Some i else unused_scan l (S i)
  end.

(** Pass the children of [me] to [init], from entry [i] on for [n] entries. *)
Fixpoint reparent (n i : nat) (me init : option nat) (l : list proc) : list proc :=
  match n with
  | O => l
  | S n =>
      match l !! i with
      | Some p =>
          if bool_decide (p_parent p = me) then
            let l := alter (with_parent init) i l in
            reparent n (S i) me init
              (if bool_decide (p_state p = ZOMBIE) then wakeup1 (WProc <$> init) l else l)
          else reparent n (S i) me init l
      | None => l
      end
  end.

(** [exit] from [wakeup1(proc->parent)] to [sched()]. *)
Definition exit_table (me : nat) (parent init : option nat) (l : list proc) : list proc :=
  alter (with_state ZOMBIE) me (reparent (length l) 0 (Some me) init (wakeup1 (WProc <$> parent) l)).

(** The scan of [wait]: a zombie child, or whether there are children. *)
Fixpoint wait_scan (l : list proc) (i me : nat) (havekids : bool) : nat + bool :=
  match l with
  | [] => inr havekids
  | p :: l =>
      if bool_decide (p_parent p = Some me) then
        if bool_decide (p_state p = ZOMBIE) then inl i else wait_scan l (S i) me true
      else wait_scan l (S i) me havekids
  end.
(** What [wait] leaves of the child it found; its name becomes empty. *)
Definition reap (p : proc) : proc :=
  with_state UNUSED (with_killed false (with_name (<[0%nat := 0]> (p_name p)) (with_parent None (with_pid 0 (with_kstack 0 p))))).

(** The scan of [kill]. *)
Fixpoint pid_scan (l : list proc) (i : nat) (pid : Z) : option nat :=
  match l with
  | [] => None
  | p :: l => if p_pid p =? pid then Some i else pid_scan l (S i) pid
  end.
Definition kill_one (p : proc) : proc :=
  let p := with_killed true p in
  if bool_decide (p_state p = SLEEPING) then with_state RUNNABLE p else p.

(** The scheduler's inner loop: the next runnable process from entry [i] on. *)
Fixpoint next_runnable (l : list proc) (i : nat) : option nat :=
  match l with
  | [] => None
  | p :: l => if bool_decide (p_state p = RUNNABLE) then Some i else next_runnable l (S i)
  end.

Definition SEG_UCODE : Z := 4.
Definition SEG_UDATA : Z := 5.
Definition DPL_USER : Z := 3.
Definition FL_IF : Z := 0x200.

Section proc.
Context {S : Type} `{BlockLayer S} `{DevSw S}.
Context (kend kdata : Z).

Definition allocproc : M (kern S) (option nat) :=
  let! s := get in
  match unused_scan (k_procs s) 0 with
  | None => ret None
  | Some k =>
      modp k (fun p => with_pid (k_nextpid s) (with_state EMBRYO p)) ;;;
      modify (set_nextpid (i32 (k_nextpid s + 1))) ;;;
      let! ks := onkm kalloc in
      modp k (with_kstack ks) ;;;
      if ks =? 0 then modp k (with_state UNUSED) ;;; ret None
      else ret (Some k)
  end.

(** [initcode] is the program linked into the kernel. *)
Definition userinit (initcode : list Z) : M (kern S) unit :=
  let! k := allocproc in
  let! k := the "userinit: allocproc" k in
  modify (set_initproc (Some k)) ;;;
  let! pgdir := onkm (setupkvm kdata) in
  modp k (fun p => with_mm (p_sz p) pgdir p) ;;;
  if pgdir =? 0 then panic "userinit: out of memory?"
  else
    onkm (inituvm pgdir initcode) ;;;
    modp k (with_mm PGSIZE pgdir) ;;;
    let ds := Z.lor (Z.shiftl SEG_UDATA 3) DPL_USER in
    modp k (with_tf (Trapframe 0 PGSIZE 0 (Z.lor (Z.shiftl SEG_UCODE 3) DPL_USER) ds ds ds FL_IF [])) ;;;
    modp k (fun p => with_name (name_copy (p_name p) [105; 110; 105; 116; 99; 111; 100; 101]) p) ;;;
    let! ip := onfs (namei 0 [SLASH]) in
    modp k (with_cwd ip) ;;;
    modp k (with_state RUNNABLE).

Definition growproc (n : Z) : M (kern S) Z :=
  let! p := self in
  let sz := p_sz p in
  let! sz' := (if 0 <? n then onkm (allocuvm kend (p_pgdir p) sz (u32 (sz + n)))
               else if n <? 0 then onkm (deallocuvm kend (p_pgdir p) sz (u32 (sz + n)))
               else ret sz) in
  if negb (n =? 0) && (sz' =? 0) then ret (-1)
  else
    modself (fun p => with_mm sz' (p_pgdir p) p) ;;;
    let! p := self in
    switchuvm (Some p) ;;;
    ret 0.

(** [for(i = 0; i < NOFILE; i++) if(proc->ofile[i]) np->ofile[i] = filedup(proc->ofile[i]);] *)
Fixpoint dup_files (l : list (option nat)) (i np : nat) : M (kern S) unit :=
  match l with
  | [] => ret tt
  | None :: l => dup_files l (Datatypes.S i) np
  | Some f :: l =>
      let! f := filedup f in
      modp np (fun p => with_ofile (<[i := Some f]> (p_ofile p)) p) ;;;
      dup_files l (Datatypes.S i) np
  end.

Definition fork : M (kern S) Z :=
  let! np := allocproc in
  match np with
  | None => ret (-1)
  | Some np =>
      let! me := self in
      let! s := get in
      let! d := onkm (copyuvm kend kdata (p_pgdir me) (p_sz me)) in
      modp np (fun p => with_mm (p_sz p) d p) ;;;
      if d =? 0 then
        let! c := getp np in
        onkm (kfree kend (p_kstack c)) ;;;
        modp np (fun p => with_state UNUSED (with_kstack 0 p)) ;;;
        ret (-1)
      else
        modp np (fun p => with_tf (with_eax 0 (p_tf me)) (with_parent (Some (k_self s)) (with_mm (p_sz me) d p))) ;;;
        dup_files (p_ofile me) 0 np ;;;
        let! c := cwd_of in
        let! c := onfs (idup c) in
        modp np (with_cwd (Some c)) ;;;
        modp np (fun p => with_name (name_copy (p_name p) (p_name me)) p) ;;;
        let! c := getp np in
        modp np (with_state RUNNABLE) ;;;
        ret (p_pid c)
  end.

(** [for(fd = 0; fd < NOFILE; fd++) if(proc->ofile[fd]){ fileclose(...); proc->ofile[fd] = 0; }] *)
Fixpoint close_files (n fd : nat) : M (kern S) unit :=
  match n with
  | O => ret tt
  | Datatypes.S n =>
      let! p := self in
      match p_ofile p !! fd with
      | Some (Some f) => fileclose kend f ;;; fdclear fd ;;; close_files n (Datatypes.S fd)
      | _ => close_files n (Datatypes.S fd)
      end
  end.

Definition exit : M (kern S) result :=
  let! s := get in
  if bool_decide (Some (k_self s) = k_initproc s) then panic "init exiting"
  else
    close_files (Z.to_nat NOFILE) 0 ;;;
    onfs begin_op ;;;
    let! c := cwd_of in
    onfs (iput c) ;;;
    onfs end_op ;;;
    modself (with_cwd None) ;;;
    let! me := self in
    modify (fun s => set_procs (exit_table (k_self s) (p_parent me) (k_initproc s) (k_procs s)) s) ;;;
    ret Asleep.

(** [sleep]: the process leaves the CPU; when it runs again [sleep_end] tidies
    up. *)
Definition sleep (c : wchan) : M (kern S) result :=
  modself (fun p => with_state SLEEPING (with_chan (Some c) p)) ;;; ret Asleep.
Definition sleep_end : M (kern S) unit := modself (with_chan None).

(** One round of the loop of [wait]; after a sleep the round is repeated. *)
Definition wait : M (kern S) result :=
  let! s := get in
  match wait_scan (k_procs s) 0 (k_self s) false with
  | inl k =>
      let! c := getp k in
      onkm (kfree kend (p_kstack c)) ;;;
      onkm (freevm kend (p_pgdir c)) ;;;
      modp k reap ;;;
      ret (Val (p_pid c))
  | inr havekids =>
      let! me := self in
      if negb havekids || p_killed me then ret (Val (-1))
      else sleep (WProc (k_self s))
  end.

(** Run the next runnable process at or after entry [i]. *)
Definition scheduler (i : nat) : M (kern S) (option nat) :=
  let! s := get in
  match next_runnable (drop i (k_procs s)) i with
  | None => ret None
  | Some k =>
      modify (set_self k) ;;;
      switchuvm (k_procs s !! k) ;;;
      modp k (with_state RUNNING) ;;;
      ret (Some k)
  end.

Definition yield : M (kern S) result := modself (with_state RUNNABLE) ;;; ret Asleep.

Definition kill (pid : Z) : M (kern S) Z :=
  let! s := get in
  match pid_scan (k_procs s) 0 pid with
  | Some k => modp k kill_one ;;; ret 0
  | None => ret (-1)
  end.

(** ** Process system calls (sysproc.c) *)

Definition val {A} (g : A -> Z) (m : M (kern S) A) : M (kern S) result := let! x := m in ret (Val (g x)).

Definition sys_fork : M (kern S) Z := fork.
Definition sys_exit : M (kern S) result := exit.
Definition sys_wait : M (kern S) result := wait.
Definition sys_kill : M (kern S) Z :=
  let! pid := argint 0 in
  match pid with
  | None => ret (-1)
  | Some pid => kill pid
  end.
Definition sys_getpid : M (kern S) Z := let! p := self in ret (p_pid p).
Definition sys_sbrk : M (kern S) Z :=
  let! n := argint 0 in
  match n with
  | None => ret (-1)
  | Some n =>
      let! p := self in
      let addr := i32 (p_sz p) in
      let! r := growproc n in
      ret (if r <? 0 then -1 else addr)
  end.
(** One round of the loop of [sys_sleep], started at [ticks0]; the comparison
    [ticks - ticks0 < n] is unsigned. *)
Definition sleep_round (ticks0 n : Z) : M (kern S) result :=
  let! s := get in
  if u32 (k_ticks s - ticks0) <? u32 n then
    let! p := self in
    if p_killed p then ret (Val (-1)) else sleep WTicks
  else ret (Val 0).
Definition sys_sleep : M (kern S) result :=
  let! n := argint 0 in
  match n with
  | None => ret (Val (-1))
  | Some n => let! s := get in sleep_round (k_ticks s) n
  end.
Definition sys_uptime : M (kern S) Z := let! s := get in ret (i32 (k_ticks s)).

End proc.
