(* ===== verification/Syscall.v ===== *)
(** * System-call dispatch and traps (syscall.c, trap.c)

    [syscall] counts the call and runs the handler that [%eax] selects;
    [trap] is the common entry from user space and from interrupts.  Device
    interrupts (disk, keyboard, serial line) are parameters: their handlers
    run on the kernel state.  Acknowledging an interrupt is not modelled. *)

From S2P Require Import Prelude CString Bio Layout Blocks Fs Memory Kalloc Vm Pipe Kern File Sysarg Sysfile Exec Proc.

Definition T_SYSCALL : Z := 64.
Definition T_IRQ0 : Z := 32.
Definition IRQ_TIMER : Z := 0.
Definition IRQ_KBD : Z := 1.
Definition IRQ_COM1 : Z := 4.
Definition IRQ_IDE : Z := 14.
Definition IRQ_SPURIOUS : Z := 31.

Section syscall.
Context {S : Type} `{BlockLayer S} `{DevSw S}.
Context (kend kdata : Z).

(** [syscalls[]]: entry 0 is null. *)
Definition syscalls : list (option (M (kern S) result)) :=
  let v := val (fun z : Z => z) in
  [ None;
    Some (v (sys_fork kend kdata));
    Some (sys_exit kend);
    Some (sys_wait kend);
    Some (v (sys_pipe kend));
    Some (v sys_read);
    Some (v sys_kill);
    Some (v (sys_exec kend kdata));
    Some (v sys_fstat);
    Some (v sys_chdir);
    Some (v sys_dup);
    Some (v sys_getpid);
    Some (v (sys_sbrk kend));
    Some sys_sleep;
    Some (v sys_uptime);
    Some (v (sys_open kend));
    Some (v sys_write);
    Some (v sys_mknod);
    Some (v sys_unlink);
    Some (v sys_link);
    Some (v sys_mkdir);
    Some (v (sys_close kend));
    Some (v getcount);
    Some (v mkSmallFilesdir) ].

Definition set_eax (r : Z) : M (kern S) unit := modself (fun p => with_tf (with_eax (u32 r) (p_tf p)) p).

(** [Asleep]: the handler has left the CPU and [%eax] is set when it ends. *)
Definition syscall : M (kern S) result :=
  let! p := self in
  let num := i32 (tf_eax (p_tf p)) in
  updatecount num ;;;
  match (if (0 <=? num) && (num <? Z.of_nat (length syscalls)) then syscalls !! Z.to_nat num else None) with
  | Some (Some h) =>
      let! r := h in
      match r with
      | Val r => set_eax r ;;; ret (Val r)
      | Asleep => ret Asleep
      end
  | _ => set_eax (-1) ;;; ret (Val (-1))
  end.

(** The handlers of device interrupts. *)
Context (ideintr kbdintr uartintr : M (kern S) unit).

(** [if(proc && proc->killed && (tf->cs&3) == DPL_USER) exit();] for a
    process that is on the CPU. *)
Definition exit_if_killed (user : bool) : M (kern S) result :=
  let! p := self in
  if p_killed p && user then exit kend else ret (Val 0).

(** [trapno] and the privilege bits of [tf->cs]; [on_cpu0] is [cpunum() == 0],
    [running] whether a process is running on this CPU. *)
Definition trap_other (trapno cs : Z) (on_cpu0 running : bool) : M (kern S) result :=
  let user := Z.land cs 3 =? DPL_USER in
  (if trapno =? T_IRQ0 + IRQ_TIMER then
     when on_cpu0 (modify (fun s => set_ticks (u32 (k_ticks s + 1)) s) ;;; wakeup (Some WTicks))
   else if trapno =? T_IRQ0 + IRQ_IDE then ideintr
   else if trapno =? T_IRQ0 + IRQ_IDE + 1 then ret tt
   else if trapno =? T_IRQ0 + IRQ_KBD then kbdintr
   else if trapno =? T_IRQ0 + IRQ_COM1 then uartintr
   else if (trapno =? T_IRQ0 + 7) || (trapno =? T_IRQ0 + IRQ_SPURIOUS) then ret tt
   else if negb running || (Z.land cs 3 =? 0) then panic "trap"
   else modself (with_killed true)) ;;;
  if negb running then ret (Val 0)
  else
    let! r := exit_if_killed user in
    match r with
    | Asleep => ret Asleep
    | Val _ =>
        let! p := self in
        if bool_decide (p_state p = RUNNING) && (trapno =? T_IRQ0 + IRQ_TIMER) then yield
        else exit_if_killed user
    end.

Definition trap (trapno cs : Z) (on_cpu0 running : bool) : M (kern S) result :=
  if trapno =? T_SYSCALL then
    let! r := exit_if_killed true in
    match r with
    | Asleep => ret Asleep
    | Val _ =>
        let! r := syscall in
        match r with
        | Asleep => ret Asleep
        | Val _ => exit_if_killed true
        end
    end
  else trap_other trapno cs on_cpu0 running.

End syscall.
