(* ===== verification/Segments.v ===== *)
(** * Descriptor tables (vm.c, trap.c, x86.h)

    The segment tables that [seginit] and [switchuvm] write and the interrupt
    table of [tvinit], as bytes in memory, and the registers that point to
    them.  [struct cpu] (proc.h) is at the address [c] with its fields at the
    offsets the C layout gives them. *)

From S2P Require Import Prelude CString Memory X86 Kern Syscall.
Import Kstring.

(** ** The processor's instructions as C functions (x86.h) *)

(** The three halfwords of [pd]. *)
Definition pseudo (p size : Z) : Z * Z := (u16 p + 2 ^ 16 * u16 (Z.shiftr p 16), u16 (size - 1)).
Definition lgdt (p size : Z) (s : machine) : machine :=
  set_sys (System (pseudo p size) (idtr (sys s)) (tr (sys s)) (cr0 (sys s)) (cr3 (sys s)) (cr4 (sys s))) s.
Definition lidt (p size : Z) (s : machine) : machine :=
  set_sys (System (gdtr (sys s)) (pseudo p size) (tr (sys s)) (cr0 (sys s)) (cr3 (sys s)) (cr4 (sys s))) s.
Definition ltr (sel : Z) (s : machine) : machine :=
  set_sys (System (gdtr (sys s)) (idtr (sys s)) (u16 sel) (cr0 (sys s)) (cr3 (sys s)) (cr4 (sys s))) s.
Definition lcr3 (v : Z) (s : machine) : machine :=
  set_sys (System (gdtr (sys s)) (idtr (sys s)) (tr (sys s)) (cr0 (sys s)) (u32 v) (cr4 (sys s))) s.
Definition loadgs (v : Z) (s : machine) : machine := set_sg (set_seg GS (u16 v) (sg s)) s.

Definition store16 (m : mem) (a v : Z) : mem := store_bytes m a (le_bytes 2 v).
Definition wr_ram (f : mem -> mem) (s : machine) : machine := set_ram (f (ram s)) s.

(** [struct cpu] *)
Definition CPU_TS : Z := 8.
Definition CPU_GDT : Z := 112.
Definition CPU_STARTED : Z := 168.
Definition CPU_CPU : Z := 180.
Definition CPU_PROC : Z := 184.

(** [cpu] and [proc], which the compiler addresses as [%gs:0] and [%gs:4]. *)
Definition gs_addr (off : Z) (s : machine) : Z := s_base (segment_at s (gs (sg s))) + off.
Definition this_cpu (s : machine) : Z := load32 (ram s) (gs_addr 0 s).
Definition set_cpu (v : Z) (s : machine) : machine := set_ram (store32 (ram s) (gs_addr 0 s) v) s.
Definition set_proc (v : Z) (s : machine) : machine := set_ram (store32 (ram s) (gs_addr 4 s) v) s.

Definition put_seg (c i : Z) (d : segdesc) (s : machine) : machine :=
  set_ram (store64 (ram s) (c + CPU_GDT + 8 * i) (pack (segdesc_fields d))) s.

(** [c] is [&cpus[cpunum()]]. *)
Definition seginit (c : Z) (s : machine) : machine :=
  let s := put_seg c SEG_KCODE (SEG (Z.lor STA_X STA_R) 0 0xffffffff 0) s in
  let s := put_seg c SEG_KDATA (SEG STA_W 0 0xffffffff 0) s in
  let s := put_seg c SEG_UCODE (SEG (Z.lor STA_X STA_R) 0 0xffffffff DPL_USER) s in
  let s := put_seg c SEG_UDATA (SEG STA_W 0 0xffffffff DPL_USER) s in
  let s := put_seg c SEG_KCPU (SEG STA_W (c + CPU_CPU) 8 0) s in
  let s := lgdt (c + CPU_GDT) (8 * NSEGS) s in
  let s := loadgs (Z.shiftl SEG_KCPU 3) s in
  set_proc 0 (set_cpu c s).

(** [kpgdir] is the kernel's page table. *)
Definition switchkvm (kpgdir : Z) (s : machine) : machine := lcr3 (V2P kpgdir) s.

(** [switchuvm] after its checks, for a process with the kernel stack [kstack]
    and the page directory [pgdir]; [pushcli] and [popcli] are in [Locks.v]. *)
Definition switchuvm_tss (kstack pgdir : Z) (s : machine) : machine :=
  let c := this_cpu s in
  let s := put_seg c SEG_TSS (SEG16 STS_T32A (c + CPU_TS) (TS_SIZE - 1) 0) s in
  let s := put_seg c SEG_TSS (with_s 0 (SEG16 STS_T32A (c + CPU_TS) (TS_SIZE - 1) 0)) s in
  let s := wr_ram (fun m => store16 m (c + CPU_TS + TS_SS0) (Z.shiftl SEG_KDATA 3)) s in
  let s := wr_ram (fun m => store32 m (c + CPU_TS + TS_ESP0) (u32 (kstack + KSTACKSIZE))) s in
  let s := wr_ram (fun m => store16 m (c + CPU_TS + TS_IOMB) 0xFFFF) s in
  let s := ltr (Z.shiftl SEG_TSS 3) s in
  lcr3 (V2P pgdir) s.

(** ** The segments *)

Lemma pseudo_eq p size : 0 <= p < 2 ^ 32 -> 0 < size <= 2 ^ 16 -> pseudo p size = (p, size - 1).
Proof.
  intros Hp Hs. unfold pseudo. rewrite (u16_small (size - 1)) by lia. rewrite Z.shiftr_div_pow2 by lia.
  rewrite (u16_small (p / 2 ^ 16)) by (split; [apply Z.div_pos | apply Z.div_lt_upper_bound]; lia).
  change (u16 p) with (p mod 2 ^ 16). pose proof (Z.div_mod p (2 ^ 16) ltac:(lia)). f_equal. lia.
Qed.

Definition gdt_entry (c : Z) (m : mem) (i : Z) : segment := decode_seg (load64 m (c + CPU_GDT + 8 * i)).

(** The table of a processor whose [struct cpu] is at [c]. *)
Record segments (c : Z) (s : machine) : Prop := {
  sm_gdtr : gdtr (sys s) = (c + CPU_GDT, 55);
  sm_gs : gs (sg s) = 24;
  sm_kcode : gdt_entry c (ram s) SEG_KCODE = Segment 0 0xffffffff 0xA true 0 true;
  sm_kdata : gdt_entry c (ram s) SEG_KDATA = Segment 0 0xffffffff 0x2 true 0 true;
  sm_kcpu : gdt_entry c (ram s) SEG_KCPU = Segment (c + CPU_CPU) 4095 0x2 true 0 true;
  sm_ucode : gdt_entry c (ram s) SEG_UCODE = Segment 0 0xffffffff 0xA true 3 true;
  sm_udata : gdt_entry c (ram s) SEG_UDATA = Segment 0 0xffffffff 0x2 true 3 true;
  sm_cpu : this_cpu s = c
}.

Section gdt.
Context (c : Z) (Hc : 0 <= c /\ c + 188 <= 2 ^ 32).

Lemma put_seg_same m i d : 0 <= i < 7 -> gdt_entry c (store64 m (c + CPU_GDT + 8 * i) (pack (segdesc_fields d))) i = decode_seg (pack (segdesc_fields d)).
Proof using Hc.
  intros Hi. unfold gdt_entry, CPU_GDT in *. rewrite load64_store64 by lia. by rewrite Z.mod_small by apply (pack_range _ (segdesc_widths d)).
Qed.
Lemma put_seg_ne m i j d : 0 <= i < 7 -> 0 <= j < 7 -> i <> j -> gdt_entry c (store64 m (c + CPU_GDT + 8 * i) (pack (segdesc_fields d))) j = gdt_entry c m j.
Proof using Hc. intros. unfold gdt_entry, CPU_GDT in *. by rewrite load64_store64_ne by lia. Qed.

Lemma ram_put_seg i d s : ram (put_seg c i d s) = store64 (ram s) (c + CPU_GDT + 8 * i) (pack (segdesc_fields d)).
Proof using. done. Qed.
Lemma ram_loaded p n v s : ram (loadgs v (lgdt p n s)) = ram s.
Proof using. done. Qed.
Lemma put_seg_entry i d s : 0 <= i < 7 -> gdt_entry c (ram (put_seg c i d s)) i = decode_seg (pack (segdesc_fields d)).
Proof using Hc. intros. rewrite ram_put_seg. by apply put_seg_same. Qed.
Lemma put_seg_other i j d s : 0 <= i < 7 -> 0 <= j < 7 -> i <> j -> gdt_entry c (ram (put_seg c i d s)) j = gdt_entry c (ram s) j.
Proof using Hc. intros. rewrite ram_put_seg. by apply put_seg_ne. Qed.

Lemma segment_at_gdt s sel : (gdtr (sys s)).1 = c + CPU_GDT -> segment_at s sel = gdt_entry c (ram s) (sel / 8).
Proof using. intros E. unfold segment_at. by rewrite E. Qed.

Lemma gs_addr_gdt s off b l t a d p : (gdtr (sys s)).1 = c + CPU_GDT -> gs (sg s) = 24 -> gdt_entry c (ram s) SEG_KCPU = Segment b l t a d p ->
  gs_addr off s = b + off.
Proof using. intros E1 E2 E3. unfold gs_addr. rewrite (segment_at_gdt s), E2 by exact E1. change (24 / 8) with SEG_KCPU. by rewrite E3. Qed.
Lemma segments_gs s off : segments c s -> gs_addr off s = c + CPU_CPU + off.
Proof using. intros [S1 S2 _ _ S5 _ _ _]. eapply gs_addr_gdt; [by rewrite S1 | exact S2 | exact S5]. Qed.

(** Storing [cpu] and [proc] through [%gs] keeps the table. *)
Lemma store_cpu_local m i v w : 0 <= i < 7 -> gdt_entry c (store32 (store32 m (c + CPU_CPU) v) (c + CPU_PROC) w) i = gdt_entry c m i.
Proof using Hc. intros Hi. unfold gdt_entry, CPU_GDT, CPU_CPU, CPU_PROC in *. by rewrite !load64_store32_ne by lia. Qed.
Lemma set_cpu_proc s l t a d p : (gdtr (sys s)).1 = c + CPU_GDT -> gs (sg s) = 24 -> gdt_entry c (ram s) SEG_KCPU = Segment (c + CPU_CPU) l t a d p ->
  set_proc 0 (set_cpu c s) = set_ram (store32 (store32 (ram s) (c + CPU_CPU) c) (c + CPU_PROC) 0) s.
Proof using Hc.
  intros E1 E2 E3. unfold set_cpu. rewrite (gs_addr_gdt s 0 _ _ _ _ _ _ E1 E2 E3), Z.add_0_r. set (s1 := set_ram _ s).
  assert (gdt_entry c (ram s1) SEG_KCPU = Segment (c + CPU_CPU) l t a d p) as E.
  { unfold s1, gdt_entry, CPU_GDT, CPU_CPU, SEG_KCPU in *. cbn [ram set_ram]. by rewrite load64_store32_ne by lia. }
  unfold set_proc. rewrite (gs_addr_gdt s1 4 _ _ _ _ _ _ E1 E2 E). unfold s1, CPU_CPU, CPU_PROC. cbn [ram set_ram].
  unfold set_ram. cbn [rg sg eip eflags sys]. do 2 f_equal. lia.
Qed.

Lemma seginit_entries s :
  let s1 := put_seg c SEG_KCPU (SEG STA_W (c + CPU_CPU) 8 0) (put_seg c SEG_UDATA (SEG STA_W 0 0xffffffff DPL_USER)
    (put_seg c SEG_UCODE (SEG (Z.lor STA_X STA_R) 0 0xffffffff DPL_USER) (put_seg c SEG_KDATA (SEG STA_W 0 0xffffffff 0)
    (put_seg c SEG_KCODE (SEG (Z.lor STA_X STA_R) 0 0xffffffff 0) s)))) in
  gdt_entry c (ram s1) SEG_KCODE = Segment 0 0xffffffff 0xA true 0 true /\ gdt_entry c (ram s1) SEG_KDATA = Segment 0 0xffffffff 0x2 true 0 true /\
  gdt_entry c (ram s1) SEG_KCPU = Segment (c + CPU_CPU) 4095 0x2 true 0 true /\ gdt_entry c (ram s1) SEG_UCODE = Segment 0 0xffffffff 0xA true 3 true /\
  gdt_entry c (ram s1) SEG_UDATA = Segment 0 0xffffffff 0x2 true 3 true.
Proof using Hc.
  split_and!; repeat (rewrite put_seg_other by done); rewrite put_seg_entry by done; by rewrite decode_SEG by (unfold CPU_CPU; (done || lia)).
Qed.

(** Storing [cpu] and [proc] completes the table. *)
Lemma store_local s :
  gdtr (sys s) = (c + CPU_GDT, 55) -> gs (sg s) = 24 ->
  gdt_entry c (ram s) SEG_KCODE = Segment 0 0xffffffff 0xA true 0 true -> gdt_entry c (ram s) SEG_KDATA = Segment 0 0xffffffff 0x2 true 0 true ->
  gdt_entry c (ram s) SEG_KCPU = Segment (c + CPU_CPU) 4095 0x2 true 0 true -> gdt_entry c (ram s) SEG_UCODE = Segment 0 0xffffffff 0xA true 3 true ->
  gdt_entry c (ram s) SEG_UDATA = Segment 0 0xffffffff 0x2 true 3 true ->
  segments c (set_proc 0 (set_cpu c s)) /\ load32 (ram (set_proc 0 (set_cpu c s))) (c + CPU_PROC) = 0.
Proof using Hc.
  intros Eg Es E1 E2 E3 E4 E5. assert ((gdtr (sys s)).1 = c + CPU_GDT) as Eg1 by (by rewrite Eg). rewrite (set_cpu_proc s _ _ _ _ _ Eg1 Es E3).
  set (m := store32 _ _ _). assert (forall i, 0 <= i < 7 -> gdt_entry c m i = gdt_entry c (ram s) i) as HK by (intros i Hi; by apply store_cpu_local).
  assert (load32 m (c + CPU_PROC) = 0 /\ load32 m (c + CPU_CPU) = c) as [L1 L2].
  { unfold m, CPU_CPU, CPU_PROC. rewrite load32_store32 by lia. rewrite load32_store32_ne, load32_store32 by lia. split; [done | apply u32_small; lia]. }
  split; [|exact L1]. split; cbn [sys sg ram set_ram]; rewrite ?HK by done; try assumption.
  unfold this_cpu. rewrite (gs_addr_gdt (set_ram m s) 0 (c + CPU_CPU) 4095 2 true 0 true Eg1 Es); [by rewrite Z.add_0_r | cbn [ram set_ram]; by rewrite HK].
Qed.

Lemma loaded s : let s1 := loadgs (Z.shiftl SEG_KCPU 3) (lgdt (c + CPU_GDT) (8 * NSEGS) s) in gdtr (sys s1) = (c + CPU_GDT, 55) /\ gs (sg s1) = 24.
Proof using Hc. split; [apply pseudo_eq; unfold CPU_GDT, NSEGS; lia | done]. Qed.

Lemma seginit_segments s : segments c (seginit c s) /\ load32 (ram (seginit c s)) (c + CPU_PROC) = 0.
Proof using Hc.
  destruct (seginit_entries s) as (E1 & E2 & E3 & E4 & E5). destruct (loaded (put_seg c SEG_KCPU (SEG STA_W (c + CPU_CPU) 8 0) (put_seg c SEG_UDATA (SEG STA_W 0 0xffffffff DPL_USER)
    (put_seg c SEG_UCODE (SEG (Z.lor STA_X STA_R) 0 0xffffffff DPL_USER) (put_seg c SEG_KDATA (SEG STA_W 0 0xffffffff 0)
    (put_seg c SEG_KCODE (SEG (Z.lor STA_X STA_R) 0 0xffffffff 0) s)))))) as [Eg Es].
  refine (store_local _ Eg Es _ _ _ _ _); rewrite ram_loaded; assumption.
Qed.

(** It changes nothing outside of the [struct cpu]. *)
Lemma seginit_other s x : x < c + CPU_GDT \/ c + 188 <= x -> ram (seginit c s) x = ram s x.
Proof using Hc.
  intros Hx. destruct (seginit_entries s) as (_ & _ & E3 & _). destruct (loaded (put_seg c SEG_KCPU (SEG STA_W (c + CPU_CPU) 8 0) (put_seg c SEG_UDATA (SEG STA_W 0 0xffffffff DPL_USER)
    (put_seg c SEG_UCODE (SEG (Z.lor STA_X STA_R) 0 0xffffffff DPL_USER) (put_seg c SEG_KDATA (SEG STA_W 0 0xffffffff 0)
    (put_seg c SEG_KCODE (SEG (Z.lor STA_X STA_R) 0 0xffffffff 0) s)))))) as [Eg Es].
  unfold seginit. cbv zeta. erewrite set_cpu_proc; [|by rewrite Eg | exact Es | rewrite ram_loaded; exact E3]. cbn [ram set_ram]. rewrite ram_loaded. unfold CPU_CPU, CPU_PROC, CPU_GDT in *.
  rewrite !store32_other by lia. unfold put_seg. cbn [ram set_ram]. unfold CPU_GDT, SEG_KCODE, SEG_KDATA, SEG_UCODE, SEG_UDATA, SEG_KCPU. by rewrite !store64_other by lia.
Qed.

(** *** The task state *)

Lemma store16_other m a v x : 0 <= a -> a + 2 <= 2 ^ 32 -> x < a \/ a + 2 <= x -> store16 m a v x = m x.
Proof using. intros. unfold store16. apply store_bytes_other; rewrite ?length_le_bytes; lia. Qed.
Lemma load_store16 m a v : 0 <= a -> a + 4 <= 2 ^ 32 -> u16 (load32 (store16 m a v) a) = u16 v.
Proof using.
  intros H0 H1. rewrite load32_le by lia. rewrite (bytes_at_cons _ a 3), (bytes_at_cons _ (a + 1) 2). cbn [le_word].
  unfold store16. rewrite !store_bytes_in by (rewrite ?length_le_bytes; lia). rewrite length_le_bytes. zb; try lia. cbn [andb].
  replace (a - a) with 0 by lia. replace (a + 1 - a) with 1 by lia. set (r := le_word _).
  assert (nthZ (le_bytes 2 v) 0 + 256 * nthZ (le_bytes 2 v) 1 = v mod 2 ^ 16) as E.
  { rewrite <- (le_word_bytes 2 v : _ = v mod 2 ^ 16). rewrite !le_bytes_S. unfold nthZ. change (Z.to_nat 0) with 0%nat. change (Z.to_nat 1) with 1%nat. change (le_bytes 0 _) with (@nil Z). cbn. lia. }
  change (u16 ?x) with (x mod 2 ^ 16). replace (nthZ (le_bytes 2 v) 0 + 256 * (nthZ (le_bytes 2 v) 1 + 256 * r)) with (v mod 2 ^ 16 + r * 2 ^ 16) by lia.
  rewrite Z.mod_add by lia. apply Z.mod_mod. lia.
Qed.

(** The memory that [switchuvm] leaves. *)
Definition tss_ram (kstack : Z) (m : mem) : mem :=
  let d := SEG16 STS_T32A (c + CPU_TS) (TS_SIZE - 1) 0 in
  let m := store64 m (c + CPU_GDT + 8 * SEG_TSS) (pack (segdesc_fields d)) in
  let m := store64 m (c + CPU_GDT + 8 * SEG_TSS) (pack (segdesc_fields (with_s 0 d))) in
  let m := store16 m (c + CPU_TS + TS_SS0) (Z.shiftl SEG_KDATA 3) in
  let m := store32 m (c + CPU_TS + TS_ESP0) (u32 (kstack + KSTACKSIZE)) in
  store16 m (c + CPU_TS + TS_IOMB) 0xFFFF.
Lemma switchuvm_run kstack pgdir s : this_cpu s = c ->
  switchuvm_tss kstack pgdir s = set_ram (tss_ram kstack (ram s))
    (set_sys (System (gdtr (sys s)) (idtr (sys s)) 48 (cr0 (sys s)) (u32 (V2P pgdir)) (cr4 (sys s))) s).
Proof using. intros E. unfold switchuvm_tss. rewrite E. reflexivity. Qed.

Lemma tss_ram_other kstack m x : x < c + CPU_TS \/ c + CPU_TS + TS_SIZE <= x < c + CPU_GDT + 8 * SEG_TSS \/ c + CPU_GDT + 8 * NSEGS <= x ->
  tss_ram kstack m x = m x.
Proof using Hc.
  unfold CPU_TS, TS_SIZE, CPU_GDT, SEG_TSS, NSEGS. intros Hx. unfold tss_ram, CPU_TS, TS_SS0, TS_ESP0, TS_IOMB, CPU_GDT, SEG_TSS.
  rewrite store16_other, store32_other, store16_other, !store64_other by lia. done.
Qed.
Lemma tss_ram_entry kstack m : gdt_entry c (tss_ram kstack m) SEG_TSS = Segment (c + CPU_TS) 103 STS_T32A false 0 true.
Proof using Hc.
  unfold tss_ram. cbv zeta. set (d := SEG16 _ _ _ _). set (m1 := store64 _ _ (pack (segdesc_fields d))).
  transitivity (gdt_entry c (store64 m1 (c + CPU_GDT + 8 * SEG_TSS) (pack (segdesc_fields (with_s 0 d)))) SEG_TSS).
  - unfold gdt_entry. f_equal. apply load64_ext. unfold CPU_TS, TS_SS0, TS_ESP0, TS_IOMB, CPU_GDT, SEG_TSS. intros x Hx.
    by rewrite store16_other, store32_other, store16_other by lia.
  - rewrite put_seg_same by done. unfold d. by rewrite decode_TSS by (unfold CPU_TS, TS_SIZE; lia).
Qed.
Lemma tss_ram_stack kstack m : 0 <= kstack -> kstack + KSTACKSIZE < 2 ^ 32 ->
  load32 (tss_ram kstack m) (c + CPU_TS + TS_ESP0) = kstack + KSTACKSIZE /\ u16 (load32 (tss_ram kstack m) (c + CPU_TS + TS_SS0)) = 16 /\
  u16 (load32 (tss_ram kstack m) (c + CPU_TS + TS_IOMB)) = 0xFFFF.
Proof using Hc.
  intros H0 H1. unfold tss_ram. cbv zeta. set (m1 := store64 _ _ (pack (segdesc_fields (with_s 0 _)))). unfold CPU_TS, TS_SS0, TS_ESP0, TS_IOMB, KSTACKSIZE in *. split_and!.
  - rewrite (load32_ext (store32 (store16 m1 (c + 8 + 8) (Z.shiftl SEG_KDATA 3)) (c + 8 + 4) (u32 (kstack + 4096)))) by (lia || (intros x Hx; apply store16_other; lia)).
    rewrite load32_store32 by lia. rewrite !u32_small by (rewrite ?u32_small; lia). done.
  - rewrite (load32_ext (store16 m1 (c + 8 + 8) (Z.shiftl SEG_KDATA 3))); [by rewrite load_store16 by lia | lia | lia|].
    intros x Hx. by rewrite store16_other, store32_other by lia.
  - by rewrite load_store16 by lia.
Qed.

(** The table survives stores elsewhere. *)
Lemma segments_frame s s' : segments c s -> gdtr (sys s') = gdtr (sys s) -> gs (sg s') = gs (sg s) ->
  (forall x, c + CPU_GDT <= x < c + CPU_GDT + 8 * SEG_TSS \/ c + CPU_CPU <= x < c + CPU_CPU + 8 -> ram s' x = ram s x) -> segments c s'.
Proof using Hc.
  intros HS E1 E2 Hm. pose proof HS as [S1 S2 S3 S4 S5 S6 S7 S8]. unfold CPU_GDT, CPU_CPU, SEG_TSS in Hm.
  assert (forall i, 0 <= i < 6 -> gdt_entry c (ram s') i = gdt_entry c (ram s) i) as HE.
  { intros i Hi. unfold gdt_entry, CPU_GDT. f_equal. apply load64_ext. intros x Hx. apply Hm. lia. }
  assert (gs_addr 0 s' = c + CPU_CPU + 0) as Ea.
  { eapply gs_addr_gdt; [by rewrite E1, S1 | congruence | rewrite HE by done; exact S5]. }
  split; rewrite ?E1, ?E2, ?HE by done; try assumption. unfold this_cpu in *. rewrite Ea. rewrite (segments_gs s 0 HS) in S8.
  rewrite <- S8 at 2. apply load32_ext; [unfold CPU_CPU; lia | unfold CPU_CPU; lia|]. unfold CPU_CPU. intros x Hx. apply Hm. lia.
Qed.
End gdt.

Section idt.
(** The addresses of the table [idt] and of the entry points. *)
Context (idt : Z) (vectors : Z -> Z).

Definition setgate (i : Z) (g : gatedesc) (m : mem) : mem := store64 m (idt + 8 * i) (pack (gatedesc_fields g)).
Definition tvinit_loop (n : nat) (m : mem) : mem :=
  foldl (fun m i => setgate i (SETGATE false (Z.shiftl SEG_KCODE 3) (vectors i) 0) m) m (seqZ 0 (Z.of_nat n)).
Definition tvinit (s : machine) : machine :=
  let s := wr_ram (tvinit_loop 256) s in
  wr_ram (setgate T_SYSCALL (SETGATE true (Z.shiftl SEG_KCODE 3) (vectors T_SYSCALL) DPL_USER)) s.
Definition idtinit (s : machine) : machine := lidt idt (8 * 256) s.

(** [mpenter] and [mpmain] up to the scheduler; [lapicinit] is in
    [Devices.v] and the message is left out. *)
Definition mpenter (c kpgdir : Z) (s : machine) : machine :=
  let s := idtinit (seginit c (switchkvm kpgdir s)) in
  wr_ram (fun m => store32 m (this_cpu s + CPU_STARTED) 1) s.

(** ** What the processor finds *)

(** The gates: the entry points in the kernel's code segment, interrupts off
    except for system calls, which alone a user program may call. *)
Definition kernel_gate (n : Z) : gate :=
  if decide (n = T_SYSCALL) then Gate (vectors n) 8 STS_TG32 true 3 true else Gate (vectors n) 8 STS_IG32 true 0 true.

(** The tables as the processor needs them to enter the kernel on the stack
    that ends at [top]. *)
Record tables (s : machine) (top : Z) : Prop := {
  tb_gate : forall n, 0 <= n < 256 -> gate_at s n = kernel_gate n;
  tb_idtr : (idtr (sys s)).2 = 2047;
  tb_gdtr : (gdtr (sys s)).2 = 55;
  tb_code : segment_at s 8 = Segment 0 0xffffffff 0xA true 0 true;
  tb_stack : let ts := s_base (segment_at s (tr (sys s))) in
    load32 (ram s) (ts + TS_ESP0) = top /\ u16 (load32 (ram s) (ts + TS_SS0)) = 16
}.

Context (Hidt : 0 <= idt /\ idt + 2048 <= 2 ^ 32) (Hvec : forall n, 0 <= n < 256 -> 0 <= vectors n < 2 ^ 32).

Lemma tvinit_loop_at n m i : (n <= 256)%nat -> 0 <= i < Z.of_nat n ->
  load64 (tvinit_loop n m) (idt + 8 * i) = pack (gatedesc_fields (SETGATE false (Z.shiftl SEG_KCODE 3) (vectors i) 0)).
Proof using Hidt.
  intros Hn Hi. unfold tvinit_loop. induction n as [|n IH]; [lia|].
  rewrite seqZ_S, foldl_app, Z.add_0_l. cbn [foldl]. unfold setgate at 1. destruct (decide (i = Z.of_nat n)) as [->|Hne].
  - rewrite load64_store64 by lia. apply Z.mod_small. apply (pack_range _ (gatedesc_widths _)).
  - rewrite <- (IH ltac:(lia) ltac:(lia)). apply load64_ext. intros x Hx. apply store64_other; lia.
Qed.

Lemma tvinit_gate s n : 0 <= n < 256 -> decode_gate (load64 (ram (tvinit s)) (idt + 8 * n)) = kernel_gate n.
Proof using Hidt Hvec.
  intros Hn. unfold tvinit, wr_ram. cbn [sys set_ram ram]. unfold kernel_gate, setgate. pose proof (Hvec n Hn).
  assert (T_SYSCALL = 64) as HT by reflexivity. destruct (decide (n = T_SYSCALL)) as [->|Hne].
  - rewrite load64_store64 by lia. rewrite Z.mod_small by apply (pack_range _ (gatedesc_widths _)). by rewrite decode_SETGATE by (done || lia).
  - rewrite (load64_ext (tvinit_loop 256 (ram s))) by (intros x Hx; apply store64_other; lia).
    rewrite tvinit_loop_at by lia. by rewrite decode_SETGATE by (done || lia).
Qed.
Lemma tvinit_loop_other n m x : (n <= 256)%nat -> x < idt \/ idt + 2048 <= x -> tvinit_loop n m x = m x.
Proof using Hidt.
  intros Hn Hx. unfold tvinit_loop. induction n as [|n IH]; [done|]. rewrite seqZ_S, foldl_app, Z.add_0_l. cbn [foldl]. unfold setgate at 1.
  rewrite store64_other by lia. apply IH. lia.
Qed.
Lemma tvinit_other s x : x < idt \/ idt + 2048 <= x -> ram (tvinit s) x = ram s x.
Proof using Hidt.
  intros Hx. unfold tvinit, wr_ram, setgate. cbn [ram set_ram]. assert (T_SYSCALL = 64) as HT by reflexivity.
  rewrite store64_other by lia. by apply tvinit_loop_other.
Qed.

(** What the kernel does with the tables before the first process runs. *)
Definition load_tables (c kstack pgdir : Z) (s : machine) : machine := switchuvm_tss kstack pgdir (idtinit (tvinit (seginit c s))).

(** The tables are bytes. *)
Lemma tvinit_bytes s : bytes (ram s) -> bytes (ram (tvinit s)).
Proof using.
  intros Hs. apply store64_bytes. unfold tvinit_loop. generalize (seqZ 0 (Z.of_nat 256)) as l. intros l. cbn [ram wr_ram set_ram]. revert Hs. generalize (ram s) as m.
  induction l as [|i l IH]; intros m Hm; [done|]. cbn [foldl]. by apply IH, store64_bytes.
Qed.
Lemma put_seg_bytes c i d s : bytes (ram s) -> bytes (ram (put_seg c i d s)).
Proof using. intros Hs. by apply store64_bytes. Qed.
Lemma local_bytes v w s : bytes (ram s) -> bytes (ram (set_proc v (set_cpu w s))).
Proof using. intros Hs. by apply store32_bytes, store32_bytes. Qed.
Lemma seginit_bytes c s : bytes (ram s) -> bytes (ram (seginit c s)).
Proof using. intros Hs. refine (local_bytes 0 c _ _). rewrite ram_loaded. by repeat apply put_seg_bytes. Qed.
Lemma tss_bytes kstack pgdir s : bytes (ram s) -> bytes (ram (switchuvm_tss kstack pgdir s)).
Proof using.
  intros Hs. rewrite (switchuvm_run (this_cpu s)) by done. cbn [ram set_ram]. unfold tss_ram, store16. cbv zeta.
  apply store_bytes_bytes; [|apply le_bytes_is_byte]. apply store32_bytes. apply store_bytes_bytes; [|apply le_bytes_is_byte]. by apply store64_bytes, store64_bytes.
Qed.
Lemma idtinit_bytes s : bytes (ram s) -> bytes (ram (idtinit s)).
Proof using. done. Qed.
Lemma load_tables_bytes c kstack pgdir s : bytes (ram s) -> bytes (ram (load_tables c kstack pgdir s)).
Proof using. intros Hs. exact (tss_bytes kstack pgdir _ (idtinit_bytes _ (tvinit_bytes _ (seginit_bytes c s Hs)))). Qed.

Section load.
Context (c kstack pgdir : Z) (Hc : 0 <= c /\ c + 188 <= 2 ^ 32) (Hd : c + 188 <= idt \/ idt + 2048 <= c).
Context (Hk : 0 <= kstack /\ kstack + KSTACKSIZE < 2 ^ 32).

Lemma idt_loaded s : segments c s ->
  segments c (idtinit (tvinit s)) /\ idtr (sys (idtinit (tvinit s))) = (idt, 2047) /\
  forall n, 0 <= n < 256 -> decode_gate (load64 (ram (idtinit (tvinit s))) (idt + 8 * n)) = kernel_gate n.
Proof using Hc Hd Hidt Hvec.
  intros HS. assert (ram (idtinit (tvinit s)) = ram (tvinit s)) as Er by reflexivity. split_and!.
  - apply (segments_frame c Hc s); [exact HS | reflexivity | reflexivity |]. unfold CPU_GDT, CPU_CPU, SEG_TSS. intros x Hx. rewrite Er. apply tvinit_other. lia.
  - apply pseudo_eq; lia.
  - intros n Hn. rewrite Er. by apply tvinit_gate.
Qed.
Lemma tss_loaded s : segments c s -> idtr (sys s) = (idt, 2047) -> (forall n, 0 <= n < 256 -> decode_gate (load64 (ram s) (idt + 8 * n)) = kernel_gate n) ->
  let s' := switchuvm_tss kstack pgdir s in tables s' (kstack + KSTACKSIZE) /\ segments c s' /\ idtr (sys s') = (idt, 2047) /\ s_base (segment_at s' (tr (sys s'))) = c + CPU_TS.
Proof using Hc Hd Hk Hidt.
  intros HS Ei Hg. cbv zeta. rewrite (switchuvm_run c kstack pgdir s) by apply HS. set (s2 := set_ram _ _).
  assert (segments c s2) as HS2.
  { apply (segments_frame c Hc s); [exact HS | reflexivity | reflexivity |]. unfold CPU_GDT, CPU_CPU, SEG_TSS. intros x Hx. apply tss_ram_other; [exact Hc|].
    unfold CPU_TS, TS_SIZE, CPU_GDT, SEG_TSS, NSEGS. lia. }
  assert (gdtr (sys s2) = (c + CPU_GDT, 55) /\ idtr (sys s2) = (idt, 2047)) as [Eg Ei2] by (split; [apply HS2 | exact Ei]).
  assert (s_base (segment_at s2 (tr (sys s2))) = c + CPU_TS) as Et.
  { rewrite (segment_at_gdt c) by (by rewrite Eg). change (tr (sys s2) / 8) with SEG_TSS. unfold s2. cbn [ram set_ram]. by rewrite (tss_ram_entry c Hc). }
  split; [|by split_and!]. split.
  - intros n Hn. rewrite <- (Hg n Hn). unfold gate_at. rewrite Ei2. cbn [fst]. f_equal.
    apply load64_ext. intros x Hx. apply tss_ram_other; [exact Hc|]. unfold CPU_TS, TS_SIZE, CPU_GDT, SEG_TSS, NSEGS. lia.
  - by rewrite Ei2.
  - by rewrite Eg.
  - rewrite (segment_at_gdt c) by (by rewrite Eg). apply (sm_kcode _ _ HS2).
  - cbv zeta. rewrite Et. unfold s2. cbn [ram set_ram]. destruct (tss_ram_stack c Hc kstack (ram s) (proj1 Hk) (proj2 Hk)) as (E1 & E2 & _). by split.
Qed.
Lemma load_tables_ok s : let s' := load_tables c kstack pgdir s in tables s' (kstack + KSTACKSIZE) /\ segments c s' /\ idtr (sys s') = (idt, 2047) /\ s_base (segment_at s' (tr (sys s'))) = c + CPU_TS.
Proof using Hc Hd Hk Hidt Hvec.
  destruct (seginit_segments c Hc s) as [S0 _]. destruct (idt_loaded _ S0) as (S1 & E1 & H1). exact (tss_loaded _ S1 E1 H1).
Qed.

(** Another processor. *)
Definition mp_started (s : machine) : machine := wr_ram (fun m => store32 m (this_cpu s + CPU_STARTED) 1) s.
Lemma idtinit_same s : gdtr (sys (idtinit s)) = gdtr (sys s) /\ sg (idtinit s) = sg s /\ ram (idtinit s) = ram s /\ cr3 (sys (idtinit s)) = cr3 (sys s).
Proof. done. Qed.
Lemma mp_started_ok s : segments c s -> let s' := mp_started (idtinit s) in segments c s' /\ idtr (sys s') = (idt, 2047) /\
  load32 (ram s') (c + CPU_STARTED) = 1 /\ cr3 (sys s') = cr3 (sys s) /\ forall x, x < c + CPU_STARTED \/ c + CPU_STARTED + 4 <= x -> ram s' x = ram s x.
Proof using Hc Hd Hidt.
  intros HS. destruct (idtinit_same s) as (I1 & I2 & I3 & I4). assert (idtr (sys (idtinit s)) = (idt, 2047)) as Ei by (apply pseudo_eq; lia). set (s1 := idtinit s) in *. clearbody s1.
  assert (segments c s1) as HS1 by (apply (segments_frame c Hc s); [exact HS | exact I1 | by rewrite I2 | intros x _; by rewrite I3]).
  unfold mp_started, wr_ram. rewrite (sm_cpu _ _ HS1), I3. cbv zeta.
  assert (forall x, x < c + CPU_STARTED \/ c + CPU_STARTED + 4 <= x -> store32 (ram s) (c + CPU_STARTED) 1 x = ram s x) as Ho by (unfold CPU_STARTED; intros x Hx; apply store32_other; lia).
  split_and!; [| exact Ei | | exact I4 | exact Ho].
  - apply (segments_frame c Hc s1); [exact HS1 | reflexivity | reflexivity|]. unfold CPU_GDT, CPU_CPU, SEG_TSS, CPU_STARTED in *. intros x Hx. cbn [ram set_ram]. rewrite I3. apply Ho. lia.
  - cbn [ram set_ram]. unfold CPU_STARTED. by rewrite load32_store32 by lia.
Qed.
Lemma seginit_cr3 s : cr3 (sys (seginit c s)) = cr3 (sys s).
Proof. reflexivity. Qed.
Lemma mpenter_ok kpgdir s : (forall n, 0 <= n < 256 -> decode_gate (load64 (ram s) (idt + 8 * n)) = kernel_gate n) ->
  let s' := mpenter c kpgdir s in segments c s' /\ idtr (sys s') = (idt, 2047) /\ (forall n, 0 <= n < 256 -> gate_at s' n = kernel_gate n) /\
  load32 (ram s') (c + CPU_STARTED) = 1 /\ cr3 (sys s') = u32 (V2P kpgdir).
Proof using Hc Hd Hidt.
  intros Hg. assert (mpenter c kpgdir s = mp_started (idtinit (seginit c (switchkvm kpgdir s)))) as -> by reflexivity. cbv zeta.
  destruct (seginit_segments c Hc (switchkvm kpgdir s)) as [HS _]. destruct (mp_started_ok _ HS) as (M1 & M2 & M3 & M4 & M5). split_and!; [exact M1 | exact M2 | | exact M3 | by rewrite M4, seginit_cr3].
  intros n Hn. rewrite <- (Hg n Hn). unfold gate_at. rewrite M2. cbn [fst]. f_equal. apply load64_ext. unfold CPU_STARTED in *. intros x Hx. rewrite M5 by lia. apply (seginit_other c Hc (switchkvm kpgdir s)). unfold CPU_GDT. lia.
Qed.

(** C27: what the processor finds in the tables that the kernel builds.  On the
    boot processor after [seginit], [tvinit], [idtinit] and [switchuvm]: flat
    code and data segments for the kernel and for user programs, the segment of
    the per-processor variables, a task state with the kernel stack of the
    process and no access to I/O ports, and gates that lead to the entry points
    of vectors.S with interrupts off, except for system calls, the one gate
    open to user programs.  On another processor after [mpenter]: its own
    segments, the same gates, and the flag that [startothers] waits for. *)
Theorem kernel_tables s kpgdir :
  let b := load_tables c kstack pgdir s in
  tables b (kstack + KSTACKSIZE) /\ segments c b /\ u16 (load32 (ram b) (c + CPU_TS + TS_IOMB)) = 0xFFFF /\ cr3 (sys b) = u32 (V2P pgdir) /\
  forall s2, (forall n, 0 <= n < 256 -> decode_gate (load64 (ram s2) (idt + 8 * n)) = kernel_gate n) ->
    let a := mpenter c kpgdir s2 in segments c a /\ idtr (sys a) = (idt, 2047) /\ (forall n, 0 <= n < 256 -> gate_at a n = kernel_gate n) /\
    load32 (ram a) (c + CPU_STARTED) = 1 /\ cr3 (sys a) = u32 (V2P kpgdir).
Proof using Hc Hd Hk Hidt Hvec.
  intros b. destruct (load_tables_ok s) as (T & G & _ & _). split_and!; [exact T | exact G | | done | intros s2 H2; by apply mpenter_ok].
  destruct (seginit_segments c Hc s) as [S0 _]. destruct (idt_loaded _ S0) as (S1 & _ & _). unfold b, load_tables. clear b T G S0. revert S1. generalize (idtinit (tvinit (seginit c s))) as x. intros x S1.
  rewrite (switchuvm_run c kstack pgdir) by apply S1. exact (proj2 (proj2 (tss_ram_stack c Hc kstack (ram x) (proj1 Hk) (proj2 Hk)))).
Qed.
End load.
End idt.

(** The tables of the second processor, with the gates of the first. *)
Definition zero_machine : machine := Machine (Regs 0 0 0 0 0 0 0 0) (Segs 0 0 0 0 0 0) 0 0 (System (0, 0) (0, 0) 0 0 0 0) (fun _ => 0).
Lemma kernel_tables_witness : let a := mpenter 0x80114000 0x80112000 0x803ff000 (tvinit 0x80114000 (fun n => 0x80105000 + 16 * n) zero_machine) in
  load32 (ram a) (0x80112000 + CPU_STARTED) = 1 /\ idtr (sys a) = (0x80114000, 2047).
Proof.
  destruct (kernel_tables 0x80114000 (fun n => 0x80105000 + 16 * n) ltac:(lia) ltac:(intros; lia) 0x80112000 0x8dfff000 0x8dffe000 ltac:(lia) ltac:(lia) ltac:(unfold KSTACKSIZE; lia) zero_machine 0x803ff000) as (_ & _ & _ & _ & H).
  destruct (H (tvinit 0x80114000 (fun n => 0x80105000 + 16 * n) zero_machine)) as (_ & H1 & _ & H2 & _); [|split; [exact H2 | exact H1]].
  intros n Hn. apply (tvinit_gate 0x80114000 (fun n => 0x80105000 + 16 * n)); [lia | intros; lia | exact Hn].
Defined.
