(* ===== verification/TrapEntry.v ===== *)
(** * Into the kernel and back (vectors.S, trapasm.S)

    The processor delivers an interrupt, an exception or [int] through the
    tables of [Segments.v]; the entry point of the vector and [alltraps] build
    a [struct trapframe] (x86.h) on the kernel stack and call [trap]; [trapret]
    takes the frame back.  [trap] is any function that returns the way C
    functions do. *)

From S2P Require Import Prelude CString Memory X86 Kern Syscall Segments.
Import Kstring.

Section entry.
Context (alu : Z -> Z -> Z -> Z).
(** The labels [alltraps] and the return address of [call trap]. *)
Context (alltraps_label after_trap : Z).

(** ** The code *)

(** The exceptions for which the processor pushes an error code. *)
Definition has_err (n : Z) : bool := (n =? 8) || ((10 <=? n) && (n <=? 14)) || (n =? 17).
Definition vector (n : Z) : list instr :=
  (if has_err n then [] else [PushI 0]) ++ [PushI n; Jmp alltraps_label].

Definition build_frame : list instr := [PushSeg DS; PushSeg ES; PushSeg FS; PushSeg GS; Pushal].
Definition load_segs : list instr :=
  [MovAX (Z.shiftl SEG_KDATA 3); MovSeg DS; MovSeg ES; MovAX (Z.shiftl SEG_KCPU 3); MovSeg FS; MovSeg GS].
Definition trapret : list instr := [Popal; PopSeg GS; PopSeg FS; PopSeg ES; PopSeg DS; AddI 8 ESP; Iret].
Definition alltraps (trap : machine -> machine) : list instr :=
  build_frame ++ load_segs ++ [Pushl ESP; Call trap after_trap; AddI 4 ESP] ++ trapret.

(** ** The trap frame *)

(** [struct trapframe] without the words that are there only when the
    privilege changed. *)
Record frame := Frame {
  f_edi : Z; f_esi : Z; f_ebp : Z; f_oesp : Z; f_ebx : Z; f_edx : Z; f_ecx : Z; f_eax : Z;
  f_gs : Z; f_fs : Z; f_es : Z; f_ds : Z; f_trapno : Z; f_err : Z; f_eip : Z; f_cs : Z; f_eflags : Z
}.
Definition frame_words (f : frame) : list Z :=
  [f_edi f; f_esi f; f_ebp f; f_oesp f; f_ebx f; f_edx f; f_ecx f; f_eax f;
   f_gs f; f_fs f; f_es f; f_ds f; f_trapno f; f_err f; f_eip f; f_cs f; f_eflags f].
(** The frame of the interrupted code [u]. *)
Definition frame_of (u : machine) (n err oesp : Z) : frame :=
  Frame (edi (rg u)) (esi (rg u)) (ebp (rg u)) oesp (ebx (rg u)) (edx (rg u)) (ecx (rg u)) (eax (rg u))
    (gs (sg u)) (fs (sg u)) (es (sg u)) (ds (sg u)) n err (eip u) (cs (sg u)) (eflags u).

(** The stack that the kernel runs on, and the words that the processor
    pushes on it when it comes from user mode. *)
Definition user (u : machine) : bool := cpl u =? 3.
Definition stack_top (u : machine) (top : Z) : Z := if user u then top else esp (rg u).
Definition outer (u : machine) : list Z := if user u then [esp (rg u); ss (sg u)] else [].

Context (vectors : Z -> Z).

(** *** Delivery *)

Definition err_list (err : option Z) : list Z := match err with Some e => [u32 e] | None => [] end.

Lemma pushes_snoc l v s : push v (pushes l s) = pushes (l ++ [v]) s.
Proof. unfold pushes. by rewrite foldl_app. Qed.
Lemma pushes_app l l' s : pushes l' (pushes l s) = pushes (l ++ l') s.
Proof. unfold pushes. by rewrite foldl_app. Qed.

Lemma u32_fmap l : Forall (fun v => 0 <= v < 2 ^ 32) l -> u32 <$> l = l.
Proof. induction 1 as [|v l Hv _ IH]; [done|]. cbn. by rewrite u32_small, IH. Qed.

(** The pushed words, last first, from the interrupted state. *)
Definition hw_pushes (u : machine) : list Z := (if user u then [ss (sg u); esp (rg u)] else []) ++ [eflags u; cs (sg u); eip u].
Definition entry_state (u : machine) (top : Z) : machine :=
  if user u then set_sg (set_seg SS 16 (sg u)) (set_rg (set_reg ESP top (rg u)) u) else u.

Lemma deliver_run u n err top : tables vectors u top -> cpl u = 0 \/ cpl u = 3 -> 0 <= n < 256 ->
  let s := pushes (hw_pushes u ++ (match err with Some e => [e] | None => [] end)) (entry_state u top) in
  deliver n err u = Some (set_eip (vectors n) (set_sg (set_seg CS 8 (sg s))
    (set_eflags (new_flags (if decide (n = T_SYSCALL) then STS_TG32 else STS_IG32) (eflags u)) s))).
Proof.
  intros [T1 T2 T3 T4 T5] Hp Hn s. unfold deliver. rewrite (T1 n Hn), T2, T3.
  assert (g_sel (kernel_gate vectors n) = 8 /\ g_off (kernel_gate vectors n) = vectors n /\ g_present (kernel_gate vectors n) = true /\ g_sys (kernel_gate vectors n) = true /\
    g_type (kernel_gate vectors n) = (if decide (n = T_SYSCALL) then STS_TG32 else STS_IG32)) as (-> & -> & -> & -> & ->) by (unfold kernel_gate; by case_decide).
  rewrite T4. cbn [s_present s_app s_type s_dpl]. destruct (Z.ltb_spec 2047 (8 * n + 7)); [lia|].
  destruct (Z.ltb_spec (cpl u) 0); [lia|]. change (55 <? 8 * (8 / 8) + 7) with false. change (Z.testbit 10 3) with true.
  assert (negb (((if decide (n = T_SYSCALL) then STS_TG32 else STS_IG32) =? STS_IG32) || ((if decide (n = T_SYSCALL) then STS_TG32 else STS_IG32) =? STS_TG32)) = false) as -> by (by case_decide).
  cbn [orb negb]. f_equal. change (8 - rpl 8 + 0) with 8.
  assert (match err with Some e => push e (push (eip u) (push (cs (sg u)) (push (eflags u) (if 0 <? cpl u then enter_stack u else u)))) |
    None => push (eip u) (push (cs (sg u)) (push (eflags u) (if 0 <? cpl u then enter_stack u else u))) end = s) as E; [|by rewrite E].
  unfold s, hw_pushes, entry_state, user. destruct T5 as [T5 T6]. destruct Hp as [->| ->]; cbn [Z.ltb Z.compare Z.eqb Pos.eqb]; [by destruct err|].
  unfold enter_stack. rewrite T5, T6. by destruct err.
Qed.

(** *** The code up to the call *)

Lemma sg_pushes l s : sg (pushes l s) = sg s.
Proof. revert s. induction l as [|v l IH]; intros s; [done|]. exact (IH (push v s)). Qed.
Lemma rg_pushes l s : exists o, rg (pushes l s) = set_reg ESP o (rg s).
Proof.
  revert s. induction l as [|v l IH]; intros s; [exists (esp (rg s)); by destruct s as [[] ? ? ? ? ?]|]. destruct (IH (push v s)) as [o E]. by exists o.
Qed.
Lemma eip_pushes l a s : set_eip a (pushes l s) = pushes l (set_eip a s).
Proof. revert s. induction l as [|v l IH]; intros s; [done|]. exact (IH (push v s)). Qed.

Lemma exec_push_seg g l s : exec alu (PushSeg g) (pushes l s) = pushes (l ++ [get_seg g (sg s)]) s.
Proof. cbn [exec]. by rewrite sg_pushes, pushes_snoc. Qed.
Lemma exec_pushal l s : exists o, exec alu Pushal (pushes l s) =
  pushes (l ++ [eax (rg s); ecx (rg s); edx (rg s); ebx (rg s); o; ebp (rg s); esi (rg s); edi (rg s)]) s.
Proof.
  destruct (rg_pushes l s) as [o E]. exists o. cbn [exec]. cbv zeta. by rewrite E, !pushes_snoc, <- !app_assoc.
Qed.

Lemma run_vector n s : run alu (vector n) s = pushes ((if has_err n then [] else [0]) ++ [n]) (set_eip alltraps_label s).
Proof. unfold vector. by destruct (has_err n). Qed.
Lemma run_build s : exists o, run alu build_frame s =
  pushes [ds (sg s); es (sg s); fs (sg s); gs (sg s); eax (rg s); ecx (rg s); edx (rg s); ebx (rg s); o; ebp (rg s); esi (rg s); edi (rg s)] s.
Proof.
  unfold build_frame, run. cbn [foldl]. change s with (pushes [] s) at 1. rewrite !exec_push_seg. cbn [app get_seg].
  destruct (exec_pushal [ds (sg s); es (sg s); fs (sg s); gs (sg s)] s) as [o ->]. by exists o.
Qed.

(** The state in which [trap] is called. *)
Record at_trap (u : machine) (n err top : Z) (oesp : Z) (s : machine) : Prop := {
  at_esp : esp (rg s) = stack_top u top - 4 * Z.of_nat (17 + length (outer u));
  at_frame : words (ram s) (esp (rg s)) (frame_words (frame_of u n err oesp) ++ outer u);
  at_segs : sg s = Segs 8 16 16 24 24 (if user u then 16 else ss (sg u));
  at_sys : sys s = sys u;
  at_flags : eflags s = new_flags (if decide (n = T_SYSCALL) then STS_TG32 else STS_IG32) (eflags u);
  at_ram : same_outside (esp (rg s)) (stack_top u top) (ram u) (ram s)
}.

Lemma run_load_segs s : sg (run alu load_segs s) = Segs (cs (sg s)) 16 16 24 24 (ss (sg s)) /\ esp (rg (run alu load_segs s)) = esp (rg s) /\
  ram (run alu load_segs s) = ram s /\ sys (run alu load_segs s) = sys s /\ eflags (run alu load_segs s) = eflags s.
Proof.
  assert (forall x v, 0 <= v < 2 ^ 16 -> u16 (x - x mod 2 ^ 16 + u16 v) = v) as E.
  { intros x v Hv. rewrite (u16_small v) by done. change (u16 ?y) with (y mod 2 ^ 16). pose proof (Z.div_mod x (2 ^ 16) ltac:(lia)).
    replace (x - x mod 2 ^ 16 + v) with (v + x / 2 ^ 16 * 2 ^ 16) by lia. rewrite Z.mod_add by lia. by apply Z.mod_small. }
  split_and!; try reflexivity. unfold load_segs, run. cbn [foldl exec set_sg set_rg sg rg set_seg set_reg cs ds es fs gs ss eax]. by rewrite !E.
Qed.

Lemma pushes_dress a g f l s : pushes l (set_eip a (set_sg g (set_eflags f s))) = set_eip a (set_sg g (set_eflags f (pushes l s))).
Proof. revert s. induction l as [|v l IH]; intros s; [done|]. exact (IH (push v s)). Qed.

(** An error code comes exactly with the vectors that have one. *)
Definition err_ok (n : Z) (err : option Z) : Prop :=
  match err with Some e => has_err n = true /\ 0 <= e < 2 ^ 32 | None => has_err n = false end.

(** All that is on the stack when [trap] is called, last first. *)
Definition stacked (u : machine) (n : Z) (err : option Z) (o : Z) : list Z :=
  hw_pushes u ++ [default 0 err; n; ds (sg u); es (sg u); fs (sg u); gs (sg u);
    eax (rg u); ecx (rg u); edx (rg u); ebx (rg u); o; ebp (rg u); esi (rg u); edi (rg u)].
Lemma stacked_words u n err o : wf u -> 0 <= n < 256 -> err_ok n err ->
  rev (u32 <$> stacked u n err o) = frame_words (frame_of u n (default 0 err) (u32 o)) ++ outer u.
Proof.
  intros [W1 W2 W3 W4 _] Hn He. assert (forall r, u32 (get_reg r (rg u)) = get_reg r (rg u)) as E1 by (intros r; apply u32_small, W1).
  assert (forall g, u32 (get_seg g (sg u)) = get_seg g (sg u)) as E2 by (intros g; pose proof (W2 g); apply u32_small; lia).
  assert (u32 (default 0 err) = default 0 err) as E3 by (destruct err; [apply u32_small, He | done]).
  unfold stacked, hw_pushes, outer. destruct (user u); cbn [fmap list_fmap rev app];
    rewrite E3, (u32_small n), (u32_small (eip u)), (u32_small (eflags u)) by (done || lia);
    rewrite (E1 EAX : u32 (eax (rg u)) = _), (E1 ECX : u32 (ecx (rg u)) = _), (E1 EDX : u32 (edx (rg u)) = _), (E1 EBX : u32 (ebx (rg u)) = _),
    (E1 EBP : u32 (ebp (rg u)) = _), (E1 ESI : u32 (esi (rg u)) = _), (E1 EDI : u32 (edi (rg u)) = _), (E2 DS : u32 (ds (sg u)) = _),
    (E2 ES : u32 (es (sg u)) = _), (E2 FS : u32 (fs (sg u)) = _), (E2 GS : u32 (gs (sg u)) = _), (E2 CS : u32 (cs (sg u)) = _); [|done].
  by rewrite (E1 ESP : u32 (esp (rg u)) = _), (E2 SS : u32 (ss (sg u)) = _).
Qed.

Lemma stacked_split u n err o : err_ok n err ->
  (hw_pushes u ++ match err with Some e => [e] | None => [] end) ++ ((if has_err n then [] else [0]) ++ [n]) ++
    [ds (sg u); es (sg u); fs (sg u); gs (sg u); eax (rg u); ecx (rg u); edx (rg u); ebx (rg u); o; ebp (rg u); esi (rg u); edi (rg u)] = stacked u n err o.
Proof. unfold stacked. intros He. rewrite <- app_assoc. f_equal. destruct err as [e|]; cbn in He |- *; [by destruct He as [-> _] | by rewrite He]. Qed.

Lemma entry_regs u top : exists x, rg (entry_state u top) = set_reg ESP x (rg u) /\ x = stack_top u top /\
  sg (entry_state u top) = set_seg SS (if user u then 16 else ss (sg u)) (sg u) /\ ram (entry_state u top) = ram u /\ sys (entry_state u top) = sys u.
Proof. unfold entry_state, stack_top. exists (if user u then top else esp (rg u)). destruct (user u); [done|]. by destruct u as [[] [] ? ? ? ?]. Qed.

(** The state before the segments are loaded: everything is on the stack. *)
Lemma enter_frame u n err top : tables vectors u top -> cpl u = 0 \/ cpl u = 3 -> 0 <= n < 256 -> err_ok n err ->
  exists s1 o, deliver n err u = Some s1 /\ eip s1 = vectors n /\ cs (sg s1) = 8 /\
    run alu (vector n ++ build_frame) s1 = set_eip alltraps_label (set_sg (set_seg CS 8 (sg (entry_state u top)))
      (set_eflags (new_flags (if decide (n = T_SYSCALL) then STS_TG32 else STS_IG32) (eflags u)) (pushes (stacked u n err o) (entry_state u top)))).
Proof.
  intros HT Hp Hn He. pose proof (deliver_run u n err top HT Hp Hn) as E. cbv zeta in E. rewrite sg_pushes in E. set (F := new_flags _ _) in *. set (E0 := entry_state u top) in *.
  set (G := set_seg CS 8 (sg E0)) in *. set (L := hw_pushes u ++ _) in *. rewrite <- pushes_dress in E. set (D := set_eip (vectors n) _) in *.
  assert (run alu (vector n) (pushes L D) = pushes (L ++ (if has_err n then [] else [0]) ++ [n]) (set_eip alltraps_label D)) as E1.
  { rewrite run_vector, eip_pushes, pushes_app. done. }
  destruct (run_build (pushes (L ++ (if has_err n then [] else [0]) ++ [n]) (set_eip alltraps_label D))) as [o E2].
  exists (pushes L D), o. split; [exact E|]. split; [unfold D; by rewrite pushes_dress|]. split; [unfold D; rewrite pushes_dress; reflexivity|]. rewrite run_app, E1, E2, pushes_app, sg_pushes.
  destruct (rg_pushes (L ++ (if has_err n then [] else [0]) ++ [n]) (set_eip alltraps_label D)) as [o' ->].
  destruct (entry_regs u top) as (x & R1 & _ & R2 & _). fold E0 in R1, R2.
  change (rg (set_eip alltraps_label D)) with (rg E0). change (sg (set_eip alltraps_label D)) with G. unfold G. rewrite R1, R2.
  cbn [set_reg eax ecx edx ebx ebp esi edi set_seg ds es fs gs]. rewrite <- app_assoc. unfold L. rewrite (stacked_split u n err o He).
  change (set_eip alltraps_label D) with (set_eip alltraps_label (set_sg G (set_eflags F E0))). rewrite pushes_dress. unfold G. by rewrite R2.
Qed.

Lemma enter_trap u n err top : tables vectors u top -> wf u -> cpl u = 0 \/ cpl u = 3 -> 0 <= n < 256 -> err_ok n err -> 84 <= stack_top u top < 2 ^ 32 ->
  exists s1 o, deliver n err u = Some s1 /\ eip s1 = vectors n /\ cs (sg s1) = 8 /\
    at_trap u n (default 0 err) top o (run alu (vector n ++ build_frame ++ load_segs) s1).
Proof.
  intros HT HW Hp Hn He Hs. destruct (enter_frame u n err top HT Hp Hn He) as (s1 & o & E & Ei & Ec & Er). exists s1, (u32 o). split; [exact E|]. split; [exact Ei|]. split; [exact Ec|].
  rewrite app_assoc, run_app, Er. set (F := new_flags _ _). set (G := set_seg CS 8 _).
  destruct (entry_regs u top) as (x & R1 & -> & R2 & R3 & R4).
  assert (length (stacked u n err o) = (17 + length (outer u))%nat) as Hlen by (unfold stacked, hw_pushes, outer; by destruct (user u)).
  assert (length (outer u) <= 2)%nat as Ho by (unfold outer; destruct (user u); cbn; lia).
  assert (esp (rg (entry_state u top)) = stack_top u top) as Ee by (by rewrite R1).
  destruct (pushes_run (stacked u n err o) (entry_state u top)) as (m & -> & Hm & Hout); [rewrite Ee, Hlen; lia|]. rewrite Ee, Hlen, ?R3 in *.
  rewrite (stacked_words u n err o HW Hn He) in Hm. destruct (run_load_segs (set_eip alltraps_label (set_sg G (set_eflags F (set_ram m
    (set_rg (set_reg ESP (stack_top u top - 4 * Z.of_nat (17 + length (outer u))) (rg (entry_state u top))) (entry_state u top))))))) as (L1 & L2 & L3 & L4 & L5).
  split; rewrite ?L1, ?L2, ?L3, ?L4, ?L5; cbn [sg rg ram sys eflags set_eip set_sg set_eflags set_ram set_rg set_reg esp]; try done.
  unfold G. rewrite R2. reflexivity.
Qed.

(** ** The way back *)

(** The code that the frame [f] resumes, with [rest] above the frame, when
    [trapret] runs in [s]. *)
Definition resume (f : frame) (rest : list Z) (s : machine) : machine :=
  let out := 0 <? rpl (u16 (f_cs f)) in
  Machine (Regs (f_eax f) (f_ecx f) (f_edx f) (f_ebx f) (if out then nth 0 rest 0 else esp (rg s) + 68) (f_ebp f) (f_esi f) (f_edi f))
    (Segs (u16 (f_cs f)) (u16 (f_ds f)) (u16 (f_es f)) (u16 (f_fs f)) (u16 (f_gs f)) (if out then u16 (nth 1 rest 0) else ss (sg s)))
    (f_eip f) (f_eflags f) (sys s) (ram s).

Lemma exec_pop_seg g x G e fl y m sp v : esp x = sp -> 0 <= sp -> sp + 4 < 2 ^ 32 -> load32 m sp = v ->
  exec alu (PopSeg g) (Machine x G e fl y m) = Machine (set_reg ESP (sp + 4) x) (set_seg g (u16 v) G) e fl y m.
Proof. intros <- H0 H1 <-. cbn [exec]. unfold drop4, top. cbn [rg ram sg]. by rewrite u32_small by lia. Qed.
Lemma exec_add x G e fl y m v : exists fl', exec alu (AddI v ESP) (Machine x G e fl y m) = Machine (set_reg ESP (u32 (esp x + v)) x) G e fl' y m.
Proof. by eexists. Qed.

Lemma words_Z m a l z v : words m a l -> l !! Z.to_nat z = Some v -> 0 <= z -> load32 m (a + 4 * z) = v.
Proof. intros Hw Hz H0. rewrite <- (Hw _ _ Hz). by rewrite Z2Nat.id. Qed.
Lemma exec_popal x G e fl y m f rest : words m (esp x) (frame_words f ++ rest) -> 0 <= esp x -> esp x + 68 < 2 ^ 32 ->
  exec alu Popal (Machine x G e fl y m) = Machine (Regs (f_eax f) (f_ecx f) (f_edx f) (f_ebx f) (esp x + 32) (f_ebp f) (f_esi f) (f_edi f)) G e fl y m.
Proof.
  intros Hw H0 H1. cbn [exec]. unfold popal. cbn [ram rg set_rg sg eip eflags sys]. set (a := esp x) in *. rewrite !u32_small by lia.
  by rewrite (words_Z _ _ _ 0 _ Hw eq_refl), (words_Z _ _ _ 1 _ Hw eq_refl), (words_Z _ _ _ 2 _ Hw eq_refl), (words_Z _ _ _ 4 _ Hw eq_refl),
    (words_Z _ _ _ 5 _ Hw eq_refl), (words_Z _ _ _ 6 _ Hw eq_refl), (words_Z _ _ _ 7 _ Hw eq_refl).
Qed.

Lemma exec_iret x G e fl y m (w : Z -> Z) : (forall k, 0 <= k < 5 -> load32 m (u32 (esp x + 4 * k)) = w k) -> 0 <= esp x -> esp x + 12 < 2 ^ 32 -> rpl (cs G) = 0 ->
  exec alu Iret (Machine x G e fl y m) =
    let out := 0 <? rpl (u16 (w 1)) in
    Machine (set_reg ESP (if out then w 3 else esp x + 12) x) (Segs (u16 (w 1)) (ds G) (es G) (fs G) (gs G) (if out then u16 (w 4) else ss G)) (w 0) (w 2) y m.
Proof.
  intros Hw H0 H1 Hc. cbn [exec]. unfold iret, cpl. cbn [ram rg sg]. rewrite !Hw, Hc by lia. rewrite (u32_small (esp x + 12)) by lia.
  by destruct (0 <? rpl (u16 (w 1))).
Qed.

Lemma trapret_run f rest s : words (ram s) (esp (rg s)) (frame_words f ++ rest) -> 0 <= esp (rg s) -> esp (rg s) + 4 * Z.of_nat (17 + length rest) <= 2 ^ 32 ->
  esp (rg s) + 68 < 2 ^ 32 -> cpl s = 0 -> rpl (u16 (f_cs f)) = 0 \/ (2 <= length rest)%nat -> run alu trapret s = resume f rest s.
Proof.
  intros Hw H0 H1 H2 Hc Hr. destruct s as [x G e fl y m]. unfold cpl in Hc. cbn [rg ram sg] in *. unfold trapret. rewrite run_cons, (exec_popal _ _ _ _ _ _ f rest) by done.
  set (a := esp x) in *. rewrite run_cons, (exec_pop_seg GS _ _ _ _ _ _ (a + 32) (f_gs f)) by (done || lia || exact (Hw 8%nat _ eq_refl)).
  rewrite run_cons, (exec_pop_seg FS _ _ _ _ _ _ (a + 36) (f_fs f)) by (lia || (cbn; lia) || exact (Hw 9%nat _ eq_refl)).
  rewrite run_cons, (exec_pop_seg ES _ _ _ _ _ _ (a + 40) (f_es f)) by (lia || (cbn; lia) || exact (Hw 10%nat _ eq_refl)).
  rewrite run_cons, (exec_pop_seg DS _ _ _ _ _ _ (a + 44) (f_ds f)) by (lia || (cbn; lia) || exact (Hw 11%nat _ eq_refl)).
  rewrite run_cons. match goal with |- context [exec alu (AddI 8 ESP) (Machine ?X ?Y ?E ?F ?S ?M)] => destruct (exec_add X Y E F S M 8) as [fl' ->] end.
  cbn [set_reg eax ecx edx ebx esp ebp esi edi]. replace (a + 44 + 4 + 8) with (a + 56) by lia. rewrite (u32_small (a + 56)) by lia. rewrite run_cons.
  rewrite (exec_iret _ _ _ _ _ _ (fun k => load32 m (u32 (a + 56 + 4 * k)))) by (done || (cbn [esp]; lia)). cbv zeta. cbn [set_reg eax ecx edx ebx esp ebp esi edi set_seg cs ds es fs gs ss].
  change (4 * 1) with 4. change (4 * 0) with 0. change (4 * 2) with 8. change (4 * 3) with 12. change (4 * 4) with 16.
  rewrite (u32_small (a + 56 + 4)), (u32_small (a + 56 + 0)), (u32_small (a + 56 + 8)) by lia.
  replace (a + 56 + 4) with (a + 4 * Z.of_nat 15) by lia. replace (a + 56 + 0) with (a + 4 * Z.of_nat 14) by lia. replace (a + 56 + 8) with (a + 4 * Z.of_nat 16) by lia.
  rewrite (Hw 15%nat _ eq_refl), (Hw 14%nat _ eq_refl), (Hw 16%nat _ eq_refl). unfold resume. cbn [rg sg sys ram run foldl]. fold a.
  destruct (Z.ltb_spec 0 (rpl (u16 (f_cs f)))) as [Hlt|Hge]; [|by replace (a + 56 + 12) with (a + 68) by lia].
  destruct Hr as [Hr|Hr]; [lia|]. destruct rest as [|sp [|w rest]]; cbn [length] in Hr; [lia | lia|]. cbn [nth].
  rewrite (u32_small (a + 56 + 12)), (u32_small (a + 56 + 16)) by (cbn [length] in H1; lia).
  replace (a + 56 + 12) with (a + 4 * Z.of_nat 17) by lia. replace (a + 56 + 16) with (a + 4 * Z.of_nat 18) by lia.
  by rewrite (Hw 17%nat _ eq_refl), (Hw 18%nat _ eq_refl).
Qed.

(** ** There and back *)

Definition tf_addr (u : machine) (top : Z) : Z := stack_top u top - 4 * Z.of_nat (17 + length (outer u)).

(** [trap(tf)] starts in [s]: its return address and its argument, which
    points to the frame above them. *)
Record called (u : machine) (n err top oesp : Z) (s : machine) : Prop := {
  cd_esp : esp (rg s) = tf_addr u top - 8;
  cd_stack : words (ram s) (tf_addr u top - 8) (u32 after_trap :: tf_addr u top :: frame_words (frame_of u n err oesp) ++ outer u);
  cd_segs : sg s = Segs 8 16 16 24 24 (if user u then 16 else ss (sg u));
  cd_sys : sys s = sys u;
  cd_flags : eflags s = new_flags (if decide (n = T_SYSCALL) then STS_TG32 else STS_IG32) (eflags u);
  cd_ram : same_outside (tf_addr u top - 8) (stack_top u top) (ram u) (ram s)
}.
(** It returns as C functions do, in the kernel, with [f] and [rest] in place
    of the frame at [tf]. *)
Record returns (trap : machine -> machine) (tf : Z) (f : frame) (rest : list Z) (s : machine) : Prop := {
  rt_esp : esp (rg (trap s)) = esp (rg s) + 4;
  rt_cpl : cpl (trap s) = 0;
  rt_ss : ss (sg (trap s)) = ss (sg s);
  rt_frame : words (ram (trap s)) tf (frame_words f ++ rest)
}.

Lemma called_at u n err top o s : at_trap u n err top o s -> 8 <= esp (rg s) -> stack_top u top < 2 ^ 32 ->
  called u n err top o (push after_trap (push (esp (rg s)) s)).
Proof.
  intros [A1 A2 A3 A4 A5 A6] Hl Hh. assert (esp (rg s) = tf_addr u top) as E by (by rewrite A1). rewrite E in *. unfold tf_addr in E.
  destruct (pushes_run [tf_addr u top; after_trap] s) as (m & Em & Hw & Ho); [rewrite E; cbn [length]; unfold tf_addr in *; lia|].
  change (push after_trap (push (tf_addr u top) s)) with (pushes [tf_addr u top; after_trap] s). rewrite Em. clear Em. fold (tf_addr u top) in E. rewrite E in *.
  change (4 * Z.of_nat (length [tf_addr u top; after_trap])) with 8 in *. split; cbn [rg sg ram sys eflags set_ram set_rg set_reg esp]; try done.
  - apply (words_app _ _ [_; _]). split.
    + cbn in Hw. by rewrite (u32_small (tf_addr u top)) in Hw by (unfold tf_addr in *; lia).
    + replace (tf_addr u top - 8 + _) with (tf_addr u top) by (cbn; lia). eapply words_same; [lia | | | exact A2].
      * rewrite length_app. cbn [frame_words length]. unfold tf_addr in *. lia.
      * intros x Hx. apply Ho. lia.
  - intros x Hx. rewrite Ho, A6; [done | |]; unfold tf_addr in *; lia.
Qed.

Definition shown (s : machine) : regs * segs * Z * Z := (rg s, sg s, eip s, eflags s).

Lemma resume_same u n err top o s y m : wf u -> cpl u = 0 \/ cpl u = 3 -> esp (rg s) = tf_addr u top -> ss (sg s) = (if user u then 16 else ss (sg u)) ->
  sys s = y -> ram s = m -> shown (resume (frame_of u n err o) (outer u) s) = shown u.
Proof.
  intros [W1 W2 W3 W4 _] Hp He Hs _ _. assert (forall g, u16 (get_seg g (sg u)) = get_seg g (sg u)) as E2 by (intros g; apply u16_small, W2).
  unfold shown, resume. rewrite He, Hs. cbn [rg sg eip eflags frame_of f_eax f_ecx f_edx f_ebx f_ebp f_esi f_edi f_cs f_ds f_es f_fs f_gs f_eip f_eflags].
  rewrite (E2 CS : u16 (cs (sg u)) = _), (E2 DS : u16 (ds (sg u)) = _), (E2 ES : u16 (es (sg u)) = _), (E2 FS : u16 (fs (sg u)) = _), (E2 GS : u16 (gs (sg u)) = _).
  cbn [get_seg]. change (rpl (cs (sg u))) with (cpl u). unfold tf_addr, outer, stack_top, user. destruct Hp as [->| ->]; cbn [Z.ltb Z.compare Z.eqb Pos.eqb nth length].
  - replace (esp (rg u) - 4 * Z.of_nat (17 + 0) + 68) with (esp (rg u)) by lia. by destruct u as [[] [] ? ? ? ?].
  - rewrite (E2 SS : u16 (ss (sg u)) = _). by destruct u as [[] [] ? ? ? ?].
Qed.

Lemma alltraps_run u n err top o s trap F R : at_trap u n err top o s -> 84 <= stack_top u top < 2 ^ 32 ->
  (forall s', called u n err top o s' -> returns trap (tf_addr u top) F R s') -> length R = length (outer u) -> rpl (u16 (f_cs F)) = cpl u -> cpl u = 0 \/ cpl u = 3 ->
  exists s' c, run alu ([Pushl ESP; Call trap after_trap; AddI 4 ESP] ++ trapret) s = resume F R s' /\ esp (rg s') = tf_addr u top /\ ss (sg s') = (if user u then 16 else ss (sg u)) /\
    called u n err top o c /\ ram s' = ram (trap c).
Proof.
  intros HA Hs Hret HR Hf Hp. assert (length (outer u) <= 2)%nat as Ho by (unfold outer; destruct (user u); cbn; lia).
  assert (esp (rg s) = tf_addr u top) as E by apply HA. pose proof (called_at u n err top o s HA ltac:(rewrite E; unfold tf_addr; lia) ltac:(lia)) as HC.
  destruct (Hret _ HC) as [R1 R2 R3 R4]. rewrite (cd_esp _ _ _ _ _ _ HC) in R1. rewrite (cd_segs _ _ _ _ _ _ HC) in R3. rewrite E in *.
  rewrite run_app. unfold run at 2. cbn [foldl]. change (exec alu (Call trap after_trap) (exec alu (Pushl ESP) s)) with (trap (push after_trap (push (esp (rg s)) s))). rewrite E.
  set (c := push after_trap (push (tf_addr u top) s)) in *. assert (exists z, trap c = z) as [[x G e fl y m] Ez] by eauto. rewrite Ez in *. cbn [rg sg ram] in *. destruct (exec_add x G e fl y m 4) as [fl' ->]. rewrite R1.
  replace (tf_addr u top - 8 + 4 + 4) with (tf_addr u top) by lia. rewrite u32_small by (unfold tf_addr in *; lia). eexists _, c. split; [|split_and!].
  - apply trapret_run; cbn [rg ram sg set_reg esp]; [exact R4 | unfold tf_addr in *; lia | rewrite HR; unfold tf_addr in *; lia | unfold tf_addr in *; lia | exact R2 |].
    rewrite Hf, HR. unfold outer, user. destruct Hp as [->| ->]; [by left | right; cbn; lia].
  - done.
  - exact R3.
  - exact HC.
  - by rewrite Ez.
Qed.

(** C14: a trap is invisible to the code that it interrupts.  In user mode or
    in the kernel, whatever the vector, the processor enters the kernel at the
    vector's entry point; the assembly code calls [trap] with a pointer to a
    frame that holds the vector number, the error code (or 0) and the
    registers of the interrupted code, on the kernel stack, with the kernel's
    segments; and when [trap] returns, the registers are those of the frame.
    If [trap] left the frame alone, all the registers are as they were. *)
Theorem trap_round_trip u n err top trap (F : Z -> frame) (R : list Z) :
  tables vectors u top -> wf u -> cpl u = 0 \/ cpl u = 3 -> 0 <= n < 256 -> err_ok n err -> 84 <= stack_top u top < 2 ^ 32 ->
  (forall o s, called u n (default 0 err) top o s -> returns trap (tf_addr u top) (F o) R s) ->
  length R = length (outer u) -> (forall o, rpl (u16 (f_cs (F o))) = cpl u) ->
  exists s1 o s2, deliver n err u = Some s1 /\ eip s1 = vectors n /\ cpl s1 = 0 /\
    shown (run alu (vector n ++ alltraps trap) s1) = shown (resume (F o) R s2) /\
    (F o = frame_of u n (default 0 err) o -> R = outer u -> shown (run alu (vector n ++ alltraps trap) s1) = shown u).
Proof.
  intros HT HW Hp Hn He Hs Hret HR Hf. destruct (enter_trap u n err top HT HW Hp Hn He Hs) as (s1 & o & E & Ei & Ec & HA).
  destruct (alltraps_run u n (default 0 err) top o _ trap (F o) R HA Hs (Hret o) HR (Hf o) Hp) as (s2 & c & Er & E1 & E2 & _).
  assert (run alu (vector n ++ alltraps trap) s1 = resume (F o) R s2) as Eq.
  { rewrite <- Er. unfold alltraps. rewrite <- run_app. f_equal. by rewrite <- !app_assoc. }
  exists s1, o, s2. rewrite Eq. split_and!; [exact E | exact Ei | unfold cpl; by rewrite Ec | done |].
  intros -> ->. by eapply resume_same.
Qed.

(** The flags with interrupts off. *)
Lemma new_flags_off f : Z.testbit (new_flags STS_IG32 f) 9 = false.
Proof. unfold new_flags. cbn [Z.eqb STS_IG32 Pos.eqb]. rewrite Z.land_spec. change (Z.testbit (Z.lnot FL_IF) 9) with false. apply andb_false_r. Qed.

(** what a user program can do with [int n].  It enters the kernel only
    at the entry point for system calls; any other [n] is a general protection
    fault.  Either way the kernel runs at privilege 0 on its own stack, on
    which the processor has written at most 24 bytes, and nothing else in
    memory has changed. *)
Theorem user_int_confined u n top :
  tables vectors u top -> cpl u = 3 -> 0 <= n < 256 -> 24 <= top < 2 ^ 32 ->
  exists s, int_n n u = Some s /\ eip s = vectors (if decide (n = T_SYSCALL) then T_SYSCALL else 13) /\ cpl s = 0 /\ ss (sg s) = 16 /\
    top - 24 <= esp (rg s) < top /\ same_outside (top - 24) top (ram u) (ram s) /\ (n <> T_SYSCALL -> Z.testbit (eflags s) 9 = false).
Proof.
  intros HT Hc Hn Ht. unfold int_n. rewrite (tb_gate _ _ _ HT n Hn), Hc.
  assert (forall v k err, tables vectors v top -> cpl v = 3 -> ram v = ram u -> 0 <= k < 256 -> exists s, deliver k err v = Some s /\ eip s = vectors k /\ cpl s = 0 /\ ss (sg s) = 16 /\
    top - 24 <= esp (rg s) < top /\ same_outside (top - 24) top (ram u) (ram s) /\ (k <> T_SYSCALL -> Z.testbit (eflags s) 9 = false)) as HD.
  { intros v k err HV Hv Er Hk. rewrite (deliver_run v k err top HV (or_intror Hv) Hk). cbv zeta. rewrite sg_pushes. set (L := hw_pushes v ++ _).
    assert (user v = true) as Hu by (unfold user; by rewrite Hv). assert (5 <= length L <= 6)%nat as HL by (unfold L, hw_pushes; rewrite Hu; destruct err; cbn; lia).
    set (E0 := entry_state v top). assert (esp (rg E0) = top /\ ram E0 = ram u /\ ss (sg E0) = 16) as (F1 & F2 & F3) by (unfold E0, entry_state; rewrite Hu, <- Er; done).
    destruct (pushes_run L E0) as (m & -> & _ & Ho); [rewrite F1; lia|]. rewrite F1, F2 in *.
    eexists. split_and!; [reflexivity | done | done | exact F3 | cbn; lia | cbn; lia | intros x Hx; apply Ho; lia|].
    intros Hne. cbn [eflags set_eip set_sg set_eflags]. rewrite decide_False by done. apply new_flags_off. }
  unfold kernel_gate. destruct (decide (n = T_SYSCALL)) as [->|Hne]; cbn [g_dpl Z.ltb Z.compare Pos.compare Pos.compare_cont].
  - by apply HD.
  - destruct (HD (set_eip (u32 (eip u - 2)) u) 13 (Some (8 * n + 2))) as (s & E1 & E2 & E3 & E4 & E5 & E6 & E7); [by destruct HT | exact Hc | done | lia|].
    exists s. split_and!; try done; [apply E5 | apply E5|]. intros _. by apply E7.
Qed.
End entry.

(** ** An example: a user program on a machine with the kernel's tables *)

Lemma tables_regs vectors s s' top : tables vectors s top -> sys s' = sys s -> ram s' = ram s -> tables vectors s' top.
Proof.
  intros [T1 T2 T3 T4 T5] Es Er. split; unfold gate_at, segment_at in *; rewrite ?Es, ?Er; done.
Qed.

Definition ex_vectors (n : Z) : Z := 0x80105000 + 16 * n.
Definition ex_boot : machine := Machine (Regs 0 0 0 0 0 0 0 0) (Segs 0 0 0 0 0 0) 0 0 (System (0, 0) (0, 0) 0 0 0 0) (fun _ => 0).
Definition ex_at (s : machine) : machine :=
  set_rg (Regs 5 1 2 3 0x2ff0 4 6 7) (set_sg (Segs 0x23 0x2b 0x2b 0 0 0x2b) (set_eip 0x40 (set_eflags 0x202 s))).
Definition ex_user : machine := ex_at (load_tables 0x80114000 ex_vectors 0x80112000 0x8dfff000 0x8dffe000 ex_boot).
Lemma ex_at_tables s top : tables ex_vectors s top -> tables ex_vectors (ex_at s) top.
Proof. intros HT. by apply (tables_regs _ s). Qed.
Lemma ex_at_wf s : bytes (ram s) -> wf (ex_at s).
Proof. intros Hs. split; [intros []; cbn; lia | intros []; cbn; lia | cbn; lia | cbn; lia | done]. Qed.
Lemma ex_wf : wf ex_user.
Proof. apply ex_at_wf, load_tables_bytes. intros a. unfold is_byte. cbn. lia. Qed.
Lemma ex_tables : tables ex_vectors ex_user 0x8e000000.
Proof.
  apply ex_at_tables. eapply proj1, (load_tables_ok 0x80114000 ex_vectors); [lia | intros n Hn; unfold ex_vectors; lia | lia | lia | unfold KSTACKSIZE; lia].
Qed.

(** A [trap] that returns at once. *)
Definition ex_trap (s : machine) : machine := set_eip (top s) (drop4 s).
Lemma ex_trap_returns a u n err top o s : 84 <= stack_top u top < 2 ^ 32 -> called a u n err top o s ->
  returns ex_trap (tf_addr u top) (frame_of u n err o) (outer u) s.
Proof.
  intros Hs [C1 C2 C3 _ _ _]. assert (length (outer u) <= 2)%nat as Ho by (unfold outer; destruct (user u); cbn; lia). split.
  - cbn. rewrite C1, u32_small; unfold tf_addr in *; lia.
  - unfold cpl, ex_trap, drop4. cbn [sg set_eip set_rg]. by rewrite C3.
  - done.
  - apply (words_app _ _ [_; _]) in C2 as [_ C2]. cbn [length] in C2. replace (tf_addr u top - 8 + 4 * Z.of_nat 2) with (tf_addr u top) in C2 by lia. exact C2.
Qed.
Lemma ex_at_mode s : cpl (ex_at s) = 3 /\ stack_top (ex_at s) 0x8e000000 = 0x8e000000.
Proof. done. Qed.

Lemma trap_round_trip_witness : exists s1, deliver 32 None ex_user = Some s1 /\
  shown (run (fun f _ _ => f) (vector 0x80106a00 32 ++ alltraps 0x80106a1c ex_trap) s1) = shown ex_user.
Proof.
  destruct (ex_at_mode (load_tables 0x80114000 ex_vectors 0x80112000 0x8dfff000 0x8dffe000 ex_boot)) as [Em Es]. fold ex_user in Em, Es.
  destruct (trap_round_trip (fun f _ _ => f) 0x80106a00 0x80106a1c ex_vectors ex_user 32 None 0x8e000000 ex_trap (frame_of ex_user 32 0) (outer ex_user) ex_tables
    ex_wf (or_intror Em)) as (s1 & o & s2 & E1 & _ & _ & _ & E2); [lia | reflexivity | rewrite Es; lia | | reflexivity | reflexivity |].
  - intros o s Hs. apply ex_trap_returns in Hs; [exact Hs | rewrite Es; lia].
  - exists s1. split; [exact E1 | by apply E2].
Defined.

Lemma user_int_confined_witness : exists s, int_n 14 ex_user = Some s /\ eip s = ex_vectors 13 /\ cpl s = 0.
Proof.
  destruct (user_int_confined ex_vectors ex_user 14 0x8e000000 ex_tables) as (s & E1 & E2 & E3 & _); [reflexivity | lia | lia |].
  exists s. split; [exact E1|]. split; [exact E2 | exact E3].
Defined.
