(* ===== verification/Switch.v ===== *)
(** * Kernel threads (swtch.S, and the stacks of proc.c)

    [swtch] saves the registers of the thread that calls it on that thread's
    stack and resumes another one; [allocproc] makes the stack of a new process
    look as if it had called [swtch].  Threads are switched in any order. *)

From S2P Require Import Prelude CString Memory X86 Kern TrapEntry.
Import Kstring.

Section switch.
Context (alu : Z -> Z -> Z -> Z).

Definition swtch : list instr :=
  [Load 4 ESP EAX; Load 8 ESP EDX;
   Pushl EBP; Pushl EBX; Pushl ESI; Pushl EDI;
   Store ESP EAX; Mov EDX ESP;
   Popl EDI; Popl ESI; Popl EBX; Popl EBP; Ret].

(** [struct context], with the stack pointer at which the thread goes on. *)
Record context := Context { x_edi : Z; x_esi : Z; x_ebx : Z; x_ebp : Z; x_eip : Z; x_esp : Z }.
Definition CONTEXT_SIZE : Z := 20.
(** Contexts are stored at the bottom of the stack that they describe. *)
Definition ctx_addr (x : context) : Z := x_esp x - CONTEXT_SIZE.
Definition context_words (x : context) : list Z := [x_edi x; x_esi x; x_ebx x; x_ebp x; x_eip x].
(** The context of a thread that calls [swtch] in [s] with the return address [ra]. *)
Definition context_of (s : machine) (ra : Z) : context :=
  Context (edi (rg s)) (esi (rg s)) (ebx (rg s)) (ebp (rg s)) ra (esp (rg s) + 4).
Definition resumed (x : context) (s : machine) : Prop :=
  edi (rg s) = x_edi x /\ esi (rg s) = x_esi x /\ ebx (rg s) = x_ebx x /\ ebp (rg s) = x_ebp x /\ eip s = x_eip x /\ esp (rg s) = x_esp x.

(** ** The stack of a new process (proc.c, [allocproc]) *)

Definition TF_SIZE : Z := 76.
Definition tf_of (kstack : Z) : Z := kstack + KSTACKSIZE - TF_SIZE.
Definition context_at (kstack : Z) : Z := tf_of kstack - 4 - CONTEXT_SIZE.
(** [trapret_label] and [forkret] are the addresses of the code. *)
Definition alloc_stack (trapret_label forkret kstack : Z) (m : mem) : mem :=
  let m := store32 m (tf_of kstack - 4) trapret_label in
  let m := memset (context_at kstack) 0 CONTEXT_SIZE m in
  store32 m (context_at kstack + 16) forkret.
Definition new_context (forkret kstack : Z) : context := Context 0 0 0 0 forkret (tf_of kstack - 4).

(** ** One switch *)

Lemma words_load m a l z v : words m a l -> l !! Z.to_nat z = Some v -> 0 <= z -> a + 4 * z < 2 ^ 32 -> 0 <= a -> load32 m (u32 (a + 4 * z)) = v.
Proof. intros Hw Hz H0 H1 H2. rewrite u32_small by lia. by eapply words_Z. Qed.

Lemma exec_popl r x G e fl y m sp v : esp x = sp -> 0 <= sp -> sp + 4 < 2 ^ 32 -> load32 m sp = v ->
  exec alu (Popl r) (Machine x G e fl y m) = Machine (set_reg r v (set_reg ESP (sp + 4) x)) G e fl y m.
Proof. intros <- H0 H1 <-. cbn [exec]. unfold drop4, top. cbn [rg ram sg]. by rewrite u32_small by lia. Qed.

Lemma exec_push_reg r l s : r <> ESP -> exec alu (Pushl r) (pushes l s) = pushes (l ++ [get_reg r (rg s)]) s.
Proof. intros Hr. destruct (rg_pushes l s) as [o E]. cbn [exec]. rewrite E, pushes_snoc. by destruct r. Qed.

(** The half of [swtch] that saves the old thread. *)
Lemma swtch_save s ra old new : words (ram s) (esp (rg s)) [ra; old; new] -> 16 <= esp (rg s) -> esp (rg s) + 12 < 2 ^ 32 -> 0 <= old -> old + 4 <= 2 ^ 32 ->
  apart old 4 (esp (rg s) - 16) 20 -> wf s -> exists m,
  run alu [Load 4 ESP EAX; Load 8 ESP EDX; Pushl EBP; Pushl EBX; Pushl ESI; Pushl EDI; Store ESP EAX; Mov EDX ESP] s =
    Machine (Regs old (ecx (rg s)) new (ebx (rg s)) new (ebp (rg s)) (esi (rg s)) (edi (rg s))) (sg s) (eip s) (eflags s) (sys s) m /\
  words m (esp (rg s) - 16) (context_words (context_of s ra)) /\ load32 m old = esp (rg s) - 16 /\
  forall x, (x < esp (rg s) - 16 \/ esp (rg s) <= x) -> (x < old \/ old + 4 <= x) -> m x = ram s x.
Proof.
  intros Hw H0 H1 H2 H3 Hap [W1 _ _ _ _]. set (a := esp (rg s)) in *.
  pose (s1 := set_rg (set_reg EDX new (set_reg EAX old (rg s))) s).
  assert (run alu [Load 4 ESP EAX; Load 8 ESP EDX] s = s1) as E1.
  { unfold run. cbn [foldl exec get_reg set_reg set_rg rg ram sg eip eflags sys eax ecx edx ebx esp ebp esi edi]. fold a.
    replace (a + 4) with (a + 4 * 1) by lia. replace (a + 8) with (a + 4 * 2) by lia.
    by rewrite (words_load _ _ _ 1 old Hw), (words_load _ _ _ 2 new Hw) by (done || lia). }
  change (run alu ?l s) with (run alu (drop 2 l) (run alu (take 2 l) s)). cbn [take drop]. rewrite E1.
  change s1 with (pushes [] s1). rewrite !run_cons, !exec_push_reg by done. rewrite <- !run_cons. cbn [app].
  change (get_reg EBP (rg s1)) with (ebp (rg s)). change (get_reg EBX (rg s1)) with (ebx (rg s)). change (get_reg ESI (rg s1)) with (esi (rg s)). change (get_reg EDI (rg s1)) with (edi (rg s)).
  destruct (pushes_run [ebp (rg s); ebx (rg s); esi (rg s); edi (rg s)] s1) as (m & -> & Hm & Ho); [change (esp (rg s1)) with a; cbn [length]; lia|].
  change (esp (rg s1)) with a in *. change (4 * Z.of_nat (length [ebp (rg s); ebx (rg s); esi (rg s); edi (rg s)])) with 16 in *. change (ram s1) with (ram s) in *.
  exists (store32 m old (a - 16)). split; [done|]. unfold apart in Hap.
  assert (words m (a - 16) (context_words (context_of s ra))) as Hctx.
  { change (context_words (context_of s ra)) with ([edi (rg s); esi (rg s); ebx (rg s); ebp (rg s)] ++ [ra]). apply words_app. split.
    - cbn [fmap list_fmap rev app] in Hm. rewrite (u32_small (edi _)), (u32_small (esi _)), (u32_small (ebx _)), (u32_small (ebp _)) in Hm; [exact Hm|..];
        [exact (W1 EBP) | exact (W1 EBX) | exact (W1 ESI) | exact (W1 EDI)].
    - cbn [length]. replace (a - 16 + 4 * Z.of_nat 4) with a by lia. eapply words_same; [lia | cbn; lia | | intros k v Hk; apply (Hw k); destruct k; [exact Hk | done]].
      intros x Hx. apply Ho. lia. }
  split_and!.
  - eapply words_same; [lia | cbn; lia | | exact Hctx]. cbn [context_words length]. intros x Hx. apply store32_other; lia.
  - rewrite load32_store32 by lia. apply u32_small. lia.
  - intros x Hx Hx'. rewrite store32_other by lia. by apply Ho.
Qed.

(** The half that loads the new one. *)
Lemma swtch_load x G e fl y m c : words m (esp x) (context_words c) -> esp x = ctx_addr c -> 0 <= ctx_addr c -> x_esp c < 2 ^ 32 ->
  run alu [Popl EDI; Popl ESI; Popl EBX; Popl EBP; Ret] (Machine x G e fl y m) =
    Machine (Regs (eax x) (ecx x) (edx x) (x_ebx c) (x_esp c) (x_ebp c) (x_esi c) (x_edi c)) G (x_eip c) fl y m.
Proof.
  unfold ctx_addr, CONTEXT_SIZE. intros Hw E H0 H1. set (a := esp x) in *.
  rewrite run_cons, (exec_popl EDI _ _ _ _ _ _ a (x_edi c)) by (done || lia || (rewrite <- (Z.add_0_r a); exact (words_Z _ _ _ 0 _ Hw eq_refl ltac:(lia)))).
  rewrite run_cons, (exec_popl ESI _ _ _ _ _ _ (a + 4) (x_esi c)) by (done || lia || exact (words_Z _ _ _ 1 _ Hw eq_refl ltac:(lia))).
  rewrite run_cons, (exec_popl EBX _ _ _ _ _ _ (a + 8) (x_ebx c)) by ((cbn; lia) || lia || exact (words_Z _ _ _ 2 _ Hw eq_refl ltac:(lia))).
  rewrite run_cons, (exec_popl EBP _ _ _ _ _ _ (a + 12) (x_ebp c)) by ((cbn; lia) || lia || exact (words_Z _ _ _ 3 _ Hw eq_refl ltac:(lia))).
  unfold run. cbn [foldl exec]. unfold top, drop4. cbn [set_reg rg ram esp eax ecx edx ebx ebp esi edi set_rg set_eip sg eip eflags sys].
  replace (a + 12 + 4) with (a + 4 * 4) by lia. rewrite (words_Z _ _ _ 4 _ Hw eq_refl) by lia. rewrite u32_small by lia. by replace (a + 4 * 4 + 4) with (x_esp c) by lia.
Qed.

Lemma swtch_run s ra old c : words (ram s) (esp (rg s)) [ra; old; ctx_addr c] -> 16 <= esp (rg s) -> esp (rg s) + 12 < 2 ^ 32 -> 0 <= old -> old + 4 <= 2 ^ 32 ->
  apart old 4 (esp (rg s) - 16) 20 -> wf s ->
  words (ram s) (ctx_addr c) (context_words c) -> 0 <= ctx_addr c -> x_esp c < 2 ^ 32 -> apart (ctx_addr c) 20 (esp (rg s) - 16) 16 -> apart (ctx_addr c) 20 old 4 ->
  let s' := run alu swtch s in
  resumed c s' /\ sg s' = sg s /\ sys s' = sys s /\ eflags s' = eflags s /\
  words (ram s') (esp (rg s) - 16) (context_words (context_of s ra)) /\ load32 (ram s') old = esp (rg s) - 16 /\
  forall x, (x < esp (rg s) - 16 \/ esp (rg s) <= x) -> (x < old \/ old + 4 <= x) -> ram s' x = ram s x.
Proof.
  intros Hw H0 H1 H2 H3 Hap HW Hc C0 C1 A1 A2. cbv zeta.
  destruct (swtch_save s ra old (ctx_addr c) Hw H0 H1 H2 H3 Hap HW) as (m & Em & M1 & M2 & M3). unfold apart, ctx_addr, CONTEXT_SIZE in A1, A2, C0.
  change swtch with ([Load 4 ESP EAX; Load 8 ESP EDX; Pushl EBP; Pushl EBX; Pushl ESI; Pushl EDI; Store ESP EAX; Mov EDX ESP] ++ [Popl EDI; Popl ESI; Popl EBX; Popl EBP; Ret]).
  rewrite run_app, Em, (swtch_load _ _ _ _ _ _ c); [by split_and!| | done | done | done].
  cbn [esp]. eapply words_same; [| | |exact Hc]; unfold ctx_addr, CONTEXT_SIZE; cbn [context_words length]; [lia | lia|]. intros x Hx. apply M3; lia.
Qed.

(** ** Threads *)

(** The running machine, the contexts of the threads that are not running,
    and the thread that is. *)
Record threads := Threads { t_machine : machine; t_saved : gmap nat context; t_self : nat }.

Definition ctx_ok (x : context) : Prop := 0 <= ctx_addr x /\ x_esp x < 2 ^ 32.
(** The bytes from [a] on are not part of a saved context. *)
Definition clear (th : gmap nat context) (a n : Z) : Prop := forall i x, th !! i = Some x -> apart (ctx_addr x) 20 a n.

Inductive tstep (trapret_label forkret : Z) (t : threads) : threads -> Prop :=
(** The thread runs code that leaves the saved contexts alone. *)
| t_run s' : wf s' -> (forall i x, t_saved t !! i = Some x -> same_on (ctx_addr x) 20 (ram (t_machine t)) (ram s')) ->
    tstep trapret_label forkret t (Threads s' (t_saved t) (t_self t))
(** It calls [swtch(old, c)] for the context [c] of thread [j]. *)
| t_switch ra old j c : let s := t_machine t in
    t_saved t !! j = Some c -> words (ram s) (esp (rg s)) [ra; old; ctx_addr c] ->
    16 <= esp (rg s) -> esp (rg s) + 12 < 2 ^ 32 -> 0 <= old -> old + 4 <= 2 ^ 32 -> apart old 4 (esp (rg s) - 16) 20 ->
    clear (t_saved t) (esp (rg s) - 16) 16 -> clear (t_saved t) old 4 ->
    tstep trapret_label forkret t (Threads (run alu swtch s) (<[t_self t := context_of s ra]> (delete j (t_saved t))) j)
(** It makes the stack of a new thread [k]. *)
| t_alloc k kstack : t_saved t !! k = None -> k <> t_self t -> 0 <= kstack -> kstack + KSTACKSIZE < 2 ^ 32 -> clear (t_saved t) kstack KSTACKSIZE ->
    tstep trapret_label forkret t
      (Threads (set_ram (alloc_stack trapret_label forkret kstack (ram (t_machine t))) (t_machine t))
         (<[k := new_context forkret kstack]> (t_saved t)) (t_self t)).

Record threads_ok (t : threads) : Prop := {
  to_wf : wf (t_machine t);
  to_self : t_saved t !! t_self t = None;
  to_saved : forall i x, t_saved t !! i = Some x -> ctx_ok x /\ words (ram (t_machine t)) (ctx_addr x) (context_words x)
}.

Lemma alloc_stack_words tr fr kstack m : 0 <= kstack -> kstack + KSTACKSIZE < 2 ^ 32 -> 0 <= fr < 2 ^ 32 -> 0 <= tr < 2 ^ 32 ->
  words (alloc_stack tr fr kstack m) (context_at kstack) [0; 0; 0; 0; fr; tr] /\
  (forall x, x < context_at kstack \/ tf_of kstack <= x -> alloc_stack tr fr kstack m x = m x).
Proof.
  intros H0 H1 Hf Ht. unfold alloc_stack, context_at, tf_of, KSTACKSIZE, TF_SIZE, CONTEXT_SIZE in *. set (c := kstack + 4096 - 76 - 4 - 20) in *. replace (kstack + 4096 - 76 - 4) with (c + 20) by lia.
  set (m1 := store32 m (c + 20) tr). set (m2 := memset c 0 20 m1). split.
  - assert (forall x, c <= x < c + 20 -> m2 x = 0) as Hz.
    { intros x Hx. unfold m2. rewrite memset_correct by lia. zb; cbn [andb]; try lia. done. }
    assert (forall k, 0 <= k < 4 -> load32 (store32 m2 (c + 16) fr) (c + 4 * k) = 0) as Hk.
    { intros k Hk. rewrite load32_store32_ne by lia. unfold load32. rewrite !u32_small by lia. rewrite !Hz by lia. done. }
    intros k v Hkv. destruct k as [|[|[|[|[|[|k]]]]]]; cbn in Hkv; try discriminate; injection Hkv as <-; try (apply (Hk (Z.of_nat _)); lia).
    + replace (c + 4 * Z.of_nat 4) with (c + 16) by lia. rewrite load32_store32 by lia. by apply u32_small.
    + replace (c + 4 * Z.of_nat 5) with (c + 20) by lia. rewrite load32_store32_ne by lia. unfold m2.
      rewrite <- (u32_small tr Ht), <- (load32_store32 m (c + 20) tr) by lia. apply load32_ext; [lia | lia|]. intros x Hx. rewrite memset_correct by lia. zb; cbn [andb]; try lia. done.
  - intros x Hx. rewrite store32_other by lia. unfold m2. rewrite memset_correct by lia. zb; cbn [andb]; try lia; apply store32_other; lia.
Qed.

Lemma swtch_instrs : Forall instr_ok swtch.
Proof. by repeat constructor. Qed.
Lemma memset_bytes a c n m : 0 <= a -> 0 <= n -> a + n <= 2 ^ 32 -> bytes m -> bytes (memset a c n m).
Proof. intros H0 H1 H2 Hm x. rewrite memset_correct by done. destruct (_ && _); [apply u8_range | done]. Qed.

Context (Halu : forall f a b, 0 <= alu f a b < 2 ^ 32).
Context (trapret_label forkret : Z) (Hl : 0 <= trapret_label < 2 ^ 32 /\ 0 <= forkret < 2 ^ 32).

Lemma switch_step t ra old j c : let s := t_machine t in threads_ok t ->
  t_saved t !! j = Some c -> words (ram s) (esp (rg s)) [ra; old; ctx_addr c] ->
  16 <= esp (rg s) -> esp (rg s) + 12 < 2 ^ 32 -> 0 <= old -> old + 4 <= 2 ^ 32 -> apart old 4 (esp (rg s) - 16) 20 ->
  clear (t_saved t) (esp (rg s) - 16) 16 -> clear (t_saved t) old 4 ->
  resumed c (run alu swtch s) /\ threads_ok (Threads (run alu swtch s) (<[t_self t := context_of s ra]> (delete j (t_saved t))) j).
Proof using Halu.
  intros s [W1 W2 W3] Hj Hw H0 H1 H2 H3 Hap C1 C2. destruct (W3 j c Hj) as [[K1 K2] K3].
  destruct (swtch_run s ra old c Hw H0 H1 H2 H3 Hap W1 K3 K1 K2 (C1 j c Hj) (C2 j c Hj)) as (R1 & _ & _ & _ & R2 & _ & R3). split; [exact R1|]. split; cbn [t_machine t_saved t_self].
  - apply run_wf; [exact Halu | apply swtch_instrs | exact W1].
  - destruct (decide (j = t_self t)) as [->|Hne]; [congruence|]. rewrite lookup_insert_ne by done. apply lookup_delete_eq.
  - intros i x. rewrite lookup_insert_Some. intros [[<- <-]|[Hi Hx]].
    + unfold ctx_ok, ctx_addr, CONTEXT_SIZE. cbn [x_esp context_of]. replace (esp (rg s) + 4 - 20) with (esp (rg s) - 16) by lia. split; [lia | exact R2].
    + apply lookup_delete_Some in Hx as [_ Hx]. destruct (W3 i x Hx) as [Hok Hxw]. split; [exact Hok|]. unfold ctx_ok, ctx_addr, CONTEXT_SIZE in Hok.
      pose proof (C1 i x Hx) as A1. pose proof (C2 i x Hx) as A2. unfold apart, ctx_addr, CONTEXT_SIZE in A1, A2.
      eapply words_same; [| | |exact Hxw]; unfold ctx_addr, CONTEXT_SIZE; cbn [context_words length]; [lia | lia|]. intros y Hy. apply R3; lia.
Qed.

Lemma tstep_ok t t' : tstep trapret_label forkret t t' -> threads_ok t -> threads_ok t'.
Proof using Halu Hl.
  intros HT HO. destruct HT as [s' Hw Hk | ra old j c | k kstack Hk Hne H0 H1 Hc].
  - destruct HO as [W1 W2 W3]. split; [done | done|]. cbn [t_machine t_saved]. intros i x Hx. destruct (W3 i x Hx) as [[K1 K2] K3]. split; [done|].
    eapply words_same; [exact K1 | | | exact K3]; unfold ctx_addr, CONTEXT_SIZE in *; cbn [context_words length]; [lia | by eapply Hk].
  - by apply (switch_step t ra old j c).
  - destruct HO as [W1 W2 W3]. destruct (alloc_stack_words trapret_label forkret kstack (ram (t_machine t)) H0 H1 (proj2 Hl) (proj1 Hl)) as [A1 A2].
    split; cbn [t_machine t_saved t_self]; unfold context_at, tf_of, CONTEXT_SIZE, TF_SIZE, KSTACKSIZE in *.
    + apply set_ram_wf; [|done]. apply store32_bytes, memset_bytes; try (unfold context_at, tf_of, CONTEXT_SIZE, TF_SIZE, KSTACKSIZE; lia). apply store32_bytes, W1.
    + by rewrite lookup_insert_ne.
    + intros i x. rewrite lookup_insert_Some. intros [[<- <-]|[Hi Hx]].
      * unfold ctx_ok, ctx_addr, new_context, tf_of, CONTEXT_SIZE, TF_SIZE, KSTACKSIZE. cbn [x_esp]. split; [lia|]. apply (words_app _ _ [_; _; _; _; _] [_]) in A1 as [A1 _]. exact A1.
      * destruct (W3 i x Hx) as [[K1 K2] K3]. split; [done|]. pose proof (Hc i x Hx) as Ha. unfold apart, ctx_addr, CONTEXT_SIZE in *.
        eapply words_same; [exact K1 | | | exact K3]; cbn [context_words length]; [lia|]. intros y Hy. apply A2. lia.
Qed.

(** C8: a thread goes on where it left off.  However the threads of the kernel
    run, make new threads and switch to each other, a thread that is switched
    to finds the stack pointer and the registers that C keeps across calls as
    they were when it called [swtch], and continues at the return address of
    that call; a new thread starts in [forkret] with an empty stack but for the
    address of [trapret]. *)
Theorem switch_resumes t0 t ra old j c : threads_ok t0 -> rtc (tstep trapret_label forkret) t0 t ->
  t_saved t !! j = Some c -> let s := t_machine t in words (ram s) (esp (rg s)) [ra; old; ctx_addr c] ->
  16 <= esp (rg s) -> esp (rg s) + 12 < 2 ^ 32 -> 0 <= old -> old + 4 <= 2 ^ 32 -> apart old 4 (esp (rg s) - 16) 20 ->
  clear (t_saved t) (esp (rg s) - 16) 16 -> clear (t_saved t) old 4 ->
  resumed c (run alu swtch s) /\ load32 (ram (run alu swtch s)) old = ctx_addr (context_of s ra) /\
  words (ram (run alu swtch s)) (ctx_addr (context_of s ra)) (context_words (context_of s ra)).
Proof using Halu Hl.
  intros H0 HT Hj s Hw E1 E2 E3 E4 Hap C1 C2. assert (threads_ok t) as HO by (clear - HT H0 Halu Hl; induction HT as [|a b d Hs _ IH]; [done | by apply IH, (tstep_ok a)]).
  destruct HO as [W1 W2 W3]. destruct (W3 j c Hj) as [[K1 K2] K3].
  destruct (swtch_run s ra old c Hw E1 E2 E3 E4 Hap W1 K3 K1 K2 (C1 j c Hj) (C2 j c Hj)) as (R1 & _ & _ & _ & R2 & R4 & _).
  unfold ctx_addr, CONTEXT_SIZE. cbn [x_esp context_of]. by replace (esp (rg s) + 4 - 20) with (esp (rg s) - 16) by lia.
Qed.

(** *** A new process *)

(** [forkret] returns as C functions do, and leaves the trap frame alone. *)
Record c_returns (h : machine -> machine) (tf : Z) (l : list Z) (s : machine) : Prop := {
  cr_eip : eip (h s) = top s;
  cr_esp : esp (rg (h s)) = esp (rg s) + 4;
  cr_cpl : cpl (h s) = 0;
  cr_frame : words (ram (h s)) tf l
}.

(** C22: how a process starts.  When [allocproc] has made its stack and its
    trap frame [f] has been filled in, the scheduler's [swtch] to its context
    enters [forkret]; the return of [forkret] leads to [trapret]; and that
    leaves the processor in user mode with the registers of the frame, the
    stack pointer and the stack segment that it holds included. *)
Theorem new_process_starts s ra old kstack f sp w (h : machine -> machine) :
  wf s -> cpl s = 0 -> 0 <= kstack -> kstack + KSTACKSIZE < 2 ^ 32 ->
  words (ram s) (context_at kstack) ([0; 0; 0; 0; forkret; trapret_label] ++ frame_words f ++ [sp; w]) ->
  words (ram s) (esp (rg s)) [ra; old; context_at kstack] -> 16 <= esp (rg s) -> esp (rg s) + 12 < 2 ^ 32 -> 0 <= old -> old + 4 <= 2 ^ 32 ->
  apart old 4 (esp (rg s) - 16) 20 -> apart kstack KSTACKSIZE (esp (rg s) - 16) 16 -> apart kstack KSTACKSIZE old 4 ->
  rpl (u16 (f_cs f)) = 3 ->
  (forall s', eip s' = forkret -> esp (rg s') = tf_of kstack - 4 -> cpl s' = 0 -> words (ram s') (tf_of kstack) (frame_words f ++ [sp; w]) ->
    c_returns h (tf_of kstack) (frame_words f ++ [sp; w]) s') ->
  let s1 := run alu swtch s in
  eip s1 = forkret /\ top s1 = trapret_label /\ eip (h s1) = trapret_label /\
  shown (run alu trapret (h s1)) =
    (Regs (f_eax f) (f_ecx f) (f_edx f) (f_ebx f) sp (f_ebp f) (f_esi f) (f_edi f),
     Segs (u16 (f_cs f)) (u16 (f_ds f)) (u16 (f_es f)) (u16 (f_fs f)) (u16 (f_gs f)) (u16 w), f_eip f, f_eflags f).
Proof using.
  intros HW Hcpl K0 K1 Hk Hw H0 H1 H2 H3 Hap A1 A2 Hu Hh. unfold apart in A1, A2.
  assert (context_at kstack = kstack + 3996 /\ tf_of kstack = kstack + 4020) as [Ec Et] by (unfold context_at, tf_of, CONTEXT_SIZE, TF_SIZE, KSTACKSIZE in *; lia). unfold KSTACKSIZE in *.
  pose (c := new_context forkret kstack). assert (ctx_addr c = context_at kstack) as Ea by reflexivity.
  pose proof Hk as Hk'. apply words_app in Hk' as [Hk1 Hk2]. apply (words_app _ _ [_; _; _; _; _] [_]) in Hk1 as [Hk1 Hk3]. cbn [length] in Hk2, Hk3.
  destruct (swtch_run s ra old c) as (R1 & R2 & R3 & _ & _ & _ & R4); try done; try (rewrite Ea, ?Ec; unfold apart; lia); [cbn; lia|].
  destruct R1 as (_ & _ & _ & _ & R5 & R6). cbn [x_eip x_esp c new_context] in R5, R6. set (s1 := run alu swtch s) in *.
  assert (forall x, kstack <= x < kstack + 4096 -> ram s1 x = ram s x) as Hs by (intros x Hx; apply R4; lia).
  assert (words (ram s1) (tf_of kstack) (frame_words f ++ [sp; w])) as Hf.
  { replace (context_at kstack + 4 * Z.of_nat 6) with (tf_of kstack) in Hk2 by lia. eapply words_same; [| | |exact Hk2]; cbn [frame_words app length]; [lia | lia|]. intros x Hx. apply Hs. lia. }
  assert (top s1 = trapret_label) as Ht.
  { unfold top. rewrite R6, <- (Hk3 0%nat _ eq_refl). replace (context_at kstack + 4 * Z.of_nat 5 + 4 * Z.of_nat 0) with (tf_of kstack - 4) by lia.
    apply load32_ext; [lia | lia|]. intros x Hx. apply Hs. lia. }
  destruct (Hh s1 R5 R6 ltac:(unfold cpl; by rewrite R2) Hf) as [F1 F2 F3 F4]. split_and!; [done | done | by rewrite F1|]. rewrite R6 in F2. replace (tf_of kstack - 4 + 4) with (tf_of kstack) in F2 by lia.
  rewrite (trapret_run alu f [sp; w]); [|by rewrite F2|rewrite F2; lia|rewrite F2; cbn; lia|rewrite F2; lia|exact F3|right; cbn; lia].
  unfold shown, resume. cbn [rg sg eip eflags nth]. by rewrite Hu.
Qed.

End switch.

(** ** An example: the scheduler starts a process *)

Definition ex_alu (f a b : Z) : Z := 0.
Lemma ex_alu_ok f a b : 0 <= ex_alu f a b < 2 ^ 32.
Proof. unfold ex_alu. lia. Qed.

Lemma pushes_wf l : forall s, wf s -> wf (pushes l s).
Proof. induction l as [|v l IH]; intros s Hs; [done|]. by apply (IH (push v s)), push_wf. Qed.

(** The scheduler calls [swtch(0x500, c)] on a stack below 0x2000. *)
Definition ex_sched (c : Z) (m : mem) : machine :=
  pushes [c; 0x500; 0x77] (Machine (Regs 0 0 0 11 0x2000 12 13 14) (Segs 8 16 16 24 24 16) 0 0 (System (0, 0) (0, 0) 0 0 0 0) m).
Lemma ex_sched_ok c m : 0 <= c < 2 ^ 32 -> bytes m -> wf (ex_sched c m) /\ cpl (ex_sched c m) = 0 /\ esp (rg (ex_sched c m)) = 0x1ff4 /\
  words (ram (ex_sched c m)) 0x1ff4 [0x77; 0x500; c] /\ same_outside 0x1ff4 0x2000 m (ram (ex_sched c m)).
Proof.
  intros Hc Hm. split; [|split; [unfold cpl, ex_sched; by rewrite sg_pushes|]].
  - apply pushes_wf. split; [intros []; cbn; lia | intros []; cbn; lia | cbn; lia | cbn; lia | done].
  - destruct (pushes_run [c; 0x500; 0x77] (Machine (Regs 0 0 0 11 0x2000 12 13 14) (Segs 8 16 16 24 24 16) 0 0 (System (0, 0) (0, 0) 0 0 0 0) m)) as (m' & E & Hw & Ho); [cbn; lia|].
    unfold ex_sched. rewrite E. cbn [rg ram set_ram set_rg set_reg esp] in *. cbn [fmap list_fmap rev app] in Hw. rewrite (u32_small c) in Hw by done. done.
Qed.
Lemma zero_bytes : bytes (fun _ => 0).
Proof. intros a. unfold is_byte. lia. Qed.

Definition ex_threads : threads := Threads (ex_sched (context_at 0x10000) (fun _ => 0)) ∅ 0.
Definition ex_threads' : threads :=
  Threads (set_ram (alloc_stack 0x300 0x400 0x10000 (ram (t_machine ex_threads))) (t_machine ex_threads)) (<[1%nat := new_context 0x400 0x10000]> ∅) 0.
Lemma ex_threads_ok : threads_ok ex_threads.
Proof.
  destruct (ex_sched_ok (context_at 0x10000) (fun _ => 0) ltac:(by vm_compute) zero_bytes) as (W & _).
  split; [exact W | done | intros i x Hx; cbn in Hx; by rewrite lookup_empty in Hx].
Qed.
Lemma ex_threads_step : rtc (tstep ex_alu 0x300 0x400) ex_threads ex_threads'.
Proof.
  apply rtc_once. refine (t_alloc ex_alu 0x300 0x400 ex_threads 1 0x10000 _ _ _ _ _); [done | done | lia | vm_compute; reflexivity | intros i x Hx; cbn in Hx; by rewrite lookup_empty in Hx].
Qed.
Lemma ex_threads_stack : esp (rg (t_machine ex_threads')) = 0x1ff4 /\ words (ram (t_machine ex_threads')) 0x1ff4 [0x77; 0x500; context_at 0x10000].
Proof.
  destruct (ex_sched_ok (context_at 0x10000) (fun _ => 0) ltac:(by vm_compute) zero_bytes) as (_ & _ & Es & Hw & _). split; [exact Es|].
  destruct (alloc_stack_words 0x300 0x400 0x10000 (ram (t_machine ex_threads)) ltac:(lia) ltac:(vm_compute; reflexivity) ltac:(lia) ltac:(lia)) as [_ Ha].
  eapply words_same; [lia | cbn; lia | | exact Hw]. intros x Hx. apply Ha. left. change (context_at 0x10000) with 69532. cbn in Hx. lia.
Qed.
Lemma ex_threads_clear a n : 0 <= a -> a + n <= 0x2000 -> clear (t_saved ex_threads') a n.
Proof.
  intros H0 H1 i x Hx. cbn [t_saved ex_threads'] in Hx. apply lookup_insert_Some in Hx as [[<- <-]|[_ Hx]]; [|by rewrite lookup_empty in Hx]. right. change (ctx_addr _) with 69532. lia.
Qed.

Lemma switch_resumes_witness : resumed (new_context 0x400 0x10000) (run ex_alu swtch (t_machine ex_threads')).
Proof.
  destruct ex_threads_stack as [Es Hw]. refine (proj1 (switch_resumes ex_alu ex_alu_ok 0x300 0x400 ltac:(lia) ex_threads ex_threads' 0x77 0x500 1 (new_context 0x400 0x10000)
    ex_threads_ok ex_threads_step (lookup_insert_eq _ _ _) _ _ _ _ _ _ _ _)); rewrite ?Es; [exact Hw | lia | lia | lia | lia | left; lia | apply ex_threads_clear; lia | apply ex_threads_clear; lia].
Defined.

(** The first process: code at 0 and a stack that ends at 0x1000. *)
Definition ex_frame : frame := Frame 0 0 0 0 0 0 0 0 0 0 0x2b 0x2b 0 0 0 0x23 0x200.
Definition ex_stack : mem :=
  ram (pushes (rev ([0; 0; 0; 0; 0x400; 0x300] ++ frame_words ex_frame ++ [0x1000; 0x2b]))
    (Machine (Regs 0 0 0 0 0x11000 0 0 0) (Segs 8 16 16 24 24 16) 0 0 (System (0, 0) (0, 0) 0 0 0 0) (fun _ => 0))).
Lemma ex_stack_ok : bytes ex_stack /\ words ex_stack (context_at 0x10000) ([0; 0; 0; 0; 0x400; 0x300] ++ frame_words ex_frame ++ [0x1000; 0x2b]).
Proof.
  unfold ex_stack. set (s := Machine _ _ _ _ _ _). set (l := [0; 0; 0; 0; 0x400; 0x300] ++ frame_words ex_frame ++ [0x1000; 0x2b]). split.
  - apply pushes_wf. split; [intros []; cbn; lia | intros []; cbn; lia | cbn; lia | cbn; lia | apply zero_bytes].
  - destruct (pushes_run (rev l) s) as (m & -> & Hw & _); [cbn; lia|]. cbn [ram set_ram]. replace (rev (u32 <$> rev l)) with l in Hw by (by vm_compute). exact Hw.
Qed.
Lemma ex_start : exists s, wf s /\ cpl s = 0 /\ esp (rg s) = 0x1ff4 /\ words (ram s) 0x1ff4 [0x77; 0x500; context_at 0x10000] /\
  words (ram s) (context_at 0x10000) ([0; 0; 0; 0; 0x400; 0x300] ++ frame_words ex_frame ++ [0x1000; 0x2b]).
Proof.
  destruct ex_stack_ok as [Hb Hk]. destruct (ex_sched_ok (context_at 0x10000) ex_stack ltac:(by vm_compute) Hb) as (W & Hc & Es & Hw & Ho).
  exists (ex_sched (context_at 0x10000) ex_stack). split_and!; [exact W | exact Hc | exact Es | exact Hw|].
  eapply words_same; [vm_compute; discriminate | vm_compute; discriminate | | exact Hk]. intros x Hx. apply Ho. change (context_at 0x10000) with 69532 in Hx. lia.
Qed.
Lemma new_process_starts_witness : exists s,
  eip (run ex_alu swtch s) = 0x400 /\ top (run ex_alu swtch s) = 0x300 /\ eip (ex_trap (run ex_alu swtch s)) = 0x300 /\
  shown (run ex_alu trapret (ex_trap (run ex_alu swtch s))) = (Regs 0 0 0 0 0x1000 0 0 0, Segs (u16 0x23) (u16 0x2b) (u16 0x2b) (u16 0) (u16 0) (u16 0x2b), 0, 0x200).
Proof.
  destruct ex_start as (s & W & Hc & Es & Hw & Hk). exists s.
  apply (new_process_starts ex_alu 0x300 0x400 s 0x77 0x500 0x10000 ex_frame 0x1000 0x2b ex_trap); rewrite ?Es; [exact W | exact Hc | lia | vm_compute; reflexivity | exact Hk | exact Hw
    | lia | lia | lia | lia | left; lia | right; lia | right; lia | vm_compute; reflexivity|].
  intros s' _ E1 E2 E3. split; [reflexivity | | exact E2 | exact E3]. unfold ex_trap, drop4. cbn [rg esp set_rg set_reg set_eip]. rewrite E1. reflexivity.
Defined.
