(* ===== verification/Stubs.v ===== *)
(** * System calls from user code (usys.S, initcode.S, syscall.h)

    A stub of usys.S loads the number of its call and traps; [initcode] is the
    code of the first process.  The kernel is entered and left as in
    [TrapEntry.v]; the number selects the handler in the table of
    [Syscall.v]. *)

From S2P Require Import Prelude CString Blocks Fs Log LogBlocks Memory Kern File Sysarg Sysfile Exec Proc Syscall X86 Segments TrapEntry Switch.
Import Kstring.

(** ** Numbers *)

Inductive call_name :=
| Cfork | Cexit | Cwait | Cpipe | Cread | Cwrite | Cclose | Ckill | Cexec | Copen | Cmknod | Cunlink | Cfstat | Clink | Cmkdir | Cchdir
| Cdup | Cgetpid | Csbrk | Csleep | Cuptime | Cgetcount | CmkSmallFilesdir.

Definition SYS (c : call_name) : Z :=
  match c with
  | Cfork => 1 | Cexit => 2 | Cwait => 3 | Cpipe => 4 | Cread => 5 | Ckill => 6 | Cexec => 7 | Cfstat => 8 | Cchdir => 9 | Cdup => 10
  | Cgetpid => 11 | Csbrk => 12 | Csleep => 13 | Cuptime => 14 | Copen => 15 | Cwrite => 16 | Cmknod => 17 | Cunlink => 18 | Clink => 19
  | Cmkdir => 20 | Cclose => 21 | Cgetcount => 22 | CmkSmallFilesdir => 23
  end.

Section handlers.
Context {S : Type} `{BlockLayer S} `{DevSw S}.
Context (kend kdata : Z).

(** The handler that the name of a call promises. *)
Definition handler (c : call_name) : M (kern S) result :=
  let v := val (fun z : Z => z) in
  match c with
  | Cfork => v (sys_fork kend kdata) | Cexit => sys_exit kend | Cwait => sys_wait kend | Cpipe => v (sys_pipe kend) | Cread => v sys_read
  | Ckill => v sys_kill | Cexec => v (sys_exec kend kdata) | Cfstat => v sys_fstat | Cchdir => v sys_chdir | Cdup => v sys_dup
  | Cgetpid => v sys_getpid | Csbrk => v (sys_sbrk kend) | Csleep => sys_sleep | Cuptime => v sys_uptime | Copen => v (sys_open kend)
  | Cwrite => v sys_write | Cmknod => v sys_mknod | Cunlink => v sys_unlink | Clink => v sys_link | Cmkdir => v sys_mkdir
  | Cclose => v (sys_close kend) | Cgetcount => v getcount | CmkSmallFilesdir => v mkSmallFilesdir
  end.

(** The kernel after [count_array[SYS_c]++], the array zeroed by the first
    call. *)
Definition counted (c : call_name) (k : kern S) : kern S :=
  set_counts (alter (fun n => i32 (n + 1)) (Z.to_nat (SYS c)) (if k_inits k =? 0 then replicate (Z.to_nat NCOUNT) 0 else k_counts k)) 1 k.

(** [syscalls] has the handler of [c] under its number.  With the number in
    [%eax], [syscall] counts the call, runs the handler and stores its result
    in [%eax]; but the number of [mkSmallFilesdir] is past the end of
    [count_array], and for it [syscall] goes wrong before it gets to the
    table. *)
Definition dispatches (c : call_name) : Prop :=
  syscalls kend kdata !! Z.to_nat (SYS c) = Some (Some (handler c)) /\
  forall k p, self k = Prelude.Ret p k -> tf_eax (p_tf p) = SYS c ->
  match c with
  | CmkSmallFilesdir => syscall kend kdata k = Undef "count_array[syscall]"
  | _ => syscall kend kdata k = (let! r := handler c in match r with Val r => set_eax r ;;; ret (Val r) | Asleep => ret Asleep end) (counted c k)
  end.

Lemma dispatch_ok c : dispatches c.
Proof.
  split; [by destruct c|].
  intros k p Hp Ht. unfold syscall. rewrite (bind_Ret _ _ _ _ _ Hp), Ht. replace (i32 (SYS c)) with (SYS c) by (by destruct c). by destruct c.
Qed.
End handlers.

Section stubs.
Context (alu : Z -> Z -> Z -> Z).
Context (alltraps_label after_trap : Z) (vectors : Z -> Z).

(** ** The code *)

(** User code: an instruction of [len] bytes, or [int n], of two. *)
Inductive uinstr := Plain (i : instr) (len : Z) | Int (n : Z).

Definition past (len : Z) (s : machine) : machine := set_eip (u32 (eip s + len)) s.
(** [int n] runs the kernel from the entry point that the processor chooses,
    until it returns. *)
Definition uexec (trap : machine -> machine) (i : uinstr) (s : machine) : option machine :=
  match i with
  | Plain i len => Some (exec alu i (past len s))
  | Int n =>
      let v := if g_dpl (gate_at s n) <? cpl s then 13 else n in
      run alu (vector alltraps_label v ++ alltraps after_trap trap) <$> int_n n (past 2 s)
  end.
Definition urun (trap : machine -> machine) (l : list uinstr) (s : machine) : option machine :=
  foldl (fun o i => o ≫= uexec trap i) (Some s) l.

Definition stub (c : call_name) : list uinstr := [Plain (MovI (SYS c) EAX) 5; Int T_SYSCALL; Plain Ret 1].

(** [start] of initcode.S; the labels [init] and [argv] are arguments. *)
Definition initcode_start (init argv : Z) : list uinstr :=
  [Plain (PushI argv) 5; Plain (PushI init) 5; Plain (PushI 0) 2; Plain (MovI (SYS Cexec) EAX) 5; Int T_SYSCALL].

(** ** Calls *)

Definition with_f_eax (r : Z) (f : frame) : frame :=
  Frame (f_edi f) (f_esi f) (f_ebp f) (f_oesp f) (f_ebx f) (f_edx f) (f_ecx f) r (f_gs f) (f_fs f) (f_es f) (f_ds f) (f_trapno f) (f_err f) (f_eip f) (f_cs f) (f_eflags f).

(** The state that user code is in when the kernel returns to the frame [f]
    with the stack pointer and segment of [R]. *)
Definition user_at (f : frame) (R : list Z) : regs * segs * Z * Z :=
  (Regs (f_eax f) (f_ecx f) (f_edx f) (f_ebx f) (nth 0 R 0) (f_ebp f) (f_esi f) (f_edi f),
   Segs (u16 (f_cs f)) (u16 (f_ds f)) (u16 (f_es f)) (u16 (f_fs f)) (u16 (f_gs f)) (u16 (nth 1 R 0)), f_eip f, f_eflags f).

Lemma int_call u top trap (F : Z -> frame) R : tables vectors u top -> wf u -> cpl u = 3 -> 84 <= top < 2 ^ 32 ->
  (forall o s, called after_trap (past 2 u) T_SYSCALL 0 top o s -> returns trap (top - 76) (F o) R s) -> length R = 2%nat -> (forall o, rpl (u16 (f_cs (F o))) = 3) ->
  exists o s s', called after_trap (past 2 u) T_SYSCALL 0 top o s /\ uexec trap (Int T_SYSCALL) u = Some s' /\ shown s' = user_at (F o) R /\ ram s' = ram (trap s).
Proof.
  intros HT HW Hc Ht Hret HR Hf. set (u' := past 2 u) in *.
  assert (user u' = true) as Hu by (unfold user; by change (cpl u') with (cpl u); rewrite Hc).
  assert (stack_top u' top = top /\ tf_addr u' top = top - 76 /\ length (outer u') = 2%nat) as (Es & Ea & Eo) by (unfold tf_addr, stack_top, outer; rewrite Hu; split_and!; [done | cbn; lia | done]).
  assert (tables vectors u' top) as HT' by (by apply (tables_regs vectors u)). assert (wf u') as HW' by (apply set_eip_wf; [apply u32_range | done]).
  destruct (enter_trap alu alltraps_label vectors u' T_SYSCALL None top HT' HW' (or_intror Hc)) as (s1 & o & E & _ & _ & HA); [done | done | lia|].
  destruct (alltraps_run alu after_trap u' T_SYSCALL 0 top o _ trap (F o) R HA) as (s2 & s & Er & _ & _ & HC & Em); [lia | rewrite Ea; apply Hret | congruence | rewrite Hf; by change (cpl u') with (cpl u) | by right|].
  exists o, s. eexists. split; [exact HC|]. cbn [uexec]. unfold int_n. change (past 2 u) with u'. change (gate_at u' T_SYSCALL) with (gate_at u T_SYSCALL). change (cpl u') with (cpl u).
  rewrite (tb_gate _ _ _ HT T_SYSCALL) by done. rewrite Hc. change (g_dpl (kernel_gate vectors T_SYSCALL) <? 3) with false. cbn iota. rewrite E. split; [reflexivity|].
  assert (run alu (vector alltraps_label T_SYSCALL ++ alltraps after_trap trap) s1 = resume (F o) R s2) as ->.
  { rewrite <- Er. unfold alltraps. rewrite <- run_app. f_equal. }
  split; [|exact Em]. unfold shown, resume, user_at. cbn [rg sg eip eflags]. by rewrite Hf.
Qed.
(** The user code as it traps for the call [c], and the kernel when it calls
    [trap]: the frame says which call, and the words on the user stack are
    those that the C code pushed. *)
Definition at_int (c : call_name) (u : machine) : machine := past 2 (exec alu (MovI (SYS c) EAX) (past 5 u)).
Definition calls (c : call_name) (u : machine) (l : list Z) (top o : Z) (s : machine) : Prop :=
  called after_trap (at_int c u) T_SYSCALL 0 top o s /\ words (ram s) (esp (rg u)) l.

Lemma movi_run v r s : exec alu (MovI v r) s = set_rg (set_reg r (u32 v) (rg s)) s.
Proof. done. Qed.
Lemma past_wf n s : wf s -> wf (past n s).
Proof. intros Hs. apply set_eip_wf; [apply u32_range | done]. Qed.

Lemma call_enters c u top trap (F : Z -> frame) R l : tables vectors u top -> wf u -> cpl u = 3 -> 84 <= top < 2 ^ 32 ->
  words (ram u) (esp (rg u)) l -> esp (rg u) + 4 * Z.of_nat (length l) <= 2 ^ 32 -> apart (esp (rg u)) (4 * Z.of_nat (length l)) (top - 84) 84 ->
  (forall o s, calls c u l top o s -> returns trap (top - 76) (F o) R s) -> length R = 2%nat -> (forall o, rpl (u16 (f_cs (F o))) = 3) ->
  exists o s s', calls c u l top o s /\ urun trap [Plain (MovI (SYS c) EAX) 5; Int T_SYSCALL] u = Some s' /\ shown s' = user_at (F o) R /\ ram s' = ram (trap s).
Proof.
  intros HT HW Hc Ht Hl Hb Ha Hret HR Hf. set (v := exec alu (MovI (SYS c) EAX) (past 5 u)).
  assert (wf v) as HWv by (unfold v; rewrite movi_run; apply set_reg_wf; [apply u32_range | by apply past_wf]).
  assert (forall o s, called after_trap (past 2 v) T_SYSCALL 0 top o s -> calls c u l top o s) as Hcalls.
  { intros o s HC. split; [exact HC|]. destruct HC as [_ _ _ _ _ Hm]. assert (user (past 2 v) = true) as Hu by (unfold user; change (cpl (past 2 v)) with (cpl u); by rewrite Hc).
    assert (stack_top (past 2 v) top = top /\ tf_addr (past 2 v) top = top - 76) as [Es Ea] by (unfold tf_addr, stack_top, outer; rewrite Hu; split; [done | cbn; lia]).
    rewrite Es, Ea in Hm. pose proof (wf_regs u HW ESP) as He. cbn [get_reg] in He. unfold apart in Ha. eapply words_same; [lia | exact Hb | | exact Hl].
    intros x Hx. apply Hm. lia. }
  destruct (int_call v top trap F R) as (o & s & s' & H1 & H2 & H3 & H4); [by apply (tables_regs vectors u) | exact HWv | exact Hc | exact Ht | intros o s HC; by apply Hret, Hcalls | exact HR | exact Hf|].
  exists o, s, s'. split; [by apply Hcalls|]. split; [exact H2 | by split].
Qed.

(** C7: a system call, from the C code of a program and back.  The stub of a
    call [c], entered with a return address and arguments on the stack, traps
    to the kernel, where [trap] gets a frame with the number of [c] in [eax]
    and a stack pointer at which the return address and the arguments are; and
    when [trap] returns with a result in the [eax] of the frame, the stub
    returns it to its caller, with all other registers as they were.  The table
    of handlers has the handler of [c] under that number; for every call but
    [mkSmallFilesdir], [syscall] counts the call, runs that handler and stores
    its result in [eax].  For [mkSmallFilesdir], number 23, it indexes
    [count_array] out of bounds before it looks at the table. *)
Theorem system_call {S : Type} `{BlockLayer S} `{DevSw S} kend kdata c u top trap r ra args :
  tables vectors u top -> wf u -> cpl u = 3 -> 84 <= top < 2 ^ 32 ->
  words (ram u) (esp (rg u)) (ra :: args) -> esp (rg u) + 4 * Z.of_nat (length (ra :: args)) < 2 ^ 32 -> apart (esp (rg u)) (4 * Z.of_nat (length (ra :: args))) (top - 84) 84 ->
  (forall o s, calls c u (ra :: args) top o s ->
    returns trap (top - 76) (with_f_eax r (frame_of (at_int c u) T_SYSCALL 0 o)) [esp (rg u); ss (sg u)] s /\ load32 (ram (trap s)) (esp (rg u)) = ra) ->
  dispatches (S := S) kend kdata c /\
  exists o s s', calls c u (ra :: args) top o s /\
    words (ram s) (top - 76) (frame_words (frame_of (at_int c u) T_SYSCALL 0 o) ++ [esp (rg u); ss (sg u)]) /\ f_eax (frame_of (at_int c u) T_SYSCALL 0 o) = SYS c /\
    urun trap (stub c) u = Some s' /\ shown s' = (set_reg EAX r (set_reg ESP (esp (rg u) + 4) (rg u)), sg u, ra, eflags u).
Proof.
  intros HT HW Hc Ht Hl Hb Ha Hret. split; [apply dispatch_ok|].
  assert (forall g, u16 (get_seg g (sg u)) = get_seg g (sg u)) as Eg by (intros g; apply u16_small, HW).
  destruct (call_enters c u top trap (fun o => with_f_eax r (frame_of (at_int c u) T_SYSCALL 0 o)) [esp (rg u); ss (sg u)] (ra :: args)) as (o & s & s' & H1 & H2 & H3 & H4);
    try done; [lia | intros o s HC; by apply Hret | intros o; change (f_cs _) with (cs (sg u)); by rewrite (Eg CS : u16 (cs (sg u)) = _)|].
  exists o, s. eexists. split; [exact H1|]. split; [|split; [by destruct c | split]].
  - destruct H1 as [[_ Hw _ _ _ _] _]. assert (outer (at_int c u) = [esp (rg u); ss (sg u)]) as Eo by (unfold outer, user; change (cpl (at_int c u)) with (cpl u); by rewrite Hc).
    assert (tf_addr (at_int c u) top = top - 76) as Ea by (unfold tf_addr, stack_top; rewrite Eo; unfold user; change (cpl (at_int c u)) with (cpl u); rewrite Hc; cbn; lia).
    rewrite Eo, Ea in Hw. apply (words_app _ _ [_; _]) in Hw as [_ Hw]. cbn [length] in Hw. by replace (top - 76 - 8 + 4 * Z.of_nat 2) with (top - 76) in Hw by lia.
  - change (urun trap (stub c) u) with (urun trap [Plain (MovI (SYS c) EAX) 5; Int T_SYSCALL] u ≫= uexec trap (Plain X86.Ret 1)). rewrite H2. reflexivity.
  - destruct (Hret o s H1) as [_ Hra]. destruct s' as [x G e fl y m]. cbn [shown rg sg eip eflags ram] in H3, H4. unfold shown in H3. injection H3 as -> -> -> ->.
    cbn [exec past]. unfold shown, X86.top, drop4. cbn. rewrite H4, Hra, u32_small by (pose proof (wf_regs u HW ESP) as He; cbn [get_reg length] in *; lia).
    rewrite (Eg CS : u16 (cs (sg u)) = _), (Eg DS : u16 (ds (sg u)) = _), (Eg ES : u16 (es (sg u)) = _), (Eg FS : u16 (fs (sg u)) = _), (Eg GS : u16 (gs (sg u)) = _), (Eg SS : u16 (ss (sg u)) = _).
    by destruct u as [[] [] ? ? ? ?].
Qed.
(** The processor's tables lie above the user memory that ends at [lo]. *)
Record tables_from (lo : Z) (s : machine) : Prop := {
  tf_lo : 0 <= lo;
  tf_idt : lo <= (idtr (sys s)).1;
  tf_gdt : lo <= (gdtr (sys s)).1;
  tf_tr : 0 <= tr (sys s);
  tf_tss : lo <= s_base (segment_at s (tr (sys s))) /\ s_base (segment_at s (tr (sys s))) + TS_SIZE <= 2 ^ 32
}.
Lemma tables_kept lo s s' top : tables vectors s top -> tables_from lo s -> sys s' = sys s -> (forall x, lo <= x -> ram s' x = ram s x) -> tables vectors s' top.
Proof.
  intros [T1 T2 T3 T4 T5] [F0 F1 F2 F3 [F4 F5]] Es Er. unfold TS_SIZE, TS_ESP0, TS_SS0 in *.
  assert (forall n, 0 <= n -> gate_at s' n = gate_at s n) as Eg by (intros n Hn; unfold gate_at; rewrite Es; f_equal; apply load64_ext; intros x Hx; apply Er; lia).
  assert (forall n, 0 <= n -> segment_at s' n = segment_at s n) as Em.
  { intros n Hn. unfold segment_at. rewrite Es. f_equal. apply load64_ext. intros x Hx. apply Er. pose proof (Z.div_pos n 8 Hn ltac:(lia)). lia. }
  split; [intros n Hn; rewrite Eg by lia; by apply T1 | by rewrite Es | by rewrite Es | by rewrite Em|]. cbv zeta in *. rewrite Es, (Em _ F3). destruct T5 as [T5 T6].
  split; [rewrite <- T5 | rewrite <- T6; f_equal]; (apply load32_ext; [lia | lia|]; intros x Hx; apply Er; unfold TS_ESP0, TS_SS0 in *; lia).
Qed.

(** The first process as it calls exec: the return address 0, the path and
    the argument vector are on its stack. *)
Definition init_pushed (init argv : Z) (u : machine) : machine := push 0 (past 2 (push init (past 5 (push argv (past 5 u))))).

Lemma push_past v n s : push v (past n s) = past n (push v s).
Proof. done. Qed.
Lemma init_pushed_run init argv u : init_pushed init argv u = past 2 (past 5 (past 5 (pushes [argv; init; 0] u))).
Proof. unfold init_pushed. by rewrite !push_past. Qed.
Lemma urun_plain trap i n l s : urun trap (Plain i n :: l) s = urun trap l (exec alu i (past n s)).
Proof. done. Qed.
Lemma init_pushes trap init argv u : urun trap (initcode_start init argv) u = urun trap [Plain (MovI (SYS Cexec) EAX) 5; Int T_SYSCALL] (init_pushed init argv u).
Proof. unfold initcode_start, init_pushed. rewrite !(urun_plain _ (PushI _)). cbn [exec]. reflexivity. Qed.

Lemma init_enters v top trap (F : Z -> frame) R l : tables vectors v top -> wf v -> cpl v = 3 -> esp (rg v) = 4084 -> 4096 + 84 <= top < 2 ^ 32 ->
  words (ram v) 4084 l -> length l = 3%nat ->
  (forall o s, calls Cexec v l top o s -> returns trap (top - 76) (F o) R s) -> length R = 2%nat -> (forall o, rpl (u16 (f_cs (F o))) = 3) ->
  exists o s s', calls Cexec v l top o s /\ (forall x, 0 <= x < 4084 -> ram s x = ram v x) /\
    urun trap [Plain (MovI (SYS Cexec) EAX) 5; Int T_SYSCALL] v = Some s' /\ shown s' = user_at (F o) R.
Proof.
  intros HT HW Cv Ev Ht Hw Hl Hret HR Hf.
  destruct (call_enters Cexec v top trap F R l) as (o & s & s' & H1 & H2 & H3 & _); rewrite ?Ev, ?Hl; try done; [lia | left; lia|].
  exists o, s, s'. split; [exact H1|]. split; [|by split]. intros x Hx. destruct H1 as [[_ _ _ _ _ Hm] _].
  assert (stack_top (at_int Cexec v) top = top /\ tf_addr (at_int Cexec v) top = top - 76) as [Es Ea]
    by (unfold tf_addr, stack_top, outer, user; change (cpl (at_int Cexec v)) with (cpl v); rewrite Cv; split; [done | cbn; lia]).
  rewrite Es, Ea in Hm. rewrite Hm by lia. done.
Qed.
Lemma init_pushed_ok init argv u : wf u -> esp (rg u) = 4096 -> 0 <= init < 2 ^ 32 -> 0 <= argv < 2 ^ 32 -> let v := init_pushed init argv u in
  wf v /\ cpl v = cpl u /\ esp (rg v) = 4084 /\ words (ram v) 4084 [0; init; argv] /\ (forall x, x < 4084 \/ 4096 <= x -> ram v x = ram u x) /\ sys v = sys u.
Proof.
  intros HW He Hi Ha v. split; [unfold v, init_pushed; do 3 (apply push_wf, past_wf); exact HW|]. unfold v. rewrite init_pushed_run. clear v.
  destruct (pushes_run [argv; init; 0] u) as (m & -> & Hw & Ho); [rewrite He; cbn; lia|]. rewrite He in *. cbn [length] in *. change (4096 - 4 * Z.of_nat 3) with 4084 in *.
  cbn [fmap list_fmap rev app] in Hw. rewrite (u32_small argv), (u32_small init) in Hw by done. split_and!; [done | done | exact Hw | exact Ho | done].
Qed.

(** the first process.  Its code, started as [userinit] leaves it, with the
    stack pointer at the end of its page, calls the kernel with the number of
    exec and the arguments [init] and [argv] above a return address, and with
    its memory otherwise unchanged; it goes on where the kernel's frame says. *)
Theorem initcode_execs u top trap (F : Z -> frame) R init argv :
  wf u -> cpl u = 3 -> esp (rg u) = PGSIZE -> PGSIZE + 84 <= top < 2 ^ 32 -> 0 <= init < 2 ^ 32 -> 0 <= argv < 2 ^ 32 ->
  tables vectors u top -> tables_from PGSIZE u ->
  (forall o s, calls Cexec (init_pushed init argv u) [0; init; argv] top o s -> returns trap (top - 76) (F o) R s) -> length R = 2%nat -> (forall o, rpl (u16 (f_cs (F o))) = 3) ->
  exists o s s', calls Cexec (init_pushed init argv u) [0; init; argv] top o s /\ (forall x, 0 <= x < PGSIZE - 12 -> ram s x = ram u x) /\
    urun trap (initcode_start init argv) u = Some s' /\ shown s' = user_at (F o) R.
Proof.
  unfold PGSIZE. intros HW Hc He Ht Hi Ha HT HF Hret HR Hf. rewrite init_pushes. destruct (init_pushed_ok init argv u HW He Hi Ha) as (V1 & V2 & V3 & V4 & V5 & V6). rewrite Hc in V2.
  assert (tables vectors (init_pushed init argv u) top) as HT' by (eapply tables_kept; [exact HT | exact HF | exact V6 | intros x Hx; apply V5; lia]).
  destruct (init_enters _ top trap F R _ HT' V1 V2 V3 Ht V4 eq_refl Hret HR Hf) as (o & s & s' & H1 & H2 & H3). exists o, s, s'. split; [exact H1|]. split; [|exact H3].
  intros x Hx. rewrite H2 by exact Hx. apply V5. lia.
Qed.
End stubs.

(** ** An example: a program calls getpid, the first process calls exec *)

#[local] Instance ex_devsw : DevSw log := {| dev_read _ := None; dev_write _ := None |}.

Lemma words_insert m a l k v : words m a l -> 0 <= a -> a + 4 * Z.of_nat (length l) <= 2 ^ 32 -> (k < length l)%nat -> 0 <= v < 2 ^ 32 ->
  words (store32 m (a + 4 * Z.of_nat k) v) a (<[k := v]> l).
Proof.
  intros Hw H0 H1 Hk Hv j w Hj. pose proof (lookup_lt_Some _ _ _ Hj) as Hlt. rewrite length_insert in Hlt. destruct (decide (j = k)) as [->|Hne].
  - rewrite list_lookup_insert_eq in Hj by done. injection Hj as <-. rewrite load32_store32 by lia. by apply u32_small.
  - rewrite list_lookup_insert_ne in Hj by done. rewrite load32_store32_ne by lia. by apply Hw.
Qed.

(** A [trap] that answers 42: it stores the word in the [eax] of its frame. *)
Definition ex_answer (s : machine) : machine := ex_trap (set_ram (store32 (ram s) (0x8e000000 - 76 + 4 * 7) 42) s).
Lemma ex_answer_returns a u n err o s : cpl u = 3 -> called a u n err 0x8e000000 o s ->
  returns ex_answer (0x8e000000 - 76) (with_f_eax 42 (frame_of u n err o)) [esp (rg u); ss (sg u)] s /\
  forall x, 0 <= x < 0x10000 -> ram (ex_answer s) x = ram u x.
Proof.
  intros Hc [C1 C2 C3 _ _ C6]. assert (outer u = [esp (rg u); ss (sg u)] /\ stack_top u 0x8e000000 = 0x8e000000) as [Eo Es] by (unfold outer, stack_top, user; by rewrite Hc).
  assert (tf_addr u 0x8e000000 = 0x8e000000 - 76) as Ea by (unfold tf_addr; rewrite Es, Eo; cbn; lia). rewrite Ea, ?Eo, ?Es in *. split; [split|].
  - unfold ex_answer, ex_trap, drop4. cbn [rg esp set_eip set_rg set_ram set_reg]. rewrite C1. by apply u32_small.
  - unfold cpl, ex_answer, ex_trap, drop4. cbn [sg set_eip set_rg set_ram]. by rewrite C3.
  - done.
  - apply (words_app _ _ [_; _]) in C2 as [_ C2]. cbn [length] in C2. replace (0x8e000000 - 76 - 8 + 4 * Z.of_nat 2) with (0x8e000000 - 76) in C2 by lia.
    apply (words_insert _ _ _ 7 42) in C2; [exact C2 | lia | cbn; lia | cbn; lia | lia].
  - intros x Hx. change (ram (ex_answer s) x) with (store32 (ram s) (0x8e000000 - 76 + 4 * 7) 42 x). rewrite store32_other by lia. apply C6. lia.
Qed.

Lemma load_tables_tr idt vectors c kstack pgdir s : tr (sys (load_tables idt vectors c kstack pgdir s)) = 48.
Proof. done. Qed.
Lemma ex_loaded : exists b, bytes (ram b) /\ tables ex_vectors b 0x8e000000 /\ tables_from 0x80000000 b.
Proof.
  exists (load_tables 0x80114000 ex_vectors 0x80112000 0x8dfff000 0x8dffe000 ex_boot). pose proof (load_tables_tr 0x80114000 ex_vectors 0x80112000 0x8dfff000 0x8dffe000 ex_boot) as Etr.
  destruct (load_tables_ok 0x80114000 ex_vectors ltac:(lia) ltac:(intros n Hn; unfold ex_vectors; lia) 0x80112000 0x8dfff000 0x8dffe000 ltac:(lia) ltac:(lia) ltac:(unfold KSTACKSIZE; lia) ex_boot) as (T & G & I & B).
  split; [apply load_tables_bytes, zero_bytes|]. split; [exact T|]. revert Etr G I B. generalize (load_tables 0x80114000 ex_vectors 0x80112000 0x8dfff000 0x8dffe000 ex_boot) as b. intros b Etr G I B.
  split; [lia | rewrite I; cbn; lia | rewrite (sm_gdtr _ _ G); unfold CPU_GDT; cbn [fst]; lia | rewrite Etr; lia | rewrite B; unfold CPU_TS, TS_SIZE; lia].
Qed.
(** A program in user mode with the stack pointer [sp]. *)
Lemma ex_program sp : 0 <= sp < 2 ^ 32 -> exists u, wf u /\ tables ex_vectors u 0x8e000000 /\ tables_from 0x80000000 u /\
  rg u = Regs 5 1 2 3 sp 4 6 7 /\ sg u = Segs 0x23 0x2b 0x2b 0 0 0x2b /\ eflags u = 0x202.
Proof.
  intros Hsp. destruct ex_loaded as (b & Hb & T & F). exists (set_rg (Regs 5 1 2 3 sp 4 6 7) (ex_at b)). split_and!; [| | |done|done|done].
  - split; [intros []; cbn; lia | intros []; cbn; lia | cbn; lia | cbn; lia | exact Hb].
  - by apply (tables_regs ex_vectors b).
  - by destruct F.
Qed.

Lemma system_call_witness : exists u s, rg u = Regs 5 1 2 3 0x2ff0 4 6 7 /\ urun (fun f _ _ => f) 0x80106a00 0x80106a1c ex_answer (stub Cgetpid) u = Some s /\
  shown s = (Regs 42 1 2 3 0x2ff4 4 6 7, Segs 0x23 0x2b 0x2b 0 0 0x2b, load32 (ram u) 0x2ff0, 0x202).
Proof.
  destruct (ex_program 0x2ff0 ltac:(lia)) as (u & W & T & _ & Er & Eg & Ef). assert (esp (rg u) = 0x2ff0 /\ cpl u = 3) as [Ee Ec] by (unfold cpl; by rewrite Er, Eg).
  destruct (system_call (fun f _ _ => f) 0x80106a00 0x80106a1c ex_vectors (S := log) 0 0 Cgetpid u 0x8e000000 ex_answer 42 (load32 (ram u) 0x2ff0) [] T W Ec ltac:(lia))
    as (_ & o & s & s' & _ & _ & _ & E1 & E2); rewrite ?Ee; [intros k v Hk; by apply list_lookup_singleton_Some in Hk as [-> <-] | cbn; lia | left; cbn; lia | |].
  - intros o s [HC _]. destruct (ex_answer_returns _ (at_int (fun f _ _ => f) Cgetpid u) _ _ _ _ Ec HC) as [H1 H2].
    rewrite <- Ee. split; [exact H1|]. rewrite Ee. apply load32_ext; [lia | lia|]. intros x Hx. apply H2. lia.
  - exists u, s'. split; [exact Er|]. split; [exact E1|]. rewrite E2, Er, Eg, Ef. reflexivity.
Defined.

Lemma initcode_execs_witness : exists u s, esp (rg u) = PGSIZE /\ urun (fun f _ _ => f) 0x80106a00 0x80106a1c ex_answer (initcode_start 0x1c 0x24) u = Some s /\ eax (rg s) = 42.
Proof.
  destruct (ex_program 4096 ltac:(lia)) as (u & W & T & TF & Er & Eg & Ef). assert (esp (rg u) = 4096 /\ cpl u = 3) as [Ee Ec] by (unfold cpl; by rewrite Er, Eg).
  destruct (init_pushed_ok 0x1c 0x24 u W Ee ltac:(lia) ltac:(lia)) as (_ & Ec' & _ & _ & _ & _). rewrite Ec in Ec'. set (v := init_pushed 0x1c 0x24 u) in *.
  assert (sg v = sg u) as Es by reflexivity.
  destruct (initcode_execs (fun f _ _ => f) 0x80106a00 0x80106a1c ex_vectors u 0x8e000000 ex_answer
    (fun o => with_f_eax 42 (frame_of (at_int (fun f _ _ => f) Cexec v) T_SYSCALL 0 o)) [esp (rg v); ss (sg v)] 0x1c 0x24 W Ec Ee) as (o & s & s' & _ & _ & E1 & E2);
    [unfold PGSIZE; lia | lia | lia | exact T | | | done | |].
  - unfold PGSIZE. destruct TF as [F0 F1 F2 F3 F4]. split; lia.
  - intros o s [HC _]. exact (proj1 (ex_answer_returns _ (at_int (fun f _ _ => f) Cexec v) _ _ _ _ Ec' HC)).
  - intros o. change (f_cs _) with (cs (sg v)). by rewrite Es, Eg.
  - exists u, s'. split; [exact Ee|]. split; [exact E1|]. injection E2 as E2 _ _ _. by rewrite E2.
Defined.
