(* ===== verification/Devices.v ===== *)
(** * Interrupt controllers, timer, serial port and clock

    picirq.c, ioapic.c, timer.c, uart.c and lapic.c: the bytes the kernel writes
    to ports and the words it writes to device registers, in order.  The devices
    are a parameter, the class [Bus]; what the theorems need to know of them are
    the laws of the classes of DevicesTheorems.v.  The message of [ioapicinit]
    is left out, and [microdelay], which is empty. *)

From S2P Require Import Prelude CString Memory Kalloc Mp Kern Syscall.

Class Bus (D : Type) := {
  bus_outb : Z -> Z -> D -> D;
  bus_inb : Z -> D -> Z * D;
  (** Registers in memory, by physical address. *)
  bus_write : Z -> Z -> D -> D;
  bus_read : Z -> D -> Z * D
}.

(** The devices, and the variables of the drivers: [irqmask] of picirq.c,
    [ioapic] of ioapic.c, [uart] of uart.c and those of mp.c. *)
Record devs (D : Type) := Devs { ds_bus : D; ds_irqmask : Z; ds_ioapic : Z; ds_uart : bool; ds_mp : mpstate }.
Arguments Devs {D}. Arguments ds_bus {D}. Arguments ds_irqmask {D}. Arguments ds_ioapic {D}. Arguments ds_uart {D}. Arguments ds_mp {D}.

Definition IO_PIC1 : Z := 0x20.
Definition IO_PIC2 : Z := 0xa0.
Definition IRQ_SLAVE : Z := 2.
Definition IRQ_ERROR : Z := 19.
Definition IOAPIC : Z := 0xfec00000.
Definition REG_ID : Z := 0x00.
Definition REG_VER : Z := 0x01.
Definition REG_TABLE : Z := 0x10.
Definition INT_DISABLED : Z := 0x10000.
Definition IO_TIMER1 : Z := 0x40.
Definition TIMER_FREQ : Z := 1193182.
Definition TIMER_DIV (x : Z) : Z := (TIMER_FREQ + x / 2) / x.
Definition COM1 : Z := 0x3f8.

(** Registers of the local APIC, as indices of words. *)
Definition ID : Z := 0x20 / 4.
Definition VER : Z := 0x30 / 4.
Definition TPR : Z := 0x80 / 4.
Definition EOI : Z := 0xb0 / 4.
Definition SVR : Z := 0xf0 / 4.
Definition ESR : Z := 0x280 / 4.
Definition ICRLO : Z := 0x300 / 4.
Definition ICRHI : Z := 0x310 / 4.
Definition TIMER : Z := 0x320 / 4.
Definition PCINT : Z := 0x340 / 4.
Definition LINT0 : Z := 0x350 / 4.
Definition LINT1 : Z := 0x360 / 4.
Definition ERROR : Z := 0x370 / 4.
Definition TICR : Z := 0x380 / 4.
Definition TDCR : Z := 0x3e0 / 4.
Definition ENABLE : Z := 0x100.
Definition INIT : Z := 0x500.
Definition STARTUP : Z := 0x600.
Definition DELIVS : Z := 0x1000.
Definition ASSERT : Z := 0x4000.
Definition LEVEL : Z := 0x8000.
Definition BCAST : Z := 0x80000.
Definition X1 : Z := 0xb.
Definition PERIODIC : Z := 0x20000.
Definition MASKED : Z := 0x10000.

Definition CMOS_PORT : Z := 0x70.
Definition CMOS_RETURN : Z := 0x71.
Definition CMOS_STATA : Z := 0x0a.
Definition CMOS_STATB : Z := 0x0b.
Definition CMOS_UIP : Z := 0x80.

(** [struct rtcdate] *)
Record rtcdate := Rtcdate { second : Z; minute : Z; hour : Z; day : Z; month : Z; year : Z }.
#[export] Instance rtcdate_eq_dec : EqDecision rtcdate.
Proof. solve_decision. Defined.

Section devices.
Context {D : Type} `{Bus D}.
Implicit Types s : devs D.

Definition set_bus (d : D) s : devs D := Devs d (ds_irqmask s) (ds_ioapic s) (ds_uart s) (ds_mp s).
Definition outb (port v : Z) : M (devs D) unit := modify (fun s => set_bus (bus_outb port (u8 v) (ds_bus s)) s).
Definition inb (port : Z) : M (devs D) Z := fun s => let '(r, d) := bus_inb port (ds_bus s) in Ret r (set_bus d s).
Definition wr (a v : Z) : M (devs D) unit := modify (fun s => set_bus (bus_write (u32 a) (u32 v) (ds_bus s)) s).
Definition rd (a : Z) : M (devs D) Z := fun s => let '(r, d) := bus_read (u32 a) (ds_bus s) in Ret r (set_bus d s).

(** ** picirq.c *)

Definition picsetmask (mask : Z) : M (devs D) unit :=
  modify (fun s => Devs (ds_bus s) mask (ds_ioapic s) (ds_uart s) (ds_mp s)) ;;;
  outb (IO_PIC1 + 1) mask ;;;
  outb (IO_PIC2 + 1) (Z.shiftr mask 8).

Definition picenable (irq : Z) : M (devs D) unit :=
  let! s := get in
  picsetmask (u16 (Z.land (ds_irqmask s) (Z.lnot (Z.shiftl 1 irq)))).

Definition picinit : M (devs D) unit :=
  outb (IO_PIC1 + 1) 0xff ;;;
  outb (IO_PIC2 + 1) 0xff ;;;
  outb IO_PIC1 0x11 ;;;
  outb (IO_PIC1 + 1) T_IRQ0 ;;;
  outb (IO_PIC1 + 1) (Z.shiftl 1 IRQ_SLAVE) ;;;
  outb (IO_PIC1 + 1) 0x3 ;;;
  outb IO_PIC2 0x11 ;;;
  outb (IO_PIC2 + 1) (T_IRQ0 + 8) ;;;
  outb (IO_PIC2 + 1) IRQ_SLAVE ;;;
  outb (IO_PIC2 + 1) 0x3 ;;;
  outb IO_PIC1 0x68 ;;;
  outb IO_PIC1 0x0a ;;;
  outb IO_PIC2 0x68 ;;;
  outb IO_PIC2 0x0a ;;;
  let! s := get in
  when (negb (ds_irqmask s =? 0xffff)) (picsetmask (ds_irqmask s)).

(** ** ioapic.c *)

Definition ioapicread (reg : Z) : M (devs D) Z :=
  let! s := get in
  wr (ds_ioapic s) reg ;;;
  rd (ds_ioapic s + 16).
Definition ioapicwrite (reg data : Z) : M (devs D) unit :=
  let! s := get in
  wr (ds_ioapic s) reg ;;;
  wr (ds_ioapic s + 16) data.

(** [for(i = 0; i <= maxintr; i++)], for [n] values from [i] on. *)
Fixpoint ioapic_mask (n : nat) (i : Z) : M (devs D) unit :=
  match n with
  | O => ret tt
  | S n =>
      ioapicwrite (REG_TABLE + 2 * i) (Z.lor INT_DISABLED (T_IRQ0 + i)) ;;;
      ioapicwrite (REG_TABLE + 2 * i + 1) 0 ;;;
      ioapic_mask n (i + 1)
  end.
Definition ioapicinit : M (devs D) unit :=
  let! s := get in
  if negb (ismp (ds_mp s)) then ret tt
  else
    modify (fun s => Devs (ds_bus s) (ds_irqmask s) IOAPIC (ds_uart s) (ds_mp s)) ;;;
    let! v := ioapicread REG_VER in
    let maxintr := Z.land (Z.shiftr v 16) 0xff in
    let! _ := ioapicread REG_ID in
    ioapic_mask (Z.to_nat (maxintr + 1)) 0.

Definition ioapicenable (irq cpunum : Z) : M (devs D) unit :=
  let! s := get in
  if negb (ismp (ds_mp s)) then ret tt
  else
    ioapicwrite (REG_TABLE + 2 * irq) (T_IRQ0 + irq) ;;;
    ioapicwrite (REG_TABLE + 2 * irq + 1) (Z.shiftl cpunum 24).

(** ** timer.c *)

Definition timerinit : M (devs D) unit :=
  outb (IO_TIMER1 + 3) (Z.lor (Z.lor 0x00 0x04) 0x30) ;;;
  outb IO_TIMER1 (TIMER_DIV 100 mod 256) ;;;
  outb IO_TIMER1 (TIMER_DIV 100 / 256) ;;;
  picenable IRQ_TIMER.

(** ** uart.c *)

Fixpoint uart_wait (n : nat) : M (devs D) unit :=
  match n with
  | O => ret tt
  | S n => let! r := inb (COM1 + 5) in if negb (Z.land r 0x20 =? 0) then ret tt else uart_wait n
  end.
Definition uartputc (c : Z) : M (devs D) unit :=
  let! s := get in
  if negb (ds_uart s) then ret tt
  else uart_wait 128 ;;; outb COM1 c.

Fixpoint uart_puts (p : list Z) : M (devs D) unit :=
  match p with
  | [] => ret tt
  | c :: p => uartputc c ;;; uart_puts p
  end.
Definition uartinit : M (devs D) unit :=
  outb (COM1 + 2) 0 ;;;
  outb (COM1 + 3) 0x80 ;;;
  outb (COM1 + 0) (115200 / 9600) ;;;
  outb (COM1 + 1) 0 ;;;
  outb (COM1 + 3) 0x03 ;;;
  outb (COM1 + 4) 0 ;;;
  outb (COM1 + 1) 0x01 ;;;
  let! r := inb (COM1 + 5) in
  if r =? 0xff then ret tt
  else
    modify (fun s => Devs (ds_bus s) (ds_irqmask s) (ds_ioapic s) true (ds_mp s)) ;;;
    let! _ := inb (COM1 + 2) in
    let! _ := inb (COM1 + 0) in
    picenable IRQ_COM1 ;;;
    ioapicenable IRQ_COM1 0 ;;;
    uart_puts [120; 118; 54; 46; 46; 46; 10].

Definition uartgetc : M (devs D) Z :=
  let! s := get in
  if negb (ds_uart s) then ret (-1)
  else
    let! r := inb (COM1 + 5) in
    if Z.land r 0x01 =? 0 then ret (-1) else inb (COM1 + 0).

(** ** lapic.c *)

Definition lapicr (index : Z) : M (devs D) Z := let! s := get in rd (lapic (ds_mp s) + 4 * index).
Definition lapicw (index value : Z) : M (devs D) unit :=
  let! s := get in
  wr (lapic (ds_mp s) + 4 * index) value ;;;
  let! _ := lapicr ID in
  ret tt.

(** [while(lapic[ICRLO] & DELIVS);] *)
Fixpoint lapic_wait (n : nat) : M (devs D) unit :=
  match n with
  | O => fun _ => Blocked "lapicinit"
  | S n => let! r := lapicr ICRLO in if Z.land r DELIVS =? 0 then ret tt else lapic_wait n
  end.
Definition lapicinit (polls : nat) : M (devs D) unit :=
  let! s := get in
  if lapic (ds_mp s) =? 0 then ret tt
  else
    lapicw SVR (Z.lor ENABLE (T_IRQ0 + IRQ_SPURIOUS)) ;;;
    lapicw TDCR X1 ;;;
    lapicw TIMER (Z.lor PERIODIC (T_IRQ0 + IRQ_TIMER)) ;;;
    lapicw TICR 10000000 ;;;
    lapicw LINT0 MASKED ;;;
    lapicw LINT1 MASKED ;;;
    let! v := lapicr VER in
    when (4 <=? Z.land (Z.shiftr v 16) 0xff) (lapicw PCINT MASKED) ;;;
    lapicw ERROR (T_IRQ0 + IRQ_ERROR) ;;;
    lapicw ESR 0 ;;;
    lapicw ESR 0 ;;;
    lapicw EOI 0 ;;;
    lapicw ICRHI 0 ;;;
    lapicw ICRLO (Z.lor (Z.lor BCAST INIT) LEVEL) ;;;
    lapic_wait polls ;;;
    lapicw TPR 0.

Definition lapiceoi : M (devs D) unit :=
  let! s := get in
  when (negb (lapic (ds_mp s) =? 0)) (lapicw EOI 0).

(** The part of [lapicstartap] that talks to devices: before and after the warm
    reset vector is stored. *)
Definition ap_shutdown : M (devs D) unit := outb CMOS_PORT 0xf ;;; outb (CMOS_PORT + 1) 0x0a.
Definition ap_startup (apicid addr : Z) : M (devs D) unit :=
  lapicw ICRHI (Z.shiftl apicid 24) ;;;
  lapicw ICRLO (Z.lor (Z.lor INIT LEVEL) ASSERT) ;;;
  lapicw ICRLO (Z.lor INIT LEVEL) ;;;
  lapicw ICRHI (Z.shiftl apicid 24) ;;;
  lapicw ICRLO (Z.lor STARTUP (Z.shiftr addr 12)) ;;;
  lapicw ICRHI (Z.shiftl apicid 24) ;;;
  lapicw ICRLO (Z.lor STARTUP (Z.shiftr addr 12)).

Definition cmos_read (reg : Z) : M (devs D) Z := outb CMOS_PORT reg ;;; inb CMOS_RETURN.

Definition fill_rtcdate : M (devs D) rtcdate :=
  let! second := cmos_read 0x00 in
  let! minute := cmos_read 0x02 in
  let! hour := cmos_read 0x04 in
  let! day := cmos_read 0x07 in
  let! month := cmos_read 0x08 in
  let! year := cmos_read 0x09 in
  ret (Rtcdate second minute hour day month year).

(** [None]: not finished after [fuel] rounds. *)
Fixpoint cmos_loop (fuel : nat) : M (devs D) (option rtcdate) :=
  match fuel with
  | O => ret None
  | S fuel =>
      let! t1 := fill_rtcdate in
      let! a := cmos_read CMOS_STATA in
      if negb (Z.land a CMOS_UIP =? 0) then cmos_loop fuel
      else
        let! t2 := fill_rtcdate in
        if bool_decide (t1 = t2) then ret (Some t1) else cmos_loop fuel
  end.

Definition conv (x : Z) : Z := Z.shiftr x 4 * 10 + Z.land x 0xf.
Definition conv_date (t : rtcdate) : rtcdate :=
  Rtcdate (conv (second t)) (conv (minute t)) (conv (hour t)) (conv (day t)) (conv (month t)) (conv (year t)).
Definition cmostime (fuel : nat) : M (devs D) (option rtcdate) :=
  let! sb := cmos_read CMOS_STATB in
  let bcd := Z.land sb (Z.shiftl 1 2) =? 0 in
  let! t := cmos_loop fuel in
  ret ((fun t1 =>
    let t1 := if bcd then conv_date t1 else t1 in
    Rtcdate (second t1) (minute t1) (hour t1) (day t1) (month t1) (u32 (year t1 + 2000))) <$> t).
End devices.
