(* ===== verification/DevicesTheorems.v ===== *)
(** * The interrupt controllers are set up; the clock is read without tearing

    [IrqHw] states what the data sheets of the 8259A and of the I/O APIC say of
    the ports and registers that picirq.c and ioapic.c write, [RtcOk] what the
    data sheet of the real-time clock says of its two ports. *)

From S2P Require Import Prelude CString Memory Kalloc Mp Kern Syscall Devices.

(** ** The interrupt controllers *)

(** An 8259A: the initialisation words it waits for, those it was given, and its
    mask register. *)
Inductive icw := ICW2 | ICW3 | ICW4.
Record pic := Pic { pc_wait : list icw; pc_base : Z; pc_cascade : Z; pc_mode : Z; pc_imr : Z }.
(** A byte to the first port: [ICW1], or a command that keeps all of this. *)
Definition pic_cmd (v : Z) (p : pic) : pic :=
  if Z.testbit v 4 then
    Pic (ICW2 :: (if Z.testbit v 1 then [] else [ICW3]) ++ (if Z.testbit v 0 then [ICW4] else []))
        (pc_base p) (pc_cascade p) (pc_mode p) 0
  else p.
(** A byte to the second port: the word waited for, or the mask. *)
Definition pic_data (v : Z) (p : pic) : pic :=
  match pc_wait p with
  | [] => Pic [] (pc_base p) (pc_cascade p) (pc_mode p) v
  | ICW2 :: l => Pic l v (pc_cascade p) (pc_mode p) (pc_imr p)
  | ICW3 :: l => Pic l (pc_base p) v (pc_mode p) (pc_imr p)
  | ICW4 :: l => Pic l (pc_base p) (pc_cascade p) v (pc_imr p)
  end.

(** The two 8259As and the I/O APIC: the register selected and the registers. *)
Record irqhw := Irqhw { hw_master : pic; hw_slave : pic; hw_sel : Z; hw_regs : gmap Z Z }.
Definition irq_outb (p v : Z) (h : irqhw) : irqhw :=
  if p =? IO_PIC1 then Irqhw (pic_cmd v (hw_master h)) (hw_slave h) (hw_sel h) (hw_regs h)
  else if p =? IO_PIC1 + 1 then Irqhw (pic_data v (hw_master h)) (hw_slave h) (hw_sel h) (hw_regs h)
  else if p =? IO_PIC2 then Irqhw (hw_master h) (pic_cmd v (hw_slave h)) (hw_sel h) (hw_regs h)
  else if p =? IO_PIC2 + 1 then Irqhw (hw_master h) (pic_data v (hw_slave h)) (hw_sel h) (hw_regs h)
  else h.
Definition irq_write (a v : Z) (h : irqhw) : irqhw :=
  if a =? IOAPIC then Irqhw (hw_master h) (hw_slave h) v (hw_regs h)
  else if a =? IOAPIC + 16 then Irqhw (hw_master h) (hw_slave h) (hw_sel h) (<[hw_sel h := v]> (hw_regs h))
  else h.
Definition io_reg (h : irqhw) (r : Z) : Z := default 0 (hw_regs h !! r).

Class IrqHw (D : Type) `{Bus D} := {
  hw : D -> irqhw;
  hw_outb : forall p v d, hw (bus_outb p v d) = irq_outb p v (hw d);
  hw_inb : forall p d, hw (bus_inb p d).2 = hw d;
  hw_write : forall a v d, hw (bus_write a v d) = irq_write a v (hw d);
  hw_read : forall a d, hw (bus_read a d).2 = hw d;
  hw_data : forall d, (bus_read (IOAPIC + 16) d).1 = io_reg (hw d) (hw_sel (hw d))
}.

Section irq.
Context {D : Type} `{Bus D} `{!IrqHw D}.
Implicit Types s : devs D.

(** The drivers enable an interrupt on both controllers, whichever is in use. *)
Fixpoint enable_all (l : list (Z * Z)) : M (devs D) unit :=
  match l with
  | [] => ret tt
  | (irq, cpu) :: l => picenable irq ;;; ioapicenable irq cpu ;;; enable_all l
  end.
Definition irq_setup (l : list (Z * Z)) : M (devs D) unit := picinit ;;; ioapicinit ;;; enable_all l.

(** Everything but the devices and the mask. *)
Definition same_vars s s' : Prop := ds_uart s' = ds_uart s /\ ds_mp s' = ds_mp s.

(** *** 8259A *)

(** Both controllers are initialised and have the mask [m]. *)
Definition pics_ok (m : Z) (h : irqhw) : Prop :=
  hw_master h = Pic [] T_IRQ0 4 3 (u8 m) /\ hw_slave h = Pic [] (T_IRQ0 + 8) 2 3 (u8 (Z.shiftr m 8)).

Lemma picsetmask_ok m s m0 : pics_ok m0 (hw (ds_bus s)) ->
  wp (picsetmask m) (fun _ s' => same_vars s s' /\ ds_irqmask s' = m /\ ds_ioapic s' = ds_ioapic s /\
    pics_ok m (hw (ds_bus s')) /\ hw_regs (hw (ds_bus s')) = hw_regs (hw (ds_bus s))) s.
Proof.
  intros [E1 E2]. unfold picsetmask, outb. wp_steps. cbn [set_bus ds_bus ds_uart ds_mp ds_irqmask ds_ioapic].
  rewrite !hw_outb. unfold pics_ok, same_vars. destruct (hw (ds_bus s)) as [p1 p2 sel g]. cbn [hw_master hw_slave] in E1, E2. by subst.
Qed.

Lemma picinit_ok s : ds_irqmask s = 0xfffb ->
  wp picinit (fun _ s' => same_vars s s' /\ ds_irqmask s' = 0xfffb /\ pics_ok 0xfffb (hw (ds_bus s')) /\
    hw_regs (hw (ds_bus s')) = hw_regs (hw (ds_bus s))) s.
Proof.
  intros Hm. unfold picinit, outb. wp_steps. cbn [set_bus ds_irqmask]. rewrite Hm. change (negb (0xfffb =? 0xffff)) with true. cbn [when].
  eapply wp_mono.
  - apply (picsetmask_ok _ _ 0). cbn [set_bus ds_bus]. rewrite !hw_outb. destruct (hw (ds_bus s)) as [p1 p2 sel g]. vm_compute. done.
  - cbn [set_bus ds_bus ds_uart ds_mp]. intros _ s' (Hs & Hm' & _ & Hp & Hr). repeat split; try apply Hs; try done; try apply Hp.
    rewrite Hr, !hw_outb. by destruct (hw (ds_bus s)).
Qed.

(** *** I/O APIC *)

Lemma ioapicwrite_ok reg data s : ds_ioapic s = IOAPIC -> 0 <= reg < 2 ^ 32 ->
  wp (ioapicwrite reg data) (fun _ s' => exists d, s' = set_bus d s /\
    hw_master (hw d) = hw_master (hw (ds_bus s)) /\ hw_slave (hw d) = hw_slave (hw (ds_bus s)) /\
    hw_regs (hw d) = <[reg := u32 data]> (hw_regs (hw (ds_bus s)))) s.
Proof.
  intros Hi Hr. unfold ioapicwrite, wr. wp_steps. cbn [set_bus ds_bus]. eexists. split; [reflexivity|]. rewrite Hi, !hw_write, (u32_small reg) by done.
  change (u32 IOAPIC) with IOAPIC. change (u32 (IOAPIC + 16)) with (IOAPIC + 16). by destruct (hw (ds_bus s)).
Qed.
Lemma ioapicread_ok reg s : ds_ioapic s = IOAPIC -> 0 <= reg < 2 ^ 32 ->
  wp (ioapicread reg) (fun r s' => exists d, s' = set_bus d s /\ r = io_reg (hw (ds_bus s)) reg /\
    hw_master (hw d) = hw_master (hw (ds_bus s)) /\ hw_slave (hw d) = hw_slave (hw (ds_bus s)) /\
    hw_regs (hw d) = hw_regs (hw (ds_bus s))) s.
Proof.
  intros Hi Hr. unfold ioapicread, wr. wp_steps. unfold rd, wp. cbn [set_bus ds_bus]. rewrite Hi.
  change (u32 IOAPIC) with IOAPIC. change (u32 (IOAPIC + 16)) with (IOAPIC + 16).
  set (d := bus_write _ _ _). pose proof (hw_read (IOAPIC + 16) d) as E1. pose proof (hw_data d) as E2.
  destruct (bus_read (IOAPIC + 16) d) as [r d']. cbn [fst snd] in *. exists d'. split; [done|]. rewrite E2, E1.
  unfold d. rewrite !hw_write, (u32_small reg) by done. by destruct (hw (ds_bus s)).
Qed.

(** The last processor that the interrupt was enabled for. *)
Fixpoint route (l : list (Z * Z)) (irq : Z) : option Z :=
  match l with
  | [] => None
  | (i, cpu) :: l => match route l irq with Some c => Some c | None => if i =? irq then Some cpu else None end
  end.
(** The two registers of an interrupt: the vector, edge triggered and active
    high, for that processor; or masked. *)
Definition redir (r : option Z) (irq : Z) : Z * Z :=
  match r with
  | Some cpu => (T_IRQ0 + irq, u32 (Z.shiftl cpu 24))
  | None => (Z.lor INT_DISABLED (T_IRQ0 + irq), 0)
  end.
(** The redirection entries below [n] are those that [f] says. *)
Definition redirs (n : Z) (f : Z -> option Z) (g : gmap Z Z) : Prop := forall i, 0 <= i < n ->
  g !! (REG_TABLE + 2 * i) = Some (redir (f i) i).1 /\ g !! (REG_TABLE + 2 * i + 1) = Some (redir (f i) i).2.

(** What [picenable] and [ioapicenable] leave alone. *)
Definition pics_same (h h' : irqhw) : Prop := hw_master h' = hw_master h /\ hw_slave h' = hw_slave h.

Lemma masked_entry i : 0 <= i < 256 -> u32 (Z.lor INT_DISABLED (T_IRQ0 + i)) = Z.lor INT_DISABLED (T_IRQ0 + i).
Proof.
  intros Hi. unfold INT_DISABLED, T_IRQ0. assert (0 <= Z.lor 0x10000 (32 + i)) by (apply Z.lor_nonneg; lia).
  apply u32_small. split; [done|]. apply Z.log2_lt_cancel. rewrite Z.log2_lor by lia. change (Z.log2 (2 ^ 32)) with 32.
  apply Z.max_lub_lt; [done|]. apply Z.log2_lt_pow2; lia.
Qed.

Lemma two_entries (g g1 g2 : gmap Z Z) i lo hi : g1 = <[REG_TABLE + 2 * i := lo]> g -> g2 = <[REG_TABLE + 2 * i + 1 := hi]> g1 ->
  forall j, (g2 !! (REG_TABLE + 2 * j), g2 !! (REG_TABLE + 2 * j + 1)) =
    if decide (j = i) then (Some lo, Some hi) else (g !! (REG_TABLE + 2 * j), g !! (REG_TABLE + 2 * j + 1)).
Proof.
  intros -> -> j. destruct (decide (j = i)) as [-> |Hne].
  - by rewrite lookup_insert_eq, lookup_insert_ne, lookup_insert_eq by lia.
  - by rewrite !lookup_insert_ne by lia.
Qed.

Lemma ioapic_mask_ok n : forall i s, ds_ioapic s = IOAPIC -> 0 <= i -> i + Z.of_nat n <= 256 ->
  redirs i (fun _ => None) (hw_regs (hw (ds_bus s))) ->
  wp (ioapic_mask n i) (fun _ s' => exists d, s' = set_bus d s /\ pics_same (hw (ds_bus s)) (hw d) /\
    redirs (i + Z.of_nat n) (fun _ => None) (hw_regs (hw d))) s.
Proof.
  induction n as [|n IH]; intros i s Hi H0 H1 Hr; cbn [ioapic_mask].
  { wp_steps. exists (ds_bus s). rewrite Z.add_0_r. by destruct s. }
  wp_steps. eapply wp_mono; [apply ioapicwrite_ok; [done|unfold REG_TABLE; lia]|]. intros [] s1 (d1 & -> & M1 & S1 & R1). wp_steps.
  eapply wp_mono; [apply ioapicwrite_ok; [done|unfold REG_TABLE; lia]|]. intros [] s2 (d2 & -> & M2 & S2 & R2). cbn [set_bus ds_bus ds_ioapic] in *.
  pose proof (two_entries _ _ _ i _ _ R1 R2) as E. rewrite masked_entry in E by lia.
  eapply wp_mono; [apply IH; cbn [set_bus ds_bus ds_ioapic]; [done|lia|lia|]|].
  - intros j Hj. specialize (E j). destruct (decide (j = i)) as [-> |Hne]; injection E as -> ->; [done|]. apply Hr. lia.
  - intros [] s3 (d3 & -> & [M3 S3] & R3). exists d3. cbn [set_bus ds_bus] in *. split; [done|]. split; [split; congruence|].
    by replace (i + Z.of_nat (S n)) with (i + 1 + Z.of_nat n) by lia.
Qed.

Lemma ioapicinit_ok s : ismp (ds_mp s) = true -> let n := Z.land (Z.shiftr (io_reg (hw (ds_bus s)) REG_VER) 16) 0xff + 1 in
  wp ioapicinit (fun _ s' => same_vars s s' /\ ds_irqmask s' = ds_irqmask s /\ ds_ioapic s' = IOAPIC /\
    pics_same (hw (ds_bus s)) (hw (ds_bus s')) /\ redirs n (fun _ => None) (hw_regs (hw (ds_bus s')))) s.
Proof.
  intros Hmp n. unfold ioapicinit. wp_steps. rewrite Hmp. cbn [negb]. wp_steps.
  eapply wp_mono; [by apply ioapicread_ok|]. intros r s1 (d1 & -> & -> & M1 & S1 & R1). wp_steps.
  eapply wp_mono; [by apply ioapicread_ok|]. intros r s2 (d2 & -> & _ & M2 & S2 & R2). cbn [set_bus ds_bus ds_ioapic ds_uart ds_mp ds_irqmask] in *.
  assert (Hn : 0 < n <= 256).
  { unfold n. change 0xff with (Z.ones 8). rewrite Z.land_ones by lia. pose proof (Z.mod_pos_bound (Z.shiftr (io_reg (hw (ds_bus s)) REG_VER) 16) (2 ^ 8)). lia. }
  eapply wp_mono; [apply ioapic_mask_ok; cbn [ds_ioapic]; try done; fold n; try lia; intros i Hi; lia|].
  intros [] s3 (d3 & -> & [M3 S3] & R3). cbn [set_bus ds_bus ds_uart ds_mp ds_irqmask ds_ioapic] in *. fold n in R3. rewrite Z.add_0_l, Z2Nat.id in R3 by lia.
  split; [done|]. split; [done|]. split; [done|]. split; [split; congruence|done].
Qed.

(** *** Both *)

Definition clear_bit (m irq : Z) : Z := u16 (Z.land m (Z.lnot (Z.shiftl 1 irq))).
Record irq_inv (n : Z) (m : Z) (f : Z -> option Z) s : Prop := {
  iv_mask : ds_irqmask s = m;
  iv_pics : pics_ok m (hw (ds_bus s));
  iv_io : ismp (ds_mp s) = true -> ds_ioapic s = IOAPIC /\ redirs n f (hw_regs (hw (ds_bus s)))
}.

Lemma ioapicenable_ok n m f irq cpu s : irq_inv n m f s -> 0 <= irq < 16 ->
  wp (ioapicenable irq cpu) (fun _ s' => irq_inv n m (fun i => if irq =? i then Some cpu else f i) s' /\ same_vars s s') s.
Proof.
  intros [Hm Hp Hio] Hi. unfold ioapicenable. wp_steps. destruct (ismp (ds_mp s)) eqn:Emp; cbn [negb].
  2: { wp_steps. split; [|done]. split; [done|done|]. by rewrite Emp. }
  destruct (Hio eq_refl) as [Ha Hr]. wp_steps.
  eapply wp_mono; [apply ioapicwrite_ok; [done|unfold REG_TABLE; lia]|]. intros [] s1 (d1 & -> & M1 & S1 & R1). wp_steps.
  eapply wp_mono; [apply ioapicwrite_ok; [done|unfold REG_TABLE; lia]|]. intros [] s2 (d2 & -> & M2 & S2 & R2). cbn [set_bus ds_bus ds_ioapic] in *.
  pose proof (two_entries _ _ _ irq _ _ R1 R2) as E. rewrite (u32_small (T_IRQ0 + irq)) in E by (unfold T_IRQ0; lia).
  split; [|done]. split; cbn [set_bus ds_bus ds_ioapic ds_irqmask ds_mp]; [done| |].
  - unfold pics_ok. by rewrite M2, M1, S2, S1.
  - intros _. split; [done|]. intros j Hj. specialize (E j). destruct (Z.eqb_spec irq j) as [<-|Hne]; [rewrite decide_True in E by done|rewrite decide_False in E by done].
    + by injection E as -> ->.
    + injection E as -> ->. by apply Hr.
Qed.

Lemma picenable_ok n m f irq s : irq_inv n m f s ->
  wp (picenable irq) (fun _ s' => irq_inv n (clear_bit m irq) f s' /\ same_vars s s') s.
Proof.
  intros [Hm Hp Hio]. unfold picenable. wp_steps. eapply wp_mono; [by apply (picsetmask_ok _ _ m)|].
  intros [] s' (Hs & Hm' & Ha & Hp' & Hr). rewrite Hm in *. split; [|done]. split; [done|done|]. destruct Hs as [_ ->]. by rewrite Hr, Ha.
Qed.

Lemma enable_all_ok n l : forall m f s, irq_inv n m f s -> Forall (fun x => 0 <= x.1 < 16) l ->
  wp (enable_all l) (fun _ s' => irq_inv n (foldl clear_bit m l.*1) (fun i => match route l i with Some c => Some c | None => f i end) s' /\
    same_vars s s') s.
Proof.
  induction l as [|[irq cpu] l IH]; intros m f s HI Hl; cbn [enable_all]; [wp_steps; by split|].
  apply Forall_cons in Hl as [Hi Hl]. wp_steps. eapply wp_mono; [by apply picenable_ok|]. intros [] s1 [H1 V1]. wp_steps.
  eapply wp_mono; [by apply ioapicenable_ok|]. intros [] s2 [H2 V2]. eapply wp_mono; [by apply IH|].
  intros [] s3 [[A B C] V3]. split; [|destruct V1, V2, V3; split; congruence]. split; [done|done|]. intros Hmp. destruct (C Hmp) as [C1 C2]. split; [done|].
  intros i Hi'. destruct (C2 i Hi') as [-> ->]. cbn [route]. by destruct (route l i), (irq =? i).
Qed.

Lemma clear_bit_spec m irq k : 0 <= irq < 16 -> 0 <= k < 16 -> Z.testbit (clear_bit m irq) k = Z.testbit m k && negb (k =? irq).
Proof.
  intros Hi Hk. unfold clear_bit. change (u16 ?x) with (x mod 2 ^ 16). rewrite Z.mod_pow2_bits_low, Z.land_spec, Z.lnot_spec, Z.shiftl_1_l, Z.pow2_bits_eqb by lia.
  by rewrite (Z.eqb_sym irq k).
Qed.
Lemma clear_bits_spec (l : list (Z * Z)) m k : Forall (fun x => 0 <= x.1 < 16) l -> 0 <= k < 16 ->
  Z.testbit (foldl clear_bit m l.*1) k = Z.testbit m k && negb (bool_decide (k ∈ l.*1)).
Proof.
  intros Hl Hk. revert m. induction Hl as [|[i c] l Hi _ IH]; intros m; cbn [fmap list_fmap foldl fst].
  { rewrite bool_decide_eq_false_2 by apply not_elem_of_nil. by rewrite andb_true_r. }
  rewrite IH, clear_bit_spec by done. rewrite <- andb_assoc. f_equal. destruct (Z.eqb_spec k i) as [-> |Hne]; cbn [negb andb].
  - by rewrite bool_decide_eq_true_2 by left.
  - f_equal. apply bool_decide_ext. rewrite elem_of_cons. tauto.
Qed.

(** Whether the 8259As keep the interrupt from the processor. *)
Definition pic_masked (h : irqhw) (irq : Z) : bool :=
  if irq <? 8 then Z.testbit (pc_imr (hw_master h)) irq else Z.testbit (pc_imr (hw_slave h)) (irq - 8).

Lemma pic_masked_ok m h irq : pics_ok m h -> 0 <= irq < 16 -> pic_masked h irq = Z.testbit m irq.
Proof.
  intros [E1 E2] Hi. unfold pic_masked. rewrite E1, E2. cbn [pc_imr]. change (u8 ?x) with (x mod 2 ^ 8).
  destruct (Z.ltb_spec irq 8); rewrite Z.mod_pow2_bits_low by lia; [done|]. rewrite Z.shiftr_spec by lia. f_equal. lia.
Qed.

Lemma initial_mask k : 0 <= k < 16 -> Z.testbit 0xfffb k = negb (k =? 2).
Proof.
  intros Hk. assert (k = 0 \/ k = 1 \/ k = 2 \/ k = 3 \/ k = 4 \/ k = 5 \/ k = 6 \/ k = 7 \/ k = 8 \/ k = 9 \/ k = 10 \/ k = 11 \/ k = 12 \/ k = 13 \/ k = 14 \/ k = 15) as Hc by lia.
  repeat (destruct Hc as [-> |Hc]; [done|]). by subst.
Qed.

(** C32: once the controllers are initialised and the drivers have enabled their
    interrupts, in any order and for any processors, the 8259As deliver exactly
    these interrupts and that of the slave, from vector [T_IRQ0] on, and on a
    multiprocessor the I/O APIC sends exactly these, edge triggered, with the
    same vectors, to the processor asked for last; all others are masked. *)
Theorem irq_routing l s (n := Z.land (Z.shiftr (io_reg (hw (ds_bus s)) REG_VER) 16) 0xff + 1) :
  ds_irqmask s = 0xfffb -> Forall (fun x => 0 <= x.1 < 16) l ->
  wp (irq_setup l) (fun _ s' => let h := hw (ds_bus s') in
    pc_base (hw_master h) = T_IRQ0 /\ pc_base (hw_slave h) = T_IRQ0 + 8 /\
    (forall irq, 0 <= irq < 16 -> pic_masked h irq = negb ((irq =? IRQ_SLAVE) || bool_decide (irq ∈ l.*1))) /\
    (ismp (ds_mp s) = true -> redirs n (route l) (hw_regs h))) s.
Proof.
  intros Hm Hl. unfold irq_setup. wp_steps. eapply wp_mono; [by apply picinit_ok|]. intros [] s1 ([_ V1] & M1 & P1 & R1). wp_steps.
  assert (wp ioapicinit (fun _ s2 => irq_inv n 0xfffb (fun _ => None) s2 /\ ds_mp s2 = ds_mp s1) s1) as W.
  { destruct (ismp (ds_mp s1)) eqn:E.
    - eapply wp_mono; [by apply ioapicinit_ok|]. intros [] s2 ([_ V2] & M2 & A2 & [Pa Pb] & R2). split; [|done].
      split; [congruence| |]; [unfold pics_ok in *; by rewrite Pa, Pb|]. intros _. split; [done|]. unfold n. unfold io_reg in *. by rewrite <- R1.
    - unfold ioapicinit. wp_steps. rewrite E. cbn [negb]. wp_steps. split; [|done]. split; [done|done|congruence]. }
  eapply wp_mono; [exact W|]. intros [] s2 [HI V2]. eapply wp_mono; [by apply enable_all_ok|].
  intros [] s3 [[_ Hp Hio] [_ V3]]. cbv zeta. split; [by rewrite (proj1 Hp)|]. split; [by rewrite (proj2 Hp)|]. split.
  - intros irq Hi. rewrite (pic_masked_ok _ _ _ Hp Hi), clear_bits_spec, initial_mask by done. by rewrite negb_orb.
  - intros Hmp. destruct Hio as [_ Hr]; [congruence|]. intros i Hi. destruct (Hr i Hi) as [-> ->]. by destruct (route l i).
Qed.
End irq.

(** ** The real-time clock *)

Definition bcd_of (x : Z) : Z := x / 10 * 16 + x mod 10.
Lemma conv_bcd x : 0 <= x < 100 -> conv (bcd_of x) = x.
Proof.
  intros Hx. unfold conv, bcd_of. assert (H1 := Z.div_mod x 10 ltac:(lia)). assert (H2 := Z.mod_pos_bound x 10 ltac:(lia)).
  rewrite Z.shiftr_div_pow2 by lia. change 0xf with (Z.ones 4). rewrite Z.land_ones by lia. change (2 ^ 4) with 16.
  rewrite Z.div_add_l, (Z.add_comm (x / 10 * 16)), Z_mod_plus_full, (Z.div_small (x mod 10)), (Z.mod_small (x mod 10) 16) by lia. lia.
Qed.

Definition map_date (f : Z -> Z) (t : rtcdate) : rtcdate :=
  Rtcdate (f (second t)) (f (minute t)) (f (hour t)) (f (day t)) (f (month t)) (f (year t)).
Definition date_reg (t : rtcdate) (reg : Z) : option Z :=
  if reg =? 0x00 then Some (second t) else if reg =? 0x02 then Some (minute t) else if reg =? 0x04 then Some (hour t)
  else if reg =? 0x07 then Some (day t) else if reg =? 0x08 then Some (month t) else if reg =? 0x09 then Some (year t) else None.
Definition date_ok (t : rtcdate) : Prop := forall reg x, date_reg t reg = Some x -> 0 <= x < 100.

(** [rtc_ops] counts the accesses to the ports; [rtc_clock n] is the date, with
    two digits for the year, and [rtc_uip n] whether an update is in progress,
    at the [n]th. *)
Class RtcOk (D : Type) `{Bus D} := {
  rtc_ops : D -> nat;
  rtc_sel : D -> Z;
  rtc_clock : nat -> rtcdate;
  rtc_uip : nat -> bool;
  rtc_bcd : bool;
  rtc_enc : Z -> Z := fun x => if rtc_bcd then bcd_of x else x;
  rtc_outb : forall v d, let d' := bus_outb CMOS_PORT v d in rtc_ops d' = S (rtc_ops d) /\ rtc_sel d' = v;
  rtc_inb : forall d, let '(r, d') := bus_inb CMOS_RETURN d in rtc_ops d' = S (rtc_ops d) /\
    (forall x, date_reg (rtc_clock (rtc_ops d)) (rtc_sel d) = Some x -> r = rtc_enc x) /\
    (rtc_sel d = CMOS_STATA -> negb (Z.land r CMOS_UIP =? 0) = rtc_uip (rtc_ops d)) /\
    (rtc_sel d = CMOS_STATB -> (Z.land r (Z.shiftl 1 2) =? 0) = rtc_bcd);
  rtc_valid : forall n, date_ok (rtc_clock n)
}.

Section rtc.
Context {D : Type} `{Bus D} `{!RtcOk D}.
Implicit Types s : devs D.

Lemma cmos_read_ok reg s n : 0 <= reg < 256 -> rtc_ops (ds_bus s) = n ->
  wp (cmos_read reg) (fun r s' => exists d, s' = set_bus d s /\ rtc_ops d = (n + 2)%nat /\
    (forall x, date_reg (rtc_clock (n + 1)) reg = Some x -> r = rtc_enc x) /\
    (reg = CMOS_STATA -> negb (Z.land r CMOS_UIP =? 0) = rtc_uip (n + 1)) /\
    (reg = CMOS_STATB -> (Z.land r (Z.shiftl 1 2) =? 0) = rtc_bcd)) s.
Proof.
  intros Hr <-. unfold cmos_read, outb. wp_steps. unfold inb, wp. cbn [set_bus ds_bus]. rewrite u8_small by done.
  destruct (rtc_outb reg (ds_bus s)) as [E1 E2]. set (d1 := bus_outb _ _ _) in *. pose proof (rtc_inb d1) as L.
  destruct (bus_inb CMOS_RETURN d1) as [r d2]. destruct L as (L1 & L2 & L3 & L4). rewrite E1, E2 in *. exists d2.
  replace (rtc_ops (ds_bus s) + 1)%nat with (S (rtc_ops (ds_bus s))) by lia. repeat split; try done. lia.
Qed.

(** Each field is read at its own time. *)
Definition fill_at (n : nat) : rtcdate := map_date rtc_enc (Rtcdate (second (rtc_clock (n + 1))) (minute (rtc_clock (n + 3)))
  (hour (rtc_clock (n + 5))) (day (rtc_clock (n + 7))) (month (rtc_clock (n + 9))) (year (rtc_clock (n + 11)))).

Lemma fill_rtcdate_ok s n : rtc_ops (ds_bus s) = n ->
  wp fill_rtcdate (fun t s' => exists d, s' = set_bus d s /\ rtc_ops d = (n + 12)%nat /\ t = fill_at n) s.
Proof.
  intros Hn. unfold fill_rtcdate. wp_steps.
  eapply wp_mono; [by apply cmos_read_ok|]. intros r1 s1 (d1 & -> & O1 & V1 & _). wp_steps.
  eapply wp_mono; [by apply cmos_read_ok|]. intros r2 s2 (d2 & -> & O2 & V2 & _). wp_steps.
  eapply wp_mono; [by apply cmos_read_ok|]. intros r3 s3 (d3 & -> & O3 & V3 & _). wp_steps.
  eapply wp_mono; [by apply cmos_read_ok|]. intros r4 s4 (d4 & -> & O4 & V4 & _). wp_steps.
  eapply wp_mono; [by apply cmos_read_ok|]. intros r5 s5 (d5 & -> & O5 & V5 & _). wp_steps.
  eapply wp_mono; [by apply cmos_read_ok|]. intros r6 s6 (d6 & -> & O6 & V6 & _). wp_steps.
  exists d6. cbn [set_bus ds_bus] in *. split; [done|]. split; [lia|]. unfold fill_at, map_date. cbn [second minute hour day month year].
  rewrite <- !Nat.add_assoc in *. cbn [Nat.add] in *.
  by rewrite (V1 _ eq_refl), (V2 _ eq_refl), (V3 _ eq_refl), (V4 _ eq_refl), (V5 _ eq_refl), (V6 _ eq_refl).
Qed.

(** The date changes at most once during 26 accesses, which is one round. *)
Definition slow : Prop := forall n, exists k,
  (forall i, (i < k)%nat -> rtc_clock (n + i) = rtc_clock n) /\ (forall i, (k <= i <= 26)%nat -> rtc_clock (n + i) = rtc_clock (n + 26)).
(** Some time later nothing changes for 52 accesses. *)
Definition quiet (q : nat) : Prop := forall i, (i <= 52)%nat -> rtc_clock (q + i) = rtc_clock q /\ rtc_uip (q + i) = false.

Lemma fill_const n t : (forall i, (1 <= i <= 11)%nat -> rtc_clock (n + i) = t) -> fill_at n = map_date rtc_enc t.
Proof. intros E. unfold fill_at. rewrite !E by lia. by destruct t. Qed.

(** Two equal readings are not torn. *)
Lemma untorn n : slow -> fill_at n = fill_at (n + 14) -> fill_at n = map_date rtc_enc (rtc_clock n) \/ fill_at n = map_date rtc_enc (rtc_clock (n + 26)).
Proof.
  intros Hs E. destruct (Hs n) as (k & H1 & H2). destruct (decide (12 <= k)%nat).
  - left. apply fill_const. intros i Hi. apply H1. lia.
  - right. rewrite E. apply fill_const. intros i Hi. rewrite <- Nat.add_assoc. apply H2. lia.
Qed.

Lemma cmos_loop_ok fuel : forall s n q, slow -> quiet q -> rtc_ops (ds_bus s) = n -> (n <= q + 26)%nat -> (1 <= fuel)%nat -> (q + 14 <= n + 14 * fuel)%nat ->
  wp (cmos_loop fuel) (fun r s' => exists d m, s' = set_bus d s /\ (n <= m <= rtc_ops d)%nat /\ r = Some (map_date rtc_enc (rtc_clock m))) s.
Proof.
  induction fuel as [|fuel IH]; intros s n q Hs Hq Hn Hnq Hf Hb; [lia|]. cbn [cmos_loop]. wp_steps.
  eapply wp_mono; [by apply fill_rtcdate_ok|]. intros t1 s1 (d1 & -> & O1 & ->). wp_steps.
  eapply wp_mono; [by apply cmos_read_ok|]. intros a s2 (d2 & -> & O2 & _ & U & _). rewrite (U eq_refl). cbn [set_bus ds_bus] in *.
  assert (Hgo : forall d n', rtc_ops d = n' -> (n < q)%nat -> (n + 14 <= n' <= n + 26)%nat ->
    wp (cmos_loop fuel) (fun r s' => exists d m, s' = set_bus d s /\ (n <= m <= rtc_ops d)%nat /\ r = Some (map_date rtc_enc (rtc_clock m))) (set_bus d s)).
  { intros d n' En Hlt Hn'. eapply wp_mono; [apply (IH _ n' q); try done; lia|]. intros r s' (d' & m & -> & Hm & ->). exists d', m. split; [done|]. split; [lia|done]. }
  destruct (rtc_uip (n + 12 + 1)) eqn:EU.
  { apply (Hgo d2 (n + 14)%nat); [lia| |lia]. destruct (decide (n < q)%nat); [done|]. destruct (Hq (n + 13 - q)%nat ltac:(lia)) as [_ E].
    replace (q + (n + 13 - q))%nat with (n + 12 + 1)%nat in E by lia. congruence. }
  wp_steps. eapply wp_mono; [by apply fill_rtcdate_ok|]. intros t2 s3 (d3 & -> & O3 & ->). cbn [set_bus ds_bus] in *. replace (n + 12 + 2)%nat with (n + 14)%nat in * by lia.
  destruct (bool_decide_reflect (fill_at n = fill_at (n + 14))) as [E|E].
  - wp_steps. destruct (untorn n Hs E) as [-> | ->]; [exists d3, n|exists d3, (n + 26)%nat]; repeat split; lia || done.
  - apply (Hgo d3 (n + 26)%nat); [lia| |lia]. destruct (decide (n < q)%nat); [done|]. exfalso. apply E.
    rewrite (fill_const n (rtc_clock q)), (fill_const (n + 14) (rtc_clock q)); [done| |].
    + intros i Hi. destruct (Hq (n + 14 + i - q)%nat ltac:(lia)) as [<- _]. f_equal. lia.
    + intros i Hi. destruct (Hq (n + i - q)%nat ltac:(lia)) as [<- _]. f_equal. lia.
Qed.

(** [cmostime] returns, and what it returns is the date the clock had at one
    moment during the call, whether or not the clock counts in BCD: the fields
    of two dates are never mixed.  The hypotheses: the date changes at most once
    during one round of the loop, and at some time neither the date nor the
    update flag changes for two rounds; the number of rounds is bounded by the
    time until then. *)
Theorem cmostime_snapshot s q fuel : slow -> quiet q -> (rtc_ops (ds_bus s) + 2 <= q)%nat -> (q + 12 <= 14 * fuel)%nat ->
  wp (cmostime fuel) (fun r s' => exists m, (rtc_ops (ds_bus s) <= m <= rtc_ops (ds_bus s'))%nat /\
    let t := rtc_clock m in r = Some (Rtcdate (second t) (minute t) (hour t) (day t) (month t) (2000 + year t))) s.
Proof.
  intros Hs Hq Hn Hf. unfold cmostime. wp_steps.
  eapply wp_mono; [by apply cmos_read_ok|]. intros sb s1 (d1 & -> & O1 & _ & _ & B). wp_steps. rewrite (B eq_refl). clear B.
  eapply wp_mono; [apply (cmos_loop_ok fuel _ (rtc_ops (ds_bus s) + 2) q); try done; lia|].
  intros r s2 (d2 & m & -> & Hm & ->). wp_steps. exists m. cbn [set_bus ds_bus fmap option_fmap option_map]. split; [lia|].
  pose proof (rtc_valid m) as V. cbv zeta. unfold rtc_enc.
  assert (Hy : u32 (year (rtc_clock m) + 2000) = 2000 + year (rtc_clock m)) by (pose proof (V 9 _ eq_refl); rewrite u32_small by lia; lia).
  destruct rtc_bcd; cbn [conv_date map_date second minute hour day month year]; [|by rewrite Hy].
  by rewrite (conv_bcd _ (V 0 _ eq_refl)), (conv_bcd _ (V 2 _ eq_refl)), (conv_bcd _ (V 4 _ eq_refl)), (conv_bcd _ (V 7 _ eq_refl)), (conv_bcd _ (V 8 _ eq_refl)), (conv_bcd _ (V 9 _ eq_refl)), Hy.
Qed.
End rtc.

(** ** A board

    With 24 inputs on the I/O APIC, and a clock in BCD that goes from 59 to the
    next minute at its twentieth access, between the two readings. *)
Record board := Board { bd_irq : irqhw; bd_ops : nat; bd_sel : Z }.
Definition bd_clock (n : nat) : rtcdate := if (n <? 20)%nat then Rtcdate 59 41 13 28 2 17 else Rtcdate 0 42 13 28 2 17.
Definition bd_uip (n : nat) : bool := (n =? 19)%nat.
Definition bd_cmos (n : nat) (sel : Z) : Z :=
  match date_reg (bd_clock n) sel with
  | Some x => bcd_of x
  | None => if sel =? CMOS_STATA then (if bd_uip n then 0x80 else 0) else 0x02
  end.

#[export] Instance board_bus : Bus board := {|
  bus_outb p v d := Board (irq_outb p v (bd_irq d)) (if p =? CMOS_PORT then S (bd_ops d) else bd_ops d) (if p =? CMOS_PORT then v else bd_sel d);
  bus_inb p d := if p =? CMOS_RETURN then (bd_cmos (bd_ops d) (bd_sel d), Board (bd_irq d) (S (bd_ops d)) (bd_sel d)) else (0, d);
  bus_write a v d := Board (irq_write a v (bd_irq d)) (bd_ops d) (bd_sel d);
  bus_read a d := (if a =? IOAPIC + 16 then io_reg (bd_irq d) (hw_sel (bd_irq d)) else 0, d)
|}.
#[export, refine] Instance board_irq : IrqHw board := {| hw := bd_irq |}.
Proof. all: try done. intros p d. cbn. by destruct (p =? CMOS_RETURN). Defined.

#[export, refine] Instance board_rtc : RtcOk board := {|
  rtc_ops := bd_ops; rtc_sel := bd_sel; rtc_clock := bd_clock; rtc_uip := bd_uip; rtc_bcd := true
|}.
Proof.
  - done.
  - intros d. cbn. unfold bd_cmos. split; [done|]. split; [by intros x -> |]. split; intros ->; [|done]. cbn. by destruct (bd_uip _).
  - intros n reg x. unfold date_reg, bd_clock. destruct (n <? 20)%nat; cbn; repeat (case_match; [by intros [= <-]|]); done.
Defined.

Definition board0 : devs board :=
  Devs (Board (Irqhw (Pic [] 0 0 0 0) (Pic [] 0 0 0 0) 0 {[ REG_VER := 0x170011 ]}) 0 0) 0xfffb 0 false (Mpstate [] true 2 0 0 []).

Lemma irq_routing_witness : wp (irq_setup [(IRQ_KBD, 0); (IRQ_COM1, 0); (IRQ_IDE, 1)]) (fun _ s' =>
  pic_masked (hw (ds_bus s')) IRQ_IDE = false /\ pic_masked (hw (ds_bus s')) 5 = true /\
  redirs 24 (route [(IRQ_KBD, 0); (IRQ_COM1, 0); (IRQ_IDE, 1)]) (hw_regs (hw (ds_bus s')))) board0.
Proof.
  eapply wp_mono; [apply (irq_routing [(IRQ_KBD, 0); (IRQ_COM1, 0); (IRQ_IDE, 1)] board0); [done|]|].
  - repeat (apply Forall_cons_2; [by split|]). by apply Forall_nil_2.
  - intros [] s' (_ & _ & Hp & Hr). split; [by rewrite Hp|]. split; [by rewrite Hp|]. exact (Hr eq_refl).
Defined.

Lemma board_slow : slow.
Proof.
  intros n. exists (20 - n)%nat. split; intros i Hi; cbn; unfold bd_clock.
  - by rewrite !(proj2 (Nat.ltb_lt _ _)) by lia.
  - by rewrite !(proj2 (Nat.ltb_ge _ _)) by lia.
Qed.
Lemma board_quiet : quiet 20.
Proof.
  intros i Hi. change (bd_clock (20 + i) = bd_clock 20 /\ bd_uip (20 + i) = false). unfold bd_clock, bd_uip. rewrite !(proj2 (Nat.ltb_ge _ _)) by lia. split; [done|]. apply Nat.eqb_neq. lia.
Qed.

Lemma cmostime_snapshot_witness : wp (cmostime 3) (fun r _ => exists m, r = Some (let t := bd_clock m in
  Rtcdate (second t) (minute t) (hour t) (day t) (month t) (2000 + year t))) board0.
Proof.
  eapply wp_mono; [apply (cmostime_snapshot board0 20 3); [exact board_slow|exact board_quiet|cbn; lia|lia]|].
  intros r s' (m & _ & E). by exists m.
Defined.
