(* ===== verification/Main.v ===== *)
(** * Starting the kernel: main.c

    [main] on the whole machine, in the order of the source: the allocator, the
    kernel's page table, the processors, the devices, the buffer cache, the other
    processors and the first process.  What has no state in the model is left
    out: segment registers and interrupt descriptors, the locks, the messages;
    the disk's part of [ideinit] is in Ide.v.  [main] ends in [scheduler], which
    is in Proc.v.

    [entryother] is the code for the other processors, [mpenter] and
    [entrypgdir] are addresses the linker chose; [imcr] is what port 0x23 reads.
    Whether another processor comes up is the machine's doing: [ap_up]. *)

From S2P Require Import Prelude CString Bio Layout Blocks Log LogBlocks Fs Memory Kalloc Mp Vm Pipe Kern Exec Proc Syscall Devices.

Record machine (D : Type) := Machine { mc_kern : kern log; mc_devs : devs D; mc_kpgdir : Z }.
Arguments Machine {D}. Arguments mc_kern {D}. Arguments mc_devs {D}. Arguments mc_kpgdir {D}.
Definition set_kern {D} (k : kern log) (s : machine D) : machine D := Machine k (mc_devs s) (mc_kpgdir s).
Definition set_devs {D} (d : devs D) (s : machine D) : machine D := Machine (mc_kern s) d (mc_kpgdir s).

Section main.
Context {D : Type} `{Bus D} `{DevSw log}.
Context (kend kdata : Z) (entryother initcode : list Z) (mpenter entrypgdir : Z).
Context (mpfuel polls : nat) (imcr : Z) (ap_up : nat -> D -> bool).

Definition onk {A} (m : M (kern log) A) : M (machine D) A := zoom mc_kern set_kern m.
Definition ond {A} (m : M (devs D) A) : M (machine D) A := zoom mc_devs set_devs m.
Definition onmem {A} (m : M kmem A) : M (machine D) A := onk (onkm m).

(** [kpgdir = setupkvm(); switchkvm();] *)
Definition kvmalloc : M (machine D) unit :=
  let! pgdir := onmem (setupkvm kdata) in
  modify (fun s => Machine (mc_kern s) (mc_devs s) pgdir).

(** [mpinit] on the memory of the machine. *)
Definition mp_detect : M (machine D) unit := fun s =>
  let d := mc_devs s in
  match mpinit mpfuel (km_mem (k_kmem (mc_kern s))) imcr (ds_mp d) with
  | None => Blocked "mpinit"
  | Some mp => Ret tt (set_devs (Devs (ds_bus d) (ds_irqmask d) (ds_ioapic d) (ds_uart d) mp) s)
  end.

(** [cpunum()], which reads the identifier if there is a local APIC. *)
Definition this_cpu : M (devs D) Z :=
  let! s := get in
  if lapic (ds_mp s) =? 0 then ret 0
  else let! id := lapicr ID in zoom ds_mp (fun mp s => Devs (ds_bus s) (ds_irqmask s) (ds_ioapic s) (ds_uart s) mp) (cpunum id).

Definition consoleinit : M (devs D) unit := picenable IRQ_KBD ;;; ioapicenable IRQ_KBD 0.
Definition ideinit_irq : M (devs D) unit :=
  let! s := get in
  picenable IRQ_IDE ;;;
  ioapicenable IRQ_IDE (Z.of_nat (ncpu (ds_mp s)) - 1).

(** [wrv] is an array of two [ushort]. *)
Definition lapicstartap (apicid addr : Z) : M (machine D) unit :=
  ond ap_shutdown ;;;
  (let wrv := P2V (Z.lor (Z.shiftl 0x40 4) 0x67) in
   onmem (modify (fun s => set_mem s (store_bytes (km_mem s) wrv (0 :: 0 :: le_bytes 2 (Z.shiftr addr 4)))))) ;;;
  ond (ap_startup apicid addr).

Definition AP_CODE : Z := P2V 0x7000.
(** [for(c = cpus; c < cpus+ncpu; c++)], [n] processors from [c] on. *)
Fixpoint start_cpus (n : nat) (c : nat) : M (machine D) unit :=
  match n with
  | O => ret tt
  | S n =>
      let! me := ond this_cpu in
      (if Z.of_nat c =? me then ret tt
       else
         let! stack := onmem kalloc in
         onmem (poke32 (AP_CODE - 4) (u32 (stack + KSTACKSIZE))) ;;;
         onmem (poke32 (AP_CODE - 8) mpenter) ;;;
         onmem (poke32 (AP_CODE - 12) (V2P entrypgdir)) ;;;
         let! apicid := (let! s := get in the "cpus[]" (cpus (ds_mp (mc_devs s)) !! c)) in
         lapicstartap apicid (V2P AP_CODE) ;;;
         (fun s => if ap_up c (ds_bus (mc_devs s)) then Ret tt s else Blocked "startothers")) ;;;
      start_cpus n (Datatypes.S c)
  end.
Definition startothers : M (machine D) unit :=
  onmem (modify (fun s => set_mem s (store_bytes (km_mem s) AP_CODE entryother))) ;;;
  let! s := get in
  start_cpus (ncpu (ds_mp (mc_devs s))) 0.

Definition main : M (machine D) unit :=
  onmem (kinit1 kend kend (P2V (4 * 1024 * 1024))) ;;;
  kvmalloc ;;;
  mp_detect ;;;
  ond (lapicinit polls) ;;;
  let! _ := ond this_cpu in
  ond picinit ;;;
  ond ioapicinit ;;;
  ond consoleinit ;;;
  ond uartinit ;;;
  onk (modify (fun s => set_fs (set_bl (set_bio (binit (lg_bio (f_bl (k_fs s)))) (f_bl (k_fs s))) (k_fs s)) s)) ;;;
  ond ideinit_irq ;;;
  (let! s := get in when (negb (ismp (ds_mp (mc_devs s)))) (ond timerinit)) ;;;
  startothers ;;;
  onmem (kinit2 kend (P2V (4 * 1024 * 1024)) (P2V PHYSTOP)) ;;;
  onk (userinit kdata initcode).
End main.
