(* ===== verification/ProcRefine.v ===== *)
(** * The process operations run the table machine

    A forward simulation: whenever [fork], [exit], [wait], [kill], [yield],
    [sleep] or the scheduler returns, the process table has moved by steps of
    [ProcTable.pt_step].  Everything else these functions do (files, inodes,
    memory) leaves the fields the machine reads alone, or wakes sleepers. *)

From S2P Require Import Prelude CString Bio Layout Blocks Fs Memory Kalloc Vm Pipe Kern File Sysarg Sysfile Exec Proc ProcTable.

(** Entries keep their place in the tree and their identifier, and those not
    asleep their state. *)
Definition stable (l l' : list proc) : Prop :=
  length l' = length l /\
  forall k p, l !! k = Some p -> exists p', l' !! k = Some p' /\ p_parent p' = p_parent p /\ p_pid p' = p_pid p /\
    (p_state p <> SLEEPING -> p_state p' = p_state p).

Lemma stable_refl l : stable l l.
Proof. split; [done|]. intros k p Hk. by exists p. Qed.
Lemma stable_trans l1 l2 l3 : stable l1 l2 -> stable l2 l3 -> stable l1 l3.
Proof.
  intros [L1 H1] [L2 H2]. split; [congruence|]. intros k p Hk. destruct (H1 k p Hk) as (p2 & Hk2 & P2 & I2 & E2).
  destruct (H2 k p2 Hk2) as (p3 & ? & ? & ? & E3). exists p3. split_and!; try congruence.
  intros Hs. rewrite E3 by (rewrite E2; done). auto.
Qed.

Section sim.
Context {S : Type} `{BlockLayer S} `{DevSw S}.
Context (kend kdata : Z) (init : nat).
Implicit Types s : kern S.

Definition tab s : ptab := (k_procs s, k_nextpid s).

(** What a computation that is transparent to the table does. *)
Record kept s s' : Prop := {
  kp_steps : rtc (pt_step init) (tab s) (tab s');
  kp_stable : stable (k_procs s) (k_procs s');
  kp_self : k_self s' = k_self s;
  kp_init : k_initproc s' = k_initproc s;
}.
Definition sim {A} (m : M (kern S) A) : Prop := forall s a s', m s = Ret a s' -> kept s s'.

Lemma kept_refl s : kept s s.
Proof. split; try done. apply stable_refl. Qed.
Lemma kept_trans s1 s2 s3 : kept s1 s2 -> kept s2 s3 -> kept s1 s3.
Proof.
  intros [? ? ? ?] [? ? ? ?]. split; [by etransitivity | by eapply stable_trans | congruence | congruence].
Qed.

Lemma sim_ret {A} (a : A) : sim (ret a).
Proof. intros s b s' [= <- <-]. apply kept_refl. Qed.
Lemma sim_bind {A B} (m : M (kern S) A) (k : A -> M (kern S) B) : sim m -> (forall a, sim (k a)) -> sim (bind m k).
Proof.
  intros Hm Hk s b s'. unfold bind. destruct (m s) as [a s1| | |] eqn:E; try done. intros E'.
  eapply kept_trans; [by eapply Hm | by eapply Hk].
Qed.
Lemma sim_panic {A} msg : sim (panic (A := A) msg).
Proof. done. Qed.
Lemma sim_undef {A} msg : sim (undef (A := A) msg).
Proof. done. Qed.
Lemma sim_blocked {A} msg : sim (blocked (A := A) msg).
Proof. done. Qed.
Lemma sim_get : sim get.
Proof. intros s b s' [= <- <-]. apply kept_refl. Qed.
Lemma sim_the {A} w (o : option A) : sim (the w o).
Proof. destruct o; [apply sim_ret | done]. Qed.
Lemma sim_when c m : sim m -> sim (when c m).
Proof. destruct c; [done | intros _; apply sim_ret]. Qed.

(** An update that leaves the process table, the current process and [init]
    alone. *)
Lemma sim_modify (g : kern S -> kern S) :
  (forall s, k_procs (g s) = k_procs s /\ k_nextpid (g s) = k_nextpid s /\ k_self (g s) = k_self s /\ k_initproc (g s) = k_initproc s) ->
  sim (modify g).
Proof.
  intros Hg s [] s' [= <-]. destruct (Hg s) as (E1 & E2 & E3 & E4). split; [|rewrite E1; apply stable_refl | done | done].
  unfold tab. by rewrite E1, E2.
Qed.
Lemma sim_onfs {A} (m : M (fs S) A) : sim (onfs m).
Proof. intros s a s'. unfold onfs, zoom. destruct (m (k_fs s)); try done. intros [= <- <-]. split; try done. apply stable_refl. Qed.
Lemma sim_onkm {A} (m : M kmem A) : sim (onkm m : M (kern S) A).
Proof. intros s a s'. unfold onkm, zoom. destruct (m (k_kmem s)); try done. intros [= <- <-]. split; try done. apply stable_refl. Qed.

Lemma alter_stable g k (l : list proc) : (forall p, same_core p (g p)) -> stable l (alter g k l).
Proof.
  intros Hg. split; [apply length_alter|]. intros j p Hj. destruct (decide (j = k)) as [->|].
  - exists (g p). split; [by rewrite list_lookup_alter_eq, Hj|]. by destruct (Hg p) as (? & ? & ? & ?).
  - exists p. by rewrite list_lookup_alter_ne.
Qed.

Lemma sim_modp k g : (forall p, same_core p (g p)) -> sim (modp k g).
Proof.
  intros Hg s [] s' [= <-]. split; try done.
  - apply rtc_once. by apply st_data.
  - by apply alter_stable.
Qed.

Lemma sim_wakeup c : sim (wakeup c).
Proof.
  intros s [] s' [= <-]. split; try done.
  - apply rtc_once, st_wakeup.
  - split; [apply length_wakeup1|]. intros k p Hk. cbn. rewrite wakeup1_lookup, Hk. eexists. split; [done|].
    case_bool_decide; cbn [andb]; [|done]. by case_bool_decide.
Qed.
End sim.

(** Decomposes a computation; what is left are updates of single fields. *)
Ltac sim_step :=
  match goal with
  | |- sim _ (bind _ _) => apply sim_bind; [|intros ?]
  | |- sim _ (ret _) => apply sim_ret
  | |- sim _ (panic _) => apply sim_panic
  | |- sim _ (undef _) => apply sim_undef
  | |- sim _ (blocked _) => apply sim_blocked
  | |- sim _ get => apply sim_get
  | |- sim _ (the _ _) => apply sim_the
  | |- sim _ (when _ _) => apply sim_when
  | |- sim _ (onfs _) => apply sim_onfs
  | |- sim _ (onkm _) => apply sim_onkm
  | |- sim _ (wakeup _) => apply sim_wakeup
  | |- sim _ (modify _) => apply sim_modify; by intros ?
  | |- sim _ (modp _ _) => apply sim_modp; by intros ?
  | |- sim _ (if ?b then _ else _) => destruct b
  | |- sim _ (match ?x with _ => _ end) => destruct x
  | |- sim _ (let '(_, _) := ?x in _) => destruct x
  end.
Ltac sim_auto := repeat sim_step.

Section ops.
Context {S : Type} `{BlockLayer S} `{DevSw S}.
Context (kend kdata : Z) (init : nat).
Implicit Types s : kern S.

Lemma sim_getf f : sim init (getf (S := S) f).
Proof. unfold getf. sim_auto. Qed.
Lemma sim_modf f g : sim init (modf (S := S) f g).
Proof. unfold modf. sim_auto. Qed.
Lemma sim_getp k : sim init (getp (S := S) k).
Proof. unfold getp. sim_auto. Qed.
Lemma sim_self : sim init (self (S := S)).
Proof. unfold self. sim_auto. apply sim_getp. Qed.
Lemma sim_modself g : (forall p, same_core p (g p)) -> sim init (modself (S := S) g).
Proof. intros Hg. unfold modself. sim_step; [sim_auto | by apply sim_modp]. Qed.
Lemma sim_fdclear fd : sim init (fdclear (S := S) fd).
Proof. apply sim_modself. by intros ?. Qed.
Lemma sim_cwd_of : sim init (cwd_of (S := S)).
Proof. unfold cwd_of. sim_step; [apply sim_self | sim_auto]. Qed.

Lemma sim_filedup f : sim init (filedup (S := S) f).
Proof. unfold filedup. sim_step; [apply sim_getf | sim_auto; apply sim_modf]. Qed.

Lemma sim_pipeclose pp w : sim init (pipeclose (S := S) kend pp w).
Proof. unfold pipeclose, pipe_at, pipe_put. sim_auto. Qed.

Lemma sim_fileclose f : sim init (fileclose (S := S) kend f).
Proof. unfold fileclose. sim_step; [apply sim_getf|]. sim_auto; try apply sim_modf. apply sim_pipeclose. Qed.

Lemma sim_close_files n fd : sim init (close_files (S := S) kend n fd).
Proof.
  revert fd. induction n as [|n IH]; intros fd; cbn [close_files]; [sim_auto|].
  sim_step; [apply sim_self|]. destruct (p_ofile a !! fd) as [[f|]|]; try apply IH.
  sim_step; [apply sim_fileclose|]. sim_step; [apply sim_fdclear | apply IH].
Qed.

Lemma sim_dup_files l i np : sim init (dup_files (S := S) l i np).
Proof.
  revert i. induction l as [|[f|] l IH]; intros i; cbn [dup_files]; [sim_auto | | apply IH].
  sim_step; [apply sim_filedup|]. sim_step; [sim_auto | apply IH].
Qed.
End ops.

(** ** The operations *)

Section refine.
Context {S : Type} `{BlockLayer S} `{DevSw S}.
Context (kend kdata : Z) (init : nat).
Implicit Types s : kern S.

Definition running s : Prop := exists p, k_procs s !! k_self s = Some p /\ p_state p = RUNNING.

Lemma kept_running s s' : kept init s s' -> running s -> running s'.
Proof.
  intros [_ [_ Hs] He _] (p & Hp & E). destruct (Hs _ _ Hp) as (p' & ? & _ & _ & Hst).
  exists p'. rewrite He, Hst by congruence. done.
Qed.

Lemma self_inv s p s' : self s = Ret p s' -> s' = s /\ k_procs s !! k_self s = Some p.
Proof.
  unfold self, getp, bind, get, the. destruct (k_procs s !! k_self s) eqn:E; try done. unfold ret. by intros [= <- <-].
Qed.
Lemma getp_inv k s p s' : getp k s = Ret p s' -> s' = s /\ k_procs s !! k = Some p.
Proof. unfold getp, bind, get, the. destruct (k_procs s !! k) eqn:E; try done. unfold ret. by intros [= <- <-]. Qed.

(** Splits a run at each [bind]. *)
Ltac run :=
  repeat match goal with
  | E : bind _ _ _ = Ret _ _ |- _ =>
      let a := fresh "a" in let t := fresh "t" in let E1 := fresh "E" in
      apply bind_inv in E as (a & t & E1 & E)
  | E : get _ = Ret _ _ |- _ => injection E as <- <-
  | E : ret _ _ = Ret _ _ |- _ => injection E as <- <-
  | E : modify _ _ = Ret _ _ |- _ => injection E as <- <-
  | E : self _ = Ret _ _ |- _ => let Hp := fresh "Hp" in apply self_inv in E as [-> Hp]
  | E : panic _ _ = Ret _ _ |- _ => discriminate E
  end.

(** [exit] closes files and drops its directory, then changes the table. *)
Lemma exit_split s r s' : running s -> k_initproc s = Some init -> exit kend s = Ret r s' ->
  r = Asleep /\ k_self s <> init /\ exists t p, kept init s t /\ k_procs t !! k_self s = Some p /\ p_state p = RUNNING /\
    s' = set_procs (exit_table (k_self s) (p_parent p) (Some init) (k_procs t)) t.
Proof.
  intros Hr Hi E. unfold exit in E. run. case_bool_decide as Hne; [done|].
  apply bind_inv in E as (a & t & E1 & E). pose proof (sim_close_files kend init _ _ _ _ _ E1) as K1.
  run. apply (sim_onfs init) in E0, E3, E4. apply (sim_cwd_of init) in E2. apply (sim_modself init) in E5; [|by intros ?].
  assert (K : kept init s t4) by eauto 8 using kept_trans.
  destruct (kept_running _ _ K Hr) as (p & Hp' & Hrun). rewrite Hp in Hp'. injection Hp' as <-.
  split; [done|]. split; [congruence|]. exists t4, a5. pose proof K as [_ _ K3 K4]. rewrite K3 in *. rewrite K4, Hi. done.
Qed.

Lemma exit_refines s r s' : running s -> k_initproc s = Some init -> exit kend s = Ret r s' -> rtc (pt_step init) (tab s) (tab s').
Proof.
  intros Hr Hi E. destruct (exit_split _ _ _ Hr Hi E) as (_ & Hne & t & p & K & Hp & Hs & ->).
  etransitivity; [apply K|]. apply rtc_once. by apply (st_exit init _ _ _ p).
Qed.

Lemma onkm_inv {A} (m : M kmem A) s a s' : onkm m s = Ret a s' -> exists k, s' = set_kmem k s.
Proof. unfold onkm, zoom. destruct (m (k_kmem s)); try done. intros [= <- <-]. eauto. Qed.

(** [sleep] of a running process on channel [c]. *)
Lemma sleep_inv c s r s' : sleep c s = Ret r s' ->
  s' = set_procs (alter (fun p => with_state SLEEPING (with_chan (Some c) p)) (k_self s) (k_procs s)) s.
Proof. unfold sleep, modself, modp, bind, get, modify, ret. by intros [= _ <-]. Qed.

Lemma wait_refines s r s' : running s -> wait kend s = Ret r s' -> rtc (pt_step init) (tab s) (tab s').
Proof.
  intros (p & Hp & Hrun) E. unfold wait in E. run. destruct (wait_scan _ _ _ _) as [j|b] eqn:Hsc.
  - run. apply onkm_inv in E1 as (k1 & ->). apply onkm_inv in E2 as (k2 & ->). apply getp_inv in E0 as [-> _]. unfold modp in E3.
    injection E3 as _ <-. apply rtc_once. by apply (st_wait_reap init _ _ (k_self s) p).
  - run. destruct (negb b || p_killed a) eqn:Hb; [by run|]. apply orb_false_iff in Hb as [Hb1 Hb2]. destruct b; [|done].
    apply sleep_inv in E as ->. apply rtc_once. rewrite Hp in Hp0. injection Hp0 as <-.
    by apply (st_wait_sleep init _ _ (k_self s) p).
Qed.

Lemma yield_refines s r s' : running s -> yield s = Ret r s' -> rtc (pt_step init) (tab s) (tab s').
Proof.
  intros (p & Hp & Hrun). unfold yield, modself, modp, bind, get, modify, ret. intros [= _ <-]. apply rtc_once.
  by apply (st_yield init _ _ _ p).
Qed.

Lemma kill_refines pid s r s' : kill pid s = Ret r s' -> rtc (pt_step init) (tab s) (tab s').
Proof.
  unfold kill. intros E. run. destruct (pid_scan _ _ _) as [k|] eqn:Hs; run; [|done]. unfold modp in E0. injection E0 as _ <-.
  apply rtc_once. by apply (st_kill init _ _ pid).
Qed.

Lemma next_runnable_Some l i k : next_runnable l i = Some k -> (i <= k)%nat /\ exists p, l !! (k - i)%nat = Some p /\ p_state p = RUNNABLE.
Proof.
  revert i. induction l as [|p l IH]; intros i; cbn [next_runnable]; [done|]. case_bool_decide.
  - intros [= ->]. rewrite Nat.sub_diag. split; [lia|]. by exists p.
  - intros Hn. apply IH in Hn as (? & q & Hq & ?). split; [lia|]. exists q. by replace (k - i)%nat with (Datatypes.S (k - Datatypes.S i)) by lia.
Qed.

Lemma scheduler_refines i s r s' : scheduler i s = Ret r s' -> rtc (pt_step init) (tab s) (tab s').
Proof.
  unfold scheduler. intros E. run. destruct (next_runnable _ _) as [k|] eqn:Hn; run; [|done].
  apply next_runnable_Some in Hn as (Hik & p & Hp & Hrun). rewrite lookup_drop in Hp. replace (i + (k - i))%nat with k in Hp by lia.
  unfold switchuvm in E1. cbn in E1. rewrite Hp in E1. repeat (destruct (_ =? 0) in E1; [done|]). injection E1 as _ <-.
  unfold modp in E2. injection E2 as _ <-. apply rtc_once. by apply (st_schedule init _ _ _ p).
Qed.
Definition embryo (np : nat) s : Prop := exists c, k_procs s !! np = Some c /\ p_state c = EMBRYO.

Lemma kept_embryo np s s' : kept init s s' -> embryo np s -> embryo np s'.
Proof.
  intros [_ [_ Hs] _ _] (c & Hc & E). destruct (Hs _ _ Hc) as (c' & ? & _ & _ & Hst). exists c'. rewrite Hst by congruence. done.
Qed.

Lemma allocproc_refines s r s' : running s -> 0 <= k_nextpid s < 2 ^ 31 - 1 -> allocproc s = Ret r s' ->
  rtc (pt_step init) (tab s) (tab s') /\ running s' /\ k_self s' = k_self s /\ match r with Some np => embryo np s' | None => True end.
Proof.
  intros (me & Hme & Hrun) Hn E. unfold allocproc in E. run. destruct (unused_scan _ _) as [k|] eqn:Hu; [|run; by split_and!; [|exists me|..]].
  pose proof (unused_scan_Some _ _ _ Hu) as (_ & u & Hk & Hus). rewrite Nat.sub_0_r in Hk.
  assert (Hks : k_self s <> k) by congruence.
  run. unfold modp in E0. injection E0 as _ <-. apply onkm_inv in E2 as (km & ->). unfold modp in E3. injection E3 as _ <-.
  cbn in E. rewrite i32_small in E by lia.
  match type of E with (if _ then _ else _) ?x = _ => set (t := x) in E end.
  assert (Hst : rtc (pt_step init) (tab s) (tab t)).
  { eapply rtc_l; [apply (st_alloc init _ _ k); [done | lia]|]. apply rtc_once. apply st_data. by intros ?. }
  assert (Hemb : embryo k t).
  { eexists. cbn. rewrite !list_lookup_alter_eq, Hk. cbn. done. }
  assert (Hrn : running t). { exists me. cbn. by rewrite !list_lookup_alter_ne by done. }
  match type of E with (if ?c then _ else _) _ = _ => destruct c end; run; [|done].
  unfold modp in E0. injection E0 as _ <-. split_and!; try done.
  - etransitivity; [exact Hst|]. apply rtc_once. destruct Hemb as (c & Hc & Hce). apply (st_unalloc init _ _ k c); [done | done | by intros ?].
  - exists me. cbn. by rewrite !list_lookup_alter_ne by done.
Qed.

Lemma fork_refines s r s' : running s -> 0 <= k_nextpid s < 2 ^ 31 - 1 -> fork kend kdata s = Ret r s' ->
  rtc (pt_step init) (tab s) (tab s').
Proof.
  intros Hr Hn E. unfold fork in E. apply bind_inv in E as (o & t & E1 & E).
  destruct (allocproc_refines _ _ _ Hr Hn E1) as (Hst & Hrun & Hself & Hemb). clear E1.
  destruct o as [np|]; [|by run].
  apply bind_inv in E as (me & t1 & E1 & E). apply self_inv in E1 as [-> Hme].
  apply bind_inv in E as (s0 & t1 & E1 & E). injection E1 as <- <-.
  apply bind_inv in E as (d & t1 & E1 & E). apply (sim_onkm init) in E1.
  apply bind_inv in E as ([] & t2 & E2 & E). apply (sim_modp init) in E2; [|by intros ?].
  pose proof (kept_trans _ _ _ _ E1 E2) as K. clear E1 E2. etransitivity; [exact Hst|].
  destruct (d =? 0).
  - apply bind_inv in E as (c0 & t3 & E1 & E). apply getp_inv in E1 as [-> _].
    apply bind_inv in E as (u & t3 & E1 & E). apply (sim_onkm init) in E1. pose proof (kept_trans _ _ _ _ K E1) as K'.
    run. unfold modp in E0. injection E0 as _ <-. destruct (kept_embryo np _ _ K' Hemb) as (c & Hc & Hce).
    etransitivity; [apply K'|]. apply rtc_once. apply (st_unalloc init _ _ np c); [done | done | by intros ?].
  - apply bind_inv in E as ([] & t3 & E1 & E). unfold modp in E1. injection E1 as <-.
    destruct (kept_embryo np _ _ K Hemb) as (c & Hc & Hce). destruct (kept_running _ _ K Hrun) as (q & Hq & Hqr).
    match type of E with _ ?x = _ => set (t3 := x) in E end.
    assert (Hst3 : pt_step init (tab t2) (tab t3)).
    { apply (st_parent init _ _ np c (k_self t2) q); [done.. |]. intros p. by rewrite (kp_self _ _ _ K). }
    assert (He3 : embryo np t3) by (eexists; cbn; rewrite list_lookup_alter_eq, Hc; cbn; done).
    apply bind_inv in E as (u1 & t4 & E4 & E). apply (sim_dup_files init) in E4.
    apply bind_inv in E as (cw & t5 & E5 & E). apply (sim_cwd_of init) in E5.
    apply bind_inv in E as (cw' & t6 & E6 & E). apply (sim_onfs init) in E6.
    apply bind_inv in E as (u2 & t7 & E7 & E). apply (sim_modp init) in E7; [|by intros ?].
    apply bind_inv in E as (u3 & t8 & E8 & E). apply (sim_modp init) in E8; [|by intros ?].
    apply bind_inv in E as (c9 & t9 & E9 & E). apply getp_inv in E9 as [-> _].
    assert (K3 : kept init t3 t8) by eauto 8 using kept_trans. destruct (kept_embryo np _ _ K3 He3) as (c8 & Hc8 & Hce8).
    run. unfold modp in E0. injection E0 as _ <-.
    etransitivity; [apply K|]. eapply rtc_l; [exact Hst3|]. etransitivity; [apply K3|]. apply rtc_once.
    by apply (st_ready init _ _ np c8).
Qed.
End refine.
