(* ===== verification/ProcTheorems.v ===== *)
(** * Theorems on processes

    The behaviour of the process operations, from the table machine of
    [ProcTable.v] and the simulation of [ProcRefine.v]. *)

From S2P Require Import Prelude CString Bio Layout Blocks Fs Memory Kalloc Vm Pipe Kern File Sysarg Sysfile Exec Proc ProcTable ProcRefine.

Section theorems.
Context {S : Type} {BL : BlockLayer S} {DS : DevSw S}.
Context (kend kdata : Z) (init : nat).
Implicit Types s : kern S.

(** The operations of proc.c that change the table. *)
Inductive pcall := C_fork | C_exit | C_wait | C_kill (pid : Z) | C_yield | C_schedule (i : nat).
Definition pcall_run (c : pcall) : M (kern S) unit :=
  match c with
  | C_fork => let! _ := fork kend kdata in ret tt
  | C_exit => let! _ := exit kend in ret tt
  | C_wait => let! _ := wait kend in ret tt
  | C_kill pid => let! _ := kill pid in ret tt
  | C_yield => let! _ := yield in ret tt
  | C_schedule i => let! _ := scheduler i in ret tt
  end.

Lemma pcall_refines c s s' : running s -> k_initproc s = Some init -> 0 <= k_nextpid s < 2 ^ 31 - 1 ->
  pcall_run c s = Ret tt s' -> rtc (pt_step init) (tab s) (tab s').
Proof.
  intros Hr Hi Hn E. destruct c; cbn [pcall_run] in E; apply bind_inv in E as (a & t & E & [= <-]);
    eauto using fork_refines, exit_refines, wait_refines, kill_refines, yield_refines, scheduler_refines.
Qed.

Lemma steps_ok t t' : rtc (pt_step init) t t' -> pt_ok init t -> pt_ok init t'.
Proof. intros Hr. induction Hr as [|x y z Hxy _ IH]; [done|]. eauto using pt_step_ok. Qed.

(** C4: each operation of proc.c moves the process table by steps of the
    abstract machine [pt_step], whatever it does to files, inodes and memory
    on the way, and so keeps its invariant. *)
Theorem process_calls_refine c s s' :
  running s -> k_initproc s = Some init -> 0 <= k_nextpid s < 2 ^ 31 - 1 -> pt_ok init (tab s) ->
  pcall_run c s = Ret tt s' -> rtc (pt_step init) (tab s) (tab s') /\ pt_ok init (tab s').
Proof using. intros Hr Hi Hn HP E. assert (Hst := pcall_refines _ _ _ Hr Hi Hn E). eauto using steps_ok. Qed.

(** C25: a process asleep in [wait] never has a zombie child: under any
    interleaving of the operations of all processes the wakeup of an exiting
    child, or of a zombie handed to [init], is not lost. *)
Theorem wait_no_lost_wakeup l n l' n' k p j c :
  pt_ok init (l, n) -> rtc (pt_step init) (l, n) (l', n') ->
  l' !! k = Some p -> p_state p = SLEEPING -> p_chan p = Some (WProc k) ->
  l' !! j = Some c -> p_parent c = Some k -> p_state c <> ZOMBIE.
Proof using.
  intros HP Hr Hk Hs Hc Hj Hpar. destruct (steps_ok _ _ Hr HP) as [Hw _ _]. by eapply (Hw k p j c).
Qed.

(** no two live processes ever have the same process identifier. *)
Theorem pids_distinct l n l' n' j k p q :
  pt_ok init (l, n) -> rtc (pt_step init) (l, n) (l', n') ->
  l' !! j = Some p -> l' !! k = Some q -> p_state p <> UNUSED -> p_state q <> UNUSED -> p_pid p = p_pid q -> j = k.
Proof using. intros HP Hr. destruct (steps_ok _ _ Hr HP) as [_ _ [_ Hd]]. apply Hd. Qed.

(** [exit] leaves the caller a zombie, hands its children to [init], and
    leaves every other process where it was in the tree. *)
Theorem exit_orphans_adopted s r s' :
  running s -> k_initproc s = Some init -> exit kend s = Ret r s' ->
  forall k p, k_procs s !! k = Some p -> exists p', k_procs s' !! k = Some p' /\ p_pid p' = p_pid p /\
    p_parent p' = (if decide (p_parent p = Some (k_self s)) then Some init else p_parent p) /\
    (k = k_self s -> p_state p' = ZOMBIE) /\
    (k <> k_self s -> p_state p <> SLEEPING -> p_state p' = p_state p).
Proof using.
  intros Hr Hi E k p Hk. destruct (exit_split _ _ _ _ _ Hr Hi E) as (_ & Hne & t & q & K & Hq & Hs & ->).
  destruct (kp_stable _ _ _ K) as [_ Hst]. destruct (Hst k p Hk) as (p1 & Hk1 & Hpar & Hpid & Hsame). cbn [k_procs set_procs].
  destruct (lookup_lt_is_Some_2 (exit_table (k_self s) (p_parent q) (Some init) (k_procs t)) k) as [p' Hp'].
  { unfold exit_table. rewrite length_alter, length_reparent, length_wakeup1. by apply lookup_lt_Some in Hk1. }
  exists p'. split; [done|]. apply exit_table_lookup in Hp' as (p2 & Hk2 & I2 & _ & P2 & S2); [|done].
  rewrite Hk1 in Hk2. injection Hk2 as <-. rewrite Hpar in P2. split_and!; [congruence | done | |].
  - intros ->. by rewrite decide_True in S2.
  - intros Hks Hnz. rewrite decide_False in S2 by done. destruct S2 as [[->|[E2 _]] _]; [auto|]. rewrite Hsame in E2; done.
Qed.

(** ** The scheduler's pass *)

(** The [m]-th process picked in a pass that stands at entry [i]; [ls m] is
    the table at that time. *)
Fixpoint pass_pick (ls : nat -> list proc) (m i : nat) : option nat :=
  match m with
  | O => next_runnable (drop i (ls O)) i
  | Datatypes.S m =>
      match next_runnable (drop i (ls O)) i with
      | Some k => pass_pick (fun x => ls (Datatypes.S x)) m (Datatypes.S k)
      | None => None
      end
  end.

Lemma next_runnable_least l i k p : l !! k = Some p -> p_state p = RUNNABLE ->
  exists j, next_runnable l i = Some j /\ (i <= j <= i + k)%nat.
Proof.
  revert i k. induction l as [|q l IH]; intros i k; [done|]. intros Hk Hs. cbn [next_runnable].
  case_bool_decide; [exists i; split; [done | lia]|]. destruct k as [|k]; [cbn in Hk; congruence|].
  destruct (IH (Datatypes.S i) k Hk Hs) as (j & ? & ?). exists j. split; [done | lia].
Qed.

(** the scheduler's pass over the table reaches every process that is
    runnable throughout: standing at entry [i] it picks process [k >= i]
    after at most [k - i] others, whatever the other processes do meanwhile. *)
Theorem scheduler_reaches ls i k :
  (forall m, exists p, ls m !! k = Some p /\ p_state p = RUNNABLE) -> (i <= k)%nat ->
  exists m, (m <= k - i)%nat /\ pass_pick ls m i = Some k.
Proof using.
  intros Hk. remember (k - i)%nat as d eqn:Hd. revert ls i Hk Hd. induction d as [d IH] using lt_wf_ind. intros ls i Hk Hd Hi.
  destruct (Hk O) as (p & Hp & Hs).
  destruct (next_runnable_least (drop i (ls O)) i (k - i) p) as (j & Hj & Hij); [by rewrite lookup_drop; replace (i + (k - i))%nat with k by lia | done|].
  destruct (decide (j = k)) as [->|Hne]; [by exists O; split; [lia|]|].
  destruct (IH (k - Datatypes.S j)%nat ltac:(lia) (fun x => ls (Datatypes.S x)) (Datatypes.S j)) as (m & Hm & E); [by intros; apply Hk | done | lia|].
  exists (Datatypes.S m). split; [lia|]. cbn. by rewrite Hj.
Qed.

(** ** A poisoned table entry *)

Lemma unused_scan_kill l i k : unused_scan (alter kill_one k l) i = unused_scan l i.
Proof.
  revert i k. induction l as [|p l IH]; intros i k; [done|]. destruct k as [|k]; cbn.
  - assert (p_state (kill_one p) = UNUSED <-> p_state p = UNUSED) as E
      by (unfold kill_one; cbn; case_bool_decide; cbn; split; congruence).
    by rewrite (bool_decide_ext _ _ E).
  - by rewrite IH.
Qed.

(** [kill(0)] succeeds on a table entry that no process uses, because
    such an entry has process identifier 0; the next process to get the entry
    is born killed. *)
Theorem kill_zero_poisons s k u :
  unused_scan (k_procs s) 0 = Some k -> pid_scan (k_procs s) 0 0 = Some k ->
  k_procs s !! k = Some u -> km_freelist (k_kmem s) <> 0 ->
  exists s1 s2 c, kill 0 s = Ret 0 s1 /\ allocproc s1 = Ret (Some k) s2 /\
    k_procs s2 !! k = Some c /\ p_state c = EMBRYO /\ p_killed c = true.
Proof using.
  intros Hu Hp Hk Hf. pose proof (unused_scan_Some _ _ _ Hu) as (_ & u' & Hk' & Hs). rewrite Nat.sub_0_r, Hk in Hk'. injection Hk' as <-.
  eexists _, _, _. split; [unfold kill, bind, get; by rewrite Hp|]. cbn. split.
  - unfold allocproc, bind, get, modp, modify. cbn. assert (unused_scan (alter kill_one k (k_procs s)) 0 = Some k) as ->.
    { by rewrite unused_scan_kill. }
    unfold onkm, zoom, kalloc, bind, gets, when, modify, ret. cbn. destruct (Z.eqb_spec (km_freelist (k_kmem s)) 0); [done|]. cbn.
    destruct (Z.eqb_spec (km_freelist (k_kmem s)) 0); [done|]. reflexivity.
  - cbn. rewrite !list_lookup_alter_eq, Hk. cbn. split; [reflexivity|]. split; [done|]. unfold kill_one. cbn. by rewrite bool_decide_eq_false_2 by congruence.
Qed.
End theorems.

(** ** Concrete runs

    A table with [init] (entry 0), a running process (entry 1) and its child,
    a zombie (entry 2).  The disk is never touched, so a block layer that does
    nothing will do. *)

#[local] Instance null_blocks : BlockLayer unit := {|
  bl_bread _ _ := ret O; bl_data _ _ := []; bl_store _ _ := ret tt; bl_log_write _ := ret tt;
  bl_brelse _ := ret tt; bl_begin_op := ret tt; bl_end_op := ret tt |}.
#[local] Instance null_devsw : DevSw unit := {| dev_read _ := None; dev_write _ := None |}.

Definition ex_dir_inode : inode := Inode ROOTDEV ROOTINO 2 false I_VALID T_DIR 0 0 1 0 (replicate 52 0).
Definition ex_proc (st : procstate) (pid : Z) (parent : option nat) : proc :=
  with_cwd (Some O) (with_kstack 0x80300000 (with_parent parent (with_pid pid (with_state st proc0)))).
Definition ex_table : list proc :=
  [with_chan (Some (WProc 0)) (ex_proc SLEEPING 1 None); ex_proc RUNNING 2 (Some O); ex_proc ZOMBIE 3 (Some 1%nat); proc0].
Definition ex_kern : kern unit :=
  Kern (Fs tt (SuperBlock 0 0 0 0 0 0 0) [ex_dir_inode]) [] ∅ ex_kmem ex_table 1 (Some O) 4 0 [] 0.

Lemma ex_running : running ex_kern.
Proof. by eexists. Qed.

Lemma ex_table_ok : pt_ok 0 (tab ex_kern).
Proof.
  split; cbn.
  - intros k p j c Hk [Hs Hc] Hj Hpar.
    repeat (destruct k as [|k]; [injection Hk as <-; try done|]); try done.
    repeat (destruct j as [|j]; [injection Hj as <-; done|]). done.
  - split; [by eexists|]. intros k p Hk. repeat (destruct k as [|k]; [injection Hk as <-; done|]). done.
  - split.
    + intros k p Hk Hu. repeat (destruct k as [|k]; [injection Hk as <-; cbn in *; done || lia|]). done.
    + intros j k p q Hj Hk Hu Hv E.
      repeat (destruct j as [|j]; [injection Hj as <-|]); try done;
        repeat (destruct k as [|k]; [injection Hk as <-; done|]); done.
Qed.

Lemma process_calls_refine_witness : exists s', pcall_run 0 0 C_exit ex_kern = Ret tt s' /\ pt_ok 0 (tab s').
Proof.
  destruct (pcall_run 0 0 C_exit ex_kern) as [[] s'| | |] eqn:E; try discriminate E. exists s'. split; [done|].
  apply (process_calls_refine 0 0 0 C_exit ex_kern s' ex_running eq_refl ltac:(cbn; lia) ex_table_ok E).
Defined.

Lemma wait_no_lost_wakeup_witness : p_state (ex_proc RUNNING 2 (Some O)) <> ZOMBIE.
Proof.
  apply (wait_no_lost_wakeup 0 ex_table 4 ex_table 4 0 (with_chan (Some (WProc 0)) (ex_proc SLEEPING 1 None)) 1 (ex_proc RUNNING 2 (Some O)));
    [apply ex_table_ok | apply rtc_refl | reflexivity..].
Defined.

Lemma pids_distinct_witness : 1%nat = 1%nat.
Proof.
  apply (pids_distinct 0 ex_table 4 ex_table 4 1 1 (ex_proc RUNNING 2 (Some O)) (ex_proc RUNNING 2 (Some O)));
    [apply ex_table_ok | apply rtc_refl | reflexivity | reflexivity | done | done | reflexivity].
Defined.

Lemma exit_orphans_adopted_witness : exists s' c, exit 0 ex_kern = Ret Asleep s' /\ k_procs s' !! 2%nat = Some c /\
  p_parent c = Some O.
Proof.
  destruct (exit 0 ex_kern) as [r s'| | |] eqn:E; try discriminate E.
  destruct (exit_orphans_adopted 0 0 ex_kern r s' ex_running eq_refl E 2 (ex_proc ZOMBIE 3 (Some 1%nat)) eq_refl) as (c & Hc & _ & Hp & _).
  exists s', c. split; [|by rewrite decide_True in Hp]. vm_compute in E. vm_compute. congruence.
Defined.

Lemma scheduler_reaches_witness : exists m, (m <= 1)%nat /\ pass_pick (fun _ => [proc0; ex_proc RUNNABLE 2 None]) m 0 = Some 1%nat.
Proof. apply (scheduler_reaches (fun _ => [proc0; ex_proc RUNNABLE 2 None]) 0 1); [by intros m; eexists | lia]. Defined.

Lemma kill_zero_poisons_witness : exists s1 s2 c, kill 0 ex_kern = Ret 0 s1 /\ allocproc s1 = Ret (Some 3%nat) s2 /\
  k_procs s2 !! 3%nat = Some c /\ p_state c = EMBRYO /\ p_killed c = true.
Proof. apply (kill_zero_poisons ex_kern 3 proc0); [reflexivity | reflexivity | reflexivity | discriminate]. Defined.
