(* ===== verification/VmEntries.v ===== *)
(** * Page-table entries

    The page tables of [Vm.v] read as one function from page numbers to
    entries.  [walkpgdir] never changes this function, also when it adds a
    page table; everything else in vm.c changes it one entry at a time. *)

From S2P Require Import Prelude CString Memory Kalloc Vm.
Import Kstring.

(** ** Arithmetic of addresses and entries *)

Lemma PDX_div va : 0 <= va < 2 ^ 32 -> PDX va = va / PGSIZE / 1024.
Proof.
  intros Hv. unfold PDX. rewrite Z.shiftr_div_pow2 by lia. change 0x3FF with (Z.ones 10). rewrite Z.land_ones by lia.
  rewrite Z.div_div by (unfold PGSIZE; lia). change (PGSIZE * 1024) with (2 ^ 22). apply Z.mod_small.
  split; [apply Z.div_pos; lia | apply Z.div_lt_upper_bound; lia].
Qed.
Lemma PTX_mod va : 0 <= va < 2 ^ 32 -> PTX va = (va / PGSIZE) mod 1024.
Proof.
  intros Hv. unfold PTX. rewrite Z.shiftr_div_pow2 by lia. change 0x3FF with (Z.ones 10). rewrite Z.land_ones by lia. done.
Qed.

Lemma lor_add a b n : 0 <= n -> a mod 2 ^ n = 0 -> 0 <= b < 2 ^ n -> Z.lor a b = a + b.
Proof.
  intros Hn Ha Hb. assert (Z.land a b = 0) as E.
  { apply Z.bits_inj'. intros i Hi. rewrite Z.land_spec, Z.bits_0. destruct (Z.ltb_spec i n).
    - rewrite <- (Z.mod_pow2_bits_low a n i), Ha, Z.bits_0 by lia. done.
    - rewrite <- (Z.mod_small b (2 ^ n)), Z.mod_pow2_bits_high, andb_false_r by lia. done. }
  rewrite Z.add_nocarry_lxor by done. symmetry. by apply Z.lxor_lor.
Qed.

(** An entry: the page at kernel address [v] with flags [f]. *)
Definition mk_pte (v f : Z) : Z := Z.lor (Z.lor (V2P v) f) PTE_P.
Definition present (e : Z) : bool := negb (Z.land e PTE_P =? 0).
Definition pte_page (e : Z) : Z := P2V (PTE_ADDR e).

Lemma PTE_ADDR_eq e : 0 <= e < 2 ^ 32 -> PTE_ADDR e = e - e mod PGSIZE.
Proof. apply page_mask. Qed.

Lemma P2V_V2P v : 0 <= v < 2 ^ 32 -> P2V (V2P v) = v.
Proof.
  intros Hv. unfold P2V, V2P. transitivity (((v - KERNBASE) mod 2 ^ 32 + KERNBASE) mod 2 ^ 32); [reflexivity|].
  rewrite Zplus_mod_idemp_l. replace (v - KERNBASE + KERNBASE) with v by lia. apply Z.mod_small. lia.
Qed.

Lemma lor_1 f : 0 <= f -> Z.lor f 1 = f + 1 - f mod 2.
Proof.
  intros Hf. pose proof (Z.mod_pos_bound f 2 ltac:(lia)). destruct (Z.eq_dec (f mod 2) 0) as [E|E].
  - rewrite (lor_add f 1 1), E by (done || lia). lia.
  - assert (f mod 2 = 1) as E1 by lia. assert (f = Z.lor (f - 1) 1) as Ef.
    { rewrite (lor_add (f - 1) 1 1); [lia | lia | | lia]. change (2 ^ 1) with 2. by rewrite Zminus_mod, E1. }
    rewrite Ef at 1. rewrite <- Z.lor_assoc, Z.lor_diag, <- Ef. lia.
Qed.

Lemma mk_pte_eq v f : KERNBASE <= v < 2 ^ 32 -> v mod PGSIZE = 0 -> 0 <= f < PGSIZE ->
  mk_pte v f = v - KERNBASE + Z.lor f 1 /\ 0 < Z.lor f 1 < PGSIZE.
Proof.
  unfold mk_pte, V2P, PTE_P, KERNBASE, PGSIZE. intros Hv Hm Hf. rewrite u32_small, <- Z.lor_assoc by lia.
  pose proof (Z.mod_pos_bound f 2 ltac:(lia)). pose proof (Z.div_mod f 2 ltac:(lia)).
  assert (0 < Z.lor f 1 < 4096) as Hb by (rewrite lor_1 by lia; lia).
  split; [|done]. apply (lor_add _ _ 12); [lia | | lia]. change (2 ^ 12) with 4096. rewrite Zminus_mod, Hm. done.
Qed.

Lemma present_mod e : present e = negb (e mod 2 =? 0).
Proof. unfold present, PTE_P. change 1 with (Z.ones 1). rewrite Z.land_ones by lia. done. Qed.

Lemma mk_pte_spec v f : KERNBASE <= v < 2 ^ 32 -> v mod PGSIZE = 0 -> 0 <= f < PGSIZE ->
  0 <= mk_pte v f < 2 ^ 32 /\ present (mk_pte v f) = true /\ pte_page (mk_pte v f) = v /\ PTE_FLAGS (mk_pte v f) = Z.lor f 1.
Proof.
  intros Hv Hm Hf. destruct (mk_pte_eq v f Hv Hm Hf) as [-> Hb]. unfold pte_page. set (g := Z.lor f 1) in *.
  assert ((v - KERNBASE + g) mod PGSIZE = g) as Emod.
  { pose proof (Z.div_mod v PGSIZE ltac:(unfold PGSIZE; lia)). rewrite Z.add_comm.
    replace (v - KERNBASE) with ((v / PGSIZE - KERNBASE / PGSIZE) * PGSIZE) by (change (KERNBASE / PGSIZE) with 524288; unfold KERNBASE, PGSIZE in *; lia).
    rewrite Z_mod_plus_full. apply Z.mod_small. lia. }
  assert (0 <= v - KERNBASE + g < 2 ^ 32) as Hr.
  { unfold KERNBASE, PGSIZE in *. pose proof (Z.div_mod v 4096). lia. }
  split_and!; [lia | lia | | |].
  - rewrite present_mod. rewrite <- (Z.mod_mod_divide _ PGSIZE 2), Emod by (by exists 2048). unfold g. rewrite lor_1 by lia.
    pose proof (Z.mod_pos_bound f 2 ltac:(lia)). pose proof (Z.div_mod f 2 ltac:(lia)).
    replace (f + 1 - f mod 2) with (1 + f / 2 * 2) by lia. by rewrite Z_mod_plus_full.
  - rewrite PTE_ADDR_eq, Emod by lia. unfold P2V. replace (v - KERNBASE + g - g + KERNBASE) with v by lia. apply u32_small. unfold KERNBASE in *. lia.
  - unfold PTE_FLAGS. change 0xFFF with (Z.ones 12). rewrite Z.land_ones by lia. exact Emod.
Qed.

Section entries.
Context (kend : Z) (Hend : KERNBASE < kend).

(** ** Page directories *)

(** The page directory [pd] has the page tables [dir], by directory index. *)
Definition pde_addr (pd i : Z) : Z := pd + 4 * i.
Record dir_ok (m : mem) (pd : Z) (dir : gmap Z Z) : Prop := {
  do_pd : page_ok kend pd;
  do_tab : forall i t, dir !! i = Some t -> 0 <= i < 1024 /\ page_ok kend t /\ t <> pd /\
    load32 m (pde_addr pd i) = mk_pte t (Z.lor PTE_W PTE_U);
  do_none : forall i, 0 <= i < 1024 -> dir !! i = None -> present (load32 m (pde_addr pd i)) = false;
  do_inj : forall i j t, dir !! i = Some t -> dir !! j = Some t -> i = j;
}.

(** The entry for page number [n], zero where there is no page table. *)
Definition entry (m : mem) (dir : gmap Z Z) (n : Z) : Z :=
  match dir !! (n / 1024) with
  | Some t => load32 m (t + 4 * (n mod 1024))
  | None => 0
  end.

Definition vpn_ok (n : Z) : Prop := 0 <= n < 2 ^ 20.

Lemma page_addr v i : page_ok kend v -> 0 <= i < 1024 -> u32 (v + 4 * i) = v + 4 * i /\ v <= v + 4 * i /\ v + 4 * i + 4 <= v + PGSIZE.
Proof.
  intros Hv Hi. destruct (page_ok_bounds kend Hend v Hv) as [H1 H2]. unfold KERNBASE, PHYSTOP, PGSIZE in *.
  rewrite u32_small by lia. lia.
Qed.

(** The hardware translates by these entries. *)
Lemma translate_entry m pd dir va : dir_ok m pd dir -> 0 <= va < 2 ^ 32 ->
  translate m pd va = if present (entry m dir (va / PGSIZE)) then Some (u32 (pte_page (entry m dir (va / PGSIZE)) + va mod PGSIZE)) else None.
Proof.
  intros Hd Hv. unfold translate, entry. rewrite PDX_div, PTX_mod by done. set (n := va / PGSIZE).
  assert (0 <= n < 2 ^ 20) as Hn by (unfold n, PGSIZE; split; [apply Z.div_pos; lia | apply Z.div_lt_upper_bound; lia]).
  assert (0 <= n / 1024 < 1024) as Hn1 by (split; [apply Z.div_pos; lia | apply Z.div_lt_upper_bound; lia]).
  pose proof (Z.mod_pos_bound n 1024 ltac:(lia)) as Hn2.
  destruct (page_addr pd (n / 1024) (do_pd _ _ _ Hd) Hn1) as [-> _]. fold (pde_addr pd (n / 1024)).
  destruct (dir !! (n / 1024)) as [t|] eqn:E.
  - destruct (do_tab _ _ _ Hd _ _ E) as (_ & Ht & _ & ->). destruct (page_ok_bounds kend Hend t Ht) as [H1 H2].
    destruct (mk_pte_spec t (Z.lor PTE_W PTE_U)) as (_ & Hp & Hpg & _);
      [unfold KERNBASE, PHYSTOP, PGSIZE in *; lia | apply Ht | change (0 <= 6 < 4096); lia |].
    unfold present in Hp. apply negb_true_iff in Hp. rewrite Hp. fold (pte_page (mk_pte t (Z.lor PTE_W PTE_U))). rewrite Hpg.
    destruct (page_addr t (n mod 1024) Ht Hn2) as [-> _]. unfold present. unfold pte_page. destruct (Z.land (load32 m (t + 4 * (n mod 1024))) PTE_P =? 0); reflexivity.
  - pose proof (do_none _ _ _ Hd _ Hn1 E) as Hp. unfold present in Hp. apply negb_false_iff in Hp. rewrite Hp. done.
Qed.

(** ** Ownership and frames *)

Definition in_page (v a : Z) : Prop := v <= a < v + PGSIZE.
Definition tabs (dir : gmap Z Z) : list Z := (map_to_list dir).*2.

(** Only the directory and its page tables may differ. *)
Definition pt_frame (pd : Z) (dir : gmap Z Z) (m m' : mem) : Prop :=
  forall a, ~ in_page pd a -> (forall i t, dir !! i = Some t -> ~ in_page t a) -> m' a = m a.

(** The allocator with free list [l], and the directory with its tables
    outside of it. *)
Record aspace (s : kmem) (l : list Z) (pd : Z) (dir : gmap Z Z) : Prop := {
  as_kinv : kinv kend s l;
  as_dir : dir_ok (km_mem s) pd dir;
  as_pd : pd ∉ l;
  as_tabs : forall i t, dir !! i = Some t -> t ∉ l;
}.

Lemma pt_frame_refl pd dir m : pt_frame pd dir m m.
Proof. done. Qed.
Lemma pt_frame_trans pd dir dir' m1 m2 m3 : dir ⊆ dir' -> pt_frame pd dir m1 m2 -> pt_frame pd dir' m2 m3 -> pt_frame pd dir' m1 m3.
Proof.
  intros Hd H12 H23 a Hp Ht. rewrite H23, H12; [done | done | | done | done]. intros i t Hi. apply (Ht i). by eapply lookup_weaken.
Qed.

Lemma page_disjoint v w a : page_ok kend v -> page_ok kend w -> v <> w -> in_page v a -> ~ in_page w a.
Proof. intros [Hv _] [Hw _] Hne Ha Hb. unfold in_page in *. destruct (mod_page_gap v w Hv Hw Hne); lia. Qed.

Lemma vpn_split n : vpn_ok n -> 0 <= n / 1024 < 1024 /\ 0 <= n mod 1024 < 1024.
Proof.
  unfold vpn_ok. intros Hn. pose proof (Z.mod_pos_bound n 1024 ltac:(lia)). pose proof (Z.div_mod n 1024 ltac:(lia)). lia.
Qed.
Lemma vpn_range va : 0 <= va < 2 ^ 32 -> vpn_ok (va / PGSIZE).
Proof. intros Hv. unfold vpn_ok, PGSIZE. split; [apply Z.div_pos; lia | apply Z.div_lt_upper_bound; lia]. Qed.

(** Entries depend only on the page tables. *)
Lemma entry_ext m m' pd dir n : dir_ok m pd dir -> vpn_ok n -> (forall i t, dir !! i = Some t -> same_on t PGSIZE m m') ->
  entry m' dir n = entry m dir n.
Proof.
  intros Hd Hn Hs. unfold entry. destruct (dir !! (n / 1024)) as [t|] eqn:E; [|done].
  destruct (do_tab _ _ _ Hd _ _ E) as (_ & Ht & _). destruct (vpn_split n Hn) as [_ Hn2].
  destruct (page_addr t (n mod 1024) Ht Hn2) as (_ & H1 & H2). destruct (page_ok_bounds kend Hend t Ht).
  unfold KERNBASE, PHYSTOP, PGSIZE in *. apply load32_ext; [lia | lia |]. intros a Ha. apply (Hs _ _ E). unfold PGSIZE. lia.
Qed.

Lemma dir_ok_ext m m' pd dir : dir_ok m pd dir -> same_on pd PGSIZE m m' -> dir_ok m' pd dir.
Proof.
  intros Hd Hs. assert (forall i, 0 <= i < 1024 -> load32 m' (pde_addr pd i) = load32 m (pde_addr pd i)) as E.
  { intros i Hi. destruct (page_addr pd i (do_pd _ _ _ Hd) Hi) as (_ & H1 & H2). destruct (page_ok_bounds kend Hend pd (do_pd _ _ _ Hd)).
    unfold pde_addr, KERNBASE, PHYSTOP, PGSIZE in *. apply load32_ext; [lia | lia |]. intros a Ha. apply Hs. unfold PGSIZE. lia. }
  destruct Hd as [H1 H2 H3 H4]. split; [done | | | done].
  - intros i t Hi. destruct (H2 i t Hi) as (? & ? & ? & ?). rewrite E by done. done.
  - intros i Hi Hn. rewrite E by done. by apply H3.
Qed.

(** Memory after a page [v] is cleared and a word in page [pd] is written. *)
Lemma clear_store_mem m v pd i e : page_ok kend v -> page_ok kend pd -> v <> pd -> 0 <= i < 1024 ->
  let m' := store32 (memset v 0 PGSIZE m) (pde_addr pd i) e in
  (forall a, in_page v a -> m' a = 0) /\
  (forall a, ~ in_page v a -> ~ in_page pd a -> m' a = m a) /\
  load32 m' (pde_addr pd i) = u32 e /\
  (forall j, 0 <= j < 1024 -> j <> i -> load32 m' (pde_addr pd j) = load32 m (pde_addr pd j)).
Proof.
  intros Hv Hpd Hne Hi. cbv zeta. destruct (page_addr pd i Hpd Hi) as (_ & H1 & H2). fold (pde_addr pd i) in H1, H2.
  destruct (page_ok_bounds kend Hend v Hv) as [Hv1 Hv2]. destruct (page_ok_bounds kend Hend pd Hpd) as [Hp1 Hp2].
  assert (forall a, memset v 0 PGSIZE m a = if (v <=? a) && (a <? v + PGSIZE) then 0 else m a) as Hms.
  { intros a. rewrite memset_correct by (unfold KERNBASE, PHYSTOP, PGSIZE in *; lia). done. }
  assert (forall a, in_page pd a -> ~ in_page v a) as Hdis by (intros a Ha; apply (page_disjoint pd v); auto).
  unfold KERNBASE, PHYSTOP in *. unfold in_page in *. split_and!.
  - intros a Ha. rewrite store32_other, Hms by (first [lia | destruct (Z.ltb_spec a (pde_addr pd i)); [lia | right; destruct (Z.ltb_spec a (pde_addr pd i + 4)); [exfalso; apply (Hdis a); lia | lia]]]).
    zb; simpl; try lia; done.
  - intros a Ha Hb. rewrite store32_other, Hms by (unfold PGSIZE in *; lia). zb; simpl; try lia; done.
  - apply load32_store32; unfold PGSIZE in *; lia.
  - intros j Hj Hji. destruct (page_addr pd j Hpd Hj) as (_ & H3 & H4). unfold pde_addr in *.
    rewrite load32_store32_ne by (unfold PGSIZE in *; lia). apply load32_ext; [unfold PGSIZE in *; lia.. |].
    intros a Ha. rewrite Hms. destruct (Z.leb_spec v a), (Z.ltb_spec a (v + PGSIZE)); cbn [andb]; try done. exfalso. apply (Hdis a); lia.
Qed.

(** A page table taken from the free list, cleared and entered. *)
Lemma new_table s l pd dir n v : aspace s (v :: l) pd dir -> vpn_ok n -> dir !! (n / 1024) = None ->
  let m := store32 (memset v 0 PGSIZE (km_mem s)) (pde_addr pd (n / 1024)) (mk_pte v (Z.lor PTE_W PTE_U)) in
  let dir' := <[n / 1024 := v]> dir in
  kinv kend (set_freelist s (load32 (km_mem s) v)) l ->
  aspace (set_mem (set_freelist s (load32 (km_mem s) v)) m) l pd dir' /\
  (forall k, vpn_ok k -> entry m dir' k = entry (km_mem s) dir k) /\ pt_frame pd dir' (km_mem s) m.
Proof.
  intros Has Hn Hnone. cbv zeta. intros Hk. destruct Has as [Hk0 Hd Hpd Htab]. pose proof (ki_pages _ _ _ Hk0) as Hpg. apply Forall_cons in Hpg as [Hv Hpl].
  apply not_elem_of_cons in Hpd as [Hvpd Hpdl]. destruct (vpn_split n Hn) as [Hi _].
  destruct (clear_store_mem (km_mem s) v pd (n / 1024) (mk_pte v (Z.lor PTE_W PTE_U)) Hv (do_pd _ _ _ Hd) ltac:(congruence) Hi) as (Hz & Hother & Hnew & Hold).
  set (m := store32 _ _ _) in *. destruct (page_ok_bounds kend Hend v Hv) as [Hv1 Hv2].
  destruct (mk_pte_spec v (Z.lor PTE_W PTE_U)) as (He & Hep & _);
    [unfold KERNBASE, PHYSTOP, PGSIZE in *; lia | apply Hv | change (0 <= 6 < 4096); lia |]. rewrite u32_small in Hnew by lia.
  assert (forall w, page_ok kend w -> w <> v -> w <> pd -> same_on w PGSIZE (km_mem s) m) as Hsame.
  { intros w Hw H1 H2 a Ha. apply Hother; [by apply (page_disjoint w v) | apply (page_disjoint w pd); [done | apply Hd | done | done]]. }
  assert (forall i t, dir !! i = Some t -> same_on t PGSIZE (km_mem s) m) as Htsame.
  { intros i t Hit. destruct (do_tab _ _ _ Hd _ _ Hit) as (_ & Ht & Htpd & _). apply Hsame; [done | | done].
    intros ->. apply (Htab _ _ Hit). left. }
  split_and!.
  - split; cbn [set_mem km_mem set_freelist].
    + apply (kinv_write kend Hend); [done|]. intros w Hw. cbn [km_mem set_freelist]. rewrite Forall_forall in Hpl.
      pose proof (ki_nodup _ _ _ Hk0) as Hnd. apply NoDup_cons in Hnd as [Hvl _]. apply Hsame; [by apply Hpl | by intros -> | by intros ->].
    + split; [apply Hd | | |].
      * intros j t Hj. destruct (decide (n / 1024 = j)) as [<-|Hne].
        { rewrite lookup_insert_eq in Hj. injection Hj as <-. split_and!; [lia | lia | done | congruence | done]. }
        rewrite lookup_insert_ne in Hj by done. destruct (do_tab _ _ _ Hd _ _ Hj) as (? & ? & ? & ?). rewrite Hold by (done || congruence). done.
      * intros j Hj Hjn. apply lookup_insert_None in Hjn as [Hjn Hne]. rewrite Hold by (done || congruence). by apply (do_none _ _ _ Hd).
      * intros i j t. rewrite !lookup_insert_Some. intros [[<- <-]|[? Hi']] [[<- Ht]|[? Hj']]; try done.
        -- exfalso. apply (Htab _ _ Hj'). left.
        -- subst t. exfalso. apply (Htab _ _ Hi'). left.
        -- by apply (do_inj _ _ _ Hd _ _ t).
    + done.
    + intros i t. rewrite lookup_insert_Some. intros [[_ <-]|[_ Ht]].
      * pose proof (ki_nodup _ _ _ Hk0) as Hnd. by apply NoDup_cons in Hnd as [? _].
      * apply Htab in Ht. by apply not_elem_of_cons in Ht as [_ ?].
  - intros k Hk'. destruct (decide (n / 1024 = k / 1024)) as [E|Hne].
    + unfold entry. rewrite <- E, lookup_insert_eq, Hnone. destruct (vpn_split k Hk') as [_ Hk2].
      destruct (page_addr v (k mod 1024) Hv Hk2) as (_ & H1 & H2). unfold KERNBASE, PHYSTOP, PGSIZE in *.
      rewrite load32_le by lia. unfold bytes_at. change (seqZ 0 (Z.of_nat 4)) with [0; 1; 2; 3]. cbn [fmap list_fmap le_word].
      rewrite !Hz by (unfold in_page, PGSIZE; lia). done.
    + transitivity (entry m dir k); [unfold entry; by rewrite lookup_insert_ne|]. by apply (entry_ext _ _ pd).
  - intros a Hp Ht. apply Hother; [|done]. apply (Ht (n / 1024)). apply lookup_insert_eq.
Qed.

(** ** [walkpgdir] *)

Definition pte_addr (dir : gmap Z Z) (n : Z) (p : Z) : Prop :=
  exists t, dir !! (n / 1024) = Some t /\ p = t + 4 * (n mod 1024).

(** What an operation on the page tables may do to the allocator and the
    tables: tables are added from the free list and nothing is lost. *)
Record grown (s : kmem) (l : list Z) (dir : gmap Z Z) (s' : kmem) (l' : list Z) (dir' : gmap Z Z) (pd : Z) : Prop := {
  gr_space : aspace s' l' pd dir';
  gr_dir : dir ⊆ dir';
  gr_pages : tabs dir' ++ l' ≡ₚ tabs dir ++ l;
  gr_frame : pt_frame pd dir' (km_mem s) (km_mem s');
}.

Lemma grown_refl s l dir pd : aspace s l pd dir -> grown s l dir s l dir pd.
Proof. intros H. by split. Qed.
Lemma grown_trans s l dir s1 l1 dir1 s2 l2 dir2 pd :
  grown s l dir s1 l1 dir1 pd -> grown s1 l1 dir1 s2 l2 dir2 pd -> grown s l dir s2 l2 dir2 pd.
Proof.
  intros [H1 H2 H3 H4] [H5 H6 H7 H8]. split; [done | by transitivity dir1 | by rewrite H7 | by eapply pt_frame_trans].
Qed.

(** New tables are for the page numbers [n], ..., [n + cnt - 1]. *)
Definition within (n cnt : Z) (dir dir' : gmap Z Z) : Prop :=
  forall i, is_Some (dir' !! i) -> is_Some (dir !! i) \/ n / 1024 <= i <= (n + cnt - 1) / 1024.
Lemma within_refl n cnt dir : within n cnt dir dir.
Proof. intros i. auto. Qed.
Lemma within_one n i t dir : i = n / 1024 -> within n 1 dir (<[i := t]> dir).
Proof.
  intros -> j. replace (n + 1 - 1) with n by lia. destruct (decide (j = n / 1024)) as [-> |Hne]; [right; lia|].
  rewrite lookup_insert_ne by congruence. auto.
Qed.
Lemma within_sub n cnt n' cnt' dir dir' : n' <= n -> n + cnt <= n' + cnt' -> within n cnt dir dir' -> within n' cnt' dir dir'.
Proof.
  intros H1 H2 Hw i Hi. destruct (Hw i Hi) as [?|?]; [by left|right].
  pose proof (Z.div_le_mono n' n 1024). pose proof (Z.div_le_mono (n + cnt - 1) (n' + cnt' - 1) 1024). lia.
Qed.
Lemma within_trans n cnt dir dir' dir'' : within n cnt dir dir' -> within n cnt dir' dir'' -> within n cnt dir dir''.
Proof. intros H1 H2 i Hi. destruct (H2 i Hi); auto. Qed.

(** Mapping one page takes at most one page for its table. *)
Lemma grown_one n s l dir s' l' dir' pd : grown s l dir s' l' dir' pd -> within n 1 dir dir' -> (length l <= length l' + 1)%nat.
Proof using.
  clear Hend. intros Hg Hw. pose proof (Permutation_length (gr_pages _ _ _ _ _ _ _ Hg)) as Hlen. rewrite !length_app in Hlen. unfold tabs in Hlen.
  rewrite !length_fmap, !length_map_to_list, <- !(size_dom (D := gset Z)) in Hlen.
  assert (size (dom dir' : gset Z) <= size ({[(n / 1024)%Z]} ∪ dom dir : gset Z))%nat as Hs.
  { apply subseteq_size. intros i Hi. apply elem_of_dom, Hw in Hi as [Hi|Hi]; [apply elem_of_dom in Hi; set_solver|].
    replace (n + 1 - 1) with n in Hi by lia. assert (i = n / 1024) as -> by lia. set_solver. }
  pose proof (size_union_alt ({[n / 1024]} : gset Z) (dom dir)) as Hu. pose proof (subseteq_size (dom dir ∖ {[n / 1024]}) (dom dir : gset Z) ltac:(set_solver)).
  rewrite size_singleton in Hu. lia.
Qed.

Lemma walkpgdir_spec s l pd dir va alloc Q : aspace s l pd dir -> 0 <= va < 2 ^ 32 ->
  (forall p, pte_addr dir (va / PGSIZE) p -> Q p s) ->
  (dir !! (va / PGSIZE / 1024) = None -> alloc = false \/ l = [] -> Q 0 s) ->
  (forall p s' l' dir', alloc = true -> grown s l dir s' l' dir' pd -> pte_addr dir' (va / PGSIZE) p ->
     (forall k, vpn_ok k -> entry (km_mem s') dir' k = entry (km_mem s) dir k) -> within (va / PGSIZE) 1 dir dir' -> Q p s') ->
  wp (walkpgdir pd va alloc) Q s.
Proof.
  intros Has Hva Hfound Hnone Hnew. unfold walkpgdir, peek32, poke32, kmemset. rewrite PDX_div, PTX_mod by done.
  set (n := va / PGSIZE) in *. pose proof (vpn_range va Hva) as Hn. fold n in Hn. destruct (vpn_split n Hn) as [Hi Hj].
  pose proof (as_dir _ _ _ _ Has) as Hd. destruct (page_addr pd (n / 1024) (do_pd _ _ _ Hd) Hi) as [-> _]. fold (pde_addr pd (n / 1024)).
  wp_steps. destruct (dir !! (n / 1024)) as [t|] eqn:E.
  - destruct (do_tab _ _ _ Hd _ _ E) as (_ & Ht & _ & ->). destruct (page_ok_bounds kend Hend t Ht) as [H1 H2].
    destruct (mk_pte_spec t (Z.lor PTE_W PTE_U)) as (_ & Hp & Hpg & _);
      [unfold KERNBASE, PHYSTOP, PGSIZE in *; lia | apply Ht | change (0 <= 6 < 4096); lia |].
    unfold present in Hp. rewrite Hp. fold (pte_page (mk_pte t (Z.lor PTE_W PTE_U))). rewrite Hpg. destruct (page_addr t (n mod 1024) Ht Hj) as [-> _].
    wp_steps. apply Hfound. by exists t.
  - pose proof (do_none _ _ _ Hd _ Hi E) as Hp. unfold present in Hp. rewrite Hp.
    destruct alloc; cbn [negb]; [|wp_steps; apply Hnone; auto].
    wp_steps. apply (kalloc_spec kend Hend s l); [apply Has | |].
    + intros ->. rewrite Z.eqb_refl. wp_steps. apply Hnone; auto.
    + intros v l' -> Hk. pose proof (ki_pages _ _ _ (as_kinv _ _ _ _ Has)) as Hpg. apply Forall_cons in Hpg as [Hv _].
      destruct (page_ok_bounds kend Hend v Hv) as [H1 H2]. destruct (Z.eqb_spec v 0); [unfold KERNBASE in *; lia|]. wp_steps.
      destruct (page_addr v (n mod 1024) Hv Hj) as [-> _].
      change (Z.lor (Z.lor (Z.lor (V2P v) PTE_P) PTE_W) PTE_U) with (Z.lor (Z.lor (Z.lor (V2P v) 1) 2) 4).
      assert (Z.lor (Z.lor (Z.lor (V2P v) 1) 2) 4 = mk_pte v (Z.lor PTE_W PTE_U)) as ->.
      { unfold mk_pte. rewrite <- !Z.lor_assoc. done. }
      destruct (new_table s l' pd dir n v Has Hn E Hk) as (Has' & Hent & Hfr).
      cbn [set_mem set_freelist km_mem] in *.
      eapply (Hnew _ _ l' (<[n / 1024 := v]> dir)); [done | | exists v; split; [apply lookup_insert_eq | done] | exact Hent | by apply within_one].
      split; [exact Has' | by apply insert_subseteq | | exact Hfr]. unfold tabs. rewrite map_to_list_insert by done. cbn.
      apply Permutation_middle.
Qed.

(** ** Writing an entry *)

Lemma pte_addr_range m pd dir n p : dir_ok m pd dir -> vpn_ok n -> pte_addr dir n p ->
  exists t, dir !! (n / 1024) = Some t /\ page_ok kend t /\ t <> pd /\ p = t + 4 * (n mod 1024) /\
    KERNBASE < t /\ t <= p /\ p + 4 <= t + PGSIZE /\ t + PGSIZE <= 2 ^ 32.
Proof.
  intros Hd Hn (t & E & ->). destruct (do_tab _ _ _ Hd _ _ E) as (_ & Ht & Hne & _). destruct (vpn_split n Hn) as [_ Hj].
  destruct (page_addr t (n mod 1024) Ht Hj) as (_ & ? & ?). destruct (page_ok_bounds kend Hend t Ht). exists t.
  unfold KERNBASE, PHYSTOP in *. split_and!; done || lia.
Qed.

Lemma set_entry s l pd dir n p e : aspace s l pd dir -> vpn_ok n -> pte_addr dir n p -> 0 <= e < 2 ^ 32 ->
  let s' := set_mem s (store32 (km_mem s) p e) in
  grown s l dir s' l dir pd /\
  forall k, vpn_ok k -> entry (km_mem s') dir k = if k =? n then e else entry (km_mem s) dir k.
Proof.
  intros Has Hn Hp He. cbv zeta. cbn [set_mem km_mem]. pose proof (as_dir _ _ _ _ Has) as Hd.
  destruct (pte_addr_range _ _ _ _ _ Hd Hn Hp) as (t & Et & Ht & Htpd & Ep & H0 & H1 & H2 & H3). unfold KERNBASE in H0.
  assert (forall w, page_ok kend w -> w <> t -> same_on w PGSIZE (km_mem s) (store32 (km_mem s) p e)) as Hsame.
  { intros w Hw Hne a Ha. apply store32_other; [lia | lia |]. destruct (mod_page_gap w t); [apply Hw | apply Ht | done | lia | lia]. }
  split.
  - split; [|done|done|].
    + destruct Has as [Hk _ Hpd Htab]. split; [| | done | done].
      * apply (kinv_write kend Hend); [done|]. intros w Hw. pose proof (ki_pages _ _ _ Hk) as Hpg. rewrite Forall_forall in Hpg.
        apply Hsame; [by apply Hpg | intros ->; by apply (Htab _ _ Et)].
      * apply (dir_ok_ext (km_mem s)); [done|]. apply Hsame; [apply Hd | congruence].
    + intros a Ha Hta. apply store32_other; [lia | lia |]. specialize (Hta _ _ Et). unfold in_page in Hta. lia.
  - intros k Hk. destruct (Z.eqb_spec k n) as [->|Hne].
    + unfold entry. rewrite Et, Ep, load32_store32 by lia. by apply u32_small.
    + unfold entry. destruct (dir !! (k / 1024)) as [u|] eqn:Eu; [|done]. destruct (do_tab _ _ _ Hd _ _ Eu) as (_ & Hu & _).
      destruct (vpn_split k Hk) as [_ Hkj]. destruct (page_addr u (k mod 1024) Hu Hkj) as (_ & H4 & H5). destruct (page_ok_bounds kend Hend u Hu) as [H6 H7].
      unfold KERNBASE, PHYSTOP in *. apply load32_store32_ne; [lia | lia | lia | unfold PGSIZE in *; lia |].
      destruct (decide (u = t)) as [->|Hut].
      * assert (k / 1024 = n / 1024) as Ei by (apply (do_inj _ _ _ Hd _ _ t); done).
        assert (k mod 1024 <> n mod 1024) by (intros Em; apply Hne; rewrite (Z.div_mod k 1024), (Z.div_mod n 1024), Ei, Em; lia). lia.
      * destruct (mod_page_gap u t); [apply Hu | apply Ht | done | lia | lia].
Qed.

(** ** [mappages] *)

(** The entries after [j] pages are mapped from page number [n] on. *)
Definition mapped (n j pa perm : Z) (E E' : Z -> Z) : Prop :=
  forall k, vpn_ok k -> E' k = if (n <=? k) && (k <? n + j) then Z.lor (Z.lor (u32 (pa + (k - n) * PGSIZE)) perm) PTE_P else E k.

Lemma lor_bound a b n : 0 <= n -> 0 <= a < 2 ^ n -> 0 <= b < 2 ^ n -> 0 <= Z.lor a b < 2 ^ n.
Proof.
  intros Hn Ha Hb. replace (Z.lor a b) with (Z.lor a b mod 2 ^ n); [apply Z.mod_pos_bound; lia|].
  apply Z.bits_inj'. intros i Hi. destruct (Z.ltb_spec i n); [by rewrite Z.mod_pow2_bits_low by lia|].
  rewrite Z.mod_pow2_bits_high, Z.lor_spec by lia. rewrite <- (Z.mod_small a (2 ^ n)), <- (Z.mod_small b (2 ^ n)) by lia.
  by rewrite !Z.mod_pow2_bits_high by lia.
Qed.

(** One round of the loop, before [k] goes on. *)
Definition map_round (pd n pa perm : Z) (k : M kmem Z) : M kmem Z :=
  let! pte := walkpgdir pd (n * PGSIZE) true in
  if pte =? 0 then ret (-1)
  else
    let! e := peek32 pte in
    if negb (Z.land e PTE_P =? 0) then panic "remap"
    else poke32 pte (Z.lor (Z.lor pa perm) PTE_P) ;;; k.

Lemma map_round_spec s l pd dir n pa perm k Q :
  aspace s l pd dir -> vpn_ok n -> 0 <= pa < 2 ^ 32 -> 0 <= perm < PGSIZE -> present (entry (km_mem s) dir n) = false ->
  (l = [] -> Q (-1) s) ->
  (forall s' l' dir', grown s l dir s' l' dir' pd ->
     mapped n 1 pa perm (entry (km_mem s) dir) (entry (km_mem s') dir') -> within n 1 dir dir' -> wp k Q s') ->
  wp (map_round pd n pa perm k) Q s.
Proof.
  intros Has Hn Hpa Hperm Habs Hoom Hgo. unfold map_round, peek32, poke32. apply wp_bind.
  assert (n * PGSIZE / PGSIZE = n) as Ediv by (apply Z.div_mul; unfold PGSIZE; lia).
  assert (0 <= Z.lor (Z.lor pa perm) PTE_P < 2 ^ 32) as He.
  { unfold PTE_P, PGSIZE in *. apply lor_bound; [lia | apply lor_bound; lia | lia]. }
  assert (forall p s1 l1 dir1, grown s l dir s1 l1 dir1 pd -> pte_addr dir1 n p ->
    (forall k, vpn_ok k -> entry (km_mem s1) dir1 k = entry (km_mem s) dir k) -> within n 1 dir dir1 ->
    wp (if p =? 0 then ret (-1) else let! e := gets (fun s => load32 (km_mem s) p) in if negb (Z.land e PTE_P =? 0) then panic "remap"
        else modify (fun s => set_mem s (store32 (km_mem s) p (Z.lor (Z.lor pa perm) PTE_P))) ;;; k) Q s1) as Hrest.
  { intros p s1 l1 dir1 Hg Hp Hent Hw. pose proof (gr_space _ _ _ _ _ _ _ Hg) as Has1.
    destruct (pte_addr_range _ _ _ _ _ (as_dir _ _ _ _ Has1) Hn Hp) as (t & Et & _ & _ & Ep & H0 & H1 & _). unfold KERNBASE in H0.
    destruct (Z.eqb_spec p 0); [lia|]. wp_steps.
    assert (load32 (km_mem s1) p = entry (km_mem s) dir n) as -> by (rewrite <- Hent by done; unfold entry; by rewrite Et, Ep).
    unfold present in Habs. rewrite Habs. wp_steps. destruct (set_entry s1 l1 pd dir1 n p _ Has1 Hn Hp He) as [Hg2 Hent2].
    apply (Hgo _ l1 dir1); [by eapply grown_trans| |done]. intros j Hj. rewrite Hent2, Hent by done. unfold vpn_ok in *.
    destruct (Z.eqb_spec j n) as [->|]; [|destruct (Z.leb_spec n j), (Z.ltb_spec j (n + 1)); cbn [andb]; try lia; done].
    rewrite (proj2 (Z.leb_le n n)), (proj2 (Z.ltb_lt n (n + 1))) by lia. cbn [andb]. rewrite Z.sub_diag, Z.mul_0_l, Z.add_0_r, u32_small by lia. done. }
  apply (walkpgdir_spec s l pd dir); [done | unfold vpn_ok, PGSIZE in *; lia | | |]; rewrite Ediv.
  - intros p Hp. apply (Hrest p s l dir); [by apply grown_refl | done | done | apply within_refl].
  - intros _ [?|Hl]; [done|]. cbn. wp_steps. by apply Hoom.
  - intros p s1 l1 dir1 _ Hg Hp Hent Hw. by apply (Hrest p s1 l1 dir1).
Qed.

Lemma mapped_cons n j pa perm E E1 E2 : 0 <= j -> mapped n 1 pa perm E E1 -> mapped (n + 1) j (u32 (pa + PGSIZE)) perm E1 E2 ->
  mapped n (1 + j) pa perm E E2.
Proof.
  intros Hj H1 H2 k Hk. rewrite H2, H1 by done.
  destruct (Z.leb_spec n k), (Z.leb_spec (n + 1) k), (Z.ltb_spec k (n + 1 + j)), (Z.ltb_spec k (n + 1)), (Z.ltb_spec k (n + (1 + j)));
    cbn [andb]; try lia; try done. do 2 f_equal.
  transitivity (((pa + PGSIZE) mod 2 ^ 32 + (k - (n + 1)) * PGSIZE) mod 2 ^ 32); [reflexivity|]. rewrite Zplus_mod_idemp_l.
  transitivity ((pa + (k - n) * PGSIZE) mod 2 ^ 32); [f_equal; lia | reflexivity].
Qed.

Lemma mappages_loop_spec cnt : forall s l pd dir n pa perm Q,
  aspace s l pd dir -> 0 <= n -> (0 < cnt)%nat -> n + Z.of_nat cnt <= 2 ^ 20 ->
  0 <= pa < 2 ^ 32 -> 0 <= perm < PGSIZE ->
  (forall k, n <= k < n + Z.of_nat cnt -> present (entry (km_mem s) dir k) = false) ->
  (forall r s' l' dir' j, grown s l dir s' l' dir' pd -> 0 <= j <= Z.of_nat cnt ->
     mapped n j pa perm (entry (km_mem s) dir) (entry (km_mem s') dir') ->
     (r = 0 /\ j = Z.of_nat cnt \/ r = -1 /\ j < Z.of_nat cnt /\ l' = []) -> within n (Z.of_nat cnt) dir dir' -> Q r s') ->
  wp (mappages_loop cnt pd (n * PGSIZE) ((n + Z.of_nat cnt - 1) * PGSIZE) pa perm) Q s.
Proof.
  induction cnt as [|cnt IH]; intros s l pd dir n pa perm Q Has Hn Hc Hle Hpa Hperm Habs HQ; [lia|].
  change (wp (map_round pd n pa perm (if n * PGSIZE =? (n + Z.of_nat (S cnt) - 1) * PGSIZE then ret 0
    else mappages_loop cnt pd (u32 (n * PGSIZE + PGSIZE)) ((n + Z.of_nat (S cnt) - 1) * PGSIZE) (u32 (pa + PGSIZE)) perm)) Q s).
  apply (map_round_spec s l pd dir); [done | unfold vpn_ok; lia | done | done | apply Habs; lia | |].
  { intros ->. apply (HQ (-1) s [] dir 0); [by apply grown_refl | lia | | right; split_and!; [done | lia | done] | apply within_refl].
    intros k Hk. destruct (Z.leb_spec n k), (Z.ltb_spec k (n + 0)); cbn [andb]; try lia; done. }
  intros s1 l1 dir1 Hg1 Hm1 Hw1. unfold PGSIZE at 1 2. destruct (Z.eqb_spec (n * 4096) ((n + Z.of_nat (S cnt) - 1) * 4096)) as [El|El].
  { assert (cnt = O) as -> by lia. wp_steps. apply (HQ 0 s1 l1 dir1 1); [done | lia | done | left; lia | done]. }
  replace (u32 (n * PGSIZE + PGSIZE)) with ((n + 1) * PGSIZE) by (rewrite u32_small; unfold PGSIZE; lia).
  replace (n + Z.of_nat (S cnt) - 1) with ((n + 1) + Z.of_nat cnt - 1) by lia.
  apply (IH s1 l1 pd dir1 (n + 1)); [apply Hg1 | lia | lia | lia | apply u32_range | done | |].
  - intros k Hk. rewrite Hm1 by (unfold vpn_ok; lia). destruct (Z.leb_spec n k), (Z.ltb_spec k (n + 1)); cbn [andb]; try lia. apply Habs. lia.
  - intros r s2 l2 dir2 j Hg2 Hj Hm2 Hr Hw2. apply (HQ r s2 l2 dir2 (1 + j)); [by eapply grown_trans | lia | by eapply mapped_cons; [lia|..] | |].
    + destruct Hr as [[? ?]|(? & ? & ?)]; [left; lia | right; split_and!; [done | lia | done]].
    + eapply within_trans; [apply (within_sub n 1); [lia | lia | exact Hw1] | apply (within_sub (n + 1) (Z.of_nat cnt)); [lia | lia | exact Hw2]].
Qed.

(** [mappages] of whole pages. *)
Lemma mappages_within s l pd dir n cnt pa perm Q :
  aspace s l pd dir -> 0 <= n -> 0 < cnt -> n + cnt <= 2 ^ 20 -> 0 <= pa < 2 ^ 32 -> 0 <= perm < PGSIZE ->
  (forall k, n <= k < n + cnt -> present (entry (km_mem s) dir k) = false) ->
  (forall r s' l' dir' j, grown s l dir s' l' dir' pd -> 0 <= j <= cnt ->
     mapped n j pa perm (entry (km_mem s) dir) (entry (km_mem s') dir') ->
     (r = 0 /\ j = cnt \/ r = -1 /\ j < cnt /\ l' = []) -> within n cnt dir dir' -> Q r s') ->
  wp (mappages pd (n * PGSIZE) (u32 (cnt * PGSIZE)) pa perm) Q s.
Proof.
  intros Has Hn Hc Hle Hpa Hperm Habs HQ. unfold mappages.
  assert (PGROUNDDOWN (n * PGSIZE) = n * PGSIZE) as ->.
  { rewrite PGROUNDDOWN_eq by (unfold PGSIZE; lia). rewrite Z.mod_mul by (unfold PGSIZE; lia). lia. }
  assert (PGROUNDDOWN (u32 (n * PGSIZE + u32 (cnt * PGSIZE) - 1)) = (n + cnt - 1) * PGSIZE) as ->.
  { assert (u32 (n * PGSIZE + u32 (cnt * PGSIZE) - 1) = (n + cnt - 1) * PGSIZE + (PGSIZE - 1)) as ->.
    { transitivity ((n * PGSIZE + (cnt * PGSIZE) mod 2 ^ 32 - 1) mod 2 ^ 32); [reflexivity|].
      rewrite <- Zminus_mod_idemp_l, Zplus_mod_idemp_r, Zminus_mod_idemp_l. rewrite Z.mod_small; unfold PGSIZE; lia. }
    rewrite PGROUNDDOWN_eq by (unfold PGSIZE; lia). rewrite Z.add_comm, Z_mod_plus_full, Z.mod_small by (unfold PGSIZE; lia). lia. }
  replace (Z.to_nat (u32 ((n + cnt - 1) * PGSIZE - n * PGSIZE) / PGSIZE + 1)) with (Z.to_nat cnt).
  2: { rewrite u32_small by (unfold PGSIZE; lia). replace ((n + cnt - 1) * PGSIZE - n * PGSIZE) with ((cnt - 1) * PGSIZE) by lia.
       rewrite Z.div_mul by (unfold PGSIZE; lia). lia. }
  replace cnt with (Z.of_nat (Z.to_nat cnt)) at 2 by lia.
  apply (mappages_loop_spec (Z.to_nat cnt) s l pd dir); rewrite ?Z2Nat.id by lia; try done. lia.
Qed.
Lemma mappages_spec s l pd dir n cnt pa perm Q :
  aspace s l pd dir -> 0 <= n -> 0 < cnt -> n + cnt <= 2 ^ 20 -> 0 <= pa < 2 ^ 32 -> 0 <= perm < PGSIZE ->
  (forall k, n <= k < n + cnt -> present (entry (km_mem s) dir k) = false) ->
  (forall r s' l' dir' j, grown s l dir s' l' dir' pd -> 0 <= j <= cnt ->
     mapped n j pa perm (entry (km_mem s) dir) (entry (km_mem s') dir') ->
     (r = 0 /\ j = cnt \/ r = -1 /\ j < cnt /\ l' = []) -> Q r s') ->
  wp (mappages pd (n * PGSIZE) (u32 (cnt * PGSIZE)) pa perm) Q s.
Proof.
  intros Has Hn Hc Hle Hpa Hperm Habs HQ. apply (mappages_within s l pd dir); try done. intros r s' l' dir' j Hg Hj Hm Hr _. by apply (HQ r s' l' dir' j).
Qed.
End entries.
