(* ===== verification/VmSpace.v ===== *)
(** * User address spaces

    A user address space is a page directory with its tables and a map from
    page numbers below [KERNBASE] to the pages that back them.  All of these
    and the free list are different pages, and every operation of vm.c only
    passes pages between them. *)

From S2P Require Import Prelude CString Memory Kalloc Vm VmEntries.
Import Kstring.

Section space.
Context (kend : Z) (Hend : KERNBASE < kend).

Definition upages (us : gmap Z Z) : list Z := (map_to_list us).*2.
(** Every page a process and the allocator have. *)
Definition owned (pd : Z) (dir us : gmap Z Z) (l : list Z) : list Z := pd :: tabs dir ++ upages us ++ l.

Record uspace (s : kmem) (l : list Z) (pd : Z) (dir us : gmap Z Z) : Prop := {
  us_kinv : kinv kend s l;
  us_dir : dir_ok kend (km_mem s) pd dir;
  us_page : forall n v, us !! n = Some v -> 0 <= n < 2 ^ 19 /\ page_ok kend v /\
    exists f, 0 <= f < PGSIZE /\ entry (km_mem s) dir n = mk_pte v f;
  us_none : forall n, 0 <= n < 2 ^ 19 -> us !! n = None -> present (entry (km_mem s) dir n) = false;
  us_nodup : NoDup (owned pd dir us l);
}.

(** Only pages of the list may differ. *)
Definition framed (own : list Z) (m m' : mem) : Prop := forall a, (forall v, v ∈ own -> ~ in_page v a) -> m' a = m a.
Lemma framed_trans own own' m1 m2 m3 : own ≡ₚ own' -> framed own m1 m2 -> framed own' m2 m3 -> framed own m1 m3.
Proof. intros Hp H1 H2 a Ha. rewrite H2; [by apply H1|]. intros v Hv. apply Ha. by rewrite Hp. Qed.

Lemma elem_tabs t dir : t ∈ tabs dir <-> exists i, dir !! i = Some t.
Proof.
  unfold tabs. rewrite list_elem_of_fmap. split.
  - intros ([i x] & -> & H). exists i. by apply elem_of_map_to_list in H.
  - intros [i H]. exists (i, t). split; [done | by apply elem_of_map_to_list].
Qed.
Lemma elem_upages v us : v ∈ upages us <-> exists n, us !! n = Some v.
Proof. apply elem_tabs. Qed.
Lemma elem_owned v pd dir us l : v ∈ owned pd dir us l <-> v = pd \/ (exists i, dir !! i = Some v) \/ (exists n, us !! n = Some v) \/ v ∈ l.
Proof. unfold owned. by rewrite elem_of_cons, !elem_of_app, elem_tabs, elem_upages. Qed.

Lemma upages_insert n v us : us !! n = None -> upages (<[n := v]> us) ≡ₚ v :: upages us.
Proof. intros H. unfold upages. by rewrite map_to_list_insert. Qed.
Lemma upages_delete n v us : us !! n = Some v -> upages us ≡ₚ v :: upages (delete n us).
Proof.
  intros H. rewrite <- (upages_insert n v) by apply lookup_delete_eq. by rewrite insert_delete_id.
Qed.

Section fixed.
Context (s : kmem) (l : list Z) (pd : Z) (dir us : gmap Z Z) (Hu : uspace s l pd dir us).

Lemma us_aspace : aspace kend s l pd dir.
Proof.
  destruct Hu as [Hk Hd _ _ Hn]. apply NoDup_cons in Hn as [Hpd Hn]. apply NoDup_app in Hn as (_ & Hdis & _).
  split; [done | done | |].
  - intros H. apply Hpd. rewrite !elem_of_app. auto.
  - intros i t Hi H. apply (Hdis t); [apply elem_tabs; eauto | apply elem_of_app; auto].
Qed.

(** Pages in different places are different. *)
Lemma us_inj n k v : us !! n = Some v -> us !! k = Some v -> n = k.
Proof.
  intros H1 H2. destruct (decide (n = k)) as [|Hne]; [done|]. exfalso. pose proof (us_nodup _ _ _ _ _ Hu) as Hn. unfold owned in Hn.
  rewrite (upages_delete n v us H1) in Hn. apply NoDup_cons in Hn as [_ Hn]. apply NoDup_app in Hn as (_ & _ & Hn).
  cbn in Hn. apply NoDup_cons in Hn as [Hn _]. apply Hn. apply elem_of_app. left. apply elem_upages. exists k. by rewrite lookup_delete_ne.
Qed.
Lemma us_sep n v : us !! n = Some v -> v <> pd /\ (forall i, dir !! i <> Some v) /\ v ∉ l.
Proof.
  intros H. pose proof (us_nodup _ _ _ _ _ Hu) as Hn. apply NoDup_cons in Hn as [Hpd Hn]. apply NoDup_app in Hn as (_ & Hdis & Hn).
  apply NoDup_app in Hn as (_ & Hdis2 & _). assert (v ∈ upages us) as Hv by (apply elem_upages; eauto). split_and!.
  - intros ->. apply Hpd. rewrite !elem_of_app. auto.
  - intros i Hi. apply (Hdis v); [apply elem_tabs; eauto | apply elem_of_app; auto].
  - by apply Hdis2.
Qed.

(** The hardware's view of the memory of the process. *)
Lemma us_translate va : 0 <= va < KERNBASE ->
  translate (km_mem s) pd va = (fun v => v + va mod PGSIZE) <$> us !! (va / PGSIZE).
Proof.
  intros Hv. rewrite (translate_entry kend Hend _ _ dir) by (apply Hu || (unfold KERNBASE in *; lia)).
  assert (0 <= va / PGSIZE < 2 ^ 19) as Hn.
  { unfold PGSIZE, KERNBASE in *. split; [apply Z.div_pos; lia | apply Z.div_lt_upper_bound; lia]. }
  destruct (us !! (va / PGSIZE)) as [v|] eqn:E; cbn.
  - destruct (us_page _ _ _ _ _ Hu _ _ E) as (_ & Hpg & f & Hf & ->). destruct (page_ok_bounds kend Hend v Hpg) as [H1 H2].
    destruct (mk_pte_spec v f) as (_ & -> & -> & _); [unfold KERNBASE, PHYSTOP, PGSIZE in *; lia | apply Hpg | done |].
    pose proof (Z.mod_pos_bound va PGSIZE ltac:(unfold PGSIZE; lia)). rewrite u32_small; [done|]. unfold KERNBASE, PHYSTOP, PGSIZE in *. lia.
  - by rewrite (us_none _ _ _ _ _ Hu _ Hn E).
Qed.
End fixed.

(** ** Mapping a page *)

Lemma grown_keeps s l dir s' l' dir' pd w : grown kend s l dir s' l' dir' pd -> page_ok kend w -> w <> pd ->
  (forall i, dir !! i <> Some w) -> w ∉ l -> same_on w PGSIZE (km_mem s) (km_mem s').
Proof.
  intros Hg Hw Hpd Htab Hl a Ha. pose proof (as_dir _ _ _ _ _ (gr_space _ _ _ _ _ _ _ _ Hg)) as Hd. apply (gr_frame _ _ _ _ _ _ _ _ Hg).
  - apply (page_disjoint kend w pd); [done | apply Hd | done | done].
  - intros i t Ht. apply (page_disjoint kend w t); [done | by eapply (do_tab _ _ _ _ Hd) | | done]. intros <-.
    assert (w ∈ tabs dir ++ l) as Hin.
    { rewrite <- (gr_pages _ _ _ _ _ _ _ _ Hg). apply elem_of_app. left. apply elem_tabs. eauto. }
    apply elem_of_app in Hin as [Hin|Hin]; [|done]. apply elem_tabs in Hin as [j Hj]. by apply (Htab j).
Qed.

Lemma grown_owned s l dir s' l' dir' pd us : grown kend s l dir s' l' dir' pd -> owned pd dir' us l' ≡ₚ owned pd dir us l.
Proof.
  intros Hg. unfold owned. apply perm_skip. rewrite (Permutation_app_comm (upages us) l'), (Permutation_app_comm (upages us) l), !app_assoc.
  by rewrite (gr_pages _ _ _ _ _ _ _ _ Hg).
Qed.

Lemma grown_framed s l dir s' l' dir' pd us : grown kend s l dir s' l' dir' pd -> framed (owned pd dir us l) (km_mem s) (km_mem s').
Proof.
  intros Hg a Ha. apply (gr_frame _ _ _ _ _ _ _ _ Hg).
  - apply Ha. apply elem_owned. auto.
  - intros i t Ht. apply Ha. rewrite <- (grown_owned _ _ _ _ _ _ _ us Hg). apply elem_owned. eauto.
Qed.

(** More page tables, and no entry changed. *)
Lemma us_grown s l dir s' l' dir' pd us : uspace s l pd dir us -> grown kend s l dir s' l' dir' pd ->
  (forall k, vpn_ok k -> entry (km_mem s') dir' k = entry (km_mem s) dir k) -> uspace s' l' pd dir' us.
Proof.
  intros Hu Hg He. assert (forall n, 0 <= n < 2 ^ 19 -> vpn_ok n) as Hvpn by (unfold vpn_ok; lia).
  split; [apply Hg | apply Hg | | |].
  - intros n v Hn. destruct (us_page _ _ _ _ _ Hu n v Hn) as (H1 & H2 & f & Hf & Ef). split_and!; [lia | lia | done |]. exists f. by rewrite He by auto.
  - intros n Hn Hnone. rewrite He by auto. by apply (us_none _ _ _ _ _ Hu).
  - rewrite (grown_owned _ _ _ _ _ _ _ us Hg). apply Hu.
Qed.

(** A page [v] the caller holds is mapped at page number [n]. *)
Lemma us_map s l dir s' l' dir' pd us n v f : uspace s l pd dir us -> page_ok kend v -> v ∉ owned pd dir us l ->
  0 <= n < 2 ^ 19 -> us !! n = None -> 0 <= f < PGSIZE -> grown kend s l dir s' l' dir' pd ->
  mapped n 1 (V2P v) f (entry (km_mem s) dir) (entry (km_mem s') dir') ->
  uspace s' l' pd dir' (<[n := v]> us) /\ owned pd dir' (<[n := v]> us) l' ≡ₚ v :: owned pd dir us l.
Proof.
  intros Hu Hv Hvo Hn Hnone Hf Hg Hm. assert (forall k, 0 <= k < 2 ^ 19 -> vpn_ok k) as Hvpn by (unfold vpn_ok; lia).
  assert (owned pd dir' (<[n := v]> us) l' ≡ₚ v :: owned pd dir us l) as Hown.
  { rewrite <- (grown_owned _ _ _ _ _ _ _ us Hg). unfold owned. rewrite upages_insert by done. cbn [app].
    rewrite <- Permutation_middle. apply perm_swap. }
  assert (forall k, 0 <= k < 2 ^ 19 -> entry (km_mem s') dir' k = if decide (k = n) then mk_pte v f else entry (km_mem s) dir k) as He.
  { intros k Hk. rewrite Hm by auto. destruct (decide (k = n)) as [->|].
    - rewrite (proj2 (Z.leb_le n n)), (proj2 (Z.ltb_lt n (n + 1))) by lia. cbn [andb]. rewrite Z.sub_diag, Z.mul_0_l, Z.add_0_r.
      unfold mk_pte, V2P. by rewrite u32_idemp.
    - destruct (Z.leb_spec n k), (Z.ltb_spec k (n + 1)); cbn [andb]; try lia; done. }
  split; [|done]. split; [apply Hg | apply Hg | | |].
  - intros k w. rewrite lookup_insert_Some. intros [[<- <-]|[Hne Hk]].
    + split_and!; [lia | lia | done |]. exists f. by rewrite He, decide_True by done.
    + destruct (us_page _ _ _ _ _ Hu k w Hk) as (H1 & H2 & g & Hg' & Eg). split_and!; [lia | lia | done |]. exists g. by rewrite He, decide_False by done.
  - intros k Hk. rewrite lookup_insert_None. intros [Hkn Hne]. rewrite He, decide_False by done. by apply (us_none _ _ _ _ _ Hu).
  - rewrite Hown. apply NoDup_cons. split; [done | apply Hu].
Qed.

(** ** Unmapping a page *)

Lemma us_unmap s l pd dir us n v p s1 : uspace s l pd dir us -> us !! n = Some v -> pte_addr dir n p ->
  kinv kend s1 (v :: l) -> outside v (km_mem s) (km_mem s1) ->
  let s2 := set_mem s1 (store32 (km_mem s1) p 0) in
  uspace s2 (v :: l) pd dir (delete n us) /\
  (forall w, page_ok kend w -> w <> v -> w <> pd -> (forall i, dir !! i <> Some w) -> same_on w PGSIZE (km_mem s) (km_mem s2)) /\
  framed (owned pd dir us l) (km_mem s) (km_mem s2).
Proof.
  intros Hu Hn Hp Hk1 Ho. cbv zeta. destruct (us_page _ _ _ _ _ Hu n v Hn) as (Hnr & Hv & _). destruct (us_sep _ _ _ _ _ Hu n v Hn) as (Hvpd & Hvt & Hvl).
  pose proof (us_dir _ _ _ _ _ Hu) as Hd. assert (vpn_ok n) as Hvpn by (unfold vpn_ok; lia).
  assert (forall w, page_ok kend w -> w <> v -> same_on w PGSIZE (km_mem s) (km_mem s1)) as Hs1.
  { intros w Hw Hne a Ha. apply Ho. destruct (mod_page_gap w v); [apply Hw | apply Hv | done | lia | lia]. }
  assert (aspace kend s1 (v :: l) pd dir) as Has1.
  { destruct (us_aspace _ _ _ _ _ Hu) as [_ _ Hpdl Htl]. split; [done | | |].
    - apply (dir_ok_ext kend Hend (km_mem s)); [done|]. apply Hs1; [apply Hd | congruence].
    - apply not_elem_of_cons. split; [congruence | done].
    - intros i t Ht. apply not_elem_of_cons. split; [|by eapply Htl]. intros ->. by apply (Hvt i). }
  assert (forall k, vpn_ok k -> entry (km_mem s1) dir k = entry (km_mem s) dir k) as He1.
  { intros k Hk. apply (entry_ext kend Hend _ _ pd); [done | done|]. intros i t Ht. apply Hs1; [by eapply (do_tab _ _ _ _ Hd) | intros ->; by apply (Hvt i)]. }
  destruct (set_entry kend Hend s1 (v :: l) pd dir n p 0 Has1 Hvpn Hp ltac:(lia)) as [Hg He2]. cbv zeta in He2. set (s2 := set_mem s1 _) in *.
  assert (forall w, page_ok kend w -> w <> v -> w <> pd -> (forall i, dir !! i <> Some w) -> same_on w PGSIZE (km_mem s) (km_mem s2)) as Hs2.
  { intros w Hw Hne Hwpd Hwt a Ha. rewrite <- (Hs1 w Hw Hne a Ha). apply (gr_frame _ _ _ _ _ _ _ _ Hg).
    - apply (page_disjoint kend w pd); [done | apply Hd | done | done].
    - intros i t Ht. apply (page_disjoint kend w t); [done | by eapply (do_tab _ _ _ _ Hd) | intros <-; by apply (Hwt i) | done]. }
  split_and!; [split | exact Hs2 |].
  - apply Hg.
  - apply Hg.
  - intros k w. rewrite lookup_delete_Some. intros [Hne Hk]. destruct (us_page _ _ _ _ _ Hu k w Hk) as (Hkr & Hw & f & Hf & Ef).
    split_and!; [lia | lia | done |]. exists f. split; [done|]. unfold vpn_ok in *.
    rewrite He2, (proj2 (Z.eqb_neq k n)), He1 by (unfold vpn_ok; lia || congruence). done.
  - intros k Hk Hnone. rewrite He2 by (unfold vpn_ok; lia). destruct (Z.eqb_spec k n) as [->|Hne]; [done|]. rewrite He1 by (unfold vpn_ok; lia).
    rewrite lookup_delete_ne in Hnone by congruence. by apply (us_none _ _ _ _ _ Hu).
  - pose proof (us_nodup _ _ _ _ _ Hu) as Hnd. unfold owned in *. rewrite (upages_delete n v us Hn) in Hnd. cbn [app] in Hnd.
    by rewrite <- (Permutation_middle (upages (delete n us)) l v).
  - intros a Ha. transitivity (km_mem s1 a).
    + apply (gr_frame _ _ _ _ _ _ _ _ Hg); [apply Ha; apply elem_owned; auto|]. intros i t Ht. apply Ha. apply elem_owned. eauto.
    + apply Ho. assert (~ in_page v a) as H by (apply Ha; apply elem_owned; eauto). unfold in_page in H. lia.
Qed.

Lemma unmap_owned pd dir us l n v : us !! n = Some v -> owned pd dir (delete n us) (v :: l) ≡ₚ owned pd dir us l.
Proof.
  intros Hn. unfold owned. rewrite (upages_delete n v us Hn). cbn [app]. by rewrite <- (Permutation_middle (upages (delete n us)) l v).
Qed.

(** The pages from number [n] up to [top] are gone; the others are as before. *)
Record unmapped (s : kmem) (l : list Z) (pd : Z) (dir us : gmap Z Z) (n top : Z) (s' : kmem) (l' : list Z) (us' : gmap Z Z) : Prop := {
  um_space : uspace s' l' pd dir us';
  um_owned : owned pd dir us' l' ≡ₚ owned pd dir us l;
  um_us : forall k, us' !! k = if (n <=? k) && (k <? top) then None else us !! k;
  um_same : forall k v, us' !! k = Some v -> same_on v PGSIZE (km_mem s) (km_mem s');
  um_frame : framed (owned pd dir us l) (km_mem s) (km_mem s');
  um_free : exists fr, l' = fr ++ l;
}.

Definition pgtop (sz : Z) : Z := (sz + PGSIZE - 1) / PGSIZE.
Lemma pgtop_lt n sz : n * PGSIZE < sz <-> n < pgtop sz.
Proof.
  unfold pgtop, PGSIZE. pose proof (Z.div_mod (sz + 4096 - 1) 4096 ltac:(lia)). pose proof (Z.mod_pos_bound (sz + 4096 - 1) 4096 ltac:(lia)). lia.
Qed.
Lemma PGROUNDUP_top sz : 0 <= sz -> sz + PGSIZE <= 2 ^ 32 -> PGROUNDUP sz = pgtop sz * PGSIZE.
Proof.
  intros H0 H1. unfold PGROUNDUP, pgtop, PGSIZE in *. rewrite u32_small, page_mask by lia. unfold PGSIZE.
  pose proof (Z.div_mod (sz + 4096 - 1) 4096 ltac:(lia)). lia.
Qed.

(** ** [deallocuvm] *)

Lemma unmapped_none s l pd dir us n top : uspace s l pd dir us -> (forall k, n <= k < top -> us !! k = None) ->
  unmapped s l pd dir us n top s l us.
Proof.
  intros Hu Hn. split; [done | done | | done | done | by exists []]. intros k.
  destruct (Z.leb_spec n k), (Z.ltb_spec k top); cbn [andb]; try done. apply Hn. lia.
Qed.

(** A range without pages, then the rest. *)
Lemma unmapped_skip s l pd dir us n n' top s' l' us' : n <= n' -> (forall k, n <= k < n' -> us !! k = None) ->
  unmapped s l pd dir us n' top s' l' us' -> unmapped s l pd dir us n top s' l' us'.
Proof.
  intros Hle Hn [H1 H2 H3 H4 H5 H6]. split; try done. intros k. rewrite H3.
  destruct (Z.leb_spec n' k), (Z.ltb_spec k top), (Z.leb_spec n k); cbn [andb]; try lia; try done. apply Hn. lia.
Qed.

(** One page, then the rest. *)
Lemma unmapped_cons s l pd dir us n v top s1 s' l' us' : uspace s l pd dir us -> us !! n = Some v -> n < top ->
  uspace s1 (v :: l) pd dir (delete n us) ->
  (forall w, page_ok kend w -> w <> v -> w <> pd -> (forall i, dir !! i <> Some w) -> same_on w PGSIZE (km_mem s) (km_mem s1)) ->
  framed (owned pd dir us l) (km_mem s) (km_mem s1) ->
  unmapped s1 (v :: l) pd dir (delete n us) (n + 1) top s' l' us' -> unmapped s l pd dir us n top s' l' us'.
Proof.
  intros Hu Hn Hlt Hu1 Hs1 Hf1 [H1 H2 H3 H4 H5 (fr & Hfr)]. pose proof (unmap_owned pd dir us l n v Hn) as Hown. split.
  - done.
  - by rewrite H2.
  - intros k. rewrite H3. destruct (decide (k = n)) as [->|Hne].
    + rewrite (proj2 (Z.leb_le n n)), (proj2 (Z.ltb_lt n top)), lookup_delete_eq by lia. by destruct (_ && _).
    + rewrite lookup_delete_ne by congruence. destruct (Z.leb_spec (n + 1) k), (Z.leb_spec n k); cbn [andb]; try lia; done.
  - intros k w Hk a Ha. rewrite (H4 k w Hk a Ha). assert (us !! k = Some w /\ k <> n) as [Hkw Hkn].
    { rewrite H3 in Hk. destruct ((n + 1 <=? k) && (k <? top)); [done|]. by apply lookup_delete_Some in Hk as [? ?]. }
    destruct (us_page _ _ _ _ _ Hu k w Hkw) as (_ & Hw & _). destruct (us_sep _ _ _ _ _ Hu k w Hkw) as (Hwpd & Hwt & _).
    apply (Hs1 w); [done | intros ->; apply Hkn; by apply (us_inj s l pd dir us Hu k n v) | done | done | done].
  - eapply framed_trans; [symmetry; exact Hown | done | done].
  - exists (fr ++ [v]). by rewrite <- app_assoc.
Qed.

Lemma PGADDR_next n : 0 <= n < 2 ^ 19 -> u32 (u32 (PGADDR (n / 1024 + 1) 0 0 - PGSIZE) + PGSIZE) = (n / 1024 + 1) * 1024 * PGSIZE.
Proof.
  intros Hn. assert (0 <= n / 1024 < 512) as Hd by (split; [apply Z.div_pos; lia | apply Z.div_lt_upper_bound; lia]).
  assert (PGADDR (n / 1024 + 1) 0 0 = (n / 1024 + 1) * 1024 * PGSIZE) as ->.
  { unfold PGADDR. rewrite Z.shiftl_0_l, !Z.lor_0_r, Z.shiftl_mul_pow2 by lia. rewrite u32_small; unfold PGSIZE; lia. }
  rewrite !u32_small; unfold PGSIZE; try rewrite !u32_small; lia.
Qed.

Lemma deallocuvm_loop_spec fuel : forall s l pd dir us n oldsz Q,
  uspace s l pd dir us -> 0 <= n <= 2 ^ 19 -> 0 <= oldsz <= KERNBASE -> (Z.to_nat (pgtop oldsz - n) < fuel)%nat ->
  (forall s' l' us', unmapped s l pd dir us n (pgtop oldsz) s' l' us' -> Q tt s') ->
  wp (deallocuvm_loop kend fuel pd (n * PGSIZE) oldsz) Q s.
Proof.
  induction fuel as [|fuel IH]; intros s l pd dir us n oldsz Q Hu Hn Hsz Hf HQ; [lia|]. cbn [deallocuvm_loop].
  destruct (Z.ltb_spec (n * PGSIZE) oldsz) as [Hlt|Hge].
  2: { wp_steps. apply (HQ s l us). apply unmapped_none; [done|]. intros k Hk. pose proof (pgtop_lt n oldsz). lia. }
  assert (n < pgtop oldsz) as Hnt by (by apply pgtop_lt). assert (0 <= n < 2 ^ 19) as Hn' by (unfold KERNBASE, PGSIZE in *; lia).
  assert (0 <= n * PGSIZE < 2 ^ 32) as Hva by (unfold PGSIZE; lia). assert (vpn_ok n) as Hvpn by (unfold vpn_ok; lia).
  assert (n * PGSIZE / PGSIZE = n) as Ediv by (apply Z.div_mul; unfold PGSIZE; lia).
  pose proof (us_aspace _ _ _ _ _ Hu) as Has. apply wp_bind. apply (walkpgdir_spec kend Hend s l pd dir); [done | done | | |done]; rewrite ?Ediv.
  - intros p Hp. destruct (pte_addr_range kend Hend _ _ _ _ _ (us_dir _ _ _ _ _ Hu) Hvpn Hp) as (t & Et & Ht & Htpd & Ep & H0 & H1 & H2 & H3). unfold KERNBASE in H0.
    destruct (Z.eqb_spec p 0); [lia|]. unfold peek32. wp_steps.
    assert (load32 (km_mem s) p = entry (km_mem s) dir n) as -> by (unfold entry; by rewrite Et, Ep).
    replace (u32 (n * PGSIZE + PGSIZE)) with ((n + 1) * PGSIZE) by (rewrite u32_small; unfold PGSIZE; lia).
    destruct (us !! n) as [v|] eqn:En.
    + destruct (us_page _ _ _ _ _ Hu n v En) as (_ & Hv & f & Hfl & ->). destruct (page_ok_bounds kend Hend v Hv) as [Hv1 Hv2].
      destruct (mk_pte_spec v f) as (Her & Hep & Hpg & _); [unfold KERNBASE, PHYSTOP, PGSIZE in *; lia | apply Hv | done |].
      unfold present in Hep. rewrite Hep. cbn [when]. unfold pte_page in Hpg.
      destruct (Z.eqb_spec (PTE_ADDR (mk_pte v f)) 0) as [E0|_]; [rewrite E0 in Hpg; change (P2V 0) with KERNBASE in Hpg; unfold KERNBASE in *; lia|].
      rewrite Hpg. wp_steps. destruct (us_sep _ _ _ _ _ Hu n v En) as (_ & _ & Hvl).
      apply (kfree_spec kend Hend s l); [apply Hu | done | done |]. intros s1 Hk1 Ho1. unfold poke32. wp_steps.
      destruct (us_unmap s l pd dir us n v p s1 Hu En Hp Hk1 Ho1) as (Hu2 & Hs2 & Hf2).
      apply (IH _ (v :: l) pd dir (delete n us) (n + 1)); [done | lia | done | lia |]. intros s' l' us' Hum. apply (HQ s' l' us'). by eapply unmapped_cons.
    + pose proof (us_none _ _ _ _ _ Hu n Hn' En) as Hep. unfold present in Hep. rewrite Hep. cbn [when]. wp_steps.
      apply (IH s l pd dir us (n + 1)); [done | lia | done | lia |]. intros s' l' us' Hum. apply (HQ s' l' us').
      eapply (unmapped_skip _ _ _ _ _ n (n + 1)); [lia | | done]. intros k Hk. by assert (k = n) as -> by lia.
  - intros Hnone _. cbn. wp_steps. rewrite PDX_div, Ediv, PGADDR_next by done.
    pose proof (Z.div_mod n 1024 ltac:(lia)). pose proof (Z.mod_pos_bound n 1024 ltac:(lia)).
    apply (IH s l pd dir us ((n / 1024 + 1) * 1024)); [done | lia | done | lia |]. intros s' l' us' Hum. apply (HQ s' l' us').
    eapply (unmapped_skip _ _ _ _ _ n ((n / 1024 + 1) * 1024)); [lia | | done]. intros k Hk. destruct (us !! k) as [v|] eqn:Ek; [|done]. exfalso.
    destruct (us_page _ _ _ _ _ Hu k v Ek) as (Hkr & Hv & f & Hfl & Ee). destruct (page_ok_bounds kend Hend v Hv) as [Hv1 Hv2].
    destruct (mk_pte_spec v f) as (_ & Hep & _); [unfold KERNBASE, PHYSTOP, PGSIZE in *; lia | apply Hv | done |].
    assert (k / 1024 = n / 1024) as Ed by (symmetry; apply (Z.div_unique k 1024 (n / 1024) (k - 1024 * (n / 1024))); lia).
    unfold entry in Ee. rewrite Ed, Hnone in Ee. rewrite <- Ee in Hep. done.
Qed.

Lemma deallocuvm_spec s l pd dir us oldsz newsz Q :
  uspace s l pd dir us -> 0 <= newsz < oldsz -> oldsz <= KERNBASE ->
  (forall s' l' us', unmapped s l pd dir us (pgtop newsz) (pgtop oldsz) s' l' us' -> Q newsz s') ->
  wp (deallocuvm kend pd oldsz newsz) Q s.
Proof.
  intros Hu Hn Ho HQ. unfold deallocuvm. destruct (Z.leb_spec oldsz newsz); [lia|]. unfold KERNBASE in Ho.
  rewrite PGROUNDUP_top by (unfold PGSIZE; lia). wp_steps.
  apply (deallocuvm_loop_spec _ s l pd dir us (pgtop newsz)); [done | | unfold KERNBASE; lia | |].
  - pose proof (pgtop_lt (2 ^ 19) newsz). pose proof (pgtop_lt (-1) newsz). unfold PGSIZE in *. lia.
  - unfold pgtop, PGSIZE. pose proof (Z.div_mod (oldsz + 4096 - 1) 4096 ltac:(lia)). pose proof (Z.mod_pos_bound (oldsz + 4096 - 1) 4096 ltac:(lia)).
    pose proof (Z.div_mod (newsz + 4096 - 1) 4096 ltac:(lia)). pose proof (Z.mod_pos_bound (newsz + 4096 - 1) 4096 ltac:(lia)).
    set (x := (newsz + 4096 - 1) / 4096) in *. set (y := (oldsz + 4096 - 1) / 4096) in *.
    pose proof (Z.div_mod (oldsz - x * 4096) 4096 ltac:(lia)). pose proof (Z.mod_pos_bound (oldsz - x * 4096) 4096 ltac:(lia)). lia.
  - intros s' l' us' Hum. wp_steps. by apply (HQ s' l' us').
Qed.

(** ** Pages the caller holds *)

(** Memory changes only in a page that is neither the directory nor a table. *)
Lemma us_write s l pd dir us v s' l' : uspace s l pd dir us -> page_ok kend v -> v <> pd -> (forall i, dir !! i <> Some v) ->
  outside v (km_mem s) (km_mem s') -> kinv kend s' l' -> NoDup (owned pd dir us l') -> uspace s' l' pd dir us.
Proof.
  intros Hu Hv Hvpd Hvt Ho Hk Hnd. pose proof (us_dir _ _ _ _ _ Hu) as Hd.
  assert (forall w, page_ok kend w -> w <> v -> same_on w PGSIZE (km_mem s) (km_mem s')) as Hs.
  { intros w Hw Hne a Ha. apply Ho. destruct (mod_page_gap w v); [apply Hw | apply Hv | done | lia | lia]. }
  assert (forall k, 0 <= k < 2 ^ 19 -> entry (km_mem s') dir k = entry (km_mem s) dir k) as He.
  { intros k Hk'. apply (entry_ext kend Hend _ _ pd); [done | unfold vpn_ok; lia|]. intros i t Ht. apply Hs; [by eapply (do_tab _ _ _ _ Hd) | intros ->; by apply (Hvt i)]. }
  split; [done | | | | done].
  - apply (dir_ok_ext kend Hend (km_mem s)); [done|]. apply Hs; [apply Hd | congruence].
  - intros n w Hn. destruct (us_page _ _ _ _ _ Hu n w Hn) as (H1 & H2 & f & Hf & Ef). split_and!; [lia | lia | done |]. exists f. by rewrite He by lia.
  - intros n Hn Hnone. rewrite He by lia. by apply (us_none _ _ _ _ _ Hu).
Qed.

Lemma owned_cons pd dir us v l : owned pd dir us (v :: l) ≡ₚ v :: owned pd dir us l.
Proof. unfold owned. rewrite <- (Permutation_middle (upages us) l v), <- Permutation_middle. apply perm_swap. Qed.

(** A page taken from the free list and filled. *)
Lemma us_take s v l pd dir us m' : uspace s (v :: l) pd dir us -> kinv kend (set_freelist s (load32 (km_mem s) v)) l -> outside v (km_mem s) m' ->
  uspace (set_mem (set_freelist s (load32 (km_mem s) v)) m') l pd dir us /\ page_ok kend v /\ v ∉ owned pd dir us l.
Proof.
  intros Hu Hk Ho. pose proof (ki_pages _ _ _ (us_kinv _ _ _ _ _ Hu)) as Hpg. apply Forall_cons in Hpg as [Hv Hpl].
  pose proof (us_nodup _ _ _ _ _ Hu) as Hnd. rewrite owned_cons in Hnd. apply NoDup_cons in Hnd as [Hvo Hnd]. split_and!; [|done|done].
  apply (us_write s (v :: l) pd dir us v); [done | done | | | done | | done].
  - intros ->. apply Hvo. apply elem_owned. auto.
  - intros i Hi. apply Hvo. apply elem_owned. eauto.
  - apply (kinv_write kend Hend); [done|]. cbn [set_freelist km_mem]. intros w Hw a Ha. apply Ho. rewrite Forall_forall in Hpl.
    destruct (mod_page_gap w v); [by apply Hpl | apply Hv | intros ->; apply Hvo; apply elem_owned; auto | lia | lia].
Qed.

(** A page given back. *)
Lemma us_give s v l pd dir us s' : uspace s l pd dir us -> page_ok kend v -> v ∉ owned pd dir us l ->
  kinv kend s' (v :: l) -> outside v (km_mem s) (km_mem s') -> uspace s' (v :: l) pd dir us.
Proof.
  intros Hu Hv Hvo Hk Ho. apply (us_write s l pd dir us v); [done | done | | | done | done |].
  - intros ->. apply Hvo. apply elem_owned. auto.
  - intros i Hi. apply Hvo. apply elem_owned. eauto.
  - rewrite owned_cons. apply NoDup_cons. split; [done | apply Hu].
Qed.
End space.
