(* ===== verification/VmAlloc.v ===== *)
(** * Growing and shrinking an address space

    [allocuvm] and [deallocuvm] on the address spaces of [VmSpace.v]: the
    memory below the old size is kept, new memory reads as zero, a failure
    gives every page back, and no page outside the process and the free list
    is touched. *)

From S2P Require Import Prelude CString Memory Kalloc Vm VmEntries VmSpace.
Import Kstring.

Section alloc.
Context (kend : Z) (Hend : KERNBASE < kend).

(** Pages [n0] to [n] have been added to the address space. *)
Record allocating (s0 : kmem) (l0 : list Z) (dir0 us0 : gmap Z Z) (pd n0 n : Z) (s : kmem) (l : list Z) (dir us : gmap Z Z) : Prop := {
  al_space : uspace kend s l pd dir us;
  al_owned : owned pd dir us l ≡ₚ owned pd dir0 us0 l0;
  al_dir : dir0 ⊆ dir;
  al_old : forall k, ~ n0 <= k < n -> us !! k = us0 !! k;
  al_new : forall k, n0 <= k < n -> exists v, us !! k = Some v /\ forall a, in_page v a -> km_mem s a = 0;
  al_fresh : forall k, n0 <= k < n -> us0 !! k = None;
  al_same : forall k v, us0 !! k = Some v -> same_on v PGSIZE (km_mem s0) (km_mem s);
  al_frame : framed (owned pd dir0 us0 l0) (km_mem s0) (km_mem s);
}.

Lemma allocating_refl s l dir us pd n : uspace kend s l pd dir us -> allocating s l dir us pd n n s l dir us.
Proof. intros Hu. split; try done; intros k Hk; lia. Qed.

(** Memory after a page is cleared. *)
Lemma clear_page m v : page_ok kend v -> outside v m (memset v 0 PGSIZE m) /\ forall a, in_page v a -> memset v 0 PGSIZE m a = 0.
Proof.
  intros Hv. destruct (page_ok_bounds kend Hend v Hv) as [H1 H2]. unfold KERNBASE, PHYSTOP in *. split.
  - intros a Ha. rewrite memset_correct by (unfold PGSIZE in *; lia). zb; simpl; try lia; done.
  - intros a Ha. unfold in_page in Ha. rewrite memset_correct by (unfold PGSIZE in *; lia). zb; simpl; try lia; done.
Qed.

(** Pages that are not taken, not the directory and not a table are kept when
    the page [v] is taken, filled and mapped. *)
Lemma take_map_keeps s v l pd dir us m1 s' l' dir' w : uspace kend s (v :: l) pd dir us -> outside v (km_mem s) m1 ->
  grown kend (set_mem (set_freelist s (load32 (km_mem s) v)) m1) l dir s' l' dir' pd ->
  page_ok kend w -> w ∉ owned pd dir ∅ (v :: l) -> same_on w PGSIZE (km_mem s) (km_mem s').
Proof.
  intros Hu Ho Hg Hw Hwo a Ha. pose proof (ki_pages _ _ _ (us_kinv _ _ _ _ _ _ Hu)) as Hpg. apply Forall_cons in Hpg as [Hv _].
  assert (w <> v /\ w <> pd /\ (forall i, dir !! i <> Some w) /\ w ∉ l) as (H1 & H2 & H3 & H4).
  { split_and!; [| | intros i Hi |]; try intros ->; try intros ?; apply Hwo; apply elem_owned; rewrite ?elem_of_cons; eauto. }
  rewrite (grown_keeps kend _ _ _ _ _ _ _ w Hg Hw H2 H3 H4 a Ha). cbn [set_mem set_freelist km_mem].
  apply Ho. destruct (mod_page_gap w v); [apply Hw | apply Hv | done | lia | lia].
Qed.
(** In particular the pages of the address space. *)
Lemma take_map_user s v l pd dir us m1 s' l' dir' k w : uspace kend s (v :: l) pd dir us -> outside v (km_mem s) m1 ->
  grown kend (set_mem (set_freelist s (load32 (km_mem s) v)) m1) l dir s' l' dir' pd ->
  us !! k = Some w -> same_on w PGSIZE (km_mem s) (km_mem s').
Proof.
  intros Hu Ho Hg Hk. destruct (us_sep kend _ _ _ _ _ Hu k w Hk) as (H1 & H2 & H3). destruct (us_page kend _ _ _ _ _ Hu k w Hk) as (_ & Hw & _).
  apply (take_map_keeps s v l pd dir us m1 s' l' dir'); [done | done | done | done |].
  rewrite elem_owned. intros [?|[[i Hi]|[[i Hi]|?]]]; [done | by apply (H2 i) | by rewrite lookup_empty in Hi | done].
Qed.

(** One more page. *)
Lemma allocating_step s0 l0 dir0 us0 pd n0 n s v l dir us s' l' dir' :
  allocating s0 l0 dir0 us0 pd n0 n s (v :: l) dir us -> n0 <= n < 2 ^ 19 -> us !! n = None ->
  let s1 := set_mem (set_freelist s (load32 (km_mem s) v)) (memset v 0 PGSIZE (km_mem s)) in
  uspace kend s1 l pd dir us -> page_ok kend v -> v ∉ owned pd dir us l ->
  grown kend s1 l dir s' l' dir' pd ->
  mapped n 1 (V2P v) (Z.lor PTE_W PTE_U) (entry (km_mem s1) dir) (entry (km_mem s') dir') -> 0 <= n ->
  allocating s0 l0 dir0 us0 pd n0 (n + 1) s' l' dir' (<[n := v]> us).
Proof.
  intros Hal Hn Hnone s1 Hu1 Hv Hvo Hg Hm Hn0. pose proof (al_space _ _ _ _ _ _ _ _ _ _ _ Hal) as Hu.
  destruct (us_map kend s1 l dir s' l' dir' pd us n v (Z.lor PTE_W PTE_U)) as [Hu' Hown]; [done | done | done | lia | done | done | done | done |].
  assert (forall k w, us !! k = Some w -> same_on w PGSIZE (km_mem s) (km_mem s')) as Hkeep.
  { intros k w. by apply (take_map_user s v l pd dir us _ s' l' dir' k w Hu (proj1 (clear_page (km_mem s) v Hv))). }
  split; [done | | | | | | |].
  - by rewrite Hown, <- owned_cons, (al_owned _ _ _ _ _ _ _ _ _ _ _ Hal).
  - transitivity dir; [apply Hal | apply Hg].
  - intros k Hk. rewrite lookup_insert_ne by lia. apply Hal. lia.
  - intros k Hk. destruct (decide (k = n)) as [->|Hne].
    + exists v. rewrite lookup_insert_eq. split; [done|]. intros a Ha.
      rewrite (grown_keeps kend _ _ _ _ _ _ _ v Hg Hv) by (first [exact Ha | intros ->; apply Hvo; apply elem_owned; auto
        | intros i Hi; apply Hvo; apply elem_owned; eauto | intros Hin; apply Hvo; apply elem_owned; auto]).
      by apply (clear_page (km_mem s) v Hv).
    + destruct (al_new _ _ _ _ _ _ _ _ _ _ _ Hal k ltac:(lia)) as (w & Hw & Hz). exists w. rewrite lookup_insert_ne by congruence. split; [done|].
      intros a Ha. rewrite (Hkeep k w Hw a Ha). by apply Hz.
  - intros k Hk. destruct (decide (k = n)) as [->|]; [rewrite <- (al_old _ _ _ _ _ _ _ _ _ _ _ Hal) by lia; done | apply Hal; lia].
  - intros k w Hk a Ha. rewrite <- (al_same _ _ _ _ _ _ _ _ _ _ _ Hal k w Hk a Ha). apply (Hkeep k w); [|done].
    rewrite (al_old _ _ _ _ _ _ _ _ _ _ _ Hal); [done|]. intros Hr. by rewrite (al_fresh _ _ _ _ _ _ _ _ _ _ _ Hal k Hr) in Hk.
  - eapply framed_trans; [symmetry; apply Hal | apply Hal |]. intros a Ha. rewrite (grown_framed kend _ _ _ _ _ _ _ us Hg a).
    + apply (proj1 (clear_page (km_mem s) v Hv)). assert (~ in_page v a) as Hna by (apply Ha; apply elem_owned; rewrite elem_of_cons; auto).
      unfold in_page in Hna. lia.
    + intros w Hw. apply Ha. rewrite owned_cons. by apply elem_of_cons; right.
Qed.

(** Giving the new pages back. *)
Lemma allocating_undo s0 l0 dir0 us0 pd n0 n top s l dir us s' l' us' :
  allocating s0 l0 dir0 us0 pd n0 n s l dir us -> n <= top -> (forall k, n0 <= k < top -> us0 !! k = None) ->
  unmapped kend s l pd dir us n0 top s' l' us' -> allocating s0 l0 dir0 us0 pd n0 n0 s' l' dir us'.
Proof.
  intros Hal Hn Hnone Hum. assert (us' = us0) as Hus.
  { apply map_eq. intros k. rewrite (um_us _ _ _ _ _ _ _ _ _ _ _ Hum). destruct (Z.leb_spec n0 k), (Z.ltb_spec k top); cbn [andb];
      try (apply Hal; lia). symmetry. apply Hnone. lia. }
  split; [apply Hum | | apply Hal | by intros; rewrite Hus | lia | lia | |].
  - by rewrite (um_owned _ _ _ _ _ _ _ _ _ _ _ Hum), (al_owned _ _ _ _ _ _ _ _ _ _ _ Hal).
  - intros k v Hk a Ha. rewrite (um_same _ _ _ _ _ _ _ _ _ _ _ Hum k v) by (rewrite ?Hus; done). by apply (al_same _ _ _ _ _ _ _ _ _ _ _ Hal k v).
  - eapply framed_trans; [symmetry; apply Hal | apply Hal | apply Hum].
Qed.

(** A page the caller holds, given back at the end. *)
Lemma allocating_give s0 l0 dir0 us0 pd n0 v s l dir us s' : uspace kend s l pd dir us -> page_ok kend v -> v ∉ owned pd dir us l ->
  v :: owned pd dir us l ≡ₚ owned pd dir0 us0 l0 -> dir0 ⊆ dir -> us = us0 ->
  (forall k w, us0 !! k = Some w -> same_on w PGSIZE (km_mem s0) (km_mem s)) -> framed (owned pd dir0 us0 l0) (km_mem s0) (km_mem s) ->
  kinv kend s' (v :: l) -> outside v (km_mem s) (km_mem s') -> allocating s0 l0 dir0 us0 pd n0 n0 s' (v :: l) dir us.
Proof.
  intros Hu Hv Hvo Hown Hdir -> Hsame Hfr Hk Ho.
  split; [by apply (us_give kend Hend s) | by rewrite owned_cons | done | done | lia | lia | |].
  - intros k w Hkw a Ha. rewrite <- (Hsame k w Hkw a Ha). apply Ho. destruct (us_page _ _ _ _ _ _ Hu k w Hkw) as (_ & [Hw _] & _).
    destruct (mod_page_gap w v); [done | apply Hv | intros ->; apply Hvo; apply elem_owned; eauto | lia | lia].
  - intros a Ha. rewrite <- (Hfr a Ha). apply Ho. assert (~ in_page v a) as Hna by (apply Ha; rewrite <- Hown; left). unfold in_page in Hna. lia.
Qed.

Lemma allocating_numberz s0 l0 dir0 us0 pd n0 n s l dir us z : allocating s0 l0 dir0 us0 pd n0 n s l dir us ->
  allocating s0 l0 dir0 us0 pd n0 n (set_numberz s z) l dir us.
Proof. intros [[[K1 K2 K3] U2 U3 U4 U5] H2 H3 H4 H5 H6 H7 H8]. by split. Qed.

(** ** [allocuvm] *)

Section loop.
Context (s0 : kmem) (l0 : list Z) (dir0 us0 : gmap Z Z) (pd oldsz newsz : Z).
Context (Hsz : 0 <= oldsz <= newsz) (Hnew : newsz < KERNBASE).
Context (Hnone : forall k, pgtop oldsz <= k < pgtop newsz -> us0 !! k = None).
Let n0 := pgtop oldsz.
Let top := pgtop newsz.
Let grown_to n s l dir us := allocating s0 l0 dir0 us0 pd n0 n s l dir us.

(** The error path: [deallocuvm(pgdir, newsz, oldsz)]. *)
Lemma alloc_undo n s l dir us Q : uspace kend s l pd dir us -> n0 <= n < top ->
  (forall s' l' us', unmapped kend s l pd dir us n0 top s' l' us' -> Q oldsz s') ->
  wp (deallocuvm kend pd newsz oldsz) Q s.
Proof.
  intros Hu Hn HQ. apply (deallocuvm_spec kend Hend s l pd dir us); [done | | lia | done].
  destruct (decide (oldsz = newsz)) as [E|]; [|lia]. exfalso. unfold n0, top in Hn. rewrite E in Hn. lia.
Qed.

(** The page could not be mapped: the others are freed, then this one. *)
Lemma alloc_fail n s v l dir us s2 dir2 s3 l3 us3 s4 :
  let s1 := set_mem (set_freelist s (load32 (km_mem s) v)) (memset v 0 PGSIZE (km_mem s)) in
  grown_to n s (v :: l) dir us -> n0 <= n < top -> page_ok kend v -> v ∉ owned pd dir us l ->
  grown kend s1 l dir s2 [] dir2 pd -> unmapped kend s2 [] pd dir2 us n0 top s3 l3 us3 ->
  kinv kend s4 (v :: l3) -> outside v (km_mem s3) (km_mem s4) -> grown_to n0 s4 (v :: l3) dir2 us3.
Proof.
  intros s1 Hal Hn Hv Hvo Hg Hum Hk4 Ho4. pose proof (al_space _ _ _ _ _ _ _ _ _ _ _ Hal) as Hu.
  assert (owned pd dir2 us3 l3 ≡ₚ owned pd dir us l) as Hown by (rewrite (um_owned _ _ _ _ _ _ _ _ _ _ _ Hum); apply (grown_owned kend _ _ _ _ _ _ _ us Hg)).
  assert (us3 = us0) as Hus.
  { apply map_eq. intros k. rewrite (um_us _ _ _ _ _ _ _ _ _ _ _ Hum). destruct (Z.leb_spec n0 k), (Z.ltb_spec k top); cbn [andb];
      try (apply Hal; lia). symmetry. apply Hnone. fold n0 top. lia. }
  assert (v :: owned pd dir us l ≡ₚ owned pd dir0 us0 l0) as Hown0 by (rewrite <- owned_cons; apply Hal).
  apply (allocating_give s0 l0 dir0 us0 pd n0 v s3 l3 dir2 us3); [apply Hum | done | by rewrite Hown | by rewrite Hown | | done | | | done | done].
  - transitivity dir; [apply Hal | apply Hg].
  - intros k w Hk a Ha. rewrite (um_same _ _ _ _ _ _ _ _ _ _ _ Hum k w) by (rewrite ?Hus; done). rewrite <- (al_same _ _ _ _ _ _ _ _ _ _ _ Hal k w Hk a Ha).
    assert (us !! k = Some w) as Hkw. { rewrite (al_old _ _ _ _ _ _ _ _ _ _ _ Hal); [done|]. intros Hr. by rewrite (al_fresh _ _ _ _ _ _ _ _ _ _ _ Hal k Hr) in Hk. }
    by apply (take_map_user s v l pd dir us _ s2 [] dir2 k w Hu (proj1 (clear_page (km_mem s) v Hv))).
  - intros a Ha. rewrite <- (al_frame _ _ _ _ _ _ _ _ _ _ _ Hal a Ha).
    assert (forall w, w ∈ owned pd dir us l -> ~ in_page w a) as Hal' by (intros w Hw; apply Ha; rewrite <- Hown0; by right).
    rewrite (um_frame _ _ _ _ _ _ _ _ _ _ _ Hum a) by (intros w; rewrite (grown_owned kend _ _ _ _ _ _ _ us Hg); apply Hal').
    rewrite (grown_framed kend _ _ _ _ _ _ _ us Hg a Hal'). apply (proj1 (clear_page (km_mem s) v Hv)).
    assert (~ in_page v a) as Hna by (apply Ha; rewrite <- Hown0; left). unfold in_page in Hna. lia.
Qed.

Lemma allocuvm_loop_spec fuel : forall n s l dir us Q,
  grown_to n s l dir us -> n0 <= n <= top -> (Z.to_nat (top - n) < fuel)%nat ->
  (forall s' l' dir' us', grown_to top s' l' dir' us' -> Q newsz s') ->
  ((length l <= 2 * Z.to_nat (top - n))%nat -> forall s' l' dir' us', grown_to n0 s' l' dir' us' -> Q 0 s') ->
  wp (allocuvm_loop kend fuel pd (n * PGSIZE) oldsz newsz) Q s.
Proof.
  assert (0 <= n0 /\ top <= 2 ^ 19) as [Hn0 Htop].
  { pose proof (pgtop_lt (-1) oldsz). pose proof (pgtop_lt (2 ^ 19) newsz). unfold n0, top, KERNBASE, PGSIZE in *. lia. }
  induction fuel as [|fuel IH]; intros n s l dir us Q Hal Hn Hf Hok Hfail; [lia|]. cbn [allocuvm_loop].
  pose proof (al_space _ _ _ _ _ _ _ _ _ _ _ Hal) as Hu. pose proof (pgtop_lt n newsz) as Hlt. fold top in Hlt.
  destruct (Z.ltb_spec (n * PGSIZE) newsz) as [Hc|Hc].
  2: { assert (n = top) as -> by lia. unfold updatem. wp_steps. eapply Hok. by apply allocating_numberz. }
  assert (n < top) as Hnt by lia. wp_steps. apply (kalloc_spec kend Hend s l); [apply Hu | |].
  { intros ->. cbn. wp_steps. apply (alloc_undo n s [] dir us); [done | lia |]. intros s' l' us' Hum. wp_steps.
    apply (Hfail ltac:(cbn; lia) s' l' dir us'). apply (allocating_undo _ _ _ _ _ _ n top s [] dir us); [done | lia | exact Hnone | done]. }
  intros v l1 -> Hk1. pose proof (ki_pages _ _ _ (us_kinv _ _ _ _ _ _ Hu)) as Hpg. apply Forall_cons in Hpg as [Hv _].
  destruct (page_ok_bounds kend Hend v Hv) as [Hv1 Hv2]. destruct (Z.eqb_spec v 0); [unfold KERNBASE in *; lia|]. unfold kmemset. wp_steps.
  cbn [set_freelist km_mem]. destruct (us_take kend Hend s v l1 pd dir us _ Hu Hk1 (proj1 (clear_page (km_mem s) v Hv))) as (Hu1 & _ & Hvo).
  set (s1 := set_mem (set_freelist s (load32 (km_mem s) v)) (memset v 0 PGSIZE (km_mem s))) in *.
  assert (us !! n = None) as Hnn by (rewrite (al_old _ _ _ _ _ _ _ _ _ _ _ Hal) by lia; apply Hnone; fold n0 top; lia).
  replace (mappages pd (n * PGSIZE) PGSIZE) with (mappages pd (n * PGSIZE) (u32 (1 * PGSIZE))) by (rewrite u32_small; [done | unfold PGSIZE; lia]).
  apply (mappages_within kend Hend s1 l1 pd dir n 1); [by apply us_aspace with (us := us) | lia | lia | lia | apply u32_range | done | |].
  { intros k Hk. assert (k = n) as -> by lia. apply (us_none _ _ _ _ _ _ Hu1); [lia | done]. }
  intros r s2 l2 dir2 j Hg Hj Hm Hr Hw. pose proof (grown_one kend n _ _ _ _ _ _ _ Hg Hw) as Hone. destruct Hr as [[-> ->]|(-> & Hj1 & ->)]; cbn [Z.ltb Z.compare].
  - wp_steps. replace (u32 (n * PGSIZE + PGSIZE)) with ((n + 1) * PGSIZE) by (rewrite u32_small; unfold PGSIZE; lia).
    apply (IH (n + 1) s2 l2 dir2 (<[n := v]> us)); [|lia | lia | done | intros Hl; apply Hfail; cbn; lia].
    apply (allocating_step s0 l0 dir0 us0 pd n0 n s v l1 dir us); done || lia.
  - assert (j = 0) as -> by lia. wp_steps.
    assert (uspace kend s2 [] pd dir2 us) as Hu2.
    { apply (us_grown kend s1 l1 dir _ _ _ _ us Hu1 Hg). intros k Hk. rewrite Hm by done. destruct (Z.leb_spec n k), (Z.ltb_spec k (n + 0)); cbn [andb]; try lia; done. }
    apply (alloc_undo n s2 [] dir2 us); [done | lia |]. intros s3 l3 us3 Hum. wp_steps.
    assert (v ∉ owned pd dir2 us3 l3) as Hvo3.
    { rewrite (um_owned _ _ _ _ _ _ _ _ _ _ _ Hum), (grown_owned kend _ _ _ _ _ _ _ us Hg). done. }
    apply (kfree_spec kend Hend s3 l3); [apply Hum | done | intros Hin; apply Hvo3; apply elem_owned; auto |]. intros s4 Hk4 Ho4. wp_steps.
    apply (Hfail ltac:(cbn in *; lia) s4 (v :: l3) dir2 us3). apply (alloc_fail n s v l1 dir us s2 dir2 s3 l3 us3 s4); done || lia.
Qed.
End loop.

(** [allocuvm] from [oldsz] to [newsz].  Either it returns [newsz] and the
    pages up to [newsz] are mapped, the new ones reading as zero, or it returns
    0 and the address space is as it was, its new pages back on the free list;
    this only where at most two pages are free for each page to map.
    In both cases the pages below [oldsz] keep their place and their bytes, no
    page is lost or used twice, and no byte outside of the process and the
    free pages changes. *)
Lemma allocuvm_spec s l pd dir us oldsz newsz :
  uspace kend s l pd dir us -> 0 <= oldsz <= newsz -> newsz < KERNBASE ->
  (forall k, pgtop oldsz <= k < pgtop newsz -> us !! k = None) ->
  wp (allocuvm kend pd oldsz newsz) (fun r s' => exists l' dir' us',
    uspace kend s' l' pd dir' us' /\ owned pd dir' us' l' ≡ₚ owned pd dir us l /\
    (forall k v, us !! k = Some v -> us' !! k = Some v /\ same_on v PGSIZE (km_mem s) (km_mem s')) /\
    framed (owned pd dir us l) (km_mem s) (km_mem s') /\
    (r = newsz /\ (forall k, ~ pgtop oldsz <= k < pgtop newsz -> us' !! k = us !! k) /\
     (forall k, pgtop oldsz <= k < pgtop newsz -> exists v, us' !! k = Some v /\ forall a, in_page v a -> km_mem s' a = 0)
     \/ r = 0 /\ us' = us /\ (length l <= 2 * Z.to_nat (pgtop newsz - pgtop oldsz))%nat)) s.
Proof using Hend.
  intros Hu Hsz Hnew Hnone. unfold allocuvm. destruct (Z.leb_spec KERNBASE newsz); [lia|]. destruct (Z.ltb_spec newsz oldsz); [lia|].
  unfold KERNBASE in *. rewrite PGROUNDUP_top by (unfold PGSIZE; lia).
  assert (pgtop oldsz <= pgtop newsz) as Hle by (unfold pgtop, PGSIZE; apply Z.div_le_mono; lia).
  assert (forall n s' l' dir' us' k v, allocating s l dir us pd (pgtop oldsz) n s' l' dir' us' -> us !! k = Some v ->
    us' !! k = Some v /\ same_on v PGSIZE (km_mem s) (km_mem s')) as Hkeep.
  { intros n s' l' dir' us' k v Hal Hk. split; [|by apply (al_same _ _ _ _ _ _ _ _ _ _ _ Hal k)].
    rewrite (al_old _ _ _ _ _ _ _ _ _ _ _ Hal); [done|]. intros Hr. by rewrite (al_fresh _ _ _ _ _ _ _ _ _ _ _ Hal k Hr) in Hk. }
  apply (allocuvm_loop_spec s l dir us pd oldsz newsz Hsz ltac:(unfold KERNBASE; lia) Hnone _ (pgtop oldsz) s l dir us).
  - by apply allocating_refl.
  - lia.
  - unfold pgtop, PGSIZE. pose proof (Z.div_mod (newsz + 4096 - 1) 4096 ltac:(lia)). pose proof (Z.mod_pos_bound (newsz + 4096 - 1) 4096 ltac:(lia)).
    set (x := (oldsz + 4096 - 1) / 4096) in *. set (y := (newsz + 4096 - 1) / 4096) in *.
    pose proof (Z.div_mod (newsz - x * 4096) 4096 ltac:(lia)). pose proof (Z.mod_pos_bound (newsz - x * 4096) 4096 ltac:(lia)).
    pose proof (Z.div_mod (oldsz + 4096 - 1) 4096 ltac:(lia)). pose proof (Z.mod_pos_bound (oldsz + 4096 - 1) 4096 ltac:(lia)). fold x in H3. lia.
  - intros s' l' dir' us' Hal. exists l', dir', us'. split_and!; [apply Hal | apply Hal | by intros; eapply Hkeep | apply Hal |]. left. split_and!; [done | apply Hal | apply Hal].
  - intros Hlen s' l' dir' us' Hal. exists l', dir', us'. split_and!; [apply Hal | apply Hal | by intros; eapply Hkeep | apply Hal |]. right. split_and!; [done | | done].
    apply map_eq. intros k. apply Hal. lia.
Qed.

(** [deallocuvm] from [oldsz] down to [newsz] puts exactly the pages above
    [newsz] on the free list; the memory below keeps its bytes and no byte
    outside of the process and the free pages changes. *)
Lemma deallocuvm_range s l pd dir us oldsz newsz :
  uspace kend s l pd dir us -> 0 <= newsz < oldsz -> oldsz <= KERNBASE ->
  (forall k, is_Some (us !! k) -> k < pgtop oldsz) ->
  wp (deallocuvm kend pd oldsz newsz) (fun r s' => r = newsz /\ exists fr us',
    uspace kend s' (fr ++ l) pd dir us' /\ upages us ≡ₚ upages us' ++ fr /\
    (forall k, us' !! k = if k <? pgtop newsz then us !! k else None) /\
    (forall k v, us' !! k = Some v -> same_on v PGSIZE (km_mem s) (km_mem s')) /\
    framed (owned pd dir us l) (km_mem s) (km_mem s')) s.
Proof using Hend.
  intros Hu Hn Ho Hdom. apply (deallocuvm_spec kend Hend s l pd dir us); [done | done | done |]. intros s' l' us' [H1 H2 H3 H4 H5 (fr & ->)].
  split; [done|]. exists fr, us'. split_and!; [done | | | done | done].
  - unfold owned in H2. apply Permutation_cons_inv in H2. apply Permutation_app_inv_l in H2. rewrite app_assoc in H2. symmetry. by apply Permutation_app_inv_r in H2.
  - intros k. rewrite H3. destruct (Z.leb_spec (pgtop newsz) k), (Z.ltb_spec k (pgtop oldsz)), (Z.ltb_spec k (pgtop newsz)); cbn [andb]; try lia; try done.
    destruct (us !! k) eqn:E; [|done]. specialize (Hdom k ltac:(by eexists)). lia.
Qed.
End alloc.

(** ** A process without memory

    An empty page directory at 0x80110000 and two free pages. *)
Definition ex_pd : Z := 0x80110000.
Definition ex_pages : list Z := [0x80111000; 0x80112000].
Definition ex_space : kmem := Kmem (store32 (fun _ => 0) 0x80111000 0x80112000) true 0x80111000 0.

Lemma ex_space_ok : uspace ex_end ex_space ex_pages ex_pd ∅ ∅.
Proof.
  assert (forall v, v ∈ ex_pd :: ex_pages -> page_ok ex_end v) as Hp.
  { intros v Hv. unfold ex_pd, ex_pages in Hv. rewrite !elem_of_cons, elem_of_nil in Hv. unfold page_ok, ex_end, KERNBASE, PHYSTOP.
    naive_solver (done || lia). }
  split.
  - split; [cbn [chain ex_pages]; split_and!; vm_compute; reflexivity | |].
    + unfold ex_pages. apply NoDup_cons. split; [rewrite list_elem_of_singleton; lia | apply NoDup_singleton].
    + apply Forall_forall. intros v Hv. apply Hp. by right.
  - split; [apply Hp; left | | |]; try (intros; by rewrite ?lookup_empty in * ).
    intros i Hi _. unfold ex_space. cbn [km_mem]. rewrite load32_store32_ne by (unfold pde_addr, ex_pd; lia). done.
  - intros n v H. by rewrite lookup_empty in H.
  - done.
  - unfold owned, tabs, upages. rewrite map_to_list_empty. cbn. unfold ex_pd, ex_pages.
    repeat (apply NoDup_cons; split; [rewrite !elem_of_cons, elem_of_nil; lia|]). apply NoDup_singleton.
Qed.
