(* ===== verification/VmProc.v ===== *)
(** * Memory of the current process: growproc

    [growproc] (proc.c) over the address spaces of VmAlloc.v: how the size of
    the process, its pages and the free list move together. *)

From S2P Require Import Prelude CString Bio Layout Blocks Fs Memory Kalloc Vm Pipe Kern File Sysarg Sysfile Exec Proc VmEntries VmSpace VmAlloc.
Import Kstring.

(** The pages of a process of [sz] bytes. *)
Definition sized (us : gmap Z Z) (sz : Z) : Prop := forall k, is_Some (us !! k) <-> 0 <= k < pgtop sz.

Lemma pgtop_0 : pgtop 0 = 0.
Proof. reflexivity. Qed.
Lemma pgtop_mono a b : a <= b -> pgtop a <= pgtop b.
Proof. intros H. unfold pgtop, PGSIZE. apply Z.div_le_mono; lia. Qed.

Section proc.
Context {S : Type} {BL : BlockLayer S} {DS : DevSw S}.
Context (kend : Z) (Hend : KERNBASE < kend).

(** The address space of [s] in terms of that of [s0]: sizes, pages conserved,
    bytes kept below both sizes and zero above the old one. *)
Record resized (sz sz' : Z) (pd : Z) (s0 : kmem) (l0 : list Z) (dir0 us0 : gmap Z Z) (s : kmem) : Prop := {
  rs_space : exists l dir us, uspace kend s l pd dir us /\ sized us sz' /\ owned pd dir us l ≡ₚ owned pd dir0 us0 l0 /\
    (forall k v, us0 !! k = Some v -> k < pgtop sz' -> us !! k = Some v /\ same_on v PGSIZE (km_mem s0) (km_mem s)) /\
    (forall k v, us !! k = Some v -> pgtop sz <= k -> forall a, in_page v a -> km_mem s a = 0);
  rs_frame : framed (owned pd dir0 us0 l0) (km_mem s0) (km_mem s)
}.

Lemma resized_refl sz pd s l dir us : uspace kend s l pd dir us -> sized us sz -> resized sz sz pd s l dir us s.
Proof.
  intros H Hsz. split; [|by intros a]. exists l, dir, us. split_and!; [done | done | done | by intros k v Hk _; split|].
  intros k v Hk Hge. destruct (proj1 (Hsz k) ltac:(by eexists)). lia.
Qed.

Lemma allocuvm_resized s l pd dir us sz newsz : uspace kend s l pd dir us -> sized us sz -> 0 <= sz <= newsz -> newsz < KERNBASE ->
  wp (allocuvm kend pd sz newsz) (fun r s' => r = newsz /\ resized sz newsz pd s l dir us s' \/
    r = 0 /\ resized sz sz pd s l dir us s' /\ (length l <= 2 * Z.to_nat (pgtop newsz - pgtop sz))%nat) s.
Proof.
  intros H Hsz Hle Hk. pose proof (pgtop_mono sz newsz ltac:(lia)) as Hm. pose proof (pgtop_mono 0 sz ltac:(lia)) as H0. rewrite pgtop_0 in H0.
  eapply wp_mono; [apply (allocuvm_spec kend Hend s l pd dir us sz newsz H Hle Hk)|].
  { intros k Hr. apply eq_None_not_Some. intros Hs. apply Hsz in Hs. lia. }
  intros r s' (l' & dir' & us' & Hu & Hp & Hold & Hfr & Hor). destruct Hor as [(-> & Hrest & Hnew)|(-> & -> & Hlen)].
  - left. split; [done|]. split; [|done]. exists l', dir', us'. split_and!; [done | | done | by intros; apply Hold |].
    + intros k. destruct (decide (pgtop sz <= k < pgtop newsz)) as [Hr|Hr]; [destruct (Hnew k Hr) as (v & -> & _); split; [lia | by eexists]|].
      rewrite (Hrest k Hr), (Hsz k). lia.
    + intros k v Hkv Hge a Ha. assert (k < pgtop newsz).
      { destruct (Z.lt_ge_cases k (pgtop newsz)) as [|Hge']; [done|]. rewrite (Hrest k ltac:(lia)) in Hkv. destruct (proj1 (Hsz k) ltac:(by eexists)). lia. }
      destruct (Hnew k ltac:(lia)) as (v' & Hv' & Hz). rewrite Hkv in Hv'. injection Hv' as ->. by apply Hz.
  - right. split; [done|]. split; [|done]. split; [|done]. exists l', dir', us. split_and!; try done; [by intros; apply Hold|]. intros k v Hkv Hge. destruct (proj1 (Hsz k) ltac:(by eexists)). lia.
Qed.

Lemma deallocuvm_resized s l pd dir us sz newsz : uspace kend s l pd dir us -> sized us sz -> 0 <= newsz < sz -> sz < KERNBASE ->
  wp (deallocuvm kend pd sz newsz) (fun r s' => r = newsz /\ resized sz newsz pd s l dir us s') s.
Proof.
  intros H Hsz Hle Hk. pose proof (pgtop_mono newsz sz ltac:(lia)) as Hm. pose proof (pgtop_mono 0 newsz ltac:(lia)) as H0. rewrite pgtop_0 in H0.
  eapply wp_mono; [apply (deallocuvm_range kend Hend s l pd dir us sz newsz H Hle ltac:(lia))|].
  { intros k Hs. by apply Hsz. }
  intros r s' (-> & fr & us' & Hu & Hp & Hus & Hsame & Hfr). split; [done|]. split; [|done]. exists (fr ++ l), dir, us'.
  assert (sized us' newsz) as Hsz'.
  { intros k. rewrite Hus. destruct (Z.ltb_spec k (pgtop newsz)); [rewrite (Hsz k); lia|]. split; [by intros [? ?] | lia]. }
  split_and!; [done | done | | |].
  - unfold owned. rewrite Hp. by rewrite <- !app_assoc.
  - intros k v Hkv Hlt. assert (us' !! k = Some v) as E by (rewrite Hus; destruct (Z.ltb_spec k (pgtop newsz)); [done | lia]). split; [done | by apply (Hsame k)].
  - intros k v Hkv Hge. destruct (proj1 (Hsz' k) ltac:(by eexists)). lia.
Qed.

(** The pages after the call of vm.c in [growproc]. *)
Lemma growproc_vm (s : kern S) p l dir us n :
  0 <= p_sz p < KERNBASE -> - 2 ^ 31 <= n < 2 ^ 31 -> uspace kend (k_kmem s) l (p_pgdir p) dir us -> sized us (p_sz p) ->
  wp (if 0 <? n then onkm (allocuvm kend (p_pgdir p) (p_sz p) (u32 (p_sz p + n)))
      else if n <? 0 then onkm (deallocuvm kend (p_pgdir p) (p_sz p) (u32 (p_sz p + n)))
      else ret (p_sz p))
    (fun r s1 => exists m grant, s1 = set_kmem m s /\ r = brk_ret grant (p_sz p) n /\
       (grant = true \/ (length l <= 2 * Z.to_nat (pgtop (p_sz p + n) - pgtop (p_sz p)))%nat) /\
       resized (p_sz p) (if negb (n =? 0) && (r =? 0) then if n <? 0 then 0 else p_sz p else r) (p_pgdir p) (k_kmem s) l dir us m) s.
Proof using Hend.
  intros Hsz Hn Hu Hus. pose proof (resized_refl _ _ _ _ _ _ Hu Hus) as Hid. unfold brk_ret. set (sz := p_sz p) in *.
  destruct (Z.ltb_spec 0 n) as [Hpos|Hpos].
  - rewrite u32_small by (unfold KERNBASE in *; lia). destruct (Z.eqb_spec n 0); [lia|]. destruct (Z.ltb_spec n 0); [lia|]. cbn [negb andb].
    unfold onkm. apply wp_zoom. destruct (Z.leb_spec KERNBASE (sz + n)) as [Hbig|Hfit].
    + unfold allocuvm. rewrite (proj2 (Z.leb_le _ _) Hbig). apply wp_ret. exists (k_kmem s), true. by split_and!; [| |left|].
    + destruct (Z.ltb_spec (sz + n) sz); [lia|]. eapply wp_mono; [by apply (allocuvm_resized (k_kmem s) l _ dir us sz (sz + n)); [| |lia|]|].
      intros r m [[-> Hr]|(-> & Hr & Hl)]; [exists m, true | exists m, false; by split_and!; [| |right|]]. split_and!; [done | done | by left|]. destruct (Z.eqb_spec (sz + n) 0); [lia | done].
  - destruct (Z.ltb_spec n 0) as [Hneg|Hneg].
    + destruct (Z.eqb_spec n 0); [lia|]. cbn [negb andb]. unfold onkm. apply wp_zoom. pose proof (u32_range (sz + n)). destruct (Z.leb_spec sz (u32 (sz + n))) as [Hge|Hlt].
      * unfold deallocuvm. rewrite (proj2 (Z.leb_le _ _) Hge). apply wp_ret. exists (k_kmem s), true. split_and!; [by destruct s | done | by left|]. destruct (Z.eqb_spec sz 0) as [E|]; [by rewrite E in Hid |- * | done].
      * eapply wp_mono; [by apply (deallocuvm_resized (k_kmem s) l _ dir us sz (u32 (sz + n))); [| |lia|lia]|]. intros r m [-> Hr]. exists m, true. split_and!; [done | done | by left|].
        destruct (Z.eqb_spec (u32 (sz + n)) 0) as [E|]; [by rewrite E in Hr | done].
    + assert (n = 0) as -> by lia. apply wp_ret. exists (k_kmem s), true. split_and!; [by destruct s | done | by left | done].
Qed.

(** What [brk_ret] says of the size. *)
Lemma brk_ret_cases grant sz n : 0 <= sz < KERNBASE -> - 2 ^ 31 <= n < 2 ^ 31 ->
  let r := brk_ret grant sz n in
  if negb (n =? 0) && (r =? 0) then 0 < n /\ (KERNBASE <= sz + n \/ grant = false) \/ n < 0 /\ (sz = 0 \/ sz + n = 0)
  else r = (if sz + n <? 0 then sz else sz + n) /\ (n <> 0 -> 0 < r < KERNBASE).
Proof.
  intros Hsz Hn r. unfold r, brk_ret. destruct (Z.ltb_spec 0 n) as [Hp|Hp].
  - rewrite u32_small by (unfold KERNBASE in *; lia). destruct (Z.leb_spec KERNBASE (sz + n)), (Z.ltb_spec (sz + n) sz), (Z.ltb_spec (sz + n) 0), (Z.eqb_spec n 0), grant; try lia;
      cbn [negb andb]; try (rewrite Z.eqb_refl; by auto); destruct (Z.eqb_spec (sz + n) 0); lia.
  - destruct (Z.ltb_spec n 0) as [Hneg|Hneg]; [|assert (n = 0) as -> by lia; cbn [Z.eqb negb andb]; rewrite Z.add_0_r; destruct (Z.ltb_spec sz 0); lia].
    assert (u32 (sz + n) = if sz + n <? 0 then sz + n + 2 ^ 32 else sz + n) as ->.
    { destruct (Z.ltb_spec (sz + n) 0); [|apply u32_small; unfold KERNBASE in *; lia]. symmetry. transitivity ((sz + n + 2 ^ 32) mod 2 ^ 32); [symmetry; apply Z.mod_small; unfold KERNBASE in *; lia|].
      change (u32 (sz + n)) with ((sz + n) mod 2 ^ 32). by rewrite <- Zplus_mod_idemp_r, Z_mod_same_full, Z.add_0_r. }
    destruct (Z.eqb_spec n 0); [lia|]. cbn [negb andb]. destruct (Z.ltb_spec (sz + n) 0).
    + destruct (Z.leb_spec sz (sz + n + 2 ^ 32)); [|unfold KERNBASE in *; lia]. destruct (Z.eqb_spec sz 0); lia.
    + destruct (Z.leb_spec sz (sz + n)); [lia|]. destruct (Z.eqb_spec (sz + n) 0); lia.
Qed.

(** C23: [growproc(n)] of a process with [sz] bytes.  If it returns 0, the size
    of the process is [sz + n] (or still [sz], where that is negative), and the
    process has exactly the pages for it: the bytes below both sizes are kept,
    the pages above the old size read as zero, and no page is lost or shared.
    If it returns -1, the recorded size is as it was.  For [n > 0] the memory
    is then as it was too, and the new size would reach [KERNBASE] or at most
    two pages were free for each page to add; for [n < 0] the process had no
    memory or asked to give all of it up, and in this case all its pages are
    gone although the call fails. *)
Theorem growproc_correct (s : kern S) p l dir us n :
  k_procs s !! k_self s = Some p -> p_kstack p <> 0 -> 0 <= p_sz p < KERNBASE -> - 2 ^ 31 <= n < 2 ^ 31 ->
  uspace kend (k_kmem s) l (p_pgdir p) dir us -> sized us (p_sz p) ->
  wp (growproc kend n) (fun r s' =>
    let sz := p_sz p in
    r = 0 /\ (exists sz', sz' = (if sz + n <? 0 then sz else sz + n) /\ (n <> 0 -> 0 < sz' < KERNBASE) /\
      k_procs s' = alter (with_mm sz' (p_pgdir p)) (k_self s) (k_procs s) /\ resized sz sz' (p_pgdir p) (k_kmem s) l dir us (k_kmem s')) \/
    r = -1 /\ k_procs s' = k_procs s /\
      (0 < n /\ (KERNBASE <= sz + n \/ (length l <= 2 * Z.to_nat (pgtop (sz + n) - pgtop sz))%nat) /\
         resized sz sz (p_pgdir p) (k_kmem s) l dir us (k_kmem s') \/
       n < 0 /\ (sz = 0 \/ sz + n = 0) /\ resized sz 0 (p_pgdir p) (k_kmem s) l dir us (k_kmem s'))) s.
Proof using Hend.
  intros Hp Hks Hsz Hn Hu Hus. assert (p_pgdir p <> 0) as Hpd.
  { pose proof (page_ok_bounds _ Hend _ (do_pd _ _ _ _ (us_dir _ _ _ _ _ _ Hu))). unfold KERNBASE in *. lia. }
  assert (self s = Ret p s) as Hself by (unfold self, getp, the, bind, get; by rewrite Hp).
  unfold growproc. apply wp_bind, (wp_intro _ _ _ _ _ Hself), wp_bind. eapply wp_mono; [by apply (growproc_vm s p l dir us n)|].
  intros r s1 (m & grant & -> & -> & Hg & Hr). pose proof (brk_ret_cases grant (p_sz p) n Hsz Hn) as Hc. cbv zeta in Hc.
  set (r := brk_ret grant (p_sz p) n) in *. destruct (negb (n =? 0) && (r =? 0)) eqn:Er.
  - apply wp_ret. right. split_and!; [done | done|].
    destruct Hc as [[Hpos Hc]|[Hneg Hc]]; [left | right]; destruct (Z.ltb_spec n 0); try lia; split_and!; try done.
    destruct Hc as [Hc| ->]; [by left|]. destruct Hg as [Hg|Hg]; [done | by right].
  - apply wp_bind. unfold modself, modp. apply wp_bind, wp_get, wp_modify.
    set (s2 := set_procs _ _). assert (self s2 = Ret (with_mm r (p_pgdir p) p) s2) as Hself2.
    { unfold self, getp, the, bind, get, s2. cbn. by rewrite list_lookup_alter_eq, Hp. }
    apply wp_bind, (wp_intro _ _ _ _ _ Hself2). apply wp_bind. unfold switchuvm. cbn [p_kstack p_pgdir with_mm].
    destruct (Z.eqb_spec (p_kstack p) 0); [done|]. destruct (Z.eqb_spec (p_pgdir p) 0); [done|]. apply wp_ret, wp_ret.
    left. split; [done|]. exists r. split_and!; [apply Hc | apply Hc | | done]. apply list_alter_ext; [|done].
    intros x Hx. cbn in Hx. rewrite Hp in Hx. by injection Hx as <-.
Qed.
End proc.

(** The process without memory of VmAlloc.v. *)
Definition ex_proc : proc := with_kstack 0x80113000 (with_mm 0 ex_pd (with_state RUNNING proc0)).
Definition ex_kern : kern unit :=
  Kern (Fs tt (SuperBlock 0 0 0 0 0 0 0) []) [] ∅ ex_space [ex_proc] 0 None 2 0 [] 0.

Lemma growproc_correct_witness : exists r s', growproc ex_end 4096 ex_kern = Ret r s' /\ (r = 0 \/ r = -1).
Proof.
  assert (KERNBASE < ex_end) as He by (unfold KERNBASE, ex_end; lia). assert (0 <= p_sz ex_proc < KERNBASE) as Hs by (cbn; unfold KERNBASE; lia).
  assert (sized ∅ (p_sz ex_proc)) as Hz by (intros k; rewrite lookup_empty; cbn; rewrite pgtop_0; split; [by intros [? ?] | lia]).
  assert (p_kstack ex_proc <> 0) as Hk by (cbn; lia). assert (- 2 ^ 31 <= 4096 < 2 ^ 31) as Hn by lia.
  pose proof (growproc_correct ex_end He ex_kern ex_proc ex_pages ∅ ∅ 4096 eq_refl Hk Hs Hn ex_space_ok Hz) as W. apply wp_run in W.
  destruct W as (r & s' & E & Hr). exists r, s'. split; [exact E|]. destruct Hr as [[-> _]|[-> _]]; [by left | by right].
Defined.
