(* ===== verification/VmCopy.v ===== *)
(** * Creating, copying and destroying address spaces

    [setupkvm], [copyuvm] and [freevm]: a new address space shares no page
    with any other, a copy has the same bytes, and destroying an address space
    gives all its pages back. *)

From S2P Require Import Prelude CString Memory Kalloc Vm VmEntries VmSpace VmAlloc.
Import Kstring.

Section copy.
Context (kend : Z) (Hend : KERNBASE < kend).

(** ** [freevm] *)

(** The loop over the directory: [D] are the tables not yet freed. *)
Record freeing (pd : Z) (dir : gmap Z Z) (s : kmem) (l : list Z) (i : Z) (s' : kmem) (l' : list Z) (D : gmap Z Z) : Prop := {
  fr_kinv : kinv kend s' l';
  fr_dir : forall k, D !! k = if i <=? k then dir !! k else None;
  fr_perm : tabs D ++ l' ≡ₚ tabs dir ++ l;
  fr_pd : same_on pd PGSIZE (km_mem s) (km_mem s');
  fr_frame : framed (tabs dir ++ l) (km_mem s) (km_mem s');
}.

Lemma tabs_delete i t (D : gmap Z Z) : D !! i = Some t -> tabs D ≡ₚ t :: tabs (delete i D).
Proof. apply upages_delete. Qed.

Lemma freeing_step pd dir s l i s' l' D Q : NoDup (pd :: tabs dir ++ l) -> dir_ok kend (km_mem s) pd dir -> 0 <= i < 1024 ->
  freeing pd dir s l i s' l' D -> (forall s2 l2 D2, freeing pd dir s l (i + 1) s2 l2 D2 -> Q tt s2) ->
  wp (let! e := peek32 (u32 (pd + 4 * i)) in when (negb (Z.land e PTE_P =? 0)) (kfree kend (P2V (PTE_ADDR e)))) Q s'.
Proof.
  intros Hnd Hd Hi Hf HQ. destruct (page_addr kend Hend pd i (do_pd _ _ _ _ Hd) Hi) as (-> & H1 & H2). fold (pde_addr pd i).
  unfold peek32. wp_steps. destruct (page_ok_bounds kend Hend pd (do_pd _ _ _ _ Hd)) as [Hb1 Hb2].
  assert (load32 (km_mem s') (pde_addr pd i) = load32 (km_mem s) (pde_addr pd i)) as ->.
  { unfold pde_addr, KERNBASE, PHYSTOP in *. apply load32_ext; [lia | unfold PGSIZE in *; lia |]. intros a Ha. apply (fr_pd _ _ _ _ _ _ _ _ Hf). lia. }
  destruct (dir !! i) as [t|] eqn:E.
  - destruct (do_tab _ _ _ _ Hd _ _ E) as (_ & Ht & Htpd & ->). destruct (page_ok_bounds kend Hend t Ht) as [Ht1 Ht2].
    destruct (mk_pte_spec t (Z.lor PTE_W PTE_U)) as (_ & Hp & Hpg & _);
      [unfold KERNBASE, PHYSTOP, PGSIZE in *; lia | apply Ht | change (0 <= 6 < 4096); lia |].
    unfold present in Hp. rewrite Hp. unfold pte_page in Hpg. rewrite Hpg. cbn [when].
    assert (D !! i = Some t) as HDi by (rewrite (fr_dir _ _ _ _ _ _ _ _ Hf), (proj2 (Z.leb_le i i)) by lia; done).
    assert (tabs (delete i D) ++ t :: l' ≡ₚ tabs dir ++ l) as Hperm.
    { rewrite <- (fr_perm _ _ _ _ _ _ _ _ Hf), (tabs_delete i t D HDi). symmetry. apply Permutation_middle. }
    assert (t ∉ l' /\ t ∈ tabs dir ++ l) as [Htl Hto].
    { apply NoDup_cons in Hnd as [_ Hnd]. rewrite <- Hperm in Hnd. split; [|rewrite <- Hperm; set_solver].
      apply NoDup_app in Hnd as (_ & _ & Hnd). by apply NoDup_cons in Hnd as [? _]. }
    apply (kfree_spec kend Hend s' l'); [apply Hf | done | done |]. intros s2 Hk2 Ho2. apply (HQ s2 (t :: l') (delete i D)).
    split; [done | | done | |].
    + intros k. destruct (decide (k = i)) as [->|Hne].
      * rewrite lookup_delete_eq. destruct (Z.leb_spec (i + 1) i); [lia | done].
      * rewrite lookup_delete_ne, (fr_dir _ _ _ _ _ _ _ _ Hf) by congruence. destruct (Z.leb_spec i k), (Z.leb_spec (i + 1) k); try lia; done.
    + intros a Ha. rewrite <- (fr_pd _ _ _ _ _ _ _ _ Hf a Ha). apply Ho2. destruct (mod_page_gap pd t); [apply Hd | apply Ht | congruence | lia | lia].
    + intros a Ha. rewrite <- (fr_frame _ _ _ _ _ _ _ _ Hf a Ha). apply Ho2. specialize (Ha t Hto). unfold in_page in Ha. lia.
  - pose proof (do_none _ _ _ _ Hd _ Hi E) as Hp. unfold present in Hp. rewrite Hp. cbn [when]. wp_steps. apply (HQ s' l' D).
    destruct Hf as [F1 F2 F3 F4 F5]. split; try done. intros k. rewrite F2. destruct (decide (k = i)) as [->|Hne].
    + rewrite E. by destruct (_ <=? _), (_ <=? _).
    + destruct (Z.leb_spec i k), (Z.leb_spec (i + 1) k); try lia; done.
Qed.

(** [freevm] puts every page of the address space on the free list: its
    memory, its page tables and its directory, each once; no other byte
    changes. *)
Lemma freevm_spec s l pd dir us Q : uspace kend s l pd dir us ->
  (forall s' l', kinv kend s' l' -> l' ≡ₚ owned pd dir us l -> framed (owned pd dir us l) (km_mem s) (km_mem s') -> Q tt s') ->
  wp (freevm kend pd) Q s.
Proof.
  intros Hu HQ. pose proof (us_dir _ _ _ _ _ _ Hu) as Hd. destruct (page_ok_bounds kend Hend pd (do_pd _ _ _ _ Hd)) as [Hb1 Hb2].
  unfold freevm. destruct (Z.eqb_spec pd 0); [unfold KERNBASE in *; lia|]. wp_steps.
  apply (deallocuvm_spec kend Hend s l pd dir us); [done | unfold KERNBASE; lia | lia |]. intros s1 l1 us1 Hum. wp_steps.
  assert (us1 = ∅) as ->.
  { apply map_eq. intros k. rewrite (um_us _ _ _ _ _ _ _ _ _ _ _ Hum), lookup_empty. change (pgtop 0) with 0. change (pgtop KERNBASE) with (2 ^ 19).
    destruct (us !! k) as [v|] eqn:Ek; [|by destruct (_ && _)]. destruct (us_page _ _ _ _ _ _ Hu k v Ek) as (Hk & _).
    rewrite (proj2 (Z.leb_le 0 k)), (proj2 (Z.ltb_lt k (2 ^ 19))) by lia. done. }
  pose proof (um_space _ _ _ _ _ _ _ _ _ _ _ Hum) as Hu1. pose proof (us_dir _ _ _ _ _ _ Hu1) as Hd1.
  assert (owned pd dir ∅ l1 = pd :: tabs dir ++ l1) as Eown by (unfold owned, upages; by rewrite map_to_list_empty).
  pose proof (um_owned _ _ _ _ _ _ _ _ _ _ _ Hum) as Hown. rewrite Eown in Hown.
  pose proof (us_nodup _ _ _ _ _ _ Hu1) as Hnd. rewrite Eown in Hnd.
  apply (wp_for_each (fun i s2 => exists l2 D, freeing pd dir s1 l1 i s2 l2 D)).
  - exists l1, dir. split; try done; [apply Hu1|]. intros k. destruct (Z.leb_spec 0 k); [done|]. destruct (dir !! k) eqn:Ek; [|done].
    destruct (do_tab _ _ _ _ Hd1 _ _ Ek) as (? & _). lia.
  - intros i s2 Hi (l2 & D & Hf). change (Z.of_nat (Z.to_nat NPDENTRIES)) with 1024 in Hi. eapply freeing_step; [done | done | lia | done |].
    intros s3 l3 D3 Hf3. by exists l3, D3.
  - intros s2 (l2 & D & Hf). change (0 + Z.of_nat (Z.to_nat NPDENTRIES)) with 1024 in Hf. wp_steps.
    assert (D = ∅) as ->.
    { apply map_eq. intros k. rewrite (fr_dir _ _ _ _ _ _ _ _ Hf), lookup_empty. destruct (Z.leb_spec 1024 k); [|done].
      destruct (dir !! k) eqn:Ek; [|done]. destruct (do_tab _ _ _ _ Hd1 _ _ Ek) as (? & _). lia. }
    pose proof (fr_perm _ _ _ _ _ _ _ _ Hf) as Hp2. unfold tabs at 1 in Hp2. rewrite map_to_list_empty in Hp2. cbn in Hp2.
    apply (kfree_spec kend Hend s2 l2); [apply Hf | apply Hd | |].
    { rewrite Hp2. by apply NoDup_cons in Hnd as [? _]. }
    intros s3 Hk3 Ho3. apply (HQ s3 (pd :: l2)); [done | by rewrite Hp2 |]. intros a Ha.
    rewrite <- (um_frame _ _ _ _ _ _ _ _ _ _ _ Hum a Ha).
    assert (forall v, v ∈ pd :: tabs dir ++ l1 -> ~ in_page v a) as Ha1 by (intros v; rewrite Hown; apply Ha).
    rewrite <- (fr_frame _ _ _ _ _ _ _ _ Hf a) by (intros v Hv; apply Ha1; by right).
    apply Ho3. specialize (Ha1 pd ltac:(left)). unfold in_page in Ha1. lia.
Qed.

(** ** [setupkvm] *)

(** [kdata] is the page-aligned linker symbol [data], inside the kernel. *)
Context (kdata : Z) (Hkd : kdata mod PGSIZE = 0 /\ KERNLINK < kdata < KERNBASE + PHYSTOP).

(** What the process and the allocator have when a directory has been made
    from the free list [l0]. *)
Record made (s0 : kmem) (l0 : list Z) (s : kmem) (l : list Z) (pd : Z) (dir us : gmap Z Z) : Prop := {
  md_space : uspace kend s l pd dir us;
  md_owned : owned pd dir us l ≡ₚ l0;
  md_frame : framed l0 (km_mem s0) (km_mem s);
}.

(** An empty directory. *)
Lemma new_dir s v l : kinv kend s (v :: l) -> kinv kend (set_freelist s (load32 (km_mem s) v)) l ->
  made s (v :: l) (set_mem (set_freelist s (load32 (km_mem s) v)) (memset v 0 PGSIZE (km_mem s))) l v ∅ ∅.
Proof.
  intros Hk Hk1. pose proof (ki_pages _ _ _ Hk) as Hpg. apply Forall_cons in Hpg as [Hv Hpl]. pose proof (ki_nodup _ _ _ Hk) as Hnd.
  destruct (clear_page kend Hend (km_mem s) v Hv) as [Ho Hz]. destruct (page_ok_bounds kend Hend v Hv) as [Hb1 Hb2].
  assert (owned v ∅ ∅ l = v :: l) as Eown by (unfold owned, tabs, upages; by rewrite map_to_list_empty).
  split; [split | by rewrite Eown |].
  - apply (kinv_write kend Hend); [done|]. cbn [set_freelist km_mem]. intros w Hw a Ha. apply Ho. rewrite Forall_forall in Hpl.
    apply NoDup_cons in Hnd as [Hvl _]. destruct (mod_page_gap w v); [by apply Hpl | apply Hv | intros ->; done | lia | lia].
  - split; [done | by intros i t H; rewrite lookup_empty in H | | by intros i j t H; rewrite lookup_empty in H]. intros i Hi _.
    cbn [set_mem km_mem]. destruct (page_addr kend Hend v i Hv Hi) as (_ & H1 & H2). unfold pde_addr, KERNBASE, PHYSTOP in *.
    rewrite load32_le by (unfold PGSIZE in *; lia). unfold bytes_at. change (seqZ 0 (Z.of_nat 4)) with [0; 1; 2; 3]. cbn [fmap list_fmap le_word].
    rewrite !Hz by (unfold in_page; lia). done.
  - intros n w H. by rewrite lookup_empty in H.
  - done.
  - by rewrite Eown.
  - intros a Ha. apply Ho. specialize (Ha v ltac:(left)). unfold in_page in Ha. lia.
Qed.

(** The directory entries that [kmap] covers: 56 for the physical memory and 8
    for the devices. *)
Definition kkey (i : Z) : Prop := 512 <= i <= 567 \/ 1016 <= i <= 1023.
Definition kdir (dir : gmap Z Z) : Prop := forall i, is_Some (dir !! i) -> kkey i.

Lemma kdir_size dir : kdir dir -> (length (tabs dir) <= 64)%nat.
Proof.
  intros Hd. unfold tabs. rewrite length_fmap. rewrite length_map_to_list, <- (size_dom (D := gset Z) dir).
  transitivity (size (list_to_set (seqZ 512 56 ++ seqZ 1016 8) : gset Z)).
  - apply subseteq_size. intros i Hi. apply elem_of_dom in Hi. apply elem_of_list_to_set. rewrite elem_of_app, !elem_of_seqZ. specialize (Hd i Hi). unfold kkey in Hd. lia.
  - rewrite size_list_to_set; [done|]. apply NoDup_app. split_and!; try apply NoDup_seqZ. intros x. rewrite !elem_of_seqZ. lia.
Qed.

(** The ranges of [kmap], in page numbers from [hi] on. *)
Fixpoint kmap_ok (hi : Z) (ks : list (Z * Z * Z * Z)) : Prop :=
  match ks with
  | [] => True
  | (virt, ps, pe, perm) :: ks => exists n cnt, virt = n * PGSIZE /\ u32 (pe - ps) = u32 (cnt * PGSIZE) /\ hi <= n /\ 0 < cnt /\
      n + cnt <= 2 ^ 20 /\ 0 <= ps < 2 ^ 32 /\ 0 <= perm < PGSIZE /\
      (forall i, n / 1024 <= i <= (n + cnt - 1) / 1024 -> kkey i) /\ kmap_ok (n + cnt) ks
  end.

Lemma kkey_range n cnt lo hi : lo * 1024 <= n -> n + cnt <= (hi + 1) * 1024 -> (forall i, lo <= i <= hi -> kkey i) ->
  forall i, n / 1024 <= i <= (n + cnt - 1) / 1024 -> kkey i.
Proof.
  intros H1 H2 Hk i Hi. apply Hk. pose proof (Z.div_le_lower_bound n 1024 lo). assert ((n + cnt - 1) / 1024 < hi + 1) by (apply Z.div_lt_upper_bound; lia). lia.
Qed.

Lemma kmap_kernel : kmap_ok (2 ^ 19) (kmap kdata).
Proof.
  destruct Hkd as [Hm Hr]. unfold KERNLINK, EXTMEM, KERNBASE, PHYSTOP, PGSIZE in *. pose proof (Z.div_mod kdata 4096 ltac:(lia)) as Hdm.
  unfold kmap, kmap_ok, V2P, KERNLINK, EXTMEM, KERNBASE, PHYSTOP, PGSIZE, DEVSPACE, PTE_W.
  assert (Hlow : forall n cnt, 524288 <= n -> n + cnt <= 0x8E000 -> forall i, n / 1024 <= i <= (n + cnt - 1) / 1024 -> kkey i).
  { intros n cnt H1 H2. apply (kkey_range n cnt 512 567); [lia | lia |]. intros i Hi. by left. }
  exists 524288, 256. split_and!; try (done || lia || (apply Hlow; lia)). exists 524544, (kdata / 4096 - 524544).
  split_and!; try (rewrite ?u32_small; (done || lia || (apply Hlow; lia))).
  { f_equal. rewrite !u32_small by lia. lia. }
  exists (kdata / 4096), (0x8E000 - kdata / 4096). split_and!; try (rewrite ?u32_small; (done || lia || (apply Hlow; lia))).
  { f_equal. rewrite !u32_small by lia. lia. }
  exists 0xFE000, 0x2000. split_and!; try (done || lia). apply (kkey_range _ _ 1016 1023); [lia | lia |]. intros i Hi. by right.
Qed.

Lemma setupkvm_loop_spec ks : forall s0 l0 s l pd dir hi Q,
  made s0 l0 s l pd dir ∅ -> kdir dir -> 2 ^ 19 <= hi -> (forall k, hi <= k < 2 ^ 20 -> present (entry (km_mem s) dir k) = false) -> kmap_ok hi ks ->
  (forall r s' l' dir', made s0 l0 s' l' pd dir' ∅ -> kdir dir' -> r = pd \/ r = 0 /\ l' = [] -> Q r s') ->
  wp (setupkvm_loop pd ks) Q s.
Proof.
  induction ks as [|[[[virt ps] pe] perm] ks IH]; intros s0 l0 s l pd dir hi Q Hmd Hkdir Hhi Habs Hks HQ; cbn [setupkvm_loop].
  { wp_steps. by apply (HQ pd s l dir); [| |left]. }
  destruct Hks as (n & cnt & -> & Esz & Hn & Hc & Hle & Hps & Hperm & Hkk & Hks). rewrite Esz. wp_steps.
  pose proof (md_space _ _ _ _ _ _ _ Hmd) as Hu.
  apply (mappages_within kend Hend s l pd dir n cnt); [by apply us_aspace with (us := ∅) | lia | done | done | done | done | intros k Hk; apply Habs; lia |].
  intros r s1 l1 dir1 j Hg Hj Hm Hr Hw. assert (Hkdir1 : kdir dir1) by (intros i Hi; destruct (Hw i Hi); auto).
  assert (forall k, 0 <= k < 2 ^ 19 -> entry (km_mem s1) dir1 k = entry (km_mem s) dir k) as He.
  { intros k Hk. rewrite Hm by (unfold vpn_ok; lia). destruct (Z.leb_spec n k); [lia | done]. }
  assert (made s0 l0 s1 l1 pd dir1 ∅) as Hmd1.
  { pose proof (grown_owned kend _ _ _ _ _ _ _ ∅ Hg) as Hown. split.
    - split; [apply Hg | apply Hg | by intros k v H; rewrite lookup_empty in H | | rewrite Hown; apply Hu].
      intros k Hk _. rewrite He by done. by apply (us_none _ _ _ _ _ _ Hu).
    - rewrite Hown. apply Hmd.
    - eapply framed_trans; [symmetry; apply Hmd | apply Hmd |]. exact (grown_framed kend _ _ _ _ _ _ _ ∅ Hg). }
  destruct Hr as [[-> ->]|(-> & _ & ->)]; cbn [Z.ltb Z.compare]; [|wp_steps; apply (HQ 0 s1 [] dir1); [done | done | by right]].
  apply (IH s0 l0 s1 l1 pd dir1 (n + cnt)); [done | done | lia | | done | done].
  intros k Hk. rewrite Hm by (unfold vpn_ok; lia). destruct (Z.ltb_spec k (n + cnt)); [lia|]. rewrite andb_false_r. apply Habs. lia.
Qed.

(** [setupkvm] makes an address space without user memory, or returns 0, which
    it does only where fewer than 66 pages are free; it has then taken them all
    and gives none of them back. *)
Lemma setupkvm_total s l Q : kinv kend s l ->
  (forall s' l' pd dir, pd <> 0 -> made s l s' l' pd dir ∅ -> kdir dir -> Q pd s') ->
  (forall s', (length l < 66)%nat -> kinv kend s' [] -> framed l (km_mem s) (km_mem s') -> Q 0 s') ->
  wp (setupkvm kdata) Q s.
Proof.
  intros Hk Hok Hfail. unfold setupkvm. wp_steps. apply (kalloc_spec kend Hend s l); [done | |].
  { intros ->. cbn. wp_steps. apply (Hfail s); try done. cbn. lia. }
  intros v l1 -> Hk1. pose proof (ki_pages _ _ _ Hk) as Hpg. apply Forall_cons in Hpg as [Hv _]. destruct (page_ok_bounds kend Hend v Hv) as [Hv1 _].
  destruct (Z.eqb_spec v 0); [unfold KERNBASE in *; lia|]. unfold kmemset. wp_steps. cbn [set_freelist km_mem].
  assert (DEVSPACE <? P2V PHYSTOP = false) as -> by done.
  apply (setupkvm_loop_spec (kmap kdata) s (v :: l1) _ l1 v ∅ (2 ^ 19)); [by apply new_dir | by intros i [? H]; rewrite lookup_empty in H | done | done | apply kmap_kernel |].
  intros r s' l' dir' Hmd Hkdir Hr. pose proof (md_owned _ _ _ _ _ _ _ Hmd) as Hown.
  destruct Hr as [->|[-> ->]]; [by apply (Hok s' l' v dir')|]. apply (Hfail s'); [| apply Hmd | apply Hmd].
  rewrite <- Hown. unfold owned. assert (upages ∅ = []) as -> by done. cbn [length]. rewrite !length_app. cbn [length]. pose proof (kdir_size dir' Hkdir). lia.
Qed.

(** ** Other address spaces *)

(** An address space is as it was while its own pages keep their bytes. *)
Lemma us_move s l pd dir us s' l' : uspace kend s l pd dir us -> kinv kend s' l' ->
  (forall w, w ∈ pd :: tabs dir -> same_on w PGSIZE (km_mem s) (km_mem s')) -> NoDup (owned pd dir us l') ->
  uspace kend s' l' pd dir us /\ forall k, 0 <= k < 2 ^ 19 -> entry (km_mem s') dir k = entry (km_mem s) dir k.
Proof.
  intros Hu Hk Hs Hnd. pose proof (us_dir _ _ _ _ _ _ Hu) as Hd.
  assert (forall k, 0 <= k < 2 ^ 19 -> entry (km_mem s') dir k = entry (km_mem s) dir k) as He.
  { intros k Hk'. apply (entry_ext kend Hend _ _ pd); [done | unfold vpn_ok; lia|]. intros i t Ht. apply Hs. right. apply elem_tabs. eauto. }
  split; [|done]. split; [done | | | | done].
  - apply (dir_ok_ext kend Hend (km_mem s)); [done|]. apply Hs. left.
  - intros n v Hn. destruct (us_page _ _ _ _ _ _ Hu n v Hn) as (H1 & H2 & f & Hf & Ef). split_and!; [lia | lia | done |]. exists f. by rewrite He by lia.
  - intros n Hn Hnone. rewrite He by done. by apply (us_none _ _ _ _ _ _ Hu).
Qed.

(** An address space is untouched by what happens on the free pages. *)
Lemma us_frame s l pd dir us s' l' : uspace kend s l pd dir us -> kinv kend s' l' -> l' ⊆+ l -> framed l (km_mem s) (km_mem s') ->
  uspace kend s' l' pd dir us /\ (forall k v, us !! k = Some v -> same_on v PGSIZE (km_mem s) (km_mem s')) /\
  forall k, 0 <= k < 2 ^ 19 -> entry (km_mem s') dir k = entry (km_mem s) dir k.
Proof.
  intros Hu Hk Hsub Hfr. pose proof (us_dir _ _ _ _ _ _ Hu) as Hd. pose proof (us_aspace kend _ _ _ _ _ Hu) as [_ _ Hpdl Htl].
  pose proof (ki_pages _ _ _ (us_kinv _ _ _ _ _ _ Hu)) as Hpg. rewrite Forall_forall in Hpg.
  assert (forall w, page_ok kend w -> w ∉ l -> same_on w PGSIZE (km_mem s) (km_mem s')) as Hs.
  { intros w Hw Hwl a Ha. apply Hfr. intros v Hv. apply (page_disjoint kend w v); [done | by apply Hpg | by intros -> | done]. }
  destruct (us_move s l pd dir us s' l') as [Hu' He]; try done.
  - intros w [-> |Hw]%elem_of_cons; [by apply Hs; [apply Hd|]|]. apply elem_tabs in Hw as [i Hi]. by apply Hs; [eapply (do_tab _ _ _ _ Hd) | eapply Htl].
  - apply submseteq_Permutation in Hsub as [k Hlk]. pose proof (us_nodup _ _ _ _ _ _ Hu) as Hnd. unfold owned in *. rewrite Hlk in Hnd.
    rewrite !app_assoc, app_comm_cons in Hnd. apply NoDup_app in Hnd as (Hnd & _). by rewrite <- !app_assoc in Hnd.
  - split_and!; [done | | done]. intros k v Hkv. destruct (us_page _ _ _ _ _ _ Hu k v Hkv) as (_ & Hv & _). destruct (us_sep kend _ _ _ _ _ Hu k v Hkv) as (_ & _ & Hvl). by apply Hs.
Qed.

(** ** [copyuvm] *)

Section copyuvm.
Context (s0 : kmem) (l0 : list Z) (pd : Z) (dir us : gmap Z Z) (sz : Z).
Context (Hu0 : uspace kend s0 l0 pd dir us) (Hsz : 0 <= sz <= KERNBASE).
Context (Hfull : forall k, 0 <= k < pgtop sz -> is_Some (us !! k)).

(** Page [k] of the child is a copy of the parent's, with its permissions. *)
Definition copied (s : kmem) (dir' us' : gmap Z Z) (k : Z) : Prop :=
  exists v v', us !! k = Some v /\ us' !! k = Some v' /\
    (forall i, 0 <= i < PGSIZE -> km_mem s (v' + i) = km_mem s0 (v + i)) /\
    PTE_FLAGS (entry (km_mem s) dir' k) = PTE_FLAGS (entry (km_mem s0) dir k).

Record copying (n : Z) (s : kmem) (l : list Z) (d : Z) (dir' us' : gmap Z Z) : Prop := {
  cp_made : made s0 l0 s l d dir' us';
  cp_done : forall k, 0 <= k < n -> copied s dir' us' k;
  cp_rest : forall k, ~ 0 <= k < n -> us' !! k = None;
}.

Lemma made_free s l d dir' us' : made s0 l0 s l d dir' us' -> l ⊆+ l0.
Proof.
  intros Hmd. rewrite <- (md_owned _ _ _ _ _ _ _ Hmd). unfold owned. apply submseteq_cons. rewrite !app_assoc. by apply submseteq_inserts_l.
Qed.
Lemma copying_parent n s l d dir' us' : copying n s l d dir' us' ->
  uspace kend s l pd dir us /\ (forall k v, us !! k = Some v -> same_on v PGSIZE (km_mem s0) (km_mem s)) /\
  forall k, 0 <= k < 2 ^ 19 -> entry (km_mem s) dir k = entry (km_mem s0) dir k.
Proof.
  intros [Hmd _ _]. apply (us_frame s0 l0); [done | apply Hmd | by eapply made_free | apply Hmd].
Qed.

(** The copy of one page. *)
Lemma copy_page m v v' : page_ok kend v -> page_ok kend v' -> v <> v' ->
  outside v' m (memmove v' v PGSIZE m) /\ forall i, 0 <= i < PGSIZE -> memmove v' v PGSIZE m (v' + i) = m (v + i).
Proof.
  intros Hv Hv' Hne. destruct (page_ok_bounds kend Hend v Hv) as [H1 H2]. destruct (page_ok_bounds kend Hend v' Hv') as [H3 H4].
  unfold KERNBASE, PHYSTOP, PGSIZE in *. split.
  - intros a Ha. unfold PGSIZE in Ha. rewrite memmove_correct by lia. zb; simpl; try lia; done.
  - intros i Hi. rewrite memmove_correct by lia. zb; simpl; try lia. f_equal. lia.
Qed.

Lemma copying_step n s v' l d dir' us' v f s2 l2 dir2 :
  let s1 := set_mem (set_freelist s (load32 (km_mem s) v')) (memmove v' v PGSIZE (km_mem s)) in
  copying n s (v' :: l) d dir' us' -> 0 <= n < 2 ^ 19 -> us !! n = Some v -> page_ok kend v -> v <> v' ->
  0 <= f < PGSIZE -> entry (km_mem s0) dir n = mk_pte v f ->
  uspace kend s1 l d dir' us' -> page_ok kend v' -> v' ∉ owned d dir' us' l ->
  grown kend s1 l dir' s2 l2 dir2 d ->
  mapped n 1 (V2P v') (PTE_FLAGS (mk_pte v f)) (entry (km_mem s1) dir') (entry (km_mem s2) dir2) ->
  copying (n + 1) s2 l2 d dir2 (<[n := v']> us').
Proof.
  intros s1 Hcp Hn Hnv Hv Hne Hf Ef Hu1 Hv' Hvo Hg Hm. destruct Hcp as [Hmd Hdone Hrest]. pose proof (md_space _ _ _ _ _ _ _ Hmd) as Hu.
  destruct (copy_page (km_mem s) v v' Hv Hv' Hne) as [Ho Hcpy]. destruct (page_ok_bounds kend Hend v Hv) as [Hb1 Hb2]. destruct (page_ok_bounds kend Hend v' Hv') as [Hb3 Hb4].
  destruct (mk_pte_spec v f) as (_ & _ & _ & Efl); [unfold KERNBASE, PHYSTOP, PGSIZE in *; lia | apply Hv | done |].
  destruct (mk_pte_eq v f) as [_ Hlf]; [unfold KERNBASE, PHYSTOP, PGSIZE in *; lia | apply Hv | done |].
  assert (0 <= PTE_FLAGS (mk_pte v f) < PGSIZE) as Hfl by (rewrite Efl; lia).
  destruct (us_map kend s1 l dir' s2 l2 dir2 d us' n v' (PTE_FLAGS (mk_pte v f))) as [Hu2 Hown]; try done; [apply Hrest; lia|].
  assert (forall k, vpn_ok k -> entry (km_mem s1) dir' k = entry (km_mem s) dir' k) as He1.
  { intros k Hk. apply (entry_ext kend Hend _ _ d); [apply Hu | done|]. intros i t Ht a Ha. apply Ho.
    destruct (do_tab _ _ _ _ (us_dir _ _ _ _ _ _ Hu) _ _ Ht) as (_ & [Ht1 _] & _).
    destruct (mod_page_gap t v'); [done | apply Hv' | intros ->; apply Hvo; apply elem_owned; eauto | lia | lia]. }
  split; [split | |].
  - done.
  - rewrite Hown, <- owned_cons. apply Hmd.
  - eapply framed_trans; [symmetry; apply Hmd | apply Hmd |]. intros a Ha. rewrite (grown_framed kend _ _ _ _ _ _ _ us' Hg a).
    + apply Ho. assert (~ in_page v' a) as Hna by (apply Ha; apply elem_owned; rewrite elem_of_cons; auto). unfold in_page in Hna. lia.
    + intros w Hw. apply Ha. rewrite owned_cons. by right.
  - intros k Hk. destruct (decide (k = n)) as [->|Hkn].
    + exists v, v'. rewrite lookup_insert_eq. split_and!; [done | done | |].
      * intros i Hi. rewrite (grown_keeps kend _ _ _ _ _ _ _ v' Hg Hv') by (first [lia | intros ->; apply Hvo; apply elem_owned; auto
          | intros j Hj; apply Hvo; apply elem_owned; eauto | intros Hin; apply Hvo; apply elem_owned; auto]).
        cbn [s1 set_mem km_mem]. rewrite Hcpy by done. destruct (copying_parent n s (v' :: l) d dir' us') as (_ & Hsame & _); [by split|].
        apply (Hsame n v Hnv). lia.
      * rewrite Ef, Hm by (unfold vpn_ok; lia). rewrite (proj2 (Z.leb_le n n)), (proj2 (Z.ltb_lt n (n + 1))) by lia. cbn [andb].
        rewrite Z.sub_diag, Z.mul_0_l, Z.add_0_r. unfold V2P at 1. rewrite u32_idemp. fold (V2P v'). fold (mk_pte v' (PTE_FLAGS (mk_pte v f))).
        destruct (mk_pte_spec v' (PTE_FLAGS (mk_pte v f))) as (_ & _ & _ & ->); [unfold KERNBASE, PHYSTOP, PGSIZE in *; lia | apply Hv' | done |].
        rewrite Efl, <- Z.lor_assoc, Z.lor_diag. done.
    + destruct (Hdone k ltac:(lia)) as (w & w' & H1 & H2 & H3 & H4). exists w, w'. rewrite lookup_insert_ne by congruence. split_and!; [done | done | |].
      * intros i Hi. rewrite <- H3 by done. apply (take_map_user kend s v' l d dir' us' _ s2 l2 dir2 k w' Hu Ho Hg H2). lia.
      * rewrite <- H4. f_equal. rewrite Hm by (unfold vpn_ok; lia). destruct (Z.leb_spec n k), (Z.ltb_spec k (n + 1)); cbn [andb]; try lia; apply He1; unfold vpn_ok; lia.
  - intros k Hk. rewrite lookup_insert_ne by lia. apply Hrest. lia.
Qed.

(** A page that could not be allocated, or was and could not be mapped: at most
    this one page is lost, and everything else is as it was. *)
Definition copy_failed (s : kmem) (l : list Z) (d : Z) (dir' us' : gmap Z Z) : Prop :=
  uspace kend s l d dir' us' /\ framed l0 (km_mem s0) (km_mem s) /\
  exists lost, (length lost <= 1)%nat /\ lost ++ owned d dir' us' l ≡ₚ l0.

Lemma copying_fail n s v' l d dir' us' m1 s2 dir2 :
  copying n s (v' :: l) d dir' us' -> outside v' (km_mem s) m1 ->
  let s1 := set_mem (set_freelist s (load32 (km_mem s) v')) m1 in
  uspace kend s1 l d dir' us' -> grown kend s1 l dir' s2 [] dir2 d ->
  (forall k, vpn_ok k -> entry (km_mem s2) dir2 k = entry (km_mem s1) dir' k) -> copy_failed s2 [] d dir2 us'.
Proof.
  intros [Hmd _ _] Ho s1 Hu1 Hg He. pose proof (grown_owned kend _ _ _ _ _ _ _ us' Hg) as Hown. pose proof (md_owned _ _ _ _ _ _ _ Hmd) as Hown0.
  split_and!.
  - by apply (us_grown kend s1 l dir' _ _ _ _ us' Hu1 Hg).
  - eapply framed_trans; [symmetry; exact Hown0 | apply Hmd |]. intros a Ha. rewrite (grown_framed kend _ _ _ _ _ _ _ us' Hg a).
    + apply Ho. assert (~ in_page v' a) as Hna by (apply Ha; apply elem_owned; rewrite elem_of_cons; auto). unfold in_page in Hna. lia.
    + intros w Hw. apply Ha. rewrite owned_cons. by right.
  - exists [v']. split; [done|]. by rewrite Hown, <- Hown0, owned_cons.
Qed.

(** Reading the entry of a mapped page. *)
Lemma read_pte {A} s l n v f msg1 msg2 (k : Z -> M kmem A) Q : uspace kend s l pd dir us -> us !! n = Some v ->
  0 <= f < PGSIZE -> entry (km_mem s) dir n = mk_pte v f -> wp (k (mk_pte v f)) Q s ->
  wp (let! pte := walkpgdir pd (n * PGSIZE) false in
      if pte =? 0 then panic msg1
      else let! e := peek32 pte in if Z.land e PTE_P =? 0 then panic msg2 else k e) Q s.
Proof.
  intros Hu Hnv Hf Ee Hk. destruct (us_page _ _ _ _ _ _ Hu n v Hnv) as (Hn & Hv & _). destruct (page_ok_bounds kend Hend v Hv) as [Hb1 Hb2].
  destruct (mk_pte_spec v f) as (_ & Hep & _); [unfold KERNBASE, PHYSTOP, PGSIZE in *; lia | apply Hv | done |].
  assert (n * PGSIZE / PGSIZE = n) as Ediv by (apply Z.div_mul; unfold PGSIZE; lia). assert (vpn_ok n) as Hvpn by (unfold vpn_ok; lia).
  apply wp_bind. apply (walkpgdir_spec kend Hend s l pd dir); [by eapply us_aspace | unfold PGSIZE; lia | | |done]; rewrite ?Ediv.
  2: { intros Hnone. exfalso. unfold entry in Ee. rewrite Hnone in Ee. rewrite <- Ee in Hep. done. }
  intros p Hp. destruct (pte_addr_range kend Hend _ _ _ _ _ (us_dir _ _ _ _ _ _ Hu) Hvpn Hp) as (t & Et & _ & _ & Ep & H0 & H1 & _). unfold KERNBASE in H0.
  destruct (Z.eqb_spec p 0); [lia|]. unfold peek32. wp_steps.
  assert (load32 (km_mem s) p = mk_pte v f) as -> by (rewrite <- Ee; unfold entry; by rewrite Et, Ep).
  unfold present in Hep. apply negb_true_iff in Hep. by rewrite Hep.
Qed.

Lemma copyuvm_loop_spec fuel : forall n s l d dir' us' Q,
  copying n s l d dir' us' -> 0 <= n <= pgtop sz -> (Z.to_nat (pgtop sz - n) < fuel)%nat ->
  (forall s' l' dir2 us2, copying (pgtop sz) s' l' d dir2 us2 -> Q (Some d) s') ->
  ((length l <= 2 * Z.to_nat (pgtop sz - n))%nat -> forall s' l' dir2 us2, copy_failed s' l' d dir2 us2 -> Q None s') ->
  wp (copyuvm_loop fuel pd d (n * PGSIZE) sz) Q s.
Proof.
  assert (pgtop sz <= 2 ^ 19) as Htop by (pose proof (pgtop_lt (2 ^ 19) sz); unfold KERNBASE, PGSIZE in *; lia).
  induction fuel as [|fuel IH]; intros n s l d dir' us' Q Hcp Hn Hf Hok Hfail; [lia|]. cbn [copyuvm_loop].
  pose proof (pgtop_lt n sz) as Hlt. destruct (Z.ltb_spec (n * PGSIZE) sz) as [Hc|Hc].
  2: { assert (n = pgtop sz) as -> by lia. wp_steps. by eapply Hok. }
  assert (n < pgtop sz) as Hnt by lia. destruct (Hfull n ltac:(lia)) as [v Hnv]. destruct (copying_parent _ _ _ _ _ _ Hcp) as (Hup & _ & Hent).
  destruct (us_page _ _ _ _ _ _ Hup n v Hnv) as (_ & Hv & f & Hfl & Ee). destruct (page_ok_bounds kend Hend v Hv) as [Hb1 Hb2].
  destruct (mk_pte_spec v f) as (_ & _ & Hpg & Efl); [unfold KERNBASE, PHYSTOP, PGSIZE in *; lia | apply Hv | done |].
  destruct (mk_pte_eq v f) as [_ Hlf]; [unfold KERNBASE, PHYSTOP, PGSIZE in *; lia | apply Hv | done |].
  apply (read_pte s l n v f); [done | done | done | done |]. unfold pte_page in Hpg. rewrite Hpg.
  pose proof (cp_made _ _ _ _ _ _ Hcp) as Hmd. pose proof (md_space _ _ _ _ _ _ _ Hmd) as Huc. wp_steps. apply (kalloc_spec kend Hend s l); [apply Huc | |].
  { intros ->. cbn. wp_steps. apply (Hfail ltac:(cbn; lia) s [] dir' us'). split_and!; [done | apply Hmd |]. exists []. split; [cbn; lia | apply Hmd]. }
  intros v' l1 -> Hk1. pose proof (ki_pages _ _ _ (us_kinv _ _ _ _ _ _ Huc)) as Hpl. apply Forall_cons in Hpl as [Hv' _].
  destruct (page_ok_bounds kend Hend v' Hv') as [Hb3 _]. destruct (Z.eqb_spec v' 0); [unfold KERNBASE in *; lia|]. wp_steps. cbn [set_freelist km_mem].
  assert (v <> v') as Hne. { intros ->. destruct (us_sep kend _ _ _ _ _ Hup n v' Hnv) as (_ & _ & Hl). apply Hl. left. }
  pose proof (proj1 (copy_page (km_mem s) v v' Hv Hv' Hne)) as Ho. destruct (us_take kend Hend s v' l1 d dir' us' _ Huc Hk1 Ho) as (Hu1 & _ & Hvo).
  set (s1 := set_mem (set_freelist s (load32 (km_mem s) v')) (memmove v' v PGSIZE (km_mem s))) in *.
  replace (mappages d (n * PGSIZE) PGSIZE) with (mappages d (n * PGSIZE) (u32 (1 * PGSIZE))) by (rewrite u32_small; [done | unfold PGSIZE; lia]).
  apply (mappages_within kend Hend s1 l1 d dir' n 1); [by eapply us_aspace | lia | lia | lia | apply u32_range | rewrite Efl; lia | |].
  { intros k Hk. assert (k = n) as -> by lia. apply (us_none _ _ _ _ _ _ Hu1); [lia|]. apply Hcp. lia. }
  intros r s2 l2 dir2 j Hg Hj Hm Hr Hw. pose proof (grown_one kend n _ _ _ _ _ _ _ Hg Hw) as Hone. destruct Hr as [[-> ->]|(-> & Hj1 & ->)]; cbn [Z.ltb Z.compare].
  - wp_steps. replace (u32 (n * PGSIZE + PGSIZE)) with ((n + 1) * PGSIZE) by (rewrite u32_small; unfold PGSIZE; lia).
    apply (IH (n + 1) s2 l2 d dir2 (<[n := v']> us')); [|lia | lia | done | intros Hl; apply Hfail; cbn; lia].
    apply (copying_step n s v' l1 d dir' us' v f s2 l2 dir2); try done; [lia|]. by rewrite <- Hent by lia.
  - wp_steps. apply (Hfail ltac:(cbn in *; lia) s2 [] dir2 us'). apply (copying_fail n s v' l1 d dir' us' _ s2 dir2 Hcp Ho Hu1 Hg).
    intros k Hk. rewrite Hm by done. destruct (Z.leb_spec n k), (Z.ltb_spec k (n + j)); cbn [andb]; try lia; done.
Qed.
End copyuvm.

(** C15: [copyuvm].  If it returns a directory, the child's memory below [sz]
    has the bytes and the permissions of the parent's, in pages that belong to
    nobody else; together with the free pages they are the pages that were
    free.  It returns 0 either because [setupkvm] failed, where fewer than 66
    pages were free and none of them comes back, or because a page of the copy
    could not be allocated or mapped: then every page the child had taken is on
    the free list again except at most one, the page [mappages] had no table
    for.  It fails only where at most two pages are free for each page to copy,
    and 65 more for the kernel's part.  In every case the parent's address space and every byte in it is
    unchanged. *)
Theorem copyuvm_correct s l pd dir us sz :
  uspace kend s l pd dir us -> 0 <= sz <= KERNBASE -> (forall k, 0 <= k < pgtop sz -> is_Some (us !! k)) ->
  wp (copyuvm kend kdata pd sz) (fun r s' => exists l',
    uspace kend s' l' pd dir us /\ (forall k v, us !! k = Some v -> same_on v PGSIZE (km_mem s) (km_mem s')) /\
    (r = 0 /\ (length l <= 65 + 2 * Z.to_nat (pgtop sz))%nat /\ ((length l < 66)%nat /\ l' = [] \/ exists lost, (length lost <= 1)%nat /\ lost ++ l' ≡ₚ l) \/
     r <> 0 /\ exists dir' us', uspace kend s' l' r dir' us' /\ owned r dir' us' l' ≡ₚ l /\
       (forall k, 0 <= k < pgtop sz -> copied s dir us s' dir' us' k) /\ (forall k, ~ 0 <= k < pgtop sz -> us' !! k = None))) s.
Proof using Hend Hkd.
  intros Hu Hsz Hfull. unfold copyuvm. wp_steps. assert (0 <= pgtop sz) as H0 by (pose proof (pgtop_lt (-1) sz); unfold PGSIZE in *; lia).
  apply (setupkvm_total s l); [apply Hu | |].
  2: { intros s1 Hl Hk1 Hfr. cbn. wp_steps. destruct (us_frame s l pd dir us s1 [] Hu Hk1 (submseteq_nil_l l) Hfr) as (Hu1 & Hs1 & _). exists []. split_and!; [done | done |]. left. split_and!; [done | lia | auto]. }
  intros s1 l1 d dir' Hd Hmd Hkdir. destruct (Z.eqb_spec d 0); [done|]. wp_steps. change 0 with (0 * PGSIZE) at 1.
  apply (copyuvm_loop_spec s l pd dir us sz Hu Hsz Hfull _ 0 s1 l1 d dir' ∅).
  - split; [done | lia | by intros; apply lookup_empty].
  - lia.
  - unfold pgtop, PGSIZE. pose proof (Z.div_mod (sz + 4096 - 1) 4096 ltac:(lia)). pose proof (Z.mod_pos_bound (sz + 4096 - 1) 4096 ltac:(lia)).
    pose proof (Z.div_mod sz 4096 ltac:(lia)). pose proof (Z.mod_pos_bound sz 4096 ltac:(lia)). lia.
  - intros s2 l2 dir2 us2 Hcp. wp_steps. destruct (copying_parent s l pd dir us Hu _ _ _ _ _ _ Hcp) as (Hu2 & Hs2 & _). exists l2. split_and!; [done | done |].
    right. split; [done|]. exists dir2, us2. destruct Hcp as [[M1 M2 _] C2 C3]. by split_and!.
  - intros Hlen s2 l2 dir2 us2 (Hu2 & Hfr & lost & Hlost & Hown). wp_steps. apply (freevm_spec s2 l2 d dir2 us2 _ Hu2). intros s3 l3 Hk3 Hl3 Hfr3. wp_steps.
    assert (lost ++ l3 ≡ₚ l) as Hl by (by rewrite Hl3). assert (l3 ⊆+ l) as Hsub3 by (rewrite <- Hl; apply submseteq_inserts_l; done).
    assert (framed l (km_mem s) (km_mem s3)) as Hfr'.
    { intros a Ha. rewrite <- (Hfr a Ha). apply Hfr3. intros v Hv. apply Ha. rewrite <- Hown. apply elem_of_app. by right. }
    destruct (us_frame s l pd dir us s3 l3 Hu Hk3 Hsub3 Hfr') as (Hu3 & Hs3 & _). exists l3. split_and!; [done | done |]. left.
    split_and!; [done | | eauto]. pose proof (Permutation_length (md_owned _ _ _ _ _ _ _ Hmd)) as Hl1. unfold owned in Hl1. cbn [length] in Hl1. rewrite !length_app in Hl1.
    assert (upages ∅ = []) as Hup by done. rewrite Hup in Hl1. cbn [length] in Hl1. pose proof (kdir_size dir' Hkdir). rewrite Z.sub_0_r in Hlen. lia.
Qed.

(** [freevm] puts every page of the address space on the free list: its
    memory, its page tables and its directory, each once; no other byte
    changes. *)
Theorem freevm_correct s l pd dir us : uspace kend s l pd dir us ->
  wp (freevm kend pd) (fun _ s' => exists l', kinv kend s' l' /\ l' ≡ₚ owned pd dir us l /\ NoDup l' /\
    framed (owned pd dir us l) (km_mem s) (km_mem s')) s.
Proof using Hend.
  intros Hu. apply (freevm_spec s l pd dir us _ Hu). intros s' l' Hk Hl Hfr. exists l'. split_and!; [done | done | apply Hk | done].
Qed.
End copy.

(** ** A process with one page

    Directory at 0x80110000, a page table at 0x80113000, the page at
    0x80114000 and two free pages. *)
Definition ex_tab : Z := 0x80113000.
Definition ex_page : Z := 0x80114000.
Definition ex_mem1 : mem :=
  store32 (store32 (store32 (fun _ => 0) 0x80111000 0x80112000) ex_pd (mk_pte ex_tab 6)) ex_tab (mk_pte ex_page 6).
Definition ex_space1 : kmem := Kmem ex_mem1 true 0x80111000 0.

(** Words of this memory away from the three that are set. *)
Lemma ex_mem1_zero a : KERNBASE <= a -> a + 4 <= 2 ^ 32 -> a mod 4 = 0 -> a <> 0x80111000 -> a <> ex_pd -> a <> ex_tab -> load32 ex_mem1 a = 0.
Proof.
  intros H1 H2 H3 H4 H5 H6. pose proof (Z.div_mod a 4 ltac:(lia)). unfold ex_mem1, ex_pd, ex_tab, KERNBASE in *.
  rewrite !load32_store32_ne by lia. done.
Qed.

Lemma ex_space1_ok : uspace ex_end ex_space1 ex_pages ex_pd {[0 := ex_tab]} {[0 := ex_page]}.
Proof.
  assert (forall v, v ∈ [ex_pd; ex_tab; ex_page] ++ ex_pages -> page_ok ex_end v) as Hp.
  { intros v Hv. unfold ex_pages in Hv. rewrite !elem_of_app, !elem_of_cons, !elem_of_nil in Hv.
    unfold page_ok, ex_end, ex_pd, ex_tab, ex_page, KERNBASE, PHYSTOP in *. naive_solver (done || lia). }
  split.
  - split; [cbn [chain ex_pages]; split_and!; vm_compute; reflexivity | |].
    + unfold ex_pages. apply NoDup_cons. split; [rewrite list_elem_of_singleton; lia | apply NoDup_singleton].
    + apply Forall_forall. intros v Hv. apply Hp. apply elem_of_app. by right.
  - split.
    + apply Hp. left.
    + intros i t [<- <-]%lookup_singleton_Some. split_and!; [lia | lia | apply Hp; right; left | unfold ex_pd, ex_tab; lia | vm_compute; reflexivity].
    + intros i Hi Hne%lookup_singleton_None. cbn [ex_space1 km_mem]. rewrite ex_mem1_zero; try (unfold pde_addr, ex_pd, ex_tab, KERNBASE; lia); [done|].
      unfold pde_addr. rewrite Z.mul_comm, Z_mod_plus_full. done.
    + intros i j t [<- _]%lookup_singleton_Some [<- _]%lookup_singleton_Some. done.
  - intros n v [<- <-]%lookup_singleton_Some. split_and!; [lia | lia | apply Hp; right; right; left |]. exists 6. split; [unfold PGSIZE; lia | vm_compute; reflexivity].
  - intros n Hn Hne%lookup_singleton_None. unfold entry. pose proof (Z.div_mod n 1024 ltac:(lia)). pose proof (Z.mod_pos_bound n 1024 ltac:(lia)).
    destruct (decide (n / 1024 = 0)) as [E|E]; [|by rewrite lookup_singleton_ne by congruence]. rewrite E, lookup_singleton_eq. cbn [ex_space1 km_mem].
    rewrite ex_mem1_zero; try (unfold ex_pd, ex_tab, KERNBASE; lia); [done|]. rewrite Z.mul_comm, Z_mod_plus_full. done.
  - unfold owned, tabs, upages. rewrite !map_to_list_singleton. cbn. unfold ex_pd, ex_tab, ex_page, ex_pages.
    repeat (apply NoDup_cons; split; [rewrite !elem_of_cons, elem_of_nil; lia|]). apply NoDup_singleton.
Qed.

Lemma copyuvm_correct_witness : exists r s', copyuvm ex_end 0x80108000 ex_pd 4096 ex_space1 = Ret r s' /\
  exists l', uspace ex_end s' l' ex_pd {[0 := ex_tab]} {[0 := ex_page]}.
Proof.
  assert (KERNBASE < ex_end) as He by (unfold KERNBASE, ex_end; lia). assert (0 <= 4096 <= KERNBASE) as Hk by (unfold KERNBASE; lia).
  assert (0x80108000 mod PGSIZE = 0 /\ KERNLINK < 0x80108000 < KERNBASE + PHYSTOP) as Hkd by (unfold KERNLINK, EXTMEM, KERNBASE, PHYSTOP; split; [done | lia]).
  assert (forall k, 0 <= k < pgtop 4096 -> is_Some (({[0 := ex_page]} : gmap Z Z) !! k)) as Hn.
  { intros k Hk'. change (pgtop 4096) with 1 in Hk'. assert (k = 0) as -> by lia. rewrite lookup_singleton_eq. by eexists. }
  pose proof (copyuvm_correct ex_end He _ Hkd ex_space1 ex_pages ex_pd _ _ 4096 ex_space1_ok Hk Hn) as W. apply wp_run in W.
  destruct W as (r & s' & E & l' & Hu & _). exists r, s'. split; [exact E | by exists l'].
Defined.

Lemma freevm_correct_witness : exists s', freevm ex_end ex_pd ex_space1 = Ret tt s' /\ exists l', kinv ex_end s' l' /\ length l' = 5%nat.
Proof.
  assert (KERNBASE < ex_end) as He by (unfold KERNBASE, ex_end; lia).
  pose proof (freevm_correct ex_end He ex_space1 ex_pages ex_pd _ _ ex_space1_ok) as W. apply wp_run in W.
  destruct W as ([] & s' & E & l' & Hk & Hl & _). exists s'. split; [exact E|]. exists l'. split; [exact Hk|]. rewrite Hl.
  unfold owned, tabs, upages. rewrite !map_to_list_singleton. reflexivity.
Defined.
