(* ===== verification/SysargTheorems.v ===== *)
(** * Theorems on system-call arguments

    The checks of [fetchint], [fetchstr] and [argptr] keep the kernel inside
    the memory of the calling process: under the invariant that every page
    below [proc->sz] is mapped, fetching an argument never faults, and a
    pointer that passes denotes a buffer below [proc->sz]. *)

From S2P Require Import Prelude CString Bio Layout Blocks Fs Memory Kalloc Vm Pipe Kern File Sysarg Sysfile VmEntries VmSpace VmProc.
Import Kstring.

Section args.
Context {S : Type}.
Implicit Types s : kern S.

(** The byte user code sees at address [a]. *)
Definition uview s (p : proc) (a : Z) : Z :=
  match translate (km_mem (k_kmem s)) (p_pgdir p) a with Some ka => km_mem (k_kmem s) ka | None => 0 end.

(** [p] is the current process, and its memory below [sz] is mapped. *)
Record user_ok s (p : proc) : Prop := {
  uo_self : k_procs s !! k_self s = Some p;
  uo_sz : 0 <= p_sz p <= KERNBASE;
  uo_mapped : forall a, 0 <= a < p_sz p -> is_Some (translate (km_mem (k_kmem s)) (p_pgdir p) a);
}.

(** The address spaces that vm.c keeps are such memories. *)
Lemma uspace_user_ok kend s p l dir us : KERNBASE < kend -> k_procs s !! k_self s = Some p -> 0 <= p_sz p <= KERNBASE ->
  uspace kend (k_kmem s) l (p_pgdir p) dir us -> sized us (p_sz p) -> user_ok s p.
Proof.
  intros Hend Hp Hsz Hu Hus. split; [done | done |]. intros a Ha. rewrite (us_translate kend Hend _ _ _ _ _ Hu) by lia.
  destruct (proj2 (Hus (a / PGSIZE))) as [v ->]; [|by eexists]. split; [apply Z.div_pos; unfold PGSIZE; lia|].
  apply pgtop_lt. unfold PGSIZE. pose proof (Z.div_mod a 4096 ltac:(lia)). pose proof (Z.mod_pos_bound a 4096 ltac:(lia)). lia.
Qed.

Lemma self_run s p : user_ok s p -> self s = Ret p s.
Proof. intros Hu. unfold self, getp, bind, get, the. by rewrite (uo_self _ _ Hu). Qed.

Lemma ubyte_run s p a : user_ok s p -> 0 <= a < p_sz p -> ubyte a s = Ret (uview s p a) s.
Proof.
  intros Hu Ha. unfold ubyte. rewrite (bind_Ret _ _ _ _ _ (self_run s p Hu)). unfold bind, get, uview.
  destruct (uo_mapped _ _ Hu a Ha) as [ka ->]. done.
Qed.

Lemma ubytes_run s p a n : user_ok s p -> 0 <= a -> a + Z.of_nat n <= p_sz p ->
  ubytes a n s = Ret (bytes_at (uview s p) a n) s.
Proof.
  intros Hu. pose proof (uo_sz _ _ Hu) as Hsz. unfold KERNBASE in Hsz. revert a. induction n as [|n IH]; intros a Ha Hn; cbn [ubytes]; [done|].
  rewrite (bind_Ret _ _ _ _ _ (ubyte_run s p a Hu ltac:(lia))).
  rewrite u32_small by lia. rewrite (bind_Ret _ _ _ _ _ (IH (a + 1) ltac:(lia) ltac:(lia))). unfold ret.
  by rewrite bytes_at_cons.
Qed.

(** [fetchint] returns the word at [addr] exactly when all its four bytes
    lie below [proc->sz], and never faults. *)
Theorem fetchint_correct s p addr :
  user_ok s p -> 0 <= addr < 2 ^ 32 ->
  fetchint addr s = Ret (if addr + 4 <=? p_sz p then Some (i32 (le_word (bytes_at (uview s p) addr 4))) else None) s.
Proof using.
  intros Hu Ha. pose proof (uo_sz _ _ Hu) as Hsz. unfold KERNBASE in Hsz.
  unfold fetchint. rewrite (bind_Ret _ _ _ _ _ (self_run s p Hu)).
  destruct (Z.leb_spec (p_sz p) addr); cbn [orb]; [destruct (Z.leb_spec (addr + 4) (p_sz p)); [lia | done]|].
  rewrite u32_small by lia. destruct (Z.ltb_spec (p_sz p) (addr + 4)), (Z.leb_spec (addr + 4) (p_sz p)); try lia; [done|].
  by rewrite (bind_Ret _ _ _ _ _ (ubytes_run s p addr 4 Hu ltac:(lia) ltac:(lia))).
Qed.

Lemma argint_run s p n : user_ok s p -> exists r, argint n s = Ret r s.
Proof.
  intros Hu. unfold argint. rewrite (bind_Ret _ _ _ _ _ (self_run s p Hu)).
  pose proof (uo_sz _ _ Hu) as Hsz. unfold fetchint. rewrite (bind_Ret _ _ _ _ _ (self_run s p Hu)).
  set (a := u32 _). pose proof (u32_range (tf_esp (p_tf p) + 4 + 4 * n)) as Ha. fold a in Ha. unfold KERNBASE in Hsz.
  destruct (Z.leb_spec (p_sz p) a); cbn [orb]; [by eexists|].
  rewrite u32_small by lia. destruct (Z.ltb_spec (p_sz p) (a + 4)); [by eexists|].
  rewrite (bind_Ret _ _ _ _ _ (ubytes_run s p a 4 Hu ltac:(lia) ltac:(lia))). by eexists.
Qed.

(** [argptr] returns without a fault, and accepts a pointer only if the
    whole buffer of [size] bytes lies in the memory of the process; every byte
    of an accepted buffer is mapped. *)
Theorem argptr_in_range s p n size :
  user_ok s p -> - 2 ^ 31 <= size < 2 ^ 31 ->
  exists r, argptr n size s = Ret r s /\
    forall q, r = Some q -> 0 <= size /\ 0 <= q /\ q + size <= p_sz p /\
      forall a, q <= a < q + size -> is_Some (translate (km_mem (k_kmem s)) (p_pgdir p) a).
Proof using.
  intros Hu Hs. destruct (argint_run s p n Hu) as [i Hi]. unfold argptr. rewrite (bind_Ret _ _ _ _ _ Hi).
  destruct i as [i|]; [|by eexists]. rewrite (bind_Ret _ _ _ _ _ (self_run s p Hu)).
  pose proof (u32_range i) as Hr. pose proof (uo_sz _ _ Hu) as Hsz. unfold KERNBASE in Hsz.
  destruct (Z.ltb_spec size 0); cbn [orb]; [by eexists|]. destruct (Z.leb_spec (p_sz p) (u32 i)); cbn [orb]; [by eexists|].
  rewrite (u32_small (u32 i + size)) by lia. destruct (Z.ltb_spec (p_sz p) (u32 i + size)); [by eexists|].
  eexists. split; [done|]. intros q [= <-]. split_and!; try lia. intros a Ha. apply (uo_mapped _ _ Hu). lia.
Qed.

Lemma fetchstr_loop_run s p n a : user_ok s p -> 0 <= a -> a + Z.of_nat n <= p_sz p ->
  exists r, fetchstr_loop n a s = Ret r s /\
    match r with
    | Some bs => a + Z.of_nat (length bs) < a + Z.of_nat n /\ bytes_at (uview s p) a (length bs) = bs /\
                 uview s p (a + Z.of_nat (length bs)) = 0 /\ Forall (fun b => b <> 0) bs
    | None => forall x, a <= x < a + Z.of_nat n -> uview s p x <> 0
    end.
Proof.
  intros Hu. pose proof (uo_sz _ _ Hu) as Hsz. unfold KERNBASE in Hsz. revert a. induction n as [|n IH]; intros a Ha Hn; cbn [fetchstr_loop].
  { eexists. split; [done|]. cbn. lia. }
  rewrite (bind_Ret _ _ _ _ _ (ubyte_run s p a Hu ltac:(lia))). destruct (Z.eqb_spec (uview s p a) 0) as [E|E].
  { eexists. split; [done|]. cbn. split_and!; [lia | done | by rewrite Z.add_0_r | constructor]. }
  rewrite u32_small by lia. destruct (IH (a + 1) ltac:(lia) ltac:(lia)) as (r & Hr & Hspec). rewrite (bind_Ret _ _ _ _ _ Hr).
  destruct r as [bs|]; eexists; (split; [done|]).
  - destruct Hspec as (H1 & H2 & H3 & H4). cbn [length]. split_and!; [lia | | rewrite <- H3; f_equal; lia | by constructor].
    by rewrite bytes_at_cons, H2.
  - intros x Hx. destruct (decide (x = a)) as [->|]; [done|]. apply Hspec. lia.
Qed.

(** [fetchstr] never faults; it returns the bytes up to the first NUL when
    that lies below [proc->sz], and fails exactly when there is none. *)
Theorem fetchstr_correct s p addr :
  user_ok s p -> 0 <= addr < 2 ^ 32 ->
  exists r, fetchstr addr s = Ret r s /\
    match r with
    | Some bs => addr + Z.of_nat (length bs) < p_sz p /\ bytes_at (uview s p) addr (length bs) = bs /\
                 uview s p (addr + Z.of_nat (length bs)) = 0 /\ Forall (fun b => b <> 0) bs
    | None => forall x, addr <= x < p_sz p -> uview s p x <> 0
    end.
Proof using.
  intros Hu Ha. unfold fetchstr. rewrite (bind_Ret _ _ _ _ _ (self_run s p Hu)).
  destruct (Z.leb_spec (p_sz p) addr); [exists None; split; [done | intros; lia]|].
  destruct (fetchstr_loop_run s p (Z.to_nat (p_sz p - addr)) addr Hu ltac:(lia) ltac:(lia)) as (r & Hr & Hspec).
  exists r. split; [done|]. replace (addr + Z.of_nat (Z.to_nat (p_sz p - addr))) with (p_sz p) in Hspec by lia. done.
Qed.
End args.

(** ** A process with one page

    Page directory at 0x80100000, page table at 0x80101000, and the page of
    the process at 0x80102000, holding ["hi"] from address 16 on and zeros
    elsewhere.  [%esp] is 0, so argument 0 is the word at address 4. *)
Definition one_page_mem : mem :=
  store_bytes (store32 (store32 (fun _ => 0) 0x80100000 0x101007) 0x80101000 0x102007) 0x80102010 [104; 105].
Definition one_page_kmem : kmem := Kmem one_page_mem true 0 0.
Definition one_page_proc : proc := with_mm 4096 0x80100000 (with_state RUNNING proc0).
Definition one_page (tf : trapframe) (counts : list Z) (inits : Z) : kern unit :=
  Kern (Fs tt (SuperBlock 0 0 0 0 0 0 0) []) [] ∅ one_page_kmem [with_tf tf one_page_proc] 0 None 2 0 counts inits.

Lemma one_page_translate a : 0 <= a < 4096 -> translate one_page_mem 0x80100000 a = Some (0x80102000 + a).
Proof.
  intros Ha. unfold translate, PDX, PTX. rewrite !Z.shiftr_div_pow2 by lia.
  rewrite (Z.div_small a (2 ^ 22)), (Z.div_small a (2 ^ 12)), (Z.mod_small a PGSIZE) by (unfold PGSIZE; lia).
  assert (load32 one_page_mem (u32 (0x80100000 + 4 * Z.land 0 0x3FF)) = 0x101007) as -> by (vm_compute; reflexivity).
  cbv zeta. change (Z.land 0x101007 PTE_P =? 0) with false. cbv iota.
  assert (load32 one_page_mem (u32 (P2V (PTE_ADDR 0x101007) + 4 * Z.land 0 0x3FF)) = 0x102007) as -> by (vm_compute; reflexivity).
  change (Z.land 0x102007 PTE_P =? 0) with false. cbv iota.
  change (P2V (PTE_ADDR 0x102007)) with 0x80102000. by rewrite u32_small by lia.
Qed.
Lemma one_page_ok tf counts inits : user_ok (one_page tf counts inits) (with_tf tf one_page_proc).
Proof. split; [done | cbn; unfold KERNBASE; lia |]. intros a Ha. eexists. by apply one_page_translate. Qed.

Lemma fetchint_correct_witness :
  fetchint 4092 (one_page tf0 [] 0) = Ret (Some 0) (one_page tf0 [] 0) /\
  fetchint 4093 (one_page tf0 [] 0) = Ret None (one_page tf0 [] 0).
Proof. split; rewrite (fetchint_correct _ _ _ (one_page_ok tf0 [] 0)) by lia; vm_compute; reflexivity. Defined.

Lemma argptr_in_range_witness : exists r, argptr 0 4096 (one_page tf0 [] 0) = Ret r (one_page tf0 [] 0) /\ r = Some 0.
Proof.
  destruct (argptr_in_range (one_page tf0 [] 0) _ 0 4096 (one_page_ok tf0 [] 0) ltac:(lia)) as (r & E & _).
  exists r. split; [done|]. vm_compute in E. congruence.
Defined.

Lemma fetchstr_correct_witness : exists r, fetchstr 16 (one_page tf0 [] 0) = Ret r (one_page tf0 [] 0) /\ r = Some [104; 105].
Proof.
  destruct (fetchstr_correct (one_page tf0 [] 0) _ 16 (one_page_ok tf0 [] 0) ltac:(lia)) as (r & E & _).
  exists r. split; [done|]. vm_compute in E. congruence.
Defined.
