(* ===== verification/SyscallTheorems.v ===== *)
(** * Theorems on system-call dispatch

    The call counters that [syscall] keeps before it dispatches, and the user
    buffer [getcount] fills from them. *)

From S2P Require Import Prelude CString Bio Layout Blocks Fs Memory Kalloc Vm Pipe Kern File Sysarg Sysfile Exec Proc Syscall VmEntries VmSpace SysargTheorems.
Import Kstring.

Section theorems.
Context {S : Type} {BL : BlockLayer S} {DS : DevSw S}.
Context (kend kdata : Z).
Implicit Types s : kern S.

Definition SYS_mkSmallFilesdir : Z := 23.

(** the system call [mkSmallFilesdir] is in the dispatch table under number
    23, one past the end of [count_array[23]]: counting the call stores outside
    the array before the handler runs.  The same holds for every other number
    outside 0 to 22, since it is not checked first. *)
Theorem syscall_count_overflows s p :
  k_procs s !! k_self s = Some p ->
  let num := i32 (tf_eax (p_tf p)) in
  num < 0 \/ SYS_mkSmallFilesdir <= num ->
  (exists h, syscalls kend kdata !! Z.to_nat SYS_mkSmallFilesdir = Some (Some h)) /\
  syscall kend kdata s = Undef "count_array[syscall]".
Proof using.
  intros Hp num Hnum. split; [by eexists|].
  assert (self s = Ret p s) as Hs by (unfold self, getp, the, bind, get; by rewrite Hp).
  unfold syscall. rewrite (bind_Ret _ _ _ _ _ Hs). fold num. unfold bind at 1, updatecount, bind, get.
  unfold SYS_mkSmallFilesdir, NCOUNT in *. destruct (Z.leb_spec 0 num), (Z.ltb_spec num 23); try lia; done.
Qed.

(** The counters after calls with the numbers [ns], none before them. *)
Fixpoint count_calls (ns : list Z) : M (kern S) unit :=
  match ns with
  | [] => ret tt
  | n :: ns => updatecount n ;;; count_calls ns
  end.
Definition occurs (n : nat) (ns : list Z) : Z := Z.of_nat (length (filter (fun k => k = Z.of_nat n) ns)).

Lemma i32_add_l a b : i32 (i32 a + b) = i32 (a + b).
Proof. rewrite <- i32_u32. rewrite <- (i32_u32 (a + b)). f_equal.
  transitivity ((i32 a + b) mod 2 ^ 32); [reflexivity|]. rewrite <- Zplus_mod_idemp_l. change (i32 a mod 2 ^ 32) with (u32 (i32 a)). rewrite u32_i32.
  transitivity ((a mod 2 ^ 32 + b) mod 2 ^ 32); [reflexivity|]. rewrite Zplus_mod_idemp_l. reflexivity.
Qed.

Lemma count_calls_run ns : forall s, Forall (fun n => 0 <= n < NCOUNT) ns -> k_inits s = 1 -> length (k_counts s) = Z.to_nat NCOUNT ->
  exists s', count_calls ns s = Ret tt s' /\ length (k_counts s') = Z.to_nat NCOUNT /\
    forall n c, k_counts s !! n = Some c -> exists c', k_counts s' !! n = Some c' /\ i32 c' = i32 (c + occurs n ns).
Proof.
  induction ns as [|m ns IH]; intros s Hns Hi Hl; cbn [count_calls].
  { exists s. split_and!; [done | done |]. intros n c Hc. exists c. split; [done|]. unfold occurs. cbn. f_equal. lia. }
  inversion_clear Hns as [|? ? Hm Hns']. unfold updatecount at 1. unfold bind at 1, bind at 1, get. rewrite Hi. cbn [Z.eqb].
  rewrite (proj2 (Z.leb_le 0 m)), (proj2 (Z.ltb_lt m NCOUNT)) by lia. cbn [andb]. unfold modify.
  destruct (IH (set_counts (alter (fun c => i32 (c + 1)) (Z.to_nat m) (k_counts s)) 1 s) Hns' eq_refl) as (s' & E & Hl' & Hc');
    [cbn; by rewrite length_alter|].
  exists s'. split_and!; [exact E | done |]. intros n c Hc. cbn [set_counts k_counts] in Hc'. unfold occurs. rewrite filter_cons.
  destruct (decide (n = Z.to_nat m)) as [->|Hne].
  - destruct (Hc' (Z.to_nat m) (i32 (c + 1))) as (c' & H1 & H2); [by rewrite list_lookup_alter_eq, Hc|]. exists c'. split; [done|].
    rewrite decide_True by lia. cbn [length]. rewrite H2, i32_add_l. f_equal. unfold occurs. lia.
  - destruct (Hc' n c) as (c' & H1 & H2); [by rewrite list_lookup_alter_ne|]. exists c'. split; [done|]. by rewrite decide_False by lia.
Qed.
End theorems.

(** [getcount(q, 23)] with 23 bytes of memory left at [q]: the arguments pass
    the checks, and the 92 bytes stored run past the end. *)
Definition count_mem : mem := store32 (store32 one_page_mem 0x80102004 4073) 0x80102008 23.
Definition count_kern : kern unit :=
  Kern (Fs tt (SuperBlock 0 0 0 0 0 0 0) []) [] ∅ (Kmem count_mem true 0 0) [one_page_proc] 0 None 2 0 (replicate 23 0) 1.
Lemma getcount_overruns :
  argint 1 count_kern = Ret (Some 23) count_kern /\ argptr 0 23 count_kern = Ret (Some 4073) count_kern /\
  getcount count_kern = Undef "page fault".
Proof. vm_compute. split_and!; reflexivity. Qed.

#[local] Instance no_blocks : BlockLayer unit := {|
  bl_bread _ _ := ret O; bl_data _ _ := []; bl_store _ _ := ret tt; bl_log_write _ := ret tt;
  bl_brelse _ := ret tt; bl_begin_op := ret tt; bl_end_op := ret tt |}.
#[local] Instance no_devsw : DevSw unit := {| dev_read _ := None; dev_write _ := None |}.

Lemma syscall_count_overflows_witness :
  syscall 0 0 (one_page (with_eax 23 tf0) [] 0) = Undef "count_array[syscall]".
Proof. apply (syscall_count_overflows 0 0 (one_page (with_eax 23 tf0) [] 0) (with_tf (with_eax 23 tf0) one_page_proc) eq_refl). right. done. Defined.
