(* ===== verification/FileRefs.v ===== *)
(** * Reference counts of open files

    [f->ref] of every entry of the file table (file.c) is the number of
    descriptors, over all processes, that hold the entry.  The count is wrong
    for a while inside a system call, between [filealloc] and [fdalloc] say;
    the difference is a ghost argument of the invariant.  Every system call
    leaves it at zero. *)

From S2P Require Import Prelude CString Bio Layout Blocks Fs Memory Kalloc Vm Pipe Kern File Sysarg Sysfile Exec Proc Syscall ProcTable ProcRefine.

(** ** Counting descriptors *)

(** How many descriptors of [p] hold file [f], and how many of all processes. *)
Definition held (f : nat) (l : list (option nat)) : Z := foldr (fun o t => (if decide (o = Some f) then 1 else 0) + t) 0 l.
Definition fdrefs (f : nat) (l : list proc) : Z := foldr (fun p t => held f (p_ofile p) + t) 0 l.

Definition dead (p : proc) : Prop := p_state p = UNUSED \/ p_state p = ZOMBIE.
#[export] Instance dead_dec p : Decision (dead p).
Proof. unfold dead. apply _. Defined.

Lemma held_cons f o l : held f (o :: l) = (if decide (o = Some f) then 1 else 0) + held f l.
Proof. done. Qed.
Lemma fdrefs_cons f p l : fdrefs f (p :: l) = held f (p_ofile p) + fdrefs f l.
Proof. done. Qed.

Lemma held_insert f l i o o' : l !! i = Some o ->
  held f (<[i := o']> l) = held f l - (if decide (o = Some f) then 1 else 0) + (if decide (o' = Some f) then 1 else 0).
Proof.
  revert i. induction l as [|x l IH]; intros [|i]; try done.
  - intros [= ->]. change (<[0%nat := o']> (o :: l)) with (o' :: l). rewrite !held_cons. lia.
  - intros Hi. change (<[S i := o']> (x :: l)) with (x :: <[i := o']> l). rewrite !held_cons, (IH i Hi). lia.
Qed.
Lemma held_none f l : Forall (eq None) l -> held f l = 0.
Proof. induction 1 as [|x l <- _ IH]; [done|]. by rewrite held_cons. Qed.
Lemma held_nonneg f l : 0 <= held f l.
Proof. induction l as [|o l IH]; [done|]. rewrite held_cons. case_decide; lia. Qed.
Lemma fdrefs_nonneg f l : 0 <= fdrefs f l.
Proof. induction l as [|p l IH]; [done|]. rewrite fdrefs_cons. pose proof (held_nonneg f (p_ofile p)). lia. Qed.
Lemma fdrefs_alter f l k p g : l !! k = Some p ->
  fdrefs f (alter g k l) = fdrefs f l - held f (p_ofile p) + held f (p_ofile (g p)).
Proof.
  revert k. induction l as [|x l IH]; intros [|k]; try done.
  - intros [= ->]. change (alter g 0%nat (p :: l)) with (g p :: l). rewrite !fdrefs_cons. lia.
  - intros Hk. change (alter g (S k) (x :: l)) with (x :: alter g k l). rewrite !fdrefs_cons, (IH k Hk). lia.
Qed.
Lemma held_lookup f l i : l !! i = Some (Some f) -> 0 < held f l.
Proof.
  revert i. induction l as [|x l IH]; intros [|i]; try done; rewrite held_cons.
  - intros [= ->]. rewrite decide_True by done. pose proof (held_nonneg f l). lia.
  - intros Hi. apply IH in Hi. case_decide; lia.
Qed.
Lemma fdrefs_lookup f l k p i : l !! k = Some p -> p_ofile p !! i = Some (Some f) -> 0 < fdrefs f l.
Proof.
  revert k. induction l as [|x l IH]; intros [|k]; try done; rewrite fdrefs_cons.
  - intros [= ->] Hi. apply held_lookup in Hi. pose proof (fdrefs_nonneg f l). lia.
  - intros Hk Hi. specialize (IH _ Hk Hi). pose proof (held_nonneg f (p_ofile x)). lia.
Qed.

(** ** The invariant *)

Section inv.
Context {S : Type}.
Implicit Types s : kern S.

(** [ex f] is what [f->ref] is above the number of descriptors of [f]. *)
Record accounted (ex : nat -> Z) s : Prop := {
  ac_ref : forall f x, k_files s !! f = Some x -> fl_ref x = fdrefs f (k_procs s) + ex f;
  ac_in : forall f, k_files s !! f = None -> fdrefs f (k_procs s) + ex f = 0;
  ac_len : forall k p, k_procs s !! k = Some p -> length (p_ofile p) = Z.to_nat NOFILE;
  ac_dead : forall k p, k_procs s !! k = Some p -> dead p -> Forall (eq None) (p_ofile p)
}.
(** The state between two system calls. *)
Definition files_ok s : Prop := accounted (fun _ => 0) s.

Definition bump (f : nat) (d : Z) (ex : nat -> Z) : nat -> Z := fun g => ex g + if decide (g = f) then d else 0.

Lemma accounted_ext ex ex' s : (forall f, ex f = ex' f) -> accounted ex s -> accounted ex' s.
Proof. intros He [H1 H2 H3 H4]. split; try done; intros f; rewrite <- He; auto. Qed.

(** The current process is alive. *)
Definition alive s : Prop := exists p, k_procs s !! k_self s = Some p /\ ~ dead p.

(** Computations that touch neither counts nor descriptors. *)
Definition same_fds (l l' : list proc) : Prop := Forall2 (fun p p' => p_ofile p' = p_ofile p /\ (dead p' -> dead p)) l l'.
Record quiet s s' : Prop := {
  qt_self : k_self s' = k_self s;
  qt_procs : same_fds (k_procs s) (k_procs s');
  qt_files : fl_ref <$> k_files s' = fl_ref <$> k_files s
}.

Lemma same_fds_refl l : same_fds l l.
Proof. apply Forall_Forall2_diag, Forall_true. done. Qed.
Lemma same_fds_trans l1 l2 l3 : same_fds l1 l2 -> same_fds l2 l3 -> same_fds l1 l3.
Proof.
  intros H1. revert l3. induction H1 as [|p q l l' [E1 D1] _ IH]; intros l3 H2; inversion_clear H2 as [|? r ? l3' [E2 D2]]; constructor; [|by apply IH].
  split; [congruence | auto].
Qed.
Lemma unmoved_refl s : quiet s s.
Proof. split; [done | apply same_fds_refl | done]. Qed.
Lemma quiet_trans s1 s2 s3 : quiet s1 s2 -> quiet s2 s3 -> quiet s1 s3.
Proof. intros [A1 A2 A3] [B1 B2 B3]. split; [congruence | by eapply same_fds_trans | congruence]. Qed.

Lemma same_fds_refs f l l' : same_fds l l' -> fdrefs f l' = fdrefs f l.
Proof. induction 1 as [|p q l l' [E _] _ IH]; [done|]. cbn. rewrite E. unfold fdrefs in IH. lia. Qed.
Lemma same_fds_alter g k l : (forall p, p_ofile (g p) = p_ofile p) -> (forall p, l !! k = Some p -> dead (g p) -> dead p) -> same_fds l (alter g k l).
Proof.
  intros Hg Hd. apply Forall2_same_length_lookup_2; [by rewrite length_alter|]. intros i p q Hp Hq. destruct (decide (i = k)) as [->|Hne].
  - rewrite list_lookup_alter_eq, Hp in Hq. injection Hq as <-. auto.
  - rewrite list_lookup_alter_ne, Hp in Hq by done. by injection Hq as <-.
Qed.

Lemma accounted_quiet ex s s' : accounted ex s -> quiet s s' -> accounted ex s'.
Proof.
  intros [H1 H2 H3 H4] [_ Q2 Q3].
  assert (forall f, fl_ref <$> k_files s' !! f = fl_ref <$> k_files s !! f) as Hf by (intros f; by rewrite <- !list_lookup_fmap, Q3). split.
  - intros f x Hx. specialize (Hf f). rewrite Hx in Hf. destruct (k_files s !! f) as [y|] eqn:Hy; [|done]. injection Hf as ->. rewrite (same_fds_refs f _ _ Q2). by apply H1.
  - intros f Hx. specialize (Hf f). rewrite Hx in Hf. destruct (k_files s !! f) as [y|] eqn:Hy; [done|]. rewrite (same_fds_refs f _ _ Q2). by apply H2.
  - intros k p Hp. destruct (Forall2_lookup_r _ _ _ _ _ Q2 Hp) as (q & Hq & -> & _). by eapply H3.
  - intros k p Hp Hd. destruct (Forall2_lookup_r _ _ _ _ _ Q2 Hp) as (q & Hq & -> & Hdd). eapply H4; eauto.
Qed.
Lemma quiet_alive s s' : quiet s s' -> alive s -> alive s'.
Proof.
  intros [Q1 Q2 _] (p & Hp & Hd). destruct (Forall2_lookup_l _ _ _ _ _ Q2 Hp) as (q & Hq & _ & Hdd). exists q. rewrite Q1. split; [done | auto].
Qed.
Lemma quiet_fd s s' k p i o : quiet s s' -> k_procs s !! k = Some p -> p_ofile p !! i = o -> exists p', k_procs s' !! k = Some p' /\ p_ofile p' !! i = o.
Proof. intros [_ Q2 _] Hp Hi. destruct (Forall2_lookup_l _ _ _ _ _ Q2 Hp) as (q & Hq & E & _). exists q. by rewrite E. Qed.
End inv.

(** ** Quiet computations *)

Section quiet.
Context {S : Type} `{BlockLayer S} `{DevSw S}.
Implicit Types s : kern S.

Definition silent {A} (m : M (kern S) A) : Prop := forall s a s', m s = Ret a s' -> quiet s s'.

Lemma silent_ret {A} (a : A) : silent (ret a).
Proof. intros s b s' [= <- <-]. apply unmoved_refl. Qed.
Lemma silent_bind {A B} (m : M (kern S) A) (k : A -> M (kern S) B) : silent m -> (forall a, silent (k a)) -> silent (bind m k).
Proof. intros Hm Hk s b s' (a & s1 & E1 & E2)%bind_inv. eapply quiet_trans; [by eapply Hm | by eapply Hk]. Qed.
Lemma silent_get : silent get.
Proof. intros s b s' [= <- <-]. apply unmoved_refl. Qed.
Lemma silent_panic {A} msg : silent (panic (A := A) msg).
Proof. done. Qed.
Lemma silent_undef {A} msg : silent (undef (A := A) msg).
Proof. done. Qed.
Lemma silent_blocked {A} msg : silent (blocked (A := A) msg).
Proof. done. Qed.
Lemma silent_the {A} w (o : option A) : silent (the w o).
Proof. destruct o; [apply silent_ret | done]. Qed.
Lemma silent_when c m : silent m -> silent (when c m).
Proof. destruct c; [done | intros _; apply silent_ret]. Qed.
Lemma silent_modify (g : kern S -> kern S) :
  (forall s, k_self (g s) = k_self s /\ k_procs (g s) = k_procs s /\ k_files (g s) = k_files s) -> silent (modify g).
Proof. intros Hg s [] s' [= <-]. destruct (Hg s) as (E1 & E2 & E3). split; [done | rewrite E2; apply same_fds_refl | by rewrite E3]. Qed.
Lemma silent_onfs {A} (m : M (fs S) A) : silent (onfs m).
Proof. intros s a s'. unfold onfs, zoom. destruct (m (k_fs s)); try done. intros [= <- <-]. split; [done | apply same_fds_refl | done]. Qed.
Lemma silent_onkm {A} (m : M kmem A) : silent (onkm m : M (kern S) A).
Proof. intros s a s'. unfold onkm, zoom. destruct (m (k_kmem s)); try done. intros [= <- <-]. split; [done | apply same_fds_refl | done]. Qed.
Lemma silent_modp k g : (forall p, p_ofile (g p) = p_ofile p /\ (dead (g p) -> dead p)) -> silent (modp k g).
Proof. intros Hg s [] s' [= <-]. split; [done | | done]. apply same_fds_alter; [intros p; apply Hg | intros p _; apply Hg]. Qed.
Lemma silent_modf f g : (forall x, fl_ref (g x) = fl_ref x) -> silent (modf f g).
Proof.
  intros Hg s [] s' [= <-]. split; [done | apply same_fds_refl |]. cbn. apply list_eq. intros i. rewrite !list_lookup_fmap.
  destruct (decide (i = f)) as [->|]; [|by rewrite list_lookup_alter_ne]. rewrite list_lookup_alter_eq. destruct (k_files s !! f); [|done]. cbn. by rewrite Hg.
Qed.
Lemma wakeup1_same c l : same_fds l (wakeup1 c l).
Proof.
  apply Forall2_same_length_lookup_2; [by rewrite length_wakeup1|]. intros i p q Hp Hq. rewrite wakeup1_lookup, Hp in Hq. injection Hq as <-.
  destruct (_ && _) eqn:E; [|done]. split; [done|]. unfold dead. cbn. by intros [?|?].
Qed.
Lemma silent_wakeup c : silent (wakeup c).
Proof. intros s [] s' [= <-]. split; [done | apply wakeup1_same | done]. Qed.
Lemma silent_for_ {R} n lo (body : Z -> M (kern S) (option R)) : (forall j, silent (body j)) -> silent (for_ n lo body).
Proof. intros Hb. revert lo. induction n as [|n IH]; intros lo; cbn [for_]; [apply silent_ret|]. apply silent_bind; [apply Hb|]. intros [x|]; [apply silent_ret | apply IH]. Qed.
Lemma silent_for_each n lo (body : Z -> M (kern S) unit) : (forall j, silent (body j)) -> silent (for_each n lo body).
Proof. intros Hb. revert lo. induction n as [|n IH]; intros lo; cbn [for_each]; [apply silent_ret|]. apply silent_bind; [apply Hb | intros _; apply IH]. Qed.
End quiet.

Create HintDb silent.
#[export] Hint Resolve silent_ret silent_get silent_panic silent_undef silent_blocked silent_the silent_onfs silent_onkm silent_wakeup : silent.

(** Decomposes a computation into calls that the database knows. *)
Ltac silent_step :=
  match goal with
  | |- silent (bind _ _) => apply silent_bind; [|intros ?]
  | |- silent (when _ _) => apply silent_when
  | |- silent (for_ _ _ _) => apply silent_for_; intros ?
  | |- silent (for_each _ _ _) => apply silent_for_each; intros ?
  | |- silent (modify _) => apply silent_modify; by intros ?
  | |- silent (modp _ _) => apply silent_modp; intros ?; split; [done | by unfold dead; cbn; intuition congruence]
  | |- silent (modf _ _) => apply silent_modf; by intros ?
  | |- silent (if ?b then _ else _) => destruct b
  | |- silent (match ?x with _ => _ end) => destruct x
  | |- silent (let '(_, _) := ?x in _) => destruct x
  | |- silent _ => solve [eauto with silent nocore]
  end.
Ltac silent_auto := repeat silent_step.

Section ops.
Context {S : Type} `{BlockLayer S} `{DevSw S}.
Context (kend kdata : Z).
Implicit Types s : kern S.

Lemma silent_getp k : silent (getp (S := S) k).
Proof. unfold getp. silent_auto. Qed.
Lemma silent_getf f : silent (getf (S := S) f).
Proof. unfold getf. silent_auto. Qed.
Hint Resolve silent_getp silent_getf : silent.
Lemma silent_self : silent (self (S := S)).
Proof. unfold self. silent_auto. Qed.
Lemma silent_modself g : (forall p, p_ofile (g p) = p_ofile p /\ (dead (g p) -> dead p)) -> silent (modself (S := S) g).
Proof. intros Hg. unfold modself. apply silent_bind; [apply silent_get | intros ?; by apply silent_modp]. Qed.
Hint Resolve silent_self : silent.
Lemma silent_ubyte a : silent (ubyte (S := S) a).
Proof. unfold ubyte. silent_auto. Qed.
Lemma silent_ustore a b : silent (ustore (S := S) a b).
Proof. unfold ustore. silent_auto. Qed.
Hint Resolve silent_ubyte silent_ustore : silent.
Lemma silent_ubytes a n : silent (ubytes (S := S) a n).
Proof. revert a. induction n as [|n IH]; intros a; cbn [ubytes]; silent_auto. Qed.
Lemma silent_ustores a bs : silent (ustores (S := S) a bs).
Proof. revert a. induction bs as [|b bs IH]; intros a; cbn [ustores]; silent_auto. Qed.
Hint Resolve silent_ubytes silent_ustores : silent.

Lemma silent_fetchint a : silent (fetchint (S := S) a).
Proof. unfold fetchint. silent_auto. Qed.
Hint Resolve silent_fetchint : silent.
Lemma silent_fetchstr_loop n a : silent (fetchstr_loop (S := S) n a).
Proof. revert a. induction n as [|n IH]; intros a; cbn [fetchstr_loop]; silent_auto. Qed.
Hint Resolve silent_fetchstr_loop : silent.
Lemma silent_fetchstr a : silent (fetchstr (S := S) a).
Proof. unfold fetchstr. silent_auto. Qed.
Lemma silent_argint n : silent (argint (S := S) n).
Proof. unfold argint. silent_auto. Qed.
Hint Resolve silent_fetchstr silent_argint : silent.
Lemma silent_argptr n z : silent (argptr (S := S) n z).
Proof. unfold argptr. silent_auto. Qed.
Lemma silent_argstr n : silent (argstr (S := S) n).
Proof. unfold argstr. silent_auto. Qed.
Lemma silent_argfd n : silent (argfd (S := S) n).
Proof. unfold argfd. silent_auto. Qed.
Hint Resolve silent_argptr silent_argstr silent_argfd : silent.

Lemma silent_pipeclose pp w : silent (pipeclose (S := S) kend pp w).
Proof. unfold pipeclose, pipe_at, pipe_put. silent_auto. Qed.
Lemma silent_wake_all pp cs : silent (wake_all (S := S) pp cs).
Proof. induction cs as [|c cs IH]; cbn [wake_all]; silent_auto. Qed.
Hint Resolve silent_pipeclose silent_wake_all : silent.
Lemma silent_file_piperead pp n : silent (file_piperead (S := S) pp n).
Proof. unfold file_piperead, pipe_at, pipe_put. silent_auto. Qed.
Lemma silent_file_pipewrite pp a n : silent (file_pipewrite (S := S) pp a n).
Proof. unfold file_pipewrite, pipe_at, pipe_put. silent_auto. Qed.
Hint Resolve silent_file_piperead silent_file_pipewrite : silent.
Lemma silent_filestat f : silent (filestat (S := S) f).
Proof. unfold filestat. silent_auto. Qed.
Lemma silent_fileread f n : silent (fileread (S := S) f n).
Proof. unfold fileread. silent_auto. Qed.
Lemma silent_filewrite_loop fuel f ip a i n : silent (filewrite_loop (S := S) fuel f ip a i n).
Proof. revert i. induction fuel as [|fuel IH]; intros i; cbn [filewrite_loop]; silent_auto. Qed.
Hint Resolve silent_filestat silent_fileread silent_filewrite_loop : silent.
Lemma silent_filewrite f a n : silent (filewrite (S := S) f a n).
Proof. unfold filewrite. silent_auto. Qed.
Hint Resolve silent_filewrite : silent.

Lemma silent_cwd_of : silent (cwd_of (S := S)).
Proof. unfold cwd_of. silent_auto. Qed.
Hint Resolve silent_cwd_of : silent.
Lemma silent_knamei path : silent (knamei (S := S) path).
Proof. unfold knamei. silent_auto. Qed.
Lemma silent_knameiparent path nm : silent (knameiparent (S := S) path nm).
Proof. unfold knameiparent. silent_auto. Qed.
Lemma silent_fail_op : silent (fail_op (S := S)).
Proof. unfold fail_op. silent_auto. Qed.
Hint Resolve silent_knamei silent_knameiparent silent_fail_op : silent.
Lemma silent_isdirempty dp : silent (isdirempty (S := S) dp).
Proof. unfold isdirempty. silent_auto. Qed.
Hint Resolve silent_isdirempty : silent.
Lemma silent_create path ty ma mi : silent (create (S := S) path ty ma mi).
Proof. unfold create. silent_auto. Qed.
Hint Resolve silent_create : silent.
Lemma silent_open_inode path om : silent (open_inode (S := S) path om).
Proof. unfold open_inode. silent_auto. Qed.
Lemma silent_make_dir ty : silent (make_dir (S := S) ty).
Proof. unfold make_dir. silent_auto. Qed.
Hint Resolve silent_open_inode silent_make_dir : silent.
Lemma silent_link : silent (sys_link (S := S)).
Proof. unfold sys_link. silent_auto. Qed.
Lemma silent_unlink : silent (sys_unlink (S := S)).
Proof. unfold sys_unlink. silent_auto. Qed.
Lemma silent_mknod : silent (sys_mknod (S := S)).
Proof. unfold sys_mknod. silent_auto. Qed.
Lemma silent_chdir : silent (sys_chdir (S := S)).
Proof. unfold sys_chdir. silent_auto. apply silent_modself. by intros ?. Qed.
Lemma silent_updatecount n : silent (updatecount (S := S) n).
Proof. unfold updatecount. silent_auto. Qed.
Lemma silent_getcount : silent (getcount (S := S)).
Proof. unfold getcount. silent_auto. Qed.
Lemma silent_read : silent (sys_read (S := S)).
Proof. unfold sys_read. silent_auto. Qed.
Lemma silent_write : silent (sys_write (S := S)).
Proof. unfold sys_write. silent_auto. Qed.
Lemma silent_fstat : silent (sys_fstat (S := S)).
Proof. unfold sys_fstat, stat_store. silent_auto. Qed.
Hint Resolve silent_link silent_unlink silent_mknod silent_chdir silent_updatecount silent_getcount silent_read silent_write silent_fstat : silent.

Lemma silent_switchuvm p : silent (switchuvm (S := S) p).
Proof. unfold switchuvm. silent_auto. Qed.
Lemma silent_loaduvm_loop fuel pd a ip off sz i : silent (loaduvm_loop (S := S) fuel pd a ip off sz i).
Proof. revert i. induction fuel as [|fuel IH]; intros i; cbn [loaduvm_loop]; silent_auto. Qed.
Hint Resolve silent_switchuvm silent_loaduvm_loop : silent.
Lemma silent_exec_load n pd ip off sz : silent (exec_load (S := S) kend n pd ip off sz).
Proof. revert off sz. induction n as [|n IH]; intros off sz; cbn [exec_load]; unfold loaduvm; silent_auto. Qed.
Lemma silent_push_args argv c pd sp us : silent (push_args (S := S) argv c pd sp us).
Proof. revert c sp us. induction argv as [|a argv IH]; intros c sp us; cbn [push_args]; silent_auto. Qed.
Hint Resolve silent_exec_load silent_push_args : silent.
Lemma silent_exec_start path argv e pd sz : silent (exec_start (S := S) kend path argv e pd sz).
Proof. unfold exec_start. silent_auto; apply silent_modself; by intros ?. Qed.
Hint Resolve silent_exec_start : silent.
Lemma silent_exec path argv : silent (exec (S := S) kend kdata path argv).
Proof. unfold exec. silent_auto. Qed.
Lemma silent_fetch_argv n u i : silent (fetch_argv (S := S) n u i).
Proof. revert i. induction n as [|n IH]; intros i; cbn [fetch_argv]; silent_auto. Qed.
Hint Resolve silent_exec silent_fetch_argv : silent.
Lemma silent_sys_exec : silent (sys_exec (S := S) kend kdata).
Proof. unfold sys_exec. silent_auto. Qed.

Lemma silent_growproc n : silent (growproc (S := S) kend n).
Proof. unfold growproc. silent_auto; apply silent_modself; by intros ?. Qed.
Hint Resolve silent_sys_exec silent_growproc : silent.
Lemma silent_sbrk : silent (sys_sbrk (S := S) kend).
Proof. unfold sys_sbrk. silent_auto. Qed.
Lemma silent_kill pid : silent (kill (S := S) pid).
Proof. unfold kill. silent_auto. apply silent_modp. intros p. unfold kill_one, dead. cbn. case_bool_decide; cbn; [|done]. split; [done|]. by intros [?|?]. Qed.
Hint Resolve silent_sbrk silent_kill : silent.
Lemma silent_sys_kill : silent (sys_kill (S := S)).
Proof. unfold sys_kill. silent_auto. Qed.
Lemma silent_sleep c : silent (sleep (S := S) c).
Proof. unfold sleep. silent_auto. apply silent_modself. intros p. split; [done|]. unfold dead. cbn. by intros [?|?]. Qed.
Hint Resolve silent_sys_kill silent_sleep : silent.
Lemma silent_sys_sleep : silent (sys_sleep (S := S)).
Proof. unfold sys_sleep, sleep_round. silent_auto. Qed.
Lemma silent_getpid : silent (sys_getpid (S := S)).
Proof. unfold sys_getpid. silent_auto. Qed.
Lemma silent_uptime : silent (sys_uptime (S := S)).
Proof. unfold sys_uptime. silent_auto. Qed.
Lemma silent_set_eax r : silent (set_eax (S := S) r).
Proof. apply silent_modself. by intros ?. Qed.
Hint Resolve silent_sys_sleep silent_getpid silent_uptime silent_set_eax : silent.

(** ** The operations that move references *)

Lemma accounted_modf ex s f x g : accounted ex s -> k_files s !! f = Some x ->
  accounted (bump f (fl_ref (g x) - fl_ref x) ex) (set_files (alter g f (k_files s)) s).
Proof.
  intros [H1 H2 H3 H4] Hx. split; try done; cbn [k_files k_procs set_files]; intros h; unfold bump.
  - intros y. case_decide as E; [subst h|rewrite list_lookup_alter_ne by done; intros Hy; rewrite (H1 _ _ Hy); lia].
    rewrite list_lookup_alter_eq, Hx. cbn. intros [= <-]. specialize (H1 _ _ Hx). lia.
  - case_decide as E; [subst h; by rewrite list_lookup_alter_eq, Hx|]. rewrite list_lookup_alter_ne by done. intros Hy. specialize (H2 _ Hy). lia.
Qed.

(** The descriptors of process [k] change. *)
Lemma accounted_alter ex s k p g : accounted ex s -> k_procs s !! k = Some p -> length (p_ofile (g p)) = Z.to_nat NOFILE ->
  (dead (g p) -> Forall (eq None) (p_ofile (g p))) ->
  accounted (fun f => ex f + held f (p_ofile p) - held f (p_ofile (g p))) (set_procs (alter g k (k_procs s)) s).
Proof.
  intros [H1 H2 H3 H4] Hp Hl Hd. split; cbn [k_files k_procs set_procs].
  - intros f x Hx. rewrite (fdrefs_alter f _ k p) by done. specialize (H1 _ _ Hx). lia.
  - intros f Hx. rewrite (fdrefs_alter f _ k p) by done. specialize (H2 _ Hx). lia.
  - intros j q. rewrite alter_lookup_Some. intros (q0 & Hq & ->). case_decide as E; [|by eapply H3]. subst j. rewrite Hp in Hq. by injection Hq as <-.
  - intros j q. rewrite alter_lookup_Some. intros (q0 & Hq & ->). case_decide as E; [|by eapply H4]. subst j. rewrite Hp in Hq. by injection Hq as <-.
Qed.

Lemma getf_inv f s x s' : getf f s = Ret x s' -> s' = s /\ k_files s !! f = Some x.
Proof. unfold getf, bind, get, the. destruct (k_files s !! f) eqn:E; try done. unfold ret. by intros [= <- <-]. Qed.

Lemma file_scan_Some l i f : file_scan l i = Some f -> (i <= f)%nat /\ exists x, l !! (f - i)%nat = Some x /\ fl_ref x = 0.
Proof.
  revert i. induction l as [|x l IH]; intros i; cbn [file_scan]; [done|]. destruct (Z.eqb_spec (fl_ref x) 0) as [E|_].
  - intros [= ->]. rewrite Nat.sub_diag. split; [lia|]. by exists x.
  - intros Hn. apply IH in Hn as (? & y & Hy & ?). split; [lia|]. exists y. by replace (f - i)%nat with (Datatypes.S (f - Datatypes.S i)) by lia.
Qed.

Lemma acc_filealloc ex s r s' : accounted ex s -> filealloc s = Ret r s' ->
  k_procs s' = k_procs s /\ k_self s' = k_self s /\ match r with Some f => accounted (bump f 1 ex) s' | None => s' = s end.
Proof.
  intros HA. unfold filealloc, bind, get, modf, modify, ret. destruct (file_scan (k_files s) 0) as [f|] eqn:E; intros [= <- <-]; [|done].
  apply file_scan_Some in E as (_ & x & Hx & Hr). rewrite Nat.sub_0_r in Hx. split_and!; try done.
  eapply accounted_ext; [|by apply (accounted_modf ex s f x)]. intros h. unfold bump. cbn. rewrite Hr. done.
Qed.

Lemma acc_filedup ex s f r s' : accounted ex s -> filedup f s = Ret r s' ->
  r = f /\ k_procs s' = k_procs s /\ k_self s' = k_self s /\ accounted (bump f 1 ex) s'.
Proof.
  intros HA (x & t & [-> Hx]%getf_inv & E)%bind_inv. destruct (fl_ref x <? 1); [done|]. unfold bind, modf, modify, ret in E. injection E as <- <-. split_and!; try done.
  eapply accounted_ext; [|by apply (accounted_modf ex s f x)]. intros h. unfold bump. cbn. case_decide; lia.
Qed.

Lemma acc_fileclose ex s f r s' : accounted ex s -> fileclose kend f s = Ret r s' ->
  k_self s' = k_self s /\ same_fds (k_procs s) (k_procs s') /\ accounted (bump f (-1) ex) s'.
Proof.
  intros HA (x & t & [-> Hx]%getf_inv & E)%bind_inv. destruct (Z.ltb_spec (fl_ref x) 1) as [|Hr]; [done|].
  apply bind_inv in E as ([] & t & E1 & E). unfold modf, modify in E1. injection E1 as <-. set (t1 := set_files _ s) in E.
  assert (accounted (bump f (-1) ex) t1) as H1 by (eapply accounted_ext; [|by apply (accounted_modf ex s f x)]; intros h; unfold bump; cbn; case_decide; lia).
  assert (k_files t1 !! f = Some (with_fref (fl_ref x - 1) x)) as Hf by (cbn; by rewrite list_lookup_alter_eq, Hx).
  destruct (Z.ltb_spec 0 (fl_ref x - 1)) as [|Hz]; [injection E as <- <-; split_and!; [done | apply same_fds_refl | done]|].
  apply bind_inv in E as ([] & t2 & E2 & E). unfold modf, modify in E2. injection E2 as <-. set (t2 := set_files _ t1) in E.
  assert (accounted (bump f (-1) ex) t2) as H2.
  { eapply accounted_ext; [|by apply (accounted_modf _ t1 f _ _ H1 Hf)]. intros h. unfold bump. cbn. case_decide; lia. }
  assert (quiet t2 s') as HQ.
  { revert E. generalize t2 as u. intros u E. assert (silent (match fl_type x with FD_PIPE => pipeclose (S := S) kend (fl_pipe x) (fl_writable x)
      | FD_INODE => onfs begin_op ;;; onfs (iput (fl_ip x)) ;;; onfs end_op | FD_NONE => ret tt end)) as Hs by silent_auto. by eapply Hs. }
  split_and!; [apply HQ | apply HQ | by eapply accounted_quiet].
Qed.

Lemma fd_scan_Some l i fd : fd_scan l i = Some fd -> (i <= fd)%nat /\ l !! (fd - i)%nat = Some None /\ forall j, (j < fd - i)%nat -> exists f, l !! j = Some (Some f).
Proof.
  revert i. induction l as [|[f|] l IH]; intros i; cbn [fd_scan]; [done | |].
  - intros Hn. apply IH in Hn as (Hi & Hl & Hb). split; [lia|]. replace (fd - i)%nat with (Datatypes.S (fd - Datatypes.S i)) by lia. split; [done|].
    intros [|j] Hj; [by exists f|]. apply Hb. lia.
  - intros [= ->]. rewrite Nat.sub_diag. split_and!; [lia | done | lia].
Qed.

(** A descriptor of the current process. *)
Definition has_fd s (fd : nat) (o : option nat) : Prop := exists p, k_procs s !! k_self s = Some p /\ p_ofile p !! fd = Some o.

Lemma has_fd_quiet s s' fd o : k_self s' = k_self s -> same_fds (k_procs s) (k_procs s') -> has_fd s fd o -> has_fd s' fd o.
Proof. intros E Q (p & Hp & Hf). destruct (Forall2_lookup_l _ _ _ _ _ Q Hp) as (q & Hq & Eq & _). exists q. by rewrite E, Eq. Qed.

(** Setting a descriptor of the current process. *)
Lemma acc_setfd ex s fd o o' : accounted ex s -> alive s \/ o' = None -> has_fd s fd o ->
  let s' := set_procs (alter (fun p => with_ofile (<[fd := o']> (p_ofile p)) p) (k_self s) (k_procs s)) s in
  has_fd s' fd o' /\ (alive s -> alive s') /\
  accounted (fun f => ex f + (if decide (o = Some f) then 1 else 0) - (if decide (o' = Some f) then 1 else 0)) s'.
Proof.
  intros HA Hlive (p & Hp & Hf) s'. pose proof (lookup_lt_Some _ _ _ Hf) as Hlt. split_and!.
  - eexists. split; [unfold s'; cbn; rewrite list_lookup_alter_eq, Hp; done|]. cbn. by rewrite list_lookup_insert_eq.
  - intros (q & Hq & Hd). rewrite Hp in Hq. injection Hq as <-. eexists. split; [unfold s'; cbn; rewrite list_lookup_alter_eq, Hp; done | done].
  - eapply accounted_ext; [|apply (accounted_alter ex s (k_self s) p _ HA Hp)]; cbn [p_ofile with_ofile].
    + intros f. rewrite (held_insert f _ _ o) by done. lia.
    + rewrite length_insert. by apply (ac_len _ _ HA _ _ Hp).
    + intros Hd. assert (Forall (eq None) (p_ofile p)) as Hn by (by apply (ac_dead _ _ HA _ _ Hp)). destruct Hlive as [(q & Hq & Hnd)| ->].
      * rewrite Hp in Hq. injection Hq as <-. done.
      * by apply Forall_insert.
Qed.

Lemma acc_fdalloc ex s f r s' : accounted ex s -> alive s -> fdalloc f s = Ret r s' ->
  (r = -1 /\ s' = s) \/
  (exists fd, r = Z.of_nat fd /\ has_fd s fd None /\ has_fd s' fd (Some f) /\ alive s' /\ k_self s' = k_self s /\ accounted (bump f (-1) ex) s').
Proof.
  intros HA HL (p & t & [-> Hp]%self_inv & E)%bind_inv. destruct (fd_scan (p_ofile p) 0) as [fd|] eqn:Hs; [|injection E as <- <-; by left]. right.
  apply fd_scan_Some in Hs as (_ & Hn & _). rewrite Nat.sub_0_r in Hn. unfold modself, modp, bind, get, modify, ret in E. injection E as <- <-.
  assert (has_fd s fd None) as Hh by (by exists p). destruct (acc_setfd ex s fd None (Some f) HA (or_introl HL) Hh) as (K1 & K2 & K3). exists fd. split_and!; auto.
  eapply accounted_ext; [|exact K3]. intros h. unfold bump. repeat case_decide; simplify_eq; lia.
Qed.

Lemma acc_fdclear ex s fd f r s' : accounted ex s -> has_fd s fd (Some f) -> fdclear fd s = Ret r s' ->
  has_fd s' fd None /\ (alive s -> alive s') /\ k_self s' = k_self s /\ accounted (bump f 1 ex) s'.
Proof.
  intros HA Hh E. unfold fdclear, modself, modp, bind, get, modify in E. injection E as _ <-. destruct (acc_setfd ex s fd (Some f) None HA (or_intror eq_refl) Hh) as (K1 & K2 & K3). split_and!; auto.
  eapply accounted_ext; [|exact K3]. intros h. unfold bump. repeat case_decide; simplify_eq; lia.
Qed.

Lemma argfd_inv n s fd f s' : argfd n s = Ret (Some (fd, f)) s' -> quiet s s' /\ has_fd s' fd (Some f).
Proof.
  intros E. split; [by eapply silent_argfd|]. apply bind_inv in E as ([v|] & t & _ & E); [|done].
  apply bind_inv in E as (p & t1 & [-> Hp]%self_inv & E). destruct (_ || _); [done|]. destruct (p_ofile p !! Z.to_nat v) as [[g|]|] eqn:Hv; try done. injection E as <- <- <-. by exists p.
Qed.
End ops.

#[export] Hint Resolve silent_getp silent_getf silent_self silent_ubyte silent_ustore silent_ubytes silent_ustores
  silent_fetchint silent_fetchstr_loop silent_fetchstr silent_argint silent_argptr silent_argstr silent_argfd
  silent_pipeclose silent_wake_all silent_file_piperead silent_file_pipewrite silent_filestat silent_fileread
  silent_filewrite_loop silent_filewrite silent_cwd_of silent_knamei silent_knameiparent silent_fail_op
  silent_isdirempty silent_create silent_open_inode silent_make_dir silent_link silent_unlink silent_mknod
  silent_chdir silent_updatecount silent_getcount silent_read silent_write silent_fstat silent_switchuvm
  silent_loaduvm_loop silent_exec_load silent_push_args silent_exec_start silent_exec silent_fetch_argv
  silent_sys_exec silent_growproc silent_sbrk silent_kill silent_sys_kill silent_sleep silent_sys_sleep silent_getpid
  silent_uptime silent_set_eax : silent.
