(* ===== verification/FileTheorems.v ===== *)
(** * Theorems on open files

    Every entry into the kernel from a process, [trap] with [syscall] and all
    its handlers, and every pass of the scheduler keep the reference counts of
    the file table exact. *)

From S2P Require Import Prelude CString Bio Layout Blocks Fs Memory Kalloc Vm Pipe Kern File Sysarg Sysfile Exec Proc Syscall ProcTable ProcRefine SysargTheorems FileRefs.

Section keep.
Context {S : Type} `{BlockLayer S} `{DevSw S}.
Context (kend kdata : Z).
Implicit Types s : kern S.

(** Started between system calls by a process that is alive, [m] ends so. *)
Definition keeps {A} (m : M (kern S) A) : Prop := forall s r s', files_ok s -> alive s -> m s = Ret r s' -> files_ok s' /\ alive s'.

Lemma silent_keeps {A} (m : M (kern S) A) : silent m -> keeps m.
Proof. intros Hm s r s' HA HL E. apply Hm in E. split; [by eapply accounted_quiet | by eapply quiet_alive]. Qed.
Lemma keeps_val {A} (g : A -> Z) (m : M (kern S) A) : keeps m -> keeps (val g m).
Proof. intros Hm s r s' HA HL (a & t & E1 & E2)%bind_inv. injection E2 as _ <-. by eapply Hm. Qed.

(** Equal sums of bumps. *)
Local Ltac bumps := intros ?; unfold bump; repeat case_decide; simplify_eq; lia.

Lemma alive_self s s' : k_self s' = k_self s -> k_procs s' = k_procs s -> alive s -> alive s'.
Proof. unfold alive. by intros -> ->. Qed.
Lemma alive_same s s' : k_self s' = k_self s -> same_fds (k_procs s) (k_procs s') -> alive s -> alive s'.
Proof. intros E Q (p & Hp & Hd). destruct (Forall2_lookup_l _ _ _ _ _ Q Hp) as (q & Hq & _ & Hdd). exists q. rewrite E. auto. Qed.

Lemma keeps_dup : keeps sys_dup.
Proof.
  intros s r s' HA HL E. unfold sys_dup in E. apply bind_inv in E as ([[fd f]|] & t & E1 & E).
  2: { injection E as _ <-. by apply (silent_keeps _ (silent_argfd 0) _ _ _ HA HL E1). }
  destruct (argfd_inv _ _ _ _ _ E1) as [HQ _]. pose proof (accounted_quiet _ _ _ HA HQ) as HA1. pose proof (quiet_alive _ _ HQ HL) as HL1.
  apply bind_inv in E as (v & t1 & E2 & E). destruct (acc_fdalloc _ _ _ _ _ HA1 HL1 E2) as [[-> ->]|(n & -> & _ & _ & HL2 & _ & HA2)].
  { injection E as _ <-. done. }
  destruct (Z.ltb_spec (Z.of_nat n) 0); [lia|]. apply bind_inv in E as (g & t2 & E3 & E). injection E as _ <-.
  destruct (acc_filedup _ _ _ _ _ HA2 E3) as (_ & P1 & P2 & HA3). split; [|by eapply alive_self].
  eapply accounted_ext; [|exact HA3]. bumps.
Qed.

Lemma keeps_close : keeps (sys_close kend).
Proof.
  intros s r s' HA HL E. unfold sys_close in E. apply bind_inv in E as ([[fd f]|] & t & E1 & E).
  2: { injection E as _ <-. by apply (silent_keeps _ (silent_argfd 0) _ _ _ HA HL E1). }
  destruct (argfd_inv _ _ _ _ _ E1) as [HQ Hfd]. pose proof (accounted_quiet _ _ _ HA HQ) as HA1. pose proof (quiet_alive _ _ HQ HL) as HL1.
  apply bind_inv in E as (u & t1 & E2 & E). destruct (acc_fdclear _ _ _ _ _ _ HA1 Hfd E2) as (_ & HL2 & _ & HA2).
  apply bind_inv in E as (u' & t2 & E3 & E). injection E as _ <-. destruct (acc_fileclose _ _ _ _ _ _ HA2 E3) as (P1 & P2 & HA3).
  split; [|by eapply alive_same; eauto]. eapply accounted_ext; [|exact HA3]. bumps.
Qed.

(** [fileclose] twice, as on the error paths of [pipealloc] and [sys_pipe]. *)
Lemma acc_close2 ex s f g {A} (a : A) r s' : accounted ex s -> (fileclose kend f ;;; fileclose kend g ;;; ret a) s = Ret r s' ->
  r = a /\ k_self s' = k_self s /\ same_fds (k_procs s) (k_procs s') /\ accounted (bump g (-1) (bump f (-1) ex)) s'.
Proof.
  intros HA (u & t & E1 & (u' & t' & E2 & E)%bind_inv)%bind_inv. injection E as <- <-.
  destruct (acc_fileclose _ _ _ _ _ _ HA E1) as (P1 & P2 & HA1). destruct (acc_fileclose _ _ _ _ _ _ HA1 E2) as (P3 & P4 & HA2).
  split_and!; [done | congruence | by eapply same_fds_trans | done].
Qed.

Lemma acc_pipealloc ex s r s' : accounted ex s -> pipealloc kend s = Ret r s' ->
  k_self s' = k_self s /\ same_fds (k_procs s) (k_procs s') /\
  accounted (match r with Some (f, g) => bump g 1 (bump f 1 ex) | None => ex end) s'.
Proof.
  intros HA E. unfold pipealloc in E. apply bind_inv in E as ([f|] & t1 & E1 & E); destruct (acc_filealloc _ _ _ _ HA E1) as (P1 & P2 & HA1).
  2: { injection E as <- <-. subst t1. split_and!; [done | apply same_fds_refl | done]. }
  apply bind_inv in E as ([g|] & t2 & E2 & E); destruct (acc_filealloc _ _ _ _ HA1 E2) as (P3 & P4 & HA2).
  2: { subst t2. apply bind_inv in E as (u & t2 & E3 & E). injection E as <- <-. destruct (acc_fileclose _ _ _ _ _ _ HA1 E3) as (P5 & P6 & HA3).
       split_and!; [congruence | by rewrite <- P1 | eapply accounted_ext; [|exact HA3]; bumps]. }
  apply bind_inv in E as (p & t3 & E3 & E). apply silent_onkm in E3 as HQ3. pose proof (accounted_quiet _ _ _ HA2 HQ3) as HA3.
  assert (k_self t3 = k_self s /\ same_fds (k_procs s) (k_procs t3)) as [K1 K2] by (split; [rewrite (qt_self _ _ HQ3); congruence | rewrite <- P1, <- P3; apply HQ3]).
  destruct (p =? 0).
  - destruct (acc_close2 _ _ _ _ _ _ _ HA3 E) as (-> & P5 & P6 & HA4). split_and!; [congruence | by eapply same_fds_trans | eapply accounted_ext; [|exact HA4]; bumps].
  - assert (r = Some (f, g) /\ quiet t3 s') as [-> HQ4].
    { apply bind_inv in E as (w & t4 & E4 & E). injection E4 as <- <-. split.
      - by repeat (apply bind_inv in E as (? & ? & _ & E)); injection E.
      - revert E. match goal with |- ?m t3 = _ -> _ => assert (silent m) as Hs by (unfold pipe_put; silent_auto) end. apply Hs. }
    split_and!; [rewrite (qt_self _ _ HQ4); done | eapply same_fds_trans; [exact K2 | apply HQ4] | by eapply accounted_quiet].
Qed.

Lemma keeps_pipe : keeps (sys_pipe kend).
Proof.
  intros s r s' HA HL E. unfold sys_pipe in E. apply bind_inv in E as (o & t & E1 & E). destruct (silent_keeps _ (silent_argptr 0 8) _ _ _ HA HL E1) as [HA1 HL1]. clear E1.
  destruct o as [a|]; [|by injection E as _ <-].
  apply bind_inv in E as (o & t1 & E1 & E). destruct (acc_pipealloc _ _ _ _ HA1 E1) as (P1 & P2 & HA2). pose proof (alive_same _ _ P1 P2 HL1) as HL2. clear E1.
  destruct o as [[f g]|]; [|by injection E as _ <-].
  apply bind_inv in E as (v & t2 & E2 & E). destruct (acc_fdalloc _ _ _ _ _ HA2 HL2 E2) as [[-> ->]|(n & -> & _ & Hfd & HL3 & S3 & HA3)].
  { destruct (acc_close2 _ _ _ _ _ _ _ HA2 E) as (_ & P3 & P4 & HA3). split; [eapply accounted_ext; [|exact HA3]; bumps | by eapply alive_same]. }
  destruct (Z.ltb_spec (Z.of_nat n) 0); [lia|].
  apply bind_inv in E as (w & t3 & E3 & E). destruct (acc_fdalloc _ _ _ _ _ HA3 HL3 E3) as [[-> ->]|(m & -> & _ & _ & HL4 & S4 & HA4)].
  - cbn [Z.ltb Z.compare] in E. rewrite Nat2Z.id in E. apply bind_inv in E as (u & t4 & E4 & E). destruct (acc_fdclear _ _ _ _ _ _ HA3 Hfd E4) as (_ & HL4 & _ & HA4).
    destruct (acc_close2 _ _ _ _ _ _ _ HA4 E) as (_ & P3 & P4 & HA5). split; [eapply accounted_ext; [|exact HA5]; bumps | by eapply alive_same; eauto].
  - destruct (Z.ltb_spec (Z.of_nat m) 0); [lia|]. assert (accounted (fun _ => 0) t3) as HA5 by (eapply accounted_ext; [|exact HA4]; bumps).
    revert E. match goal with |- ?k t3 = _ -> _ => assert (silent k) as Hs by silent_auto end. intros E. by apply (silent_keeps _ Hs t3 r).
Qed.

Lemma keeps_open : keeps (sys_open kend).
Proof.
  intros s r s' HA HL E. unfold sys_open in E.
  apply bind_inv in E as (o & t & E1 & E). destruct (silent_keeps _ (silent_argstr 0) _ _ _ HA HL E1) as [HA1 HL1]. clear E1. destruct o as [path|]; [|by injection E as _ <-].
  apply bind_inv in E as (o & t1 & E1 & E). destruct (silent_keeps _ (silent_argint 1) _ _ _ HA1 HL1 E1) as [HA2 HL2]. clear E1. destruct o as [om|]; [|by injection E as _ <-].
  apply bind_inv in E as (u & t2 & E1 & E). destruct (silent_keeps _ (silent_onfs _) _ _ _ HA2 HL2 E1) as [HA3 HL3]. clear E1.
  apply bind_inv in E as (o & t3 & E1 & E). destruct (silent_keeps _ (silent_open_inode _ _) _ _ _ HA3 HL3 E1) as [HA4 HL4]. clear E1. destruct o as [ip|]; [|by injection E as _ <-].
  apply bind_inv in E as (o & t4 & E1 & E). destruct (acc_filealloc _ _ _ _ HA4 E1) as (P1 & P2 & HA5). pose proof (alive_self _ _ P2 P1 HL4) as HL5. clear E1.
  destruct o as [f|].
  2: { subst t4. revert E. match goal with |- ?k t3 = _ -> _ => assert (silent k) as Hs by silent_auto end. intros E. by apply (silent_keeps _ Hs t3 r). }
  apply bind_inv in E as (v & t5 & E1 & E). destruct (acc_fdalloc _ _ _ _ _ HA5 HL5 E1) as [[-> ->]|(n & -> & _ & Hfd & HL6 & S6 & HA6)].
  - cbn [Z.ltb Z.compare] in E. apply bind_inv in E as (u' & t6 & E2 & E). destruct (acc_fileclose _ _ _ _ _ _ HA5 E2) as (P3 & P4 & HA6).
    assert (files_ok t6) as HA7 by (eapply accounted_ext; [|exact HA6]; bumps). pose proof (alive_same _ _ P3 P4 HL5) as HL6.
    revert E. match goal with |- ?k t6 = _ -> _ => assert (silent k) as Hs by silent_auto end. intros E. by apply (silent_keeps _ Hs t6 r).
  - destruct (Z.ltb_spec (Z.of_nat n) 0); [lia|]. assert (files_ok t5) as HA7 by (eapply accounted_ext; [|exact HA6]; bumps).
    revert E. match goal with |- ?k t5 = _ -> _ => assert (silent k) as Hs by silent_auto end. intros E. by apply (silent_keeps _ Hs t5 r).
Qed.

(** The entry of a child: its descriptors from [i] on are still empty. *)
Definition blank_from s (np i : nat) : Prop := exists c, k_procs s !! np = Some c /\ ~ dead c /\ forall j, (i <= j < Z.to_nat NOFILE)%nat -> p_ofile c !! j = Some None.

Lemma acc_dup_files l i np ex s r s' : accounted ex s -> (i + length l <= Z.to_nat NOFILE)%nat -> blank_from s np i -> dup_files l i np s = Ret r s' ->
  accounted ex s' /\ k_self s' = k_self s /\ (forall k p, k <> np -> k_procs s !! k = Some p -> k_procs s' !! k = Some p) /\ exists c, k_procs s' !! np = Some c /\ ~ dead c.
Proof.
  revert i s. induction l as [|[f|] l IH]; intros i s HA Hi (c & Hc & Hcd & Hb) E; cbn [dup_files length] in *.
  - injection E as _ <-. eauto 10.
  - apply bind_inv in E as (g & t & E1 & E). destruct (acc_filedup _ _ _ _ _ HA E1) as (-> & P1 & P2 & HA1). clear E1.
    apply bind_inv in E as ([] & t1 & E1 & E). unfold modp, modify in E1. injection E1 as <-. set (up := fun p => with_ofile (<[i := Some f]> (p_ofile p)) p) in E. rewrite <- P1 in Hc.
    assert (p_ofile c !! i = Some None) as Hn by (apply Hb; lia).
    assert (accounted ex (set_procs (alter up np (k_procs t)) t)) as HA2.
    { eapply accounted_ext; [|apply (accounted_alter _ t np c up HA1 Hc)]; cbn [up p_ofile with_ofile].
      - intros h. rewrite (held_insert h _ _ None) by done. unfold bump. repeat case_decide; simplify_eq; lia.
      - rewrite length_insert. by apply (ac_len _ _ HA1 _ _ Hc).
      - intros Hd. by destruct Hcd. }
    assert (blank_from (set_procs (alter up np (k_procs t)) t) np (Datatypes.S i)) as HB2.
    { exists (up c). cbn [set_procs k_procs]. rewrite list_lookup_alter_eq, Hc. split_and!; [done | done |]. intros j Hj. cbn. rewrite list_lookup_insert_ne by lia. apply Hb. lia. }
    destruct (IH (Datatypes.S i) _ HA2 ltac:(lia) HB2 E) as (K1 & K2 & K3 & K4).
    split_and!; [done | cbn in K2; congruence | | done]. intros k p Hne Hk. apply K3; [done|]. cbn [set_procs k_procs]. rewrite list_lookup_alter_ne by done. by rewrite P1.
  - apply (IH (Datatypes.S i)); try done; [lia|]. exists c. split_and!; try done. intros j Hj. apply Hb. lia.
Qed.

(** An entry changes that is not the current one, and its descriptors do not. *)
Lemma modp_other s k g r s' ex : accounted ex s -> k <> k_self s -> modp k g s = Ret r s' ->
  (forall p, p_ofile (g p) = p_ofile p) -> (forall p, k_procs s !! k = Some p -> dead (g p) -> Forall (eq None) (p_ofile p)) ->
  accounted ex s' /\ k_self s' = k_self s /\ k_procs s' = alter g k (k_procs s) /\ (alive s -> alive s').
Proof.
  intros HA Hk E Hg Hd. unfold modp, modify in E. injection E as _ <-. split_and!; try done.
  - destruct (k_procs s !! k) as [p|] eqn:Hp.
    + eapply accounted_ext; [|apply (accounted_alter ex s k p g HA Hp)]; rewrite ?Hg; [intros f; lia | by apply (ac_len _ _ HA _ _ Hp) | by apply Hd].
    + assert (alter g k (k_procs s) = k_procs s) as ->; [|destruct HA; by split].
      apply list_eq. intros i. destruct (decide (i = k)) as [->|]; [by rewrite list_lookup_alter_eq, Hp | by rewrite list_lookup_alter_ne].
  - intros (p & Hp & Hnd). exists p. cbn. by rewrite list_lookup_alter_ne.
Qed.

(** [allocproc] takes an entry that is not in use. *)
Lemma acc_allocproc s r s' : files_ok s -> alive s -> allocproc s = Ret r s' ->
  files_ok s' /\ alive s' /\ k_self s' = k_self s /\ match r with Some np => np <> k_self s /\ blank_from s' np 0 | None => True end.
Proof.
  intros HA HL E. unfold allocproc in E. apply bind_inv in E as (x & t & E1 & E). injection E1 as <- <-. destruct (unused_scan (k_procs s) 0) as [k|] eqn:Hu; [|injection E as <- <-; done].
  apply unused_scan_Some in Hu as (_ & u & Hk & Hus). rewrite Nat.sub_0_r in Hk. assert (k <> k_self s) as Hne by (destruct HL as (p & Hp & Hd); intros ->; rewrite Hk in Hp; injection Hp as <-; apply Hd; by left).
  pose proof (ac_dead _ _ HA _ _ Hk (or_introl Hus)) as Hnone.
  apply bind_inv in E as (v & t1 & E1 & E). destruct (modp_other s k _ _ _ _ HA Hne E1) as (HA1 & S1 & P1 & HL1); [done | by intros p _ [?|?] |]. clear E1.
  apply bind_inv in E as (v2 & t2 & E1 & E). injection E1 as _ <-. apply bind_inv in E as (ks & t3 & E1 & E). apply onkm_inv in E1 as (km & ->).
  set (t3 := set_kmem km _) in E. assert (files_ok t3) as HA3 by (destruct HA1; by split). assert (alive t3) as HL3 by (by apply HL1).
  apply bind_inv in E as (v4 & t4 & E1 & E). assert (k <> k_self t3) as Hne3 by (by rewrite <- S1 in Hne). assert (k_procs t3 !! k = Some (with_pid (k_nextpid s) (with_state EMBRYO u))) as Hk3 by (cbn; rewrite P1, list_lookup_alter_eq, Hk; done).
  destruct (modp_other t3 k _ _ _ _ HA3 Hne3 E1) as (HA4 & S4 & P4 & HL4); [done | intros p Hp; rewrite Hk3 in Hp; injection Hp as <-; by intros [?|?] |]. clear E1.
  assert (k_procs t4 !! k = Some (with_kstack ks (with_pid (k_nextpid s) (with_state EMBRYO u)))) as Hk4 by (rewrite P4, list_lookup_alter_eq, Hk3; done).
  destruct (ks =? 0).
  - apply bind_inv in E as (v5 & t5 & E1 & E). injection E as <- <-. assert (k <> k_self t4) as Hne4 by congruence.
    destruct (modp_other t4 k _ _ _ _ HA4 Hne4 E1) as (HA5 & S5 & _ & HL5); [done | intros p Hp _; rewrite Hk4 in Hp; injection Hp as <-; exact Hnone |]. split_and!; auto. cbn in S4. congruence.
  - injection E as <- <-. split_and!; auto; [cbn in S4; congruence|]. eexists. split_and!; [exact Hk4 | by intros [?|?] |]. intros j Hj. cbn [p_ofile with_kstack with_pid with_state].
    destruct (lookup_lt_is_Some_2 (p_ofile u) j) as [o Ho]; [rewrite (ac_len _ _ HA _ _ Hk); lia|]. rewrite Ho. by rewrite (Forall_lookup_1 _ _ _ _ Hnone Ho).
Qed.

(** Steps that leave all descriptors alone keep the child's entry empty. *)
Lemma blank_quiet s s' np i : quiet s s' -> blank_from s np i -> blank_from s' np i.
Proof. intros [_ Q _] (c & Hc & Hd & Hb). destruct (Forall2_lookup_l _ _ _ _ _ Q Hc) as (q & Hq & E & Hdd). exists q. split_and!; [done | auto | by rewrite E]. Qed.

Lemma keeps_fork : keeps (sys_fork kend kdata).
Proof.
  intros s r s' HA HL E. unfold sys_fork, fork in E. apply bind_inv in E as (o & t & E1 & E). destruct (acc_allocproc _ _ _ HA HL E1) as (HA1 & HL1 & S1 & HB). clear E1.
  destruct o as [np|]; [|injection E as _ <-; done]. destruct HB as [Hne HB].
  apply bind_inv in E as (me & t1 & [-> Hme]%self_inv & E). apply bind_inv in E as (t0 & t1 & E1 & E). injection E1 as <- <-.
  apply bind_inv in E as (d & t1 & E1 & E). apply silent_onkm in E1 as Q1. clear E1.
  apply bind_inv in E as (u & t2 & E1 & E). assert (quiet t1 t2) as Q2 by (revert E1; apply silent_modp; by intros ?). clear E1. pose proof (quiet_trans _ _ _ Q1 Q2) as Q.
  pose proof (accounted_quiet _ _ _ HA1 Q) as HA2. pose proof (quiet_alive _ _ Q HL1) as HL2. pose proof (blank_quiet _ _ _ _ Q HB) as HB2. pose proof (qt_self _ _ Q) as S2. clear Q1 Q2.
  destruct (d =? 0).
  - apply bind_inv in E as (c & t3 & [-> Hc]%getp_inv & E). apply bind_inv in E as (u1 & t3 & E1 & E). apply silent_onkm in E1 as Q3.
    pose proof (accounted_quiet _ _ _ HA2 Q3) as HA3. pose proof (quiet_alive _ _ Q3 HL2) as HL3. destruct (blank_quiet _ _ _ _ Q3 HB2) as (c3 & Hc3 & Hd3 & Hb3).
    apply bind_inv in E as (u2 & t4 & E2 & E). injection E as _ <-. assert (np <> k_self t3) as Hne3 by (rewrite (qt_self _ _ Q3); congruence).
    destruct (modp_other t3 np _ _ _ _ HA3 Hne3 E2) as (K1 & _ & _ & K2); [done | | by auto].
    intros p Hp _. rewrite Hc3 in Hp. injection Hp as <-. apply Forall_lookup_2. intros j o Ho. pose proof (lookup_lt_Some _ _ _ Ho). rewrite Hb3 in Ho; [by injection Ho | rewrite <- (ac_len _ _ HA3 _ _ Hc3); lia].
  - apply bind_inv in E as (u1 & t3 & E1 & E). assert (quiet t2 t3) as Q3 by (revert E1; apply silent_modp; by intros ?). clear E1.
    apply bind_inv in E as (u2 & t4 & E1 & E). assert (length (p_ofile me) = Z.to_nat NOFILE) as Hlen by (by apply (ac_len _ _ HA1 _ _ Hme)).
    destruct (acc_dup_files (p_ofile me) 0 np _ _ _ _ (accounted_quiet _ _ _ HA2 Q3) ltac:(rewrite Hlen; lia) (blank_quiet _ _ _ _ Q3 HB2) E1) as (HA4 & S4 & P4 & c & Hc & Hcd). clear E1.
    assert (alive t4) as HL4. { destruct (quiet_alive _ _ Q3 HL2) as (p & Hp & Hpd). exists p. split; [|done]. rewrite S4. apply P4; [rewrite (qt_self _ _ Q3); congruence | done]. }
    assert (blank_from t4 np (Z.to_nat NOFILE)) as HB4 by (exists c; split_and!; [done | done | lia]).
    apply bind_inv in E as (cw & t5 & E1 & E). apply silent_cwd_of in E1 as Q5. apply bind_inv in E as (cw' & t6 & E2 & E). apply silent_onfs in E2 as Q6.
    apply bind_inv in E as (u3 & t7 & E3 & E). assert (quiet t6 t7) as Q7 by (revert E3; apply silent_modp; by intros ?).
    apply bind_inv in E as (u4 & t8 & E4 & E). assert (quiet t7 t8) as Q8 by (revert E4; apply silent_modp; by intros ?). apply bind_inv in E as (c9 & t9 & [-> _]%getp_inv & E).
    assert (quiet t4 t8) as Q48 by eauto 6 using quiet_trans. pose proof (accounted_quiet _ _ _ HA4 Q48) as HA8. pose proof (quiet_alive _ _ Q48 HL4) as HL8.
    apply bind_inv in E as (u5 & t9 & E5 & E). injection E as _ <-. assert (np <> k_self t8) as Hne8 by (rewrite (qt_self _ _ Q48), S4, (qt_self _ _ Q3); congruence).
    destruct (modp_other t8 np _ _ _ _ HA8 Hne8 E5) as (K1 & _ & _ & K2); [done | by intros p _ [?|?] | by auto].
Qed.

(** [close_files] from descriptor [fd] on, with those before it closed. *)
Definition closed_below s (fd : nat) : Prop := exists p, k_procs s !! k_self s = Some p /\ forall j, (j < fd)%nat -> p_ofile p !! j = Some None.

Lemma acc_close_files n fd s r s' : files_ok s -> (fd + n <= Z.to_nat NOFILE)%nat -> closed_below s fd -> close_files kend n fd s = Ret r s' ->
  files_ok s' /\ closed_below s' (fd + n).
Proof.
  revert fd s. induction n as [|n IH]; intros fd s HA Hfd HC E; cbn [close_files] in E.
  { injection E as _ <-. by rewrite Nat.add_0_r. }
  destruct HC as (p0 & Hp0 & Hcl). apply bind_inv in E as (p & t & [-> Hp]%self_inv & E). rewrite Hp in Hp0. injection Hp0 as <-. replace (fd + Datatypes.S n)%nat with (Datatypes.S fd + n)%nat by lia.
  pose proof (ac_len _ _ HA _ _ Hp) as Hlen. destruct (lookup_lt_is_Some_2 (p_ofile p) fd) as [o Ho]; [lia|]. rewrite Ho in E. destruct o as [f|].
  - apply bind_inv in E as (u & t1 & E1 & E). destruct (acc_fileclose _ _ _ _ _ _ HA E1) as (S1 & P1 & HA1). clear E1.
    assert (has_fd t1 fd (Some f)) as Hh by (apply (has_fd_quiet s); [done | done | by exists p]).
    apply bind_inv in E as (u' & t2 & E2 & E). destruct (acc_fdclear _ _ _ _ _ _ HA1 Hh E2) as (_ & _ & S2 & HA2). eapply (IH (Datatypes.S fd)); [|lia | |exact E].
    + eapply accounted_ext; [|exact HA2]. bumps.
    + unfold fdclear, modself, modp, bind, get, modify in E2. injection E2 as _ <-. destruct (Forall2_lookup_l _ _ _ _ _ P1 Hp) as (q & Hq & Eq & _). rewrite <- S1 in Hq.
      eexists. cbn [set_procs k_procs k_self]. rewrite list_lookup_alter_eq, Hq. split; [done|]. intros j Hj. cbn. destruct (decide (j = fd)) as [->|].
      * apply list_lookup_insert_eq. rewrite Eq. lia.
      * rewrite list_lookup_insert_ne by done. rewrite Eq. apply Hcl. lia.
  - eapply (IH (Datatypes.S fd)); [done | lia | |exact E]. exists p. split; [done|]. intros j Hj. destruct (decide (j = fd)) as [->|]; [done | apply Hcl; lia].
Qed.

Lemma close_files_self n fd s r s' : close_files kend (Datatypes.S n) fd s = Ret r s' -> exists p, k_procs s !! k_self s = Some p.
Proof. cbn [close_files]. intros (p & t & [_ Hp]%self_inv & _)%bind_inv. by exists p. Qed.

Lemma reparent_same n i me init l : same_fds l (reparent n i me init l).
Proof.
  revert i l. induction n as [|n IH]; intros i l; cbn [reparent]; [apply same_fds_refl|]. destruct (l !! i) as [p|]; [|apply same_fds_refl].
  case_bool_decide; [|apply IH]. eapply same_fds_trans; [|apply IH]. eapply same_fds_trans; [by apply (same_fds_alter (with_parent init) i)|]. case_bool_decide; [|apply same_fds_refl].
  apply wakeup1_same.
Qed.

Lemma acc_exit s r s' : files_ok s -> exit kend s = Ret r s' -> files_ok s'.
Proof.
  intros HA E. unfold exit in E. apply bind_inv in E as (x & t & E1 & E). injection E1 as <- <-. case_bool_decide; [done|].
  apply bind_inv in E as (u & t1 & E1 & E). destruct (close_files_self 15 0 s u t1 E1) as [p Hp].
  destruct (acc_close_files (Z.to_nat NOFILE) 0 s u t1 HA ltac:(lia)) as [HA1 HC1]; [exists p; split; [done | lia] | exact E1|]. clear E1.
  apply bind_inv in E as (u2 & t2 & E2 & E). apply silent_onfs in E2 as Q2. apply bind_inv in E as (c & t3 & E3 & E). apply silent_cwd_of in E3 as Q3.
  apply bind_inv in E as (u4 & t4 & E4 & E). apply silent_onfs in E4 as Q4. apply bind_inv in E as (u5 & t5 & E5 & E). apply silent_onfs in E5 as Q5.
  apply bind_inv in E as (u6 & t6 & E6 & E). assert (quiet t5 t6) as Q6 by (revert E6; apply silent_modself; by intros ?).
  assert (quiet t1 t6) as Q by eauto 8 using quiet_trans. pose proof (accounted_quiet _ _ _ HA1 Q) as HA6. destruct HC1 as (p1 & Hp1 & Hc1).
  destruct (Forall2_lookup_l _ _ _ _ _ (qt_procs _ _ Q) Hp1) as (p6 & Hp6 & Eo & _).
  apply bind_inv in E as (me & t7 & [-> Hme]%self_inv & E). unfold bind, modify, ret in E. injection E as _ <-. rewrite (qt_self _ _ Q) in *. unfold exit_table.
  set (l := reparent _ _ _ _ _). assert (same_fds (k_procs t6) l) as HL by (eapply same_fds_trans; [apply wakeup1_same | apply reparent_same]).
  destruct (Forall2_lookup_l _ _ _ _ _ HL Hp6) as (q & Hq & Eq & _).
  assert (accounted (fun _ => 0) (set_procs l t6)) as HA7 by (eapply accounted_quiet; [exact HA6 | by split]).
  assert (Forall (eq None) (p_ofile q)) as Hn.
  { apply Forall_lookup_2. intros j o Hj. pose proof (lookup_lt_Some _ _ _ Hj) as Hlt. rewrite (ac_len _ _ HA7 _ _ Hq) in Hlt. rewrite Eq, Eo, Hc1 in Hj by lia. by injection Hj. }
  eapply accounted_ext; [|apply (accounted_alter _ (set_procs l t6) (k_self t1) q (with_state ZOMBIE) HA7 Hq)]; cbn [p_ofile with_state]; [intros f; lia | by apply (ac_len _ _ HA7 _ _ Hq) | done].
Qed.

Lemma keeps_wait : keeps (sys_wait kend).
Proof.
  intros s r s' HA HL E. unfold sys_wait, wait in E. apply bind_inv in E as (x & t & E1 & E). injection E1 as <- <-. destruct (wait_scan _ _ _ _) as [k|b] eqn:Hsc.
  - pose proof (wait_scan_inl _ _ _ _ _ Hsc) as (_ & c & Hc & _ & Hz). rewrite Nat.sub_0_r in Hc. assert (k <> k_self s) as Hne by (destruct HL as (p & Hp & Hd); intros ->; rewrite Hc in Hp; injection Hp as <-; apply Hd; by right).
    apply bind_inv in E as (c' & t1 & [-> _]%getp_inv & E). apply bind_inv in E as (u1 & t1 & E1 & E). apply onkm_inv in E1 as (k1 & ->).
    apply bind_inv in E as (u2 & t2 & E2 & E). apply onkm_inv in E2 as (k2 & ->). set (t2 := set_kmem k2 _) in E. assert (files_ok t2) as HA2 by (destruct HA; by split).
    apply bind_inv in E as (u3 & t3 & E3 & E). injection E as _ <-. destruct (modp_other t2 k _ _ _ _ HA2 Hne E3) as (K1 & _ & _ & K2); [done | | by auto].
    intros p Hp _. cbn in Hp. rewrite Hc in Hp. injection Hp as <-. apply (ac_dead _ _ HA _ _ Hc). by right.
  - revert E. match goal with |- ?k s = _ -> _ => assert (silent k) as Hs by silent_auto end. intros E. by apply (silent_keeps _ Hs s r).
Qed.

(** A call that may end the process. *)
Definition ends_ok (m : M (kern S) result) : Prop := forall s r s', files_ok s -> alive s -> m s = Ret r s' -> files_ok s' /\ (r <> Asleep -> alive s').
Lemma keeps_ends m : keeps m -> ends_ok m.
Proof. intros Hm s r s' HA HL E. destruct (Hm _ _ _ HA HL E). auto. Qed.
Lemma ends_exit : ends_ok (exit kend).
Proof.
  intros s r s' HA HL E. split; [by eapply acc_exit|]. unfold exit in E. apply bind_inv in E as (x & t & _ & E). case_bool_decide; [done|].
  repeat apply bind_inv in E as (? & ? & _ & E). by injection E as <- _.
Qed.

Lemma syscalls_ok n h : syscalls kend kdata !! n = Some (Some h) -> ends_ok h.
Proof.
  assert (forall m, silent m -> ends_ok (val (fun z : Z => z) m)) as Hq by (intros m Hm; by apply keeps_ends, keeps_val, silent_keeps).
  intros Hn. assert (Forall (fun o => match o with Some h => ends_ok h | None => True end) (syscalls kend kdata)) as HF.
  { unfold syscalls. repeat (apply Forall_cons_2; [first [exact I | apply Hq, silent_read | apply Hq, silent_sys_kill | apply Hq, silent_sys_exec | apply Hq, silent_fstat
      | apply Hq, silent_chdir | apply Hq, silent_getpid | apply Hq, silent_sbrk | apply Hq, silent_uptime | apply Hq, silent_write | apply Hq, silent_mknod
      | apply Hq, silent_unlink | apply Hq, silent_link | apply Hq, silent_make_dir | apply Hq, silent_getcount
      | apply ends_exit | apply keeps_ends, keeps_wait | apply keeps_ends, silent_keeps, silent_sys_sleep
      | apply keeps_ends, keeps_val; first [apply keeps_fork | apply keeps_pipe | apply keeps_dup | apply keeps_open | apply keeps_close]]|]).
    apply Forall_nil_2. }
  exact (Forall_lookup_1 _ _ _ _ HF Hn).
Qed.

Lemma ends_syscall : ends_ok (syscall kend kdata).
Proof.
  intros s r s' HA HL E. unfold syscall in E. apply bind_inv in E as (p & t & [-> Hp]%self_inv & E). apply bind_inv in E as (u & t1 & E1 & E).
  destruct (silent_keeps _ (silent_updatecount _) _ _ _ HA HL E1) as [HA1 HL1]. clear E1.
  assert (forall v w (x : kern S) q y, files_ok x -> alive x -> (set_eax v ;;; ret (Val w)) x = Ret q y -> files_ok y /\ (q <> Asleep -> alive y)) as Hset.
  { intros v w x q y HAx HLx (u' & t' & E1 & E2)%bind_inv. injection E2 as <- <-. destruct (silent_keeps _ (silent_set_eax v) _ _ _ HAx HLx E1). auto. }
  match type of E with (match ?o with _ => _ end) _ = _ => destruct o as [[h|]|] eqn:Hh end; [|by eapply Hset..]. match type of Hh with (if ?c then _ else _) = _ => destruct c end; [|done].
  apply bind_inv in E as (q & t2 & E2 & E). destruct (syscalls_ok _ _ Hh _ _ _ HA1 HL1 E2) as [HA2 HL2]. destruct q as [v|]; [by eapply Hset; eauto|]. injection E as <- <-. done.
Qed.

Lemma ends_killed user : ends_ok (exit_if_killed kend user).
Proof.
  intros s r s' HA HL E. unfold exit_if_killed in E. apply bind_inv in E as (p & t & [-> Hp]%self_inv & E). destruct (p_killed p && user); [by eapply ends_exit|].
  injection E as <- <-. auto.
Qed.

Lemma ends_ok_bind m k : ends_ok m -> (forall v, ends_ok (k v)) ->
  ends_ok (let! r := m in match r with Asleep => ret Asleep | Val v => k v end).
Proof.
  intros Hm Hk s r s' HA HL (q & t & E1 & E2)%bind_inv. destruct (Hm _ _ _ HA HL E1) as [HA1 HL1]. destruct q as [v|]; [by eapply Hk; eauto|]. injection E2 as <- <-. done.
Qed.

Context (ideintr kbdintr uartintr : M (kern S) unit).
Context (Hide : silent ideintr) (Hkbd : silent kbdintr) (Huart : silent uartintr).

Lemma ends_trap trapno cs on_cpu0 running : ends_ok (trap kend kdata ideintr kbdintr uartintr trapno cs on_cpu0 running).
Proof.
  unfold trap. destruct (trapno =? T_SYSCALL); [apply ends_ok_bind; [apply ends_killed | intros _]; apply ends_ok_bind; [apply ends_syscall | intros _; apply ends_killed]|].
  unfold trap_other. intros s r s' HA HL (u & t & E1 & E2)%bind_inv.
  assert (files_ok t /\ alive t) as [HA1 HL1].
  { revert E1. match goal with |- ?m s = _ -> _ => assert (silent m) as Hs end.
    { repeat match goal with |- silent (if ?b then _ else _) => destruct b end;
        first [exact Hide | exact Hkbd | exact Huart | apply silent_ret | apply silent_panic | apply silent_modself; by intros ? | apply silent_when; silent_auto]. }
    intros E1. by apply (silent_keeps _ Hs s u). }
  clear E1. destruct (negb running); [by injection E2 as <- <-|]. revert s' E2 HA1 HL1. generalize t as x. clear t. intros x s' E HAx HLx.
  revert E. apply ends_ok_bind; try done; [apply ends_killed|]. intros _. clear. intros s r s' HA HL (p & t & [-> Hp]%self_inv & E)%bind_inv. destruct (_ && _); [|by eapply ends_killed].
  eapply keeps_ends; [|done | done | exact E]. apply silent_keeps. unfold yield. silent_auto. apply silent_modself. intros q. split; [done|]. unfold dead. cbn. by intros [?|?].
Qed.

(** What happens between entries from user space: a process traps into the
    kernel, a sleeping call goes on, the scheduler switches, the first process
    is made. *)
Inductive kstep : kern S -> kern S -> Prop :=
| ks_trap trapno cs on_cpu0 running s r s' : alive s ->
    trap kend kdata ideintr kbdintr uartintr trapno cs on_cpu0 running s = Ret r s' -> kstep s s'
| ks_wait s r s' : alive s -> (sleep_end ;;; wait kend) s = Ret r s' -> kstep s s'
| ks_sleep ticks0 n s r s' : alive s -> (sleep_end ;;; sleep_round ticks0 n) s = Ret r s' -> kstep s s'
| ks_schedule i s r s' : scheduler i s = Ret r s' -> kstep s s'
| ks_userinit code s r s' : userinit kdata code s = Ret r s' -> kstep s s'.

Lemma sched_ok i s r s' : files_ok s -> scheduler i s = Ret r s' -> files_ok s'.
Proof.
  intros HA E. unfold scheduler in E. apply bind_inv in E as (x & t & E1 & E). injection E1 as <- <-. destruct (next_runnable _ _) as [k|]; [|by injection E as _ <-].
  apply bind_inv in E as (u & t1 & E1 & E). injection E1 as _ <-. assert (files_ok (set_self k s)) as HA1 by (destruct HA; by split). revert E.
  match goal with |- ?m _ = _ -> _ => assert (silent m) as Hs end.
  { apply silent_bind; [apply silent_switchuvm | intros _]. apply silent_bind; [|intros _; apply silent_ret]. apply silent_modp. intros p. split; [done|]. unfold dead. cbn. by intros [?|?]. }
  intros E%Hs. by eapply accounted_quiet.
Qed.

Lemma userinit_ok code s r s' : files_ok s -> userinit kdata code s = Ret r s' -> files_ok s'.
Proof.
  intros HA E. unfold userinit in E. apply bind_inv in E as (o & t & E1 & E).
  assert (forall k, o = Some k -> quiet s t) as Q1.
  { intros k ->. unfold allocproc in E1. apply bind_inv in E1 as (x & t0 & E0 & E1). injection E0 as <- <-. destruct (unused_scan _ _) as [j|]; [|done].
    apply bind_inv in E1 as (u & t1 & E2 & E1). assert (quiet s t1) as Q1 by (revert E2; apply silent_modp; intros p; split; [done | by intros [?|?]]).
    apply bind_inv in E1 as (u2 & t2 & E3 & E1). assert (quiet t1 t2) as Q2 by (revert E3; apply silent_modify; by intros ?).
    apply bind_inv in E1 as (ks & t3 & E4 & E1). apply silent_onkm in E4 as Q3. apply bind_inv in E1 as (u4 & t4 & E5 & E1). assert (quiet t3 t4) as Q4 by (revert E5; apply silent_modp; by intros ?).
    destruct (ks =? 0); [by apply bind_inv in E1 as (? & ? & _ & ?)|]. injection E1 as _ <-. eauto 6 using quiet_trans. }
  apply bind_inv in E as (k & t1 & E2 & E). destruct o as [k'|]; [|done]. injection E2 as <- <-. pose proof (accounted_quiet _ _ _ HA (Q1 _ eq_refl)) as HA1. clear Q1 E1. revert E.
  match goal with |- ?m _ = _ -> _ => assert (silent m) as Hs by silent_auto end. intros E%Hs. by eapply accounted_quiet.
Qed.

Lemma kstep_ok s s' : files_ok s -> kstep s s' -> files_ok s'.
Proof.
  intros HA HS. destruct HS as [tn cs c0 rn s r s' HL E|s r s' HL E|t0 n s r s' HL E|i s r s' E|code s r s' E].
  - by eapply ends_trap.
  - apply bind_inv in E as (u & t & E1 & E). assert (quiet s t) as Q by (revert E1; apply silent_modself; by intros ?).
    eapply keeps_wait; [by eapply accounted_quiet | by eapply quiet_alive | exact E].
  - revert E. match goal with |- ?m _ = _ -> _ => assert (silent m) as Hs end.
    { apply silent_bind; [apply silent_modself; by intros ?|]. intros _. unfold sleep_round. silent_auto. }
    intros E%Hs. by eapply accounted_quiet.
  - by eapply sched_ok.
  - by eapply userinit_ok.
Qed.

(** The state in which [main] starts the first process. *)
Lemma boot_files_ok s : k_files s = replicate (Z.to_nat NFILE) file0 -> k_procs s = replicate (Z.to_nat NPROC) proc0 -> files_ok s.
Proof.
  intros Hf Hp. assert (forall f, fdrefs f (k_procs s) = 0) as Hz.
  { intros f. rewrite Hp. generalize (Z.to_nat NPROC) as n. clear. induction n as [|n IH]; [done|]. cbn [replicate]. rewrite fdrefs_cons, IH, Z.add_0_r. apply held_none. repeat constructor. }
  split; rewrite ?Hf, ?Hp.
  - intros f x Hx. apply lookup_replicate in Hx as [-> _]. rewrite <- Hp, Hz. done.
  - intros f _. rewrite <- Hp, Hz. done.
  - intros k p Hk. by apply lookup_replicate in Hk as [-> _].
  - intros k p Hk _. apply lookup_replicate in Hk as [-> _]. repeat constructor.
Qed.

(** C11: whatever processes do, [f->ref] of every entry of the file table is the
    number of descriptors of all processes that hold the entry, a descriptor
    only ever holds an entry that is in use, and a process that has exited
    holds none: no call, on any of its error paths, loses or forgets a
    reference. *)
Theorem file_refs_exact s0 s : files_ok s0 -> rtc kstep s0 s ->
  (forall f x, k_files s !! f = Some x -> fl_ref x = fdrefs f (k_procs s)) /\
  (forall k p fd f, k_procs s !! k = Some p -> p_ofile p !! fd = Some (Some f) -> ~ dead p /\ exists x, k_files s !! f = Some x /\ 1 <= fl_ref x).
Proof using Hide Hkbd Huart.
  intros HA Hr. assert (files_ok s) as [H1 H2 H3 H4] by (clear - HA Hr Hide Hkbd Huart; induction Hr; eauto using kstep_ok). split.
  - intros f x Hx. rewrite (H1 _ _ Hx). lia.
  - intros k p fd f Hp Hf. split.
    + intros Hd. pose proof (Forall_lookup_1 _ _ _ _ (H4 _ _ Hp Hd) Hf). done.
    + pose proof (fdrefs_lookup _ _ _ _ _ Hp Hf) as Hpos. destruct (k_files s !! f) as [x|] eqn:Hx; [|specialize (H2 _ Hx); lia]. exists x. split; [done|]. rewrite (H1 _ _ Hx). lia.
Qed.
End keep.

(** A process with one open descriptor calls [dup(0)], by number 10. *)
#[local] Instance no_blocks : BlockLayer unit := {|
  bl_bread _ _ := ret O; bl_data _ _ := []; bl_store _ _ := ret tt; bl_log_write _ := ret tt;
  bl_brelse _ := ret tt; bl_begin_op := ret tt; bl_end_op := ret tt |}.
#[local] Instance no_devsw : DevSw unit := {| dev_read _ := None; dev_write _ := None |}.
Definition dup_proc : proc := with_ofile (<[0%nat := Some 0%nat]> (replicate 16 None)) (with_tf (with_eax 10 tf0) one_page_proc).
Definition dup_kern : kern unit :=
  Kern (Fs tt (SuperBlock 0 0 0 0 0 0 0) []) [File FD_INODE 1 true true 0 0 0] ∅ one_page_kmem [dup_proc] 0 None 2 0 [] 0.
Lemma dup_kern_ok : files_ok dup_kern.
Proof.
  split.
  - intros [|f] x Hx; [|done]. injection Hx as <-. reflexivity.
  - intros [|f] Hx; [done|]. vm_compute. reflexivity.
  - intros [|k] p Hp; [|done]. by injection Hp as <-.
  - intros [|k] p Hp; [|done]. injection Hp as <-. by intros [?|?].
Qed.

Lemma file_refs_exact_witness : exists s,
  trap 0 0 (ret tt) (ret tt) (ret tt) 64 35 true true dup_kern = Ret (Val 0) s /\ fdrefs 0 (k_procs s) = 2 /\
  forall f x, k_files s !! f = Some x -> fl_ref x = fdrefs f (k_procs s).
Proof.
  eexists. split; [vm_compute; reflexivity|]. split; [vm_compute; reflexivity|].
  refine (proj1 (file_refs_exact 0 0 (ret tt) (ret tt) (ret tt) (silent_ret tt) (silent_ret tt) (silent_ret tt) dup_kern _ dup_kern_ok _)).
  eapply rtc_l; [|apply rtc_refl]. eapply (ks_trap 0 0 (ret tt) (ret tt) (ret tt) 64 35 true true); [|vm_compute; reflexivity].
  exists dup_proc. split; [reflexivity | by intros [?|?]].
Defined.
