(* ===== verification/Terminate.v ===== *)
(** * Termination of the file-system calls

    The loops of fs.c, file.c and sysfile.c that are not bounded by a constant
    or by a list run with fuel in the model, and running out of it is the
    outcome [Undef] with a message of its own.  Here: from no state at all, with
    whatever inodes, directories and arguments, does a system call on files run
    out of it.  Every round of the loops makes progress.  The outcomes that
    remain besides a result, a panic and sleep are the accesses through a pointer
    or an index that the code does not check. *)

From S2P Require Import Prelude CString Bio Layout Blocks Fs FsPath Memory Kalloc Vm Pipe Kern File Sysarg Sysfile SysargTheorems.

(** The unchecked accesses of the file-system calls: a pointer that leads to no
    entry of [icache], [ftable], [ptable] or to no pipe, [proc->cwd] or the
    parent directory of a path being null, an index past the end of
    [log.lh.block], user memory that is not mapped, and bytes past the end of
    the [addrs] of a small file.  No loop that runs out of fuel is among them. *)
Definition wild_accesses : list string :=
  ["inode"; "file"; "proc"; "pipe"; "proc->cwd"; "null dp"; "log.lh.block"; "page fault"; "read past ip->addrs"; "write past ip->addrs"].
Definition wild (w : string) : bool := bool_decide (w ∈ wild_accesses).

Section ends.
Context {S : Type}.
Definition ends {A} (m : M S A) : Prop := forall s w, m s = Undef w -> wild w = true.

Lemma ends_ret {A} (a : A) : ends (ret a).
Proof. done. Qed.
Lemma ends_bind {A B} (m : M S A) (k : A -> M S B) : ends m -> (forall a, ends (k a)) -> ends (bind m k).
Proof. intros Hm Hk s w. unfold bind. destruct (m s) as [a t| | |] eqn:E; try done; [apply Hk|]. intros [= <-]. by eapply Hm. Qed.
Lemma ends_get : ends get.
Proof. done. Qed.
Lemma ends_gets {A} (f : S -> A) : ends (gets f).
Proof. done. Qed.
Lemma ends_modify f : ends (modify f).
Proof. done. Qed.
Lemma ends_panic {A} msg : ends (panic (A := A) msg).
Proof. done. Qed.
Lemma ends_blocked {A} msg : ends (blocked (A := A) msg).
Proof. done. Qed.
Lemma ends_undef {A} msg : wild msg = true -> ends (undef (A := A) msg).
Proof. intros H s w [= <-]. done. Qed.
Lemma ends_the {A} w (o : option A) : wild w = true -> ends (the w o).
Proof. destruct o; [done | apply ends_undef]. Qed.
Lemma ends_when c m : ends m -> ends (when c m).
Proof. by destruct c. Qed.
Lemma ends_for_ {R} n lo (body : Z -> M S (option R)) : (forall j, ends (body j)) -> ends (for_ n lo body).
Proof. intros Hb. revert lo. induction n as [|n IH]; intros lo; cbn [for_]; [done|]. apply ends_bind; [apply Hb|]. by intros [x|]. Qed.
Lemma ends_for_each n lo (body : Z -> M S unit) : (forall j, ends (body j)) -> ends (for_each n lo body).
Proof. intros Hb. revert lo. induction n as [|n IH]; intros lo; cbn [for_each]; [done|]. apply ends_bind; [apply Hb | by intros _]. Qed.
End ends.

Lemma ends_zoom {S T A} (g : S -> T) p (m : M T A) : ends m -> ends (zoom g p m).
Proof. intros Hm s w. unfold zoom. destruct (m (g s)) eqn:E; try done. intros [= <-]. by eapply Hm. Qed.

(** What the loops rely on: the calls to the block layer and to the devices
    end, in one of the same ways. *)
Class BlockLayerEnds (S : Type) {BL : BlockLayer S} {DS : DevSw S} : Prop := {
  be_bread dev b : ends (bl_bread (S := S) dev b);
  be_store i d : ends (bl_store (S := S) i d);
  be_log_write i : ends (bl_log_write (S := S) i);
  be_brelse i : ends (bl_brelse (S := S) i);
  be_begin_op : ends (bl_begin_op (S := S));
  be_end_op : ends (bl_end_op (S := S));
  be_dev_read n rd ip k : dev_read (S := S) n = Some rd -> ends (rd ip k);
  be_dev_write n wr ip l k : dev_write (S := S) n = Some wr -> ends (wr ip l k)
}.

Create HintDb ends.
#[export] Hint Resolve ends_ret ends_get ends_gets ends_modify ends_panic ends_blocked : ends.
#[export] Hint Constants Opaque : ends.

(** Decomposes a computation into calls that the database knows. *)
Ltac ends_step :=
  match goal with
  | |- ends (bind _ _) => apply ends_bind; [|intros ?]
  | |- ends (when _ _) => apply ends_when
  | |- ends (the _ _) => apply ends_the; reflexivity
  | |- ends (undef _) => apply ends_undef; reflexivity
  | |- ends (for_ _ _ _) => apply ends_for_; intros ?
  | |- ends (for_each _ _ _) => apply ends_for_each; intros ?
  | |- ends (if ?b then _ else _) => destruct b
  | |- ends (match ?x with _ => _ end) => destruct x
  | |- ends (let '(_, _) := ?x in _) => destruct x
  | |- ends _ => solve [eauto with ends nocore]
  end.
Ltac ends_auto := repeat ends_step.

(** ** fs.c *)

Section fs.
Context {S : Type} {BL : BlockLayer S} {DS : DevSw S} {BE : BlockLayerEnds S}.

Lemma ends_fbread dev b : ends (fbread (S := S) dev b).
Proof. apply ends_zoom, be_bread. Qed.
Lemma ends_fdata bp : ends (fdata (S := S) bp).
Proof. done. Qed.
Lemma ends_fstore bp d : ends (fstore (S := S) bp d).
Proof. apply ends_zoom, be_store. Qed.
Lemma ends_flog_write bp : ends (flog_write (S := S) bp).
Proof. apply ends_zoom, be_log_write. Qed.
Lemma ends_fbrelse bp : ends (fbrelse (S := S) bp).
Proof. apply ends_zoom, be_brelse. Qed.
Lemma ends_begin_op : ends (begin_op (S := S)).
Proof. apply ends_zoom, be_begin_op. Qed.
Lemma ends_end_op : ends (end_op (S := S)).
Proof. apply ends_zoom, be_end_op. Qed.
Lemma ends_geti ip : ends (geti (S := S) ip).
Proof. unfold geti. ends_auto. Qed.
Lemma ends_modi ip g : ends (modi (S := S) ip g).
Proof. done. Qed.
Hint Resolve ends_fbread ends_fdata ends_fstore ends_flog_write ends_fbrelse ends_begin_op ends_end_op ends_geti ends_modi : ends.
Lemma ends_bzero dev b : ends (bzero (S := S) dev b).
Proof. unfold bzero. ends_auto. Qed.
Hint Resolve ends_bzero : ends.
Lemma ends_balloc dev : ends (balloc (S := S) dev).
Proof. unfold balloc. ends_auto. Qed.
Lemma ends_bfree dev b : ends (bfree (S := S) dev b).
Proof. unfold bfree, readsb. ends_auto. Qed.
Lemma ends_iget dev n : ends (iget (S := S) dev n).
Proof. unfold iget. ends_auto. Qed.
Hint Resolve ends_balloc ends_bfree ends_iget : ends.
Lemma ends_ialloc dev ty : ends (ialloc (S := S) dev ty).
Proof. unfold ialloc. ends_auto. Qed.
Lemma ends_iupdate ip : ends (iupdate (S := S) ip).
Proof. unfold iupdate. ends_auto. Qed.
Lemma ends_idup ip : ends (idup (S := S) ip).
Proof. unfold idup. ends_auto. Qed.
Lemma ends_ilock o : ends (ilock (S := S) o).
Proof. unfold ilock. ends_auto. Qed.
Lemma ends_iunlock o : ends (iunlock (S := S) o).
Proof. unfold iunlock. ends_auto. Qed.
Lemma ends_bmap ip bn : ends (bmap (S := S) ip bn).
Proof. unfold bmap. ends_auto. Qed.
Hint Resolve ends_ialloc ends_iupdate ends_idup ends_ilock ends_iunlock ends_bmap : ends.
Lemma ends_itrunc ip : ends (itrunc (S := S) ip).
Proof. unfold itrunc. ends_auto. Qed.
Hint Resolve ends_itrunc : ends.
Lemma ends_iput ip : ends (iput (S := S) ip).
Proof. unfold iput. ends_auto. Qed.
Hint Resolve ends_iput : ends.
Lemma ends_iunlockput ip : ends (iunlockput (S := S) ip).
Proof. unfold iunlockput. ends_auto. Qed.
Lemma ends_stati ip : ends (stati (S := S) ip).
Proof. unfold stati. ends_auto. Qed.
Hint Resolve ends_iunlockput ends_stati : ends.

(** A round of [readi] or [writei] moves at least one byte. *)
Lemma io_progress tot off n : 0 <= tot < n -> n < 2 ^ 32 ->
  let m := Z.min (u32 (n - tot)) (BSIZE - off mod BSIZE) in 0 < m /\ u32 (tot + m) = tot + m /\ tot + m <= n.
Proof.
  intros Ht Hn m. unfold BSIZE in m. pose proof (Z.mod_pos_bound off 512 ltac:(lia)). unfold m. rewrite (u32_small (n - tot)) by lia. split_and!; [lia | apply u32_small; lia | lia].
Qed.

Lemma ends_readi_loop fuel ip tot off n dst : 0 <= tot -> n < 2 ^ 32 -> n - tot <= Z.of_nat fuel -> ends (readi_loop (S := S) fuel ip tot off n dst).
Proof.
  revert tot off dst. induction fuel as [|fuel IH]; intros tot off dst Ht Hn Hf; cbn [readi_loop]; (destruct (Z.ltb_spec tot n) as [Hlt|]; [|done]); [lia|].
  destruct (io_progress tot off n ltac:(lia) Hn) as (Hm & E & Hle). ends_auto. rewrite E. apply IH; lia.
Qed.
Lemma ends_writei_loop fuel ip src tot off n : 0 <= tot -> n < 2 ^ 32 -> n - tot <= Z.of_nat fuel -> ends (writei_loop (S := S) fuel ip src tot off n).
Proof.
  revert tot off src. induction fuel as [|fuel IH]; intros tot off src Ht Hn Hf; cbn [writei_loop]; (destruct (Z.ltb_spec tot n) as [Hlt|]; [|done]); [lia|].
  destruct (io_progress tot off n ltac:(lia) Hn) as (Hm & E & Hle). ends_auto. rewrite E. apply IH; lia.
Qed.
Hint Resolve be_dev_read be_dev_write : ends.
Lemma ends_readi ip off n : n < 2 ^ 32 -> ends (readi (S := S) ip off n).
Proof.
  intros Hn. unfold readi. apply ends_bind; [apply ends_geti | intros ino]. destruct (i_type ino =? T_DEV).
  { destruct (_ || _); [done|]. destruct (dev_read (i_major ino)) eqn:E; [by eapply be_dev_read | done]. }
  destruct (_ || _); [done|]. set (n' := if _ <? _ then u32 (i_size ino - off) else n). assert (n' < 2 ^ 32) as Hn' by (unfold n'; destruct (_ <? _); [apply u32_range | done]).
  cbv zeta. ends_auto. destruct (Z.leb_spec 0 n'); [apply ends_readi_loop; lia|]. replace (Z.to_nat n') with 0%nat by lia. cbn [readi_loop]. destruct (Z.ltb_spec 0 n'); [lia | done].
Qed.
Lemma ends_writei ip src off n : n < 2 ^ 32 -> ends (writei (S := S) ip src off n).
Proof.
  intros Hn. unfold writei. apply ends_bind; [apply ends_geti | intros ino]. destruct (i_type ino =? T_DEV).
  { destruct (_ || _); [done|]. destruct (dev_write (i_major ino)) eqn:E; [by eapply be_dev_write | done]. }
  ends_auto. destruct (Z.leb_spec 0 n); [apply ends_writei_loop; lia|]. replace (Z.to_nat n) with 0%nat by lia. cbn [writei_loop]. destruct (Z.ltb_spec 0 n); [lia | done].
Qed.
Lemma dirent_fits : DIRENT_SIZE < 2 ^ 32.
Proof. done. Qed.
Hint Resolve ends_readi ends_writei dirent_fits : ends.
Lemma ends_dirlookup dp nm : ends (dirlookup (S := S) dp nm).
Proof. unfold dirlookup. ends_auto. Qed.
Hint Resolve ends_dirlookup : ends.
Lemma ends_dirlink dp nm n : ends (dirlink (S := S) dp nm n).
Proof. unfold dirlink. ends_auto. Qed.

(** [skipelem] leaves less of the path. *)
Lemma skipelem_shorter path name rest nm : skipelem path name = Some (rest, nm) -> (length rest < length path)%nat.
Proof.
  unfold skipelem. pose proof (skip_slashes_length path) as H1. destruct (skip_slashes path) as [|c l] eqn:E; [done|]. intros [= <- _].
  pose proof (skip_slashes_head _ _ _ E) as Hc. cbn [skip_name]. unfold SLASH in *. destruct (Z.eqb_spec c 47); [done|].
  pose proof (skip_slashes_length (skip_name l)). pose proof (elem_skip l) as El. apply (f_equal length) in El. rewrite length_app in El. cbn in H1. lia.
Qed.
Lemma ends_namex_loop fuel ip path np nm : (length path <= fuel)%nat -> ends (namex_loop (S := S) fuel ip path np nm).
Proof.
  revert ip path nm. induction fuel as [|fuel IH]; intros ip path nm Hl; cbn [namex_loop]; (destruct (skipelem path nm) as [[rest nm']|] eqn:E; [|ends_auto]); apply skipelem_shorter in E; [lia|].
  ends_auto. apply IH. lia.
Qed.
Lemma ends_namex c path np nm : ends (namex (S := S) c path np nm).
Proof. unfold namex. ends_auto. by apply ends_namex_loop. Qed.
Hint Resolve ends_dirlink ends_namex : ends.
Lemma ends_namei c path : ends (namei (S := S) c path).
Proof. unfold namei. ends_auto. Qed.
Lemma ends_nameiparent c path nm : ends (nameiparent (S := S) c path nm).
Proof. apply ends_namex. Qed.
End fs.
#[export] Hint Resolve ends_begin_op ends_end_op ends_geti ends_modi ends_iget ends_ialloc ends_iupdate ends_idup ends_ilock ends_iunlock
  ends_iput ends_iunlockput ends_stati ends_readi ends_writei dirent_fits ends_dirlookup ends_dirlink ends_namei ends_nameiparent : ends.

(** ** file.c and sysfile.c *)

Section kernel.
Context {S : Type} {BL : BlockLayer S} {DS : DevSw S} {BE : BlockLayerEnds S}.
Context (kend : Z).

Lemma ends_onfs {A} (m : M (fs S) A) : ends m -> ends (onfs m).
Proof. apply ends_zoom. Qed.
Lemma ends_onkm {A} (m : M kmem A) : ends m -> ends (onkm (S := S) m).
Proof. apply ends_zoom. Qed.
Hint Resolve ends_onfs ends_onkm : ends.
Lemma ends_kalloc : ends kalloc.
Proof. unfold kalloc. ends_auto. Qed.
Lemma ends_kfree v : ends (kfree kend v).
Proof. unfold kfree. ends_auto. Qed.
Lemma ends_getp k : ends (getp (S := S) k).
Proof. unfold getp. ends_auto. Qed.
Lemma ends_modp k g : ends (modp (S := S) k g).
Proof. done. Qed.
Lemma ends_getf k : ends (getf (S := S) k).
Proof. unfold getf. ends_auto. Qed.
Lemma ends_modf k g : ends (modf (S := S) k g).
Proof. done. Qed.
Lemma ends_wakeup c : ends (wakeup (S := S) c).
Proof. done. Qed.
Hint Resolve ends_kalloc ends_kfree ends_getp ends_modp ends_getf ends_modf ends_wakeup : ends.
Lemma ends_self : ends (self (S := S)).
Proof. unfold self. ends_auto. Qed.
Lemma ends_modself g : ends (modself (S := S) g).
Proof. unfold modself. ends_auto. Qed.
Hint Resolve ends_self ends_modself : ends.
Lemma ends_ubyte a : ends (ubyte (S := S) a).
Proof. unfold ubyte. ends_auto. Qed.
Lemma ends_ustore a b : ends (ustore (S := S) a b).
Proof. unfold ustore. ends_auto. Qed.
Hint Resolve ends_ubyte ends_ustore : ends.
Lemma ends_ubytes a n : ends (ubytes (S := S) a n).
Proof. revert a. induction n as [|n IH]; intros a; cbn [ubytes]; ends_auto. Qed.
Lemma ends_ustores a bs : ends (ustores (S := S) a bs).
Proof. revert a. induction bs as [|b bs IH]; intros a; cbn [ustores]; ends_auto. Qed.
Hint Resolve ends_ubytes ends_ustores : ends.
Lemma ends_fetchint a : ends (fetchint (S := S) a).
Proof. unfold fetchint. ends_auto. Qed.
Lemma ends_fetchstr_loop n a : ends (fetchstr_loop (S := S) n a).
Proof. revert a. induction n as [|n IH]; intros a; cbn [fetchstr_loop]; ends_auto. Qed.
Hint Resolve ends_fetchint ends_fetchstr_loop : ends.
Lemma ends_fetchstr a : ends (fetchstr (S := S) a).
Proof. unfold fetchstr. ends_auto. Qed.
Lemma ends_argint n : ends (argint (S := S) n).
Proof. unfold argint. ends_auto. Qed.
Hint Resolve ends_fetchstr ends_argint : ends.
Lemma ends_argptr n z : ends (argptr (S := S) n z).
Proof. unfold argptr. ends_auto. Qed.
Lemma ends_argstr n : ends (argstr (S := S) n).
Proof. unfold argstr. ends_auto. Qed.
Lemma ends_argfd n : ends (argfd (S := S) n).
Proof. unfold argfd. ends_auto. Qed.
Hint Resolve ends_argptr ends_argstr ends_argfd : ends.

Lemma ends_pipeclose pp w : ends (pipeclose (S := S) kend pp w).
Proof. unfold pipeclose, pipe_at, pipe_put. ends_auto. Qed.
Lemma ends_wake_all pp cs : ends (wake_all (S := S) pp cs).
Proof. induction cs as [|c cs IH]; cbn [wake_all]; ends_auto. Qed.
Hint Resolve ends_pipeclose ends_wake_all : ends.
Lemma ends_fileclose f : ends (fileclose (S := S) kend f).
Proof. unfold fileclose. ends_auto. Qed.
Lemma ends_filealloc : ends (filealloc (S := S)).
Proof. unfold filealloc. ends_auto. Qed.
Lemma ends_filedup f : ends (filedup (S := S) f).
Proof. unfold filedup. ends_auto. Qed.
Hint Resolve ends_fileclose ends_filealloc ends_filedup : ends.
Lemma ends_pipealloc : ends (pipealloc (S := S) kend).
Proof. unfold pipealloc, pipe_put. ends_auto. Qed.
Lemma ends_file_piperead pp n : ends (file_piperead (S := S) pp n).
Proof. unfold file_piperead, pipe_at, pipe_put. ends_auto. Qed.
Lemma ends_file_pipewrite pp a n : ends (file_pipewrite (S := S) pp a n).
Proof. unfold file_pipewrite, pipe_at, pipe_put. ends_auto. Qed.
Lemma ends_filestat f : ends (filestat (S := S) f).
Proof. unfold filestat. ends_auto. Qed.
Lemma u32_fits n : u32 n < 2 ^ 32.
Proof. apply u32_range. Qed.
Hint Resolve ends_pipealloc ends_file_piperead ends_file_pipewrite ends_filestat u32_fits : ends.
Lemma ends_fileread f n : ends (fileread (S := S) f n).
Proof. unfold fileread. ends_auto. Qed.

(** Each round of [filewrite] writes all it asked for, or is the last. *)
Lemma ends_filewrite_loop fuel f ip a i n : Z.max 0 (n - i) < Z.of_nat fuel -> ends (filewrite_loop (S := S) fuel f ip a i n).
Proof.
  revert i. induction fuel as [|fuel IH]; intros i Hf; [lia|]; cbn [filewrite_loop]. destruct (Z.ltb_spec i n) as [Hlt|]; [|done]. cbv zeta.
  assert (0 < WRITE_MAX) as Hw by done. repeat (apply ends_bind; [solve [ends_auto]|]; intros ?). destruct (_ <? 0); [done|].
  destruct (Z.eqb_spec a3 (Z.min (n - i) WRITE_MAX)) as [->|]; [|done]. cbn [negb]. apply IH. lia.
Qed.
Lemma ends_filewrite f a n : ends (filewrite (S := S) f a n).
Proof. unfold filewrite. ends_auto. apply ends_filewrite_loop. lia. Qed.
Hint Resolve ends_fileread ends_filewrite : ends.

Lemma ends_fdalloc f : ends (fdalloc (S := S) f).
Proof. unfold fdalloc. ends_auto. Qed.
Lemma ends_fdclear f : ends (fdclear (S := S) f).
Proof. apply ends_modself. Qed.
Lemma ends_cwd_of : ends (cwd_of (S := S)).
Proof. unfold cwd_of. ends_auto. Qed.
Hint Resolve ends_fdalloc ends_fdclear ends_cwd_of : ends.
Lemma ends_knamei path : ends (knamei (S := S) path).
Proof. unfold knamei. ends_auto. Qed.
Lemma ends_knameiparent path nm : ends (knameiparent (S := S) path nm).
Proof. unfold knameiparent. ends_auto. Qed.
Lemma ends_fail_op : ends (fail_op (S := S)).
Proof. unfold fail_op. ends_auto. Qed.
Hint Resolve ends_knamei ends_knameiparent ends_fail_op : ends.
Lemma ends_isdirempty dp : ends (isdirempty (S := S) dp).
Proof. unfold isdirempty. ends_auto. Qed.
Hint Resolve ends_isdirempty : ends.
Lemma ends_create path ty ma mi : ends (create (S := S) path ty ma mi).
Proof. unfold create. ends_auto. Qed.
Hint Resolve ends_create : ends.
Lemma ends_open_inode path om : ends (open_inode (S := S) path om).
Proof. unfold open_inode. ends_auto. Qed.
Hint Resolve ends_open_inode : ends.

(** The system calls on files. *)
Definition file_calls : list (M (kern S) Z) :=
  [sys_dup; sys_read; sys_write; sys_close kend; sys_fstat; sys_link; sys_unlink; sys_open kend; sys_mkdir; mkSmallFilesdir; sys_mknod; sys_chdir; sys_pipe kend].

(** C36: a system call on files ends, whatever state the kernel is in: it
    returns, panics, sleeps, or makes one of the accesses [wild_accesses] that
    the code does not check.  No loop over the bytes of a file, the elements of a
    path, the entries of a directory or the parts of a long write runs for ever,
    provided that the calls to the block layer and to the devices end. *)
Theorem file_calls_terminate (call : M (kern S) Z) s : call ∈ file_calls ->
  (exists r s', call s = Ret r s') \/ (exists msg, call s = Panic msg) \/ (exists chan, call s = Blocked chan) \/
  (exists w, call s = Undef w /\ w ∈ wild_accesses).
Proof using BE.
  intros Hc. apply list_elem_of_lookup in Hc as (i & Hi). assert (ends call) as Hend.
  2: { specialize (Hend s). destruct (call s) as [r s'|msg|chan|w]; eauto. do 3 right. exists w. split; [done|]. apply (bool_decide_eq_true_1 (w ∈ wild_accesses)). exact (Hend w eq_refl). }
  assert (Forall ends file_calls) as HF; [|exact (Forall_lookup_1 _ _ _ _ HF Hi)]. clear Hi. unfold file_calls, sys_mkdir, mkSmallFilesdir, make_dir.
  repeat apply Forall_cons_2; [unfold sys_dup | unfold sys_read | unfold sys_write | unfold sys_close | unfold sys_fstat, stat_store | unfold sys_link | unfold sys_unlink | unfold sys_open
    | | | unfold sys_mknod | unfold sys_chdir | unfold sys_pipe | apply Forall_nil_2]; ends_auto.
Qed.
End kernel.

(** [read(0, 0, 4)] of a file of ten bytes, on a block layer whose blocks are
    empty. *)
#[local] Instance no_blocks : BlockLayer unit := {|
  bl_bread _ _ := ret O; bl_data _ _ := []; bl_store _ _ := ret tt; bl_log_write _ := ret tt;
  bl_brelse _ := ret tt; bl_begin_op := ret tt; bl_end_op := ret tt |}.
#[local] Instance no_devsw : DevSw unit := {| dev_read _ := None; dev_write _ := None |}.
#[local] Instance no_blocks_end : BlockLayerEnds unit.
Proof. by split. Qed.
Import Kstring.
Definition read_kern : kern unit :=
  Kern (Fs tt (SuperBlock 0 0 0 0 0 0 0) [Inode ROOTDEV 2 1 false I_VALID T_FILE 0 0 1 10 (7 :: replicate 51 0)]) [File FD_INODE 1 true true 0 0 0] ∅
    (Kmem (store32 one_page_mem 0x8010200c 4) true 0 0) [with_ofile (<[0%nat := Some 0%nat]> (replicate 16 None)) one_page_proc] 0 None 2 0 [] 0.
Lemma file_calls_terminate_witness : (exists s', sys_read read_kern = Ret 4 s') /\
  ((exists r s', sys_read read_kern = Ret r s') \/ (exists msg, sys_read read_kern = Panic msg) \/ (exists chan, sys_read read_kern = Blocked chan) \/
   (exists w, sys_read read_kern = Undef w /\ w ∈ wild_accesses)).
Proof.
  split; [eexists; vm_compute; reflexivity|]. apply (file_calls_terminate 0 sys_read read_kern). right. left.
Defined.
