(* ===== verification/MainTheorems.v ===== *)
(** * The kernel comes up

    [main] establishes what the other theorems take for granted of the state
    they start from: the free list, the kernel's page table, the address space
    and the memory of the first process, and the tables. *)

From S2P Require Import Prelude CString Bio Layout Blocks Log LogBlocks Fs Memory Kalloc Mp Vm Pipe Kern Exec Proc Syscall Devices Main.
From S2P Require Import ProcTable ProcRefine VmEntries VmSpace VmAlloc VmCopy FileRefs FileTheorems DevicesTheorems FsExample.
Import Kstring.

Section memory.
Context (kend : Z) (Hend : KERNBASE < kend).

(** ** The first user page *)

Lemma within_size dir dir' : within 0 1 dir dir' -> dir ⊆ dir' -> (length (tabs dir') <= S (length (tabs dir)))%nat.
Proof.
  intros Hw Hsub. unfold tabs. rewrite !length_fmap, !length_map_to_list, <- !(size_dom (D := gset Z)).
  transitivity (size ({[0]} ∪ dom dir : gset Z)).
  - apply subseteq_size. intros i Hi. apply elem_of_dom, Hw in Hi as [Hi|Hi]; [by apply elem_of_union_r, elem_of_dom|].
    change (0 / 1024) with 0 in Hi. change ((0 + 1 - 1) / 1024) with 0 in Hi. assert (i = 0) as -> by lia. set_solver.
  - rewrite size_union_alt, size_singleton. assert (size ((dom dir : gset Z) ∖ {[(0 : Z)]}) <= size (dom dir : gset Z))%nat by (apply subseteq_size; set_solver). lia.
Qed.

(** [inituvm] gives the address space one page: the program, then zeros. *)
Lemma inituvm_spec s l pd dir init Q : uspace kend s l pd dir ∅ -> (3 <= length l)%nat -> Z.of_nat (length init) < PGSIZE ->
  (forall s' l' dir' v, uspace kend s' l' pd dir' {[0 := v]} -> owned pd dir' {[0 := v]} l' ≡ₚ owned pd dir ∅ l ->
     framed (owned pd dir ∅ l) (km_mem s) (km_mem s') ->
     (forall i, 0 <= i < PGSIZE -> km_mem s' (v + i) = nthZ init i) -> Q tt s') ->
  wp (inituvm pd init) Q s.
Proof.
  intros Hu Hl Hlen HQ. unfold inituvm. destruct (Z.leb_spec PGSIZE (Z.of_nat (length init))); [lia|]. wp_steps.
  apply (kalloc_spec kend Hend s l); [apply Hu | intros ->; cbn in Hl; lia |]. intros v l1 -> Hk1. unfold kmemset. wp_steps. cbn [set_freelist km_mem].
  pose proof (ki_pages _ _ _ (us_kinv _ _ _ _ _ _ Hu)) as Hpg. apply Forall_cons in Hpg as [Hv _]. destruct (clear_page kend Hend (km_mem s) v Hv) as [Ho Hz].
  destruct (us_take kend Hend s v l1 pd dir ∅ _ Hu Hk1 Ho) as (Hu1 & _ & Hvo). set (s1 := set_mem _ _) in *.
  change PGSIZE with (u32 (1 * PGSIZE)) at 1. change 0 with (0 * PGSIZE) at 1.
  apply (mappages_within kend Hend s1 l1 pd dir 0 1); [by apply us_aspace with (us := ∅) | done | done | done | apply u32_range | done | |].
  { intros k Hk. apply (us_none _ _ _ _ _ _ Hu1); [lia | apply lookup_empty]. }
  intros r s2 l2 dir2 j Hg Hj Hm Hr Hw. destruct Hr as [[-> ->]|(-> & _ & ->)].
  2: { exfalso. pose proof (within_size _ _ Hw (gr_dir _ _ _ _ _ _ _ _ Hg)) as Hsz. pose proof (Permutation_length (gr_pages _ _ _ _ _ _ _ _ Hg)) as Hp.
       rewrite !length_app in Hp. cbn [length] in *. lia. }
  wp_steps. destruct (us_map kend s1 l1 dir s2 l2 dir2 pd ∅ 0 v (Z.lor PTE_W PTE_U) Hu1 Hv Hvo ltac:(lia) (lookup_empty _) ltac:(done) Hg Hm) as [Hu2 Hown].
  change (<[0 := v]> (∅ : gmap Z Z)) with ({[0 := v]} : gmap Z Z) in *.
  destruct (us_sep kend _ _ _ _ _ Hu2 0 v (lookup_singleton_eq _ _)) as (Hvpd & Hvt & Hvl). destruct (page_ok_bounds kend Hend v Hv) as [B1 B2].
  unfold KERNBASE, PHYSTOP in *. assert (Hst := store_bytes_in (km_mem s2) v init ltac:(lia) ltac:(lia)).
  assert (Hout : outside v (km_mem s2) (store_bytes (km_mem s2) v init)).
  { intros a Ha. rewrite Hst. zb; simpl; try lia; done. }
  apply (HQ _ l2 dir2 v); cbn [set_mem km_mem].
  - apply (us_write kend Hend s2 l2 pd dir2 {[0 := v]} v); try done; [|apply Hu2]. apply (kinv_write kend Hend); [apply Hu2|].
    intros w Hwl a Ha. apply Hout. pose proof (ki_pages _ _ _ (us_kinv _ _ _ _ _ _ Hu2)) as Hpg. rewrite Forall_forall in Hpg.
    destruct (mod_page_gap w v); [by apply Hpg | apply Hv | by intros -> | lia | lia].
  - by rewrite Hown, owned_cons.
  - intros a Ha. assert (Hav : ~ in_page v a) by (apply Ha; rewrite owned_cons; left). unfold in_page in Hav. rewrite Hout by lia.
    rewrite (grown_framed kend _ _ _ _ _ _ _ ∅ Hg a); [apply Ho; lia|]. intros w Hw'. apply Ha. rewrite owned_cons. by right.
  - intros i Hi. rewrite Hst. zb; simpl; try lia; [by replace (v + i - v) with i by lia|].
    rewrite (grown_keeps kend _ _ _ _ _ _ _ v Hg Hv); [| | | |lia].
    + unfold s1. cbn [set_mem km_mem]. rewrite Hz by (unfold in_page; lia). unfold nthZ. rewrite nth_overflow; [done|lia].
    + intros ->. apply Hvo. apply elem_owned. auto.
    + intros k Hk. apply Hvo. apply elem_owned. eauto.
    + intros Hin. apply Hvo. apply elem_owned. auto.
Qed.

(** ** The pages while the kernel starts

    The page table of the kernel, pages held otherwise ([st]) and the free list
    are all the pages, each once. *)
Record held (s : kmem) (l : list Z) (kpd : Z) (kd : gmap Z Z) (st all : list Z) : Prop := {
  hd_space : uspace kend s l kpd kd ∅;
  hd_all : owned kpd kd ∅ (st ++ l) ≡ₚ all;
  hd_nodup : NoDup all;
  hd_pages : Forall (page_ok kend) all
}.

Lemma owned_empty pd dir l : owned pd dir ∅ l = (pd :: tabs dir) ++ l.
Proof. reflexivity. Qed.

Lemma held_nodup kpd kd st l all : owned kpd kd ∅ (st ++ l) ≡ₚ all -> NoDup all -> NoDup ((kpd :: tabs kd) ++ l) /\ NoDup l /\ forall v, v ∈ l -> v ∉ (kpd :: tabs kd) /\ v ∉ st.
Proof.
  intros Hp Hn. rewrite <- Hp, owned_empty in Hn. apply NoDup_app in Hn as (H1 & H2 & H3). apply NoDup_app in H3 as (H3 & H4 & H5).
  split_and!; [|done|].
  - apply NoDup_app. split_and!; [done | | done]. intros x Hx Hl. apply (H2 x Hx). apply elem_of_app. by right.
  - intros v Hv. split; intros Hin; [apply (H2 v Hin); apply elem_of_app; by right | by apply (H4 v)].
Qed.

Lemma held_page s l kpd kd st all w : held s l kpd kd st all -> w ∈ (kpd :: tabs kd) ++ st ++ l -> page_ok kend w.
Proof. intros [_ Hall _ Hpg] Hw. rewrite Forall_forall in Hpg. apply Hpg. rewrite <- Hall. by rewrite owned_empty. Qed.

(** Writes outside the page table and the free pages. *)
Lemma held_write s l kpd kd st all m' : held s l kpd kd st all ->
  (forall w, w ∈ (kpd :: tabs kd) ++ l -> same_on w PGSIZE (km_mem s) m') -> held (set_mem s m') l kpd kd st all.
Proof.
  intros Hh Hs. pose proof Hh as [Hu Hall Hn Hpg]. split; [|done|done|done].
  apply (us_move kend Hend s l kpd kd ∅ (set_mem s m') l); [done | | |].
  - apply (kinv_write kend Hend); [apply Hu|]. intros v Hv. apply Hs. apply elem_of_app. by right.
  - intros w Hw. apply Hs. apply elem_of_app. by left.
  - apply Hu.
Qed.
Lemma held_low s l kpd kd st all m' : held s l kpd kd st all -> (forall a, kend <= a -> m' a = km_mem s a) -> held (set_mem s m') l kpd kd st all.
Proof.
  intros Hh Hm. apply (held_write s); [done|]. intros w Hw a Ha. apply Hm. destruct (held_page _ _ _ _ _ _ w Hh) as [_ ?]; [|lia].
  apply elem_of_app in Hw as [?|?]; apply elem_of_app; [by left|right; apply elem_of_app; by right].
Qed.

Lemma held_alloc s l kpd kd st all Q : held s l kpd kd st all -> (0 < length l)%nat ->
  (forall v l' s', l = v :: l' -> v <> 0 -> km_mem s' = km_mem s -> held s' l' kpd kd (v :: st) all -> Q v s') ->
  wp kalloc Q s.
Proof.
  intros Hh Hl HQ. pose proof Hh as [Hu Hall Hn Hpg]. apply (kalloc_spec kend Hend s l); [apply Hu | intros ->; cbn in Hl; lia |].
  intros v l' -> Hk. assert (page_ok kend v) as Hv by (apply (held_page _ _ _ _ _ _ v Hh); rewrite !elem_of_app; right; right; left).
  destruct (page_ok_bounds kend Hend v Hv) as [Hb _]. unfold KERNBASE in Hb.
  assert (Hall' : owned kpd kd ∅ ((v :: st) ++ l') ≡ₚ all) by (rewrite <- Hall, !owned_empty; apply Permutation_app_head; cbn; by rewrite Permutation_middle).
  apply (HQ v l'); [done | lia | done |]. split; [|done|done|done].
  apply (us_move kend Hend s (v :: l') kpd kd ∅); [done | done | done |]. rewrite owned_empty. by destruct (held_nodup _ _ _ _ _ Hall' Hn).
Qed.

(** Some of the free pages are taken and filled. *)
Lemma held_take s l kpd kd st all own s' l' : held s l kpd kd st all -> own ++ l' ≡ₚ l -> framed l (km_mem s) (km_mem s') -> kinv kend s' l' ->
  held s' l' kpd kd (own ++ st) all.
Proof.
  intros Hh Hown Hfr Hk. pose proof Hh as [Hu Hall Hn Hpg].
  assert (Hall' : owned kpd kd ∅ ((own ++ st) ++ l') ≡ₚ all).
  { rewrite <- Hall, !owned_empty. apply Permutation_app_head. by rewrite <- app_assoc, Permutation_app_swap_app, Hown. }
  split; [|done|done|done]. apply (us_move kend Hend s l kpd kd ∅); [done|done| |rewrite owned_empty; by destruct (held_nodup _ _ _ _ _ Hall' Hn)].
  intros w Hw a Ha. apply Hfr. intros v Hv Hav. destruct (held_nodup _ _ _ _ _ Hall Hn) as (_ & _ & Hd). destruct (Hd v Hv) as [Hvw _].
  refine (page_disjoint kend w v a _ _ _ Ha Hav); [| |by intros ->]; apply (held_page _ _ _ _ _ _ _ Hh); rewrite !elem_of_app; auto.
Qed.

(** [kinit2]: more pages become free. *)
Lemma held_freerange s l kpd kd st all vstart vend (ps := pages_from (PGROUNDUP vstart) (npages vstart vend)) Q :
  held s l kpd kd st all -> kend <= vstart -> PGROUNDUP vstart <= vend <= KERNBASE + PHYSTOP -> vstart + PGSIZE <= 2 ^ 32 ->
  (forall v, v ∈ ps -> v ∉ all) -> (forall s', held s' (rev ps ++ l) kpd kd st (ps ++ all) -> Q tt s') ->
  wp (freerange kend vstart vend) Q s.
Proof.
  intros Hh H1 H2 H3 Hd HQ. pose proof Hh as [Hu Hall Hn Hpg].
  assert (Hin : forall w, w ∈ (kpd :: tabs kd) ++ st ++ l -> w ∈ all) by (intros w Hw; by rewrite <- Hall, owned_empty).
  apply (freerange_spec kend Hend vstart vend s l); [apply Hu | done | done | done | |]; fold ps.
  { intros v Hv Hl. apply (Hd v Hv), Hin. rewrite !elem_of_app. auto. }
  intros s' Hk' Ho. apply HQ. assert (Hpn : NoDup (rev ps ++ l)) by apply Hk'. assert (Hps : Forall (page_ok kend) ps).
  { pose proof (ki_pages _ _ _ Hk') as Hp. apply Forall_app in Hp as [Hp _]. apply Forall_forall. intros x Hx. rewrite Forall_forall in Hp. apply Hp. by rewrite <- Permutation_rev. }
  assert (Hall' : owned kpd kd ∅ (st ++ rev ps ++ l) ≡ₚ ps ++ all).
  { rewrite <- Hall, !owned_empty, <- Permutation_rev. rewrite !(Permutation_app_swap_app ps). by rewrite (Permutation_app_swap_app st ps l). }
  assert (Hnd : NoDup (ps ++ all)).
  { apply NoDup_app. split_and!; [|done|done]. rewrite Permutation_rev. by apply NoDup_app in Hpn as (? & _). }
  split; [|done|done|by apply Forall_app].
  apply (us_move kend Hend s l kpd kd ∅); [done | done | | rewrite owned_empty; by destruct (held_nodup _ _ _ _ _ Hall' Hnd)].
  intros w Hw a Ha. apply Ho. intros v Hv. rewrite Forall_forall in Hps. assert (Hwa : w ∈ all) by (apply Hin; rewrite elem_of_app; auto). rewrite Forall_forall in Hpg.
  destruct (mod_page_gap w v); [by apply Hpg | by apply Hps | intros ->; by apply (Hd v) | lia | lia].
Qed.
End memory.

(** ** The first process *)

(** What [userinit] leaves in the first entry of the table. *)
Definition INITCODE_NAME : list Z := [105; 110; 105; 116; 99; 111; 100; 101; 0; 0; 0; 0; 0; 0; 0; 0].
Definition first_proc (pd ks pid : Z) : proc :=
  Proc PGSIZE pd ks RUNNABLE pid None (Trapframe 0 PGSIZE 0 0x23 0x2b 0x2b 0x2b FL_IF []) None false (replicate 16 None) (Some O) INITCODE_NAME.

Section first.
Context (kend : Z) (Hend : KERNBASE < kend) (kdata : Z) (Hkd : kdata mod PGSIZE = 0 /\ KERNLINK < kdata < KERNBASE + PHYSTOP).
Context `{DevSw log}.

Lemma initcode_name : name_copy (p_name proc0) [105; 110; 105; 116; 99; 111; 100; 101] = INITCODE_NAME.
Proof. vm_compute. reflexivity. Qed.
#[local] Opaque name_copy.
Lemma namei_fresh_root bl sb : exists ino, namei O [SLASH] (Fs bl sb (replicate (Z.to_nat NINODE) inode0)) = Ret (Some O) (Fs bl sb ino).
Proof. eexists. vm_compute. reflexivity. Qed.

Lemma userinit_boot init k l kpd kd st all : held kend (k_kmem k) l kpd kd st all -> (70 <= length l)%nat -> Z.of_nat (length init) < PGSIZE ->
  k_procs k = replicate (Z.to_nat NPROC) proc0 -> f_inodes (k_fs k) = replicate (Z.to_nat NINODE) inode0 ->
  wp (userinit kdata init) (fun _ k' => exists l' pd dir v ks,
    uspace kend (k_kmem k') l' pd dir {[0 := v]} /\ held kend (k_kmem k') l' kpd kd (owned pd dir {[0 := v]} [] ++ ks :: st) all /\
    (forall i, 0 <= i < PGSIZE -> km_mem (k_kmem k') (v + i) = nthZ init i) /\
    k_procs k' = first_proc pd ks (k_nextpid k) :: replicate 63 proc0 /\ k_initproc k' = Some O /\ k_nextpid k' = i32 (k_nextpid k + 1)) k.
Proof.
  intros Hh Hl Hi Hp Hc. destruct k as [[bl sb ino] files pipes km procs self ini np ticks cnt inits]. cbn [k_procs k_fs f_inodes k_kmem k_nextpid] in *. subst procs ino.
  unfold userinit, allocproc, modp, onkm, onfs. wp_steps. cbn [k_procs k_nextpid]. change (unused_scan (replicate (Z.to_nat NPROC) proc0) 0) with (Some O).
  cbn beta iota. wp_steps. cbn [k_kmem set_procs set_nextpid].
  apply (held_alloc kend Hend km l kpd kd st all); [done|lia|]. intros ks l1 km1 -> Hks Hm1 Hh1. wp_steps. destruct (Z.eqb_spec ks 0); [done|].
  wp_steps. cbn [the]. wp_steps. cbn [k_kmem set_procs set_nextpid set_initproc set_kmem].
  apply (setupkvm_total kend Hend kdata Hkd km1 l1); [apply Hh1| |intros; cbn in *; lia]. intros km2 l2 pd dir Hpd Hmd Hkdir.
  wp_steps. destruct (Z.eqb_spec pd 0); [done|]. wp_steps. cbn [k_kmem set_procs set_nextpid set_initproc set_kmem].
  apply (inituvm_spec kend Hend km2 l2 pd dir); [apply Hmd| |done|].
  { pose proof (Permutation_length (md_owned _ _ _ _ _ _ _ _ Hmd)) as Hn. rewrite owned_empty, length_app in Hn. pose proof (kdir_size dir Hkdir). cbn [length] in *. lia. }
  intros km3 l3 dir3 v Hu3 Hown3 Hfr3 Hby. wp_steps. cbn [k_fs set_procs set_nextpid set_initproc set_kmem].
  destruct (namei_fresh_root bl sb) as [ino Ei]. eapply wp_intro; [exact Ei|]. wp_steps. exists l3, pd, dir3, v, ks. split; [exact Hu3|]. split; [|split; [exact Hby|]].
  - refine (held_take kend Hend km1 l1 kpd kd (ks :: st) all (owned pd dir3 {[0 := v]} []) km3 l3 Hh1 _ _ (us_kinv _ _ _ _ _ _ Hu3)).
    + rewrite <- (md_owned _ _ _ _ _ _ _ _ Hmd), <- Hown3. unfold owned. cbn. by rewrite app_nil_r, app_assoc.
    + eapply framed_trans; [|apply Hmd|exact Hfr3]. symmetry. apply Hmd.
  - split; [|split; reflexivity]. cbn [k_procs set_procs set_kmem set_initproc set_nextpid set_fs].
    change (replicate (Z.to_nat NPROC) proc0) with (proc0 :: replicate 63 proc0). cbn [alter list_alter].
    unfold with_name at 1. cbn [with_state with_cwd with_tf with_mm with_kstack with_pid p_name]. rewrite initcode_name. reflexivity.
Qed.
End first.

(** ** Devices do not touch the table of processors *)

Section devices.
Context {D : Type} `{Bus D}.

(** The operation returns and leaves the variables of mp.c alone. *)
Definition steady {A} (m : M (devs D) A) : Prop := forall s, wp m (fun _ s' => ds_mp s' = ds_mp s) s.

Lemma steady_ret {A} (a : A) : steady (ret a).
Proof. intros s. by wp_steps. Qed.
Lemma steady_bind {A B} (m : M (devs D) A) (f : A -> M (devs D) B) : steady m -> (forall a, steady (f a)) -> steady (bind m f).
Proof. intros Hm Hf s. apply wp_bind. eapply wp_mono; [apply Hm|]. intros a s1 E1. eapply wp_mono; [apply Hf|]. intros b s2 E2. cbn in *. congruence. Qed.
Lemma steady_get : steady get.
Proof. intros s. by wp_steps. Qed.
Lemma steady_modify f : (forall s : devs D, ds_mp (f s) = ds_mp s) -> steady (modify f).
Proof. intros Hf s. wp_steps. apply Hf. Qed.
Lemma steady_inb p : steady (inb p).
Proof. intros s. unfold wp, inb. by destruct (bus_inb p (ds_bus s)). Qed.
Lemma steady_rd a : steady (rd a).
Proof. intros s. unfold wp, rd. by destruct (bus_read (u32 a) (ds_bus s)). Qed.
Lemma steady_outb p v : steady (outb p v).
Proof. by apply steady_modify. Qed.
Lemma steady_wr a v : steady (wr a v).
Proof. by apply steady_modify. Qed.

(** The same for the operations that need the table [mp] to return. *)
Definition stays {A} (mp : mpstate) (m : M (devs D) A) : Prop := forall s, ds_mp s = mp -> wp m (fun _ s' => ds_mp s' = mp) s.
Lemma steady_stays {A} mp (m : M (devs D) A) : steady m -> stays mp m.
Proof. intros Hm s <-. apply Hm. Qed.
Lemma stays_bind {A B} mp (m : M (devs D) A) (f : A -> M (devs D) B) : stays mp m -> (forall a, stays mp (f a)) -> stays mp (bind m f).
Proof. intros Hm Hf s E. apply wp_bind. eapply wp_mono; [by apply Hm|]. intros a s1 E1. by apply Hf. Qed.

Ltac steady := repeat match goal with
  | |- steady (bind _ _) => apply steady_bind; [|intros ?]
  | |- steady (ret _) => apply steady_ret
  | |- steady get => apply steady_get
  | |- steady (inb _) => apply steady_inb
  | |- steady (rd _) => apply steady_rd
  | |- steady (outb _ _) => apply steady_outb
  | |- steady (wr _ _) => apply steady_wr
  | |- steady (modify _) => apply steady_modify; done
  | |- steady (when ?b _) => destruct b; cbn [when]
  | |- steady (if ?b then _ else _) => destruct b
  | _ => assumption
  end.

Lemma steady_lapicr i : steady (lapicr i).
Proof. unfold lapicr. steady. Qed.
Lemma steady_lapicw i v : steady (lapicw i v).
Proof. unfold lapicw, lapicr. steady. Qed.
Lemma steady_picenable irq : steady (picenable irq).
Proof. unfold picenable, picsetmask. steady. Qed.
Lemma steady_ioapicenable irq c : steady (ioapicenable irq c).
Proof. unfold ioapicenable, ioapicwrite. steady. Qed.
Lemma steady_picinit : steady picinit.
Proof. unfold picinit, picsetmask. steady. Qed.
Lemma steady_ioapic_mask n : forall i, steady (ioapic_mask n i).
Proof. induction n as [|n IH]; intros i; cbn [ioapic_mask]; unfold ioapicwrite; steady. apply IH. Qed.
Lemma steady_ioapicinit : steady ioapicinit.
Proof. unfold ioapicinit, ioapicread. steady. apply steady_ioapic_mask. Qed.
Lemma steady_timerinit : steady timerinit.
Proof. unfold timerinit. steady; apply steady_picenable. Qed.
Lemma steady_uart_wait n : steady (uart_wait n).
Proof. induction n as [|n IH]; cbn [uart_wait]; steady. Qed.
Lemma steady_uartputc c : steady (uartputc c).
Proof.
  unfold uartputc. apply steady_bind; [apply steady_get | intros s]. destruct (negb _); [steady|].
  apply steady_bind; [apply steady_uart_wait | intros _; steady].
Qed.
Lemma steady_uart_puts l : steady (uart_puts l).
Proof. induction l as [|c l IH]; cbn [uart_puts]; [steady|]. by apply steady_bind; [apply steady_uartputc|]. Qed.
Lemma steady_uartinit : steady uartinit.
Proof. unfold uartinit. steady; auto using steady_picenable, steady_ioapicenable, steady_uart_puts. Qed.
Lemma steady_consoleinit : steady consoleinit.
Proof. unfold consoleinit. steady; auto using steady_picenable, steady_ioapicenable. Qed.
Lemma steady_ideinit_irq : steady ideinit_irq.
Proof. unfold ideinit_irq. steady; auto using steady_picenable, steady_ioapicenable. Qed.
Lemma steady_ap_shutdown : steady ap_shutdown.
Proof. unfold ap_shutdown. steady. Qed.
Lemma steady_ap_startup i a : steady (ap_startup i a).
Proof. unfold ap_startup. steady; apply steady_lapicw. Qed.
End devices.

(** ** [main] *)

Section main.
Context {D : Type} `{Bus D} `{DevSw log}.
Context (kend kdata : Z) (entryother initcode : list Z) (mpenter entrypgdir : Z).
Context (mpfuel polls : nat) (imcr : Z) (ap_up : nat -> D -> bool).

(** The kernel's image begins at [KERNLINK], with room for the tables behind it
    in the first 4 megabytes. *)
Hypothesis Hend : KERNLINK < kend /\ kend + 80 * PGSIZE <= KERNBASE + 4 * 1024 * 1024.
Hypothesis Hkd : kdata mod PGSIZE = 0 /\ KERNLINK < kdata < KERNBASE + PHYSTOP.

(** The machine: mp.c finds the processors [mp] in the memory below the kernel's
    end, the processor that runs [main] is among them and its local APIC sends
    its message within [polls] polls, and the others come up. *)
Record platform_ok (m : mem) (mp0 mp : mpstate) : Prop := {
  pf_mp0 : mp_ok mp0;
  pf_mp : forall m', same_below kend m m' -> mpinit mpfuel m' imcr mp0 = Some mp;
  pf_id : lapic mp <> 0 -> exists id, (forall d, (bus_read (u32 (lapic mp + 4 * ID)) d).1 = id) /\
    is_Some (cpu_index (take (ncpu mp) (cpus mp)) (Z.shiftr id 24) 0);
  pf_wait : forall s, ds_mp s = mp -> wp (lapic_wait polls) (fun _ s' => ds_mp s' = mp) s;
  pf_up : forall c d, ap_up c d = true
}.

Lemma Hend' : KERNBASE < kend.
Proof. unfold KERNLINK, KERNBASE, EXTMEM in *. lia. Qed.

(** The state between [kvmalloc] and [kinit2], from the kernel [k]: only memory
    has changed. *)
Record coming_up (k : kern log) (mp : mpstate) (all : list Z) (kpd : Z) (kd : gmap Z Z) (st l : list Z) (s : machine D) : Prop := {
  cu_held : held kend (k_kmem (mc_kern s)) l kpd kd st all;
  cu_kern : mc_kern s = set_kmem (k_kmem (mc_kern s)) k;
  cu_mp : ds_mp (mc_devs s) = mp;
  cu_kpgdir : mc_kpgdir s = kpd
}.

Section up.
Context (k : kern log) (m : mem) (mp0 mp : mpstate) (Hpf : platform_ok m mp0 mp).
Context (all : list Z) (kpd : Z) (kd : gmap Z Z).
Notation up := (coming_up k mp all kpd kd).

Lemma up_stays {A} (x : M (devs D) A) st l s Q : up st l s -> stays mp x -> (forall a s', up st l s' -> Q a s') -> wp (ond x) Q s.
Proof. intros [H1 H2 H3 H4] Hx HQ. unfold ond. apply wp_zoom. eapply wp_mono; [by apply Hx|]. intros a d E. apply HQ. by split. Qed.
Lemma up_ond {A} (x : M (devs D) A) st l s Q : up st l s -> steady x -> (forall a s', up st l s' -> Q a s') -> wp (ond x) Q s.
Proof. intros Hu Hx. apply up_stays; [done|]. by apply steady_stays. Qed.

Lemma up_cpu st l s Q : up st l s -> (forall c s', up st l s' -> Q c s') -> wp (ond this_cpu) Q s.
Proof.
  intros Hu HQ. unfold ond. apply wp_zoom. unfold this_cpu. wp_steps. pose proof Hu as [H1 H2 H3 H4]. rewrite H3.
  destruct (Z.eqb_spec (lapic mp) 0) as [E|E]; [wp_steps; apply HQ; by destruct s|]. destruct (pf_id _ _ _ Hpf E) as (id & Hid & [i Hi]).
  wp_steps. unfold lapicr. wp_steps. unfold wp, rd. rewrite H3. specialize (Hid (ds_bus (mc_devs s))). destruct (bus_read _ _) as [r d]. cbn [fst] in Hid. subst r.
  unfold zoom, cpunum. cbn [set_bus ds_mp]. rewrite H3. destruct (Z.eqb_spec (lapic mp) 0); [done|]. rewrite Hi. apply HQ. by split.
Qed.

(** Memory below the kernel's end. *)
Lemma up_low f st l s Q : up st l s -> (forall x a, kend <= a -> f x a = x a) -> (forall s', up st l s' -> Q tt s') ->
  wp (onmem (modify (fun s => set_mem s (f (km_mem s))))) Q s.
Proof.
  intros Hu Hf HQ. unfold onmem, onk, onkm. do 2 apply wp_zoom. wp_steps. apply HQ. destruct Hu as [H1 H2 H3 H4]. split; try done.
  - cbn. apply (held_low kend Hend'); [done|]. intros a Ha. by apply Hf.
  - cbn. by rewrite H2.
Qed.
Lemma up_poke a w st l s Q : up st l s -> 0 <= a -> a + 4 <= kend -> kend < 2 ^ 32 -> (forall s', up st l s' -> Q tt s') -> wp (onmem (poke32 a w)) Q s.
Proof. intros Hu Ha Hb Hc HQ. unfold poke32. apply (up_low (fun x => store32 x a w) st l); [done | | done]. intros x b Hxb. apply store32_other; lia. Qed.

(** Each of the other processors gets a stack. *)
Lemma up_start n : forall c st l s Q, up st l s -> (n <= length l)%nat -> (c + n <= length (cpus mp))%nat ->
  (forall st' l' s', up st' l' s' -> (length l <= length l' + n)%nat -> l' ⊆+ l -> Q tt s') ->
  wp (start_cpus mpenter entrypgdir ap_up n c) Q s.
Proof.
  induction n as [|n IH]; intros c st l s Q Hu Hl Hc HQ; cbn [start_cpus]; [wp_steps; apply (HQ st l s); [done|lia|done]|].
  apply wp_bind. apply (up_cpu st l); [done|]. intros me s1 Hu1. apply wp_bind.
  destruct (Z.of_nat c =? me).
  { wp_steps. apply (IH (S c) st l s1); [done|lia|lia|]. intros st' l' s' ? ? ?. apply (HQ st' l' s'); [done|lia|done]. }
  apply wp_bind. unfold onmem at 1, onk, onkm. do 2 apply wp_zoom. pose proof Hu1 as [A1 A2 A3 A4].
  apply (held_alloc kend Hend' _ l kpd kd st all); [done|lia|]. intros v l' km -> Hv Hm Hh.
  set (s2 := set_kern _ s1). assert (Hu2 : up (v :: st) l' s2) by (split; try done; cbn; by rewrite A2).
  assert (Hlow : 0 <= AP_CODE - 12 /\ AP_CODE + 4096 <= kend /\ kend < 2 ^ 32).
  { change AP_CODE with 0x80007000. clear - Hend. unfold KERNLINK, KERNBASE, EXTMEM, PGSIZE in *. lia. }
  apply wp_bind, (up_poke _ _ (v :: st) l'); [done|lia|lia|lia|]. intros s3 Hu3.
  apply wp_bind, (up_poke _ _ (v :: st) l'); [done|lia|lia|lia|]. intros s4 Hu4.
  apply wp_bind, (up_poke _ _ (v :: st) l'); [done|lia|lia|lia|]. intros s5 Hu5.
  destruct (lookup_lt_is_Some_2 (cpus mp) c) as [apicid Hid]; [lia|]. apply wp_bind, wp_bind. wp_steps. rewrite (cu_mp _ _ _ _ _ _ _ _ Hu5), Hid. cbn [the]. wp_steps.
  unfold lapicstartap. apply wp_bind, (up_ond _ (v :: st) l'); [done|apply steady_ap_shutdown|]. intros _ s6 Hu6.
  apply wp_bind, (up_low (fun x => store_bytes x _ _) (v :: st) l'); [done| |].
  { intros x a Ha. change (P2V _) with 0x80000467. assert (E4 : forall x, Z.of_nat (length (0 :: 0 :: le_bytes 2 x)) = 4) by (intros; reflexivity).
    apply store_bytes_other; rewrite ?E4; [lia|lia|]. right. change AP_CODE with 0x80007000 in *. lia. }
  intros s7 Hu7. apply (up_ond _ (v :: st) l'); [done|apply steady_ap_startup|]. intros _ s8 Hu8.
  unfold wp at 1. rewrite (pf_up _ _ _ Hpf). apply (IH (S c) (v :: st) l' s8); [done|cbn in *; lia|lia|].
  intros st' l2 s' ? ? Hsub. apply (HQ st' l2 s'); [done|cbn in *; lia|]. by apply submseteq_cons_r; left.
Qed.
End up.

(** *** The memory allocator and the kernel's page table *)

Definition MB4 : Z := 4 * 1024 * 1024.
Definition low_pages : list Z := pages_from (PGROUNDUP kend) (npages kend (P2V MB4)).
Definition high_pages : list Z := pages_from (PGROUNDUP (P2V MB4)) (npages (P2V MB4) (P2V PHYSTOP)).

Lemma low_count : (79 <= length low_pages)%nat.
Proof.
  unfold low_pages, pages_from, npages. rewrite length_fmap, length_seqZ. change (P2V MB4) with 0x80400000.
  unfold KERNLINK, KERNBASE, EXTMEM, PGSIZE in *. destruct (PGROUNDUP_spec kend) as [Hr _]; [lia|unfold PGSIZE; lia|]. unfold PGSIZE in *.
  assert (79 <= (0x80400000 - PGROUNDUP kend) / 4096) by (apply Z.div_le_lower_bound; lia). lia.
Qed.

Lemma high_count : (70 <= length high_pages)%nat.
Proof.
  unfold high_pages, pages_from, npages. rewrite length_fmap, length_seqZ. change ((P2V PHYSTOP - PGROUNDUP (P2V MB4)) / PGSIZE) with 56320. lia.
Qed.

Lemma page_parts w : w ∈ high_pages ++ rev low_pages <-> page_ok kend w.
Proof.
  rewrite elem_of_app, (list_elem_of_In (rev low_pages)), <- in_rev, <- list_elem_of_In. unfold high_pages, low_pages, page_ok. change (P2V MB4) with 0x80400000. change (P2V PHYSTOP) with 0x8e000000. change (KERNBASE + PHYSTOP) with 0x8e000000.
  unfold KERNLINK, KERNBASE, EXTMEM, PGSIZE in *. rewrite !elem_of_range by (unfold KERNBASE, PGSIZE; lia). unfold PGSIZE.
  split; [intros [(? & ? & ?)|(? & ? & ?)]; split; lia|]. intros (Hm & ? & ?). pose proof (Z.div_mod w 4096 ltac:(lia)).
  destruct (Z.le_gt_cases 0x80400000 w); [left|right]; split_and!; lia.
Qed.
Lemma high_low w : w ∈ high_pages -> w ∉ low_pages.
Proof.
  unfold high_pages, low_pages. change (P2V MB4) with 0x80400000. change (P2V PHYSTOP) with 0x8e000000. unfold KERNLINK, KERNBASE, EXTMEM, PGSIZE in *.
  rewrite !elem_of_range by (unfold KERNBASE, PGSIZE; lia). unfold PGSIZE. lia.
Qed.

Lemma up_begin k mp0 s Q : mc_kern s = k -> km_freelist (k_kmem k) = 0 -> ds_mp (mc_devs s) = mp0 ->
  (forall kpd kd l s', coming_up k mp0 (rev low_pages) kpd kd [] l s' -> (14 <= length l)%nat ->
     same_below kend (km_mem (k_kmem k)) (km_mem (k_kmem (mc_kern s'))) -> Q tt s') ->
  wp (onmem (kinit1 kend kend (P2V MB4)) ;;; kvmalloc kdata) Q s.
Proof.
  intros Hk Hf Hmp HQ. unfold kvmalloc, onmem, onk, onkm, kinit1. wp_steps. rewrite Hk.
  assert (Hk0 : kinv kend (set_use_lock (k_kmem k) false) []) by (split; [done | constructor | constructor]).
  pose proof low_count as Hcount. pose proof Hend as He. unfold KERNLINK, KERNBASE, EXTMEM, PGSIZE in He.
  destruct (PGROUNDUP_spec kend) as [Hr _]; [lia|unfold PGSIZE; lia|]. unfold PGSIZE in Hr.
  apply (freerange_spec kend Hend' kend (P2V MB4) _ [] _ Hk0); [lia| |unfold PGSIZE; lia|by intros; apply not_elem_of_nil|].
  { change (P2V MB4) with 0x80400000. unfold KERNBASE, PHYSTOP. lia. }
  fold low_pages. intros km1 Hk1 Ho1. rewrite app_nil_r in Hk1. wp_steps.
  apply (setupkvm_total kend Hend' kdata Hkd km1 (rev low_pages)); [done| |rewrite length_rev; lia].
  intros km2 l2 kpd kd Hpd Hmd Hkdir. wp_steps. apply (HQ kpd kd l2).
  - split; [|cbn; by rewrite ?Hk|done|done]. cbn. split; [apply Hmd|apply (md_owned _ _ _ _ _ _ _ _ Hmd)|apply Hk1|apply Hk1].
  - pose proof (Permutation_length (md_owned _ _ _ _ _ _ _ _ Hmd)) as Hn. rewrite owned_empty, length_app, length_rev in Hn. pose proof (kdir_size kd Hkdir). cbn [length] in *. lia.
  - intros x Hx. cbn. assert (Hpg := ki_pages _ _ _ Hk1). rewrite Forall_forall in Hpg.
    rewrite (md_frame _ _ _ _ _ _ _ _ Hmd) by (intros w Hw; apply Hpg in Hw as [_ ?]; unfold in_page; lia).
    apply Ho1. intros w Hw. left. assert (w ∈ rev low_pages) as Hin by (by rewrite <- Permutation_rev). apply Hpg in Hin as [_ ?]. lia.
Qed.

(** *** The devices and the other processors *)

(** [main] from [lapicinit] to [startothers], before [rest]. *)
Definition middle (rest : M (machine D) unit) : M (machine D) unit :=
  ond (lapicinit polls) ;;;
  let! _ := ond this_cpu in
  ond picinit ;;;
  ond ioapicinit ;;;
  ond consoleinit ;;;
  ond uartinit ;;;
  onk (modify (fun s => set_fs (set_bl (set_bio (binit (lg_bio (f_bl (k_fs s)))) (f_bl (k_fs s))) (k_fs s)) s)) ;;;
  ond ideinit_irq ;;;
  (let! s := get in when (negb (ismp (ds_mp (mc_devs s)))) (ond timerinit)) ;;;
  startothers entryother mpenter entrypgdir ap_up ;;;
  rest.

Definition binit_kern (k : kern log) : kern log :=
  set_fs (set_bl (set_bio (binit (lg_bio (f_bl (k_fs k)))) (f_bl (k_fs k))) (k_fs k)) k.

Section middle.
Context (k : kern log) (m : mem) (mp0 mp : mpstate) (Hpf : platform_ok m mp0 mp).
Context (all : list Z) (kpd : Z) (kd : gmap Z Z).
Notation up := (coming_up k mp all kpd kd).

Lemma stays_lapicinit : stays mp (lapicinit polls).
Proof.
  unfold lapicinit. apply stays_bind; [apply steady_stays, steady_get|]. intros s. destruct (_ =? 0); [apply steady_stays, steady_ret|].
  repeat match goal with
    | |- stays _ (bind _ _) => apply stays_bind; [|intros ?]
    | |- stays _ (lapicw _ _) => apply steady_stays, steady_lapicw
    | |- stays _ (lapicr _) => apply steady_stays, steady_lapicr
    | |- stays _ (when ?b _) => destruct b; cbn [when]; [|apply steady_stays, steady_ret]
    end.
  exact (pf_wait _ _ _ Hpf).
Qed.

Lemma up_middle rest l s Q : Z.of_nat (length entryother) <= PGSIZE -> up [] l s -> (8 <= length l)%nat ->
  (forall st l' s', coming_up (binit_kern k) mp all kpd kd st l' s' -> l' ⊆+ l -> wp rest Q s') -> wp (middle rest) Q s.
Proof.
  intros Hother Hu Hl HQ. unfold middle.
  apply wp_bind, (up_stays k mp all kpd kd _ [] l); [done|apply stays_lapicinit|]. clear s Hu. intros _ s Hu.
  apply wp_bind, (up_cpu k m mp0 mp Hpf all kpd kd [] l); [done|]. clear s Hu. intros _ s Hu.
  apply wp_bind, (up_ond k mp all kpd kd _ [] l); [done|apply steady_picinit|]. clear s Hu. intros _ s Hu.
  apply wp_bind, (up_ond k mp all kpd kd _ [] l); [done|apply steady_ioapicinit|]. clear s Hu. intros _ s Hu.
  apply wp_bind, (up_ond k mp all kpd kd _ [] l); [done|apply steady_consoleinit|]. clear s Hu. intros _ s Hu.
  apply wp_bind, (up_ond k mp all kpd kd _ [] l); [done|apply steady_uartinit|]. clear s Hu. intros _ s Hu.
  apply wp_bind. unfold onk. apply wp_zoom. wp_steps. set (s1 := set_kern _ s).
  assert (Hu1 : coming_up (binit_kern k) mp all kpd kd [] l s1).
  { destruct Hu as [H1 H2 H3 H4]. split; try done. unfold s1. cbn. rewrite H2. by destruct k. }
  clearbody s1. clear s Hu.
  apply (up_ond (binit_kern k) mp all kpd kd _ [] l); [done|apply steady_ideinit_irq|]. clear s1 Hu1. intros _ s Hu. wp_steps.
  assert (Hgo : forall s', coming_up (binit_kern k) mp all kpd kd [] l s' -> wp (startothers entryother mpenter entrypgdir ap_up ;;; rest) Q s').
  { clear s Hu. intros s Hu. unfold startothers. apply wp_bind, wp_bind, (up_low (binit_kern k) mp all kpd kd (fun x => store_bytes x AP_CODE entryother) [] l); [done| |].
    - intros x a Ha. change AP_CODE with 0x80007000. unfold KERNLINK, KERNBASE, EXTMEM, PGSIZE in *. apply store_bytes_other; lia.
    - clear s Hu. intros s Hu. wp_steps. rewrite (cu_mp _ _ _ _ _ _ _ _ Hu).
      destruct (mpinit_bounds _ _ _ _ _ (pf_mp0 _ _ _ Hpf) (pf_mp _ _ _ Hpf m ltac:(done))) as [Hc Hn]. unfold NCPU in *.
      apply (up_start (binit_kern k) m mp0 mp Hpf all kpd kd (ncpu mp) 0 [] l s); [done|lia|lia|]. intros st l' s' Hu' _ Hsub. by apply (HQ st l'). }
  destruct (negb _); cbn [when]; [|wp_steps; by apply wp_bind_inv, Hgo]. apply (up_ond (binit_kern k) mp all kpd kd _ [] l); [done|apply steady_timerinit|]. intros _ s' Hu'. by apply Hgo.
Qed.
End middle.

Lemma held_lock s l kpd kd st all b : held kend s l kpd kd st all -> held kend (set_use_lock s b) l kpd kd st all.
Proof.
  intros [Hu Hall Hn Hpg]. split; [|done|done|done]. apply (us_move kend Hend' s l kpd kd ∅); [done| |done|apply Hu].
  destruct Hu as [[K1 K2 K3] _ _ _ _]. by split.
Qed.

Lemma first_proc_ok pd ks : pt_ok O (first_proc pd ks 1 :: replicate 63 proc0, 2).
Proof.
  assert (Hq : forall j p, (first_proc pd ks 1 :: replicate 63 proc0) !! j = Some p -> j = O /\ p = first_proc pd ks 1 \/ p = proc0).
  { intros [|j] p Hp; [left; by injection Hp as <-|right]. by apply lookup_replicate in Hp as [-> _]. }
  split; cbn [fst snd].
  - intros j p i c Hj [Hs _]. by destruct (Hq j p Hj) as [[_ ->]| ->].
  - split; [by exists (first_proc pd ks 1)|]. intros j p Hj. by destruct (Hq j p Hj) as [[_ ->]| ->].
  - split.
    + intros j p Hj. by destruct (Hq j p Hj) as [[_ ->]| ->].
    + intros i j p q Hi Hj. destruct (Hq i p Hi) as [[-> ->]| ->], (Hq j q Hj) as [[-> ->]| ->]; done.
Qed.

(** What the loader leaves: the variables of the kernel as initialised. *)
Record initial (s : machine D) (m : mem) (mp0 : mpstate) : Prop := {
  in_mem : km_mem (k_kmem (mc_kern s)) = m;
  in_free : km_freelist (k_kmem (mc_kern s)) = 0;
  in_procs : k_procs (mc_kern s) = replicate (Z.to_nat NPROC) proc0;
  in_files : k_files (mc_kern s) = replicate (Z.to_nat NFILE) file0;
  in_inodes : f_inodes (k_fs (mc_kern s)) = replicate (Z.to_nat NINODE) inode0;
  in_pid : k_nextpid (mc_kern s) = 1;
  in_mp : ds_mp (mc_devs s) = mp0
}.

(** C5: [main] reaches the scheduler, on any machine whose firmware describes its
    processors, and leaves a kernel that satisfies the invariants the other
    theorems start from.  The pages from the kernel's end to [PHYSTOP] are the
    kernel's page table, the stacks, the address space of the first process and
    the free list, each once; the first process has one page, with the program
    [initcode] and then zeros, is runnable and is [init]; the process table and
    the file table satisfy their invariants. *)
Theorem main_boots s m mp0 mp :
  Z.of_nat (length entryother) <= PGSIZE -> Z.of_nat (length initcode) < PGSIZE -> platform_ok m mp0 mp -> initial s m mp0 ->
  wp (main kend kdata entryother initcode mpenter entrypgdir mpfuel polls imcr ap_up) (fun _ s' => let k := mc_kern s' in
    exists all l kd pd dir v ks st,
      (forall w, w ∈ all <-> page_ok kend w) /\
      held kend (k_kmem k) l (mc_kpgdir s') kd (owned pd dir {[0 := v]} [] ++ ks :: st) all /\
      uspace kend (k_kmem k) l pd dir {[0 := v]} /\
      (forall i, 0 <= i < PGSIZE -> km_mem (k_kmem k) (v + i) = nthZ initcode i) /\
      k_procs k = first_proc pd ks 1 :: replicate 63 proc0 /\ k_initproc k = Some O /\
      pt_ok O (tab k) /\ files_ok k) s.
Proof.
  intros Hother Hinit Hpf [I1 I2 I3 I4 I5 I6 I7]. unfold main.
  assert (W : wp (onmem (kinit1 kend kend (P2V MB4)) ;;; kvmalloc kdata) (fun _ s' => exists kpd kd l,
    coming_up (mc_kern s) mp0 (rev low_pages) kpd kd [] l s' /\ (14 <= length l)%nat /\ same_below kend m (km_mem (k_kmem (mc_kern s')))) s).
  { apply (up_begin (mc_kern s) mp0); try done. intros kpd kd l s' ? ? Hs. exists kpd, kd, l. by rewrite <- I1. }
  apply wp_bind_inv in W. apply wp_bind. eapply wp_mono; [exact W|]. clear W. intros [] s0 W. apply wp_bind. eapply wp_mono; [exact W|].
  clear W s0. intros _ s1 (kpd & kd & l & Hu & Hl & Hs). apply wp_bind. unfold wp at 1, mp_detect. rewrite (cu_mp _ _ _ _ _ _ _ _ Hu), (pf_mp _ _ _ Hpf _ Hs).
  set (s2 := set_devs _ s1). assert (Hu2 : coming_up (mc_kern s) mp (rev low_pages) kpd kd [] l s2) by (destruct Hu; by split). clearbody s2. clear s1 Hs Hu.
  apply (up_middle (mc_kern s) m mp0 mp Hpf (rev low_pages) kpd kd _ l); [done|done|lia|]. clear s2 Hu2. intros st l' s1 Hu Hsub.
  apply wp_bind. unfold onmem, onk, onkm, kinit2. wp_steps. pose proof Hend as He. unfold KERNLINK, KERNBASE, EXTMEM, PGSIZE in He.
  apply (held_freerange kend Hend' _ l' kpd kd st (rev low_pages) (P2V MB4) (P2V PHYSTOP)); fold high_pages.
  - apply Hu.
  - change (P2V MB4) with 0x80400000. lia.
  - done.
  - done.
  - intros v Hv. rewrite <- Permutation_rev. by apply high_low.
  - intros km Hh. wp_steps. cbn [mc_kern set_kern]. apply (held_lock _ _ _ _ _ _ true) in Hh. set (kb := set_kmem (set_use_lock km true) (mc_kern s1)).
    assert (Hkb : kb = set_kmem (set_use_lock km true) (binit_kern (mc_kern s))) by (unfold kb; rewrite (cu_kern _ _ _ _ _ _ _ _ Hu); by destruct (mc_kern s)).
    destruct (wp_run _ _ _ (userinit_boot kend Hend' kdata Hkd initcode kb (rev high_pages ++ l') kpd kd st (high_pages ++ rev low_pages) Hh
      ltac:(rewrite length_app, length_rev; pose proof high_count; lia) Hinit ltac:(by rewrite Hkb) ltac:(by rewrite Hkb)))
      as ([] & k' & E & l2 & pd & dir & v & ks & U1 & U2 & U3 & U4 & U5 & U6).
    eapply wp_intro; [exact E|]. rewrite Hkb in U4, U6. cbn [k_nextpid set_kmem binit_kern set_fs] in U4, U6. rewrite I6 in U4, U6.
    exists (high_pages ++ rev low_pages), l2, kd, pd, dir, v, ks, st. cbn [mc_kern set_kern mc_kpgdir]. rewrite (cu_kpgdir _ _ _ _ _ _ _ _ Hu).
    split_and!; try done.
    + exact page_parts.
    + unfold tab. rewrite U4, U6. apply first_proc_ok.
    + eapply userinit_ok; [|exact E]. by apply boot_files_ok; rewrite Hkb.
Qed.
End main.

(** ** A machine without multiprocessor tables *)

Lemma search_zero m e : (forall a, a < e -> m a = 0) -> forall fuel p, mpsearch_loop fuel m p e = None.
Proof.
  intros Hm fuel. induction fuel as [|fuel IH]; intros p; [done|]. cbn [mpsearch_loop]. destruct (Z.ltb_spec p e); [|done].
  rewrite bool_decide_eq_false_2; [apply IH|]. rewrite bytes_at_cons, Hm by done. discriminate.
Qed.

Definition ex_mp : mpstate := Mpstate (replicate 8 0) false 0 0 0 [].
Lemma ex_platform : platform_ok ex_end 0 1 0 (fun _ (_ : board) => true) (fun _ => 0) ex_mp ex_mp.
Proof.
  split; [by split; [|cbn; lia]| |done| |done].
  - intros m' Hm. assert (Hz : forall a, a < ex_end -> m' a = 0) by (intros a Ha; by rewrite Hm). unfold ex_end in Hz.
    assert (Hs : forall fuel p e, e <= 0x80100000 -> mpsearch_loop fuel m' p e = None) by (intros; apply search_zero; intros a Ha; apply Hz; lia).
    assert (E : mpsearch m' = None); [|unfold mpinit, mpconfig; by rewrite E].
    unfold mpsearch. change (P2V 0x400) with 0x80000400. rewrite !Hz by lia.
    change (negb (u32 (Z.shiftl (Z.lor (Z.shiftl 0 8) 0) 4) =? 0)) with false. cbn beta iota zeta. unfold mpsearch1. rewrite !Hs; [done| |]; vm_compute; discriminate.
  - intros s E. cbn [lapic_wait]. unfold lapicr. wp_steps. unfold wp, rd. rewrite E. exact E.
Qed.

Definition ex_machine : machine board :=
  Machine (Kern (Fs (log0 (Bio [] ∅ 0 [])) (SuperBlock 0 0 0 0 0 0 0) (replicate (Z.to_nat NINODE) inode0)) (replicate (Z.to_nat NFILE) file0) ∅
    (Kmem (fun _ => 0) false 0 0) (replicate (Z.to_nat NPROC) proc0) 0 None 1 0 [] 0)
    (Devs (Board (Irqhw (Pic [] 0 0 0 0) (Pic [] 0 0 0 0) 0 ∅) 0 0) 0xfffb 0 false ex_mp) 0.

Lemma main_boots_witness : wp (main ex_end 0x80108000 [0xeb; 0xfe] [0xeb; 0xfe] 0 0 0 1 0 (fun _ _ => true)) (fun _ s' =>
  exists pd ks, k_procs (mc_kern s') = first_proc pd ks 1 :: replicate 63 proc0 /\ pt_ok O (tab (mc_kern s')) /\ files_ok (mc_kern s')) ex_machine.
Proof.
  eapply wp_mono; [apply (main_boots ex_end 0x80108000 [0xeb; 0xfe] [0xeb; 0xfe] 0 0 0 1 0 (fun _ _ => true)) with (m := fun _ => 0) (mp0 := ex_mp) (mp := ex_mp)|].
  - vm_compute. split; [reflexivity|discriminate].
  - vm_compute. split; [reflexivity|split; reflexivity].
  - discriminate.
  - reflexivity.
  - exact ex_platform.
  - split; reflexivity.
  - intros [] s' (all & l & kd & pd & dir & v & ks & st & _ & _ & _ & _ & H1 & _ & H2 & H3). by exists pd, ks.
Defined.
