(* ===== verification/Grep.v ===== *)
(** * The pattern matcher and the line loop of grep (grep.c)

    Strings are lists of bytes; the end of the list stands for the NUL, so
    [re[1]] of a one-byte pattern is no byte at all.  The matcher is checked
    against a reading of the pattern as a regular expression, and the read
    loop against the list of lines of the input. *)

From S2P Require Import Prelude.

Definition CARET : Z := 94.
Definition STAR : Z := 42.
Definition DOLLAR : Z := 36.
Definition PERIOD : Z := 46.
Definition NEWLINE : Z := 10.

(** [matchstar], given the matcher of the rest of the pattern. *)
Fixpoint matchstar (rest : list Z -> bool) (c : Z) (text : list Z) : bool :=
  rest text ||
  match text with
  | [] => false
  | t :: text => ((t =? c) || (c =? PERIOD)) && matchstar rest c text
  end.

Fixpoint matchhere (re text : list Z) {struct re} : bool :=
  match re with
  | [] => true
  | c :: re1 =>
      match re1 with
      | d :: re2 =>
          if d =? STAR then matchstar (matchhere re2) c text
          else
            match text with
            | [] => false
            | t :: text => ((c =? PERIOD) || (c =? t)) && matchhere re1 text
            end
      | [] =>
          if c =? DOLLAR then (match text with [] => true | _ => false end)
          else
            match text with
            | [] => false
            | t :: text => ((c =? PERIOD) || (c =? t)) && matchhere re1 text
            end
      end
  end.

(** [do ... while( *text++ != 0)] *)
Fixpoint match_at (re text : list Z) : bool :=
  matchhere re text || match text with [] => false | _ :: text => match_at re text end.
Definition match_ (re text : list Z) : bool :=
  match re with
  | c :: re1 => if c =? CARET then matchhere re1 text else match_at re text
  | [] => match_at re text
  end.

(** ** The read loop *)

Definition BUFSZ : nat := 1024.

(** [strchr(p, '\n')]: what precedes the newline and what follows it; the
    search ends at a NUL. *)
Fixpoint cut_line (p : list Z) : option (list Z * list Z) :=
  match p with
  | [] => None
  | c :: p =>
      if c =? NEWLINE then Some ([], p)
      else if c =? 0 then None
      else match cut_line p with Some (l, r) => Some (c :: l, r) | None => None end
  end.

(** The inner loop: the output, and the bytes after the last line found; the
    number of bytes bounds the lines. *)
Fixpoint grep_lines (fuel : nat) (re p : list Z) : list Z * list Z :=
  match fuel with
  | O => ([], p)
  | S fuel =>
      match cut_line p with
      | None => ([], p)
      | Some (l, r) =>
          let (out, rest) := grep_lines fuel re r in
          ((if match_ re l then l ++ [NEWLINE] else []) ++ out, rest)
      end
  end.

(** The input arrives in pieces: a [read] for [n] bytes returns the first [n]
    bytes of the piece at hand and leaves the rest for the next one. *)
Definition read_piece (n : nat) (input : list (list Z)) : list Z * list (list Z) :=
  match input with
  | [] => ([], [])
  | c :: cs => (take n c, match drop n c with [] => cs | r => r :: cs end)
  end.

(** [grep]: [buf] are the [m] bytes kept from the read before. *)
Fixpoint grep_loop (fuel : nat) (re buf : list Z) (input : list (list Z)) : option (list Z) :=
  match fuel with
  | O => None
  | S fuel =>
      match read_piece (BUFSZ - length buf - 1) input with
      | ([], _) => Some []
      | (got, input) =>
          let p := buf ++ got in
          let (out, rest) := grep_lines (length p) re p in
          let buf := if decide (length rest = length p) then [] else rest in
          match grep_loop fuel re buf input with
          | Some out' => Some (out ++ out')
          | None => None
          end
      end
  end.
Definition grep (re : list Z) (input : list (list Z)) : option (list Z) :=
  grep_loop (S (length (concat input))) re [] input.

(** ** Patterns as regular expressions *)

(** One element of a pattern; [None] is the period. *)
Inductive item := One (c : option Z) | Many (c : option Z).
Definition char_of (c : Z) : option Z := if c =? PERIOD then None else Some c.
Definition accepts (c : option Z) (t : Z) : Prop := match c with None => True | Some c => t = c end.

Inductive lang : list item -> list Z -> Prop :=
| lang_nil : lang [] []
| lang_one c t its w : accepts c t -> lang its w -> lang (One c :: its) (t :: w)
| lang_many c v its w : Forall (accepts c) v -> lang its w -> lang (Many c :: its) (v ++ w).

(** The elements of a pattern and whether it ends in an anchor. *)
Fixpoint parse (re : list Z) : list item * bool :=
  match re with
  | [] => ([], false)
  | c :: re1 =>
      match re1 with
      | d :: re2 =>
          if d =? STAR then let (its, a) := parse re2 in (Many (char_of c) :: its, a)
          else let (its, a) := parse re1 in (One (char_of c) :: its, a)
      | [] => if c =? DOLLAR then ([], true) else ([One (char_of c)], false)
      end
  end.

(** The words a pattern describes: at the start of [text], up to its end if
    the pattern is anchored there. *)
Definition begins (re text : list Z) : Prop :=
  exists w post, text = w ++ post /\ lang (parse re).1 w /\ ((parse re).2 = true -> post = []).
Definition regex (re text : list Z) : Prop :=
  match re with
  | c :: re1 => if c =? CARET then begins re1 text else exists pre t, text = pre ++ t /\ begins re t
  | [] => exists pre t, text = pre ++ t /\ begins re t
  end.

Lemma accepts_char c t : accepts (char_of c) t <-> (c =? PERIOD) || (c =? t) = true.
Proof. unfold char_of, accepts. destruct (Z.eqb_spec c PERIOD), (Z.eqb_spec c t); cbn; naive_solver congruence. Qed.

Lemma matchstar_spec (rest : list Z -> bool) c text :
  matchstar rest c text = true <-> exists v t, text = v ++ t /\ Forall (accepts (char_of c)) v /\ rest t = true.
Proof.
  induction text as [|t text IH]; cbn [matchstar]; rewrite orb_true_iff.
  - split; [intros [Hr|]; [by exists [], [] | done]|].
    intros (v & t & E & _ & Hr). symmetry in E. apply app_eq_nil in E as [-> ->]. by left.
  - rewrite andb_true_iff, IH. split.
    + intros [Hr|[Ha (v & u & -> & Hv & Hu)]]; [by exists [], (t :: text)|].
      exists (t :: v), u. split_and!; [done | constructor; [|done] | done].
      apply accepts_char. rewrite orb_comm, Z.eqb_sym. by rewrite Z.eqb_sym, (Z.eqb_sym c t).
    + intros ([|x v] & u & E & Hv & Hu); cbn in E; [subst u; by left|]. injection E as <- ->.
      inversion_clear Hv as [|? ? Hx Hv']. right. split; [|eauto].
      apply accepts_char in Hx. by rewrite orb_comm, (Z.eqb_sym t c).
Qed.

(** [begins] of a pattern that starts with a single character. *)
Lemma begins_One c re its a text :
  parse re = (One (char_of c) :: its, a) ->
  (begins re text <-> match text with
                      | [] => False
                      | t :: u => (c =? PERIOD) || (c =? t) = true /\
                                  exists w post, u = w ++ post /\ lang its w /\ (a = true -> post = [])
                      end).
Proof.
  intros E. unfold begins. rewrite E. cbn. split.
  - intros (w & post & -> & Hl & Ha). inversion Hl as [|? t ? v Hc Hv|]; subst. cbn. rewrite <- accepts_char. eauto 10.
  - destruct text as [|t u]; [done|]. rewrite <- accepts_char. intros [Hc (w & post & -> & Hl & Ha)].
    exists (t :: w), post. split_and!; [done | by constructor | done].
Qed.

Lemma begins_Many c re re2 text :
  parse re = (Many (char_of c) :: (parse re2).1, (parse re2).2) ->
  (begins re text <-> exists v t, text = v ++ t /\ Forall (accepts (char_of c)) v /\ begins re2 t).
Proof.
  intros E. unfold begins. rewrite E. cbn. split.
  - intros (w & post & -> & Hl & Ha). inversion Hl as [| |? v ? u Hv Hu]; subst. exists v, (u ++ post).
    rewrite app_assoc. eauto 10.
  - intros (v & t & -> & Hv & w & post & -> & Hl & Ha). exists (v ++ w), post.
    rewrite app_assoc. split_and!; [done | by constructor | done].
Qed.

Lemma parse_One c d re : d <> STAR -> parse (c :: d :: re) = (One (char_of c) :: (parse (d :: re)).1, (parse (d :: re)).2).
Proof.
  intros Hd. change (parse (c :: d :: re)) with
    (if d =? STAR then let (its, a) := parse re in (Many (char_of c) :: its, a)
     else let (its, a) := parse (d :: re) in (One (char_of c) :: its, a)).
  rewrite (proj2 (Z.eqb_neq d STAR) Hd). by destruct (parse (d :: re)).
Qed.

Lemma matchhere_One c d re text : d <> STAR ->
  matchhere (c :: d :: re) text =
    match text with [] => false | t :: u => ((c =? PERIOD) || (c =? t)) && matchhere (d :: re) u end.
Proof. intros Hd. cbn [matchhere]. by rewrite (proj2 (Z.eqb_neq d STAR) Hd). Qed.

Lemma matchhere_spec re text : matchhere re text = true <-> begins re text.
Proof.
  revert text. induction re as [re IH] using (induction_ltof1 _ (@length Z)). unfold ltof in IH. intros text.
  destruct re as [|c re1].
  { cbn. split; [|done]. intros _. exists [], text. split_and!; [done | constructor | done]. }
  destruct re1 as [|d re2].
  - cbn [matchhere]. destruct (Z.eqb_spec c DOLLAR) as [->|Hd].
    + unfold begins. cbn. split.
      * destruct text; [|done]. intros _. exists [], []. repeat split; constructor.
      * intros (w & post & -> & Hl & Hp). rewrite (Hp eq_refl). by inversion Hl.
    + rewrite (begins_One c [c] [] false) by (cbn; by rewrite (proj2 (Z.eqb_neq c DOLLAR) Hd)).
      destruct text as [|t u]; [done|]. rewrite andb_true_iff. apply and_iff_compat_l. split; [|done].
      intros _. exists [], u. split_and!; [done | constructor | done].
  - destruct (Z.eqb_spec d STAR) as [->|Hs].
    + cbn [matchhere]. change (STAR =? STAR) with true. cbv iota. rewrite matchstar_spec, (begins_Many c _ re2) by (cbn; by destruct (parse re2)).
      setoid_rewrite (IH re2); [done | cbn; lia].
    + rewrite matchhere_One, (begins_One c _ _ _ _ (parse_One c d re2 Hs)) by done.
      destruct text as [|t u]; [done|]. rewrite andb_true_iff, IH by (cbn; lia). done.
Qed.

Lemma match_at_spec re text : match_at re text = true <-> exists pre t, text = pre ++ t /\ begins re t.
Proof.
  induction text as [|c text IH]; cbn [match_at]; rewrite orb_true_iff, matchhere_spec.
  - split; [intros [Hb|]; [by exists [], [] | done]|].
    intros (pre & t & E & Hb). symmetry in E. apply app_eq_nil in E as [-> ->]. by left.
  - rewrite IH. split.
    + intros [Hb|(pre & t & -> & Hb)]; [by exists [], (c :: text) | by exists (c :: pre), t].
    + intros ([|x pre] & t & E & Hb); cbn in E; [subst t; by left|]. injection E as <- ->. right. eauto.
Qed.

(** C31: [match] decides whether some part of the text, or its beginning for a
    pattern that starts with a caret, is a word of the regular expression the
    pattern denotes. *)
Theorem match_correct re text : match_ re text = true <-> regex re text.
Proof.
  unfold match_, regex. destruct re as [|c re]; [apply match_at_spec|].
  destruct (c =? CARET); [apply matchhere_spec | apply match_at_spec].
Qed.

(** ** Lines *)

Definition clean (l : list Z) : Prop := Forall (fun c => c <> NEWLINE /\ c <> 0) l.
Definition unlines (ls : list (list Z)) : list Z := concat ((fun l => l ++ [NEWLINE]) <$> ls).
Definition selected (re : list Z) (ls : list (list Z)) : list (list Z) := filter (fun l => match_ re l = true) ls.

Lemma unlines_app ls1 ls2 : unlines (ls1 ++ ls2) = unlines ls1 ++ unlines ls2.
Proof. unfold unlines. by rewrite fmap_app, concat_app. Qed.
Lemma unlines_cons l ls : unlines (l :: ls) = l ++ NEWLINE :: unlines ls.
Proof. unfold unlines. cbn. by rewrite <- app_assoc. Qed.

Lemma cut_line_None p : Forall (fun c => c <> 0) p -> cut_line p = None -> clean p.
Proof.
  unfold clean. induction p as [|c p IH]; cbn; [constructor|]. intros Hp. inversion_clear Hp as [|? ? Hc Hp'].
  destruct (Z.eqb_spec c NEWLINE); [done|]. destruct (Z.eqb_spec c 0); [done|]. destruct (cut_line p) as [[]|]; [done|]. constructor; auto.
Qed.
Lemma cut_line_Some p l r : cut_line p = Some (l, r) -> p = l ++ NEWLINE :: r /\ clean l.
Proof.
  unfold clean. revert l. induction p as [|c p IH]; cbn; [done|]. intros l. destruct (Z.eqb_spec c NEWLINE) as [->|Hn]; [intros [= <- <-]; by split|].
  destruct (Z.eqb_spec c 0) as [|Hz]; [done|]. destruct (cut_line p) as [[l' r']|]; [|done]. intros [= <- <-].
  destruct (IH l' eq_refl) as [-> Hl]. split; [done | by constructor].
Qed.

(** Two readings of a text as clean lines agree. *)
Lemma clean_prefix l l' r r' : clean l -> clean l' -> l ++ NEWLINE :: r = l' ++ NEWLINE :: r' -> l = l' /\ r = r'.
Proof.
  unfold clean. revert l'. induction l as [|c l IH]; intros [|c' l'] Hl Hl' E; simplify_eq/=; try done.
  - inversion_clear Hl' as [|? ? []]; done.
  - inversion_clear Hl as [|? ? []]; done.
  - inversion_clear Hl. inversion_clear Hl'. destruct (IH l') as [-> ->]; done.
Qed.
Lemma unlines_split ls1 ls x y : Forall clean ls1 -> Forall clean ls -> clean y -> unlines ls1 ++ x = unlines ls ++ y ->
  exists ls2, ls = ls1 ++ ls2 /\ x = unlines ls2 ++ y.
Proof.
  revert ls. induction ls1 as [|l1 ls1 IH]; intros ls H1 H2 Hy E; [by exists ls|].
  rewrite unlines_cons in E. inversion_clear H1 as [|? ? Hl1 Hls1]. destruct ls as [|l ls].
  - cbn in E. rewrite <- E in Hy. unfold clean in Hy. rewrite <- app_assoc, Forall_app in Hy. destruct Hy as [_ Hy].
    inversion_clear Hy as [|? ? []]; done.
  - rewrite unlines_cons in E. inversion_clear H2 as [|? ? Hl Hls]. rewrite <- !app_assoc in E. cbn in E.
    apply clean_prefix in E as [-> E]; [|done..]. destruct (IH ls Hls1 Hls Hy E) as (ls2 & -> & Ex). by exists ls2.
Qed.

Lemma selected_cons re l ls : unlines (selected re (l :: ls)) = (if match_ re l then l ++ [NEWLINE] else []) ++ unlines (selected re ls).
Proof.
  unfold selected. rewrite filter_cons. destruct (match_ re l); [rewrite decide_True by done | by rewrite decide_False].
  by rewrite unlines_cons, <- app_assoc.
Qed.

Lemma grep_lines_spec fuel re p : Forall (fun c => c <> 0) p -> (length p <= fuel)%nat ->
  exists ls rest, p = unlines ls ++ rest /\ Forall clean ls /\ clean rest /\
    grep_lines fuel re p = (unlines (selected re ls), rest).
Proof.
  revert p. induction fuel as [|fuel IH]; intros p Hp Hf.
  { exists [], p. destruct p; [|cbn in Hf; lia]. by repeat constructor. }
  cbn [grep_lines]. destruct (cut_line p) as [[l r]|] eqn:E.
  - apply cut_line_Some in E as [-> Hl]. rewrite length_app in Hf. cbn in Hf.
    apply Forall_app in Hp as [_ Hp]. inversion_clear Hp as [|? ? _ Hr].
    destruct (IH r Hr ltac:(lia)) as (ls & rest & -> & Hls & Hrest & ->).
    exists (l :: ls), rest. rewrite unlines_cons, selected_cons, <- app_assoc. by repeat constructor.
  - exists [], p. repeat split; [constructor | by apply cut_line_None].
Qed.

(** A piece the buffer has room for, with the end of a line in it. *)
Definition piece_ok (c : list Z) : Prop := (length c <= 511)%nat /\ NEWLINE ∈ c /\ Forall (fun x => x <> 0) c.

Lemma rest_short buf c ls rest : clean buf -> NEWLINE ∈ c -> clean rest -> buf ++ c = unlines ls ++ rest ->
  (length rest < length c)%nat.
Proof.
  intros Hb Hc Hr E. destruct (decide (length rest < length c)%nat) as [|Hn]; [done|]. exfalso.
  assert (c `suffix_of` rest) as [k ->].
  { exists (drop (length (unlines ls)) buf). assert (El := f_equal length E). rewrite !length_app in El.
    apply (f_equal (drop (length (unlines ls)))) in E. rewrite drop_app_length in E. by rewrite <- E, drop_app_le by lia. }
  unfold clean in Hr. rewrite Forall_app, !Forall_forall in Hr. destruct Hr as [_ Hr]. by destruct (Hr _ Hc).
Qed.

Lemma grep_loop_spec re input : Forall piece_ok input -> forall fuel buf ls tl,
  (length input < fuel)%nat -> clean buf -> (length buf <= 511)%nat -> Forall clean ls -> clean tl ->
  buf ++ concat input = unlines ls ++ tl -> grep_loop fuel re buf input = Some (unlines (selected re ls)).
Proof.
  induction 1 as [|c input (Hlen & Hnl & Hnz) _ IH]; intros [|fuel] buf ls tl Hf Hb Hbl Hls Htl E; cbn [length] in Hf; try lia.
  - cbn. rewrite app_nil_r in E. destruct (unlines_split [] ls buf tl) as (ls2 & -> & E2); [done..|].
    destruct ls2 as [|l ls2]; [done|]. exfalso. unfold clean in Hb. rewrite E2, unlines_cons, <- app_assoc, Forall_app in Hb.
    destruct Hb as [_ Hb]. inversion_clear Hb as [|? ? []]. done.
  - cbn [grep_loop read_piece]. unfold BUFSZ. rewrite take_ge, drop_ge by lia.
    destruct c as [|x c]; [by apply elem_of_nil in Hnl|]. set (cc := x :: c) in *.
    assert (Forall (fun x => x <> 0) (buf ++ cc)) as Hp.
    { apply Forall_app. split; [|done]. eapply Forall_impl; [exact Hb|]. by intros ? []. }
    destruct (grep_lines_spec (length (buf ++ cc)) re (buf ++ cc) Hp ltac:(lia)) as (ls1 & rest & Ep & Hls1 & Hrest & ->).
    pose proof (rest_short _ _ _ _ Hb Hnl Hrest Ep) as Hs. rewrite decide_False by (rewrite length_app; lia).
    cbn [concat] in E. fold cc in E. rewrite app_assoc, Ep, <- app_assoc in E.
    destruct (unlines_split _ _ _ _ Hls1 Hls Htl E) as (ls2 & -> & E2). apply Forall_app in Hls as [_ Hls2].
    rewrite (IH fuel rest ls2 tl ltac:(lia) Hrest ltac:(lia) Hls2 Htl E2).
    unfold selected. by rewrite filter_app, unlines_app.
Qed.

(** when every [read] returns the end of a line and at most half of the
    buffer, however the text is cut into reads, [grep] prints exactly the
    lines that match, in order; what follows the last newline is not a line. *)
Theorem grep_correct re input ls tl :
  Forall piece_ok input -> Forall clean ls -> clean tl -> concat input = unlines ls ++ tl ->
  grep re input = Some (unlines (selected re ls)).
Proof.
  intros Hi Hls Htl E. unfold grep. eapply grep_loop_spec; [done | | constructor | cbn; lia | done | done | exact E].
  apply le_n_S. clear E. induction Hi as [|c input (_ & Hn & _) _ IH]; [done|]. cbn. rewrite length_app.
  destruct c; [by apply elem_of_nil in Hn|]. cbn. lia.
Qed.

(** [ab] newline [b] | newline [c]: the second line spans two reads. *)
Lemma grep_correct_witness :
  grep [98] [[97; 98; 10; 98]; [10; 99; 10; 99]] = Some [97; 98; 10; 98; 10].
Proof.
  rewrite (grep_correct [98] _ [[97; 98]; [98]; [99]] [99]); [reflexivity | | | | reflexivity].
  - unfold piece_ok. repeat constructor; set_solver || done.
  - unfold clean. repeat constructor; done.
  - unfold clean. repeat constructor; done.
Defined.

Lemma grep_loop_drops fuel re a input : clean a -> (0 < length a <= 1023)%nat ->
  grep_loop (S fuel) re [] (a :: input) = grep_loop fuel re [] input.
Proof.
  intros Ha Hla. cbn [grep_loop read_piece]. cbn [length Nat.sub]. unfold BUFSZ.
  rewrite take_ge, drop_ge by (cbn; lia). destruct a as [|x a]; [cbn in Hla; lia|]. set (aa := x :: a) in *. cbn [app].
  assert (cut_line aa = None) as E.
  { destruct (cut_line aa) as [[l r]|] eqn:E; [|done]. apply cut_line_Some in E as [E _]. exfalso.
    unfold clean in Ha. rewrite E, Forall_app in Ha. destruct Ha as [_ Ha]. inversion_clear Ha as [|? ? []]. done. }
  assert (grep_lines (length aa) re aa = ([], aa)) as -> by (unfold aa at 1; cbn [length grep_lines]; by rewrite E).
  cbv zeta iota beta. rewrite decide_True by done. by destruct (grep_loop fuel re [] input).
Qed.

(** a read that brings no newline while nothing is kept is thrown away:
    the first bytes of a line that arrives in two reads are lost, and the line
    is judged, and printed, without them. *)
Theorem grep_loses_split_line re a b :
  clean a -> clean b -> (0 < length a <= 1023)%nat -> (length b <= 510)%nat ->
  grep re [a; b ++ [NEWLINE]] = Some (if match_ re b then b ++ [NEWLINE] else []).
Proof.
  intros Ha Hb Hla Hlb. unfold grep. rewrite grep_loop_drops by done.
  rewrite (grep_loop_spec re [b ++ [NEWLINE]]) with (ls := [b]) (tl := []); try by repeat constructor.
  - unfold selected. rewrite filter_cons. destruct (match_ re b); [rewrite decide_True by done | by rewrite decide_False by done].
    by rewrite filter_nil, unlines_cons.
  - constructor; [|constructor]. unfold piece_ok. rewrite length_app. cbn. split_and!; [lia | set_solver |].
    apply Forall_app. split; [|by repeat constructor]. eapply Forall_impl; [exact Hb|]. by intros ? [].
  - cbn [concat length]. rewrite !length_app. cbn [length]. lia.
  - cbn. by rewrite !app_nil_r.
Qed.

(** The line "ab" read as "a", then "b": the pattern [^b] matches. *)
Lemma grep_loses_split_line_witness : grep [CARET; 98] [[97]; [98; 10]] = Some [98; 10].
Proof.
  apply (grep_loses_split_line [CARET; 98] [97] [98]); [| | cbn; lia..]; unfold clean; repeat constructor; done.
Defined.
