(* ===== verification/Console.v ===== *)
(** * The console (console.c) and the keyboard (kbd.c)

    Output: the serial line, as the bytes sent, and the CGA screen, as an
    array of 25 rows of 80 cells with its cursor registers.  Input: the line
    editing of [consoleintr] over a circular buffer with the free-running
    counters [r], [w] and [e], and [consoleread].  The spin lock [cons.lock]
    makes a run up to a return or a sleep one step; the unlocking and
    relocking of the inode around it are left to the caller. *)

From S2P Require Import Prelude CString Ulib Pipe.
Import Kstring.

Definition INPUT_BUF : Z := 128.
Definition BACKSPACE : Z := 0x100.
Definition CTRL_D : Z := 4.
Definition CTRL_H : Z := 8.
Definition CTRL_P : Z := 16.
Definition CTRL_U : Z := 21.
Definition DEL : Z := 127.
Definition NL : Z := 10.
Definition CR : Z := 13.

Record console := Console {
  co_crt : list Z; co_pos : Z; co_uart : bool; co_sent : list Z; co_panicked : bool;
  in_buf : list Z; in_r : Z; in_w : Z; in_e : Z
}.
Definition set_screen (crt : list Z) (pos : Z) (s : console) : console :=
  Console crt pos (co_uart s) (co_sent s) (co_panicked s) (in_buf s) (in_r s) (in_w s) (in_e s).
Definition set_sent (bs : list Z) (s : console) : console :=
  Console (co_crt s) (co_pos s) (co_uart s) bs (co_panicked s) (in_buf s) (in_r s) (in_w s) (in_e s).
Definition set_input (b : list Z) (r w e : Z) (s : console) : console :=
  Console (co_crt s) (co_pos s) (co_uart s) (co_sent s) (co_panicked s) b r w e.

(** ** Output *)

(** [uartputc] (uart.c), without the wait for the transmitter. *)
Definition uartputc (c : Z) : M console unit :=
  modify (fun s => if co_uart s then set_sent (co_sent s ++ [u8 c]) s else s).

(** [crt[i] = v] *)
Definition crt_store (i v : Z) : M console unit := fun s =>
  if (0 <=? i) && (i <? Z.of_nat (length (co_crt s))) then Ret tt (set_screen (<[Z.to_nat i := v]> (co_crt s)) (co_pos s) s)
  else Undef "crt[]".
(** [memmove(crt, crt+80, sizeof(crt[0])*23*80)] and the [memset] after it. *)
Definition scroll (pos : Z) (crt : list Z) : list Z :=
  let crt := take (23 * 80) (drop 80 crt) ++ drop (23 * 80) crt in
  take (Z.to_nat pos) crt ++ replicate (Z.to_nat (24 * 80 - pos)) 0 ++ drop (24 * 80) crt.

Definition cgaputc (c : Z) : M console unit :=
  let! pos := gets co_pos in
  let! pos :=
    (if c =? NL then ret (pos + (80 - pos mod 80))
     else if c =? BACKSPACE then ret (if 0 <? pos then pos - 1 else pos)
     else crt_store pos (Z.lor (Z.land c 0xff) 0x0700) ;;; ret (pos + 1)) in
  if (pos <? 0) || (25 * 80 <? pos) then panic "pos under/overflow"
  else
    let! pos :=
      (if 24 <=? pos / 80 then
         modify (fun s => set_screen (scroll (pos - 80) (co_crt s)) (co_pos s) s) ;;; ret (pos - 80)
       else ret pos) in
    modify (fun s => set_screen (co_crt s) (u16 pos) s) ;;;
    crt_store pos (Z.lor 32 0x0700).

(** Once the machine has panicked, output spins forever. *)
Definition consputc (c : Z) : M console unit :=
  let! s := get in
  if co_panicked s then blocked "panicked"
  else
    (if c =? BACKSPACE then uartputc 8 ;;; uartputc 32 ;;; uartputc 8 else uartputc c) ;;;
    cgaputc c.

Fixpoint consputs (bs : list Z) : M console unit :=
  match bs with
  | [] => ret tt
  | b :: bs => consputc b ;;; consputs bs
  end.

Definition digit_lower (d : Z) : Z := if d <? 10 then 48 + d else 97 + (d - 10).
Definition cons_printint (xx base : Z) (sgn : bool) : M console unit :=
  let neg := sgn && (xx <? 0) in
  let x := u32 (if neg then - xx else xx) in
  let buf := Printf.digits_loop digit_lower 32 x base in
  consputs (rev (if neg then buf ++ [45] else buf)).

(** [argp] are the remaining argument words; [fuel] bounds the strings read
    from the memory [m]. *)
Fixpoint cprintf (fuel : nat) (m : mem) (fmt argp : list Z) {struct fmt} : M console unit :=
  match fmt with
  | [] => ret tt
  | c :: fmt =>
      if negb (c =? 37) then consputc c ;;; cprintf fuel m fmt argp
      else
        match fmt with
        | [] => ret tt
        | c :: fmt =>
            if c =? 100 then
              let! a := the "argp" (head argp) in
              cons_printint (i32 a) 10 true ;;; cprintf fuel m fmt (tail argp)
            else if (c =? 120) || (c =? 112) then
              let! a := the "argp" (head argp) in
              cons_printint (i32 a) 16 false ;;; cprintf fuel m fmt (tail argp)
            else if c =? 115 then
              let! a := the "argp" (head argp) in
              let! s := the "string" (if a =? 0 then Some Printf.null_text else Printf.read_cstr fuel m a) in
              consputs s ;;; cprintf fuel m fmt (tail argp)
            else if c =? 37 then consputc 37 ;;; cprintf fuel m fmt argp
            else consputc 37 ;;; consputc c ;;; cprintf fuel m fmt argp
        end
  end.

Definition consolewrite (buf : list Z) (n : Z) : M console Z :=
  consputs (take (Z.to_nat n) buf) ;;; ret n.

(** ** Input *)

(** [input.buf[i % INPUT_BUF]] *)
Definition in_at (s : console) (i : Z) : Z := nthZ (in_buf s) (i mod INPUT_BUF).

(** Control-U: [fuel] bounds the bytes between [w] and [e]. *)
Fixpoint kill_line (fuel : nat) : M console unit :=
  match fuel with
  | O => undef "kill line: fuel"
  | S fuel =>
      let! s := get in
      if (in_e s =? in_w s) || (in_at s (u32 (in_e s - 1)) =? NL) then ret tt
      else
        modify (fun s => set_input (in_buf s) (in_r s) (in_w s) (u32 (in_e s - 1)) s) ;;;
        consputc BACKSPACE ;;;
        kill_line fuel
  end.

(** One character of [consoleintr]; the result says whether readers are woken. *)
Definition consoleintr_key (c : Z) : M console bool :=
  let! s := get in
  if c =? CTRL_P then ret false
  else if c =? CTRL_U then kill_line (Z.to_nat (u32 (in_e s - in_w s) + 1)) ;;; ret false
  else if (c =? CTRL_H) || (c =? DEL) then
    if in_e s =? in_w s then ret false
    else
      modify (fun s => set_input (in_buf s) (in_r s) (in_w s) (u32 (in_e s - 1)) s) ;;;
      consputc BACKSPACE ;;;
      ret false
  else if (c =? 0) || (INPUT_BUF <=? u32 (in_e s - in_r s)) then ret false
  else
    let c := if c =? CR then NL else c in
    modify (fun s => set_input (<[Z.to_nat (in_e s mod INPUT_BUF) := u8 c]> (in_buf s)) (in_r s) (in_w s) (u32 (in_e s + 1)) s) ;;;
    consputc c ;;;
    let! s := get in
    if (c =? NL) || (c =? CTRL_D) || (in_e s =? u32 (in_r s + INPUT_BUF)) then
      modify (fun s => set_input (in_buf s) (in_r s) (in_e s) (in_e s) s) ;;;
      ret true
    else ret false.

(** [consoleintr] on the characters [getc] returns before it is negative:
    whether readers are woken, and whether [procdump] is to be called. *)
Fixpoint consoleintr (cs : list Z) : M console (bool * bool) :=
  match cs with
  | [] => ret (false, false)
  | c :: cs =>
      let! w := consoleintr_key c in
      let! (w', d) := consoleintr cs in
      ret (w || w', (c =? CTRL_P) || d)
  end.

(** How a run of [consoleread] ends: it returns, or sleeps on [&input.r] with
    [n] bytes still wanted.  [got] are the bytes stored at [dst]. *)
Inductive cresult := CDone (r : Z) (got : list Z) | CSleep (n : Z) (got : list Z).

(** The loop with [n] bytes to go of [target]. *)
Fixpoint consoleread_at (killed : bool) (target : Z) (n : nat) : M console cresult :=
  match n with
  | O => ret (CDone target [])
  | S n' =>
      let! s := get in
      if in_r s =? in_w s then
        ret (if killed then CDone (-1) [] else CSleep (Z.of_nat n) [])
      else
        let c := in_at s (in_r s) in
        if c =? CTRL_D then
          when (negb (Z.of_nat n <? target))
            (modify (fun s => set_input (in_buf s) (u32 (in_r s + 1)) (in_w s) (in_e s) s)) ;;;
          ret (CDone (target - Z.of_nat n) [])
        else
          modify (fun s => set_input (in_buf s) (u32 (in_r s + 1)) (in_w s) (in_e s) s) ;;;
          if c =? NL then ret (CDone (target - Z.of_nat n') [c])
          else
            let! r := consoleread_at killed target n' in
            ret (match r with CDone r got => CDone r (c :: got) | CSleep n got => CSleep n (c :: got) end)
  end.
Definition consoleread (killed : bool) (n : Z) : M console cresult :=
  if n <? 0 then ret (CDone 0 []) else consoleread_at killed n (Z.to_nat n).

(** ** The screen *)

Record screen_ok (s : console) : Prop := {
  so_crt : length (co_crt s) = 2000%nat;
  so_pos : 0 <= co_pos s < 24 * 80;
}.

Lemma crt_store_run i v s : 0 <= i < Z.of_nat (length (co_crt s)) ->
  crt_store i v s = Ret tt (set_screen (<[Z.to_nat i := v]> (co_crt s)) (co_pos s) s).
Proof. intros Hi. unfold crt_store. rewrite (proj2 (Z.leb_le _ _)), (proj2 (Z.ltb_lt _ _)) by lia. done. Qed.

Lemma length_scroll pos crt : length crt = 2000%nat -> 0 <= pos < 24 * 80 -> length (scroll pos crt) = 2000%nat.
Proof.
  intros Hl Hp. unfold scroll. rewrite !length_app, length_replicate, !length_take, !length_drop, !length_app, !length_take, !length_drop. lia.
Qed.

(** The last part of [cgaputc], for a position reached by one character. *)
Lemma cga_finish crt pos s : length crt = 2000%nat -> 0 <= pos <= 24 * 80 ->
  let pos' := if 24 <=? pos / 80 then pos - 80 else pos in
  let crt' := if 24 <=? pos / 80 then scroll (pos - 80) crt else crt in
  screen_ok (set_screen (<[Z.to_nat pos' := Z.lor 32 0x0700]> crt') (u16 pos') s).
Proof.
  intros Hl Hp. cbv zeta. pose proof (Z.div_mod pos 80 ltac:(lia)). pose proof (Z.mod_pos_bound pos 80 ltac:(lia)).
  destruct (Z.leb_spec 24 (pos / 80)); split; cbn; rewrite ?length_insert, ?u16_small by lia; try lia.
  by apply length_scroll; lia.
Qed.

(** From a cursor on the first 24 rows, [cgaputc] neither panics nor
    stores outside the screen, whatever the character; the cursor stays on
    these rows and the serial line and the input buffer are untouched. *)
Lemma cgaputc_run c s :
  screen_ok s -> exists crt pos, cgaputc c s = Ret tt (set_screen crt pos s) /\ screen_ok (set_screen crt pos s).
Proof.
  intros [Hl Hp]. unfold cgaputc. unfold bind at 1, gets at 1.
  assert (exists crt pos, (if c =? NL then ret (co_pos s + (80 - co_pos s mod 80))
     else if c =? BACKSPACE then ret (if 0 <? co_pos s then co_pos s - 1 else co_pos s)
     else crt_store (co_pos s) (Z.lor (Z.land c 0xff) 0x0700) ;;; ret (co_pos s + 1)) s = Ret pos (set_screen crt (co_pos s) s) /\
     length crt = 2000%nat /\ 0 <= pos <= 24 * 80) as (crt & pos & E & Hl' & Hp').
  { pose proof (Z.div_mod (co_pos s) 80 ltac:(lia)). pose proof (Z.mod_pos_bound (co_pos s) 80 ltac:(lia)).
    destruct (c =? NL); [|destruct (c =? BACKSPACE)].
    - exists (co_crt s). eexists. split; [by destruct s | split; [done | lia]].
    - exists (co_crt s). eexists. split; [by destruct s | split; [done |]]. destruct (Z.ltb_spec 0 (co_pos s)); lia.
    - eexists. eexists. unfold bind. rewrite crt_store_run by lia. split; [done|]. rewrite length_insert. lia. }
  rewrite (bind_Ret _ _ _ _ _ E). clear E. destruct (Z.ltb_spec pos 0), (Z.ltb_spec (25 * 80) pos); cbn [orb]; try lia.
  pose proof (cga_finish crt pos s Hl' Hp') as Hfin. cbv zeta in Hfin.
  pose proof (Z.div_mod pos 80 ltac:(lia)). pose proof (Z.mod_pos_bound pos 80 ltac:(lia)).
  destruct (Z.leb_spec 24 (pos / 80)); unfold bind, modify, ret; cbn.
  - rewrite crt_store_run by (cbn; rewrite length_scroll by lia; lia). eexists _, _. split; [reflexivity | exact Hfin].
  - rewrite crt_store_run by (cbn; lia). eexists _, _. split; [reflexivity | exact Hfin].
Qed.

Lemma consputc_run c s : screen_ok s -> co_panicked s = false ->
  exists s', consputc c s = Ret tt s' /\ screen_ok s' /\ co_panicked s' = false /\ co_uart s' = co_uart s /\
    co_sent s' = co_sent s ++ (if co_uart s then if c =? BACKSPACE then [8; 32; 8] else [u8 c] else []) /\
    in_buf s' = in_buf s /\ in_r s' = in_r s /\ in_w s' = in_w s /\ in_e s' = in_e s.
Proof.
  intros [Hl Hp] Hn. unfold consputc. unfold bind at 1, get at 1. rewrite Hn.
  assert (exists bs, (if c =? BACKSPACE then uartputc 8 ;;; uartputc 32 ;;; uartputc 8 else uartputc c) s = Ret tt (set_sent bs s) /\
    bs = co_sent s ++ (if co_uart s then if c =? BACKSPACE then [8; 32; 8] else [u8 c] else [])) as (bs & E & Ebs).
  { unfold bind, uartputc, modify. destruct (c =? BACKSPACE), s as [? ? [] ? ? ? ? ? ?]; cbn; eexists;
      rewrite ?app_nil_r, <- ?app_assoc; split; reflexivity. }
  rewrite (bind_Ret _ _ _ _ _ E). destruct (cgaputc_run c (set_sent bs s)) as (crt & pos & -> & Hs); [by split|].
  eexists. split; [reflexivity|]. by split_and!.
Qed.

Lemma consputs_run bs s : Forall (fun b => 0 <= b < 256) bs -> screen_ok s -> co_panicked s = false -> co_uart s = true ->
  exists s', consputs bs s = Ret tt s' /\ screen_ok s' /\ co_sent s' = co_sent s ++ bs.
Proof.
  intros Hb. revert s. induction Hb as [|b bs Hb _ IH]; intros s Hs Hn Hu; cbn [consputs].
  { exists s. by rewrite app_nil_r. }
  destruct (consputc_run b s Hs Hn) as (s1 & E & Hs1 & Hn1 & Hu1 & Hsent & _). rewrite (bind_Ret _ _ _ _ _ E).
  destruct (IH s1 Hs1 Hn1 ltac:(congruence)) as (s2 & E2 & Hs2 & Hsent2). exists s2. split_and!; [done..|].
  rewrite Hsent2, Hsent, Hu. destruct (Z.eqb_spec b BACKSPACE); [unfold BACKSPACE in *; lia|].
  rewrite u8_small by lia. by rewrite <- app_assoc.
Qed.

(** a write to the console sends exactly the bytes of the buffer over the
    serial line and returns their number; on the screen it neither panics nor
    stores outside the 25 rows, and leaves the cursor on the first 24. *)
Theorem consolewrite_correct buf n s :
  screen_ok s -> co_panicked s = false -> co_uart s = true ->
  0 <= n <= Z.of_nat (length buf) -> Forall (fun b => 0 <= b < 256) buf ->
  exists s', consolewrite buf n s = Ret n s' /\ screen_ok s' /\ co_sent s' = co_sent s ++ take (Z.to_nat n) buf.
Proof.
  intros Hs Hp Hu Hn Hb. unfold consolewrite.
  destruct (consputs_run (take (Z.to_nat n) buf) s (Forall_take _ _ _ Hb) Hs Hp Hu) as (s' & E & Hs' & Hsent).
  rewrite (bind_Ret _ _ _ _ _ E). by exists s'.
Qed.

(** ** The input queue *)

(** What the editor promises: lines ready to be read, and the line being
    typed. *)
Record tty := Tty { t_ready : list Z; t_line : list Z }.

Definition tty_key (c : Z) (t : tty) : bool * tty :=
  let '(Tty ready line) := t in
  if c =? CTRL_P then (false, t)
  else if c =? CTRL_U then (false, Tty ready [])
  else if (c =? CTRL_H) || (c =? DEL) then (false, Tty ready (take (pred (length line)) line))
  else if (c =? 0) || bool_decide (128 <= length ready + length line)%nat then (false, t)
  else
    let c := if c =? CR then NL else c in
    let line := line ++ [c] in
    if (c =? NL) || (c =? CTRL_D) || bool_decide (length ready + length line = 128)%nat
    then (true, Tty (ready ++ line) [])
    else (false, Tty ready line).

Fixpoint tty_read (killed : bool) (target : Z) (n : nat) (ready : list Z) : cresult * list Z :=
  match n, ready with
  | O, _ => (CDone target [], ready)
  | S _, [] => (if killed then CDone (-1) [] else CSleep (Z.of_nat n) [], [])
  | S n', c :: rest =>
      if c =? CTRL_D then (CDone (target - Z.of_nat n) [], if Z.of_nat n <? target then ready else rest)
      else if c =? NL then (CDone (target - Z.of_nat n') [c], rest)
      else
        let (r, rest) := tty_read killed target n' rest in
        (match r with CDone r got => CDone r (c :: got) | CSleep n got => CSleep n (c :: got) end, rest)
  end.

(** [n] bytes of the circular buffer from counter [a] on. *)
Definition ring (buf : list Z) (a : Z) (n : nat) : list Z :=
  (fun i => nthZ buf ((a + i) mod INPUT_BUF)) <$> seqZ 0 (Z.of_nat n).

Record tty_rel (s : console) (t : tty) : Prop := {
  tr_screen : screen_ok s;
  tr_live : co_panicked s = false;
  tr_len : length (in_buf s) = Z.to_nat INPUT_BUF;
  tr_r : 0 <= in_r s < 2 ^ 32;
  tr_w : in_w s = u32 (in_r s + Z.of_nat (length (t_ready t)));
  tr_e : in_e s = u32 (in_r s + Z.of_nat (length (t_ready t ++ t_line t)));
  tr_fit : (length (t_ready t ++ t_line t) <= 128)%nat;
  tr_ring : ring (in_buf s) (in_r s) (length (t_ready t ++ t_line t)) = t_ready t ++ t_line t;
}.
(** A newline ends the line being typed. *)
Definition line_ok (t : tty) : Prop := Forall (fun c => c <> NL) (t_line t).

Lemma u32_mod_buf a : u32 a mod INPUT_BUF = a mod INPUT_BUF.
Proof.
  rewrite <- (Z.mod_mod_divide (u32 a) PIPESIZE INPUT_BUF), u32_mod512 by (by exists 4).
  rewrite Z.mod_mod_divide by (by exists 4). done.
Qed.

Lemma length_ring buf a n : length (ring buf a n) = n.
Proof. unfold ring. rewrite length_fmap, length_seqZ. lia. Qed.
Lemma ring_elem buf a n i : (i < n)%nat -> ring buf a n !! i = Some (nthZ buf ((a + Z.of_nat i) mod INPUT_BUF)).
Proof. intros Hi. unfold ring. rewrite list_lookup_fmap, lookup_seqZ_lt by lia. done. Qed.
Lemma ring_end buf a n i : ~ (i < n)%nat -> ring buf a n !! i = None.
Proof. intros Hi. apply lookup_ge_None_2. rewrite length_ring. lia. Qed.
Lemma ring_u32 buf a n : ring buf (u32 a) n = ring buf a n.
Proof.
  unfold ring. apply list_fmap_ext. intros i x _. f_equal. rewrite <- Zplus_mod_idemp_l, u32_mod_buf. apply Zplus_mod_idemp_l.
Qed.
Lemma ring_cons buf a n : ring buf a (S n) = nthZ buf (a mod INPUT_BUF) :: ring buf (u32 (a + 1)) n.
Proof.
  rewrite ring_u32. apply list_eq. intros [|i].
  - rewrite ring_elem by lia. cbn. by rewrite Z.add_0_r.
  - cbn. destruct (decide (i < n)%nat).
    + rewrite !ring_elem by lia. do 3 f_equal. lia.
    + by rewrite !ring_end by lia.
Qed.
Lemma ring_snoc buf a n : ring buf a (S n) = ring buf a n ++ [nthZ buf ((a + Z.of_nat n) mod INPUT_BUF)].
Proof.
  unfold ring. replace (Z.of_nat (S n)) with (Z.of_nat n + 1) by lia.
  rewrite seqZ_app, fmap_app by lia. cbn. done.
Qed.
Lemma ring_store buf a n c : length buf = Z.to_nat INPUT_BUF -> (n < 128)%nat ->
  ring (<[Z.to_nat ((a + Z.of_nat n) mod INPUT_BUF) := c]> buf) a (S n) = ring buf a n ++ [c].
Proof.
  intros Hl Hn. pose proof (Z.mod_pos_bound (a + Z.of_nat n) INPUT_BUF ltac:(unfold INPUT_BUF; lia)) as Hm.
  rewrite ring_snoc, nthZ_insert, Z.eqb_refl by (rewrite ?Hl; lia). f_equal.
  apply list_eq. intros i. destruct (decide (i < n)%nat) as [Hi|Hi].
  - rewrite !ring_elem by lia. pose proof (Z.mod_pos_bound (a + Z.of_nat i) INPUT_BUF ltac:(unfold INPUT_BUF; lia)).
    rewrite nthZ_insert by (rewrite ?Hl; lia). destruct (Z.eqb_spec ((a + Z.of_nat n) mod INPUT_BUF) ((a + Z.of_nat i) mod INPUT_BUF)) as [E|]; [|done].
    exfalso. unfold INPUT_BUF in E. pose proof (Z.div_mod (a + Z.of_nat n) 128 ltac:(lia)). pose proof (Z.div_mod (a + Z.of_nat i) 128 ltac:(lia)). nia.
  - by rewrite !ring_end by lia.
Qed.

(** Counters [k] apart. *)
Lemma counters_eq r j k : (j <= k <= 128)%nat -> u32 (r + Z.of_nat k) = u32 (r + Z.of_nat j) <-> k = j.
Proof.
  intros Hk. split; [|by intros ->]. intros E. rewrite !(Z.add_comm r) in E. apply u32_add_inj in E; lia.
Qed.
Lemma counters_sub r k : (k <= 128)%nat -> u32 (u32 (r + Z.of_nat k) - r) = Z.of_nat k.
Proof. intros Hk. rewrite u32_sub_l, Z.add_simpl_l. apply u32_small. lia. Qed.

(** Output changes nothing of the input. *)
Lemma tty_consputc c s t : tty_rel s t -> exists s', consputc c s = Ret tt s' /\ tty_rel s' t.
Proof.
  intros [Hs Hp Hl Hr Hw He Hf Hg]. destruct (consputc_run c s Hs Hp) as (s' & E & Hs' & Hp' & _ & _ & Eb & Er & Ew & Ee).
  exists s'. split; [done|]. split; rewrite ?Eb, ?Er, ?Ew, ?Ee; done.
Qed.

(** One byte off the line. *)
Lemma tty_erase s ready l x : tty_rel s (Tty ready (l ++ [x])) ->
  tty_rel (set_input (in_buf s) (in_r s) (in_w s) (u32 (in_e s - 1)) s) (Tty ready l) /\
  in_e s <> in_w s /\ in_at s (u32 (in_e s - 1)) = x.
Proof.
  intros [Hs Hp Hl Hr Hw He Hf Hg]. cbn [t_ready t_line] in *. rewrite app_assoc in He, Hf, Hg.
  rewrite length_app in He, Hf, Hg. cbn [length] in He, Hf, Hg. rewrite Nat.add_1_r in He, Hf, Hg.
  assert (u32 (in_e s - 1) = u32 (in_r s + Z.of_nat (length (ready ++ l)))) as E by (rewrite He, u32_sub_l; f_equal; lia).
  rewrite ring_snoc in Hg. apply app_inj_tail in Hg as [Hg Hx]. split_and!.
  - split; cbn [t_ready t_line set_input in_buf in_r in_w in_e co_panicked]; try done; [by destruct Hs | lia].
  - rewrite He, Hw, counters_eq; rewrite ?length_app; rewrite length_app in Hf; lia.
  - unfold in_at. by rewrite E, u32_mod_buf.
Qed.

Lemma tty_empty_line s ready : tty_rel s (Tty ready []) -> in_e s = in_w s.
Proof. intros [Hs Hp Hl Hr Hw He Hf Hg]. cbn in *. rewrite app_nil_r in *. congruence. Qed.

Lemma kill_line_run ready line : forall fuel s, (length line < fuel)%nat -> Forall (fun c => c <> NL) line ->
  tty_rel s (Tty ready line) -> exists s', kill_line fuel s = Ret tt s' /\ tty_rel s' (Tty ready []).
Proof.
  induction line as [|x line IH] using rev_ind; intros [|fuel] s Hf Hn Hs; cbn in Hf; try lia; cbn [kill_line]; unfold bind at 1, get.
  - rewrite (tty_empty_line _ _ Hs), Z.eqb_refl. by exists s.
  - rewrite length_app in Hf. cbn in Hf. apply Forall_app in Hn as [Hn Hn'].
    inversion_clear Hn' as [|? ? Hx _]. destruct (tty_erase _ _ _ _ Hs) as (Hs1 & Hne & Hat).
    rewrite Hat, (proj2 (Z.eqb_neq _ _) Hne), (proj2 (Z.eqb_neq _ _) Hx). cbn [orb]. unfold bind at 1, modify.
    destruct (tty_consputc BACKSPACE _ _ Hs1) as (s2 & E & Hs2). rewrite (bind_Ret _ _ _ _ _ E). apply IH; [lia | done..].
Qed.

(** A byte put at the end of the line, and the line made ready. *)
Lemma tty_store c s ready line : tty_rel s (Tty ready line) -> (length (ready ++ line) < 128)%nat ->
  tty_rel (set_input (<[Z.to_nat (in_e s mod INPUT_BUF) := c]> (in_buf s)) (in_r s) (in_w s) (u32 (in_e s + 1)) s)
    (Tty ready (line ++ [c])).
Proof.
  intros [Hs Hp Hl Hr Hw He Hf Hg] Hlt. cbn [t_ready t_line] in *.
  assert (in_e s mod INPUT_BUF = (in_r s + Z.of_nat (length (ready ++ line))) mod INPUT_BUF) as Em by (rewrite He; apply u32_mod_buf).
  pose proof (ring_store (in_buf s) (in_r s) _ c Hl Hlt) as Hst. rewrite <- Em, Hg in Hst.
  assert (length (ready ++ line ++ [c]) = S (length (ready ++ line))) as El by (rewrite !length_app; cbn; lia).
  split; cbn [t_ready t_line set_input in_buf in_r in_w in_e co_panicked]; rewrite ?El, ?length_insert, ?app_assoc; try done.
  - by destruct Hs.
  - rewrite He, <- (Z.opp_involutive 1), Z.add_opp_r, u32_sub_l. f_equal. lia.
Qed.
Lemma tty_commit s ready line : tty_rel s (Tty ready line) ->
  tty_rel (set_input (in_buf s) (in_r s) (in_e s) (in_e s) s) (Tty (ready ++ line) []).
Proof.
  intros [Hs Hp Hl Hr Hw He Hf Hg]. split; cbn [t_ready t_line set_input in_buf in_r in_w in_e co_panicked] in *;
    rewrite ?app_nil_r; try done. by destruct Hs.
Qed.

Lemma in_full_run s ready line : tty_rel s (Tty ready line) ->
  (in_e s =? u32 (in_r s + INPUT_BUF)) = bool_decide (length ready + length line = 128)%nat.
Proof.
  intros [Hs Hp Hl Hr Hw He Hf Hg]. cbn [t_ready t_line] in *. rewrite He. change INPUT_BUF with (Z.of_nat 128).
  rewrite length_app in Hf. rewrite length_app. case_bool_decide as Ek; [rewrite Ek; apply Z.eqb_refl|].
  apply Z.eqb_neq. intros E. symmetry in E. apply counters_eq in E; lia.
Qed.

Lemma consoleintr_key_run c s t : 0 <= c < 256 -> line_ok t -> tty_rel s t ->
  exists s', consoleintr_key c s = Ret (tty_key c t).1 s' /\ tty_rel s' (tty_key c t).2.
Proof.
  intros Hc Hn Hs. destruct t as [ready line]. unfold consoleintr_key, tty_key. unfold bind at 1, get at 1.
  pose proof (tr_w _ _ Hs) as Hw. pose proof (tr_e _ _ Hs) as He. pose proof (tr_fit _ _ Hs) as Hf. cbn [t_ready t_line] in Hw, He, Hf.
  destruct (c =? CTRL_P); [by exists s|]. destruct (c =? CTRL_U).
  { destruct (kill_line_run ready line (Z.to_nat (u32 (in_e s - in_w s) + 1)) s) as (s' & E & Hs'); [|done|done|].
    - rewrite Hw, He, u32_sub_r, u32_sub_l, length_app. rewrite length_app in Hf. rewrite u32_small; lia.
    - rewrite (bind_Ret _ _ _ _ _ E). by exists s'. }
  destruct ((c =? CTRL_H) || (c =? DEL)).
  { destruct line as [|x line _] using rev_ind; [rewrite (tty_empty_line _ _ Hs), Z.eqb_refl; by exists s|].
    destruct (tty_erase _ _ _ _ Hs) as (Hs1 & Hne & _). rewrite (proj2 (Z.eqb_neq _ _) Hne). unfold bind at 1, modify.
    destruct (tty_consputc BACKSPACE _ _ Hs1) as (s2 & E & Hs2). rewrite (bind_Ret _ _ _ _ _ E). exists s2. split; [done|].
    rewrite length_app, Nat.add_1_r. cbn [pred]. by rewrite take_app_length. }
  destruct (c =? 0); [by exists s|]. cbn [orb]. rewrite He, counters_sub by done. rewrite length_app in Hf. rewrite length_app.
  destruct (Z.leb_spec INPUT_BUF (Z.of_nat (length ready + length line))) as [H1|H1]; unfold INPUT_BUF in H1.
  { rewrite bool_decide_true by lia. by exists s. }
  rewrite bool_decide_false by lia. cbv zeta. set (d := if c =? CR then NL else c).
  assert (u8 d = d) as -> by (unfold d, NL; destruct (c =? CR); apply u8_small; lia).
  unfold bind at 1, modify at 1. destruct (tty_consputc d _ _ (tty_store d s ready line Hs ltac:(rewrite length_app; lia))) as (s2 & E & Hs2).
  rewrite (bind_Ret _ _ _ _ _ E). unfold bind at 1, get. rewrite (in_full_run _ _ _ Hs2).
  destruct (_ || _ || _); eexists; (split; [reflexivity|]); [by apply tty_commit | done].
Qed.

Lemma tty_key_line c t : line_ok t -> line_ok (tty_key c t).2.
Proof.
  unfold line_ok. destruct t as [ready line]. cbn [t_line]. intros Hl. unfold tty_key.
  destruct (c =? CTRL_P); [done|]. destruct (c =? CTRL_U); [constructor|]. destruct (_ || _); [by apply Forall_take|].
  destruct (_ || _); [done|]. cbv zeta. set (d := if c =? CR then NL else c).
  destruct (Z.eqb_spec d NL) as [|Hd]; [constructor|]. destruct (_ || _); [constructor|]. apply Forall_app. by repeat constructor.
Qed.

(** ** Reading *)

(** A ready byte taken. *)
Lemma tty_take s c ready line : tty_rel s (Tty (c :: ready) line) ->
  tty_rel (set_input (in_buf s) (u32 (in_r s + 1)) (in_w s) (in_e s) s) (Tty ready line) /\
  in_r s <> in_w s /\ in_at s (in_r s) = c.
Proof.
  intros [Hs Hp Hl Hr Hw He Hf Hg]. cbn [t_ready t_line app length] in *. rewrite ring_cons in Hg. injection Hg as Hc Hg.
  assert (forall k : nat, u32 (in_r s + Z.of_nat (S k)) = u32 (u32 (in_r s + 1) + Z.of_nat k)) as Eu.
  { intros k. rewrite <- (Z.opp_involutive (Z.of_nat k)), Z.add_opp_r, u32_sub_l. f_equal. lia. }
  split_and!; [|rewrite Hw|done].
  - split; cbn [t_ready t_line set_input in_buf in_r in_w in_e co_panicked]; rewrite <- ?Eu; try done; [by destruct Hs | apply u32_range | lia].
  - rewrite length_app in Hf. rewrite <- (u32_small (in_r s)) at 1 by lia. rewrite <- (Z.add_0_r (in_r s)) at 1.
    intros E. symmetry in E. apply (counters_eq (in_r s) 0) in E; lia.
Qed.
Lemma tty_none s line : tty_rel s (Tty [] line) -> in_r s = in_w s.
Proof. intros [Hs Hp Hl Hr Hw He Hf Hg]. cbn in *. by rewrite Hw, Z.add_0_r, u32_small. Qed.

Lemma consoleread_at_run killed target n : forall s ready line, tty_rel s (Tty ready line) ->
  exists s', consoleread_at killed target n s = Ret (tty_read killed target n ready).1 s' /\
    tty_rel s' (Tty (tty_read killed target n ready).2 line).
Proof.
  induction n as [|n IH]; intros s ready line Hs; cbn [consoleread_at tty_read]; [by exists s|]. unfold bind at 1, get at 1.
  destruct ready as [|c ready]; [rewrite (tty_none _ _ Hs), Z.eqb_refl; by exists s|].
  destruct (tty_take _ _ _ _ Hs) as (Hs1 & Hne & Hat). rewrite (proj2 (Z.eqb_neq _ _) Hne). cbv zeta. rewrite Hat.
  destruct (c =? CTRL_D).
  { destruct (Z.of_nat (S n) <? target); cbn [negb when]; [by exists s | unfold bind, modify; by eexists]. }
  unfold bind at 1, modify. destruct (c =? NL); [by eexists|].
  destruct (IH _ _ _ Hs1) as (s2 & E & Hs2). rewrite (bind_Ret _ _ _ _ _ E). destruct (tty_read killed target n ready) as [r rest].
  by exists s2.
Qed.

Fixpoint tty_keys (cs : list Z) (t : tty) : (bool * bool) * tty :=
  match cs with
  | [] => ((false, false), t)
  | c :: cs =>
      let (w, t) := tty_key c t in
      let '((w', d), t) := tty_keys cs t in
      ((w || w', (c =? CTRL_P) || d), t)
  end.

Lemma consoleintr_run cs : Forall (fun c => 0 <= c < 256) cs -> forall s t, line_ok t -> tty_rel s t ->
  exists s', consoleintr cs s = Ret (tty_keys cs t).1 s' /\ tty_rel s' (tty_keys cs t).2 /\ line_ok (tty_keys cs t).2.
Proof.
  induction 1 as [|c cs Hc _ IH]; intros s t Hl Hs; cbn [consoleintr tty_keys]; [by exists s|].
  destruct (consoleintr_key_run c s t Hc Hl Hs) as (s1 & E & Hs1). rewrite (bind_Ret _ _ _ _ _ E).
  pose proof (tty_key_line c t Hl) as Hl1. destruct (tty_key c t) as [w t1]. cbn [fst snd] in *.
  destruct (IH s1 t1 Hl1 Hs1) as (s2 & E2 & Hs2 & Hl2). rewrite (bind_Ret _ _ _ _ _ E2).
  destruct (tty_keys cs t1) as [[w' d] t2]. by exists s2.
Qed.

Lemma consoleread_run killed n s ready line : 0 <= n -> tty_rel s (Tty ready line) ->
  exists s', consoleread killed n s = Ret (tty_read killed n (Z.to_nat n) ready).1 s' /\
    tty_rel s' (Tty (tty_read killed n (Z.to_nat n) ready).2 line).
Proof. intros Hn Hs. unfold consoleread. rewrite (proj2 (Z.ltb_ge _ _)) by lia. by apply consoleread_at_run. Qed.

(** A history of the console: interrupts that bring characters, and reads. *)
Inductive cevent := Typed (cs : list Z) | Read (killed : bool) (n : Z).
Inductive cout := Woke (b : bool * bool) | Got (r : cresult).
Definition cevent_ok (e : cevent) : Prop :=
  match e with Typed cs => Forall (fun c => 0 <= c < 256) cs | Read _ n => 0 <= n end.

Fixpoint console_run (es : list cevent) : M console (list cout) :=
  match es with
  | [] => ret []
  | e :: es =>
      let! o := match e with
                | Typed cs => let! b := consoleintr cs in ret (Woke b)
                | Read k n => let! r := consoleread k n in ret (Got r)
                end in
      let! os := console_run es in
      ret (o :: os)
  end.
Fixpoint tty_run (es : list cevent) (t : tty) : list cout * tty :=
  match es with
  | [] => ([], t)
  | e :: es =>
      let (o, t) := match e with
                    | Typed cs => let (b, t) := tty_keys cs t in (Woke b, t)
                    | Read k n => let (r, rest) := tty_read k n (Z.to_nat n) (t_ready t) in (Got r, Tty rest (t_line t))
                    end in
      let (os, t) := tty_run es t in
      (o :: os, t)
  end.

(** C30: over any history of typed characters and reads the console behaves as
    the two lists of [tty], the bytes ready and the line being typed: the same
    results, the same wakeups, no panic, and never a byte lost to the circular
    buffer or to a counter that wraps. *)
Theorem console_refines es : Forall cevent_ok es -> forall s t, line_ok t -> tty_rel s t ->
  exists s', console_run es s = Ret (tty_run es t).1 s' /\ tty_rel s' (tty_run es t).2.
Proof.
  induction 1 as [|e es He _ IH]; intros s t Hl Hs; cbn [console_run tty_run]; [by exists s|]. destruct e as [cs|k n]; cbn in He.
  - destruct (consoleintr_run cs He s t Hl Hs) as (s1 & E & Hs1 & Hl1). unfold bind at 1. rewrite (bind_Ret _ _ _ _ _ E).
    destruct (tty_keys cs t) as [b t1]. cbn [fst snd] in *. unfold ret at 1.
    destruct (IH s1 t1 Hl1 Hs1) as (s2 & E2 & Hs2). rewrite (bind_Ret _ _ _ _ _ E2). destruct (tty_run es t1). by exists s2.
  - destruct t as [ready line]. destruct (consoleread_run k n s ready line He Hs) as (s1 & E & Hs1). unfold bind at 1. rewrite (bind_Ret _ _ _ _ _ E).
    cbn [t_ready t_line]. destruct (tty_read k n (Z.to_nat n) ready) as [r rest]. cbn [fst snd] in *. unfold ret at 1.
    destruct (IH s1 (Tty rest line) Hl Hs1) as (s2 & E2 & Hs2). rewrite (bind_Ret _ _ _ _ _ E2). destruct (tty_run es (Tty rest line)). by exists s2.
Qed.

(** ** A console at rest, its counters about to wrap *)
Definition rest_console : console :=
  Console (replicate 2000 0) 0 true [] false (replicate 128 0) (2 ^ 32 - 1) (2 ^ 32 - 1) (2 ^ 32 - 1).
Lemma rest_rel : tty_rel rest_console (Tty [] []).
Proof. split; try done; cbn; lia. Qed.

Lemma consolewrite_correct_witness : exists s', consolewrite [104; 105; 10] 3 rest_console = Ret 3 s' /\ co_sent s' = [104; 105; 10].
Proof.
  destruct (consolewrite_correct [104; 105; 10] 3 rest_console) as (s' & E & _ & Hs);
    [by destruct rest_rel | done | done | cbn; lia | repeat constructor; lia | by exists s'].
Defined.

(** "hj", backspace, "i", return; then a read of 80 bytes gives "hi" and a
    newline. *)
Lemma console_refines_witness : exists s',
  console_run [Typed [104; 106; 8; 105; 13]; Read false 80] rest_console = Ret [Woke (true, false); Got (CDone 3 [104; 105; 10])] s' /\
  tty_rel s' (Tty [] []).
Proof.
  assert (Forall cevent_ok [Typed [104; 106; 8; 105; 13]; Read false 80]) as He.
  { repeat first [apply Forall_cons_2 | apply Forall_nil_2]; cbn; lia. }
  apply (console_refines _ He rest_console (Tty [] [])); [constructor | apply rest_rel].
Defined.
