(* ===== verification/Kbd.v ===== *)
(** * The keyboard driver (kbd.c, kbd.h)

    The scan-code tables and the state machine of [kbdgetc]: the modifier
    bits in [shift] and the translation of make and break codes.  The status
    and the data byte the controller returns are arguments. *)

From S2P Require Import Prelude CString Ulib Pipe Console.
Import Kstring.

Definition SHIFT : Z := 1.
Definition CTL : Z := 2.
Definition ALT : Z := 4.
Definition CAPSLOCK : Z := 8.
Definition NUMLOCK : Z := 16.
Definition SCROLLLOCK : Z := 32.
Definition E0ESC : Z := 64.
Definition KBS_DIB : Z := 1.

(** An array of 256 bytes from its first entries and its designated ones. *)
Definition table (pre : list Z) (ext : list (Z * Z)) : list Z :=
  foldl (fun t e => <[Z.to_nat e.1 := e.2]> t) (pre ++ replicate (256 - length pre) 0) ext.

Definition shiftcode : list Z := table
  []
  [(0x1D, 2); (0x2A, 1); (0x36, 1); (0x38, 4); (0x9D, 2); (0xB8, 4)].

Definition togglecode : list Z := table
  []
  [(0x3A, 8); (0x45, 16); (0x46, 32)].

Definition normalmap : list Z := table
  [0; 27; 49; 50; 51; 52; 53; 54;
   55; 56; 57; 48; 45; 61; 8; 9;
   113; 119; 101; 114; 116; 121; 117; 105;
   111; 112; 91; 93; 10; 0; 97; 115;
   100; 102; 103; 104; 106; 107; 108; 59;
   39; 96; 0; 92; 122; 120; 99; 118;
   98; 110; 109; 44; 46; 47; 0; 42;
   0; 32; 0; 0; 0; 0; 0; 0;
   0; 0; 0; 0; 0; 0; 0; 55;
   56; 57; 45; 52; 53; 54; 43; 49;
   50; 51; 48; 46; 0; 0; 0; 0]
  [(0x9C, 10); (0xB5, 47); (0xC8, 226); (0xD0, 227); (0xC9, 230); (0xD1, 231); (0xCB, 228); (0xCD, 229); (0x97, 224); (0xCF, 225); (0xD2, 232); (0xD3, 233)].

Definition shiftmap : list Z := table
  [0; 27; 33; 64; 35; 36; 37; 94;
   38; 42; 40; 41; 95; 43; 8; 9;
   81; 87; 69; 82; 84; 89; 85; 73;
   79; 80; 123; 125; 10; 0; 65; 83;
   68; 70; 71; 72; 74; 75; 76; 58;
   34; 126; 0; 124; 90; 88; 67; 86;
   66; 78; 77; 60; 62; 63; 0; 42;
   0; 32; 0; 0; 0; 0; 0; 0;
   0; 0; 0; 0; 0; 0; 0; 55;
   56; 57; 45; 52; 53; 54; 43; 49;
   50; 51; 48; 46; 0; 0; 0; 0]
  [(0x9C, 10); (0xB5, 47); (0xC8, 226); (0xD0, 227); (0xC9, 230); (0xD1, 231); (0xCB, 228); (0xCD, 229); (0x97, 224); (0xCF, 225); (0xD2, 232); (0xD3, 233)].

Definition ctlmap : list Z := table
  [0; 0; 0; 0; 0; 0; 0; 0;
   0; 0; 0; 0; 0; 0; 0; 0;
   17; 23; 5; 18; 20; 25; 21; 9;
   15; 16; 0; 0; 13; 0; 1; 19;
   4; 6; 7; 8; 10; 11; 12; 0;
   0; 0; 0; 28; 26; 24; 3; 22;
   2; 14; 13; 0; 0; 239; 0; 0]
  [(0x9C, 13); (0xB5, 239); (0xC8, 226); (0xD0, 227); (0xC9, 230); (0xD1, 231); (0xCB, 228); (0xCD, 229); (0x97, 224); (0xCF, 225); (0xD2, 232); (0xD3, 233)].

(** [t[i]]; an index past the array has no meaning. *)
Definition code_at (t : list Z) (i : Z) : M Z Z := the "scan code table" (t !! Z.to_nat i).

(** The state is [shift]; -1 when the controller has no data. *)
Definition kbdgetc (st data : Z) : M Z Z :=
  if Z.land st KBS_DIB =? 0 then ret (-1)
  else
    let! shift := get in
    if data =? 0xE0 then Prelude.put (Z.lor shift E0ESC) ;;; ret 0
    else if negb (Z.land data 0x80 =? 0) then
      let data := if Z.land shift E0ESC =? 0 then Z.land data 0x7F else data in
      let! k := code_at shiftcode data in
      Prelude.put (Z.land shift (Z.lnot (Z.lor k E0ESC))) ;;; ret 0
    else
      let (data, shift) :=
        if Z.land shift E0ESC =? 0 then (data, shift) else (Z.lor data 0x80, Z.land shift (Z.lnot E0ESC)) in
      let! k := code_at shiftcode data in
      let shift := Z.lor shift k in
      let! g := code_at togglecode data in
      let shift := Z.lxor shift g in
      Prelude.put shift ;;;
      let! m := the "charcode" ([normalmap; shiftmap; ctlmap; ctlmap] !! Z.to_nat (Z.land shift (Z.lor CTL SHIFT))) in
      let! c := code_at m data in
      ret (if Z.land shift CAPSLOCK =? 0 then c
           else if (97 <=? c) && (c <=? 122) then c + (65 - 97)
           else if (65 <=? c) && (c <=? 90) then c + (97 - 65)
           else c).

(** [kbdintr]: [consoleintr] on the characters [kbdgetc] makes of the bytes
    the controller holds. *)
Fixpoint kbd_chars (ds : list Z) : M Z (list Z) :=
  match ds with
  | [] => ret []
  | d :: ds => let! c := kbdgetc KBS_DIB d in let! cs := kbd_chars ds in ret (c :: cs)
  end.
Definition kbdintr (ds : list Z) : M (Z * console) (bool * bool) := fun s =>
  match kbd_chars ds s.1 with
  | Ret cs shift =>
      match consoleintr cs s.2 with
      | Ret r t => Ret r (shift, t)
      | Panic m => Panic m | Blocked c => Blocked c | Undef w => Undef w
      end
  | Panic m => Panic m | Blocked c => Blocked c | Undef w => Undef w
  end.

(** ** Every state and every byte *)

Definition kbd_step_ok (shift d : Z) : bool :=
  match kbdgetc KBS_DIB d shift with
  | Ret c shift' => (0 <=? c) && (c <? 256) && (0 <=? shift') && (shift' <? 128)
  | _ => false
  end.
Lemma kbd_step_all : forallb (fun s => forallb (kbd_step_ok s) (seqZ 0 256)) (seqZ 0 128) = true.
Proof. vm_compute. reflexivity. Qed.

Lemma forallb_seqZ (f : Z -> bool) n i : forallb f (seqZ 0 n) = true -> 0 <= i < n -> f i = true.
Proof. intros H Hi. rewrite forallb_forall in H. apply H. apply list_elem_of_In, elem_of_seqZ. lia. Qed.

Lemma kbd_chars_run ds : Forall (fun d => 0 <= d < 256) ds -> forall shift, 0 <= shift < 128 ->
  exists cs shift', kbd_chars ds shift = Ret cs shift' /\ 0 <= shift' < 128 /\ Forall (fun c => 0 <= c < 256) cs /\ length cs = length ds.
Proof.
  induction 1 as [|d ds Hd _ IH]; intros shift Hs; cbn [kbd_chars]; [by exists [], shift|].
  pose proof (forallb_seqZ _ _ d (forallb_seqZ _ _ shift kbd_step_all Hs) Hd) as Hk. unfold kbd_step_ok in Hk.
  destruct (kbdgetc KBS_DIB d shift) as [c shift'| | |] eqn:E; try done. rewrite (bind_Ret _ _ _ _ _ E).
  destruct (IH shift' ltac:(lia)) as (cs & s2 & E2 & Hs2 & Hcs & Hl). rewrite (bind_Ret _ _ _ _ _ E2).
  exists (c :: cs), s2. cbn. split_and!; [done | lia | lia | constructor; [lia | done] | lia].
Qed.

(** whatever bytes the keyboard sends, [kbdintr] stays inside the scan-code
    tables and moves the line editor by one character per byte, as the
    specification of the console says. *)
Theorem kbdintr_safe ds shift s t :
  Forall (fun d => 0 <= d < 256) ds -> 0 <= shift < 128 -> line_ok t -> tty_rel s t ->
  exists cs r shift' s', kbdintr ds (shift, s) = Ret r (shift', s') /\ 0 <= shift' < 128 /\
    kbd_chars ds shift = Ret cs shift' /\ length cs = length ds /\ r = (tty_keys cs t).1 /\ tty_rel s' (tty_keys cs t).2.
Proof.
  intros Hd Hs Hl Ht. destruct (kbd_chars_run ds Hd shift Hs) as (cs & shift' & E & Hs' & Hcs & Hlen).
  destruct (consoleintr_run cs Hcs s t Hl Ht) as (s' & E2 & Ht' & _).
  exists cs, (tty_keys cs t).1, shift', s'. unfold kbdintr. cbn [fst snd]. by rewrite E, E2.
Qed.

(** ** Letters *)

Definition lower (c : Z) : bool := (97 <=? c) && (c <=? 122).
Definition press (shift d : Z) : option Z := match kbdgetc KBS_DIB d shift with Ret c _ => Some c | _ => None end.
Definition letter_ok (d : Z) : bool :=
  let c := nthZ normalmap d in
  negb (lower c) ||
  (bool_decide (press 0 d = Some c) && bool_decide (press SHIFT d = Some (c - 32)) && bool_decide (press CAPSLOCK d = Some (c - 32)) &&
   bool_decide (press (Z.lor CAPSLOCK SHIFT) d = Some c) && bool_decide (press CTL d = Some (c - 96)) &&
   bool_decide (press (Z.lor CTL CAPSLOCK) d = Some (c - 96))).
Lemma letters_all : forallb letter_ok (seqZ 0 128) = true.
Proof. vm_compute. reflexivity. Qed.

(** for every letter key, shift and caps lock each give the capital and
    together the small letter, and control gives the control character,
    whether or not caps lock is on. *)
Theorem kbd_letters d c :
  0 <= d < 128 -> nthZ normalmap d = c -> lower c = true ->
  press 0 d = Some c /\ press SHIFT d = Some (c - 32) /\ press CAPSLOCK d = Some (c - 32) /\
  press (Z.lor CAPSLOCK SHIFT) d = Some c /\ press CTL d = Some (c - 96) /\ press (Z.lor CTL CAPSLOCK) d = Some (c - 96).
Proof.
  intros Hd <- Hl. pose proof (forallb_seqZ _ _ d letters_all Hd) as H. unfold letter_ok in H. rewrite Hl in H. cbn [negb orb] in H.
  rewrite !andb_true_iff, !bool_decide_eq_true in H. tauto.
Qed.

Lemma kbd_letters_witness : press CAPSLOCK 0x1E = Some 65.
Proof. apply (kbd_letters 0x1E 97); [lia | reflexivity | reflexivity]. Defined.

(** Shift down, A, shift up, return. *)
Lemma kbdintr_safe_witness : exists r shift' s', kbdintr [0x2A; 0x1E; 0xAA; 0x1C] (0, rest_console) = Ret r (shift', s') /\
  r = (true, false) /\ tty_rel s' (Tty [65; 10] []).
Proof.
  destruct (kbdintr_safe [0x2A; 0x1E; 0xAA; 0x1C] 0 rest_console (Tty [] [])) as (cs & r & shift' & s' & E & _ & Ecs & _ & Hr & Ht);
    [repeat first [apply Forall_cons_2 | apply Forall_nil_2]; lia | lia | constructor | apply rest_rel |].
  exists r, shift', s'. split; [done|]. vm_compute in Ecs. injection Ecs as <- _. by split.
Defined.
