(* ===== verification/Locks.v ===== *)
(** * Spin locks and sleep locks (spinlock.c, sleeplock.c)

    The nesting of [pushcli]/[popcli], the spin lock's [acquire] and
    [release] cut at their accesses to the shared word, and the sleep lock
    built on them, each run by any number of processors or threads in any
    interleaving.  The call stack recorded for debugging is left out. *)

From stdpp Require Import functions.
From S2P Require Import Prelude.

(** ** Interrupts of one processor *)

(** [FL_IF] of [%eflags], [cpu->ncli] and [cpu->intena]. *)
Record cpu := Cpu { c_if : bool; c_ncli : Z; c_intena : bool }.

Definition pushcli (c : cpu) : cpu :=
  Cpu false (c_ncli c + 1) (if c_ncli c =? 0 then c_if c else c_intena c).
Definition popcli : M cpu unit :=
  let! c := get in
  if c_if c then panic "popcli - interruptible"
  else if c_ncli c - 1 <? 0 then panic "popcli"
  else put (Cpu ((c_ncli c - 1 =? 0) && c_intena c) (c_ncli c - 1) (c_intena c)).

(** Properly nested calls: a [pushcli], calls nested in it, its [popcli], and
    the calls after it. *)
Inductive nest := Nil | Sec (inner rest : nest).
Fixpoint run_nest (n : nest) : M cpu unit :=
  match n with
  | Nil => ret tt
  | Sec inner rest => modify pushcli ;;; run_nest inner ;;; popcli ;;; run_nest rest
  end.

Definition cpu_ok (c : cpu) : Prop := 0 <= c_ncli c /\ (0 < c_ncli c -> c_if c = false).

Lemma pushcli_ok c : cpu_ok c -> cpu_ok (pushcli c).
Proof. intros [H0 Hif]. split; cbn; [lia | done]. Qed.

(** A [popcli] undoes the [pushcli] it matches. *)
Lemma popcli_pushcli c d : cpu_ok c -> c_if d = false -> c_ncli d = c_ncli (pushcli c) -> c_intena d = c_intena (pushcli c) ->
  exists c', popcli d = Ret tt c' /\ c_if c' = c_if c /\ c_ncli c' = c_ncli c /\ (0 < c_ncli c -> c_intena c' = c_intena c).
Proof.
  intros [H0 Hif] Ef En Ei. unfold popcli, bind, get, put. rewrite Ef, En, Ei. cbn [pushcli c_ncli c_intena]. rewrite Z.add_simpl_r.
  rewrite (proj2 (Z.ltb_ge _ _)) by lia. eexists. split; [reflexivity|]. cbn [c_if c_ncli c_intena].
  destruct (Z.eqb_spec (c_ncli c) 0) as [E|E]; cbn [andb]; split_and!; try done; try lia. symmetry. apply Hif. lia.
Qed.

(** properly nested [pushcli]/[popcli] never panic and leave interrupts
    and the nesting depth exactly as they were; inside, interrupts are off. *)
Theorem pushcli_nests n c : cpu_ok c ->
  exists c', run_nest n c = Ret tt c' /\ c_if c' = c_if c /\ c_ncli c' = c_ncli c /\ (0 < c_ncli c -> c_intena c' = c_intena c).
Proof.
  revert c. induction n as [|inner IHi rest IHr]; intros c Hc; cbn [run_nest]; [by exists c|].
  unfold bind at 1, modify. destruct (IHi (pushcli c) (pushcli_ok c Hc)) as (d & E & Ef & En & Ei). rewrite (bind_Ret _ _ _ _ _ E).
  destruct (popcli_pushcli c d Hc Ef En (Ei ltac:(destruct Hc; cbn; lia))) as (c1 & E1 & Ef1 & En1 & Ei1). rewrite (bind_Ret _ _ _ _ _ E1).
  destruct (IHr c1) as (c2 & E2 & Ef2 & En2 & Ei2); [unfold cpu_ok; rewrite En1, Ef1; exact Hc|].
  exists c2. split_and!; [done | congruence | congruence |]. intros H. rewrite Ei2, Ei1 by congruence. done.
Qed.
Lemma pushcli_nests_witness : exists c', run_nest (Sec (Sec Nil Nil) (Sec Nil Nil)) (Cpu true 0 false) = Ret tt c' /\ c_if c' = true.
Proof.
  destruct (pushcli_nests (Sec (Sec Nil Nil) (Sec Nil Nil)) (Cpu true 0 false)) as (c' & E & H & _); [split; cbn; lia | by exists c'].
Defined.

(** ** Spin locks *)

(** [lk->locked] and [lk->cpu]. *)
Record spinlock := Spinlock { lk_locked : bool; lk_cpu : option nat }.
Definition initlock : spinlock := Spinlock false None.
Definition holding (lk : spinlock) (i : nat) : bool := lk_locked lk && bool_decide (lk_cpu lk = Some i).

(** Where a processor is: outside, in the loop of [acquire], between the
    successful [xchg] and [lk->cpu = cpu], or between [lk->cpu = 0] and the
    store that frees the lock in [release]. *)
Inductive phase := Outside | Spinning (l : nat) | Won (l : nat) | Leaving (l : nat).

(** [m_held] is a ghost field: the locks a processor has acquired and not yet
    released; [m_extra] its [pushcli] calls outside any lock operation. *)
Record proc_state := ProcState { m_cpu : cpu; m_phase : phase; m_held : list nat; m_extra : nat }.
Record machine := Machine { mm_procs : nat -> proc_state; mm_locks : nat -> spinlock }.

Definition setp (i : nat) (p : proc_state) (m : machine) : machine := Machine (<[i := p]> (mm_procs m)) (mm_locks m).
Definition setl (l : nat) (k : spinlock) (m : machine) : machine := Machine (mm_procs m) (<[l := k]> (mm_locks m)).

(** [acquire] up to its loop: [pushcli]; the check for a lock already held is
    a guard of the step. *)
Definition acquire_enter (i l : nat) (m : machine) : machine :=
  let p := mm_procs m i in setp i (ProcState (pushcli (m_cpu p)) (Spinning l) (m_held p) (m_extra p)) m.
(** One [xchg(&lk->locked, 1)]. *)
Definition acquire_xchg (i l : nat) (m : machine) : machine :=
  let p := mm_procs m i in
  setl l (Spinlock true (lk_cpu (mm_locks m l)))
    (setp i (ProcState (m_cpu p) (if lk_locked (mm_locks m l) then Spinning l else Won l) (m_held p) (m_extra p)) m).
(** [lk->cpu = cpu] *)
Definition acquire_own (i l : nat) (m : machine) : machine :=
  let p := mm_procs m i in
  setl l (Spinlock (lk_locked (mm_locks m l)) (Some i)) (setp i (ProcState (m_cpu p) Outside (l :: m_held p) (m_extra p)) m).
(** [release] up to [lk->cpu = 0]. *)
Definition release_clear (i l : nat) (m : machine) : machine :=
  let p := mm_procs m i in
  setl l (Spinlock (lk_locked (mm_locks m l)) None)
    (setp i (ProcState (m_cpu p) (Leaving l) (filter (fun k => k <> l) (m_held p)) (m_extra p)) m).
(** The store that frees the lock, and [popcli], which leaves the processor in
    the state [c]. *)
Definition release_free (i l : nat) (c : cpu) (m : machine) : machine :=
  let p := mm_procs m i in
  setl l (Spinlock false (lk_cpu (mm_locks m l))) (setp i (ProcState c Outside (m_held p) (m_extra p)) m).

(** One step of processor [i].  A call that panics stops the machine and is
    not a step. *)
Inductive mstep (m : machine) : machine -> Prop :=
| ms_acquire i l :
    m_phase (mm_procs m i) = Outside -> holding (mm_locks m l) i = false -> mstep m (acquire_enter i l m)
| ms_xchg i l : m_phase (mm_procs m i) = Spinning l -> mstep m (acquire_xchg i l m)
| ms_own i l : m_phase (mm_procs m i) = Won l -> mstep m (acquire_own i l m)
| ms_release i l :
    m_phase (mm_procs m i) = Outside -> holding (mm_locks m l) i = true -> mstep m (release_clear i l m)
| ms_free i l c :
    m_phase (mm_procs m i) = Leaving l -> popcli (m_cpu (mm_procs m i)) = Ret tt c -> mstep m (release_free i l c m)
| ms_pushcli i : let p := mm_procs m i in
    m_phase p = Outside -> mstep m (setp i (ProcState (pushcli (m_cpu p)) Outside (m_held p) (S (m_extra p))) m)
| ms_popcli i n c : let p := mm_procs m i in
    m_phase p = Outside -> m_extra p = S n -> popcli (m_cpu p) = Ret tt c ->
    mstep m (setp i (ProcState c Outside (m_held p) n) m)
| ms_sti i : let p := mm_procs m i in
    m_phase p = Outside -> c_ncli (m_cpu p) = 0 ->
    mstep m (setp i (ProcState (Cpu true 0 (c_intena (m_cpu p))) Outside (m_held p) (m_extra p)) m).

(** Processor [i] is past the [xchg] for lock [l] and has not freed it. *)
Definition busy (m : machine) (i l : nat) : Prop :=
  l ∈ m_held (mm_procs m i) \/ m_phase (mm_procs m i) = Won l \/ m_phase (mm_procs m i) = Leaving l.

Record locks_inv (m : machine) : Prop := {
  li_one : forall i j l, busy m i l -> busy m j l -> i = j;
  li_locked : forall i l, busy m i l -> lk_locked (mm_locks m l) = true;
  li_cpu : forall i l, l ∈ m_held (mm_procs m i) <-> lk_cpu (mm_locks m l) = Some i;
  li_nodup : forall i, NoDup (m_held (mm_procs m i));
  li_out : forall i l, m_phase (mm_procs m i) = Won l \/ m_phase (mm_procs m i) = Leaving l -> l ∉ m_held (mm_procs m i);
}.
(** Interrupts stay off while a lock is held or waited for. *)
Definition depth (p : proc_state) : nat :=
  (length (m_held p) + m_extra p + match m_phase p with Outside => 0 | _ => 1 end)%nat.
Definition cli_inv (m : machine) : Prop :=
  forall i, c_ncli (m_cpu (mm_procs m i)) = Z.of_nat (depth (mm_procs m i)) /\ cpu_ok (m_cpu (mm_procs m i)).

(** Splits on which processor and which lock an update concerns. *)
Ltac upd_cases :=
  repeat match goal with
  | H : context [<[?i := _]> _ ?j] |- _ =>
      let N := fresh "N" in
      destruct (decide (i = j)) as [?|N]; [subst; rewrite fn_lookup_insert in H | rewrite (fn_lookup_insert_ne _ _ _ _ N) in H]; cbn in H
  | |- context [<[?i := _]> _ ?j] =>
      let N := fresh "N" in
      destruct (decide (i = j)) as [?|N]; [subst; rewrite fn_lookup_insert | rewrite (fn_lookup_insert_ne _ _ _ _ N)]; cbn
  end.

Lemma holding_held m i l : locks_inv m -> holding (mm_locks m l) i = true -> l ∈ m_held (mm_procs m i).
Proof. intros Hm H. unfold holding in H. apply andb_true_iff in H as [_ H]. apply bool_decide_eq_true in H. by apply (li_cpu _ Hm). Qed.

(** A processor changes nothing but its interrupt state. *)
Lemma locks_inv_cpu m i p : locks_inv m -> m_held p = m_held (mm_procs m i) ->
  (forall l, m_phase p = Won l \/ m_phase p = Leaving l <-> m_phase (mm_procs m i) = Won l \/ m_phase (mm_procs m i) = Leaving l) ->
  locks_inv (setp i p m).
Proof.
  intros Hm Hh Hp. assert (forall j l, busy (setp i p m) j l <-> busy m j l) as Hb.
  { intros j l. unfold busy. cbn. upd_cases; [rewrite Hh, Hp|]; done. }
  destruct Hm as [H1 H2 H3 H4 H5]. split.
  - intros j k l. rewrite !Hb. apply H1.
  - intros j l. rewrite Hb. apply H2.
  - intros j l. cbn. upd_cases; rewrite ?Hh; apply H3.
  - intros j. cbn. upd_cases; rewrite ?Hh; apply H4.
  - intros j l. cbn. upd_cases; rewrite ?Hh, ?Hp; apply H5.
Qed.

Lemma xchg_inv m i l : locks_inv m -> m_phase (mm_procs m i) = Spinning l ->
  locks_inv (acquire_xchg i l m).
Proof.
  intros Hm Hp. assert (Hfree : lk_locked (mm_locks m l) = false -> forall j, ~ busy m j l).
  { intros Hl j Hb. apply (li_locked _ Hm) in Hb. congruence. }
  assert (Hnew : forall j k, busy (acquire_xchg i l m) j k -> busy m j k \/ (j = i /\ k = l /\ lk_locked (mm_locks m l) = false)).
  { intros j k. unfold busy. cbn. upd_cases; [|tauto]. destruct (lk_locked (mm_locks m l)); naive_solver. }
  destruct Hm as [H1 H2 H3 H4 H5]. split.
  - intros j k x Hj Hk. apply Hnew in Hj, Hk. naive_solver.
  - intros j x Hj. apply Hnew in Hj. cbn. upd_cases; naive_solver.
  - intros j x. cbn. upd_cases; apply H3.
  - intros j. cbn. upd_cases; apply H4.
  - intros j x. cbn. upd_cases; [|apply H5]. destruct (lk_locked (mm_locks m l)) eqn:El; [naive_solver|].
    intros [[= ->]|?] Hin; [|done]. apply (Hfree eq_refl j). by left.
Qed.

(** No processor holds a lock that one is about to own or to free. *)
Lemma passing_not_held m i j l : locks_inv m -> m_phase (mm_procs m i) = Won l \/ m_phase (mm_procs m i) = Leaving l ->
  l ∉ m_held (mm_procs m j).
Proof.
  intros Hm Hp Hin. assert (i = j) as -> by (apply (li_one _ Hm i j l); unfold busy; tauto). by apply (li_out _ Hm j l).
Qed.

Lemma own_inv m i l : locks_inv m -> m_phase (mm_procs m i) = Won l ->
  locks_inv (acquire_own i l m).
Proof.
  intros Hm Hp. pose proof (fun j => passing_not_held m i j l Hm (or_introl Hp)) as Hno.
  assert (Hb : forall j k, busy (acquire_own i l m) j k -> busy m j k).
  { intros j k. unfold busy. cbn. upd_cases; [|done]. rewrite elem_of_cons. naive_solver. }
  destruct Hm as [H1 H2 H3 H4 H5]. split.
  - intros j k x Hj Hk. eauto.
  - intros j x Hj. apply Hb, H2 in Hj. cbn. upd_cases; done.
  - intros j x. cbn. upd_cases; rewrite ?elem_of_cons, ?H3; naive_solver.
  - intros j. cbn. upd_cases; [|done]. by constructor.
  - intros j x. cbn. upd_cases; [naive_solver | apply H5].
Qed.

Lemma release_inv m i l : locks_inv m -> m_phase (mm_procs m i) = Outside -> l ∈ m_held (mm_procs m i) ->
  locks_inv (release_clear i l m).
Proof.
  intros Hm Hp Hin.
  assert (Hb : forall j k, busy (release_clear i l m) j k -> busy m j k).
  { intros j k. unfold busy. cbn. upd_cases; [|done]. rewrite list_elem_of_filter. naive_solver. }
  destruct Hm as [H1 H2 H3 H4 H5]. split.
  - intros j k x Hj Hk. eauto.
  - intros j x Hj. apply Hb, H2 in Hj. cbn. upd_cases; done.
  - intros j x. cbn. upd_cases; rewrite ?list_elem_of_filter, ?H3; naive_solver.
  - intros j. cbn. upd_cases; [|done]. by apply NoDup_filter.
  - intros j x. cbn. upd_cases; [|apply H5]. rewrite list_elem_of_filter. naive_solver.
Qed.

Lemma free_inv m i l c : locks_inv m -> m_phase (mm_procs m i) = Leaving l ->
  locks_inv (release_free i l c m).
Proof.
  intros Hm Hp. pose proof (fun j => passing_not_held m i j l Hm (or_intror Hp)) as Hno.
  assert (Hb : forall j k, busy (release_free i l c m) j k -> busy m j k /\ k <> l).
  { intros j k. unfold busy. cbn. upd_cases; [naive_solver|]. intros Hj. split; [done|]. intros ->.
    apply N. apply (li_one _ Hm i j l); unfold busy; tauto. }
  destruct Hm as [H1 H2 H3 H4 H5]. split.
  - intros j k x Hj Hk. apply Hb in Hj, Hk. naive_solver.
  - intros j x Hj. apply Hb in Hj as [Hj Hx]. apply H2 in Hj. cbn. upd_cases; done.
  - intros j x. cbn. upd_cases; apply H3.
  - intros j. cbn. upd_cases; apply H4.
  - intros j x. cbn. upd_cases; [naive_solver | apply H5].
Qed.

Lemma mstep_locks m m' : mstep m m' -> locks_inv m -> locks_inv m'.
Proof.
  intros Hs Hm. destruct Hs as [i l Hp _|i l Hp|i l Hp|i l Hp Hh|i l c Hp _|i p Hp|i n c p Hp _ _|i p Hp _]; try subst p.
  - apply locks_inv_cpu; [done..|]. cbn. rewrite Hp. naive_solver.
  - by apply xchg_inv.
  - by apply own_inv.
  - apply release_inv; [done..|]. by apply holding_held.
  - by apply free_inv.
  - apply locks_inv_cpu; [done..|]. cbn. rewrite Hp. naive_solver.
  - apply locks_inv_cpu; [done..|]. cbn. rewrite Hp. naive_solver.
  - apply locks_inv_cpu; [done..|]. cbn. rewrite Hp. naive_solver.
Qed.

Lemma length_remove (l : list nat) x : NoDup l -> x ∈ l -> S (length (filter (fun k => k <> x) l)) = length l.
Proof.
  induction 1 as [|y l Hy Hl IH]; intros Hx; [by apply elem_of_nil in Hx|]. rewrite filter_cons. cbn [length].
  destruct (decide (y <> x)) as [Hn|Hn]; [cbn [length]; f_equal; apply IH; set_solver|].
  apply dec_stable in Hn as ->. f_equal. clear IH Hx. induction Hl as [|z l Hz Hl IH]; [done|].
  rewrite filter_cons, decide_True by set_solver. cbn. f_equal. apply IH. set_solver.
Qed.

Lemma popcli_inv c c' : popcli c = Ret tt c' -> cpu_ok c -> c_ncli c' = c_ncli c - 1 /\ cpu_ok c'.
Proof.
  unfold popcli, bind, get, panic, put. destruct (c_if c); [done|]. destruct (Z.ltb_spec (c_ncli c - 1) 0) as [|Hn]; [done|].
  intros [= <-] _. split; [done|]. split; cbn; [lia|]. intros Hp. by rewrite (proj2 (Z.eqb_neq _ _)) by lia.
Qed.

Lemma mstep_cli m m' : mstep m m' -> locks_inv m -> cli_inv m -> cli_inv m'.
Proof.
  unfold cli_inv, depth. intros Hs Hm Hc j.
  destruct Hs as [i l Hp _|i l Hp|i l Hp|i l Hp Hh|i l c Hp E|i p Hp|i n c p Hp En E|i p Hp E]; try subst p; cbn; upd_cases;
    try apply Hc; specialize (Hc j) as [Hn Hok]; rewrite Hp in Hn; cbn in Hn.
  - split; [lia | by apply pushcli_ok].
  - split; [|done]. destruct (lk_locked _); lia.
  - split; [lia | done].
  - split; [|done]. pose proof (length_remove _ _ (li_nodup _ Hm j) (holding_held _ _ _ Hm Hh)). lia.
  - destruct (popcli_inv _ _ E Hok) as [E1 E2]. split; [lia | done].
  - split; [lia | by apply pushcli_ok].
  - destruct (popcli_inv _ _ E Hok) as [E1 E2]. split; [lia | done].
  - split; [lia|]. split; cbn; lia.
Qed.

Definition machine_init (m : machine) : Prop :=
  (forall l, mm_locks m l = initlock) /\
  (forall i, m_phase (mm_procs m i) = Outside /\ m_held (mm_procs m i) = [] /\ m_extra (mm_procs m i) = O /\ c_ncli (m_cpu (mm_procs m i)) = 0).

Lemma machine_init_inv m : machine_init m -> locks_inv m /\ cli_inv m.
Proof.
  intros [Hl Hp]. assert (forall i l, ~ busy m i l) as Hb.
  { intros i l. unfold busy. destruct (Hp i) as (-> & -> & _). rewrite elem_of_nil. naive_solver. }
  split; [split|].
  - intros i j l Hi. by apply Hb in Hi.
  - intros i l Hi. by apply Hb in Hi.
  - intros i l. destruct (Hp i) as (_ & -> & _). rewrite Hl, elem_of_nil. cbn. naive_solver.
  - intros i. destruct (Hp i) as (_ & -> & _). constructor.
  - intros i l _. destruct (Hp i) as (_ & -> & _). apply not_elem_of_nil.
  - intros i. unfold depth, cpu_ok. destruct (Hp i) as (-> & -> & -> & ->). cbn. lia.
Qed.

Lemma machine_reach m m' : rtc mstep m m' -> locks_inv m /\ cli_inv m -> locks_inv m' /\ cli_inv m'.
Proof. induction 1 as [|x y z Hxy _ IH]; [done|]. intros [H1 H2]. apply IH. eauto using mstep_locks, mstep_cli. Qed.

(** C18: mutual exclusion.  In any interleaving of any number of processors
    that take and release spin locks as they like, at most one processor holds
    a lock; the lock word is set and names it, and its interrupts are off. *)
Theorem spinlock_mutex m m' i l :
  machine_init m -> rtc mstep m m' -> l ∈ m_held (mm_procs m' i) ->
  (forall j, l ∈ m_held (mm_procs m' j) -> j = i) /\
  mm_locks m' l = Spinlock true (Some i) /\ c_if (m_cpu (mm_procs m' i)) = false.
Proof.
  intros Hi Hr Hl. destruct (machine_reach _ _ Hr (machine_init_inv _ Hi)) as [[H1 H2 H3 _ _] Hc]. split_and!.
  - intros j Hj. apply (H1 j i l); by left.
  - pose proof (H2 i l (or_introl Hl)) as E1. apply H3 in Hl. destruct (mm_locks m' l). cbn in *. congruence.
  - destruct (Hc i) as [Hn [_ Hif]]. apply Hif. rewrite Hn. unfold depth. destruct (m_held _); [by apply elem_of_nil in Hl | cbn; lia].
Qed.

Definition two_cpus : machine := Machine (fun _ => ProcState (Cpu true 0 false) Outside [] 0) (fun _ => initlock).
Lemma spinlock_mutex_witness : exists m', rtc mstep two_cpus m' /\ 7%nat ∈ m_held (mm_procs m' 1%nat) /\
  mm_locks m' 7%nat = Spinlock true (Some 1%nat) /\ c_if (m_cpu (mm_procs m' 1%nat)) = false.
Proof.
  assert (exists m', rtc mstep two_cpus m' /\ 7%nat ∈ m_held (mm_procs m' 1%nat)) as (m' & Hr & Hin).
  { eexists. split.
    - eapply rtc_l; [apply (ms_acquire _ 1 7); reflexivity|]. eapply rtc_l; [apply (ms_xchg _ 1 7); reflexivity|].
      eapply rtc_l; [apply (ms_own _ 1 7); reflexivity|]. apply rtc_refl.
    - cbn. apply elem_of_cons. by left. }
  exists m'. split; [exact Hr|]. split; [exact Hin|].
  apply (spinlock_mutex two_cpus m' 1%nat 7%nat (conj (fun _ => eq_refl) (fun _ => conj eq_refl (conj eq_refl (conj eq_refl eq_refl)))) Hr Hin).
Defined.

(** ** Sleep locks *)

(** [lk->locked] and [lk->pid]; the spin lock inside makes each run up to a
    return or a [sleep] one step. *)
Record sleeplock := Sleeplock { sl_locked : bool; sl_pid : Z }.
Definition initsleeplock : sleeplock := Sleeplock false 0.
(** One pass of the loop of [acquiresleep]: [None] if the caller sleeps. *)
Definition acquiresleep (pid : Z) (lk : sleeplock) : option sleeplock :=
  if sl_locked lk then None else Some (Sleeplock true pid).
Definition releasesleep (lk : sleeplock) : sleeplock := Sleeplock false 0.
Definition holdingsleep (lk : sleeplock) : bool := sl_locked lk.

(** Threads that use one lock: a thread runs outside, is asleep on it, is
    woken and about to try again, or holds it. *)
Inductive tphase := TOut | TAsleep | TWoken | THolds.
Record ssys := Ssys { ss_lock : sleeplock; ss_threads : nat -> tphase }.

(** [releasesleep] is called by the holder, and [wakeup(lk)] wakes them all. *)
Definition wake (t : tphase) : tphase := match t with TAsleep => TWoken | t => t end.
Inductive sstep (s : ssys) : ssys -> Prop :=
| ss_enter i lk : ss_threads s i = TOut \/ ss_threads s i = TWoken ->
    acquiresleep (Z.of_nat i) (ss_lock s) = Some lk -> sstep s (Ssys lk (<[i := THolds]> (ss_threads s)))
| ss_sleep i : ss_threads s i = TOut \/ ss_threads s i = TWoken ->
    acquiresleep (Z.of_nat i) (ss_lock s) = None -> sstep s (Ssys (ss_lock s) (<[i := TAsleep]> (ss_threads s)))
| ss_leave i : ss_threads s i = THolds ->
    sstep s (Ssys (releasesleep (ss_lock s)) (fun j => wake (<[i := TOut]> (ss_threads s) j))).

Definition sleep_inv (s : ssys) : Prop :=
  (forall i, ss_threads s i = THolds -> sl_locked (ss_lock s) = true /\ sl_pid (ss_lock s) = Z.of_nat i) /\
  (forall i, ss_threads s i = TAsleep -> sl_locked (ss_lock s) = true) /\
  (sl_locked (ss_lock s) = true -> exists i, ss_threads s i = THolds).

Lemma sstep_inv s s' : sstep s s' -> sleep_inv s -> sleep_inv s'.
Proof.
  intros Hs (H1 & H2 & H3). destruct Hs as [i lk Hi E|i Hi E|i Hi]; unfold acquiresleep in *.
  - destruct (sl_locked (ss_lock s)) eqn:El; [done|]. injection E as <-. split_and!; cbn.
    + intros j. upd_cases; [done|]. intros Hj. apply H1 in Hj as [? _]. congruence.
    + done.
    + exists i. apply fn_lookup_insert.
  - destruct (sl_locked (ss_lock s)) eqn:El; [|done]. split_and!; cbn.
    + intros j. upd_cases; [done|]. rewrite El. apply H1.
    + intros j. by rewrite El.
    + intros _. destruct (H3 eq_refl) as [j Hj]. exists j. upd_cases; [destruct Hi; congruence | done].
  - split_and!; cbn; [| |done]; intros j; upd_cases; try done; destruct (ss_threads s j) eqn:Ej; try done.
    intros _. exfalso. apply N. pose proof (H1 _ Hi). pose proof (H1 _ Ej). lia.
Qed.

(** a sleep lock is held by at most one thread, which its [pid] field
    names, and a thread is asleep on it only while another one holds it: the
    wakeup of a release is not lost. *)
Theorem sleeplock_correct s s' i :
  sleep_inv s -> rtc sstep s s' ->
  (ss_threads s' i = THolds -> (forall j, ss_threads s' j = THolds -> j = i) /\ sl_pid (ss_lock s') = Z.of_nat i) /\
  (ss_threads s' i = TAsleep -> exists j, j <> i /\ ss_threads s' j = THolds).
Proof.
  intros H0 Hr. assert (sleep_inv s') as (H1 & H2 & H3).
  { induction Hr as [|x y z Hxy _ IH]; [done|]. eauto using sstep_inv. }
  split.
  - intros Hi. split; [|by apply H1]. intros j Hj. pose proof (H1 _ Hi). pose proof (H1 _ Hj). lia.
  - intros Hi. destruct (H3 (H2 i Hi)) as [j Hj]. exists j. split; [congruence | done].
Qed.

(** Thread 0 takes the lock and thread 1 goes to sleep on it. *)
Lemma sleeplock_correct_witness : exists s', rtc sstep (Ssys initsleeplock (fun _ => TOut)) s' /\
  ss_threads s' 1%nat = TAsleep /\ exists j, j <> 1%nat /\ ss_threads s' j = THolds.
Proof.
  assert (exists s', rtc sstep (Ssys initsleeplock (fun _ => TOut)) s' /\ ss_threads s' 1%nat = TAsleep) as (s' & Hr & Ha).
  { eexists. split.
    - eapply rtc_l; [apply (ss_enter _ 0); [by left | reflexivity]|]. eapply rtc_l; [apply (ss_sleep _ 1); [by left | reflexivity]|]. apply rtc_refl.
    - reflexivity. }
  exists s'. split; [exact Hr|]. split; [exact Ha|].
  apply (sleeplock_correct (Ssys initsleeplock (fun _ => TOut)) s' 1%nat); [by split_and!; cbn | exact Hr | exact Ha].
Defined.
