(* ===== verification/Sched.v ===== *)
(** * Leaving and entering the scheduler (proc.c, spinlock.c)

    [sched], its callers and the scheduler loops of any number of processors,
    with [ptable.lock], the nesting counts and the interrupt flags.  The lock
    is taken by one thread and released by the one that it switches to.  The
    code between two operations on [ptable.lock] is one step; the contents of
    processes are in [Proc.v], the switch of stacks in [Switch.v]. *)

From stdpp Require Import functions.
From S2P Require Import Prelude Kern Locks.

(** Where a thread continues when it is switched to: in [forkret], or after
    the [swtch] in [sched] with its saved [intena], called by [yield], by
    [sleep] on another lock, by [wait] or by [exit]. *)
Inductive cont := InForkret | InYield (intena : bool) | InSleep (intena : bool) | InWait (intena : bool) | InExit.

(** [t_locks] counts the spin locks other than [ptable.lock] that the thread
    holds; [t_flag] is a ghost field, whether the thread has interrupts on
    outside of its locks. *)
Record thread := Thread { t_state : procstate; t_cont : cont; t_locks : nat; t_flag : bool }.
(** [s_proc] is [cpu->proc]; the processor is in the scheduler when it is 0. *)
Record scpu := Scpu { s_cpu : cpu; s_proc : option nat }.
Record sys := Sys { y_cpus : nat -> scpu; y_threads : nat -> thread; y_lock : spinlock }.

Definition setc (i : nat) (c : cpu) (s : sys) : sys := Sys (<[i := Scpu c (s_proc (y_cpus s i))]> (y_cpus s)) (y_threads s) (y_lock s).
Definition set_proc (i : nat) (p : option nat) (s : sys) : sys := Sys (<[i := Scpu (s_cpu (y_cpus s i)) p]> (y_cpus s)) (y_threads s) (y_lock s).
Definition sett (p : nat) (t : thread) (s : sys) : sys := Sys (y_cpus s) (<[p := t]> (y_threads s)) (y_lock s).
Definition set_lock (l : spinlock) (s : sys) : sys := Sys (y_cpus s) (y_threads s) l.

Definition with_state (st : procstate) (t : thread) : thread := Thread st (t_cont t) (t_locks t) (t_flag t).
Definition with_cont (c : cont) (t : thread) : thread := Thread (t_state t) c (t_locks t) (t_flag t).
Definition with_locks (n : nat) (t : thread) : thread := Thread (t_state t) (t_cont t) n (t_flag t).
Definition with_flag (b : bool) (t : thread) : thread := Thread (t_state t) (t_cont t) (t_locks t) b.
Definition modt (p : nat) (f : thread -> thread) : M sys unit := modify (fun s => sett p (f (y_threads s p)) s).

(** ** The code *)

Definition on_cpu (i : nat) (m : M cpu unit) : M sys unit := zoom (fun s => s_cpu (y_cpus s i)) (setc i) m.

(** [acquire(&ptable.lock)] and [release(&ptable.lock)]; a processor that
    spins is [Blocked]. *)
Definition acquire (i : nat) : M sys unit :=
  on_cpu i (modify pushcli) ;;;
  let! s := get in
  if holding (y_lock s) i then panic "acquire"
  else if lk_locked (y_lock s) then blocked "acquire"
  else modify (set_lock (Spinlock true (Some i))).
Definition release (i : nat) : M sys unit :=
  let! s := get in
  if negb (holding (y_lock s) i) then panic "release"
  else modify (set_lock (Spinlock false None)) ;;; on_cpu i popcli.

(** [sched] up to the switch: the saved [intena] goes to the continuation [k],
    and the processor is in its scheduler. *)
Definition sched (i p : nat) (k : bool -> cont) : M sys unit :=
  let! s := get in
  let c := s_cpu (y_cpus s i) in
  if negb (holding (y_lock s) i) then panic "sched ptable.lock"
  else if negb (c_ncli c =? 1) then panic "sched locks"
  else if bool_decide (t_state (y_threads s p) = RUNNING) then panic "sched running"
  else if c_if c then panic "sched interruptible"
  else modt p (with_cont (k (c_intena c))) ;;; modify (set_proc i None).
(** [cpu->intena = intena] *)
Definition restore (i : nat) (intena : bool) : M sys unit := on_cpu i (modify (fun c => Cpu (c_if c) (c_ncli c) intena)).

Definition yield (i p : nat) : M sys unit := acquire i ;;; modt p (with_state RUNNABLE) ;;; sched i p InYield.
(** [sleep(chan, lk)] with another lock than [ptable.lock], which it
    releases; *)
Definition sleep (i p : nat) : M sys unit :=
  acquire i ;;; on_cpu i popcli ;;; modt p (with_state SLEEPING) ;;; sched i p InSleep.
(** and with [ptable.lock], from [wait]. *)
Definition wait_sleep (i p : nat) : M sys unit := modt p (with_state SLEEPING) ;;; sched i p InWait.
Definition exit (i p : nat) : M sys unit := acquire i ;;; modt p (with_state ZOMBIE) ;;; sched i p (fun _ => InExit).

(** The scheduler, which holds the lock, takes the runnable [p], whichever it
    is, and [p] goes on; [again] is the choice of [wait] to sleep once more. *)
Definition pick (i p : nat) (again : bool) : M sys unit :=
  modt p (with_state RUNNING) ;;; modify (set_proc i (Some p)) ;;;
  let! s := get in
  match t_cont (y_threads s p) with
  | InForkret => modt p (with_flag (c_intena (s_cpu (y_cpus s i)))) ;;; release i
  | InYield b => restore i b ;;; release i
  | InSleep b => restore i b ;;; release i ;;; on_cpu i (modify pushcli)
  | InWait b => restore i b ;;; if again then wait_sleep i p else release i
  | InExit => panic "zombie exit"
  end.
(** The other parts of [scheduler]. *)
Definition begin_pass (i : nat) : M sys unit := on_cpu i (modify (fun c => Cpu true (c_ncli c) (c_intena c))) ;;; acquire i.
Definition end_pass (i : nat) : M sys unit := release i.

(** A change of the table under the lock, as in [wakeup], [fork] and [wait]. *)
Definition change (i q : nat) (f : thread -> thread) : M sys unit := acquire i ;;; modt q f ;;; release i.

(** ** Steps *)

(** What processor [i] does next: a call of the process that runs on it, other
    kernel or user code of the process, or a part of the scheduler. *)
Inductive call :=
| Yield | Sleep | Wait | Exit | Flag (b : bool) | Lock | Unlock
| Wakeup (q : nat) | Fork (q : nat) | Reap (q : nat)
| Begin | Pick (p : nat) (again : bool) | End.

Definition wake (t : thread) : thread := if decide (t_state t = SLEEPING) then with_state RUNNABLE t else t.

Definition do (i p : nat) (c : call) : M sys unit :=
  match c with
  | Yield => yield i p
  | Sleep => sleep i p
  | Wait => acquire i ;;; wait_sleep i p
  | Exit => exit i p
  | Flag b => on_cpu i (modify (fun c => Cpu b (c_ncli c) (c_intena c))) ;;; modt p (with_flag b)
  | Lock => on_cpu i (modify pushcli) ;;; modt p (fun t => with_locks (S (t_locks t)) t)
  | Unlock => on_cpu i popcli ;;; modt p (fun t => with_locks (pred (t_locks t)) t)
  | Wakeup q => change i q wake
  | Fork q => change i q (fun t => Thread RUNNABLE InForkret 0 (t_flag t))
  | Reap q => change i q (with_state UNUSED)
  | Begin => begin_pass i
  | Pick q again => pick i q again
  | End => end_pass i
  end.

(** The call that is possible: those of a process on its processor, with the
    locks that the callers of the operation hold, and those of the scheduler
    inside or outside of a pass. *)
Definition allowed (i p : nat) (c : call) (s : sys) : Prop :=
  match c with
  | Yield | Wait | Exit | Flag _ => s_proc (y_cpus s i) = Some p /\ t_locks (y_threads s p) = 0%nat
  | Sleep => s_proc (y_cpus s i) = Some p /\ t_locks (y_threads s p) = 1%nat
  | Lock => s_proc (y_cpus s i) = Some p
  | Unlock => s_proc (y_cpus s i) = Some p /\ t_locks (y_threads s p) <> 0%nat
  | Wakeup q => holding (y_lock s) i = false
  | Fork q => s_proc (y_cpus s i) = Some p /\ t_state (y_threads s q) = UNUSED
  | Reap q => s_proc (y_cpus s i) = Some p /\ t_state (y_threads s q) = ZOMBIE
  | Begin => s_proc (y_cpus s i) = None /\ holding (y_lock s) i = false
  | Pick q _ => s_proc (y_cpus s i) = None /\ holding (y_lock s) i = true /\ t_state (y_threads s q) = RUNNABLE
  | End => s_proc (y_cpus s i) = None /\ holding (y_lock s) i = true
  end.

Inductive sstep (s s' : sys) : Prop :=
| sstep_do i p c : allowed i p c s -> do i p c s = Ret tt s' -> sstep s s'.

(** ** The invariant *)

(** A thread on a processor. *)
Definition run_ok (c : cpu) (t : thread) : Prop :=
  t_state t = RUNNING /\ c_ncli c = Z.of_nat (t_locks t) /\
  match t_locks t with O => c_if c = t_flag t | _ => c_if c = false /\ c_intena c = t_flag t end.
(** A processor in its scheduler. *)
Definition idle_ok (c : cpu) (held : bool) : Prop := if held then c_ncli c = 1 /\ c_if c = false else c_ncli c = 0.
(** A thread that waits to be switched to. *)
Definition cont_ok (t : thread) : Prop :=
  t_state t = RUNNABLE \/ t_state t = SLEEPING ->
  match t_cont t with
  | InForkret => t_locks t = 0%nat
  | InYield b | InWait b => t_locks t = 0%nat /\ b = t_flag t
  | InSleep b => t_locks t = 1%nat /\ b = t_flag t
  | InExit => False
  end.
Record sinv (s : sys) : Prop := {
  si_lock : y_lock s = Spinlock false None \/ exists i, y_lock s = Spinlock true (Some i) /\ s_proc (y_cpus s i) = None;
  si_idle : forall i, s_proc (y_cpus s i) = None -> idle_ok (s_cpu (y_cpus s i)) (holding (y_lock s) i);
  si_run : forall i p, s_proc (y_cpus s i) = Some p -> run_ok (s_cpu (y_cpus s i)) (y_threads s p);
  si_one : forall i j p, s_proc (y_cpus s i) = Some p -> s_proc (y_cpus s j) = Some p -> i = j;
  si_cont : forall p, cont_ok (y_threads s p)
}.

Lemma holding_free i : holding (Spinlock false None) i = false.
Proof. done. Qed.
Lemma held_by i j : holding (Spinlock true (Some i)) j = bool_decide (i = j).
Proof. unfold holding. cbn. apply bool_decide_ext. split; congruence. Qed.

(** One processor and one thread change. *)
Lemma sinv_update s s' i c pr p t : sinv s -> (forall j, y_cpus s' j = if decide (j = i) then Scpu c pr else y_cpus s j) ->
  (forall q, y_threads s' q = if decide (q = p) then t else y_threads s q) ->
  (y_lock s' = y_lock s /\ holding (y_lock s') i = false \/
   ((y_lock s = Spinlock false None \/ y_lock s = Spinlock true (Some i)) /\ (y_lock s' = Spinlock false None \/ y_lock s' = Spinlock true (Some i) /\ pr = None))) ->
  match pr with
  | None => idle_ok c (holding (y_lock s') i)
  | Some q => run_ok c (y_threads s' q) /\ forall j, j <> i -> s_proc (y_cpus s j) <> Some q
  end ->
  ((forall j, j <> i -> s_proc (y_cpus s j) <> Some p) \/ t = y_threads s p) -> cont_ok t -> sinv s'.
Proof.
  intros [L I R O C] Ei Et Hl Hpr Hp Hc.
  assert (forall j, j <> i -> holding (y_lock s') j = holding (y_lock s) j) as Eh.
  { intros j Hj. destruct Hl as [[-> _]|[[-> | ->] [-> |[-> _]]]]; rewrite ?holding_free, ?held_by, ?bool_decide_eq_false_2 by congruence; done. }
  split.
  - destruct Hl as [[-> Hh]|[_ [-> |[-> ->]]]]; [|by left|right; exists i; by rewrite Ei, decide_True].
    destruct L as [E|(j & E & Ej)]; [by left | right]. exists j. rewrite E in Hh. rewrite held_by in Hh. apply bool_decide_eq_false in Hh. split; [exact E|]. by rewrite Ei, decide_False.
  - intros j. rewrite Ei. case_decide as Hj; [subst j; cbn; intros ->; exact Hpr | rewrite Eh by done; apply I].
  - intros j q. rewrite Ei. case_decide as Hj; [subst j; cbn; intros ->; exact (proj1 Hpr)|]. intros Hq. rewrite Et. case_decide as Hne; [subst q|by apply R].
    destruct Hp as [Hp | ->]; [by destruct (Hp j Hj) | by apply R].
  - intros j k q. rewrite !Ei. repeat case_decide; subst; cbn; try done; try (by apply O); intros E1 E2; exfalso; destruct pr as [q'|]; try done; injection E1 || injection E2; intros; subst; destruct Hpr as [_ Hpr]; by eapply Hpr.
  - intros q. rewrite Et. by case_decide.
Qed.

(** *** The operations on [ptable.lock] *)

(** No panic; [Q] holds of the state if the processor does not spin. *)
Definition safe (m : M sys unit) (Q : sys -> Prop) (s : sys) : Prop :=
  match m s with Ret _ s' => Q s' | Blocked _ => True | _ => False end.
Lemma safe_bind m k Q s : safe m (safe k Q) s -> safe (m ;;; k) Q s.
Proof. unfold safe, bind. by destruct (m s). Qed.
Lemma safe_modify f (Q : sys -> Prop) s : Q (f s) -> safe (modify f) Q s.
Proof. done. Qed.

Lemma safe_get (k : sys -> M sys unit) Q s : safe (k s) Q s -> safe (bind get k) Q s.
Proof. done. Qed.

Lemma popcli_run c : c_if c = false -> 1 <= c_ncli c -> popcli c = Ret tt (Cpu ((c_ncli c - 1 =? 0) && c_intena c) (c_ncli c - 1) (c_intena c)).
Proof. intros Hi Hn. unfold popcli, bind, get. rewrite Hi. by rewrite (proj2 (Z.ltb_ge _ _)) by lia. Qed.

Lemma safe_on_cpu i f (Q : sys -> Prop) s : Q (setc i (f (s_cpu (y_cpus s i))) s) -> safe (on_cpu i (modify f)) Q s.
Proof. done. Qed.
Lemma safe_popcli i (Q : sys -> Prop) s : let c := s_cpu (y_cpus s i) in c_if c = false -> 1 <= c_ncli c ->
  Q (setc i (Cpu ((c_ncli c - 1 =? 0) && c_intena c) (c_ncli c - 1) (c_intena c)) s) -> safe (on_cpu i popcli) Q s.
Proof. intros c Hi Hn HQ. unfold safe, on_cpu, zoom. by rewrite popcli_run. Qed.
Lemma safe_acquire i (Q : sys -> Prop) s : sinv s -> holding (y_lock s) i = false ->
  (y_lock s = Spinlock false None -> Q (set_lock (Spinlock true (Some i)) (setc i (pushcli (s_cpu (y_cpus s i))) s))) -> safe (acquire i) Q s.
Proof.
  intros HI Hh HQ. unfold acquire. apply safe_bind, safe_on_cpu. unfold safe, bind, get. cbn [y_lock setc]. rewrite Hh.
  destruct (si_lock _ HI) as [E|(j & E & _)]; rewrite E; cbn; [by apply HQ | done].
Qed.
Lemma safe_release i (Q : sys -> Prop) s : let c := s_cpu (y_cpus s i) in holding (y_lock s) i = true -> c_if c = false -> 1 <= c_ncli c ->
  Q (setc i (Cpu ((c_ncli c - 1 =? 0) && c_intena c) (c_ncli c - 1) (c_intena c)) (set_lock (Spinlock false None) s)) -> safe (release i) Q s.
Proof. intros c Hh Hi Hn HQ. unfold release, safe, bind at 1, get. rewrite Hh. cbn [negb]. apply safe_bind, safe_modify. by apply safe_popcli. Qed.
Lemma safe_sched i p k (Q : sys -> Prop) s : let c := s_cpu (y_cpus s i) in
  holding (y_lock s) i = true -> c_ncli c = 1 -> t_state (y_threads s p) <> RUNNING -> c_if c = false ->
  Q (set_proc i None (sett p (with_cont (k (c_intena c)) (y_threads s p)) s)) -> safe (sched i p k) Q s.
Proof.
  intros c Hh Hn Hs Hi HQ. unfold sched, safe, bind at 1, get. fold c. rewrite Hh, Hn, Hi, (bool_decide_eq_false_2 _ Hs). cbn [negb Z.eqb Pos.eqb]. exact HQ.
Qed.

(** *** Every call keeps the invariant *)

Ltac fns := unfold setc, set_proc, sett, set_lock, insert, fn_insert; cbn [y_cpus y_threads y_lock s_cpu s_proc t_state t_cont t_locks t_flag with_state with_cont with_locks with_flag].
Ltac fnd := fns; repeat first [rewrite decide_True by done | case_decide]; subst; cbn [s_cpu s_proc t_state t_cont t_locks t_flag with_state with_cont with_locks with_flag c_if c_ncli c_intena]; try done.

Section calls.
Context (s : sys) (HI : sinv s) (i : nat).

Lemma run_not_holding p : s_proc (y_cpus s i) = Some p -> holding (y_lock s) i = false.
Proof.
  intros Hp. destruct (si_lock _ HI) as [-> |(j & -> & Hj)]; [done|]. rewrite held_by. apply bool_decide_eq_false. congruence.
Qed.
Lemma run_alone p : s_proc (y_cpus s i) = Some p -> forall j, j <> i -> s_proc (y_cpus s j) <> Some p.
Proof. intros Hp j Hj Hq. by apply Hj, (si_one _ HI j i p). Qed.
Lemma off_cpu q : t_state (y_threads s q) <> RUNNING -> forall j, s_proc (y_cpus s j) <> Some q.
Proof. intros Hq j Hj. by destruct (si_run _ HI j q Hj) as [H _]. Qed.

(** Entering the scheduler from a process that holds no other lock. *)
Lemma enter_safe p st k : s_proc (y_cpus s i) = Some p -> t_locks (y_threads s p) = 0%nat -> st <> RUNNING ->
  (forall b, b = t_flag (y_threads s p) -> cont_ok (Thread st (k b) 0 b)) ->
  safe (acquire i ;;; modt p (with_state st) ;;; sched i p k) sinv s.
Proof using HI.
  intros Hp Hl Hst Hk. destruct (si_run _ HI i p Hp) as (_ & Hn & Hf). rewrite Hl in Hn, Hf.
  apply safe_bind, safe_acquire; [exact HI | by eapply run_not_holding|]. intros El. apply safe_bind, safe_modify. apply safe_sched; [fns; by rewrite held_by, bool_decide_true | fnd; cbn; lia | by fnd | by fnd|].
  eapply (sinv_update s _ i (pushcli (s_cpu (y_cpus s i))) None p); [exact HI | intros j; fnd | intros q; fnd; reflexivity | right; split; [by left | right; by fns] | | left; by apply run_alone|].
  - fns. rewrite held_by, bool_decide_true by done. split; [cbn; lia | done].
  - unfold with_cont, with_state. fns. rewrite Hl. assert (c_intena (pushcli (s_cpu (y_cpus s i))) = t_flag (y_threads s p)) as E by (cbn; by rewrite Hn). rewrite E. by apply Hk.
Qed.

(** Leaving it again. *)
Lemma pick_safe q again : s_proc (y_cpus s i) = None -> holding (y_lock s) i = true -> t_state (y_threads s q) = RUNNABLE -> safe (pick i q again) sinv s.
Proof using HI.
  intros Hi Hh Hq. pose proof (si_idle _ HI i Hi) as Hc. rewrite Hh in Hc. destruct Hc as [Hn Hf]. pose proof (si_cont _ HI q (or_introl Hq)) as Hk.
  assert (y_lock s = Spinlock true (Some i)) as El.
  { destruct (si_lock _ HI) as [E|(j & E & _)]; rewrite E in Hh; [done|]. rewrite held_by in Hh. apply bool_decide_eq_true in Hh. by rewrite E, Hh. }
  assert (forall j, j <> i -> s_proc (y_cpus s j) <> Some q) as Ha by (intros j _; apply off_cpu; congruence).
  unfold pick. do 2 apply safe_bind, safe_modify. apply safe_get.
  replace (t_cont (y_threads _ q)) with (t_cont (y_threads s q)) by fnd.
  assert (forall c t s', (forall j, y_cpus s' j = if decide (j = i) then Scpu c (Some q) else y_cpus s j) -> (forall q', y_threads s' q' = if decide (q' = q) then t else y_threads s q') ->
    y_lock s' = Spinlock false None -> run_ok c t -> sinv s') as Hend.
  { intros c t s' E1 E2 E3 Hr. eapply (sinv_update s s' i c (Some q) q t); try done; [right; split; [by right | by left] | split; [by rewrite E2, decide_True | exact Ha] | by left|].
    intros [E|E]; destruct Hr as [Hr _]; congruence. }
  destruct (t_cont (y_threads s q)) as [|b|b|b|] eqn:Ek; [| | | |done].
  - apply safe_bind, safe_modify. apply safe_release; [fnd | fnd | fnd; lia|]. eapply Hend; [intros j; fnd | intros j; fnd | done|]. fnd. rewrite Hn. split; [done|]. cbn. rewrite Hk. done.
  - destruct Hk as [Hl ->]. apply safe_bind, safe_on_cpu. apply safe_release; [fnd | fnd | fnd; lia|]. eapply Hend; [intros j; fnd | intros j; fnd | done|]. fnd. rewrite Hn. split; [done|]. cbn. by rewrite Hl.
  - destruct Hk as [Hl ->]. apply safe_bind, safe_on_cpu. apply safe_bind, safe_release; [fnd | fnd | fnd; lia|]. apply safe_on_cpu. eapply Hend; [intros j; fnd | intros j; fnd | done|].
    fnd. rewrite Hn. split; [done|]. cbn. by rewrite Hl.
  - destruct Hk as [Hl ->]. apply safe_bind, safe_on_cpu. destruct again.
    + unfold wait_sleep. apply safe_bind, safe_modify. apply safe_sched; [fnd | fnd | fnd | fnd|].
      eapply (sinv_update s _ i (Cpu false 1 (t_flag (y_threads s q))) None q); [exact HI | intros j; fnd; by rewrite Hf, Hn | intros j; fnd; reflexivity | right; split; [by right | by right] | | by left|].
      * fns. by rewrite Hh.
      * unfold with_cont, with_state. fnd.
    + apply safe_release; [fnd | fnd | fnd; lia|]. eapply Hend; [intros j; fnd | intros j; fnd | done|]. fnd. rewrite Hn. split; [done|]. cbn. by rewrite Hl.
Qed.

(** Code of the process that leaves the lock alone. *)
Lemma local_safe p c t : s_proc (y_cpus s i) = Some p -> run_ok c t -> sinv (sett p t (setc i c s)).
Proof using HI.
  intros Hp Hr. eapply (sinv_update s _ i c (Some p) p t); [exact HI | intros j; fnd; by rewrite Hp | intros q; fnd | left; split; [done | by eapply run_not_holding] | | left; by apply run_alone|].
  - fns. split; [fnd | by apply run_alone].
  - intros [E|E]; destruct Hr as [Hr _]; congruence.
Qed.

(** A change of a thread that is on no processor, by any processor. *)
Lemma change_safe q f : holding (y_lock s) i = false -> (forall j, s_proc (y_cpus s j) <> Some q) \/ f (y_threads s q) = y_threads s q -> cont_ok (f (y_threads s q)) ->
  safe (change i q f) sinv s.
Proof using HI.
  intros Hh Hq Hc. unfold change. apply safe_bind, safe_acquire; [done | done|]. intros El. apply safe_bind, safe_modify.
  assert (0 <= c_ncli (s_cpu (y_cpus s i)) /\ (0 < c_ncli (s_cpu (y_cpus s i)) -> c_if (s_cpu (y_cpus s i)) = false)) as [Hn Hi].
  { destruct (s_proc (y_cpus s i)) as [p|] eqn:Ep.
    - destruct (si_run _ HI i p Ep) as (_ & E & F). destruct (t_locks (y_threads s p)); [lia|]. destruct F. split; [lia | done].
    - pose proof (si_idle _ HI i Ep) as E. rewrite Hh in E. cbn in E. lia. }
  apply safe_release; [fns; by rewrite held_by, bool_decide_true | by fnd | fnd; cbn; lia|].
  eapply (sinv_update s _ i (Cpu ((c_ncli (s_cpu (y_cpus s i)) + 1 - 1 =? 0) && c_intena (pushcli (s_cpu (y_cpus s i)))) (c_ncli (s_cpu (y_cpus s i)) + 1 - 1) (c_intena (pushcli (s_cpu (y_cpus s i))))) (s_proc (y_cpus s i)) q (f (y_threads s q)));
    [done | intros j; fnd | intros j; fnd | right; split; [by left | by left] | | | exact Hc].
  - rewrite Z.add_simpl_r. cbn [c_intena pushcli]. destruct (s_proc (y_cpus s i)) as [p|] eqn:Ep.
    + split; [|by apply run_alone]. pose proof (si_run _ HI i p Ep) as Hr. fns. assert (forall t, run_ok (s_cpu (y_cpus s i)) t -> run_ok (Cpu ((c_ncli (s_cpu (y_cpus s i)) =? 0) && (if c_ncli (s_cpu (y_cpus s i)) =? 0 then c_if (s_cpu (y_cpus s i)) else c_intena (s_cpu (y_cpus s i)))) (c_ncli (s_cpu (y_cpus s i))) (if c_ncli (s_cpu (y_cpus s i)) =? 0 then c_if (s_cpu (y_cpus s i)) else c_intena (s_cpu (y_cpus s i)))) t) as Hsame.
      { intros t (R1 & R2 & R3). split; [done|]. split; [done|]. cbn [c_if c_intena]. rewrite R2. revert R3. by destruct (t_locks t); [|intros [_ ->]]. }
      case_decide as E; [subst p|]; [|by apply Hsame]. destruct Hq as [Hq|Hq]; [by destruct (Hq i) | rewrite Hq; by apply Hsame].
    + pose proof (si_idle _ HI i Ep) as E. rewrite Hh in E. exact E.
  - destruct Hq as [Hq|Hq]; [left; intros j _; apply Hq | by right].
Qed.
End calls.

Lemma do_safe s i p c : sinv s -> allowed i p c s -> safe (do i p c) sinv s.
Proof.
  intros HI HA. destruct c as [| | | |b| | |q|q|q| |q again|]; cbn [allowed do] in *.
  - destruct HA as [Hp Hl]. by apply enter_safe.
  - destruct HA as [Hp Hl]. pose proof (si_run _ HI i p Hp) as Hr. unfold run_ok in Hr. rewrite Hl in Hr. destruct Hr as (_ & Hn & Hf & Hie). unfold sleep.
    apply safe_bind, safe_acquire; [done | by eapply run_not_holding|]. intros El. apply safe_bind, safe_popcli; [by fnd | fnd; cbn; lia|]. apply safe_bind, safe_modify.
    apply safe_sched; [fns; by rewrite held_by, bool_decide_true | fnd; cbn; lia | by fnd | fnd; cbn; by rewrite Hn|].
    eapply (sinv_update s _ i (Cpu false 1 (t_flag (y_threads s p))) None p); [done | intros j; fnd; cbn; by rewrite Hn, Hie | intros q; fnd; reflexivity | right; split; [by left | by right] | | left; by apply run_alone|].
    + fns. by rewrite held_by, bool_decide_true.
    + unfold with_cont, with_state. fnd. cbn. rewrite Hn, Hie. cbn. intros _. by rewrite Hl.
  - destruct HA as [Hp Hl]. unfold wait_sleep. by apply enter_safe.
  - destruct HA as [Hp Hl]. apply enter_safe; try done. intros b _ [E|E]; done.
  - destruct HA as [Hp Hl]. pose proof (si_run _ HI i p Hp) as (R1 & R2 & R3). apply safe_bind, safe_on_cpu, safe_modify. apply local_safe; [done | exact Hp|].
    rewrite Hl in R2. unfold run_ok. cbn. by rewrite Hl.
  - pose proof (si_run _ HI i p HA) as (R1 & R2 & R3). apply safe_bind, safe_on_cpu, safe_modify. apply local_safe; [done | exact HA|]. split; [exact R1|]. split; [cbn; lia|].
    cbn. split; [done|]. rewrite R2. revert R3. by destruct (t_locks (y_threads s p)); [|intros [_ ->]].
  - destruct HA as [Hp Hl]. pose proof (si_run _ HI i p Hp) as (R1 & R2 & R3). destruct (t_locks (y_threads s p)) as [|n] eqn:El; [done|]. destruct R3 as [R3 R4].
    apply safe_bind, safe_popcli; [done | lia|]. apply safe_modify. apply local_safe; [done | exact Hp|]. split; [exact R1|]. cbn. rewrite El, R2. cbn [pred]. split; [lia|].
    rewrite R4. destruct n; [done|]. split; [|done]. by rewrite (proj2 (Z.eqb_neq _ _)) by lia.
  - apply change_safe; [done | exact HA | |]; unfold wake; case_decide as E; [left; apply off_cpu; [done | congruence] | by right | | apply HI].
    pose proof (si_cont _ HI q (or_intror E)) as Hc. intros _. exact Hc.
  - destruct HA as [Hp Hq]. apply change_safe; [done | by eapply run_not_holding | left; apply off_cpu; [done | congruence] | done].
  - destruct HA as [Hp Hq]. apply change_safe; [done | by eapply run_not_holding | left; apply off_cpu; [done | congruence] | intros [E|E]; done].
  - destruct HA as [Hp Hh]. unfold begin_pass. apply safe_bind, safe_on_cpu. pose proof (si_idle _ HI i Hp) as E. rewrite Hh in E. cbn in E.
    apply safe_acquire; [|exact Hh|].
    + eapply (sinv_update s _ i _ None p); [done | intros j; fnd; by rewrite Hp | intros q; fnd; reflexivity | by left | fns; by rewrite Hh | by right | apply HI].
    + intros El. eapply (sinv_update s _ i (Cpu false 1 true) None p (y_threads s p)); [done | intros j; fnd; by rewrite E, Hp | intros q; fnd | right; split; [by left | by right] | | by right | apply HI].
      fns. by rewrite held_by, bool_decide_true.
  - destruct HA as (Hp & Hh & Hq). by apply pick_safe.
  - destruct HA as [Hp Hh]. unfold end_pass. pose proof (si_idle _ HI i Hp) as E. rewrite Hh in E. destruct E as [En Ei]. apply safe_release; [done | done | lia|].
    eapply (sinv_update s _ i (Cpu (c_intena (s_cpu (y_cpus s i))) 0 (c_intena (s_cpu (y_cpus s i)))) None p (y_threads s p)); [done | intros j; fnd; by rewrite En, Hp | intros q; fnd | right; split; [|by left] | done | by right | apply HI].
    destruct (si_lock _ HI) as [El|(j & El & _)]; [by left|]. rewrite El, held_by in Hh. apply bool_decide_eq_true in Hh. right. by rewrite El, Hh.
Qed.

(** The kernel when the processors enter their schedulers: the first process
    can run. *)
Definition started : sys :=
  Sys (fun _ => Scpu (Cpu false 0 false) None) (fun p => Thread (if decide (p = 0%nat) then RUNNABLE else UNUSED) InForkret 0 false) initlock.
Lemma started_inv : sinv started.
Proof. split; try done. by left. Qed.

(** C6: processes and processors.  However the processors run their
    schedulers, processes yield, sleep, wait, exit, fork, wake each other and
    take other locks, no check of [sched], [acquire], [release] or [popcli]
    fails; no process runs on two processors; a processor that runs a process
    does not hold [ptable.lock]; and whether interrupts are on belongs to the
    process and not to the processor: it finds them as it left them, on
    whichever processor it goes on. *)
Theorem sched_safe s : rtc sstep started s ->
  (forall i p c, allowed i p c s -> match do i p c s with Panic _ | Undef _ => False | _ => True end) /\
  (forall i j p, s_proc (y_cpus s i) = Some p -> s_proc (y_cpus s j) = Some p -> i = j) /\
  (forall i p, s_proc (y_cpus s i) = Some p -> holding (y_lock s) i = false /\ t_state (y_threads s p) = RUNNING /\
    (t_locks (y_threads s p) = 0%nat -> c_if (s_cpu (y_cpus s i)) = t_flag (y_threads s p)) /\ (t_locks (y_threads s p) <> 0%nat -> c_if (s_cpu (y_cpus s i)) = false)).
Proof.
  intros HS. assert (sinv s) as HI.
  { assert (forall a b, sstep a b -> sinv a -> sinv b) as Hstep by (intros a b [i p c HA E] Ha; pose proof (do_safe a i p c Ha HA) as H; unfold safe in H; by rewrite E in H).
    pose proof started_inv as H0. induction HS as [|a b d Hs _ IH]; [done | by apply IH, (Hstep a)]. }
  split_and!.
  - intros i p c HA. pose proof (do_safe s i p c HI HA) as H. unfold safe in H. by destruct (do i p c s).
  - apply HI.
  - intros i p Hp. destruct (si_run _ HI i p Hp) as (R1 & R2 & R3). split_and!; [by eapply run_not_holding | done | intros E; by rewrite E in R3|].
    intros E. by destruct (t_locks (y_threads s p)); [|destruct R3].
Qed.

(** Process 0 starts on processor 1 and yields; processor 2 takes it. *)
Lemma sched_safe_witness : exists s, rtc sstep started s /\ s_proc (y_cpus s 2%nat) = Some 0%nat /\ holding (y_lock s) 2 = false.
Proof.
  assert (exists s, rtc sstep started s /\ s_proc (y_cpus s 2%nat) = Some 0%nat) as (s & HS & E).
  { eexists. split.
    - eapply rtc_l; [apply (sstep_do _ _ 1 0 Begin); [repeat split | vm_compute; reflexivity]|]. eapply rtc_l; [apply (sstep_do _ _ 1 0 (Pick 0 false)); [repeat split | vm_compute; reflexivity]|]. eapply rtc_l; [apply (sstep_do _ _ 1 0 Yield); [repeat split | vm_compute; reflexivity]|].
      eapply rtc_l; [apply (sstep_do _ _ 1 0 End); [repeat split | vm_compute; reflexivity]|]. eapply rtc_l; [apply (sstep_do _ _ 2 0 Begin); [repeat split | vm_compute; reflexivity]|]. eapply rtc_l; [apply (sstep_do _ _ 2 0 (Pick 0 false)); [repeat split | vm_compute; reflexivity]|]. apply rtc_refl.
    - done. }
  destruct (sched_safe s HS) as (_ & _ & H). destruct (H 2%nat 0%nat E) as [Hh _]. exists s. split; [exact HS|]. split; [exact E | exact Hh].
Defined.
