(* ===== verification/Sh.v ===== *)
(** * The parser of the shell (sh.c)

    The tokenizer, the recursive-descent parser and [nulterminate].  The
    input is the byte array [buf] with a NUL at index [es]; pointers into it
    are indices.  A command is a tree; [argv] and [eargv] are one list of
    spans.  A redirection that [parseredirs] wraps around a command under
    construction is kept in a list until the command is complete, because the
    code goes on filling the [execcmd] the wrappers point to.  Memory
    allocation succeeds.  [runcmd] and [main] are in ShRun.v. *)

From S2P Require Import Prelude CString.
Import Kstring.

Definition MAXARGS : nat := 10.
Definition whitespace : list Z := [32; 9; 13; 10; 11].
Definition symbols : list Z := [60; 124; 62; 38; 59; 40; 41].
Definition TOK_WORD : Z := 97.
Definition TOK_APPEND : Z := 43.

Inductive cmd :=
| Exec (argv : list (nat * nat))
| Redir (c : cmd) (file efile : nat) (mode fd : Z)
| PipeCmd (left right : cmd)
| ListCmd (left right : cmd)
| Back (c : cmd).

(** [panic] prints its message and exits. *)
Inductive presult A := POk (a : A) | PPanic (msg : string) | PFuel.
Arguments POk {A}. Arguments PPanic {A}. Arguments PFuel {A}.
Definition pbind {A B} (r : presult A) (k : A -> presult B) : presult B :=
  match r with POk a => k a | PPanic m => PPanic m | PFuel => PFuel end.

Section parser.
Context (buf : list Z) (es : nat).

Definition at_ (p : nat) : Z := nthZ buf (Z.of_nat p).
(** [strchr(l, c) != 0]; the NUL is not found. *)
Definition in_set (l : list Z) (c : Z) : bool := bool_decide (c ∈ l).

(** [while(s < es && strchr(whitespace, *s)) s++;], with [n = es - s]. *)
Fixpoint skip_ws (n p : nat) : nat :=
  match n with
  | O => p
  | S n => if in_set whitespace (at_ p) then skip_ws n (S p) else p
  end.
Fixpoint skip_word (n p : nat) : nat :=
  match n with
  | O => p
  | S n => if in_set whitespace (at_ p) || in_set symbols (at_ p) then p else skip_word n (S p)
  end.

(** The token, its span, and the position after it. *)
Definition gettoken (p : nat) : Z * nat * nat * nat :=
  let q := skip_ws (es - p) p in
  let c := at_ q in
  let '(tok, eq) :=
    if c =? 0 then (c, q)
    else if in_set [124; 40; 41; 59; 38; 60] c then (c, S q)
    else if c =? 62 then (if at_ (S q) =? 62 then (TOK_APPEND, S (S q)) else (c, S q))
    else (TOK_WORD, skip_word (es - q) q) in
  (tok, q, eq, skip_ws (es - eq) eq).

Definition peek (p : nat) (toks : list Z) : bool * nat :=
  let p := skip_ws (es - p) p in
  (negb (at_ p =? 0) && in_set toks (at_ p), p).

(** A redirection: file, end of file, mode, descriptor. *)
Definition redir : Type := nat * nat * Z * Z.
Definition O_RD : Z := 0x000.
Definition O_WR_CREATE : Z := Z.lor 0x001 0x200.
Definition redircmd (c : cmd) (r : redir) : cmd :=
  let '(q, eq, mode, fd) := r in Redir c q eq mode fd.

(** The redirections found, first one first. *)
Fixpoint parseredirs (fuel p : nat) : presult (list redir * nat) :=
  match fuel with
  | O => PFuel
  | S fuel =>
      let (more, p) := peek p [60; 62] in
      if negb more then POk ([], p)
      else
        let '(tok, _, _, p) := gettoken p in
        let '(tok2, q, eq, p) := gettoken p in
        if negb (tok2 =? TOK_WORD) then PPanic "missing file for redirection"
        else
          let r := if tok =? 60 then [(q, eq, O_RD, 0)]
                   else if tok =? 62 then [(q, eq, O_WR_CREATE, 1)]
                   else if tok =? TOK_APPEND then [(q, eq, O_WR_CREATE, 1)]
                   else [] in
          pbind (parseredirs fuel p) (fun '(rs, p) => POk (r ++ rs, p))
  end.

(** The loop of [parseexec]: arguments and redirections up to a separator. *)
Fixpoint parseargs (fuel argc p : nat) : presult (list (nat * nat) * list redir * nat) :=
  match fuel with
  | O => PFuel
  | S fuel =>
      let (stop, p) := peek p [124; 41; 38; 59] in
      if stop then POk ([], [], p)
      else
        let '(tok, q, eq, p) := gettoken p in
        if tok =? 0 then POk ([], [], p)
        else if negb (tok =? TOK_WORD) then PPanic "syntax"
        else if (MAXARGS <=? S argc)%nat then PPanic "too many args"
        else
          pbind (parseredirs (S (es - p)) p) (fun '(rs, p) =>
          pbind (parseargs fuel (S argc) p) (fun '(args, rs', p) =>
          POk ((q, eq) :: args, rs ++ rs', p)))
  end.

(** [while(peek(ps, es, "&")) { gettoken(ps, es, 0, 0); cmd = backcmd(cmd); }] *)
Fixpoint backs (fuel : nat) (c : cmd) (p : nat) : presult (cmd * nat) :=
  match fuel with
  | O => PFuel
  | S fuel =>
      let (more, p) := peek p [38] in
      if more then let '(_, _, _, p) := gettoken p in backs fuel (Back c) p
      else POk (c, p)
  end.

Fixpoint parseline (fuel p : nat) : presult (cmd * nat) :=
  match fuel with
  | O => PFuel
  | S fuel =>
      pbind (parsepipe fuel p) (fun '(c, p) =>
      pbind (backs (S (es - p)) c p) (fun '(c, p) =>
      let (more, p) := peek p [59] in
      if more then
        let '(_, _, _, p) := gettoken p in
        pbind (parseline fuel p) (fun '(c', p) => POk (ListCmd c c', p))
      else POk (c, p)))
  end
with parsepipe (fuel p : nat) : presult (cmd * nat) :=
  match fuel with
  | O => PFuel
  | S fuel =>
      pbind (parseexec fuel p) (fun '(c, p) =>
      let (more, p) := peek p [124] in
      if more then
        let '(_, _, _, p) := gettoken p in
        pbind (parsepipe fuel p) (fun '(c', p) => POk (PipeCmd c c', p))
      else POk (c, p))
  end
with parseexec (fuel p : nat) : presult (cmd * nat) :=
  match fuel with
  | O => PFuel
  | S fuel =>
      let (block, p) := peek p [40] in
      if block then parseblock fuel p
      else
        pbind (parseredirs (S (es - p)) p) (fun '(rs, p) =>
        pbind (parseargs (S (es - p)) 0 p) (fun '(args, rs', p) =>
        POk (foldl redircmd (Exec args) (rs ++ rs'), p)))
  end
with parseblock (fuel p : nat) : presult (cmd * nat) :=
  match fuel with
  | O => PFuel
  | S fuel =>
      let (open, p) := peek p [40] in
      if negb open then PPanic "parseblock"
      else
        let '(_, _, _, p) := gettoken p in
        pbind (parseline fuel p) (fun '(c, p) =>
        let (close, p) := peek p [41] in
        if negb close then PPanic "syntax - missing )"
        else
          let '(_, _, _, p) := gettoken p in
          pbind (parseredirs (S (es - p)) p) (fun '(rs, p) => POk (foldl redircmd c rs, p)))
  end.

End parser.

(** Zeros at the ends of the words. *)
Fixpoint nulterminate (c : cmd) (buf : list Z) : list Z :=
  match c with
  | Exec argv => foldl (fun b (a : nat * nat) => <[a.2 := 0]> b) buf argv
  | Redir c _ efile _ _ => <[efile := 0]> (nulterminate c buf)
  | PipeCmd l r => nulterminate r (nulterminate l buf)
  | ListCmd l r => nulterminate r (nulterminate l buf)
  | Back c => nulterminate c buf
  end.

(** The tree, and the buffer the words are read from. *)
Definition parsecmd (buf : list Z) (es : nat) : presult (cmd * list Z) :=
  pbind (parseline buf es (4 * es + 4) 0) (fun '(c, p) =>
  let (_, p) := peek buf es p [] in
  if decide (p <> es) then PPanic "syntax"
  else POk (c, nulterminate c buf)).

(** ** Tokens *)

Section tokens.
Context (buf : list Z) (es : nat).

(** [es = s + strlen(s)]. *)
Definition input_ok : Prop :=
  length buf = S es /\ at_ buf es = 0 /\ forall i, (i < es)%nat -> at_ buf i <> 0.
Definition special (c : Z) : Prop := c ∈ whitespace \/ c ∈ symbols.

(** A span of the input that is a word. *)
Definition word_span (s : nat * nat) : Prop :=
  (s.1 < s.2 <= es)%nat /\ (forall i, (s.1 <= i < s.2)%nat -> ~ special (at_ buf i)) /\ (s.2 = es \/ special (at_ buf s.2)).

Context (Hin : input_ok).

Lemma in_set_true l c : in_set l c = true <-> c ∈ l.
Proof. apply bool_decide_eq_true. Qed.
Lemma in_set_false l c : in_set l c = false <-> c ∉ l.
Proof. apply bool_decide_eq_false. Qed.

Lemma skip_ws_spec p : (p <= es)%nat ->
  (p <= skip_ws buf (es - p) p <= es)%nat /\ (skip_ws buf (es - p) p = es \/ at_ buf (skip_ws buf (es - p) p) ∉ whitespace).
Proof.
  intros Hp. remember (es - p)%nat as n eqn:En. revert p Hp En. induction n as [|n IH]; intros p Hp En; cbn [skip_ws]; [lia|].
  destruct (in_set whitespace (at_ buf p)) eqn:E; [|apply in_set_false in E; split; [lia | by right]].
  destruct (IH (S p) ltac:(lia) ltac:(lia)) as [H1 H2]. split; [lia | done].
Qed.

Lemma skip_word_spec p : (p <= es)%nat ->
  let e := skip_word buf (es - p) p in
  (p <= e <= es)%nat /\ (forall i, (p <= i < e)%nat -> ~ special (at_ buf i)) /\ (e = es \/ special (at_ buf e)).
Proof.
  intros Hp. cbv zeta. remember (es - p)%nat as n eqn:En. revert p Hp En. induction n as [|n IH]; intros p Hp En; cbn [skip_word].
  { split_and!; [lia.. | intros; lia | left; lia]. }
  destruct (in_set whitespace (at_ buf p) || in_set symbols (at_ buf p)) eqn:E.
  - apply orb_true_iff in E. rewrite !in_set_true in E. split_and!; [lia.. | intros; lia | by right].
  - apply orb_false_iff in E. rewrite !in_set_false in E. destruct (IH (S p) ltac:(lia) ltac:(lia)) as (H1 & H2 & H3).
    split_and!; [lia.. | | done]. intros i Hi. destruct (decide (i = p)) as [->|]; [unfold special; tauto | apply H2; lia].
Qed.

(** A token lies between the positions before and after it; it is a word if
    the code says so, and there is none only at the end. *)
Record token_ok (p : nat) (tok : Z) (q eq p' : nat) : Prop := {
  to_le : (p <= q <= eq)%nat;
  to_end : (eq <= p' <= es)%nat;
  to_word : tok = TOK_WORD -> word_span (q, eq);
  to_none : (p < es)%nat -> (p < p')%nat;
}.

Lemma gettoken_spec p : (p <= es)%nat ->
  let '(tok, q, eq, p') := gettoken buf es p in token_ok p tok q eq p'.
Proof.
  intros Hp. unfold gettoken. destruct (skip_ws_spec p Hp) as [Hq Hws]. set (q := skip_ws buf (es - p) p) in *.
  destruct Hin as (Hlen & Hend & Hnz).
  assert (Hsym : at_ buf q <> 0 -> (q < es)%nat) by (intros Hc; destruct (decide (q = es)) as [E|]; [by rewrite E in Hc | lia]).
  assert (Hfin : forall tok eq, (q <= eq <= es)%nat -> (tok = TOK_WORD -> word_span (q, eq)) -> ((q < es)%nat -> (q < eq)%nat) ->
    token_ok p tok q eq (skip_ws buf (es - eq) eq)).
  { intros tok eq He Hw Hlt. destruct (skip_ws_spec eq ltac:(lia)) as [H1 _]. split; [lia | lia | done |]. intros ?.
    destruct (decide (q < es)%nat) as [Hl|Hl]; [specialize (Hlt Hl)|]; lia. }
  destruct (Z.eqb_spec (at_ buf q) 0) as [E0|E0].
  { apply Hfin; [lia | rewrite E0; unfold TOK_WORD; lia |]. intros H. by apply Hnz in H. }
  specialize (Hsym E0). destruct (in_set [124; 40; 41; 59; 38; 60] (at_ buf q)) eqn:Es.
  { apply Hfin; [lia | | lia]. intros E. rewrite E in Es. by compute in Es. }
  destruct (Z.eqb_spec (at_ buf q) 62) as [E1|E1].
  { destruct (Z.eqb_spec (at_ buf (S q)) 62) as [E2|E2]; apply Hfin; rewrite ?E1; unfold TOK_APPEND, TOK_WORD; try lia.
    destruct (decide (S q = es)) as [E|]; [rewrite E, Hend in E2|]; lia. }
  destruct (skip_word_spec q ltac:(lia)) as (H1 & H2 & H3). set (e := skip_word buf (es - q) q) in *.
  assert (~ special (at_ buf q)) as Hsp.
  { apply in_set_false in Es. unfold special, symbols. intros [?|Hs]; [destruct Hws; [lia | done]|]. set_solver. }
  assert (q < e)%nat as Hqe. { destruct (decide (q = e)) as [E|]; [|lia]. rewrite <- E in H3. destruct H3; [lia | done]. }
  apply Hfin; [lia | | lia]. intros _. split_and!; cbn; [lia.. | done | done].
Qed.

Lemma peek_spec p toks : (p <= es)%nat ->
  (p <= (peek buf es p toks).2 <= es)%nat /\ ((peek buf es p toks).1 = true -> ((peek buf es p toks).2 < es)%nat).
Proof.
  intros Hp. unfold peek. cbn [fst snd]. destruct (skip_ws_spec p Hp) as [H1 _]. split; [lia|]. intros Hb.
  apply andb_true_iff in Hb as [Hb _]. apply negb_true_iff, Z.eqb_neq in Hb. destruct Hin as (_ & Hend & _).
  destruct (decide (skip_ws buf (es - p) p = es)) as [E|]; [by rewrite E, Hend in Hb | lia].
Qed.
End tokens.

(** ** Trees *)

(** The words of a command, each with the end of its span. *)
Fixpoint words_of (c : cmd) : list (nat * nat) :=
  match c with
  | Exec argv => argv
  | Redir c file efile _ _ => words_of c ++ [(file, efile)]
  | PipeCmd l r => words_of l ++ words_of r
  | ListCmd l r => words_of l ++ words_of r
  | Back c => words_of c
  end.

(** [argv] and its null terminator fit in the array. *)
Fixpoint argv_fits (c : cmd) : Prop :=
  match c with
  | Exec argv => (length argv < MAXARGS)%nat
  | Redir c _ _ _ _ => argv_fits c
  | PipeCmd l r => argv_fits l /\ argv_fits r
  | ListCmd l r => argv_fits l /\ argv_fits r
  | Back c => argv_fits c
  end.

(** Redirections are of standard input or output. *)
Fixpoint redirs_std (c : cmd) : Prop :=
  match c with
  | Exec _ => True
  | Redir c _ _ _ fd => (fd = 0 \/ fd = 1) /\ redirs_std c
  | PipeCmd l r => redirs_std l /\ redirs_std r
  | ListCmd l r => redirs_std l /\ redirs_std r
  | Back c => redirs_std c
  end.

Section trees.
Context (buf : list Z) (es : nat) (Hin : input_ok buf es).

Definition cmd_ok (c : cmd) : Prop := Forall (word_span buf es) (words_of c) /\ argv_fits c /\ redirs_std c.
Definition redir_ok (r : redir) : Prop := word_span buf es (r.1.1.1, r.1.1.2) /\ (r.2 = 0 \/ r.2 = 1).

(** A parse from [p] that did not run out of fuel. *)
Definition parsed {A} (ok : A -> Prop) (p : nat) (r : presult (A * nat)) : Prop :=
  match r with POk (a, p') => (p <= p' <= es)%nat /\ ok a | PPanic _ => True | PFuel => False end.

Lemma parsed_weaken {A} (ok : A -> Prop) p p' r : (p <= p')%nat -> parsed ok p' r -> parsed ok p r.
Proof. intros Hp. destruct r as [[a x]| |]; cbn; [|done..]. intros []. split; [lia | done]. Qed.
Lemma parsed_bind {A B} (ok : A -> Prop) (ok' : B -> Prop) p (r : presult (A * nat)) (k : A * nat -> presult (B * nat)) :
  parsed ok p r -> (forall a p', (p <= p' <= es)%nat -> ok a -> parsed ok' p' (k (a, p'))) -> parsed ok' p (pbind r k).
Proof.
  destruct r as [[a p']| |]; cbn; [|done..]. intros [Hp Ha] Hk. eapply parsed_weaken; [|by apply Hk]. lia.
Qed.

(** Reads a token: its span and the new position. *)
Ltac token p tok q eq p' H :=
  let Hp := fresh in
  assert (p <= es)%nat as Hp by lia; pose proof (gettoken_spec buf es Hin p Hp) as H; clear Hp;
  destruct (gettoken buf es p) as [[[tok q] eq] p'].
Ltac look p toks b p' H :=
  let Hp := fresh in
  assert (p <= es)%nat as Hp by lia; pose proof (peek_spec buf es Hin p toks Hp) as H; clear Hp;
  destruct (peek buf es p toks) as [b p']; cbn [fst snd] in H.

Lemma parseredirs_spec fuel p : (p <= es)%nat -> (es - p < fuel)%nat -> parsed (Forall redir_ok) p (parseredirs buf es fuel p).
Proof.
  revert p. induction fuel as [|fuel IH]; intros p Hp Hf; [lia|]. cbn [parseredirs]. look p [60; 62] b p1 H1.
  destruct b; cbn [negb]; [|cbn; split; [lia | constructor]]. destruct H1 as [H1 Hlt]. specialize (Hlt eq_refl).
  token p1 tok q0 e0 p2 H2. pose proof (to_none _ _ _ _ _ _ _ H2 Hlt) as Hadv. destruct H2 as [_ He2 _ _].
  token p2 tok2 q e p3 H3. destruct (Z.eqb_spec tok2 TOK_WORD) as [E|]; cbn [negb]; [|done]. destruct H3 as [Hl3 He3 Hw _].
  apply (parsed_weaken _ _ p3); [lia|]. eapply parsed_bind; [apply IH; lia|]. intros rs p4 Hp4 Hrs. split; [lia|].
  apply Forall_app. split; [|done]. destruct (tok =? 60), (tok =? 62), (tok =? TOK_APPEND);
    try apply Forall_nil_2; apply Forall_singleton; (split; [by apply Hw|cbn; tauto]).
Qed.

Lemma parseargs_spec fuel argc p : (p <= es)%nat -> (es - p < fuel)%nat -> (argc < MAXARGS)%nat ->
  parsed (fun a => Forall (word_span buf es) a.1 /\ Forall redir_ok a.2 /\ (argc + length a.1 < MAXARGS)%nat) p (parseargs buf es fuel argc p).
Proof.
  revert argc p. induction fuel as [|fuel IH]; intros argc p Hp Hf Ha; [lia|]. cbn [parseargs]. look p [124; 41; 38; 59] b p1 H1.
  destruct b; [cbn; split_and!; [lia.. | constructor | constructor | lia]|]. destruct H1 as [H1 _].
  token p1 tok q e p2 H2. destruct (Z.eqb_spec tok 0) as [|E0]; [destruct H2; cbn; split_and!; [lia.. | constructor | constructor | lia]|].
  destruct (Z.eqb_spec tok TOK_WORD) as [E|]; cbn [negb]; [|done]. destruct H2 as [Hl2 He2 Hw _]. specialize (Hw E).
  destruct (Nat.leb_spec MAXARGS (S argc)); [done|]. apply (parsed_weaken _ _ p2); [lia|].
  eapply parsed_bind; [apply parseredirs_spec; lia|]. intros rs p3 Hp3 Hrs.
  assert (q < e)%nat by (destruct Hw as [? _]; cbn in *; lia).
  eapply parsed_bind; [apply (IH (S argc) p3); lia|]. intros [args rs'] p4 Hp4 (Hargs & Hrs' & Hlen). cbn in Hargs, Hrs', Hlen.
  cbn. split_and!; [lia.. | by constructor | by apply Forall_app | lia].
Qed.

Lemma backs_spec fuel c p : (p <= es)%nat -> (es - p < fuel)%nat -> cmd_ok c -> parsed cmd_ok p (backs buf es fuel c p).
Proof.
  revert c p. induction fuel as [|fuel IH]; intros c p Hp Hf Hc; [lia|]. cbn [backs]. look p [38] b p1 H1.
  destruct b; [|cbn; split; [lia | done]]. destruct H1 as [H1 Hlt]. specialize (Hlt eq_refl). token p1 tok q e p2 H2.
  pose proof (to_none _ _ _ _ _ _ _ H2 Hlt). destruct H2 as [_ He2 _ _]. apply (parsed_weaken _ _ p2); [lia|]. apply IH; [lia | lia | exact Hc].
Qed.

Lemma redirs_ok rs : forall c, cmd_ok c -> Forall redir_ok rs -> cmd_ok (foldl redircmd c rs).
Proof.
  induction rs as [|[[[q e] m] fd] rs IH]; intros c Hc Hrs; [done|]. inversion_clear Hrs as [|? ? [Hr Hfd] Hrs']. cbn. apply IH; [|done].
  destruct Hc as (Hw & Ha & Hs). split; [|split; [exact Ha|by split]]. cbn. apply Forall_app. split; [done|]. by apply Forall_singleton.
Qed.
Lemma two_ok c c' : cmd_ok c -> cmd_ok c' -> cmd_ok (PipeCmd c c') /\ cmd_ok (ListCmd c c').
Proof. intros (H1 & H2 & H3) (G1 & G2 & G3). split; (split; [by apply Forall_app | by repeat split]). Qed.

Lemma parse_spec fuel : forall p, (p <= es)%nat ->
  ((4 * (es - p) + 3 < fuel)%nat -> parsed cmd_ok p (parseline buf es fuel p)) /\
  ((4 * (es - p) + 2 < fuel)%nat -> parsed cmd_ok p (parsepipe buf es fuel p)) /\
  ((4 * (es - p) + 1 < fuel)%nat -> parsed cmd_ok p (parseexec buf es fuel p)) /\
  ((4 * (es - p) < fuel)%nat -> parsed cmd_ok p (parseblock buf es fuel p)).
Proof.
  induction fuel as [|fuel IH]; intros p Hp; [lia|]. split_and!; intros Hf.
  - cbn [parseline]. eapply parsed_bind; [apply (IH p); lia|]. intros c p1 Hp1 Hc.
    eapply parsed_bind; [apply backs_spec; [lia | lia | done]|]. intros c2 p2 Hp2 Hc2. look p2 [59] b p3 H3.
    destruct b; [|cbn; split; [lia | done]]. destruct H3 as [H3 Hlt]. specialize (Hlt eq_refl). token p3 tok q e p4 H4.
    pose proof (to_none _ _ _ _ _ _ _ H4 Hlt). destruct H4 as [_ He4 _ _]. apply (parsed_weaken _ _ p4); [lia|].
    eapply parsed_bind; [apply (IH p4); lia|]. intros c' p5 Hp5 Hc'. split; [lia | by apply two_ok].
  - cbn [parsepipe]. eapply parsed_bind; [apply (IH p); lia|]. intros c p2 Hp2 Hc2. look p2 [124] b p3 H3.
    destruct b; [|cbn; split; [lia | done]]. destruct H3 as [H3 Hlt]. specialize (Hlt eq_refl). token p3 tok q e p4 H4.
    pose proof (to_none _ _ _ _ _ _ _ H4 Hlt). destruct H4 as [_ He4 _ _]. apply (parsed_weaken _ _ p4); [lia|].
    eapply parsed_bind; [apply (IH p4); lia|]. intros c' p5 Hp5 Hc'. split; [lia | by apply two_ok].
  - cbn [parseexec]. look p [40] b p1 H1. apply (parsed_weaken _ _ p1); [lia|]. destruct b; [apply (IH p1); lia|].
    eapply parsed_bind; [apply parseredirs_spec; lia|]. intros rs p2 Hp2 Hrs.
    eapply parsed_bind; [apply parseargs_spec; unfold MAXARGS; lia|]. intros [args rs'] p3 Hp3 (Hargs & Hrs' & Hlen).
    split; [lia|]. apply redirs_ok; [by split | by apply Forall_app].
  - cbn [parseblock]. look p [40] b p1 H1. destruct b; cbn [negb]; [|done]. destruct H1 as [H1 Hlt]. specialize (Hlt eq_refl).
    token p1 tok q e p2 H2. pose proof (to_none _ _ _ _ _ _ _ H2 Hlt). destruct H2 as [_ He2 _ _]. apply (parsed_weaken _ _ p2); [lia|].
    eapply parsed_bind; [apply (IH p2); lia|]. intros c p3 Hp3 Hc. look p3 [41] b p4 H4. destruct b; cbn [negb]; [|done].
    destruct H4 as [H4 _]. token p4 tok' q' e' p5 H5. destruct H5 as [Hl5 He5 _ _]. apply (parsed_weaken _ _ p5); [lia|].
    eapply parsed_bind; [apply parseredirs_spec; lia|]. intros rs p6 Hp6 Hrs. split; [lia | by apply redirs_ok].
Qed.
End trees.

(** ** The words in the buffer *)

(** The C string that starts at index [q]. *)
Fixpoint cstr (l : list Z) : list Z :=
  match l with
  | [] => []
  | c :: l => if c =? 0 then [] else c :: cstr l
  end.

Definition zero_at (b : list Z) (es : list nat) : list Z := foldl (fun b e => <[e := 0]> b) b es.

Lemma nulterminate_zeros c b : nulterminate c b = zero_at b (words_of c).*2.
Proof.
  unfold zero_at. revert b. induction c as [argv|c IH q e m fd|l IHl r IHr|l IHl r IHr|c IH]; intros b; cbn [nulterminate words_of].
  - revert b. induction argv as [|[q e] argv IH]; intros b; [done | cbn; apply IH].
  - by rewrite fmap_app, foldl_app, <- IH.
  - by rewrite fmap_app, foldl_app, <- IHl, <- IHr.
  - by rewrite fmap_app, foldl_app, <- IHl, <- IHr.
  - apply IH.
Qed.

Lemma zero_at_lookup es : forall b i, zero_at b es !! i = if decide (i ∈ es) then b !! i ≫= (fun _ => Some 0) else b !! i.
Proof.
  unfold zero_at. induction es as [|e es IH]; intros b i; cbn [foldl]; [by rewrite decide_False by apply not_elem_of_nil|].
  rewrite IH. destruct (decide (e = i)) as [->|Hne].
  - rewrite (decide_True (P := i ∈ i :: es)) by (apply elem_of_cons; by left).
    destruct (b !! i) as [x|] eqn:E.
    + rewrite list_lookup_insert_eq by (by apply lookup_lt_is_Some; eexists). by destruct (decide _).
    + rewrite lookup_ge_None_2 by (rewrite length_insert; by apply lookup_ge_None). by destruct (decide _).
  - rewrite list_lookup_insert_ne by done. destruct (decide (i ∈ es)).
    + rewrite decide_True by (apply elem_of_cons; by right). done.
    + rewrite decide_False by (rewrite elem_of_cons; naive_solver). done.
Qed.

Lemma cstr_spec (l w : list Z) : Forall (fun c => c <> 0) w -> (forall i, (i < length w)%nat -> l !! i = w !! i) -> l !! length w = Some 0 -> cstr l = w.
Proof.
  intros Hw. revert l. induction Hw as [|c w Hc Hw IH]; intros [|x l] Hl H0; cbn in *; try done.
  - injection H0 as ->. done.
  - specialize (Hl O ltac:(lia)) as Hx. injection Hx as ->. rewrite (proj2 (Z.eqb_neq _ _) Hc). f_equal.
    apply IH; [|done]. intros i Hi. apply (Hl (S i)). lia.
Qed.

Lemma span_kept buf es ws q e : input_ok buf es -> Forall (word_span buf es) ws -> (q, e) ∈ ws ->
  cstr (drop q (zero_at buf ws.*2)) = take (e - q) (drop q buf).
Proof.
  intros (Hlen & _ & Hnz) Hws Hin. pose proof Hws as Hall. rewrite Forall_forall in Hall. destruct (Hall _ Hin) as (Hqe & Hw & _). cbn in Hqe, Hw.
  assert (length (take (e - q) (drop q buf)) = (e - q)%nat) as El by (rewrite length_take, length_drop; lia).
  apply cstr_spec.
  - apply Forall_lookup. intros i x Hx. assert (i < e - q)%nat as Hi by (rewrite <- El; by eapply lookup_lt_Some).
    rewrite lookup_take_lt, lookup_drop in Hx by done. specialize (Hnz (q + i)%nat ltac:(lia)).
    unfold at_, nthZ in Hnz. rewrite Nat2Z.id, nth_lookup, Hx in Hnz. exact Hnz.
  - rewrite El. intros i Hi. rewrite lookup_take_lt, !lookup_drop, zero_at_lookup by done. rewrite decide_False; [done|].
    intros (s & E & Hs)%list_elem_of_fmap. destruct (Hall _ Hs) as (Hse & _ & [Hend|Hsp]); [lia|]. rewrite <- E in Hsp.
    by apply (Hw (q + i)%nat ltac:(lia)).
  - rewrite El, lookup_drop, zero_at_lookup, decide_True by (apply list_elem_of_fmap; exists (q, e); split; [cbn; lia | done]).
    destruct (lookup_lt_is_Some_2 buf (q + (e - q))) as [x ->]; [lia | done].
Qed.

(** What the parser returns. *)
Lemma parsecmd_ok buf es : input_ok buf es ->
  match parsecmd buf es with
  | POk (c, b) => cmd_ok buf es c /\ b = nulterminate c buf
  | PPanic _ => True
  | PFuel => False
  end.
Proof.
  intros Hin. unfold parsecmd. destruct (parse_spec buf es Hin (4 * es + 4) 0 ltac:(lia)) as [Hline _]. specialize (Hline ltac:(lia)).
  destruct (parseline buf es (4 * es + 4) 0) as [[c p]| |]; cbn [pbind parsed] in *; [|done..]. destruct Hline as [_ Hc].
  destruct (peek buf es p []) as [b p']. by destruct (decide (p' <> es)).
Qed.

(** C26: the parser terminates on every input line, with a tree or a syntax
    error.  In a tree no [argv] overflows its array, and after [nulterminate]
    every argument and file name, read as a C string, is exactly the text of
    its word, although words next to each other share no terminator. *)
Theorem parsecmd_words buf es : input_ok buf es ->
  match parsecmd buf es with
  | POk (c, b) =>
      argv_fits c /\ forall q e, (q, e) ∈ words_of c -> (q < e)%nat /\ cstr (drop q b) = take (e - q) (drop q buf)
  | PPanic _ => True
  | PFuel => False
  end.
Proof.
  intros Hin. pose proof (parsecmd_ok buf es Hin) as H. destruct (parsecmd buf es) as [[c b]| |]; [|done..].
  destruct H as [(Hw & Ha & _) ->]. split; [done|]. intros q e Hq. split.
  - rewrite Forall_forall in Hw. destruct (Hw _ Hq) as [H _]. cbn in H. lia.
  - rewrite nulterminate_zeros. by apply (span_kept buf es).
Qed.

(** "ls>f|wc": three words that touch. *)
Definition ex_line : list Z := [108; 115; 62; 102; 124; 119; 99; 0].
Lemma ex_line_ok : input_ok ex_line 7.
Proof. split_and!; [done | done |]. intros i Hi. do 7 (destruct i as [|i]; [done|]). lia. Qed.
Lemma parsecmd_words_witness : exists b,
  parsecmd ex_line 7 = POk (PipeCmd (Redir (Exec [(0, 2)]) 3 4 O_WR_CREATE 1) (Exec [(5, 7)]), b)%nat /\
  cstr (drop 3 b) = [102].
Proof.
  pose proof (parsecmd_words ex_line 7 ex_line_ok) as H.
  destruct (parsecmd ex_line 7) as [[c b]| |] eqn:E; [|vm_compute in E; discriminate E..].
  destruct H as [_ H]. exists b. vm_compute in E. injection E as <- <-. split; [reflexivity|].
  destruct (H 3%nat 4%nat) as [_ Hc]; [cbn; set_solver | exact Hc].
Defined.
