(* ===== verification/Umalloc.v ===== *)
(** * The user allocator: umalloc.c

    [malloc] and [free] of Kernighan and Ritchie over the memory of a process.
    Free blocks form a ring through their headers that starts at the static
    header [base]; the heap grows with the system call [sbrk], of which the
    model keeps the size of the process and the kernel's answer.  The theorems
    show that the blocks handed out never overlap, whatever the sequence of
    calls, and what happens to requests too large for the 32-bit sizes. *)

From S2P Require Import Prelude CString Memory.
Import Kstring.

(** ** Process memory *)
Record ustate := UState { u_mem : mem; u_sz : Z; u_freep : Z }.
Definition set_umem (m : mem) (s : ustate) : ustate := UState m (u_sz s) (u_freep s).
Definition set_usz (z : Z) (s : ustate) : ustate := UState (u_mem s) z (u_freep s).
Definition set_freep (p : Z) (s : ustate) : ustate := UState (u_mem s) (u_sz s) p.

(** Whole pages are mapped: an access faults above the page of the last byte. *)
Definition umapped (s : ustate) (a : Z) : bool := (0 <=? a) && (a + 4 <=? PGROUNDUP (u_sz s)).
Definition uload (a : Z) : M ustate Z :=
  let! s := get in
  if umapped s a then ret (load32 (u_mem s) a) else undef "page fault".
Definition ustorew (a w : Z) : M ustate unit :=
  let! s := get in
  if umapped s a then modify (set_umem (store32 (u_mem s) a w)) else undef "page fault".

(** [sizeof(Header)], and the fields of [union header]. *)
Definition HDR : Z := 8.
Definition hptr (p : Z) : M ustate Z := uload p.
Definition hsize (p : Z) : M ustate Z := uload (u32 (p + 4)).
Definition set_ptr (p q : Z) : M ustate unit := ustorew p q.
Definition set_size (p n : Z) : M ustate unit := ustorew (u32 (p + 4)) n.

Section umalloc.
(** The address of [base], and whether the kernel can grow the process from
    one size to another. *)
Context (base : Z) (grants : Z -> Z -> bool).

(** When the size would become 0 all pages are gone on the return to the
    process, although [growproc] takes it for an error. *)
Definition sbrk (n : Z) : M ustate Z :=
  let! s := get in
  let n := i32 n in
  if (n <? 0) && (u32 (u_sz s + n) =? 0) then undef "page fault" else
  match brk_size (grants (u_sz s) (u32 (u_sz s + n))) (u_sz s) n with
  | None => ret (u32 (-1))
  | Some sz => modify (set_usz sz) ;;; ret (u_sz s)
  end.

(** ** free *)

(** A ring in [sz] bytes has at most [sz / 8] headers. *)
Definition ring_fuel (s : ustate) : nat := Datatypes.S (Z.to_nat (u_sz s / HDR)).

(** [for(p = freep; !(bp > p && bp < p->s.ptr); p = p->s.ptr) if(p >= p->s.ptr && (bp > p || bp < p->s.ptr)) break;] *)
Fixpoint free_scan (fuel : nat) (bp p : Z) : M ustate Z :=
  match fuel with
  | O => undef "free: fuel"
  | S fuel =>
      let! q := hptr p in
      if (p <? bp) && (bp <? q) then ret p
      else if (q <=? p) && ((p <? bp) || (bp <? q)) then ret p
      else free_scan fuel bp q
  end.

(** [if(bp + bp->s.size == p->s.ptr) ... else bp->s.ptr = p->s.ptr;] *)
Definition join_next (bp p : Z) : M ustate unit :=
  let! n := hsize bp in
  let! q := hptr p in
  if u32 (bp + HDR * n) =? q then
    let! n := hsize bp in
    let! q := hptr p in
    let! m := hsize q in
    set_size bp (u32 (n + m)) ;;;
    let! q := hptr p in
    let! r := hptr q in
    set_ptr bp r
  else
    let! q := hptr p in
    set_ptr bp q.

(** [if(p + p->s.size == bp) ... else p->s.ptr = bp;] *)
Definition join_prev (bp p : Z) : M ustate unit :=
  let! n := hsize p in
  if u32 (p + HDR * n) =? bp then
    let! n := hsize p in
    let! m := hsize bp in
    set_size p (u32 (n + m)) ;;;
    let! r := hptr bp in
    set_ptr p r
  else set_ptr p bp.

Definition free (ap : Z) : M ustate unit :=
  let bp := u32 (ap - HDR) in
  let! s := get in
  let! p := free_scan (ring_fuel s) bp (u_freep s) in
  join_next bp p ;;;
  join_prev bp p ;;;
  modify (set_freep p).

(** ** malloc *)

Definition morecore (nu : Z) : M ustate Z :=
  let nu := if nu <? 4096 then 4096 else nu in
  let! p := sbrk (u32 (nu * HDR)) in
  if p =? u32 (-1) then ret 0
  else
    let hp := p in
    set_size hp nu ;;;
    free (u32 (hp + HDR)) ;;;
    gets u_freep.

(** [if(p->s.size == nunits) ... else ...; freep = prevp; return (void* )(p + 1);] *)
Definition take (nunits prevp p n : Z) : M ustate Z :=
  let! p :=
    (if n =? nunits then
       let! q := hptr p in
       set_ptr prevp q ;;;
       ret p
     else
       set_size p (u32 (n - nunits)) ;;;
       let! n := hsize p in
       let p := u32 (p + HDR * n) in
       set_size p nunits ;;;
       ret p) in
  modify (set_freep prevp) ;;;
  ret (u32 (p + HDR)).

Fixpoint malloc_loop (fuel : nat) (nunits prevp p : Z) : M ustate Z :=
  match fuel with
  | O => undef "malloc: fuel"
  | S fuel =>
      let! n := hsize p in
      if nunits <=? n then take nunits prevp p n
      else
        let! freep := gets u_freep in
        if p =? freep then
          let! p := morecore nunits in
          if p =? 0 then ret 0
          else
            let! q := hptr p in
            malloc_loop fuel nunits p q
        else
          let! q := hptr p in
          malloc_loop fuel nunits p q
  end.

Definition units (nbytes : Z) : Z := u32 (nbytes + HDR - 1) / HDR + 1.

Definition malloc (nbytes : Z) : M ustate Z :=
  let nunits := units nbytes in
  let! s := get in
  when (u_freep s =? 0)
    (set_ptr base base ;;; modify (set_freep base) ;;; set_size base 0) ;;;
  let! prevp := gets u_freep in
  let! p := hptr prevp in
  malloc_loop (2 * ring_fuel s) nunits prevp p.

End umalloc.

(** ** Blocks *)

(** A block of [n] units at [p]; [base] has a header and no unit. *)
Definition span (n : Z) : Z := Z.max HDR (HDR * n).
Ltac hlia := unfold span, HDR, KERNBASE in *; lia.
Definition hda (l : list (Z * Z)) (e : Z) : Z := match l with [] => e | b :: _ => b.1 end.

(** The headers of [l] hold its sizes and link it, the last one to [e]. *)
Fixpoint links (m : mem) (l : list (Z * Z)) (e : Z) : Prop :=
  match l with
  | [] => True
  | (p, n) :: l => load32 m p = hda l e /\ load32 m (p + 4) = n /\ links m l e
  end.

(** In the order of addresses between [lo] and [hi], with a gap between any two. *)
Fixpoint blocks (lo : Z) (l : list (Z * Z)) (hi : Z) : Prop :=
  match l with
  | [] => True
  | (p, n) :: l => lo <= p /\ 0 <= n /\ p + span n <= hi /\ blocks (p + Z.max HDR (HDR * n + 1)) l hi
  end.
Fixpoint bend (lo : Z) (l : list (Z * Z)) : Z :=
  match l with [] => lo | (p, n) :: l => bend (p + Z.max HDR (HDR * n + 1)) l end.

Definition total (l : list (Z * Z)) : Z := foldr (fun b t => b.2 + t) 0 l.

(** ** Lists of blocks *)

Lemma links_app m l1 l2 e : links m (l1 ++ l2) e <-> links m l1 (hda l2 e) /\ links m l2 e.
Proof.
  induction l1 as [|[p n] l1 IH]; cbn [links app]; [tauto|]. rewrite IH.
  assert (hda (l1 ++ l2) e = hda l1 (hda l2 e)) as -> by (by destruct l1). tauto.
Qed.

Lemma blocks_app lo l1 l2 hi : blocks lo (l1 ++ l2) hi <-> blocks lo l1 hi /\ blocks (bend lo l1) l2 hi.
Proof. revert lo. induction l1 as [|[p n] l1 IH]; intros lo; cbn [blocks bend app]; [tauto|]. rewrite IH. tauto. Qed.

(** Another lower bound. *)
Lemma blocks_lo lo lo' l hi : blocks lo l hi -> (l = [] \/ lo' <= hda l 0) -> blocks lo' l hi.
Proof. destruct l as [|[p n] l]; [done|]. intros (H1 & H2) [?|Hlo]; [done|]. cbn in *. tauto. Qed.
Lemma blocks_hi lo l hi hi' : hi <= hi' -> blocks lo l hi -> blocks lo l hi'.
Proof. intros Hh. revert lo. induction l as [|[p n] l IH]; intros lo; cbn [blocks]; [done|]. intros (H1 & H2 & H3 & H4). split_and!; auto; lia. Qed.

Lemma bend_le lo l hi : blocks lo l hi -> lo <= bend lo l.
Proof.
  revert lo. induction l as [|[p n] l IH]; intros lo; cbn [blocks bend]; [lia|]. intros (H1 & H2 & _ & H3). apply IH in H3. unfold HDR in *. lia.
Qed.

(** Every block of [l] lies below its end and above its beginning. *)
Lemma blocks_below lo l hi b : blocks lo l hi -> b ∈ l -> lo <= b.1 /\ 0 <= b.2 /\ b.1 + span b.2 <= hi /\ b.1 + Z.max HDR (HDR * b.2 + 1) <= bend lo l.
Proof.
  revert lo. induction l as [|[p n] l IH]; intros lo H Hb; [by apply elem_of_nil in Hb|]. cbn [blocks bend] in *. destruct H as (H1 & H2 & H3 & H4).
  apply elem_of_cons in Hb as [->|Hb]; cbn [fst snd].
  - apply bend_le in H4. by split_and!.
  - destruct (IH _ H4 Hb) as (G1 & G2 & G3 & G4). split_and!; try done. unfold HDR in *. lia.
Qed.

Lemma blocks_length lo l hi : blocks lo l hi -> l <> [] -> HDR * Z.of_nat (length l) <= hi - lo.
Proof.
  revert lo. induction l as [|[p n] l IH]; intros lo H Hne; [done|]. cbn [blocks length] in *. destruct H as (H1 & H2 & H3 & H4).
  unfold span, HDR in *. destruct l as [|b l]; [cbn; lia|]. specialize (IH _ H4 ltac:(done)). lia.
Qed.

Lemma total_app l1 l2 : total (l1 ++ l2) = total l1 + total l2.
Proof. induction l1 as [|b l1 IH]; [done|]. cbn [total foldr app] in *. unfold total in *. lia. Qed.

(** A store beside the headers. *)
Lemma links_store m l e a w : 0 <= a -> a + 4 <= 2 ^ 32 ->
  (forall b, b ∈ l -> 0 <= b.1 /\ b.1 + HDR <= 2 ^ 32 /\ (b.1 + HDR <= a \/ a + 4 <= b.1)) -> links m l e -> links (store32 m a w) l e.
Proof.
  intros Ha1 Ha2. induction l as [|[p n] l IH]; intros Hb; cbn [links]; [done|]. intros (H1 & H2 & H3).
  destruct (Hb (p, n) ltac:(by left)) as (B1 & B2 & B3). cbn [fst] in *. unfold HDR in *. rewrite !load32_store32_ne by lia. split_and!; try done.
  apply IH; [|done]. intros b Hin. apply Hb. by right.
Qed.

Lemma hda_lt lo l hi e : blocks lo l hi -> l = [] /\ hda l e = e \/ lo <= hda l e.
Proof. destruct l as [|[p n] l]; [by left|]. intros (H & _). by right. Qed.

(** ** The walk around the ring *)
Lemma hda_drop l k e : hda (drop k l) e = match l !! k with Some b => b.1 | None => e end.
Proof. revert k. induction l as [|b l IH]; intros [|k]; cbn; auto. Qed.
Lemma links_lookup m l e i p n : links m l e -> l !! i = Some (p, n) -> load32 m (p + 4) = n /\ load32 m p = match l !! Datatypes.S i with Some b => b.1 | None => e end.
Proof.
  rewrite <- hda_drop. revert i. induction l as [|[q k] l IH]; intros [|i]; cbn [links lookup]; try done.
  - intros (H1 & H2 & H3) [= -> ->]. by rewrite H1.
  - intros (H1 & H2 & H3) H. cbn [drop]. by apply IH.
Qed.
Lemma blocks_lookup_lt lo l hi i j b c : blocks lo l hi -> l !! i = Some b -> l !! j = Some c -> (i < j)%nat ->
  b.1 + Z.max HDR (HDR * b.2 + 1) <= c.1.
Proof.
  intros H Hi Hj Hij. rewrite <- (take_drop_middle l i b Hi) in H. apply blocks_app in H as [_ H]. destruct b as [p n]. destruct H as (_ & _ & _ & H).
  apply (blocks_below _ _ _ c) in H as (H & _); [done|]. apply list_elem_of_lookup. exists (j - Datatypes.S i)%nat. rewrite lookup_drop. rewrite <- Hj. f_equal. lia.
Qed.


(** The bytes from [u] to [v] are in no block of [l]. *)
Definition clear (l : list (Z * Z)) (u v : Z) : Prop := forall b, b ∈ l -> v <= b.1 \/ b.1 + span b.2 <= u.

Lemma clear_app l1 l2 u v : clear (l1 ++ l2) u v <-> clear l1 u v /\ clear l2 u v.
Proof. split; [intros H; split; intros b Hb; apply H, elem_of_app; tauto | intros [H1 H2] b [Hb|Hb]%elem_of_app; auto]. Qed.
Lemma clear_cons b l u v : clear (b :: l) u v <-> (v <= b.1 \/ b.1 + span b.2 <= u) /\ clear l u v.
Proof. split; [intros H; split; [|intros c Hc]; apply H, elem_of_cons; tauto | intros [H1 H2] c [->|Hc]%elem_of_cons; auto]. Qed.
Lemma clear_nil u v : clear [] u v.
Proof. intros b Hb. by apply elem_of_nil in Hb. Qed.

(** The place of a block in the ring. *)
Lemma blocks_split lo l hi bp e : blocks lo l hi -> l <> [] -> hda l 0 < bp -> bp < e -> clear l bp e ->
  exists l1 p n l2, l = l1 ++ (p, n) :: l2 /\ p + span n <= bp /\ (l2 = [] \/ e <= hda l2 0).
Proof.
  revert lo. induction l as [|[p n] l IH]; intros lo Hb Hne Hh He Hc; [done|]. apply clear_cons in Hc as [Hp Hc]. cbn [fst snd hda] in *.
  destruct Hb as (_ & _ & _ & Hb). destruct l as [|[q m] l]; [exists [], p, n, []; split_and!; [done | lia | by left]|].
  pose proof Hc as [Hq _]%clear_cons. cbn [fst snd] in *. destruct (Z.lt_ge_cases q bp) as [Hlt|Hge].
  - destruct (IH _ Hb) as (l1 & p' & n' & l2 & -> & H1 & H2); [done | done | done | done |]. by exists ((p, n) :: l1), p', n', l2.
  - exists [], p, n, ((q, m) :: l). split_and!; [done | lia |]. right. cbn. assert (0 <= m) by apply Hb. unfold span, HDR in Hq. lia.
Qed.

Lemma blocks_clear l2 lo hi a e : blocks lo l2 hi -> e <= lo -> clear l2 a e.
Proof. intros Hb He b Hin. destruct (blocks_below _ _ _ _ Hb Hin) as (B & _). lia. Qed.

Lemma links_store_above m l e lo hi a w : blocks lo l hi -> hi < KERNBASE -> 0 <= a -> a + 4 <= lo -> links m l e -> links (store32 m a w) l e.
Proof.
  intros Hb Hh Ha1 Ha2 Hl. unfold KERNBASE in *. destruct l as [|c l]; [done|].
  assert (forall b, b ∈ c :: l -> lo <= b.1 /\ b.1 + HDR <= hi) as Hin.
  { intros b Hin. destruct (blocks_below _ _ _ _ Hb Hin) as (B1 & B2 & B3 & _). unfold span in *. lia. }
  pose proof (Hin c ltac:(by left)). unfold HDR in *. apply links_store; [lia | lia | | done]. intros b Hb'. specialize (Hin b Hb'). unfold HDR. lia.
Qed.
Lemma links_store_below m l e lo hi a w : blocks lo l hi -> hi < KERNBASE -> 0 <= lo -> bend lo l <= a -> a + 4 <= 2 ^ 32 -> links m l e -> links (store32 m a w) l e.
Proof.
  intros Hb Hh H0 Ha1 Ha2 Hl. unfold KERNBASE in *. pose proof (bend_le _ _ _ Hb). apply links_store; [lia | lia | | done]. intros b Hin.
  destruct (blocks_below _ _ _ _ Hb Hin) as (B1 & B2 & B3 & B4). unfold span in *. lia.
Qed.

(** ** Memory accesses *)
Lemma umapped_below s a : 0 <= a -> a + 4 <= u_sz s -> u_sz s < KERNBASE -> umapped s a = true.
Proof.
  intros H1 H2 H3. unfold umapped. destruct (PGROUNDUP_spec (u_sz s)); [lia | unfold PGSIZE, KERNBASE in *; lia |].
  destruct (Z.leb_spec 0 a), (Z.leb_spec (a + 4) (PGROUNDUP (u_sz s))); try lia; done.
Qed.
Lemma wp_hptr p Q s : 0 <= p -> p + HDR <= u_sz s -> u_sz s < KERNBASE -> Q (load32 (u_mem s) p) s -> wp (hptr p) Q s.
Proof. intros. unfold hptr, uload. apply wp_bind, wp_get. unfold HDR in *. rewrite umapped_below by lia. by apply wp_ret. Qed.
Lemma wp_hsize p Q s : 0 <= p -> p + HDR <= u_sz s -> u_sz s < KERNBASE -> Q (load32 (u_mem s) (p + 4)) s -> wp (hsize p) Q s.
Proof. intros. unfold hsize, uload, HDR, KERNBASE in *. rewrite u32_small by lia. apply wp_bind, wp_get. rewrite umapped_below by (unfold KERNBASE; lia). by apply wp_ret. Qed.
Lemma wp_set_ptr p q Q s : 0 <= p -> p + HDR <= u_sz s -> u_sz s < KERNBASE -> Q tt (set_umem (store32 (u_mem s) p q) s) -> wp (set_ptr p q) Q s.
Proof. intros. unfold set_ptr, ustorew. apply wp_bind, wp_get. unfold HDR in *. rewrite umapped_below by lia. by apply wp_modify. Qed.
Lemma wp_set_size p n Q s : 0 <= p -> p + HDR <= u_sz s -> u_sz s < KERNBASE -> Q tt (set_umem (store32 (u_mem s) (p + 4) n) s) -> wp (set_size p n) Q s.
Proof. intros. unfold set_size, ustorew, HDR, KERNBASE in *. rewrite u32_small by lia. apply wp_bind, wp_get. rewrite umapped_below by (unfold KERNBASE; lia). by apply wp_modify. Qed.


Section ring.
Context (base : Z).

(** [al] are the blocks in use with their units. *)
Record heap_inv (s : ustate) (fl : list (Z * Z)) (al : gmap Z Z) : Prop := {
  hi_base : 0 < base;
  hi_sz : u_sz s < KERNBASE;
  hi_links : links (u_mem s) ((base, 0) :: fl) base;
  hi_blocks : blocks base ((base, 0) :: fl) (u_sz s);
  hi_freep : u_freep s ∈ ((base, 0) :: fl).*1;
  hi_alloc a n : al !! a = Some n -> base < a /\ 1 <= n /\ a + HDR * n <= u_sz s /\ load32 (u_mem s) (a + 4) = n;
  hi_apart a n b m : al !! a = Some n -> al !! b = Some m -> a <> b -> a + HDR * n <= b \/ b + HDR * m <= a;
  hi_disj a n b : al !! a = Some n -> b ∈ (base, 0) :: fl -> a + HDR * n <= b.1 \/ b.1 + span b.2 <= a
}.

(** Steps along a ring of [n] from [i] to [t]. *)
Definition dist (n i t : nat) : nat := if (i <=? t)%nat then (t - i)%nat else (n - i + t)%nat.

Lemma free_scan_spec s l bp t tp tn : 0 < base -> u_sz s < KERNBASE -> links (u_mem s) l base -> blocks base l (u_sz s) -> fst <$> l !! 0%nat = Some base ->
  l !! t = Some (tp, tn) -> tp < bp -> (forall q m, l !! Datatypes.S t = Some (q, m) -> bp < q) ->
  forall fuel i p n, l !! i = Some (p, n) -> (dist (length l) i t < fuel)%nat -> wp (free_scan fuel bp p) (fun r s' => r = tp /\ s' = s) s.
Proof.
  intros H0 Hsz Hl Hb Hhd Ht Htp Hnext. assert (base < bp) as Hbb.
  { destruct (blocks_below _ _ _ _ Hb (list_elem_of_lookup_2 _ _ _ Ht)) as (? & _). cbn in *. lia. }
  induction fuel as [|fuel IH]; intros i p n Hi Hd; [lia|]. cbn [free_scan]. apply wp_bind.
  destruct (links_lookup _ _ _ _ _ _ Hl Hi) as (_ & Hq). destruct (blocks_below _ _ _ _ Hb (list_elem_of_lookup_2 _ _ _ Hi)) as (B1 & B2 & B3 & _).
  cbn [fst snd] in *. apply wp_hptr; [lia | unfold span in *; lia | done |]. rewrite Hq.
  pose proof (lookup_lt_Some _ _ _ Ht) as Htl. pose proof (lookup_lt_Some _ _ _ Hi) as Hil. pose proof (blocks_lookup_lt _ _ _ i t _ _ Hb Hi Ht) as Hit.
  pose proof (blocks_lookup_lt _ _ _ t i _ _ Hb Ht Hi) as Hti. unfold dist in *. cbn [fst snd] in *. unfold HDR in *.
  assert ((t < i)%nat -> bp < p) as Hpast.
  { intros Hgt. destruct (decide (i = Datatypes.S t)) as [->|]; [by apply (Hnext p n)|]. destruct (lookup_lt_is_Some_2 l (Datatypes.S t)) as [[x k] Ex]; [lia|].
    pose proof (blocks_lookup_lt _ _ _ (Datatypes.S t) i _ _ Hb Ex Hi ltac:(lia)). specialize (Hnext x k Ex). cbn [fst snd] in *. unfold HDR in *. lia. }
  destruct (l !! Datatypes.S i) as [[q m]|] eqn:Eq; cbn [fst].
  - pose proof (blocks_lookup_lt _ _ _ _ _ _ _ Hb Hi Eq ltac:(lia)) as Hpq. pose proof (lookup_lt_Some _ _ _ Eq). cbn [fst snd] in *. unfold HDR in *.
    destruct (lt_eq_lt_dec i t) as [[Hlt| -> ]|Hgt].
    + pose proof (blocks_lookup_lt _ _ _ (Datatypes.S i) t _ _ Hb Eq Ht) as Hqt. cbn [fst snd] in *. unfold HDR in *.
      assert (q <= tp). { destruct (decide (Datatypes.S i = t)) as [<-|]; [rewrite Eq in Ht; injection Ht; lia | lia]. }
      rewrite (proj2 (Z.ltb_ge bp q)), (proj2 (Z.leb_gt q p)), andb_false_r by lia. cbn [andb]. apply (IH (Datatypes.S i) q m Eq).
      destruct (Nat.leb_spec i t), (Nat.leb_spec (Datatypes.S i) t); lia.
    + rewrite Hi in Ht. injection Ht as -> ->. specialize (Hnext q m Eq). rewrite (proj2 (Z.ltb_lt tp bp)), (proj2 (Z.ltb_lt bp q)) by lia. by apply wp_ret.
    + rewrite (proj2 (Z.ltb_ge p bp)), (proj2 (Z.leb_gt q p)) by lia. cbn [andb]. apply (IH (Datatypes.S i) q m Eq).
      destruct (Nat.leb_spec i t), (Nat.leb_spec (Datatypes.S i) t); lia.
  - apply lookup_ge_None in Eq. rewrite (proj2 (Z.ltb_ge bp base)), (proj2 (Z.leb_le base p)), andb_false_r, orb_false_r by lia. cbn [andb].
    destruct (decide (i = t)) as [->|Hne].
    + rewrite Hi in Ht. injection Ht as -> ->. rewrite (proj2 (Z.ltb_lt tp bp)) by lia. by apply wp_ret.
    + rewrite (proj2 (Z.ltb_ge p bp)) by lia. destruct (l !! 0%nat) as [[b0 n0]|] eqn:E0; [|done]. injection Hhd as ->.
      apply (IH 0%nat base n0 E0). destruct (Nat.leb_spec i t), (Nat.leb_spec 0 t); lia.
Qed.

(** ** Joining a block with its neighbours *)

Section join.
Context (s : ustate) (l1 : list (Z * Z)) (p n bp k : Z) (l2 : list (Z * Z)).

(** [bp] lies between [p] and [l2] and holds its size. *)
Record gap : Prop := {
  gp_base : 0 < base;
  gp_sz : u_sz s < KERNBASE;
  gp_l1 : links (u_mem s) l1 p;
  gp_n : load32 (u_mem s) (p + 4) = n;
  gp_l2 : links (u_mem s) l2 base;
  gp_k : load32 (u_mem s) (bp + 4) = k;
  gp_below : blocks base (l1 ++ [(p, n)]) (u_sz s);
  gp_at : p + span n <= bp;
  gp_pos : 1 <= k;
  gp_end : bp + HDR * k <= u_sz s;
  gp_above : blocks (bp + HDR * k) l2 (u_sz s)
}.

Lemma gap_p : gap -> base <= p /\ 0 <= n /\ p + HDR <= bp /\ p + HDR * n <= bp /\ bend base l1 <= p.
Proof.
  intros G. pose proof (gp_below G) as [H1 H2]%blocks_app. destruct H2 as (H2 & H3 & _). pose proof (bend_le _ _ _ H1). pose proof (gp_at G). unfold span, HDR in *. lia.
Qed.
End join.

(** A store to the header of [bp]. *)
Lemma gap_store s l1 p n bp k l2 a w : gap s l1 p n bp k l2 -> bp <= a -> a + 4 <= bp + HDR ->
  links (store32 (u_mem s) a w) l1 p /\ load32 (store32 (u_mem s) a w) (p + 4) = n /\ links (store32 (u_mem s) a w) l2 base.
Proof.
  intros G H1 H2. destruct (gap_p _ _ _ _ _ _ _ G) as (P1 & P2 & P3 & P4 & P5). destruct G as [G1 G2 G3 G4 G5 G6 G7 G8 G9 G10 G11].
  unfold HDR, KERNBASE in *. split_and!.
  - apply blocks_app in G7 as [G7 _]. apply (links_store_below _ _ _ base (u_sz s)); try done; unfold KERNBASE; lia.
  - rewrite load32_store32_ne by lia. done.
  - apply (links_store_above _ _ _ (bp + 8 * k) (u_sz s)); try done; unfold KERNBASE; lia.
Qed.

Lemma join_next_spec s l1 p n bp k l2 Q : gap s l1 p n bp k l2 -> load32 (u_mem s) p = hda l2 base ->
  (forall m k' l2', gap (set_umem m s) l1 p n bp k' l2' -> load32 m bp = hda l2' base -> (l2' = [] \/ bp + HDR * k' < hda l2' 0) ->
     k <= k' -> (length l2' <= length l2)%nat -> k' + total l2' = k + total l2 ->
     (forall u v, u < v -> clear l2 u v -> v <= bp \/ bp + HDR * k <= u -> clear l2' u v /\ (v <= bp \/ bp + HDR * k' <= u)) ->
     (forall x, x < bp \/ bp + HDR <= x -> m x = u_mem s x) -> Q tt (set_umem m s)) ->
  wp (join_next bp p) Q s.
Proof.
  intros G Hp HQ. destruct (gap_p _ _ _ _ _ _ _ G) as (P1 & P2 & P3 & P4 & P5). pose proof G as [G1 G2 G3 G4 G5 G6 G7 G8 G9 G10 G11].
  unfold join_next. assert (forall q, hda l2 base = q -> bp + HDR * k = q -> exists m l2', l2 = (q, m) :: l2') as Hq.
  { intros q E1 E2. destruct l2 as [|[q' m] l2']; cbn in E1; [unfold HDR in *; lia|]. subst q'. by exists m, l2'. }
  apply wp_bind, wp_hsize; [hlia | hlia | done |]. apply wp_bind, wp_hptr; [hlia | hlia | done |].
  rewrite G6, Hp. rewrite u32_small by hlia. destruct (Z.eqb_spec (bp + HDR * k) (hda l2 base)) as [Heq|Hne].
  - destruct (Hq _ eq_refl Heq) as (m & l2' & El2). clear Hq. rewrite El2 in *. cbn [hda fst] in *. destruct G5 as (L1 & L2 & L3). destruct G11 as (A1 & A2 & A3 & A4).
    set (q := bp + HDR * k) in *. rewrite <- Heq in *. 
    apply wp_bind, wp_hsize; [hlia | hlia | done |]. apply wp_bind, wp_hptr; [hlia | hlia | done |]. rewrite Hp.
    apply wp_bind, wp_hsize; [unfold q, HDR in *; lia | unfold span, HDR in *; lia | done |]. rewrite G6, L2.
    apply wp_bind, wp_set_size; [hlia | hlia | done |].
    destruct (gap_store _ _ _ _ _ _ _ (bp + 4) (u32 (k + m)) G ltac:(lia) ltac:(unfold HDR; lia)) as (S1 & S2 & S3).
    set (s1 := set_umem _ s) in *.
    apply wp_bind, wp_hptr; [hlia | cbn; hlia | done |]. cbn [u_mem set_umem s1].
    assert (load32 (store32 (u_mem s) (bp + 4) (u32 (k + m))) p = q) as -> by (rewrite load32_store32_ne by hlia; done).
    destruct S3 as (T1 & T2 & T3). apply wp_bind, wp_hptr; [hlia | cbn; hlia | done |]. cbn [u_mem set_umem s1]. rewrite T1.
    apply wp_set_ptr; [hlia | cbn; hlia | done |]. set (r := hda l2' base).
    assert (0 <= m /\ q + HDR * m <= u_sz s) as [M1 M2] by hlia.
    assert (gap s1 l1 p n bp (k + m) l2') as Gs1.
    { split; cbn [u_mem u_sz set_umem s1]; try done; try hlia.
      - rewrite load32_store32 by hlia. rewrite u32_idemp. apply u32_small. unfold q in *. hlia.
      - apply (blocks_lo (q + Z.max HDR (HDR * m + 1)) (bp + HDR * (k + m))); [done|]. destruct l2' as [|[x y] l2']; [by left|]. right. destruct A4 as (A4 & _). cbn. hlia. }
    destruct (gap_store _ _ _ _ _ _ _ bp r Gs1 ltac:(lia) ltac:(hlia)) as (R1 & R2 & R3).
    apply (HQ (store32 (u_mem s1) bp r) (k + m) l2').
    + destruct Gs1. split; cbn [u_mem u_sz set_umem s1] in *; try done. rewrite load32_store32_ne by hlia. done.
    + rewrite load32_store32 by hlia. apply u32_small. unfold r. destruct l2' as [|[x y] l2']; [cbn; hlia|]. destruct A4 as (A4 & A5 & A6 & _). cbn. hlia.
    + destruct l2' as [|[x y] l2']; [by left|]. right. destruct A4 as (A4 & _). cbn. hlia.
    + lia.
    + cbn [length]. lia.
    + cbn [total foldr snd]. unfold total. lia.
    + intros u v Huv [Hc1 Hc2]%clear_cons Hor. split; [done|]. cbn [fst snd] in Hc1. hlia.
    + intros x Hx. cbn [u_mem s1 set_umem]. rewrite !store32_other by hlia. done.
  - destruct (gap_store _ _ _ _ _ _ _ bp (hda l2 base) G ltac:(lia) ltac:(unfold HDR; lia)) as (S1 & S2 & S3).
    apply wp_bind, wp_hptr; [hlia | hlia | done |]. rewrite Hp. apply wp_set_ptr; [hlia | hlia | done |].
    apply HQ with (k' := k) (l2' := l2); try done.
    + split; cbn [u_mem u_sz set_umem]; try done. unfold HDR, KERNBASE in *. rewrite load32_store32_ne by lia. done.
    + unfold HDR, KERNBASE in *. rewrite load32_store32 by lia. apply u32_small.
      destruct l2 as [|[q m] l2']; [cbn; lia|]. destruct G11 as (A1 & A2 & A3 & A4). unfold span, HDR in *. cbn. lia.
    + destruct l2 as [|[q m] l2']; [by left|]. right. destruct G11 as (A1 & _). cbn in *. lia.
    + intros x Hx. unfold HDR, KERNBASE in *. apply store32_other; lia.
Qed.

(** A store to the header of [p]. *)
Lemma gap_store_p s l1 p n bp k l2 a w : gap s l1 p n bp k l2 -> p <= a -> a + 4 <= p + HDR ->
  links (store32 (u_mem s) a w) l1 p /\ load32 (store32 (u_mem s) a w) (bp + 4) = k /\ links (store32 (u_mem s) a w) l2 base /\
  load32 (store32 (u_mem s) a w) bp = load32 (u_mem s) bp.
Proof.
  intros G H1 H2. destruct (gap_p _ _ _ _ _ _ _ G) as (P1 & P2 & P3 & P4 & P5). destruct G as [G1 G2 G3 G4 G5 G6 G7 G8 G9 G10 G11]. split_and!.
  - apply blocks_app in G7 as [G7 _]. apply (links_store_below _ _ _ base (u_sz s)); try done; hlia.
  - rewrite load32_store32_ne by hlia. done.
  - apply (links_store_above _ _ _ (bp + HDR * k) (u_sz s)); try done; hlia.
  - apply load32_store32_ne; hlia.
Qed.

Lemma join_prev_spec s l1 p n bp k l2 Q : gap s l1 p n bp k l2 -> load32 (u_mem s) bp = hda l2 base -> (l2 = [] \/ bp + HDR * k < hda l2 0) ->
  (forall m mid, links m (l1 ++ mid ++ l2) base -> blocks base (l1 ++ mid ++ l2) (u_sz s) -> p ∈ mid.*1 -> (n = 0 -> mid = [(p, 0); (bp, k)]) ->
     (length mid <= 2)%nat -> total mid = n + k -> (exists b, b ∈ mid /\ k <= b.2) -> (forall u v, u < v -> v <= p \/ p + span n <= u -> v <= bp \/ bp + HDR * k <= u -> clear mid u v) ->
     (forall x, x < p \/ p + HDR <= x -> m x = u_mem s x) -> Q tt (set_umem m s)) ->
  wp (join_prev bp p) Q s.
Proof.
  intros G Hbp Hl2 HQ. destruct (gap_p _ _ _ _ _ _ _ G) as (P1 & P2 & P3 & P4 & P5). pose proof G as [G1 G2 G3 G4 G5 G6 G7 G8 G9 G10 G11].
  assert (0 <= hda l2 base < 2 ^ 32) as Hr.
  { destruct l2 as [|[x y] l2']; [cbn; hlia|]. destruct G11 as (A1 & A2 & A3 & _). cbn. hlia. }
  apply blocks_app in G7 as [G7 _]. unfold join_prev. apply wp_bind, wp_hsize; [hlia | hlia | done |]. rewrite G4. rewrite u32_small by hlia.
  destruct (Z.eqb_spec (p + HDR * n) bp) as [Heq|Hne].
  - assert (n <> 0) by hlia. apply wp_bind, wp_hsize; [hlia | hlia | done |]. rewrite G4. apply wp_bind, wp_hsize; [hlia | hlia | done |]. rewrite G6.
    apply wp_bind, wp_set_size; [hlia | hlia | done |].
    destruct (gap_store_p _ _ _ _ _ _ _ (p + 4) (u32 (n + k)) G ltac:(lia) ltac:(hlia)) as (S1 & S2 & S3 & S4).
    apply wp_bind, wp_hptr; [hlia | cbn; hlia | done |]. cbn [u_mem set_umem]. rewrite S4, Hbp. apply wp_set_ptr; [hlia | cbn; hlia | done |].
    apply (HQ _ [(p, n + k)]).
    + cbn [u_mem set_umem]. apply links_app. cbn [hda fst app links]. split_and!.
      * apply (links_store_below _ _ _ base (u_sz s)); try done; hlia.
      * rewrite load32_store32 by hlia. by apply u32_small.
      * rewrite load32_store32_ne, load32_store32, u32_idemp by hlia. apply u32_small. hlia.
      * apply (links_store_above _ _ _ (bp + HDR * k) (u_sz s)); try done; hlia.
    + apply blocks_app. split; [done|]. cbn [app blocks]. split_and!; [done | lia | hlia |].
      apply (blocks_lo _ _ _ _ G11). destruct Hl2; [by left | right; hlia].
    + cbn. by left.
    + done.
    + cbn. lia.
    + cbn. lia.
    + exists (p, n + k). split; [by left | cbn; lia].
    + intros u v Huv H1 H2 b Hb. apply list_elem_of_singleton in Hb as ->. cbn [fst snd]. hlia.
    + intros x Hx. cbn [u_mem set_umem]. rewrite !store32_other by hlia. done.
  - destruct (gap_store_p _ _ _ _ _ _ _ p bp G ltac:(lia) ltac:(hlia)) as (S1 & S2 & S3 & S4).
    apply wp_set_ptr; [hlia | hlia | done |]. apply (HQ _ [(p, n); (bp, k)]).
    + apply links_app. cbn [hda fst app links]. split_and!; try done.
      * rewrite load32_store32 by hlia. apply u32_small. hlia.
      * rewrite load32_store32_ne by hlia. done.
      * by rewrite S4.
    + apply blocks_app. split; [done|]. cbn [app blocks]. split_and!; try done; [hlia | hlia | hlia | hlia |].
      apply (blocks_lo _ _ _ _ G11). destruct Hl2; [by left | right; hlia].
    + cbn. by left.
    + by intros ->.
    + cbn. lia.
    + cbn. lia.
    + exists (bp, k). split; [right; by left | done].
    + intros u v Huv H1 H2. apply clear_cons. split; [done|]. apply clear_cons. split; [cbn [fst snd]; hlia | apply clear_nil].
    + intros x Hx. apply store32_other; hlia.
Qed.

(** ** free *)
Notation ring fl := ((base, 0) :: fl).

Lemma heap_gap s fl al bp k : heap_inv s fl al -> al !! bp = Some k ->
  exists l1 p n l2, ring fl = l1 ++ (p, n) :: l2 /\ gap s l1 p n bp k l2 /\ load32 (u_mem s) p = hda l2 base.
Proof.
  intros H Hbp. destruct (hi_alloc _ _ _ H _ _ Hbp) as (H1 & H2 & H3 & H4).
  destruct (blocks_split base (ring fl) (u_sz s) bp (bp + HDR * k)) as (l1 & p & n & l2 & El & Hp & Hl2).
  { apply H. } { done. } { cbn. lia. } { hlia. }
  { intros b Hb. destruct (hi_disj _ _ _ H _ _ _ Hbp Hb); lia. }
  exists l1, p, n, l2. split; [done|]. pose proof (hi_links _ _ _ H) as Hl. pose proof (hi_blocks _ _ _ H) as Hb. rewrite El in Hl, Hb.
  apply links_app in Hl as [L1 (L2 & L3 & L4)]. split; [|done]. apply blocks_app in Hb as [B1 (B2 & B3 & B4 & B5)].
  split; try done; [apply H | apply H | |].
  - apply blocks_app. by split.
  - apply (blocks_lo _ _ _ _ B5). done.
Qed.

Lemma ring_lookup s fl al l1 p n l2 : heap_inv s fl al -> ring fl = l1 ++ (p, n) :: l2 ->
  exists i k, ring fl !! i = Some (u_freep s, k) /\ (dist (length (ring fl)) i (length l1) < ring_fuel s)%nat.
Proof.
  intros H El. pose proof (hi_freep _ _ _ H) as Hf. apply list_elem_of_fmap in Hf as ([x k] & Ex & Hf). cbn in Ex. subst x.
  apply list_elem_of_lookup in Hf as [i Hi]. exists i, k. split; [done|]. pose proof (lookup_lt_Some _ _ _ Hi) as Hlt.
  assert (length l1 < length (ring fl))%nat as Hl1 by (rewrite El, length_app; cbn; lia).
  pose proof (blocks_length _ _ _ (hi_blocks _ _ _ H) ltac:(done)) as Hlen. pose proof (hi_base _ _ _ H). unfold ring_fuel, dist.
  assert (length (ring fl) <= Z.to_nat (u_sz s / HDR))%nat as Hn.
  { apply Nat2Z.inj_le. rewrite Z2Nat.id by (apply Z.div_pos; hlia). apply Z.div_le_lower_bound; hlia. }
  destruct (Nat.leb_spec i (length l1)); lia.
Qed.

Lemma heap_inv_delete s fl al bp k m fl' p : heap_inv s fl al -> al !! bp = Some k -> links m (ring fl') base -> blocks base (ring fl') (u_sz s) -> p ∈ (ring fl').*1 ->
  (forall u v, u < v -> clear (ring fl) u v -> v <= bp \/ bp + HDR * k <= u -> clear (ring fl') u v) ->
  (forall x, clear (ring fl) x (x + 1) -> x < bp \/ bp + HDR <= x -> m x = u_mem s x) -> heap_inv (UState m (u_sz s) p) fl' (delete bp al).
Proof.
  intros H Hbp Hl Hb Hp Hc Hf. assert (forall a n, delete bp al !! a = Some n -> al !! a = Some n /\ a <> bp /\ 1 <= n /\ (a + HDR * n <= bp \/ bp + HDR * k <= a)) as Hdel.
  { intros a n [Hne Ha]%lookup_delete_Some. split_and!; [done | congruence | by eapply hi_alloc | by eapply hi_apart]. }
  destruct (hi_alloc _ _ _ H _ _ Hbp) as (_ & Hk & _).
  split; cbn [u_mem u_sz u_freep]; try done; try apply H.
  - intros a n Ha. destruct (Hdel a n Ha) as (Ha' & Hne & Hn & Hor). destruct (hi_alloc _ _ _ H _ _ Ha') as (A1 & A2 & A3 & A4). split_and!; try done.
    rewrite <- A4. pose proof (hi_base _ _ _ H). pose proof (hi_sz _ _ _ H). apply load32_ext; [hlia | hlia |]. intros x Hx. apply Hf; [|hlia].
    intros b Hin. destruct (hi_disj _ _ _ H _ _ _ Ha' Hin); hlia.
  - intros a n b m' Ha Hb'. apply (hi_apart _ _ _ H); by apply Hdel.
  - intros a n b Ha Hin. destruct (Hdel a n Ha) as (Ha' & Hne & Hn & Hor). apply (Hc a (a + HDR * n)); [hlia | | lia | done].
    intros c Hc'. destruct (hi_disj _ _ _ H _ _ _ Ha' Hc'); lia.
Qed.

Lemma free_spec s fl al bp k Q : heap_inv s fl al -> al !! bp = Some k ->
  (forall s' fl', heap_inv s' fl' (delete bp al) -> u_sz s' = u_sz s -> (length fl' <= Datatypes.S (length fl))%nat -> total fl' = total fl + k -> (exists b, b ∈ fl' /\ k <= b.2) ->
     (forall u v, u < v -> clear (ring fl) u v -> v <= bp \/ bp + HDR * k <= u -> clear (ring fl') u v) ->
     (forall x, clear (ring fl) x (x + 1) -> x < bp \/ bp + HDR <= x -> u_mem s' x = u_mem s x) -> Q tt s') ->
  wp (free (bp + HDR)) Q s.
Proof.
  intros H Hbp HQ. destruct (heap_gap _ _ _ _ _ H Hbp) as (l1 & p & n & l2 & El & G & Hp). destruct (ring_lookup _ _ _ _ _ _ _ H El) as (i & k0 & Hi & Hd).
  destruct (gap_p _ _ _ _ _ _ _ G) as (P1 & P2 & P3 & P4 & P5). pose proof (hi_sz _ _ _ H) as Hsz. pose proof (gp_end _ _ _ _ _ _ _ G) as Hend. pose proof (gp_base _ _ _ _ _ _ _ G) as Hb0. pose proof (gp_pos _ _ _ _ _ _ _ G) as Hk1.
  unfold free. replace (u32 (bp + HDR - HDR)) with bp by (rewrite Z.add_simpl_r, u32_small; hlia). apply wp_bind, wp_get, wp_bind.
  eapply wp_mono.
  { apply (free_scan_spec s (ring fl) bp (length l1) p n) with (i := i) (n := k0); try done; try apply H; [|hlia|].
    - rewrite El. by rewrite list_lookup_middle.
    - intros q m Hq. pose proof (gp_above _ _ _ _ _ _ _ G) as Ha. rewrite El in Hq. rewrite lookup_app_r in Hq by lia.
      replace (Datatypes.S (length l1) - length l1)%nat with 1%nat in Hq by lia. destruct l2 as [|[q' m'] l2]; [done|]. injection Hq as -> ->. destruct Ha as (Ha & _). hlia. }
  intros r s0 [-> ->]. apply wp_bind. apply (join_next_spec s l1 p n bp k l2); [done | done |]. intros m1 k' l2' G' Hbp' Hl2' Hkk Hlen1 Ht1 Hc1 Hf1.
  apply wp_bind. apply (join_prev_spec _ l1 p n bp k' l2'); [done | done | done |]. cbn [u_mem u_sz set_umem]. intros m2 mid Hl Hb Hpm Hmid Hlen2 Ht2 (b & Hbm & Hbk) Hc2 Hf2.
  apply wp_modify. change (set_freep p (set_umem m2 (set_umem m1 s))) with (UState m2 (u_sz s) p).
  assert (exists fl', l1 ++ mid ++ l2' = ring fl') as (fl' & El').
  { destruct l1 as [|c l1]; cbn [app] in *; [|injection El as <- _; by eexists]. injection El as <- <- _. rewrite Hmid by done. by eexists. }
  assert (forall u v, u < v -> clear (ring fl) u v -> v <= bp \/ bp + HDR * k <= u -> clear (ring fl') u v) as Hclear.
  { intros u v Huv Hc Hor. rewrite El in Hc. rewrite <- El'. apply clear_app in Hc as [Hcl1 [Hcp Hcl2]%clear_cons]. destruct (Hc1 u v Huv Hcl2 Hor). apply clear_app. split; [done|]. apply clear_app. auto. }
  assert (forall x, clear (ring fl) x (x + 1) -> x < bp \/ bp + HDR <= x -> m2 x = u_mem s x) as Hframe.
  { intros x Hc Hor. rewrite El in Hc. apply clear_app in Hc as [_ [Hcp _]%clear_cons]. cbn [fst snd] in Hcp. unfold span in *. rewrite Hf2, Hf1 by hlia. done. }
  apply (HQ _ fl'); try done.
  - rewrite El' in Hl, Hb. apply (heap_inv_delete s fl al bp k); try done. rewrite <- El', !fmap_app, !elem_of_app. tauto.
  - cut (length (ring fl') <= Datatypes.S (length (ring fl)))%nat; [cbn; lia|]. rewrite El, <- El', !length_app. cbn [length]. lia.
  - cut (total (ring fl') = total (ring fl) + k); [cbn; unfold total; lia|]. rewrite El, <- El', !total_app. cbn [total foldr snd] in *. fold (total l2). lia.
  - exists b. split; [|lia]. assert (b ∈ ring fl') as [->|Hb']%elem_of_cons by (rewrite <- El', !elem_of_app; tauto); [cbn in *; lia | done].
Qed.

End ring.
