(* ===== verification/UmallocTheorems.v ===== *)
(** * Theorems on the user allocator

    The growth of the heap and the search of [malloc] (umalloc.c) over the ring
    of Umalloc.v, and the theorems: programs that allocate, free and write get
    blocks of their own, and requests beyond the range of the sizes fail in the
    ways the 32-bit arithmetic of the code has. *)

From S2P Require Import Prelude CString Memory Umalloc.
Import Kstring.

Section malloc.
Context (base : Z) (grants : Z -> Z -> bool).
Notation heap_inv := (heap_inv base).
Notation ring fl := ((base, 0) :: fl).

(** ** Growing the heap *)
Lemma sbrk_spec nb Q s : 0 <= u_sz s < KERNBASE -> 0 < nb < 2 ^ 31 -> Q (u32 (-1)) s ->
  (u_sz s + nb < KERNBASE -> Q (u_sz s) (set_usz (u_sz s + nb) s)) -> wp (sbrk grants nb) Q s.
Proof.
  intros Hsz Hn H1 H2. unfold sbrk. apply wp_bind, wp_get. rewrite i32_small by lia. destruct (Z.ltb_spec nb 0); [lia|]. cbn [andb]. unfold brk_size, brk_ret. rewrite u32_small by hlia.
  destruct (Z.ltb_spec 0 nb); [|lia]. destruct (Z.eqb_spec nb 0); [lia|]. cbn [negb andb].
  destruct (Z.leb_spec KERNBASE (u_sz s + nb)) as [Hk|Hk]; [by apply wp_ret|]. destruct (Z.ltb_spec (u_sz s + nb) (u_sz s)); [lia|].
  destruct (grants _ _); [|by apply wp_ret]. destruct (Z.eqb_spec (u_sz s + nb) 0); [lia|]. apply wp_bind, wp_modify, wp_ret. auto.
Qed.

(** The new end of the heap as a block in use. *)
Lemma heap_inv_grow s fl al nu : heap_inv s fl al -> 1 <= nu -> u_sz s + HDR * nu < KERNBASE ->
  al !! u_sz s = None /\ heap_inv (set_umem (store32 (u_mem s) (u_sz s + 4) nu) (set_usz (u_sz s + HDR * nu) s)) fl (<[u_sz s := nu]> al).
Proof.
  intros H Hnu Hsz. assert (al !! u_sz s = None) as Hnone.
  { apply eq_None_not_Some. intros [n Hn]. destruct (hi_alloc _ _ _ _ H _ _ Hn). hlia. }
  split; [done|]. pose proof (hi_base _ _ _ _ H) as H0. pose proof (hi_blocks _ _ _ _ H) as Hb. pose proof (hi_freep _ _ _ _ H) as Hf.
  assert (forall b, b ∈ ring fl -> base <= b.1 /\ b.1 + span b.2 <= u_sz s) as Hin.
  { intros b Hin. destruct (blocks_below _ _ _ _ Hb Hin) as (B1 & B2 & B3 & _). done. }
  pose proof (Hin (base, 0) ltac:(by left)) as [_ Hbz]. cbn [fst snd] in Hbz. unfold span in Hbz.
  split; cbn [u_mem u_sz u_freep set_umem set_usz]; try done.
  - apply links_store; [hlia | hlia | | apply H]. intros b Hb'. destruct (Hin b Hb'). hlia.
  - apply (blocks_hi _ _ (u_sz s)); [hlia | done].
  - intros a n [[<- <-]|[Hne Ha]]%lookup_insert_Some.
    + split_and!; [hlia | done | lia |]. rewrite load32_store32 by hlia. apply u32_small. hlia.
    + destruct (hi_alloc _ _ _ _ H _ _ Ha) as (A1 & A2 & A3 & A4). split_and!; [done | done | hlia |]. rewrite load32_store32_ne by hlia. done.
  - intros a n b m [[<- <-]|[Hne Ha]]%lookup_insert_Some [[<- <-]|[Hne' Hb']]%lookup_insert_Some Hab; [done | | |by eapply hi_apart].
    + right. by eapply hi_alloc.
    + left. by eapply hi_alloc.
  - intros a n b [[<- <-]|[Hne Ha]]%lookup_insert_Some Hb'; [right; by apply Hin | by eapply hi_disj].
Qed.

Lemma freep_pos s fl al : heap_inv s fl al -> 0 < u_freep s.
Proof.
  intros H. pose proof (hi_freep _ _ _ _ H) as ([x k] & -> & Hx)%list_elem_of_fmap. destruct (blocks_below _ _ _ _ (hi_blocks _ _ _ _ H) Hx) as (B & _).
  pose proof (hi_base _ _ _ _ H). cbn in *. lia.
Qed.

Lemma morecore_spec s fl al nu Q : heap_inv s fl al -> 1 <= nu -> HDR * nu < 2 ^ 31 -> Q 0 s ->
  (forall s' fl', heap_inv s' fl' al -> u_sz s <= u_sz s' -> (length fl' <= Datatypes.S (length fl))%nat -> (exists b, b ∈ fl' /\ nu <= b.2) ->
     (forall u v, u < v -> v <= u_sz s -> clear (ring fl) u v -> clear (ring fl') u v) ->
     (forall x, x < u_sz s -> clear (ring fl) x (x + 1) -> u_mem s' x = u_mem s x) -> Q (u_freep s') s') ->
  wp (morecore grants nu) Q s.
Proof.
  intros H Hnu Hmax Hq0 HQ. unfold morecore. set (nu' := if nu <? 4096 then 4096 else nu).
  assert (nu <= nu' /\ HDR * nu' < 2 ^ 31) as [Hle Hmax'] by (unfold nu'; destruct (Z.ltb_spec nu 4096); hlia).
  pose proof (hi_base _ _ _ _ H) as H0. pose proof (hi_sz _ _ _ _ H) as Hsz.
  assert (base + HDR <= u_sz s) as Hb by (destruct (hi_blocks _ _ _ _ H) as (_ & _ & B & _); exact B).
  replace (u32 (nu' * HDR)) with (HDR * nu') by (rewrite u32_small; hlia).
  apply wp_bind, sbrk_spec; [hlia | hlia | |].
  { rewrite Z.eqb_refl. by apply wp_ret. }
  intros Hgrow. destruct (Z.eqb_spec (u_sz s) (u32 (-1))) as [E|_]; [change (u32 (-1)) with 4294967295 in E; hlia|].
  destruct (heap_inv_grow s fl al nu' H ltac:(lia) Hgrow) as [Hnone Hinv]. apply wp_bind, wp_set_size; [hlia | cbn; hlia | done |].
  cbn [u_mem set_usz]. replace (u32 (u_sz s + HDR)) with (u_sz s + HDR) by (rewrite u32_small; hlia). apply wp_bind.
  apply (free_spec base _ _ _ _ nu' _ Hinv); [by rewrite lookup_insert_eq|]. rewrite delete_insert_id by done.
  cbn [u_mem u_sz set_umem set_usz]. intros s' fl' Hinv' Hsz' Hlen Ht (b & Hb1 & Hb2) Hc Hf. apply wp_gets. apply (HQ s' fl'); [done | hlia | done | exists b; split; [done | lia] | |].
  - intros u v Huv Hv Hcl. apply Hc; [done | done | lia].
  - intros x Hx Hcl. rewrite Hf by (done || lia). apply store32_other; hlia.
Qed.

(** ** Taking a block *)

(** [nu] units at [a], inside the free block [b], go into use. *)
Lemma heap_inv_insert s fl al b a nu m fl' p : heap_inv s fl al -> b ∈ ring fl -> b.1 <= a -> a + HDR * nu <= b.1 + span b.2 -> 1 <= nu -> base < a ->
  links m (ring fl') base -> blocks base (ring fl') (u_sz s) -> p ∈ (ring fl').*1 -> load32 m (a + 4) = nu -> clear (ring fl') a (a + HDR * nu) ->
  (forall u v, u < v -> clear (ring fl) u v -> clear (ring fl') u v) -> (forall x, clear (ring fl) x (x + 1) -> m x = u_mem s x) ->
  al !! a = None /\ heap_inv (UState m (u_sz s) p) fl' (<[a := nu]> al).
Proof.
  intros H Hb Ha1 Ha2 Hnu Hba Hl Hbl Hp Hsize Hfree Hc Hf. destruct (blocks_below _ _ _ _ (hi_blocks _ _ _ _ H) Hb) as (B1 & B2 & B3 & _).
  assert (forall c n, al !! c = Some n -> 1 <= n /\ (a + HDR * nu <= c \/ c + HDR * n <= a)) as Hout.
  { intros c n Hc'. destruct (hi_alloc _ _ _ _ H _ _ Hc') as (_ & Hn & _). split; [done|]. destruct (hi_disj _ _ _ _ H _ _ _ Hc' Hb); hlia. }
  split; [apply eq_None_not_Some; intros [n Hn]; destruct (Hout _ _ Hn); hlia|].
  split; cbn [u_mem u_sz u_freep]; try done; try apply H.
  - intros c n [[<- <-]|[Hne Hc']]%lookup_insert_Some; [split_and!; try done; lia|].
    destruct (hi_alloc _ _ _ _ H _ _ Hc') as (A1 & A2 & A3 & A4). split_and!; try done. rewrite <- A4.
    pose proof (hi_base _ _ _ _ H). pose proof (hi_sz _ _ _ _ H). apply load32_ext; [hlia | hlia |]. intros x Hx. apply Hf.
    intros d Hd. destruct (hi_disj _ _ _ _ H _ _ _ Hc' Hd); hlia.
  - intros c n d k [[<- <-]|[Hne Hc']]%lookup_insert_Some [[<- <-]|[Hne' Hd]]%lookup_insert_Some Hcd; [done | | |by eapply hi_apart].
    + destruct (Hout _ _ Hd). lia.
    + destruct (Hout _ _ Hc'). lia.
  - intros c n d [[<- <-]|[Hne Hc']]%lookup_insert_Some Hd; [by apply Hfree|]. destruct (Hout _ _ Hc').
    apply (Hc c (c + HDR * n)); [hlia | | done]. intros e He. by apply (hi_disj _ _ _ _ H _ _ _ Hc').
Qed.

Section take.
Context (s : ustate) (fl : list (Z * Z)) (al : gmap Z Z) (l1 : list (Z * Z)) (pp pn p n : Z) (l2 : list (Z * Z)).
Context (H : heap_inv s fl al) (El : ring fl = l1 ++ (pp, pn) :: (p, n) :: l2).

Record taken : Prop := {
  tk_base : 0 < base /\ u_sz s < KERNBASE;
  tk_l1 : links (u_mem s) l1 pp;
  tk_pn : load32 (u_mem s) (pp + 4) = pn;
  tk_pp : load32 (u_mem s) pp = p;
  tk_n : load32 (u_mem s) (p + 4) = n;
  tk_p : load32 (u_mem s) p = hda l2 base;
  tk_l2 : links (u_mem s) l2 base;
  tk_b1 : blocks base l1 (u_sz s);
  tk_bpp : base <= bend base l1 <= pp /\ 0 <= pn /\ pp + span pn <= u_sz s /\ pp + Z.max HDR (HDR * pn + 1) <= p;
  tk_bp : 0 <= n /\ p + span n <= u_sz s;
  tk_b2 : blocks (p + Z.max HDR (HDR * n + 1)) l2 (u_sz s);
  tk_next : 0 <= hda l2 base < 2 ^ 32
}.
Lemma take_facts : taken.
Proof.
  pose proof (hi_links _ _ _ _ H) as Hl. pose proof (hi_blocks _ _ _ _ H) as Hb. rewrite El in Hl, Hb.
  apply links_app in Hl as [L1 (L2 & L3 & L4 & L5 & L6)]. apply blocks_app in Hb as [B1 (B2 & B3 & B4 & B5 & B6 & B7 & B8)]. cbn [hda fst] in *.
  pose proof (bend_le _ _ _ B1) as Hlo. pose proof (hi_base _ _ _ _ H). pose proof (hi_sz _ _ _ _ H). split; try done.
  destruct l2 as [|[x y] l2']; [cbn; hlia|]. destruct B8 as (A1 & A2 & A3 & _). cbn. hlia.
Qed.

Lemma take_ring mid : exists fl', l1 ++ (pp, pn) :: mid = ring fl'.
Proof. destruct l1 as [|c l]; cbn [app] in *; [|injection El as <- _; by eexists]. injection El as <- <- _. by eexists. Qed.

Lemma take_clear_low a e mid : p <= a -> clear mid a e -> clear (l1 ++ (pp, pn) :: mid) a e.
Proof.
  intros Hp Hm. destruct take_facts as [F1 F2 F3 F4 F5 F6 F7 F8 F9 F10 F11 F12]. apply clear_app. split.
  - intros b Hb. destruct (blocks_below _ _ _ _ F8 Hb) as (_ & _ & _ & Hb'). hlia.
  - apply clear_cons. split; [cbn [fst snd]; hlia | done].
Qed.

Lemma take_frame a w : a + 4 <= 2 ^ 32 -> pp <= a /\ a + 4 <= pp + HDR \/ p <= a /\ a + 4 <= p + span n ->
  forall m x, clear (ring fl) x (x + 1) -> store32 m a w x = m x.
Proof.
  intros Ha Hor m x Hc. destruct take_facts as [F1 F2 F3 F4 F5 F6 F7 F8 F9 F10 F11 F12]. rewrite El in Hc.
  apply clear_app in Hc as [_ [C1 [C2 _]%clear_cons]%clear_cons]. cbn [fst snd] in *. apply store32_other; [hlia | hlia |]. hlia.
Qed.

Lemma take_exact : 1 <= n -> exists fl', let s' := UState (store32 (u_mem s) pp (hda l2 base)) (u_sz s) pp in
  al !! p = None /\ heap_inv s' fl' (<[p := n]> al) /\ forall u v, u < v -> clear (ring fl) u v -> clear (ring fl') u v.
Proof.
  intros Hn. destruct (take_ring l2) as (fl' & El'). exists fl'. cbn zeta. pose proof take_facts as [F1 F2 F3 F4 F5 F6 F7 F8 F9 F10 F11 F12].
  assert (forall u v, u < v -> clear (ring fl) u v -> clear (ring fl') u v) as Hc.
  { intros u v Huv Hc. rewrite El in Hc. rewrite <- El'. apply clear_app in Hc as [C1 [C2 [C3 C4]%clear_cons]%clear_cons]. apply clear_app. split; [done|]. by apply clear_cons. }
  rewrite (assoc and). split; [|done].
  eapply (heap_inv_insert s fl al (p, n) p n); [done | | cbn; lia | cbn [fst snd]; hlia | done | hlia | | | | | | done |].
  - rewrite El, elem_of_app. right. right. by left.
  - rewrite <- El'. apply links_app. cbn [hda fst links]. split_and!.
    + apply (links_store_below _ _ _ base (u_sz s)); try done; hlia.
    + rewrite load32_store32 by hlia. by apply u32_small.
    + rewrite load32_store32_ne by hlia. done.
    + apply (links_store_above _ _ _ (p + Z.max HDR (HDR * n + 1)) (u_sz s)); try done; hlia.
  - rewrite <- El'. apply blocks_app. cbn [blocks]. split_and!; try done; try apply F9. apply (blocks_lo _ _ _ _ F11).
    destruct l2 as [|[x y] l]; [by left|]. right. destruct F11 as (? & _). cbn. hlia.
  - rewrite <- El', fmap_app, elem_of_app. right. by left.
  - rewrite load32_store32_ne by hlia. done.
  - rewrite <- El'. apply take_clear_low; [lia|]. apply (blocks_clear _ _ _ _ _ F11). hlia.
  - apply take_frame; hlia.
Qed.

Lemma take_part nu : 1 <= nu < n -> exists fl', let a := p + HDR * (n - nu) in
  let s' := UState (store32 (store32 (u_mem s) (p + 4) (n - nu)) (a + 4) nu) (u_sz s) pp in
  al !! a = None /\ heap_inv s' fl' (<[a := nu]> al) /\ forall u v, u < v -> clear (ring fl) u v -> clear (ring fl') u v.
Proof.
  intros Hn. destruct (take_ring ((p, n - nu) :: l2)) as (fl' & El'). exists fl'. cbn zeta. pose proof take_facts as [F1 F2 F3 F4 F5 F6 F7 F8 F9 F10 F11 F12].
  set (a := p + HDR * (n - nu)). assert (p + HDR <= a /\ a + HDR * nu = p + HDR * n) as [Ha1 Ha2] by (unfold a; hlia).
  assert (forall u v, u < v -> clear (ring fl) u v -> clear (ring fl') u v) as Hc.
  { intros u v Huv Hc. rewrite El in Hc. rewrite <- El'. apply clear_app in Hc as [C1 [C2 [C3 C4]%clear_cons]%clear_cons]. apply clear_app. split; [done|].
    apply clear_cons. split; [done|]. apply clear_cons. split; [|done]. cbn [fst snd] in *. hlia. }
  rewrite (assoc and). split; [|done].
  eapply (heap_inv_insert s fl al (p, n) a nu); [done | | cbn; hlia | cbn [fst snd]; hlia | lia | hlia | | | | | | done |].
  - rewrite El, elem_of_app. right. right. by left.
  - rewrite <- El'. apply links_app. cbn [hda fst links]. unfold span in *. split_and!.
    + do 2 (apply (links_store_below _ _ _ base (u_sz s)); try done; try hlia).
    + rewrite !load32_store32_ne by hlia. done.
    + rewrite !load32_store32_ne by hlia. done.
    + rewrite !load32_store32_ne by hlia. done.
    + rewrite load32_store32_ne, load32_store32 by hlia. apply u32_small. hlia.
    + do 2 (apply (links_store_above _ _ _ (p + Z.max HDR (HDR * n + 1)) (u_sz s)); try done; try hlia).
  - rewrite <- El'. apply blocks_app. cbn [blocks]. unfold span in *. split_and!; try done; try hlia. apply (blocks_lo _ _ _ _ F11).
    destruct l2 as [|[x y] l]; [by left|]. right. destruct F11 as (? & _). cbn. hlia.
  - rewrite <- El', fmap_app, elem_of_app. right. by left.
  - rewrite load32_store32 by hlia. apply u32_small. hlia.
  - rewrite <- El'. apply take_clear_low; [hlia|]. apply clear_cons. split; [cbn [fst snd]; unfold span, a; hlia|]. apply (blocks_clear _ _ _ _ _ F11). hlia.
  - intros x Hx. rewrite !take_frame; [done | ..]; try done; hlia.
Qed.
End take.

Lemma take_spec s fl al nu l1 pp pn p n l2 Q : heap_inv s fl al -> 1 <= nu <= n -> ring fl = l1 ++ (pp, pn) :: (p, n) :: l2 ->
  (forall s' fl' a, heap_inv s' fl' (<[a := nu]> al) -> al !! a = None -> u_sz s' = u_sz s ->
     (forall u v, u < v -> clear (ring fl) u v -> clear (ring fl') u v) ->
     (forall x, clear (ring fl) x (x + 1) -> u_mem s' x = u_mem s x) -> Q (a + HDR) s') ->
  wp (take nu pp p n) Q s.
Proof.
  intros H Hnu El HQ. pose proof (take_facts _ _ _ _ _ _ _ _ _ H El) as [F1 F2 F3 F4 F5 F6 F7 F8 F9 F10 F11 F12].
  assert (base < p /\ p + HDR * n < KERNBASE) as [Hp1 Hp2] by hlia. unfold take. apply wp_bind. destruct (Z.eqb_spec n nu) as [->|Hne].
  - apply wp_bind, wp_hptr; [hlia | hlia | hlia |]. rewrite F6. apply wp_bind, wp_set_ptr; [hlia | hlia | hlia |]. apply wp_ret, wp_bind, wp_modify, wp_ret.
    rewrite u32_small by hlia. destruct (take_exact _ _ _ _ _ _ _ _ _ H El ltac:(lia)) as (fl' & Hnone & Hinv & Hc).
    apply (HQ _ fl' p Hinv Hnone eq_refl Hc). intros x Hx. apply (take_frame _ _ _ _ _ _ _ _ _ H El); [hlia | hlia | done].
  - apply wp_bind, wp_set_size; [hlia | hlia | hlia |]. apply wp_bind, wp_hsize; [hlia | cbn; hlia | cbn; hlia |]. cbn [u_mem set_umem].
    rewrite (u32_small (n - nu)) by hlia. rewrite load32_store32, (u32_small (n - nu)) by hlia. set (a := p + HDR * (n - nu)). rewrite (u32_small a) by (unfold a; hlia).
    apply wp_bind, wp_set_size; [unfold a; hlia | unfold a; cbn; hlia | cbn; hlia |]. apply wp_ret, wp_bind, wp_modify, wp_ret. rewrite u32_small by (unfold a; hlia).
    destruct (take_part _ _ _ _ _ _ _ _ _ H El nu ltac:(lia)) as (fl' & Hnone & Hinv & Hc).
    apply (HQ _ fl' a Hinv Hnone eq_refl Hc). intros x Hx. cbn [u_mem set_umem set_freep].
    rewrite !(take_frame _ _ _ _ _ _ _ _ _ H El); try done; unfold a; hlia.
Qed.

(** ** The search for a block *)
Definition next (n i : nat) : nat := if (Datatypes.S i =? n)%nat then 0%nat else Datatypes.S i.

Lemma dist_step len j x : (j < len)%nat -> (x < len)%nat -> x <> j -> dist len j x = Datatypes.S (dist len (next len j) x).
Proof.
  intros Hj Hx Hxj. unfold dist, next. destruct (Nat.eqb_spec (Datatypes.S j) len), (Nat.leb_spec j x); try lia.
  - destruct (Nat.leb_spec 0 x); lia.
  - destruct (Nat.leb_spec (Datatypes.S j) x); lia.
  - destruct (Nat.leb_spec (Datatypes.S j) x); lia.
Qed.

Definition after_core (fuel : nat) (nu : Z) : M ustate Z :=
  let! p := morecore grants nu in
  if p =? 0 then ret 0 else let! q := hptr p in malloc_loop grants fuel nu p q.

Lemma next_lookup s fl al i p n : heap_inv s fl al -> ring fl !! i = Some (p, n) ->
  exists m, ring fl !! next (length (ring fl)) i = Some (load32 (u_mem s) p, m).
Proof.
  intros H Hi. destruct (links_lookup _ _ _ _ _ _ (hi_links _ _ _ _ H) Hi) as [_ ->]. unfold next. pose proof (lookup_lt_Some _ _ _ Hi).
  destruct (Nat.eqb_spec (Datatypes.S i) (length (ring fl))) as [E|E].
  - rewrite (lookup_ge_None_2 (ring fl) (Datatypes.S i)) by lia. by eexists.
  - destruct (lookup_lt_is_Some_2 (ring fl) (Datatypes.S i)) as [[q m] Hq]; [lia|]. rewrite Hq. by exists m.
Qed.

Lemma ring_inj s fl al i j p n m : heap_inv s fl al -> ring fl !! i = Some (p, n) -> ring fl !! j = Some (p, m) -> i = j.
Proof.
  intros H Hi Hj. pose proof (hi_blocks _ _ _ _ H) as Hb. destruct (lt_eq_lt_dec i j) as [[Hlt|E]|Hgt]; [|done|].
  - pose proof (blocks_lookup_lt _ _ _ _ _ _ _ Hb Hi Hj Hlt). cbn in *. hlia.
  - pose proof (blocks_lookup_lt _ _ _ _ _ _ _ Hb Hj Hi Hgt). cbn in *. hlia.
Qed.

(** From [j], the block after [i], either a block that fits is taken, or none
    between [j] and [freep] fits and the heap grows. *)
Lemma malloc_scan_spec s fl al nu f kf Q : heap_inv s fl al -> 1 <= nu -> ring fl !! f = Some (u_freep s, kf) ->
  (forall l1 pp pn p n l2, ring fl = l1 ++ (pp, pn) :: (p, n) :: l2 -> nu <= n -> wp (take nu pp p n) Q s) ->
  forall fuel i j pi ni p n, ring fl !! i = Some (pi, ni) -> j = next (length (ring fl)) i -> ring fl !! j = Some (p, n) ->
  (dist (length (ring fl)) j f < fuel)%nat ->
  ((forall x b, ring fl !! x = Some b -> (dist (length (ring fl)) j x <= dist (length (ring fl)) j f)%nat -> b.2 < nu) ->
     wp (after_core (fuel - Datatypes.S (dist (length (ring fl)) j f)) nu) Q s) ->
  wp (malloc_loop grants fuel nu pi p) Q s.
Proof.
  intros H Hnu Hf Htake. set (len := length (ring fl)). induction fuel as [|fuel IH]; intros i j pi ni p n Hi Ej Hj Hd Hcore; [lia|]. cbn [malloc_loop].
  destruct (links_lookup _ _ _ _ _ _ (hi_links _ _ _ _ H) Hj) as [Hn Hq]. destruct (blocks_below _ _ _ _ (hi_blocks _ _ _ _ H) (list_elem_of_lookup_2 _ _ _ Hj)) as (B1 & B2 & B3 & _).
  pose proof (hi_base _ _ _ _ H) as H0. pose proof (hi_sz _ _ _ _ H) as Hsz. cbn [fst snd] in *. apply wp_bind, wp_hsize; [hlia | hlia | done |]. rewrite Hn.
  pose proof (lookup_lt_Some _ _ _ Hi) as Hil. pose proof (lookup_lt_Some _ _ _ Hj) as Hjl. pose proof (lookup_lt_Some _ _ _ Hf) as Hfl. fold len in Hil, Hjl, Hfl.
  destruct (Z.leb_spec nu n) as [Hfit|Hno].
  { unfold next in Ej. fold len in Ej. destruct (Nat.eqb_spec (Datatypes.S i) len); subst j; [injection Hj as <- <-; lia|].
    apply (Htake (firstn i (ring fl)) pi ni p n (drop (2 + i) (ring fl))); [|done]. rewrite <- (take_drop_middle (ring fl) i (pi, ni) Hi) at 1. f_equal. f_equal.
    by rewrite (drop_S (ring fl) (p, n)). }
  apply wp_bind, wp_gets. destruct (Z.eqb_spec p (u_freep s)) as [->|Hne].
  { assert (j = f) as -> by (by eapply ring_inj). assert (dist len f f = 0%nat) as Hd0 by (unfold dist; rewrite Nat.leb_refl; lia).
    rewrite Hd0, Nat.sub_1_r in Hcore. apply Hcore. intros x b Hx Hdx. assert (x = f) as ->; [|rewrite Hx in Hj; injection Hj as ->; done].
    unfold dist in Hdx. pose proof (lookup_lt_Some _ _ _ Hx). fold len in H1. destruct (Nat.leb_spec f x); lia. }
  assert (j <> f) as Hjf. { intros ->. rewrite Hj in Hf. injection Hf. congruence. }
  apply wp_bind, wp_hptr; [hlia | hlia | done |]. destruct (next_lookup _ _ _ _ _ _ H Hj) as (m & Hm). fold len in Hm.
  pose proof (fun x => dist_step len j x Hjl) as Hstep.
  apply (IH j (next len j) p n _ m Hj eq_refl Hm); [rewrite (Hstep f Hfl) in Hd by done; lia|].
  intros Hall. rewrite (Hstep f Hfl) in Hcore by done. apply Hcore. intros x b Hx Hdx. destruct (decide (x = j)) as [->|Hxj]; [rewrite Hx in Hj; injection Hj as ->; done|].
  apply (Hall x b Hx). rewrite (Hstep x) in Hdx; [lia | by apply (lookup_lt_Some _ _ _ Hx) | done].
Qed.

(** ** malloc *)

(** Before the first call, and after it. *)
Definition heap_ok (s : ustate) (fl : list (Z * Z)) (al : gmap Z Z) : Prop :=
  heap_inv s fl al \/ (u_freep s = 0 /\ fl = [] /\ al = ∅ /\ 0 < base /\ base + HDR <= u_sz s < KERNBASE).

(** What a call of [malloc] does to the blocks in use. *)
Definition allocated (s : ustate) (al : gmap Z Z) (nu r : Z) (s' : ustate) : Prop :=
  exists fl', (r = 0 /\ heap_inv s' fl' al \/ exists a, r = a + HDR /\ al !! a = None /\ heap_inv s' fl' (<[a := nu]> al)) /\
  u_sz s <= u_sz s' /\ forall a n x, al !! a = Some n -> a <= x < a + HDR * n -> u_mem s' x = u_mem s x.

Lemma block_clear s fl al a n x : heap_inv s fl al -> al !! a = Some n -> a <= x < a + HDR * n -> x < u_sz s /\ clear (ring fl) x (x + 1).
Proof.
  intros H Ha Hx. destruct (hi_alloc _ _ _ _ H _ _ Ha) as (_ & _ & A & _). split; [lia|]. intros b Hb. destruct (hi_disj _ _ _ _ H _ _ _ Ha Hb); lia.
Qed.

Lemma dist_round len f x : (f < len)%nat -> (x < len)%nat -> (dist len (next len f) x <= dist len (next len f) f)%nat.
Proof.
  intros Hf Hx. unfold dist, next. destruct (Nat.eqb_spec (Datatypes.S f) len); repeat case_match; repeat match goal with E : (_ <=? _)%nat = _ |- _ => apply Nat.leb_le in E || apply Nat.leb_gt in E end; lia.
Qed.
Lemma dist_lt len i x : (i < len)%nat -> (x < len)%nat -> (dist len i x < len)%nat.
Proof. intros Hi Hx. unfold dist. destruct (Nat.leb_spec i x); lia. Qed.

(** A round from [freep] in a heap where a block fits takes one. *)
Lemma malloc_round s0 s fl al nu fuel : heap_inv s fl al -> 1 <= nu -> (length (ring fl) <= fuel)%nat ->
  u_sz s0 <= u_sz s -> (forall a n x, al !! a = Some n -> a <= x < a + HDR * n -> u_mem s x = u_mem s0 x) ->
  ((forall b, b ∈ fl -> b.2 < nu) -> wp (after_core (fuel - length (ring fl)) nu) (allocated s0 al nu) s) ->
  wp (let! q := hptr (u_freep s) in malloc_loop grants fuel nu (u_freep s) q) (allocated s0 al nu) s.
Proof.
  intros H Hnu Hfuel Hsz Hsame Hcore. pose proof (hi_freep _ _ _ _ H) as ([f0 kf] & Ef & [f Hf]%list_elem_of_lookup)%list_elem_of_fmap. cbn in Ef. subst f0.
  destruct (next_lookup _ _ _ _ _ _ H Hf) as (m & Hm). set (len := length (ring fl)) in *.
  pose proof (lookup_lt_Some _ _ _ Hf) as Hfl. pose proof (lookup_lt_Some _ _ _ Hm) as Hml. fold len in Hfl, Hml.
  destruct (blocks_below _ _ _ _ (hi_blocks _ _ _ _ H) (list_elem_of_lookup_2 _ _ _ Hf)) as (B1 & B2 & B3 & _). pose proof (hi_base _ _ _ _ H). cbn [fst snd] in *.
  apply wp_bind, wp_hptr; [hlia | hlia | apply H |].
  assert (dist len (next len f) f = (len - 1)%nat) as Hd.
  { unfold dist, next. destruct (Nat.eqb_spec (Datatypes.S f) len); [destruct (Nat.leb_spec 0 f); lia|]. destruct (Nat.leb_spec (Datatypes.S f) f); lia. }
  apply (malloc_scan_spec s fl al nu f kf _ H Hnu Hf) with (i := f) (j := next len f) (ni := kf) (n := m); try done.
  - intros l1 pp pn p n l2 El Hfit. apply (take_spec s fl al nu l1 pp pn p n l2 _ H ltac:(lia) El). intros s' fl' a Hinv Hnone Hsz' Hc Hf'.
    exists fl'. split_and!; [right; by exists a | lia |]. intros b k x Hb Hx. rewrite <- (Hsame b k x Hb Hx). apply Hf'. by eapply block_clear.
  - fold len. lia.
  - fold len. rewrite Hd. intros Hall. replace (fuel - Datatypes.S (len - 1))%nat with (fuel - len)%nat by lia. apply Hcore. intros b Hb.
    apply list_elem_of_lookup in Hb as [x Hx]. apply (Hall (Datatypes.S x) b Hx). rewrite <- Hd. apply dist_round; [done|]. apply (lookup_lt_Some _ _ _ (Hx : ring fl !! Datatypes.S x = Some b)).
Qed.

Lemma ring_length s fl al : heap_inv s fl al -> (length (ring fl) <= Z.to_nat (u_sz s / HDR))%nat.
Proof.
  intros H. pose proof (blocks_length _ _ _ (hi_blocks _ _ _ _ H) ltac:(done)) as Hlen. pose proof (hi_base _ _ _ _ H).
  apply Nat2Z.inj_le. rewrite Z2Nat.id by (apply Z.div_pos; hlia). apply Z.div_le_lower_bound; hlia.
Qed.

Lemma malloc_inv_spec s fl al nu : heap_inv s fl al -> 1 <= nu -> HDR * nu < 2 ^ 31 -> forall s0, u_sz s0 = u_sz s ->
  (forall a n x, al !! a = Some n -> a <= x < a + HDR * n -> u_mem s x = u_mem s0 x) ->
  wp (let! q := hptr (u_freep s) in malloc_loop grants (2 * ring_fuel s) nu (u_freep s) q) (allocated s0 al nu) s.
Proof.
  intros H Hnu Hmax s0 Hsz Hsame. pose proof (ring_length _ _ _ H) as Hlen.
  unfold ring_fuel. apply (malloc_round s0 s fl al nu _ H Hnu); [lia | lia | done |]. intros _. unfold after_core. apply wp_bind.
  apply (morecore_spec s fl al nu _ H Hnu Hmax).
  { apply wp_ret. exists fl. split_and!; [by left | lia | done]. }
  intros s' fl' H' Hsz' Hlen' (b & Hb & Hbn) Hc Hf. destruct (Z.eqb_spec (u_freep s') 0) as [E|_]; [pose proof (freep_pos _ _ _ H'); lia|].
  cbn [length] in *. apply (malloc_round s0 s' fl' al nu _ H' Hnu); [cbn [length]; lia | lia | |].
  - intros a n x Ha Hx. rewrite <- (Hsame a n x Ha Hx). destruct (block_clear _ _ _ _ _ _ H Ha Hx). by apply Hf.
  - intros Hall. specialize (Hall b Hb). lia.
Qed.

Lemma units_range nbytes : 0 <= nbytes <= 2 ^ 31 - 16 -> 1 <= units nbytes /\ nbytes + HDR <= HDR * units nbytes < 2 ^ 31.
Proof. intros H. unfold units. rewrite u32_small by hlia. pose proof (Z.div_mod (nbytes + HDR - 1) HDR ltac:(done)). pose proof (Z.mod_pos_bound (nbytes + HDR - 1) HDR ltac:(done)). hlia. Qed.

Lemma heap_inv_init s : 0 < base -> base + HDR <= u_sz s < KERNBASE ->
  heap_inv (UState (store32 (store32 (u_mem s) base base) (base + 4) 0) (u_sz s) base) [] ∅.
Proof.
  intros H0 Hsz. split; cbn [u_mem u_sz u_freep]; try done; try lia.
  - cbn. split_and!; [|rewrite load32_store32 by hlia; done | done]. rewrite load32_store32_ne, load32_store32 by hlia. apply u32_small. hlia.
  - cbn [blocks]. split_and!; try done; hlia.
  - cbn. by left.
Qed.

Lemma malloc_spec s fl al nbytes : heap_ok s fl al -> HDR * units nbytes < 2 ^ 31 -> 1 <= units nbytes -> wp (malloc base grants nbytes) (allocated s al (units nbytes)) s.
Proof.
  intros Hok Hmax H1. unfold malloc. apply wp_bind, wp_get, wp_bind. destruct Hok as [H|(E & -> & -> & H0 & Hsz)].
  - pose proof (freep_pos _ _ _ H). destruct (Z.eqb_spec (u_freep s) 0); [lia|]. apply wp_ret, wp_bind, wp_gets. by apply (malloc_inv_spec s fl al).
  - rewrite E. cbn [Z.eqb when]. apply wp_bind, wp_set_ptr; [hlia | hlia | hlia |]. apply wp_bind, wp_modify, wp_set_size; [hlia | cbn; hlia | cbn; hlia |].
    apply wp_bind, wp_gets. apply (malloc_inv_spec _ _ _ (units nbytes) (heap_inv_init s H0 Hsz)); done.
Qed.

(** ** Clients *)

(** The bytes of the blocks [held], each with the size asked for. *)
Definition keeps (held : gmap Z Z) (s s' : ustate) : Prop :=
  forall r n x, held !! r = Some n -> r <= x < r + n -> u_mem s' x = u_mem s x.

Inductive heap_step : ustate * gmap Z Z -> ustate * gmap Z Z -> Prop :=
| hs_malloc s h n r s' : 0 <= n <= 2 ^ 31 - 16 -> malloc base grants n s = Ret r s' -> r <> 0 -> heap_step (s, h) (s', <[r := n]> h)
| hs_fail s h n s' : 0 <= n <= 2 ^ 31 - 16 -> malloc base grants n s = Ret 0 s' -> heap_step (s, h) (s', h)
| hs_free s h r n s' : h !! r = Some n -> free r s = Ret tt s' -> heap_step (s, h) (s', delete r h)
| hs_write s h r n m : h !! r = Some n -> (forall x, x < r \/ r + n <= x -> m x = u_mem s x) -> heap_step (s, h) (set_umem m s, h).

(** Every block held is in use, with room for what was asked. *)
Definition holds (x : ustate * gmap Z Z) : Prop :=
  exists fl al, heap_ok x.1 fl al /\ forall r n, x.2 !! r = Some n -> exists k, al !! (r - HDR) = Some k /\ 0 <= n /\ n + HDR <= HDR * k.

Lemma holds_inv s h : holds (s, h) -> (exists r n, h !! r = Some n) -> exists fl al, heap_inv s fl al /\
  forall r n, h !! r = Some n -> exists k, al !! (r - HDR) = Some k /\ 0 <= n /\ n + HDR <= HDR * k.
Proof.
  intros (fl & al & [H|(_ & _ & -> & _)] & Hh) (r & n & Hr); [by exists fl, al|]. destruct (Hh r n Hr) as (k & Hk & _). by rewrite lookup_empty in Hk.
Qed.

Lemma holds_malloc s h n : holds (s, h) -> 0 <= n <= 2 ^ 31 - 16 ->
  wp (malloc base grants n) (fun r s' => keeps h s s' /\ (r = 0 /\ holds (s', h) \/ r <> 0 /\ h !! r = None /\ holds (s', <[r := n]> h))) s.
Proof.
  intros (fl & al & Hok & Hh) Hn. destruct (units_range n Hn) as (Hu1 & Hu2 & Hu3). cbn [fst snd] in *.
  eapply wp_mono; [by apply (malloc_spec s fl al n Hok)|]. intros r s' (fl' & Hr & Hsz & Hsame). split.
  { intros r0 n0 x Hr0 Hx. destruct (Hh _ _ Hr0) as (k & Hk & Hn0 & Hle). apply (Hsame _ _ _ Hk). hlia. }
  destruct Hr as [[-> H']|(a & -> & Hnone & H')]; [left; split; [done|]; exists fl', al; split; [by left | done]|]. right.
  destruct (hi_alloc _ _ _ _ H' a (units n) (lookup_insert_eq _ _ _)) as (A1 & _). pose proof (hi_base _ _ _ _ H'). split; [hlia|].
  assert (h !! (a + HDR) = None) as Hfresh.
  { apply eq_None_not_Some. intros [n0 Hn0]. destruct (Hh _ _ Hn0) as (k & Hk & _). rewrite Z.add_simpl_r in Hk. congruence. }
  split; [done|]. exists fl', (<[a := units n]> al). split; [by left|]. cbn [fst snd]. intros r0 n0 [[<- <-]|[Hne Hr0]]%lookup_insert_Some.
  - exists (units n). rewrite Z.add_simpl_r, lookup_insert_eq. split_and!; try done; lia.
  - destruct (Hh _ _ Hr0) as (k & Hk & Hle). exists k. split; [|done]. rewrite lookup_insert_ne; [done | hlia].
Qed.

Lemma holds_free s h r n : holds (s, h) -> h !! r = Some n ->
  wp (free r) (fun _ s' => keeps (delete r h) s s' /\ holds (s', delete r h)) s.
Proof.
  intros Hh Hr. destruct (holds_inv s h Hh ltac:(by exists r, n)) as (fl & al & H & Hal). destruct (Hal r n Hr) as (k & Hk & _).
  replace r with (r - HDR + HDR) at 1 by lia. apply (free_spec base s fl al (r - HDR) k); [done | done |]. intros s' fl' H' Hsz _ _ _ _ Hf. split.
  - intros r0 n0 x [Hne Hr0]%lookup_delete_Some Hx. destruct (Hal r0 n0 Hr0) as (k0 & Hk0 & Hle). destruct (hi_alloc _ _ _ _ H _ _ Hk) as (_ & Hk1 & _).
    apply Hf; [intros b Hb; destruct (hi_disj _ _ _ _ H _ _ _ Hk0 Hb); hlia|]. destruct (hi_apart _ _ _ _ H _ _ _ _ Hk0 Hk ltac:(hlia)); hlia.
  - exists fl', (delete (r - HDR) al). split; [by left|]. cbn [fst snd]. intros r0 n0 [Hne Hr0]%lookup_delete_Some. destruct (Hal r0 n0 Hr0) as (k0 & Hk0 & Hle).
    exists k0. split; [|done]. rewrite lookup_delete_ne; [done | hlia].
Qed.

Lemma holds_write s h r n m : holds (s, h) -> h !! r = Some n -> (forall x, x < r \/ r + n <= x -> m x = u_mem s x) -> holds (set_umem m s, h).
Proof.
  intros Hh Hr Hm. destruct (holds_inv s h Hh ltac:(by exists r, n)) as (fl & al & H & Hal). destruct (Hal r n Hr) as (k & Hk & Hn & Hle).
  exists fl, al. split; [|done]. left. destruct (hi_alloc _ _ _ _ H _ _ Hk) as (K1 & K2 & K3 & K4). pose proof (hi_base _ _ _ _ H). pose proof (hi_sz _ _ _ _ H).
  assert (forall b, b ∈ ring fl -> 0 <= b.1 /\ b.1 + HDR <= 2 ^ 32 /\ forall x, b.1 <= x < b.1 + HDR -> m x = u_mem s x) as Hhd.
  { intros b Hb. destruct (blocks_below _ _ _ _ (hi_blocks _ _ _ _ H) Hb) as (B1 & B2 & B3 & _). split_and!; [lia | hlia |].
    intros x Hx. apply Hm. destruct (hi_disj _ _ _ _ H _ _ _ Hk Hb); hlia. }
  split; cbn [u_mem u_sz u_freep set_umem]; try apply H; try done.
  - assert (forall l, (forall b, b ∈ l -> b ∈ ring fl) -> links (u_mem s) l base -> links m l base) as Hl; [|apply Hl; [done | apply H]].
    induction l as [|[p q] l IH]; intros Hin; cbn [links]; [done|]. intros (L1 & L2 & L3). destruct (Hhd (p, q) ltac:(apply Hin; by left)) as (P1 & P2 & P3). cbn [fst] in *.
    split_and!; [rewrite <- L1; apply load32_ext; try hlia; intros x Hx; apply P3; hlia | rewrite <- L2; apply load32_ext; try hlia; intros x Hx; apply P3; hlia |].
    apply IH; [|done]. intros b Hb. apply Hin. by right.
  - intros a k0 Ha. destruct (hi_alloc _ _ _ _ H _ _ Ha) as (A1 & A2 & A3 & A4). split_and!; try done. rewrite <- A4. apply load32_ext; [hlia | hlia |].
    intros x Hx. apply Hm. destruct (decide (a = r - HDR)) as [->|Hne]; [hlia|]. destruct (hi_apart _ _ _ _ H _ _ _ _ Ha Hk Hne); hlia.
Qed.

Lemma heap_step_holds x y : holds x -> heap_step x y -> holds y.
Proof.
  intros Hx Hst. destruct Hst as [s h n r s' Hn E Hr|s h n s' Hn E|s h r n s' Hr E|s h r n m Hr Hm].
  - pose proof (holds_malloc s h n Hx Hn) as W. unfold wp in W. rewrite E in W. destruct W as [_ [[-> _]|(_ & _ & W)]]; done.
  - pose proof (holds_malloc s h n Hx Hn) as W. unfold wp in W. rewrite E in W. destruct W as [_ [[_ W]|[? _]]]; done.
  - pose proof (holds_free s h r n Hx Hr) as W. unfold wp in W. rewrite E in W. by destruct W.
  - by eapply holds_write.
Qed.

(** ** Requests out of range *)

Lemma hptr_run s p : 0 <= p -> p + HDR <= u_sz s -> u_sz s < KERNBASE -> hptr p s = Ret (load32 (u_mem s) p) s.
Proof. intros. unfold hptr, uload, bind, get. rewrite umapped_below by hlia. done. Qed.
Lemma hsize_run s p : 0 <= p -> p + HDR <= u_sz s -> u_sz s < KERNBASE -> hsize p s = Ret (load32 (u_mem s) (p + 4)) s.
Proof. intros. unfold hsize, uload, bind, get. rewrite u32_small, umapped_below by hlia. done. Qed.

(** Where no block fits, the search ends at [freep]. *)
Lemma malloc_loop_full s fl al nu f kf : heap_inv s fl al -> (forall b, b ∈ ring fl -> b.2 < nu) -> ring fl !! f = Some (u_freep s, kf) ->
  forall fuel j pi p n, ring fl !! j = Some (p, n) -> (dist (length (ring fl)) j f < fuel)%nat ->
  exists fuel', malloc_loop grants fuel nu pi p s = after_core fuel' nu s.
Proof.
  intros H Hno Hf. set (len := length (ring fl)). induction fuel as [|fuel IH]; intros j pi p n Hj Hd; [lia|]. cbn [malloc_loop].
  destruct (links_lookup _ _ _ _ _ _ (hi_links _ _ _ _ H) Hj) as [Hn _]. pose proof (list_elem_of_lookup_2 _ _ _ Hj) as Hin.
  destruct (blocks_below _ _ _ _ (hi_blocks _ _ _ _ H) Hin) as (B1 & B2 & B3 & _). pose proof (hi_base _ _ _ _ H). pose proof (hi_sz _ _ _ _ H) as Hsz. cbn [fst snd] in *.
  rewrite (bind_Ret _ _ _ _ _ (hsize_run s p ltac:(hlia) ltac:(hlia) Hsz)), Hn. destruct (Z.leb_spec nu n) as [Hfit|_]; [specialize (Hno _ Hin); cbn in *; lia|].
  rewrite (bind_Ret (gets u_freep) _ s (u_freep s) s eq_refl). destruct (Z.eqb_spec p (u_freep s)) as [_|Hne]; [by eexists|].
  rewrite (bind_Ret _ _ _ _ _ (hptr_run s p ltac:(hlia) ltac:(hlia) Hsz)). destruct (next_lookup _ _ _ _ _ _ H Hj) as (m & Hm). fold len in Hm.
  apply (IH (next len j) p _ m Hm). pose proof (lookup_lt_Some _ _ _ Hj) as Hjl. pose proof (lookup_lt_Some _ _ _ Hf) as Hfl. fold len in Hjl, Hfl.
  assert (j <> f) by (intros ->; rewrite Hj in Hf; injection Hf; congruence). pose proof (dist_step len j f Hjl Hfl ltac:(done)). lia.
Qed.

Lemma malloc_units n n' s : units n = units n' -> malloc base grants n s = malloc base grants n' s.
Proof. unfold malloc. by intros ->. Qed.
Lemma units_wrap n : 2 ^ 32 - 8 < n < 2 ^ 32 -> units n = units 0.
Proof.
  intros Hn. unfold units. assert (u32 (n + HDR - 1) = n + HDR - 1 - 2 ^ 32) as ->.
  { transitivity ((n + HDR - 1) mod 2 ^ 32); [reflexivity|]. symmetry. apply Z.mod_unique_pos with 1; hlia. }
  change (u32 (0 + HDR - 1)) with 7. rewrite (Z.div_small 7), Z.div_small by hlia. done.
Qed.
Lemma units_large n : 2 ^ 31 - 15 <= n <= 2 ^ 32 - 8 -> 2 ^ 31 <= HDR * units n <= 2 ^ 32 /\ units n < 2 ^ 32.
Proof.
  intros Hn. unfold units. rewrite u32_small by hlia. pose proof (Z.div_mod (n + HDR - 1) HDR ltac:(done)). pose proof (Z.mod_pos_bound (n + HDR - 1) HDR ltac:(done)). hlia.
Qed.

(** [sbrk] of a size that is not positive as an [int] leaves no room above. *)
Lemma morecore_faults s nu : 0 < u_sz s < KERNBASE -> u_sz s mod PGSIZE = 0 -> 2 ^ 31 <= HDR * nu <= 2 ^ 32 -> morecore grants nu s = Undef "page fault".
Proof.
  intros Hsz Hal Hnu. unfold morecore. destruct (Z.ltb_spec nu 4096); [hlia|]. set (n := i32 (u32 (nu * HDR))).
  assert (- 2 ^ 31 <= n <= 0) as Hn.
  { unfold n. rewrite i32_u32. change (i32 (nu * HDR)) with ((nu * HDR + 2 ^ 31) mod 2 ^ 32 - 2 ^ 31). destruct (Z.eq_dec (HDR * nu) (2 ^ 32)) as [E|E].
    - replace (nu * HDR) with (2 ^ 32) by hlia. split; vm_compute; congruence.
    - replace ((nu * HDR + 2 ^ 31) mod 2 ^ 32) with (nu * HDR + 2 ^ 31 - 2 ^ 32) by (apply Z.mod_unique_pos with 1; hlia). hlia. }
  assert (forall z, 0 <= z <= u_sz s -> umapped (set_usz z s) (u32 (u_sz s + 4)) = false) as Hun.
  { intros z Hz. rewrite u32_small by hlia. unfold umapped. cbn [u_sz set_usz]. destruct (PGROUNDUP_spec z) as [P1 P2]; [lia | unfold PGSIZE; hlia |].
    assert (PGROUNDUP z <= u_sz s). { pose proof (Z.div_mod (PGROUNDUP z) PGSIZE). pose proof (Z.div_mod (u_sz s) PGSIZE). unfold PGSIZE in *. lia. }
    destruct (Z.leb_spec (u_sz s + 4 + 4) (PGROUNDUP z)); [lia|]. by rewrite andb_false_r. }
  unfold sbrk, bind at 1, bind at 1, get. fold n. destruct ((n <? 0) && (u32 (u_sz s + n) =? 0)) eqn:Ez; [done|].
  assert (exists z, brk_size (grants (u_sz s) (u32 (u_sz s + n))) (u_sz s) n = Some z /\ 0 <= z <= u_sz s) as (z & -> & Hz).
  { unfold brk_size, brk_ret. pose proof (u32_range (u_sz s + n)). destruct (Z.ltb_spec 0 n); [lia|]. destruct (Z.ltb_spec n 0) as [Hneg|Hneg]; cbn [andb] in Ez.
    - apply Z.eqb_neq in Ez. destruct (Z.leb_spec (u_sz s) (u32 (u_sz s + n))), (Z.eqb_spec n 0); try lia; cbn [negb andb];
        case_match eqn:Er; try (apply Z.eqb_eq in Er; lia); eexists; (split; [done | lia]).
    - destruct (Z.eqb_spec n 0); [|lia]. cbn. exists (u_sz s). split; [done | lia]. }
  unfold modify, bind, ret. cbn beta iota. destruct (Z.eqb_spec (u_sz s) (u32 (-1))) as [E|_]; [change (u32 (-1)) with 4294967295 in E; hlia|].
  unfold set_size, ustorew, bind, get. by rewrite Hun.
Qed.

(** The first call sets up the ring. *)
Lemma malloc_fresh s n : u_freep s = 0 -> 0 < base -> base + HDR <= u_sz s < KERNBASE ->
  malloc base grants n s = malloc base grants n (UState (store32 (store32 (u_mem s) base base) (base + 4) 0) (u_sz s) base).
Proof.
  intros Hf Hb Hsz. unfold malloc. rewrite !(bind_Ret get _ _ _ _ eq_refl). rewrite Hf. cbn [u_freep]. destruct (Z.eqb_spec base 0) as [|_]; [lia|]. cbn [Z.eqb when].
  rewrite (bind_Ret (ret tt) _ _ _ _ eq_refl). unfold set_ptr, set_size, ustorew. unfold bind at 1 2 3 4 5, get at 1 2, modify. rewrite !u32_small by hlia.
  rewrite umapped_below by hlia. cbn [set_umem set_freep]. rewrite umapped_below by (cbn; hlia). reflexivity.
Qed.

(** A request of 2^31 - 15 bytes or more does not make [malloc] return 0: the
    number of bytes asked from [sbrk] is negative as an [int], [sbrk] succeeds
    without memory, and the header of the new block is stored past the end of
    the process, which faults (its size a multiple of the page size). The last
    seven requests wrap around to the smallest block. *)
Lemma malloc_large_ring s fl al n :
  heap_inv s fl al -> u_sz s mod PGSIZE = 0 -> 2 ^ 31 - 15 <= n < 2 ^ 32 ->
  malloc base grants n s = (if n <=? 2 ^ 32 - 8 then Undef "page fault" else malloc base grants 0 s).
Proof.
  intros H Hal Hn. destruct (Z.leb_spec n (2 ^ 32 - 8)) as [Hle|Hgt]; [|apply malloc_units, units_wrap; lia].
  destruct (units_large n ltac:(lia)) as [Hu1 Hu2]. pose proof (hi_freep _ _ _ _ H) as ([f0 kf] & Ef & [f Hf]%list_elem_of_lookup)%list_elem_of_fmap. cbn in Ef. subst f0.
  destruct (next_lookup _ _ _ _ _ _ H Hf) as (m & Hm). pose proof (freep_pos _ _ _ H) as Hpos. pose proof (hi_sz _ _ _ _ H) as Hsz.
  destruct (blocks_below _ _ _ _ (hi_blocks _ _ _ _ H) (list_elem_of_lookup_2 _ _ _ Hf)) as (B1 & B2 & B3 & _). pose proof (hi_base _ _ _ _ H). cbn [fst snd] in *.
  unfold malloc. rewrite (bind_Ret get _ s s s eq_refl). destruct (Z.eqb_spec (u_freep s) 0); [lia|]. cbn [when].
  rewrite (bind_Ret (ret tt) _ s tt s eq_refl), (bind_Ret (gets u_freep) _ s (u_freep s) s eq_refl), (bind_Ret _ _ _ _ _ (hptr_run s (u_freep s) ltac:(hlia) ltac:(hlia) Hsz)).
  destruct (malloc_loop_full s fl al (units n) f kf H) with (fuel := (2 * ring_fuel s)%nat) (j := next (length (ring fl)) f) (pi := u_freep s) (p := load32 (u_mem s) (u_freep s)) (n := m) as (fuel' & ->); [| done | done | |].
  - intros b Hb. destruct (blocks_below _ _ _ _ (hi_blocks _ _ _ _ H) Hb) as (C1 & C2 & C3 & _). hlia.
  - pose proof (dist_lt _ _ _ (lookup_lt_Some _ _ _ Hm) (lookup_lt_Some _ _ _ Hf)). pose proof (ring_length _ _ _ H). unfold ring_fuel. lia.
  - unfold after_core, bind. rewrite (morecore_faults s (units n)) by (done || hlia). done.
Qed.
Lemma malloc_large_faults s fl al n :
  heap_ok s fl al -> u_sz s mod PGSIZE = 0 -> 2 ^ 31 - 15 <= n < 2 ^ 32 ->
  malloc base grants n s = (if n <=? 2 ^ 32 - 8 then Undef "page fault" else malloc base grants 0 s).
Proof.
  intros [H|(E & -> & -> & H0 & Hsz)] Hal Hn; [by apply (malloc_large_ring s fl al)|].
  rewrite !(malloc_fresh s) by done. by apply (malloc_large_ring _ [] ∅); [apply heap_inv_init|..].
Qed.

(** C10: however a program mixes calls of [malloc], calls of [free] on blocks it
    holds and writes inside blocks it holds, the blocks it holds lie inside its
    memory and do not overlap; [malloc] of at most 2^31 - 16 bytes returns 0 or a
    block that it did not hold, [free] returns, and neither touches a byte of
    another block held.  Beyond that bound [malloc] is not safe: in a process
    whose size is a multiple of the page size, a request of 2^31 - 15 bytes or
    more ends in a page fault instead of returning 0, except that the last
    seven sizes wrap around to a request of no bytes. *)
Theorem heap_safe s0 s h :
  u_freep s0 = 0 -> 0 < base -> base + HDR <= u_sz s0 < KERNBASE -> rtc heap_step (s0, ∅) (s, h) ->
  (forall r n, h !! r = Some n -> base < r /\ r + n <= u_sz s) /\
  (forall r n r' n', h !! r = Some n -> h !! r' = Some n' -> r <> r' -> r + n <= r' \/ r' + n' <= r) /\
  (forall n, 0 <= n <= 2 ^ 31 - 16 -> wp (malloc base grants n) (fun r s' => keeps h s s' /\ (r = 0 \/ h !! r = None)) s) /\
  (forall r n, h !! r = Some n -> wp (free r) (fun _ s' => keeps (delete r h) s s') s) /\
  (forall n, 2 ^ 31 - 15 <= n < 2 ^ 32 -> u_sz s mod PGSIZE = 0 ->
    malloc base grants n s = (if n <=? 2 ^ 32 - 8 then Undef "page fault" else malloc base grants 0 s)).
Proof.
  intros Hf Hb Hsz Hr. assert (holds (s, h)) as Hh.
  { remember (s, h) as y eqn:E. clear E. remember (s0, ∅) as x eqn:E.
    assert (holds x) as Hx. { subst x. exists [], ∅. split; [right; done|]. cbn [fst snd]. intros r n Hn. by rewrite lookup_empty in Hn. }
    clear E. induction Hr as [|x y z Hxy Hyz IH]; [done|]. apply IH. by eapply heap_step_holds. }
  split_and!.
  - intros r n Hn. destruct (holds_inv s h Hh ltac:(by exists r, n)) as (fl & al & H & Hal). destruct (Hal r n Hn) as (k & Hk & Hle).
    destruct (hi_alloc _ _ _ _ H _ _ Hk) as (A1 & A2 & A3 & _). hlia.
  - intros r n r' n' Hn Hn' Hne. destruct (holds_inv s h Hh ltac:(by exists r, n)) as (fl & al & H & Hal). destruct (Hal r n Hn) as (k & Hk & Hle), (Hal r' n' Hn') as (k' & Hk' & Hle').
    destruct (hi_apart _ _ _ _ H _ _ _ _ Hk Hk' ltac:(hlia)); hlia.
  - intros n Hn. eapply wp_mono; [by apply (holds_malloc s h n)|]. intros r s' [H1 [[-> _]|(_ & H2 & _)]]; auto.
  - intros r n Hn. eapply wp_mono; [by apply (holds_free s h r n)|]. by intros _ s' [H1 _].
  - intros n Hn Hal. destruct Hh as (fl & al & Hok & _). by apply (malloc_large_faults s fl al).
Qed.

End malloc.

(** A program with its data in the first two pages and [base] at 0x1000. *)
Definition ex_heap : ustate := UState (fun _ => 0) 0x2000 0.

Lemma heap_safe_witness : exists s (h : gmap Z Z) r, h !! r = Some 10 /\ 0x1000 < r /\ r + 10 <= u_sz s.
Proof.
  assert (match malloc 0x1000 (fun _ _ => true) 10 ex_heap with Ret r s => (r, u_sz s) | _ => (0, 0) end = (0x9FF0, 0xA000)) as E by (vm_compute; reflexivity).
  destruct (malloc 0x1000 (fun _ _ => true) 10 ex_heap) as [r s|?|?|?] eqn:Em; try discriminate E.
  exists s, (<[r := 10]> ∅), r. split; [by rewrite lookup_insert_eq|].
  destruct (heap_safe 0x1000 (fun _ _ => true) ex_heap s (<[r := 10]> ∅)) as (Hin & _); [reflexivity | lia | unfold HDR, KERNBASE; cbn; lia | |].
  - apply rtc_once. apply hs_malloc; [lia | exact Em | injection E; lia].
  - apply Hin. by rewrite lookup_insert_eq.
Defined.
