(* ===== verification/User.v ===== *)
(** * User programs as trees of system calls

    A user program sees the kernel only through its system calls.  It is an
    interaction tree: a call is an event, the rest of the program continues with
    the value the kernel returns, and a loop is [ITree.iter], so a program that
    never ends (init, the shell) is one as well.  [printf], [gets] and [stat] of
    the user library are trees, too: each byte that [printf] prints is a call
    of [write].

    [uwp] is the weakest precondition of a program: against a relation that says
    which results the kernel may give to a call, the program ends, whatever the
    results, and a postcondition holds. *)

From S2P Require Import Prelude CString Ulib.
From ITree Require Import Core.ITreeDefinition.

(** [struct stat], as far as programs read it. *)
Record ustat := UStat { us_type : Z; us_ino : Z; us_size : Z }.

(** The calls of user.h with what they return: a C [int], or the data that the
    kernel stores through a pointer ([None] where the call returns -1). *)
Inductive callE : Type -> Type :=
| Fork : callE Z
| Exit : callE Empty_set
| Wait : callE Z
| Pipe : callE (option (Z * Z))
| Read (fd n : Z) : callE (option (list Z))
| Kill (pid : Z) : callE Z
| Exec (path : list Z) (argv : list (list Z)) : callE Z
| Fstat (fd : Z) : callE (option ustat)
| Chdir (path : list Z) : callE Z
| Dup (fd : Z) : callE Z
| Sleep (n : Z) : callE Z
| Open (path : list Z) (mode : Z) : callE Z
| Write (fd : Z) (l : list Z) : callE Z
| Mknod (path : list Z) (major minor : Z) : callE Z
| Unlink (path : list Z) : callE Z
| Link (old new : list Z) : callE Z
| Mkdir (path : list Z) : callE Z
| MkSmallFilesdir (path : list Z) : callE Z
| Close (fd : Z) : callE Z
| Getpid : callE Z
| Sbrk (n : Z) : callE Z
| Uptime : callE Z
| GetCount (size : Z) : callE (option (list Z))
| Undefined : callE Empty_set.

Definition prog : Type -> Type := itree callE.

Declare Scope user_scope.
Delimit Scope user_scope with user.
Notation "'let*' x := m 'in' k" := (ITree.bind m (fun x => k))
  (at level 200, x pattern, m at level 100, k at level 200,
   format "'[v' 'let*'  x  :=  m  'in' '/' k ']'") : user_scope.
Notation "m ;* k" := (ITree.bind m (fun _ => k))
  (at level 101, right associativity, format "'[v' m  ;* '/' k ']'") : user_scope.
#[global] Open Scope user_scope.

Definition sys {A} (e : callE A) : prog A := ITree.trigger e.
Definition done_ {A} (a : A) : prog A := Ret a.
Definition skip : prog unit := done_ tt.
Definition exit_ {A} : prog A := let* x := sys Exit in match x : Empty_set with end.
Definition undefined {A} : prog A := let* x := sys Undefined in match x : Empty_set with end.

(** [while(1) body]: the body ends the loop with [inr]. *)
Definition loop {I R} (body : I -> prog (I + R)) (i : I) : prog R := ITree.iter body i.

(** The bytes of a C string literal. *)
Fixpoint cs (s : string) : list Z :=
  match s with
  | EmptyString => []
  | String c s' =>
      let n := Z.of_N (Ascii.N_of_ascii c) in
      match s' with
      | String d s'' =>
          if n =? 92 then (if Z.of_N (Ascii.N_of_ascii d) =? 110 then 10 else 9) :: cs s''
          else n :: cs s'
      | EmptyString => [n]
      end
  end.

(** ** printf.c *)

Inductive arg := AInt (z : Z) | AStr (s : list Z).

(** The output of [printf] on a format and its arguments. *)
Fixpoint format (fmt : list Z) (st : bool) (ap : list arg) : option (list Z) :=
  match fmt with
  | [] => Some []
  | c :: fmt =>
      if negb st then
        if c =? 37 then format fmt true ap else out ← format fmt false ap; Some (c :: out)
      else if c =? 100 then
        match ap with AInt z :: ap => out ← format fmt false ap; Some (Printf.printint (i32 z) 10 true ++ out) | _ => None end
      else if (c =? 120) || (c =? 112) then
        match ap with AInt z :: ap => out ← format fmt false ap; Some (Printf.printint (i32 z) 16 false ++ out) | _ => None end
      else if c =? 115 then
        match ap with AStr s :: ap => out ← format fmt false ap; Some (s ++ out) | _ => None end
      else if c =? 99 then
        match ap with AInt z :: ap => out ← format fmt false ap; Some (u8 z :: out) | _ => None end
      else if c =? 37 then out ← format fmt false ap; Some (c :: out)
      else out ← format fmt false ap; Some (37 :: c :: out)
  end.

(** The words [printf] finds on its stack for the arguments. *)
Definition arg_word (fuel : nat) (m : mem) (a : arg) (w : Z) : Prop :=
  match a with
  | AInt z => w = z
  | AStr s => w <> 0 /\ Printf.read_cstr fuel m w = Some s
  end.

(** The formatter agrees with the one of printf.c on words and memory. *)
Lemma format_printf fuel m fmt st ap ws out : Forall2 (arg_word fuel m) ap ws -> format fmt st ap = Some out ->
  Printf.printf_loop fuel m fmt st ws = Some out.
Proof.
  revert st ap ws out. induction fmt as [|c fmt IH]; intros st ap ws out Hap; [done|].
  cbn [format Printf.printf_loop]. destruct st; cbn [negb].
  - destruct (c =? 100); [|destruct ((c =? 120) || (c =? 112)); [|destruct (c =? 115); [|destruct (c =? 99); [|destruct (c =? 37)]]]];
      try (destruct Hap as [|[z|s] w ap ws Ha Hap]; try done; cbn [arg_word] in Ha); intros (o & Ho & [= <-])%bind_Some.
    1,2,4: subst w; by rewrite (IH _ _ _ _ Hap Ho).
    2,3: by rewrite (IH _ _ _ _ Hap Ho).
    destruct Ha as [Hw Hs]. rewrite (proj2 (Z.eqb_neq _ _) Hw), Hs. cbn. by rewrite (IH _ _ _ _ Hap Ho).
  - destruct (c =? 37); [by apply IH|]. intros (o & Ho & [= <-])%bind_Some. by rewrite (IH _ _ _ _ Hap Ho).
Qed.

Definition putc (fd c : Z) : prog unit := sys (Write fd [c]) ;* skip.
Fixpoint puts (fd : Z) (l : list Z) : prog unit :=
  match l with
  | [] => skip
  | c :: l => putc fd c ;* puts fd l
  end.
Definition printf (fd : Z) (fmt : string) (ap : list arg) : prog unit :=
  match format (cs fmt) false ap with
  | Some l => puts fd l
  | None => undefined
  end.

(** ** ulib.c *)

(** The bytes [gets] stores before the terminator. *)
Fixpoint gets_loop (n : nat) (acc : list Z) : prog (list Z) :=
  match n with
  | O => done_ acc
  | S n =>
      let* r := sys (Read 0 1) in
      match r with
      | Some [c] => if (c =? 10) || (c =? 13) then done_ (acc ++ [c]) else gets_loop n (acc ++ [c])
      | _ => done_ acc
      end
  end.
Definition gets (max : Z) : prog (list Z) := gets_loop (Z.to_nat (max - 1)) [].

Definition stat (n : list Z) : prog (option ustat) :=
  let* fd := sys (Open n 0) in
  if fd <? 0 then done_ None
  else
    let* r := sys (Fstat fd) in
    sys (Close fd) ;* done_ r.

(** ** Weakest preconditions *)

Lemma observe_bind {A R} (t : prog A) (k : A -> prog R) : observe (ITree.bind t k) =
  match observe t with
  | RetF r => observe (k r)
  | TauF t => TauF (ITree.bind t k)
  | VisF e h => VisF e (fun x => ITree.bind (h x) k)
  end.
Proof.
  change (observe (match observe t with RetF r => k r | TauF t => Tau (ITree.bind t k) | VisF e h => Vis e (fun x => ITree.bind (h x) k) end) =
    match observe t with RetF r => observe (k r) | TauF t => TauF (ITree.bind t k) | VisF e h => VisF e (fun x => ITree.bind (h x) k) end).
  by destruct (observe t).
Qed.

Section uwp.
Context {W : Type}.
(** What the kernel may answer, and what holds of the state in which the
    program exits. *)
Context (step : forall A, callE A -> W -> A -> W -> Prop) (fin : W -> Prop).

Inductive uwp {R} (Q : R -> W -> Prop) : prog R -> W -> Prop :=
| uwp_RetF t r w : observe t = RetF r -> Q r w -> uwp Q t w
| uwp_TauF t t' w : observe t = TauF t' -> uwp Q t' w -> uwp Q t w
| uwp_ExitF t k w : observe t = VisF Exit k -> fin w -> uwp Q t w
| uwp_VisF A (e : callE A) t k w : observe t = VisF e k -> (exists a w', step A e w a w') ->
    (forall a w', step A e w a w' -> uwp Q (k a) w') -> uwp Q t w.

Lemma uwp_done {R} (Q : R -> W -> Prop) r w : Q r w -> uwp Q (done_ r) w.
Proof. by apply uwp_RetF. Qed.
Lemma uwp_mono {R} (P Q : R -> W -> Prop) t w : uwp P t w -> (forall r w, P r w -> Q r w) -> uwp Q t w.
Proof.
  intros H HPQ. induction H as [t r w E Hr|t t' w E _ IH|t k w E Hf|A e t k w E Hp _ IH];
    [eapply uwp_RetF|eapply uwp_TauF|eapply uwp_ExitF|eapply uwp_VisF]; eauto.
Qed.
Lemma uwp_bind {A R} (Q : R -> W -> Prop) (t : prog A) (k : A -> prog R) w :
  uwp (fun a w => uwp Q (k a) w) t w -> uwp Q (ITree.bind t k) w.
Proof.
  induction 1 as [t r w E Hr|t t' w E _ IH|t k' w E Hf|B e t k' w E Hp _ IH].
  - assert (Eo : observe (ITree.bind t k) = observe (k r)) by (by rewrite observe_bind, E).
    destruct Hr as [u r' w E' Hr|u u' w E' H|u k' w E' Hf|B e u k' w E' Hp H]; rewrite E' in Eo;
      [eapply uwp_RetF|eapply uwp_TauF|eapply uwp_ExitF|eapply uwp_VisF]; eauto.
  - eapply uwp_TauF; [|exact IH]. by rewrite observe_bind, E.
  - eapply uwp_ExitF; [|exact Hf]. by rewrite observe_bind, E.
  - eapply uwp_VisF; [|exact Hp|exact IH]. by rewrite observe_bind, E.
Qed.
Lemma uwp_sys {A} (e : callE A) (Q : A -> W -> Prop) w :
  (exists a w', step A e w a w') -> (forall a w', step A e w a w' -> Q a w') -> uwp Q (sys e) w.
Proof. intros Hp HQ. eapply uwp_VisF; [reflexivity|exact Hp|]. intros a w' Hs. eapply uwp_RetF; [reflexivity|]. by apply HQ. Qed.
Lemma uwp_exit {R} (Q : R -> W -> Prop) w : fin w -> uwp Q exit_ w.
Proof. intros Hf. apply uwp_bind. by eapply uwp_ExitF. Qed.

(** One round of a loop. *)
Lemma uwp_loop {I R} (body : I -> prog (I + R)) (Q : R -> W -> Prop) i w :
  uwp (fun r w => match r with inl i => uwp Q (loop body i) w | inr r => Q r w end) (body i) w -> uwp Q (loop body i) w.
Proof.
  intros H. unfold loop.
  assert (Hb : uwp Q (ITree.bind (body i) (fun lr => match lr with inl l => Tau (ITree.iter body l) | inr r => Ret r end)) w).
  { apply uwp_bind. eapply uwp_mono; [exact H|]. intros [j|r] w' Hj; [by eapply uwp_TauF|by eapply uwp_RetF]. }
  assert (Eo : observe (ITree.iter body i) = observe (ITree.bind (body i) (fun lr => match lr with inl l => Tau (ITree.iter body l) | inr r => Ret r end)))
    by reflexivity.
  destruct Hb as [u r' w E' Hr|u u' w E' Hu|u k' w E' Hf|B e u k' w E' Hp Hu]; rewrite E' in Eo;
      [eapply uwp_RetF|eapply uwp_TauF|eapply uwp_ExitF|eapply uwp_VisF]; eauto.
Qed.
End uwp.
