(* ===== verification/Programs.v ===== *)
(** * The user programs

    cat.c, wc.c, grep.c, ls.c, echo.c, ln.c, rm.c, mkdir.c, mkSmallFilesdir.c,
    kill.c, zombie.c, init.c and getcount.c as trees of system calls.  The
    arguments are [argv] without [argv[0]].  The theorems run them against a
    kernel that may split a stream into pieces as it likes and may fail any
    call. *)

From S2P Require Import Prelude Ulib Layout Fs Sysfile Grep User.
From ITree Require Import Core.ITreeDefinition.

Definition BUFSIZE : Z := 512.

(** ** cat.c *)

Definition cat (fd : Z) : prog unit :=
  loop (fun _ : unit =>
    let* r := sys (Read fd BUFSIZE) in
    match r with
    | None => printf 1 "cat: read error\n" [] ;* exit_
    | Some [] => done_ (inr tt)
    | Some l =>
        let* n := sys (Write 1 l) in
        if negb (n =? Z.of_nat (length l)) then printf 1 "cat: write error\n" [] ;* exit_
        else done_ (inl tt)
    end) tt.

(** The loop of cat, wc and grep over the files named in [argv]. *)
Fixpoint each_file (name : string) (f : Z -> list Z -> prog unit) (argv : list (list Z)) : prog unit :=
  match argv with
  | [] => skip
  | a :: argv =>
      let* fd := sys (Open a 0) in
      if fd <? 0 then printf 1 (name ++ ": cannot open %s\n") [AStr a] ;* exit_
      else f fd a ;* sys (Close fd) ;* each_file name f argv
  end.

Definition cat_main (argv : list (list Z)) : prog unit :=
  match argv with
  | [] => cat 0 ;* exit_
  | _ => each_file "cat" (fun fd _ => cat fd) argv ;* exit_
  end.

(** ** wc.c *)

Record counts := Counts { ct_l : Z; ct_w : Z; ct_c : Z; ct_inword : bool }.

Definition wc_space (c : Z) : bool := bool_decide (c ∈ [32; 13; 9; 10; 11]).
Definition wc_char (s : counts) (c : Z) : counts :=
  let s := Counts (ct_l s) (ct_w s) (i32 (ct_c s + 1)) (ct_inword s) in
  let s := if c =? 10 then Counts (i32 (ct_l s + 1)) (ct_w s) (ct_c s) (ct_inword s) else s in
  if wc_space c then Counts (ct_l s) (ct_w s) (ct_c s) false
  else if negb (ct_inword s) then Counts (ct_l s) (i32 (ct_w s + 1)) (ct_c s) true
  else s.

Definition wc (fd : Z) (name : list Z) : prog unit :=
  let* r := loop (fun s : counts =>
    let* r := sys (Read fd BUFSIZE) in
    match r with
    | None => done_ (inr None)
    | Some [] => done_ (inr (Some s))
    | Some l => done_ (inl (foldl wc_char s l))
    end) (Counts 0 0 0 false) in
  match r with
  | None => printf 1 "wc: read error\n" [] ;* exit_
  | Some s => printf 1 "%d %d %d %s\n" [AInt (ct_l s); AInt (ct_w s); AInt (ct_c s); AStr name]
  end.

Definition wc_main (argv : list (list Z)) : prog unit :=
  match argv with
  | [] => wc 0 [] ;* exit_
  | _ => each_file "wc" wc argv ;* exit_
  end.

(** ** grep.c *)

(** The inner loop: the lines found are written, the bytes after them returned. *)
Fixpoint grep_write (fuel : nat) (re p : list Z) : prog (list Z) :=
  match fuel with
  | O => done_ p
  | S fuel =>
      match cut_line p with
      | None => done_ p
      | Some (l, r) =>
          (if match_ re l then sys (Write 1 (l ++ [NEWLINE])) ;* skip else skip) ;*
          grep_write fuel re r
      end
  end.
Definition grep_body (re : list Z) (fd : Z) (buf : list Z) : prog (list Z + unit) :=
  let* r := sys (Read fd (Z.of_nat BUFSZ - Z.of_nat (length buf) - 1)) in
  match r with
  | None | Some [] => done_ (inr tt)
  | Some got =>
      let p := buf ++ got in
      let* rest := grep_write (length p) re p in
      done_ (inl (if decide (length rest = length p) then [] else rest))
  end.
Definition grep_fd (re : list Z) (fd : Z) : prog unit := loop (grep_body re fd) [].

Definition grep_main (argv : list (list Z)) : prog unit :=
  match argv with
  | [] => printf 2 "usage: grep pattern [file ...]\n" [] ;* exit_
  | [pattern] => grep_fd pattern 0 ;* exit_
  | pattern :: files => each_file "grep" (fun fd _ => grep_fd pattern fd) files ;* exit_
  end.

(** ** echo.c, ln.c, rm.c, mkdir.c, mkSmallFilesdir.c, kill.c *)

Fixpoint echo_loop (argv : list (list Z)) : prog unit :=
  match argv with
  | [] => skip
  | a :: argv =>
      printf 1 "%s%s" [AStr a; AStr (cs (match argv with [] => "\n" | _ => " " end))] ;*
      echo_loop argv
  end.
Definition echo_main (argv : list (list Z)) : prog unit := echo_loop argv ;* exit_.

Definition ln_main (argv : list (list Z)) : prog unit :=
  match argv with
  | [old; new] =>
      let* r := sys (Link old new) in
      (if r <? 0 then printf 2 "link %s %s: failed\n" [AStr old; AStr new] else skip) ;* exit_
  | _ => printf 2 "Usage: ln old new\n" [] ;* exit_
  end.

(** [for(i = 1; i < argc; i++) if(f(argv[i]) < 0){ printf(...); break; }] *)
Fixpoint each_arg (f : list Z -> callE Z) (msg : string) (argv : list (list Z)) : prog unit :=
  match argv with
  | [] => skip
  | a :: argv =>
      let* r := sys (f a) in
      if r <? 0 then printf 2 msg [AStr a] else each_arg f msg argv
  end.
Definition args_main (usage : string) (f : list Z -> callE Z) (msg : string) (argv : list (list Z)) : prog unit :=
  match argv with
  | [] => printf 2 usage [] ;* exit_
  | _ => each_arg f msg argv ;* exit_
  end.
Definition rm_main : list (list Z) -> prog unit := args_main "Usage: rm files...\n" Unlink "rm: %s failed to delete\n".
Definition mkdir_main : list (list Z) -> prog unit := args_main "Usage: mkdir files...\n" Mkdir "mkdir: %s failed to create\n".
Definition mkSmallFilesdir_main : list (list Z) -> prog unit :=
  args_main "Usage: mkdir files...\n" MkSmallFilesdir "mkdir: %s failed to create\n".

Fixpoint kill_loop (argv : list (list Z)) : prog unit :=
  match argv with
  | [] => skip
  | a :: argv => sys (Kill (Ulib.atoi a)) ;* kill_loop argv
  end.
Definition kill_main (argv : list (list Z)) : prog unit :=
  match argv with
  | [] => printf 2 "usage: kill pid...\n" [] ;* exit_
  | _ => kill_loop argv ;* exit_
  end.

(** ** zombie.c and init.c *)

Definition zombie_main : prog unit :=
  let* pid := sys Fork in
  (if 0 <? pid then sys (Sleep 5) ;* skip else skip) ;* exit_.

Definition init_wait (pid : Z) : prog unit :=
  loop (fun _ : unit =>
    let* wpid := sys Wait in
    if (0 <=? wpid) && negb (wpid =? pid) then printf 1 "zombie!\n" [] ;* done_ (inl tt)
    else done_ (inr tt)) tt.
Definition init_main : prog unit :=
  let* fd := sys (Open (cs "console") O_RDWR) in
  (if fd <? 0 then sys (Mknod (cs "console") 1 1) ;* sys (Open (cs "console") O_RDWR) ;* skip else skip) ;*
  sys (Dup 0) ;*
  sys (Dup 0) ;*
  loop (fun _ : unit =>
    printf 1 "init: starting sh\n" [] ;*
    let* pid := sys Fork in
    if pid <? 0 then printf 1 "init: fork failed\n" [] ;* exit_
    else if pid =? 0 then sys (Exec (cs "sh") [cs "sh"]) ;* printf 1 "init: exec sh failed\n" [] ;* exit_
    else init_wait pid ;* done_ (inl tt)) tt.

(** ** ls.c *)

(** What follows the last slash. *)
Fixpoint after_slash (l : list Z) : list Z :=
  match l with
  | [] => []
  | c :: l' => if bool_decide (47 ∈ l') then after_slash l' else if c =? 47 then l' else l
  end.
Definition fmtname (path : list Z) : list Z :=
  let p := after_slash path in
  if (Z.to_nat DIRSIZ <=? length p)%nat then p else p ++ replicate (Z.to_nat DIRSIZ - length p) 32.

Definition ls_line (path : list Z) (st : ustat) : prog unit :=
  printf 1 "%s %d %d %d\n" [AStr (fmtname path); AInt (us_type st); AInt (us_ino st); AInt (us_size st)].

(** The C string of a fixed array. *)
Fixpoint until_nul (l : list Z) : list Z :=
  match l with
  | [] => []
  | c :: l => if c =? 0 then [] else c :: until_nul l
  end.

(** The cases [T_DIR] and [T_SDIR]: an entry is a 16-bit inode number and a name. *)
Definition ls_dir (path : list Z) (fd : Z) : prog unit :=
  if BUFSIZE <? Z.of_nat (length path) + 1 + DIRSIZ + 1 then printf 1 "ls: path too long\n" []
  else
    loop (fun _ : unit =>
      let* r := sys (Read fd (2 + DIRSIZ)) in
      match r with
      | Some (lo :: hi :: name) =>
          if negb (Z.of_nat (length name) =? DIRSIZ) then done_ (inr tt)
          else if lo + 256 * hi =? 0 then done_ (inl tt)
          else
            let buf := path ++ [47] ++ until_nul name in
            let* st := stat buf in
            match st with
            | None => printf 1 "ls: cannot stat %s\n" [AStr buf] ;* done_ (inl tt)
            | Some st => ls_line buf st ;* done_ (inl tt)
            end
      | _ => done_ (inr tt)
      end) tt.

Definition ls (path : list Z) : prog unit :=
  let* fd := sys (Open path 0) in
  if fd <? 0 then printf 2 "ls: cannot open %s\n" [AStr path]
  else
    let* r := sys (Fstat fd) in
    match r with
    | None => printf 2 "ls: cannot stat %s\n" [AStr path] ;* sys (Close fd) ;* skip
    | Some st =>
        (if us_type st =? T_FILE then ls_line path st
         else if us_type st =? T_SFILE then ls_line path st
         else if us_type st =? T_DIR then ls_dir path fd
         else if us_type st =? T_SDIR then ls_dir path fd
         else skip) ;*
        sys (Close fd) ;* skip
    end.
Fixpoint ls_loop (argv : list (list Z)) : prog unit :=
  match argv with
  | [] => skip
  | a :: argv => ls a ;* ls_loop argv
  end.
Definition ls_main (argv : list (list Z)) : prog unit :=
  match argv with
  | [] => ls (cs ".") ;* exit_
  | _ => ls_loop argv ;* exit_
  end.

(** ** getcount.c and getcounts.c *)

Definition banner : prog unit := printf 1 "Davvid_Caballero_#A20307530\n" [].

(** [counts] is not initialised: where [getcount] fails, and outside the array,
    its elements have no meaning. *)
Definition element (o : option (list Z)) (i : Z) : prog Z :=
  match o with
  | Some l => if i <? 0 then undefined else match l !! Z.to_nat i with Some c => done_ c | None => undefined end
  | None => undefined
  end.

Definition getcount_main (argv : list (list Z)) : prog unit :=
  banner ;*
  match argv with
  | [a] =>
      let arg := Ulib.atoi a in
      let* counts := sys (GetCount 23) in
      let* c := element counts arg in
      printf 1 "count: %d\n" [AInt c] ;* exit_
  | _ =>
      printf 1 "Add number of System call:\nSYS_fork    1\nSYS_exit    2\nSYS_wait    3\nSYS_pipe    4\nSYS_read    5\nSYS_kill    6\nSYS_exec    7\nSYS_fstat   8\nSYS_chdir   9\nSYS_dup    10\nSYS_getpid 11\nSYS_sbrk   12\nSYS_sleep  13\nSYS_uptime 14\nSYS_open   15\nSYS_write  16\nSYS_mknod  17\nSYS_unlink 18\nSYS_link   19\nSYS_mkdir  20\nSYS_close  21\nSYS_getcount 22\n" [] ;*
      exit_
  end.

Definition sysnames : list string :=
  ["SYS_fork"; "SYS_exit"; "SYS_wait"; "SYS_pipe"; "SYS_read"; "SYS_kill"; "SYS_exec"; "SYS_fstat"; "SYS_chdir"; "SYS_dup"; "SYS_getpid";
   "SYS_sbrk"; "SYS_sleep"; "SYS_uptime"; "SYS_open"; "SYS_write"; "SYS_mkmod"; "SYS_unlink"; "SYS_link"; "SYS_mkdir"; "SYS_close"; "SYS_getcount"].
Definition sysname (sysint : Z) : list Z :=
  cs (if sysint <? 1 then "SYS_unknown" else default "SYS_unknown" (sysnames !! Z.to_nat (sysint - 1))).

(** [while(counter < n)] with [z] for the option -z; [k] rounds are left. *)
Fixpoint counts_loop (k : nat) (z : bool) (counts : option (list Z)) (counter : Z) : prog unit :=
  match k with
  | O => skip
  | S k =>
      let* c := element counts counter in
      (if z && (c =? 0) then skip else printf 1 "%s:%d\n" [AStr (sysname counter); AInt c]) ;*
      counts_loop k z counts (counter + 1)
  end.
Definition getcounts_main (argv : list (list Z)) : prog unit :=
  banner ;*
  let* counts := sys (GetCount 23) in
  match argv with
  | [] => counts_loop 22 false counts 1
  | [a] => if bool_decide (a = cs "-z") then counts_loop 22 true counts 1 else skip
  | _ => skip
  end ;*
  exit_.
