(* ===== verification/ProgramTheorems.v ===== *)
(** * What the user programs print

    The kernel as one process sees it: descriptors are streams, a [read] returns
    any part of what is left, and any call may fail, which sets [w_bad].  Of each
    program it is shown that it ends, and that unless a call failed its output
    is the one its manual promises. *)

From S2P Require Import Prelude Ulib Layout Grep User Programs.
From ITree Require Import Core.ITreeDefinition.

Inductive desc := DIn (l : list Z) | DOut (o : list Z).

(** The calls that change the file system, as the kernel got them. *)
Inductive effect :=
| ELink (old new : list Z)
| EUnlink (path : list Z)
| EMkdir (path : list Z)
| EMkSmallFilesdir (path : list Z)
| EKill (pid : Z).

Record world := World { w_fd : gmap Z desc; w_files : gmap (list Z) (list Z); w_log : list effect; w_bad : bool }.

Definition set_fd (fd : Z) (d : desc) (w : world) : world := World (<[fd := d]> (w_fd w)) (w_files w) (w_log w) (w_bad w).
Definition log (e : effect) (w : world) : world := World (w_fd w) (w_files w) (w_log w ++ [e]) (w_bad w).
Definition fail (w : world) : world := World (w_fd w) (w_files w) (w_log w) true.

Definition logged (e : effect) (w : world) (r : Z) (w' : world) : Prop :=
  (r = 0 /\ w' = log e w) \/ (r = -1 /\ w' = fail w).

Definition ustep (A : Type) (e : callE A) : world -> A -> world -> Prop :=
  match e in callE A return world -> A -> world -> Prop with
  | Read fd n => fun w r w' =>
      (exists l1 l2, w_fd w !! fd = Some (DIn (l1 ++ l2)) /\ Z.of_nat (length l1) <= n /\ (l1 = [] -> l2 = [] \/ n <= 0) /\
         r = Some l1 /\ w' = set_fd fd (DIn l2) w) \/
      (r = None /\ w' = fail w)
  | Write fd l => fun w r w' =>
      (exists o, w_fd w !! fd = Some (DOut o) /\ r = Z.of_nat (length l) /\ w' = set_fd fd (DOut (o ++ l)) w) \/
      (r = -1 /\ w' = fail w)
  | Open path mode => fun w r w' =>
      (exists l, w_files w !! path = Some l /\ mode = 0 /\ 0 <= r /\ w_fd w !! r = None /\ w' = set_fd r (DIn l) w) \/
      (r = -1 /\ w' = fail w)
  | Close fd => fun w r w' =>
      r = (if w_fd w !! fd then 0 else -1) /\ w' = World (delete fd (w_fd w)) (w_files w) (w_log w) (w_bad w)
  | Link old new => logged (ELink old new)
  | Unlink path => logged (EUnlink path)
  | Mkdir path => logged (EMkdir path)
  | MkSmallFilesdir path => logged (EMkSmallFilesdir path)
  | Kill pid => logged (EKill pid)
  | _ => fun _ _ _ => False
  end.

(** [w'] is [w] after [l] was printed on [fd], unless a call failed. *)
Definition wrote (fd : Z) (l : list Z) (w w' : world) : Prop :=
  exists o o', w_fd w !! fd = Some (DOut o) /\ w_fd w' = <[fd := DOut o']> (w_fd w) /\ w_files w' = w_files w /\ w_log w' = w_log w /\
    (w_bad w' = true \/ (w_bad w' = w_bad w /\ o' = o ++ l)).
Definition has_out (fd : Z) (w : world) : Prop := exists o, w_fd w !! fd = Some (DOut o).

Lemma wrote_nil fd w : has_out fd w -> wrote fd [] w w.
Proof. intros [o Ho]. exists o, o. rewrite insert_id by done. rewrite app_nil_r. naive_solver. Qed.
Lemma wrote_then fd l l' w1 w2 w3 : wrote fd l w1 w2 -> wrote fd l' w2 w3 -> wrote fd (l ++ l') w1 w3.
Proof.
  intros (o & o1 & Ho & H1 & H2 & H3 & H4) (p & o2 & Hp & G1 & G2 & G3 & G4). rewrite H1, lookup_insert_eq in Hp. injection Hp as <-.
  exists o, o2. rewrite G1, H1, insert_insert_eq, G2, H2, G3, H3. repeat split; try done.
  destruct G4 as [?|[-> ->]]; [by left|]. destruct H4 as [?|[-> ->]]; [by left|]. rewrite app_assoc. by right.
Qed.
Lemma wrote_out fd l w w' : wrote fd l w w' -> has_out fd w'.
Proof. intros (o & o' & _ & E & _). exists o'. by rewrite E, lookup_insert_eq. Qed.
Lemma wrote_bad fd l w w' : has_out fd w -> w' = fail w -> wrote fd l w w'.
Proof. intros [o Ho] ->. exists o, o. cbn. rewrite insert_id by done. naive_solver. Qed.
Lemma wrote_is_bad fd l w w' : wrote fd l w w' -> w_bad w = true -> w_bad w' = true.
Proof. intros (o & o' & _ & _ & _ & _ & [?|[-> _]]); done. Qed.

Section programs.
Context (fin : world -> Prop) (fin_bad : forall w, w_bad w = true -> fin w).
Local Notation uwp := (uwp ustep fin).

Lemma uwp_write fd l w (Q : Z -> world -> Prop) : has_out fd w ->
  (forall r w', wrote fd l w w' -> (r = Z.of_nat (length l) \/ w_bad w' = true) -> Q r w') -> uwp Q (sys (Write fd l)) w.
Proof.
  intros [o Ho] HQ. apply uwp_sys; [exists (-1), (fail w); by right|]. intros r w' [(o' & Ho' & -> & ->)|[-> ->]].
  - apply HQ; [|by left]. rewrite Ho in Ho'. injection Ho' as <-. exists o, (o ++ l). naive_solver.
  - apply HQ; [by apply wrote_bad; [exists o|]|by right].
Qed.

Lemma uwp_puts fd l w : has_out fd w -> uwp (fun _ w' => wrote fd l w w') (puts fd l) w.
Proof.
  revert w. induction l as [|c l IH]; intros w Hw; [by apply uwp_done, wrote_nil|]. cbn [puts]. apply uwp_bind. unfold putc. apply uwp_bind.
  apply uwp_write; [done|]. intros r w1 H1 _. apply uwp_done.
  eapply uwp_mono; [apply IH; by eapply wrote_out|]. intros [] w2 H2. by apply (wrote_then fd [c] l w w1).
Qed.

Lemma uwp_printf fd fmt ap l w : format (cs fmt) false ap = Some l -> has_out fd w -> uwp (fun _ w' => wrote fd l w w') (printf fd fmt ap) w.
Proof. intros E Hw. unfold printf. rewrite E. by apply uwp_puts. Qed.

(** An error message and [exit]. *)
Lemma uwp_die {R} fd fmt ap l w (Q : R -> world -> Prop) : format (cs fmt) false ap = Some l -> has_out fd w -> w_bad w = true ->
  uwp Q (printf fd fmt ap ;* exit_) w.
Proof.
  intros E Hw Hb. apply uwp_bind. eapply uwp_mono; [by apply (uwp_printf fd fmt ap l)|].
  intros [] w' Hw'. apply uwp_exit, fin_bad. by eapply wrote_is_bad.
Qed.

(** ** Reading *)

Definition reading (fd : Z) (l : list Z) (w : world) : Prop := fd <> 1 /\ w_fd w !! fd = Some (DIn l) /\ has_out 1 w.

Lemma uwp_read fd n l w (Q : option (list Z) -> world -> Prop) : 0 < n -> reading fd l w ->
  (has_out 1 (fail w) -> Q None (fail w)) ->
  (l = [] -> reading fd [] w -> Q (Some []) w) ->
  (forall l1 l2, l = l1 ++ l2 -> l1 <> [] -> Z.of_nat (length l1) <= n -> reading fd l2 (set_fd fd (DIn l2) w) -> Q (Some l1) (set_fd fd (DIn l2) w)) ->
  uwp Q (sys (Read fd n)) w.
Proof.
  intros Hn (Hne & Hl & Hw) Hbad Hend Hmore. apply uwp_sys; [exists None, (fail w); by right|].
  assert (Hw' : forall l2, has_out 1 (set_fd fd (DIn l2) w)).
  { intros l2. destruct Hw as [o Ho]. exists o. cbn. by rewrite lookup_insert_ne. }
  intros r w' [(l1 & l2 & E & Hlen & Hnil & -> & ->)|[-> ->]]; [|by apply Hbad]. rewrite Hl in E. injection E as ->.
  destruct l1 as [|c l1].
  - destruct (Hnil eq_refl) as [->|]; [|lia]. replace (set_fd fd (DIn []) w) with w; [by apply Hend|].
    destruct w; unfold set_fd; cbn in *. by rewrite insert_id.
  - apply Hmore; [done|done|done|]. repeat split; [done| |done]. cbn. by rewrite lookup_insert_eq.
Qed.

Lemma wrote_set_fd fd d l w w' : fd <> 1 -> wrote 1 l w w' -> wrote 1 l (set_fd fd d w) (set_fd fd d w').
Proof.
  intros Hne (o & o' & Ho & E & H2 & H3 & H4). exists o, o'. cbn. rewrite E. split; [by rewrite lookup_insert_ne|].
  split; [by rewrite insert_insert_ne|]. done.
Qed.
Lemma set_fd_twice fd d d' w : set_fd fd d (set_fd fd d' w) = set_fd fd d w.
Proof. unfold set_fd. cbn. by rewrite insert_insert_eq. Qed.
Lemma reading_wrote fd l t w w' : reading fd l w -> wrote 1 t w w' -> reading fd l w'.
Proof.
  intros (Hne & Hl & _) Hw. repeat split; [done| |by eapply wrote_out]. destruct Hw as (o & o' & _ & E & _). by rewrite E, lookup_insert_ne.
Qed.

(** A program that reads a stream and prints a text that [P] allows, unless a
    call failed. *)
Definition filters (P : list Z -> list Z -> Prop) (m : Z -> prog unit) : Prop := forall fd l w, reading fd l w ->
  uwp (fun _ w' => exists t r, (w_bad w' = true \/ P l t) /\ wrote 1 t (set_fd fd (DIn r) w) w') (m fd) w.

Lemma set_fd_end fd w : w_fd w !! fd = Some (DIn []) -> set_fd fd (DIn []) w = w.
Proof. intros E. destruct w; unfold set_fd; cbn in *. by rewrite insert_id. Qed.

Lemma cat_filters : filters (fun l t => t = l) cat.
Proof.
  intros fd l. remember (length l) as n eqn:Hn. revert l Hn. induction n as [n IH] using lt_wf_ind. intros l Hn w Hw.
  apply uwp_loop, uwp_bind, (uwp_read fd _ l w); [done|done| | |].
  - intros Ho. by eapply uwp_die.
  - intros -> (_ & Hl & Ho). apply uwp_done. exists [], []. split; [by right|]. rewrite set_fd_end by done. by apply wrote_nil.
  - intros l1 l2 E Hne _ Hr. destruct l1 as [|c l1]; [done|]. apply uwp_bind. apply uwp_write; [apply Hr|].
    intros r w1 H1 Hb. destruct (negb _) eqn:Er.
    + eapply uwp_die; [reflexivity|by eapply wrote_out|]. destruct Hb as [->|]; [|done]. by rewrite Z.eqb_refl in Er.
    + apply uwp_done. eapply uwp_mono; [apply (IH (length l2)) with (l := l2); [subst; rewrite length_app; cbn; lia|done|by eapply reading_wrote]|].
      intros [] w2 (t & r2 & Ht & H2). exists ((c :: l1) ++ t), r2. split; [destruct Ht as [?| -> ]; [by left|by right]|].
      eapply wrote_then; [|exact H2]. eapply (wrote_set_fd fd (DIn r2)) in H1; [|apply Hr]. by rewrite set_fd_twice in H1.
Qed.

(** The line wc prints. *)
Definition wc_text (name l : list Z) : list Z :=
  let s := foldl wc_char (Counts 0 0 0 false) l in
  Printf.printint (i32 (ct_l s)) 10 true ++ [32] ++ Printf.printint (i32 (ct_w s)) 10 true ++ [32] ++
  Printf.printint (i32 (ct_c s)) 10 true ++ [32] ++ name ++ [10].

Lemma wc_format l w c name : format (cs "%d %d %d %s\n") false [AInt l; AInt w; AInt c; AStr name] =
  Some (Printf.printint (i32 l) 10 true ++ [32] ++ Printf.printint (i32 w) 10 true ++ [32] ++ Printf.printint (i32 c) 10 true ++ [32] ++ name ++ [10]).
Proof. reflexivity. Qed.

Lemma wc_filters name : filters (fun l t => t = wc_text name l) (fun fd => wc fd name).
Proof.
  intros fd l w Hw. unfold wc. apply uwp_bind.
  eapply (uwp_mono _ _ (fun r w' => w' = set_fd fd (DIn []) w /\ has_out 1 w' /\ r = Some (foldl wc_char (Counts 0 0 0 false) l) \/
    r = None /\ w_bad w' = true /\ has_out 1 w')).
  - generalize (Counts 0 0 0 false) as s. remember (length l) as n eqn:Hn. revert l Hn w Hw. induction n as [n IH] using lt_wf_ind.
    intros l Hn w Hw s. apply uwp_loop, uwp_bind, (uwp_read fd _ l w); [done|done| | |].
    + intros Ho. apply uwp_done. by right.
    + intros -> (_ & Hl & Ho). apply uwp_done. left. by rewrite set_fd_end.
    + intros l1 l2 -> Hne _ Hr. destruct l1 as [|c l1]; [done|]. apply uwp_done.
      eapply uwp_mono; [apply (IH (length l2)) with (l := l2); [subst; rewrite length_app; cbn; lia|done|exact Hr]|].
      intros r w' H. rewrite set_fd_twice in H. by rewrite foldl_app.
  - intros r w' [(-> & Ho & ->)|(-> & Hb & Ho)]; [|by eapply uwp_die].
    eapply uwp_mono; [apply uwp_printf; [apply wc_format|done]|]. intros [] w' H. eexists _, []. split; [by right|exact H].
Qed.

(** ** The loop over the files *)

Lemma cs_cons c s : Z.of_N (Ascii.N_of_ascii c) <> 92 -> cs (String c s) = Z.of_N (Ascii.N_of_ascii c) :: cs s.
Proof. intros Hc. cbn [cs]. rewrite (proj2 (Z.eqb_neq _ _) Hc). by destruct s. Qed.

Lemma open_format (name : string) a : Forall (fun c => c <> 37) (cs name) -> (forall t, cs (name ++ t) = cs name ++ cs t) ->
  format (cs (name ++ ": cannot open %s\n")) false [AStr a] = Some (cs name ++ cs ": cannot open " ++ a ++ [10]).
Proof.
  intros Hn Hc. rewrite Hc. generalize (cs name) Hn. clear. induction 1 as [|c l Hc _ IH]; [reflexivity|].
  cbn [app format negb]. rewrite (proj2 (Z.eqb_neq _ _) Hc). cbn [app] in IH. rewrite IH. done.
Qed.

Lemma each_file_ok name (P : list Z -> list Z -> list Z -> Prop) m argv w :
  Forall (fun c => c <> 37) (cs name) -> (forall t, cs (name ++ t) = cs name ++ cs t) ->
  (forall a, filters (P a) (fun fd => m fd a)) -> has_out 1 w ->
  uwp (fun _ w' => exists ls ts, Forall2 (fun a l => w_files w !! a = Some l) argv ls /\
    (w_bad w' = true \/ Forall3 P argv ls ts) /\ wrote 1 (concat ts) w w') (each_file name m argv) w.
Proof.
  intros Hn Hc Hm. revert w. induction argv as [|a argv IH]; intros w Hw; cbn [each_file].
  { apply uwp_done. exists [], []. split; [constructor|]. split; [right; constructor|]. by apply wrote_nil. }
  apply uwp_bind, uwp_sys; [exists (-1), (fail w); by right|]. intros fd w1 [(l & Hl & _ & Hfd & Hfree & ->)|[-> ->]].
  2: { by eapply uwp_die; [apply open_format|..]. }
  replace (fd <? 0) with false by (symmetry; apply Z.ltb_ge; lia).
  assert (fd <> 1) as Hne by (intros ->; destruct Hw; congruence).
  assert (Hr : reading fd l (set_fd fd (DIn l) w)).
  { repeat split; [done|cbn; by rewrite lookup_insert_eq|]. destruct Hw as [o Ho]. exists o. cbn. by rewrite lookup_insert_ne. }
  apply uwp_bind. eapply uwp_mono; [by apply Hm|]. intros [] w2 (t & r & Ht & H2). rewrite set_fd_twice in H2.
  apply uwp_bind, uwp_sys; [by eexists _, _|]. intros r' w3 [_ ->].
  assert (H3 : wrote 1 t w (World (delete fd (w_fd w2)) (w_files w2) (w_log w2) (w_bad w2))).
  { destruct H2 as (o & o' & Ho & E & H2). exists o, o'. cbn in *. rewrite lookup_insert_ne in Ho by done. split; [done|]. split; [|done].
    rewrite E, delete_insert_ne, delete_insert_eq, delete_id; [done|done|done]. }
  eapply uwp_mono; [apply IH; by eapply wrote_out|]. intros [] w4 (ls & ts & Hls & Hts & H4). exists (l :: ls), (t :: ts).
  assert (Ef : w_files w2 = w_files w) by (by destruct H2 as (?&?&_&_&?&_)). cbn in Hls. rewrite Ef in Hls.
  split; [by constructor|]. split; [|cbn [concat]; by eapply wrote_then].
  destruct Hts as [?|Hts]; [by left|]. destruct Ht as [Hb|Ht]; [left; by eapply wrote_is_bad|right; by constructor].
Qed.

(** grep prints what the function [grep] computes from some cutting of the
    stream into reads. *)
Definition grep_text (re l t : list Z) : Prop := exists input, concat input = l /\ Forall (fun c => c <> []) input /\ grep re input = Some t.

Lemma grep_write_ok fuel re p w : has_out 1 w ->
  uwp (fun rest w' => rest = (grep_lines fuel re p).2 /\ wrote 1 (grep_lines fuel re p).1 w w') (grep_write fuel re p) w.
Proof.
  revert p w. induction fuel as [|fuel IH]; intros p w Hw; cbn [grep_write grep_lines]; [apply uwp_done; split; [done|by apply wrote_nil]|].
  destruct (cut_line p) as [[l r]|]; [|apply uwp_done; split; [done|by apply wrote_nil]].
  specialize (IH r). destruct (grep_lines fuel re r) as [out rest]. cbn [fst snd] in *. apply uwp_bind.
  apply (uwp_mono _ _ (fun _ w' => wrote 1 (if match_ re l then l ++ [NEWLINE] else []) w w')).
  - destruct (match_ re l); [|by apply uwp_done, wrote_nil]. apply uwp_bind, uwp_write; [done|]. intros z w' H _. by apply uwp_done.
  - intros [] w1 H1. eapply uwp_mono; [apply IH; by eapply wrote_out|]. intros x w2 [-> H2]. split; [done|]. by eapply wrote_then.
Qed.

Lemma grep_lines_rest fuel re p : exists k, (grep_lines fuel re p).2 = drop k p.
Proof.
  revert p. induction fuel as [|fuel IH]; intros p; cbn [grep_lines]; [by exists 0%nat|].
  destruct (cut_line p) as [[l r]|] eqn:E; [|by exists 0%nat]. apply cut_line_Some in E as [-> _].
  destruct (IH r) as [k Hk]. destruct (grep_lines fuel re r) as [out rest]. cbn in Hk |- *. exists (length l + 1 + k)%nat.
  rewrite <- drop_drop. rewrite Hk. f_equal. rewrite <- drop_drop, drop_app_length. done.
Qed.

Lemma grep_loop_ok re l buf fd w : (length buf <= 1022)%nat -> reading fd l w ->
  uwp (fun _ w' => exists t r, (w_bad w' = true \/ exists input, concat input = l /\ Forall (fun c => c <> []) input /\
    (forall fuel, (length l < fuel)%nat -> grep_loop fuel re buf input = Some t)) /\ wrote 1 t (set_fd fd (DIn r) w) w')
    (loop (grep_body re fd) buf) w.
Proof.
  remember (length l) as n eqn:Hn. revert l Hn buf w. induction n as [n IH] using lt_wf_ind. intros l Hn buf w Hb Hw.
  apply uwp_loop, uwp_bind, (uwp_read fd _ l w); [change (Z.of_nat BUFSZ) with 1024; lia|done| | |].
  - intros Ho. apply uwp_done. exists [], l. split; [by left|]. destruct Hw as (Hne & Hl & Hw).
    replace (set_fd fd (DIn l) w) with w by (destruct w; unfold set_fd; cbn in *; by rewrite insert_id). by apply wrote_bad.
  - intros -> (_ & Hl & Ho). apply uwp_done. exists [], []. rewrite set_fd_end by done. split; [|by apply wrote_nil].
    right. exists []. split; [done|]. split; [constructor|]. intros [|fuel] Hf; [lia|]. done.
  - intros l1 l2 E Hne Hlen Hr. destruct l1 as [|c l1]; [done|]. set (got := c :: l1) in *.
    apply uwp_bind. eapply uwp_mono; [apply grep_write_ok; apply Hr|]. intros rest w1 [-> H1]. apply uwp_done.
    destruct (grep_lines_rest (length (buf ++ got)) re (buf ++ got)) as [k Hk].
    destruct (grep_lines (length (buf ++ got)) re (buf ++ got)) as [out rest] eqn:Eg. cbn [fst snd] in *.
    change (Z.of_nat BUFSZ) with 1024 in Hlen.
    eapply uwp_mono; [apply (IH (length l2)) with (l := l2); [subst; rewrite length_app; cbn; lia|done| |by eapply reading_wrote]|].
    { destruct (decide _) as [|Hd]; [cbn; lia|]. rewrite Hk in Hd |- *. rewrite length_drop in *. rewrite length_app in *. lia. }
    intros [] w2 (t & r & Ht & H2). exists (out ++ t), r. split.
    + destruct Ht as [?|(input & Ei & Hi & Ht)]; [by left|right]. exists (got :: input). split; [by rewrite E, <- Ei|].
      split; [by constructor|]. intros [|fuel] Hf; [lia|]. cbn [grep_loop read_piece].
      rewrite take_ge, drop_ge by (unfold BUFSZ; lia). unfold got at 1. fold got. rewrite Eg. rewrite Ht; [done|]. subst. rewrite length_app in Hf. cbn in Hf. lia.
    + eapply wrote_then; [|exact H2]. eapply (wrote_set_fd fd (DIn r)) in H1; [|apply Hr]. by rewrite set_fd_twice in H1.
Qed.

Lemma grep_filters re : filters (grep_text re) (grep_fd re).
Proof.
  intros fd l w Hw. eapply uwp_mono; [apply (grep_loop_ok re l []); [cbn; lia|done]|].
  intros [] w' (t & r & Ht & H). exists t, r. split; [|done]. destruct Ht as [?|(input & E & Hi & Ht)]; [by left|right].
  exists input. split; [done|]. split; [done|]. apply Ht. rewrite E. lia.
Qed.

(** What the program reads: standard input, or the files it is given. *)
Definition inputs (w : world) (argv ls : list (list Z)) : Prop :=
  match argv with
  | [] => exists l, w_fd w !! 0 = Some (DIn l) /\ ls = [l]
  | _ => Forall2 (fun a l => w_files w !! a = Some l) argv ls
  end.
Definition names (argv : list (list Z)) : list (list Z) := match argv with [] => [[]] | _ => argv end.

(** Unless a call failed, descriptor 1 got the texts [P] allows for the inputs. *)
Definition printed (P : list Z -> list Z -> list Z -> Prop) (argv : list (list Z)) (w w' : world) : Prop :=
  w_bad w' = true \/ exists o ls ts, w_fd w !! 1 = Some (DOut o) /\ inputs w argv ls /\
    Forall3 P (names argv) ls ts /\ w_fd w' !! 1 = Some (DOut (o ++ concat ts)).

Definition ready (argv : list (list Z)) (w : world) : Prop :=
  has_out 1 w /\ (argv = [] -> exists l, w_fd w !! 0 = Some (DIn l)).

Lemma wrote_end l w w' o : wrote 1 l w w' -> w_fd w !! 1 = Some (DOut o) -> w_bad w' = true \/ w_fd w' !! 1 = Some (DOut (o ++ l)).
Proof.
  intros (o1 & o2 & Ho & E & _ & _ & [?|[_ ->]]) Ho'; [by left|right]. rewrite E, lookup_insert_eq. congruence.
Qed.

Lemma main_ok name P (m : Z -> list Z -> prog unit) argv w :
  Forall (fun c => c <> 37) (cs name) -> (forall t, cs (name ++ t) = cs name ++ cs t) ->
  (forall a, filters (P a) (fun fd => m fd a)) -> ready argv w -> (forall w', printed P argv w w' -> fin w') ->
  uwp (fun (_ : unit) _ => False) (match argv with [] => m 0 [] ;* exit_ | _ => each_file name m argv ;* exit_ end) w.
Proof.
  intros Hn Hc Hm [Hw Hin] Hf. pose proof Hw as [o Ho]. destruct argv as [|a argv]; apply uwp_bind.
  - destruct (Hin eq_refl) as [l Hl]. eapply uwp_mono; [apply (Hm [] 0 l); repeat split; done|].
    intros [] w' (t & r & Ht & H). apply uwp_exit, Hf. apply (wrote_end _ _ _ o) in H; [|cbn; by rewrite lookup_insert_ne].
    destruct Ht as [?|Ht]; [by left|]. destruct H as [?|H]; [by left|]. right. exists o, [l], [t]. cbn [concat]. rewrite app_nil_r.
    repeat split; [done|by eexists|by repeat constructor|done].
  - eapply uwp_mono; [by apply (each_file_ok name P m (a :: argv))|]. intros [] w' (ls & ts & Hls & Ht & H). apply uwp_exit, Hf.
    destruct Ht as [?|Ht]; [by left|]. apply (wrote_end _ _ _ o) in H as [?|H]; [by left| |done]. right. by exists o, ls, ts.
Qed.
End programs.

(** ** wc counts lines, words and characters *)

(** The words of a text: the longest pieces without white space. *)
Fixpoint tokens (l cur : list Z) : list (list Z) :=
  let word := match cur with [] => [] | _ => [cur] end in
  match l with
  | [] => word
  | c :: l => if wc_space c then word ++ tokens l [] else tokens l (cur ++ [c])
  end.
Definition lines_in (l : list Z) : nat := length (filter (fun c => c = 10) l).

Definition inw (cur : list Z) : bool := match cur with [] => false | _ => true end.

Lemma wc_fold l : forall cur a b c, 0 <= a -> 0 <= b -> 0 <= c ->
  a + Z.of_nat (length l) < 2 ^ 31 -> b + Z.of_nat (length l) < 2 ^ 31 -> c + Z.of_nat (length l) < 2 ^ 31 ->
  let s := foldl wc_char (Counts a b c (inw cur)) l in
  ct_l s = a + Z.of_nat (lines_in l) /\ ct_w s = b + Z.of_nat (length (tokens l cur)) - Z.b2z (inw cur) /\ ct_c s = c + Z.of_nat (length l).
Proof.
  induction l as [|x l IH]; intros cur a b c Ha Hb Hc La Lb Lc; cbn [foldl]; cbv zeta.
  { destruct cur; cbn; lia. }
  rewrite length_cons in *.
  assert (Hx : wc_char (Counts a b c (inw cur)) x =
    Counts (if x =? 10 then a + 1 else a) (if wc_space x || inw cur then b else b + 1) (c + 1) (negb (wc_space x))).
  { unfold wc_char. cbn [ct_l ct_w ct_c ct_inword]. destruct (x =? 10), (wc_space x), (inw cur) eqn:Ew; cbn; by rewrite ?i32_small, ?Ew by lia. }
  assert (Hl : lines_in (x :: l) = ((if (x =? 10)%Z then 1 else 0) + lines_in l)%nat).
  { unfold lines_in. rewrite filter_cons. destruct (Z.eqb_spec x 10); [by rewrite decide_True|by rewrite decide_False]. }
  rewrite Hx, Hl. cbn [tokens]. destruct (wc_space x); cbn [negb orb].
  - destruct (IH [] (if x =? 10 then a + 1 else a) b (c + 1)) as (Ea & Eb & Ec); try (destruct (x =? 10); lia).
    cbn [inw] in *. rewrite Ea, Eb, Ec, length_app. destruct cur, (x =? 10); cbn; lia.
  - assert (Ew : inw (cur ++ [x]) = true) by (by destruct cur).
    destruct (IH (cur ++ [x]) (if x =? 10 then a + 1 else a) (if inw cur then b else b + 1) (c + 1)) as (Ea & Eb & Ec);
      try (destruct (x =? 10), (inw cur); lia).
    rewrite Ew in *. rewrite Ea, Eb, Ec. destruct (x =? 10), (inw cur); cbn; lia.
Qed.

(** Number of lines, words and bytes, and the name. *)
Definition wc_line (name l : list Z) : list Z :=
  let dec (n : nat) := Printf.printint (Z.of_nat n) 10 true in
  dec (lines_in l) ++ [32] ++ dec (length (tokens l [])) ++ [32] ++ dec (length l) ++ [32] ++ name ++ [10].

Lemma tokens_length l : forall cur, (length (tokens l cur) <= length l + length cur)%nat.
Proof.
  induction l as [|c l IH]; intros cur; cbn [tokens]; [destruct cur; cbn; lia|]. destruct (wc_space c).
  - rewrite length_app. specialize (IH []). destruct cur; cbn in *; lia.
  - specialize (IH (cur ++ [c])). rewrite length_app in IH. cbn in *. lia.
Qed.
Lemma lines_length l : (lines_in l <= length l)%nat.
Proof. apply length_filter. Qed.

Lemma wc_text_line name l : Z.of_nat (length l) < 2 ^ 31 -> wc_text name l = wc_line name l.
Proof.
  intros Hl. unfold wc_text, wc_line. destruct (wc_fold l [] 0 0 0) as (Ea & Eb & Ec); try lia.
  cbn [inw Z.b2z] in Ea, Eb, Ec. cbv zeta. rewrite Ea, Eb, Ec.
  pose proof (tokens_length l []) as Ht. pose proof (lines_length l). rewrite Nat.add_0_r in Ht. rewrite !i32_small by lia.
  by rewrite Z.sub_0_r, !Z.add_0_l.
Qed.

(** ** The programs *)

(** cat.  However the kernel cuts the streams into reads, [cat] ends, and
    unless a call failed it has printed its inputs one after the other: the
    files it is given, or standard input. *)
Theorem cat_correct argv w : ready argv w ->
  uwp ustep (printed (fun _ l t => t = l) argv w) (fun _ _ => False) (cat_main argv) w.
Proof.
  intros Hw. assert (Hb : forall w', w_bad w' = true -> printed (fun _ l t => t = l) argv w w') by (by left).
  apply (main_ok _ Hb "cat" (fun _ l t => t = l) (fun fd _ => cat fd) argv); [by apply (bool_decide_unpack _)|intros t; cbv [String.append]; rewrite !cs_cons by (vm_compute; discriminate); reflexivity|intros _; by apply cat_filters|done|done].
Qed.

(** wc.  However the kernel cuts the streams into reads, [wc] ends, and
    unless a call failed it has printed, for each input of less than 2^31 bytes,
    the number of newlines, of words and of bytes, and the name. *)
Theorem wc_correct argv w : ready argv w -> (forall ls, inputs w argv ls -> Forall (fun l => Z.of_nat (length l) < 2 ^ 31) ls) ->
  uwp ustep (printed (fun a l t => t = wc_line a l) argv w) (fun _ _ => False) (wc_main argv) w.
Proof.
  intros Hw Hlen. assert (Hb : forall w', w_bad w' = true -> printed (fun a l t => t = wc_line a l) argv w w') by (by left).
  apply (main_ok _ Hb "wc" (fun a l t => t = wc_text a l) wc argv); [by apply (bool_decide_unpack _)|intros t; cbv [String.append]; rewrite !cs_cons by (vm_compute; discriminate); reflexivity|intros a; by apply wc_filters|done|].
  intros w' [?|(o & ls & ts & Ho & Hi & Ht & E)]; [by left|right]. exists o, ls, ts. repeat split; try done.
  specialize (Hlen ls Hi). clear Hi E. revert ts Ht. generalize (names argv). induction Hlen as [|l ls Hl _ IH]; intros ns ts Ht; [inversion Ht; constructor|].
  inversion Ht as [|a ns' ? ? t ts' Ha Hr]; subst. constructor; [by apply wc_text_line|by apply IH].
Qed.

(** grep prints what the function of Grep.v computes from its reads. *)
Lemma grep_main_ok re argv w : ready argv w ->
  uwp ustep (printed (fun _ => grep_text re) argv w) (fun _ _ => False) (grep_main (re :: argv)) w.
Proof.
  intros Hw. assert (Hb : forall w', w_bad w' = true -> printed (fun _ => grep_text re) argv w w') by (by left).
  apply (main_ok _ Hb "grep" (fun _ => grep_text re) (fun fd _ => grep_fd re fd) argv); [by apply (bool_decide_unpack _)|intros t; cbv [String.append]; rewrite !cs_cons by (vm_compute; discriminate); reflexivity|intros _; by apply grep_filters|done|done].
Qed.

(** The calls of a prefix of the arguments took effect. *)
Definition did (E : list Z -> effect) (argv : list (list Z)) (w w' : world) : Prop :=
  exists k, w_log w' = w_log w ++ (E <$> take k argv) /\ (w_bad w' = true \/ (length argv <= k)%nat).

Lemma each_arg_ok fin f msg E argv w : (forall a, ustep Z (f a) = logged (E a)) ->
  (forall a, exists l, format (cs msg) false [AStr a] = Some l) -> has_out 2 w ->
  uwp ustep fin (fun _ => did E argv w) (each_arg f msg argv) w.
Proof.
  intros Hf Hm. revert w. induction argv as [|a argv IH]; intros w Hw; cbn [each_arg].
  { apply uwp_done. exists 0%nat. rewrite app_nil_r. split; [done|by right]. }
  destruct (Hm a) as [lm Hl]. apply uwp_bind, uwp_sys; rewrite Hf; [exists (-1), (fail w); by right|]. intros r w1 [[-> ->]|[-> ->]].
  - change (0 <? 0) with false. cbn iota. eapply uwp_mono; [by apply IH|]. intros [] w' (k & Ek & Hk). exists (S k).
    rewrite Ek. cbn [w_log log take]. rewrite fmap_cons, <- app_assoc. split; [done|]. destruct Hk; [by left|right; cbn; lia].
  - change (-1 <? 0) with true. cbn iota. eapply uwp_mono; [by apply uwp_printf|]. intros [] w' Hw'.
    exists 0%nat. rewrite app_nil_r. split; [by destruct Hw' as (?&?&_&_&_&->&_)|left; by eapply wrote_is_bad].
Qed.

Lemma args_main_ok usage f msg E argv w : (forall a, ustep Z (f a) = logged (E a)) ->
  (exists l, format (cs usage) false [] = Some l) -> (forall a, exists l, format (cs msg) false [AStr a] = Some l) -> has_out 2 w ->
  uwp ustep (did E argv w) (fun _ _ => False) (args_main usage f msg argv) w.
Proof.
  intros Hf [lu Hu] Hm Hw. destruct argv as [|a argv]; apply uwp_bind.
  - eapply uwp_mono; [by apply uwp_printf|]. intros [] w' (o & o' & _ & _ & _ & El & _). apply uwp_exit. exists 0%nat.
    rewrite El, app_nil_r. split; [done|by right].
  - eapply uwp_mono; [by apply (each_arg_ok _ f msg E)|]. intros [] w' H. by apply uwp_exit.
Qed.

(** "a b", newline, "cc" in the file f. *)
Definition ex_file : list Z := [97; 32; 98; 10; 99; 99].
Definition ex_world : world := World {[0 := DIn []; 1 := DOut []; 2 := DOut []]} {[ [102] := ex_file ]} [] false.
Lemma ex_ready : ready [[102]] ex_world.
Proof. split; [by exists []|done]. Qed.

Lemma cat_correct_witness :
  uwp ustep (printed (fun _ l t => t = l) [[102]] ex_world) (fun _ _ => False) (cat_main [[102]]) ex_world.
Proof. apply (cat_correct [[102]] ex_world). exact ex_ready. Defined.

(** The line is "1 3 6 f". *)
Lemma wc_correct_witness : wc_line [102] ex_file = [49; 32; 51; 32; 54; 32; 102; 10] /\
  uwp ustep (printed (fun a l t => t = wc_line a l) [[102]] ex_world) (fun _ _ => False) (wc_main [[102]]) ex_world.
Proof.
  split; [vm_compute; reflexivity|]. apply (wc_correct [[102]] ex_world); [exact ex_ready|].
  intros ls H. inversion H as [|a l ? ? Hl Hr]; subst. inversion Hr; subst. injection Hl as <-. repeat constructor.
Defined.

(** rm, mkdir and mkSmallFilesdir make their call for the arguments in
    order and stop at the first one that fails: the calls that took effect are
    those of a prefix of the arguments, of all of them unless a call failed. *)
Theorem args_correct argv w : has_out 2 w ->
  uwp ustep (did EUnlink argv w) (fun _ _ => False) (rm_main argv) w /\
  uwp ustep (did EMkdir argv w) (fun _ _ => False) (mkdir_main argv) w /\
  uwp ustep (did EMkSmallFilesdir argv w) (fun _ _ => False) (mkSmallFilesdir_main argv) w.
Proof. intros Hw. repeat split; (apply args_main_ok; [done|by eexists|by eexists|done]). Qed.

Lemma args_correct_witness : uwp ustep (did EUnlink [[102]; [103]] ex_world) (fun _ _ => False) (rm_main [[102]; [103]]) ex_world.
Proof. exact (proj1 (args_correct [[102]; [103]] ex_world (ex_intro _ [] eq_refl))). Defined.
