(* ===== verification/ShRun.v ===== *)
(** * The shell runs a command (sh.c)

    [runcmd], [getcmd], [fork1], [panic] and [main] as trees of system calls,
    and the processes they create.  A process is named by its birth: the root is
    [[]] and child [n] of process [P] is [P ++ [n]]; the [m]-th pipe of [P] is
    [(P, m)].  So names do not depend on the order in which processes run.

    [leaves] reads a command line the way the user means it: which programs run,
    with which descriptors.  The theorem is that the processes of [runcmd],
    interleaved in any way, execute exactly these programs with exactly these
    descriptors. *)

From S2P Require Import Prelude CString Sysfile User Sh.
From ITree Require Import Core.ITreeDefinition.
From Stdlib Require Import Eqdep.

Definition panic_ {A} (s : string) : prog A := printf 2 "%s\n" [AStr (cs s)] ;* exit_.

Definition fork1 : prog Z :=
  let* pid := sys Fork in
  if pid =? -1 then panic_ "fork" else done_ pid.

(** The word of a span, in the buffer with the terminators. *)
Definition word (b : list Z) (s : nat * nat) : list Z := cstr (drop s.1 b).

Fixpoint runcmd (b : list Z) (c : cmd) : prog unit :=
  match c with
  | Sh.Exec argv =>
      match argv with
      | [] => exit_
      | a :: _ =>
          sys (User.Exec (word b a) (word b <$> argv)) ;*
          printf 2 "exec %s failed\n" [AStr (word b a)] ;*
          exit_
      end
  | Redir c file efile mode fd =>
      sys (Close fd) ;*
      let* r := sys (Open (word b (file, efile)) mode) in
      if r <? 0 then printf 2 "open %s failed\n" [AStr (word b (file, efile))] ;* exit_
      else runcmd b c ;* exit_
  | ListCmd lc rc =>
      let* pid := fork1 in
      (if pid =? 0 then runcmd b lc else skip) ;*
      sys Wait ;*
      runcmd b rc ;*
      exit_
  | PipeCmd lc rc =>
      let* p := sys Pipe in
      match p with
      | None => panic_ "pipe"
      | Some (p0, p1) =>
          let* pid := fork1 in
          (if pid =? 0 then
             sys (Close 1) ;* sys (Dup p1) ;* sys (Close p0) ;* sys (Close p1) ;* runcmd b lc
           else skip) ;*
          let* pid := fork1 in
          (if pid =? 0 then
             sys (Close 0) ;* sys (Dup p0) ;* sys (Close p0) ;* sys (Close p1) ;* runcmd b rc
           else skip) ;*
          sys (Close p0) ;*
          sys (Close p1) ;*
          sys Wait ;*
          sys Wait ;*
          exit_
      end
  | Back c =>
      let* pid := fork1 in
      (if pid =? 0 then runcmd b c else skip) ;*
      exit_
  end.

(** [None] where [getcmd] returns -1; the buffer is filled up with zeros. *)
Definition getcmd (nbuf : Z) : prog (option (list Z)) :=
  printf 2 "$ " [] ;*
  let* l := gets nbuf in
  let buf := l ++ replicate (Z.to_nat nbuf - length l) 0 in
  done_ (if bool_decide (head buf = Some 0) then None else Some buf).

(** [while((fd = open("console", O_RDWR)) >= 0) if(fd >= 3){ close(fd); break; }] *)
Definition open_console : prog unit :=
  loop (fun _ : unit =>
    let* fd := sys (Open (cs "console") O_RDWR) in
    if fd <? 0 then done_ (inr tt)
    else if 3 <=? fd then sys (Close fd) ;* done_ (inr tt)
    else done_ (inl tt)) tt.

(** [runcmd(parsecmd(buf))]: the parser sees the string in [buf] and its
    terminator. *)
Definition run_line (buf : list Z) : prog unit :=
  match parsecmd (cstr buf ++ [0]) (length (cstr buf)) with
  | POk (c, b) => runcmd b c
  | PPanic msg => panic_ msg
  | PFuel => undefined
  end.

Definition sh_main : prog unit :=
  open_console ;*
  loop (fun _ : unit =>
    let* r := getcmd 100 in
    match r with
    | None => exit_
    | Some buf =>
        if bool_decide (take 3 buf = cs "cd ") then
          let dir := cstr (drop 3 (<[(length (cstr buf) - 1)%nat := 0]> buf)) in
          let* r := sys (Chdir dir) in
          (if r <? 0 then printf 2 "cannot cd %s\n" [AStr dir] else skip) ;* done_ (inl tt)
        else
          let* pid := fork1 in
          (if pid =? 0 then run_line buf else skip) ;*
          sys Wait ;*
          done_ (inl tt)
    end) tt.

(** ** Descriptors *)

(** What a descriptor refers to: inherited from the shell, a file opened for a
    redirection, or an end of a pipe. *)
Inductive fdesc :=
| FGiven (i : nat)
| FFile (path : list Z) (mode : Z)
| FPipeR (p : list nat * nat)
| FPipeW (p : list nat * nat).
Abbreviation fds := (list (option fdesc)).

Fixpoint first_free {A} (l : list (option A)) : option nat :=
  match l with
  | [] => None
  | None :: _ => Some 0%nat
  | Some _ :: l => S <$> first_free l
  end.

(** It is how the kernel allocates a descriptor. *)
Lemma fd_scan_first_free (l : list (option nat)) : fd_scan l 0 = first_free l.
Proof.
  assert (H : forall i, fd_scan l i = (Nat.add i) <$> first_free l); [|rewrite H; by destruct (first_free l)].
  induction l as [|[x|] l IH]; intros i; cbn; [done| |by rewrite Nat.add_0_r].
  rewrite IH. destruct (first_free l); cbn; [f_equal; lia|done].
Qed.

Definition fd_open (T : fds) (fd : Z) : option fdesc := if fd <? 0 then None else mjoin (T !! Z.to_nat fd).
Definition fd_close (T : fds) (fd : Z) : fds := if fd <? 0 then T else <[Z.to_nat fd := None]> T.

(** ** The calls that concern one process only

    [lstep e P m T ok a T' m']: process [P], which has made [m] pipes and has
    the descriptors [T], makes the call [e], which returns [a]; [ok] is false
    where a call failed. *)
Definition lstep (A : Type) (e : callE A) (P : list nat) (m : nat) (T : fds) : bool -> A -> fds -> nat -> Prop :=
  match e in callE A return bool -> A -> fds -> nat -> Prop with
  | Close fd => fun ok a T' m' => ok = true /\ a = (if fd_open T fd then 0 else -1) /\ T' = fd_close T fd /\ m' = m
  | Dup fd => fun ok a T' m' => m' = m /\
      match fd_open T fd, first_free T with
      | Some d, Some i => ok = true /\ a = Z.of_nat i /\ T' = <[i := Some d]> T
      | _, _ => ok = false /\ a = -1 /\ T' = T
      end
  | Open path mode => fun ok a T' m' => m' = m /\
      ((exists i, first_free T = Some i /\ ok = true /\ a = Z.of_nat i /\ T' = <[i := Some (FFile path mode)]> T) \/
       (ok = false /\ a = -1 /\ T' = T))
  | Pipe => fun ok a T' m' =>
      (exists i j, first_free T = Some i /\ first_free (<[i := Some (FPipeR (P, m))]> T) = Some j /\
         ok = true /\ a = Some (Z.of_nat i, Z.of_nat j) /\
         T' = <[j := Some (FPipeW (P, m))]> (<[i := Some (FPipeR (P, m))]> T) /\ m' = S m) \/
      (ok = false /\ a = None /\ T' = T /\ m' = m)
  | Write _ _ => fun ok a T' m' => ok = true /\ T' = T /\ m' = m
  | _ => fun _ _ _ _ => False
  end.
Definition is_local {A} (e : callE A) : bool :=
  match e with Close _ | Dup _ | Open _ _ | Pipe | Write _ _ => true | _ => false end.

(** ** What a command line means *)

(** A program that runs: its process, path, arguments and descriptors. *)
Definition leaf : Type := list nat * list Z * list (list Z) * fds.

Fixpoint leaves (b : list Z) (c : cmd) (P : list nat) (n m : nat) (T : fds) : list leaf :=
  match c with
  | Sh.Exec argv => match argv with [] => [] | a :: _ => [(P, word b a, word b <$> argv, T)] end
  | Redir c file efile mode fd => leaves b c P n m (<[Z.to_nat fd := Some (FFile (word b (file, efile)) mode)]> T)
  | ListCmd lc rc => leaves b lc (P ++ [n]) 0 0 T ++ leaves b rc P (S n) m T
  | PipeCmd lc rc =>
      leaves b lc (P ++ [n]) 0 0 (<[1%nat := Some (FPipeW (P, m))]> T) ++
      leaves b rc (P ++ [S n]) 0 0 (<[0%nat := Some (FPipeR (P, m))]> T)
  | Back c => leaves b c (P ++ [n]) 0 0 T
  end.

(** ** Processes *)

Inductive status :=
| Running (t : prog unit)
| Execed
| Zombie
| Gone.

(** [pr_kids] and [pr_pipes] count the children and the pipes it made. *)
Record process := Process { pr_name : list nat; pr_kids : nat; pr_pipes : nat; pr_fds : fds; pr_status : status }.

(** All processes, the programs executed so far, and whether a call failed. *)
Record system := System { y_procs : list process; y_log : list leaf; y_failed : bool }.

Definition is_child (P : list nat) (q : process) : Prop := exists i, pr_name q = P ++ [i].

(** [wait] takes one dead child off the table. *)
Definition buried (P : list nat) (l l' : list process) : Prop := exists a b q n m T,
  l = a ++ Process (P ++ [q]) n m T Zombie :: b /\ l' = a ++ Process (P ++ [q]) n m T Gone :: b.
Definition reaps (P : list nat) (l l' : list process * list process) : Prop :=
  (buried P l.1 l'.1 /\ l'.2 = l.2) \/ (l'.1 = l.1 /\ buried P l.2 l'.2).

Inductive gstep : system -> system -> Prop :=
| g_tau l1 l2 P n m T t t' lg f : observe t = TauF t' ->
    gstep (System (l1 ++ Process P n m T (Running t) :: l2) lg f) (System (l1 ++ Process P n m T (Running t') :: l2) lg f)
| g_exit l1 l2 P n m T t k lg f : observe t = VisF Exit k ->
    gstep (System (l1 ++ Process P n m T (Running t) :: l2) lg f) (System (l1 ++ Process P n m T Zombie :: l2) lg f)
| g_local A (e : callE A) l1 l2 P n m T t k lg f ok a T' m' : observe t = VisF e k -> lstep A e P m T ok a T' m' ->
    gstep (System (l1 ++ Process P n m T (Running t) :: l2) lg f)
      (System (l1 ++ Process P n m' T' (Running (k a)) :: l2) lg (f || negb ok))
| g_exec l1 l2 P n m T t path argv k lg f : observe t = VisF (User.Exec path argv) k ->
    gstep (System (l1 ++ Process P n m T (Running t) :: l2) lg f)
      (System (l1 ++ Process P n m T Execed :: l2) (lg ++ [(P, path, argv, T)]) f)
| g_exec_fail l1 l2 P n m T t path argv k lg f : observe t = VisF (User.Exec path argv) k ->
    gstep (System (l1 ++ Process P n m T (Running t) :: l2) lg f) (System (l1 ++ Process P n m T (Running (k (-1))) :: l2) lg true)
| g_fork l1 l2 P n m T t k pid lg f : observe t = VisF Fork k -> 0 < pid ->
    gstep (System (l1 ++ Process P n m T (Running t) :: l2) lg f)
      (System (l1 ++ Process P (S n) m T (Running (k pid)) :: l2 ++ [Process (P ++ [n]) 0 0 T (Running (k 0))]) lg f)
| g_fork_fail l1 l2 P n m T t k lg f : observe t = VisF Fork k ->
    gstep (System (l1 ++ Process P n m T (Running t) :: l2) lg f) (System (l1 ++ Process P n m T (Running (k (-1))) :: l2) lg true)
| g_wait l1 l2 l1' l2' P n m T t k pid lg f : observe t = VisF Wait k -> 0 < pid -> reaps P (l1, l2) (l1', l2') ->
    gstep (System (l1 ++ Process P n m T (Running t) :: l2) lg f) (System (l1' ++ Process P n m T (Running (k pid)) :: l2') lg f)
| g_wait_none l1 l2 P n m T t k lg f : observe t = VisF Wait k ->
    Forall (fun q => is_child P q -> pr_status q = Gone) (l1 ++ l2) ->
    gstep (System (l1 ++ Process P n m T (Running t) :: l2) lg f) (System (l1 ++ Process P n m T (Running (k (-1))) :: l2) lg f)
| g_end l1 l2 P n m T lg f :
    gstep (System (l1 ++ Process P n m T Execed :: l2) lg f) (System (l1 ++ Process P n m T Zombie :: l2) lg f).

(** ** The obligations of one process

    [lwp Q t s]: a process in state [s] that runs [t] makes, with the children it
    creates, at most [l_fuel s] steps, and executes, itself or through its
    children, the programs [l_todo s] and no others; after a call that fails
    it may give up, but executes nothing else. *)
Record lst := Lst { l_name : list nat; l_kids : nat; l_pipes : nat; l_fds : fds; l_todo : list leaf; l_fuel : nat }.

Definition burn (s : lst) : lst := Lst (l_name s) (l_kids s) (l_pipes s) (l_fds s) (l_todo s) (pred (l_fuel s)).
Definition renounce (s : lst) : lst := Lst (l_name s) (l_kids s) (l_pipes s) (l_fds s) [] (pred (l_fuel s)).
Definition child (s : lst) (L : list leaf) (f : nat) : lst := Lst (l_name s ++ [l_kids s]) 0 0 (l_fds s) L f.
Definition parent (s : lst) (L : list leaf) (f : nat) : lst := Lst (l_name s) (S (l_kids s)) (l_pipes s) (l_fds s) L f.
Definition after (s : lst) (ok : bool) (T : fds) (m : nat) : lst :=
  Lst (l_name s) (l_kids s) m T (if ok then l_todo s else []) (pred (l_fuel s)).

Inductive lwp {R} (Q : R -> lst -> Prop) : prog R -> lst -> Prop :=
| lwp_RetF t r s : observe t = RetF r -> Q r s -> lwp Q t s
| lwp_TauF t t' s : observe t = TauF t' -> (0 < l_fuel s)%nat -> lwp Q t' (burn s) -> lwp Q t s
| lwp_ExitF t k s : observe t = VisF Exit k -> l_todo s = [] -> lwp Q t s
| lwp_ExecF t path argv k s : observe t = VisF (User.Exec path argv) k -> l_todo s = [(l_name s, path, argv, l_fds s)] ->
    (0 < l_fuel s)%nat -> lwp Q (k (-1)) (renounce s) -> lwp Q t s
| lwp_ForkF t k s L1 L2 f1 f2 : observe t = VisF Fork k -> l_todo s = L1 ++ L2 -> (f1 + f2 + 4 <= l_fuel s)%nat ->
    lwp Q (k 0) (child s L1 f1) -> (forall pid, 0 < pid -> lwp Q (k pid) (parent s L2 f2)) -> lwp Q (k (-1)) (renounce s) -> lwp Q t s
| lwp_WaitF t k s : observe t = VisF Wait k -> (0 < l_fuel s)%nat -> (forall r, lwp Q (k r) (burn s)) -> lwp Q t s
| lwp_LocalF A (e : callE A) t k s : observe t = VisF e k -> is_local e = true -> (0 < l_fuel s)%nat ->
    (forall ok a T m, lstep A e (l_name s) (l_pipes s) (l_fds s) ok a T m -> lwp Q (k a) (after s ok T m)) -> lwp Q t s.

Lemma lwp_mono {R} (P Q : R -> lst -> Prop) t s : lwp P t s -> (forall r s, P r s -> Q r s) -> lwp Q t s.
Proof.
  intros H HPQ. induction H; [eapply lwp_RetF|eapply lwp_TauF|eapply lwp_ExitF|eapply lwp_ExecF|eapply lwp_ForkF|eapply lwp_WaitF|eapply lwp_LocalF]; eauto.
Qed.
Lemma lwp_observe {R} (Q : R -> lst -> Prop) t u s : observe t = observe u -> lwp Q u s -> lwp Q t s.
Proof.
  intros E H. destruct H; rewrite <- E in *;
    [eapply lwp_RetF|eapply lwp_TauF|eapply lwp_ExitF|eapply lwp_ExecF|eapply lwp_ForkF|eapply lwp_WaitF|eapply lwp_LocalF]; eauto.
Qed.
Lemma lwp_bind {A R} (Q : R -> lst -> Prop) (t : prog A) (k : A -> prog R) s :
  lwp (fun a s => lwp Q (k a) s) t s -> lwp Q (ITree.bind t k) s.
Proof.
  induction 1 as [t r s E Hr|t t' s E Hf _ IH|t k' s E Ht|t p a k' s E Ht Hf _ IH|t k' s L1 L2 f1 f2 E Ht Hf _ IH1 _ IH2 _ IH3|t k' s E Hf _ IH|B e t k' s E Hl Hf _ IH].
  - eapply lwp_observe; [by rewrite observe_bind, E|exact Hr].
  - eapply lwp_TauF; [by rewrite observe_bind, E|exact Hf|exact IH].
  - eapply lwp_ExitF; [by rewrite observe_bind, E|exact Ht].
  - eapply lwp_ExecF; [by rewrite observe_bind, E|exact Ht|exact Hf|exact IH].
  - eapply lwp_ForkF; [by rewrite observe_bind, E|exact Ht|exact Hf|exact IH1|exact IH2|exact IH3].
  - eapply lwp_WaitF; [by rewrite observe_bind, E|exact Hf|exact IH].
  - eapply lwp_LocalF; [by rewrite observe_bind, E|exact Hl|exact Hf|exact IH].
Qed.
Lemma lwp_done {R} (Q : R -> lst -> Prop) r s : Q r s -> lwp Q (done_ r) s.
Proof. by apply lwp_RetF. Qed.
Lemma lwp_exit {R} (Q : R -> lst -> Prop) s : l_todo s = [] -> lwp Q exit_ s.
Proof. intros Ht. apply lwp_bind. by eapply lwp_ExitF. Qed.
Lemma lwp_local {A} (e : callE A) (Q : A -> lst -> Prop) s : is_local e = true -> (0 < l_fuel s)%nat ->
  (forall ok a T m, lstep A e (l_name s) (l_pipes s) (l_fds s) ok a T m -> Q a (after s ok T m)) -> lwp Q (sys e) s.
Proof. intros Hl Hf HQ. eapply lwp_LocalF; [reflexivity|exact Hl|exact Hf|]. intros ok a T m H. by apply lwp_done, HQ. Qed.
Lemma lwp_wait (Q : Z -> lst -> Prop) s : (0 < l_fuel s)%nat -> (forall r, Q r (burn s)) -> lwp Q (sys Wait) s.
Proof. intros Hf HQ. eapply lwp_WaitF; [reflexivity|exact Hf|]. intros r. apply lwp_done, HQ. Qed.

(** A message and [exit], after a call that failed. *)
Lemma lwp_puts {R} fd l s (Q : R -> lst -> Prop) : (length l <= l_fuel s)%nat -> l_todo s = [] -> lwp Q (puts fd l ;* exit_) s.
Proof.
  intros Hf Ht. apply lwp_bind. revert s Hf Ht. induction l as [|c l IH]; intros s Hf Ht; [by apply lwp_done, lwp_exit|]. cbn [puts length] in *.
  apply lwp_bind. unfold putc. apply lwp_bind. apply lwp_local; [done|lia|]. intros ok a T m (-> & -> & ->). apply lwp_done, IH; [cbn [after l_fuel]; lia|done].
Qed.
Lemma lwp_die {R} fd fmt ap l s (Q : R -> lst -> Prop) : format (cs fmt) false ap = Some l -> (length l <= l_fuel s)%nat -> l_todo s = [] ->
  lwp Q (printf fd fmt ap ;* exit_) s.
Proof. intros E Hf Ht. unfold printf. rewrite E. by apply lwp_puts. Qed.
Lemma lwp_panic {R} msg s (Q : R -> lst -> Prop) : (length (cs msg) < l_fuel s)%nat -> l_todo s = [] -> lwp Q (panic_ msg) s.
Proof. intros Hf. apply (lwp_die 2 _ _ (cs msg ++ [10])); [done|]. rewrite length_app. cbn. lia. Qed.

(** [if(fork1() == 0) c;] with a [c] that does not return. *)
Lemma lwp_fork {R} L1 L2 f1 f2 (c : prog unit) (k : prog R) s (Q : R -> lst -> Prop) : l_todo s = L1 ++ L2 -> (f1 + f2 + 6 <= l_fuel s)%nat ->
  lwp (fun _ _ => False) c (child s L1 f1) -> lwp Q k (parent s L2 f2) ->
  lwp Q (let* pid := fork1 in (if pid =? 0 then c else skip) ;* k) s.
Proof.
  intros Ht Hf Hc Hk. apply lwp_bind. unfold fork1. apply lwp_bind. eapply (lwp_ForkF _ _ _ _ L1 L2 f1 f2); [reflexivity|exact Ht|lia|..].
  - apply lwp_done. cbn [Z.eqb]. apply lwp_done. cbn [Z.eqb]. apply lwp_bind. eapply lwp_mono; [exact Hc|done].
  - intros pid Hp. apply lwp_done. replace (pid =? -1) with false by lia. apply lwp_done. replace (pid =? 0) with false by lia.
    apply lwp_bind. by apply lwp_done.
  - apply lwp_done. change (-1 =? -1) with true. cbn iota. apply lwp_panic; [change (length (cs "fork")) with 4%nat; cbn [renounce l_fuel]; lia|done].
Qed.

(** ** Descriptor tables *)

Lemma first_free_lookup {A} (l : list (option A)) i : first_free l = Some i ->
  l !! i = Some None /\ forall k, (k < i)%nat -> exists d, l !! k = Some (Some d).
Proof.
  revert i. induction l as [|[x|] l IH]; intros i; cbn; [done| |].
  - intros (j & Hj & ->)%fmap_Some. destruct (IH j Hj) as [H1 H2]. split; [done|]. intros [|k] Hk; [by exists x|]. apply H2. lia.
  - intros [= <-]. split; [done|]. lia.
Qed.
Lemma first_free_is {A} (l : list (option A)) i : l !! i = Some None -> (forall k, (k < i)%nat -> exists d, l !! k = Some (Some d)) ->
  first_free l = Some i.
Proof.
  revert i. induction l as [|x l IH]; intros i Hi Hk; [done|]. destruct i as [|i]; cbn in *; [by injection Hi as ->|].
  destruct (Hk 0%nat) as [d [= ->]]; [lia|]. rewrite (IH i); [done|done|]. intros k Hki. apply (Hk (S k)). lia.
Qed.

(** Standard input and output are open. *)
Definition std (T : fds) : Prop := exists d0 d1, T !! 0%nat = Some (Some d0) /\ T !! 1%nat = Some (Some d1).

Lemma std_insert T i d : std T -> std (<[i := Some d]> T).
Proof.
  intros (d0 & d1 & H0 & H1). destruct (decide (i = 0%nat)) as [->|]; [|destruct (decide (i = 1%nat)) as [->|]].
  - exists d, d1. split; [apply list_lookup_insert_eq; by eapply lookup_lt_Some|by rewrite list_lookup_insert_ne].
  - exists d0, d. split; [by rewrite list_lookup_insert_ne|apply list_lookup_insert_eq; by eapply lookup_lt_Some].
  - exists d0, d1. by rewrite !list_lookup_insert_ne.
Qed.
Lemma std_free T i : std T -> T !! i = Some None -> (2 <= i)%nat.
Proof. intros (d0 & d1 & H0 & H1) Hi. destruct i as [|[|i]]; [congruence|congruence|lia]. Qed.

(** [close(fd)] of standard input or output makes [fd] the first free one. *)
Lemma close_std T fd : std T -> (fd = 0 \/ fd = 1) ->
  fd_close T fd = <[Z.to_nat fd := None]> T /\ first_free (<[Z.to_nat fd := None]> T) = Some (Z.to_nat fd).
Proof.
  intros (d0 & d1 & H0 & H1) Hfd. split; [unfold fd_close; by replace (fd <? 0) with false by lia|].
  apply first_free_is; destruct Hfd as [->| ->]; cbn.
  - apply list_lookup_insert_eq. by eapply lookup_lt_Some.
  - apply list_lookup_insert_eq. by eapply lookup_lt_Some.
  - lia.
  - intros k Hk. assert (k = 0%nat) as -> by lia. exists d0. by rewrite list_lookup_insert_ne.
Qed.

(** What [pipe] leaves behind. *)
Definition piped (T : fds) (i j : nat) (r w : fdesc) : fds := <[j := Some w]> (<[i := Some r]> T).
Definition pipe_fds (T : fds) (i j : nat) (r : fdesc) : Prop :=
  first_free T = Some i /\ first_free (<[i := Some r]> T) = Some j.

Lemma pipe_free T i j r : std T -> pipe_fds T i j r -> (2 <= i)%nat /\ (2 <= j)%nat /\ i <> j /\ T !! i = Some None /\ T !! j = Some None.
Proof.
  intros Hs [Hi Hj]. apply first_free_lookup in Hi as [Hi _]. apply first_free_lookup in Hj as [Hj _].
  assert (Hne : i <> j).
  { intros <-. rewrite list_lookup_insert_eq in Hj by (by eapply lookup_lt_Some). done. }
  rewrite list_lookup_insert_ne in Hj by done. repeat split; try done; by eapply std_free.
Qed.

(** Closing both ends restores the table, apart from descriptor [fd], which is
    not one of them. *)
Lemma close_both T i j r w fd d : std T -> pipe_fds T i j r -> (fd < 2)%nat ->
  fd_close (fd_close (<[fd := Some d]> (<[fd := None]> (piped T i j r w))) (Z.of_nat i)) (Z.of_nat j) = <[fd := Some d]> T.
Proof.
  intros Hs Hp Hfd. destruct (pipe_free _ _ _ _ Hs Hp) as (Hi & Hj & Hne & Ti & Tj).
  unfold fd_close. replace (Z.of_nat i <? 0) with false by lia. replace (Z.of_nat j <? 0) with false by lia. rewrite !Nat2Z.id.
  rewrite list_insert_insert_eq. unfold piped. apply list_eq. intros k.
  destruct (decide (k = j)) as [->|Hkj].
  { rewrite list_lookup_insert_eq by (rewrite !length_insert; by eapply lookup_lt_Some). rewrite list_lookup_insert_ne by lia. done. }
  rewrite list_lookup_insert_ne by done. destruct (decide (k = i)) as [->|Hki].
  { rewrite list_lookup_insert_eq by (rewrite !length_insert; by eapply lookup_lt_Some). rewrite list_lookup_insert_ne by lia. done. }
  rewrite list_lookup_insert_ne by done. destruct (decide (k = fd)) as [->|Hkf].
  { destruct Hs as (d0 & d1 & H0%lookup_lt_Some & H1%lookup_lt_Some).
    rewrite !list_lookup_insert_eq by (rewrite ?length_insert; lia). done. }
  by rewrite !list_lookup_insert_ne.
Qed.

Lemma close_ends T i j r w : std T -> pipe_fds T i j r -> fd_close (fd_close (piped T i j r w) (Z.of_nat i)) (Z.of_nat j) = T.
Proof.
  intros Hs Hp. pose proof Hs as (d0 & d1 & H0 & H1). pose proof (close_both T i j r w 0 d0 Hs Hp ltac:(lia)) as E.
  destruct (pipe_free _ _ _ _ Hs Hp) as (Hi & Hj & _). rewrite (list_insert_id T 0 (Some d0)) in E by done. rewrite <- E at 2. f_equal. f_equal.
  rewrite list_insert_insert_eq. symmetry. apply list_insert_id. unfold piped. by rewrite !list_lookup_insert_ne by lia.
Qed.

(** ** runcmd *)

Definition at_fds (s : lst) (T : fds) (f : nat) : lst := Lst (l_name s) (l_kids s) (l_pipes s) T (l_todo s) f.

Lemma lwp_close fd s (Q : Z -> lst -> Prop) : (0 < l_fuel s)%nat -> (forall a, Q a (at_fds s (fd_close (l_fds s) fd) (pred (l_fuel s)))) ->
  lwp Q (sys (Close fd)) s.
Proof. intros Hf HQ. apply lwp_local; [done|done|]. intros ok a T m (-> & -> & -> & ->). apply HQ. Qed.

(** [close(fd); dup(e); close(p[0]); close(p[1]);] in a child of a pipeline. *)
Lemma lwp_plumb {R} T i j r w fd e d f (c : prog R) s (Q : R -> lst -> Prop) : std T -> pipe_fds T i j r -> l_fds s = piped T i j r w ->
  (fd < 2)%nat -> (e = i /\ d = r \/ e = j /\ d = w) -> l_fuel s = (4 + f)%nat -> lwp Q c (at_fds s (<[fd := Some d]> T) f) ->
  lwp Q (sys (Close (Z.of_nat fd)) ;* sys (Dup (Z.of_nat e)) ;* sys (Close (Z.of_nat i)) ;* sys (Close (Z.of_nat j)) ;* c) s.
Proof.
  intros Hs Hp Hf Hfd He Hn Hc. destruct (pipe_free _ _ _ _ Hs Hp) as (Hi & Hj & Hne & Ti & Tj).
  assert (Hs2 : std (piped T i j r w)) by (by do 2 apply std_insert).
  destruct (close_std (piped T i j r w) (Z.of_nat fd)) as [E1 E2]; [done|lia|]. rewrite Nat2Z.id in E1, E2.
  assert (Eo : fd_open (<[fd := None]> (piped T i j r w)) (Z.of_nat e) = Some d).
  { unfold fd_open. replace (Z.of_nat e <? 0) with false by lia. rewrite Nat2Z.id. unfold piped. destruct He as [[-> ->]|[-> ->]].
    - do 2 rewrite list_lookup_insert_ne by lia. by rewrite list_lookup_insert_eq by (by eapply lookup_lt_Some).
    - rewrite list_lookup_insert_ne by lia. by rewrite list_lookup_insert_eq by (rewrite length_insert; by eapply lookup_lt_Some). }
  apply lwp_bind, lwp_close; [lia|]. intros _. rewrite Hf, Hn, E1. apply lwp_bind, lwp_local; [done|cbn; lia|].
  intros ok a T' m [-> H]. cbn [at_fds l_fds] in H. rewrite Eo, E2 in H. destruct H as (-> & -> & ->).
  apply lwp_bind, lwp_close; [cbn; lia|]. intros _. apply lwp_bind, lwp_close; [cbn; lia|]. intros _.
  cbn [after at_fds l_fds l_name l_kids l_pipes l_todo l_fuel pred Nat.add]. rewrite close_both by done. exact Hc.
Qed.

Lemma exec_msg w : exists l, format (cs "exec %s failed\n") false [AStr w] = Some l /\ length l = (13 + length w)%nat.
Proof. eexists. split; [reflexivity|]. cbn [length]. rewrite length_app. cbn [length]. lia. Qed.
Lemma open_msg w : exists l, format (cs "open %s failed\n") false [AStr w] = Some l /\ length l = (13 + length w)%nat.
Proof. eexists. split; [reflexivity|]. cbn [length]. rewrite length_app. cbn [length]. lia. Qed.

(** A bound for the steps of a command and its children. *)
Fixpoint cost (b : list Z) (c : cmd) : nat :=
  match c with
  | Sh.Exec argv => match argv with [] => 0 | a :: _ => 14 + length (word b a) end
  | Redir c file efile _ _ => 15 + length (word b (file, efile)) + cost b c
  | ListCmd lc rc => 7 + cost b lc + cost b rc
  | PipeCmd lc rc => 25 + cost b lc + cost b rc
  | Back c => 6 + cost b c
  end.

Lemma runcmd_ok b c : redirs_std c -> forall s, std (l_fds s) -> l_todo s = leaves b c (l_name s) (l_kids s) (l_pipes s) (l_fds s) ->
  (cost b c <= l_fuel s)%nat -> lwp (fun _ _ => False) (runcmd b c) s.
Proof.
  induction c as [argv|c IH file efile mode fd|lc IHl rc IHr|lc IHl rc IHr|c IH]; intros Hr s Hs Ht Hn; cbn [runcmd leaves redirs_std cost] in *.
  - destruct argv as [|a argv]; [by apply lwp_exit|]. apply lwp_bind. eapply lwp_ExecF; [reflexivity|exact Ht|lia|]. apply lwp_done.
    destruct (exec_msg (word b a)) as (l & El & Hl). eapply lwp_die; [exact El|cbn [renounce l_fuel]; lia|done].
  - destruct Hr as [Hfd Hr]. destruct (close_std _ fd Hs Hfd) as [E1 E2]. apply lwp_bind, lwp_close; [lia|]. intros _. rewrite E1.
    apply lwp_bind, lwp_local; [done|cbn [at_fds l_fuel]; lia|]. intros ok a T m [-> [(i & Hi & -> & -> & ->)|(-> & -> & ->)]].
    + cbn [at_fds l_fds] in Hi. rewrite E2 in Hi. injection Hi as <-.
      replace (Z.of_nat (Z.to_nat fd) <? 0) with false by (symmetry; apply Z.ltb_ge, Nat2Z.is_nonneg). apply lwp_bind.
      eapply lwp_mono; [apply IH; [done|..]|done]; cbn [after at_fds l_fds l_name l_kids l_pipes l_todo l_fuel]; rewrite ?list_insert_insert_eq;
        [by apply std_insert|done|lia].
    + change (-1 <? 0) with true. cbn iota. destruct (open_msg (word b (file, efile))) as (l & El & Hl).
      eapply lwp_die; [exact El|cbn [after at_fds l_fuel]; lia|done].
  - destruct Hr as [Hl Hr]. apply lwp_bind, lwp_local; [done|lia|].
    intros ok a T m [(i & j & Hi & Hj & -> & -> & -> & ->)|(-> & -> & -> & ->)].
    2: { apply lwp_panic; [|done]. change (length (cs "pipe")) with 4%nat. cbn [after l_fuel]. lia. }
    assert (Hp : pipe_fds (l_fds s) i j (FPipeR (l_name s, l_pipes s))) by done.
    set (s1 := after s true _ _). eapply (lwp_fork _ _ (4 + cost b lc) (14 + cost b rc) _ _ s1); [exact Ht|cbn [s1 after l_fuel]; lia| |].
    + eapply (lwp_plumb (l_fds s) i j _ _ 1 j); [done|exact Hp|reflexivity|lia|by right|reflexivity|].
      apply IHl; [done|by apply std_insert|done|done].
    + eapply (lwp_fork _ [] (4 + cost b rc) 4 _ _ (parent s1 _ _)); [by rewrite app_nil_r|cbn [parent l_fuel]; lia| |].
      * eapply (lwp_plumb (l_fds s) i j _ _ 0 i); [done|exact Hp|reflexivity|lia|by left|reflexivity|].
        apply IHr; [done|by apply std_insert|done|done].
      * apply lwp_bind, lwp_close; [cbn; lia|]. intros _. apply lwp_bind, lwp_close; [cbn; lia|]. intros _.
        apply lwp_bind, lwp_wait; [cbn; lia|]. intros _. apply lwp_bind, lwp_wait; [cbn; lia|]. intros _. by apply lwp_exit.
  - destruct Hr as [Hl Hr]. eapply (lwp_fork _ _ (cost b lc) (1 + cost b rc)); [exact Ht|lia|by apply IHl|].
    apply lwp_bind, lwp_wait; [cbn; lia|]. intros _. apply lwp_bind. eapply lwp_mono; [by apply IHr|done].
  - eapply (lwp_fork _ [] (cost b c) 0); [by rewrite app_nil_r|lia|by apply IH|]. by apply lwp_exit.
Qed.

(** ** All processes together *)

(** A process with the programs it has to execute and the steps it may take. *)
Definition proc_ok (p : process) (x : list leaf * nat) : Prop :=
  match pr_status p with
  | Running t => exists f, x.2 = (f + 3)%nat /\ lwp (fun _ _ => False) t (Lst (pr_name p) (pr_kids p) (pr_pipes p) (pr_fds p) x.1 f)
  | Execed => x = ([], 2%nat)
  | Zombie => x = ([], 1%nat)
  | Gone => x = ([], 0%nat)
  end.

Definition todo (xs : list (list leaf * nat)) : list leaf := concat xs.*1.
Definition steps (xs : list (list leaf * nat)) : nat := sum_list xs.*2.

(** What was executed, what the processes still have to execute and what was
    given up make up the command line; at most [N] steps are left. *)
Definition accounted (all : list leaf) (N : nat) (g : system) : Prop := exists xs D,
  Forall2 proc_ok (y_procs g) xs /\ all ≡ₚ y_log g ++ todo xs ++ D /\ (y_failed g = false -> D = []) /\ (steps xs <= N)%nat.

(** The event a tree stands at is unique. *)
Ltac same_event :=
  repeat match goal with
  | H1 : observe ?t = _, H2 : observe ?t = _ |- _ => rewrite H1 in H2; inversion H2; clear H2; subst
  | H : existT _ _ = existT _ _ |- _ => apply EqdepTheory.inj_pair2 in H; subst
  end.

Local Notation never := (fun (_ : unit) (_ : lst) => False).

Lemma lwp_tau_inv t t' s : observe t = TauF t' -> lwp never t s -> (0 < l_fuel s)%nat /\ lwp never t' (burn s).
Proof. intros E H. destruct H; same_event; done. Qed.
Lemma lwp_exit_inv t k s : observe t = VisF Exit k -> lwp never t s -> l_todo s = [].
Proof. intros E H. destruct H; same_event; done. Qed.
Lemma lwp_exec_inv t path argv k s : observe t = VisF (User.Exec path argv) k -> lwp never t s ->
  l_todo s = [(l_name s, path, argv, l_fds s)] /\ (0 < l_fuel s)%nat /\ lwp never (k (-1)) (renounce s).
Proof. intros E H. destruct H; same_event; done. Qed.
Lemma lwp_fork_inv t k s : observe t = VisF Fork k -> lwp never t s -> exists L1 L2 f1 f2, l_todo s = L1 ++ L2 /\ (f1 + f2 + 4 <= l_fuel s)%nat /\
  lwp never (k 0) (child s L1 f1) /\ (forall pid, 0 < pid -> lwp never (k pid) (parent s L2 f2)) /\ lwp never (k (-1)) (renounce s).
Proof. intros E H. destruct H; same_event; try done. eauto 12. Qed.
Lemma lwp_wait_inv t k s r : observe t = VisF Wait k -> lwp never t s -> (0 < l_fuel s)%nat /\ lwp never (k r) (burn s).
Proof. intros E H. destruct H; same_event; done. Qed.
Lemma lwp_local_inv A (e : callE A) t k s ok a T m : observe t = VisF e k -> lstep A e (l_name s) (l_pipes s) (l_fds s) ok a T m ->
  lwp never t s -> (0 < l_fuel s)%nat /\ lwp never (k a) (after s ok T m).
Proof. intros E Hl H. destruct H; same_event; try done. by auto. Qed.

Lemma perm_out {A} (l a x b d : list A) : l ++ (a ++ x ++ b) ++ d ≡ₚ (l ++ x) ++ a ++ b ++ d.
Proof. rewrite <- !app_assoc. apply Permutation_app_head. apply Permutation_app_swap_app. Qed.
Lemma perm_in {A} (l x p e a b d : list A) : (l ++ x ++ p ++ e) ++ a ++ b ++ d ≡ₚ l ++ (a ++ x ++ b ++ p) ++ e ++ d.
Proof.
  rewrite <- !app_assoc. apply Permutation_app_head. rewrite (Permutation_app_swap_app a x). apply Permutation_app_head.
  rewrite (app_assoc p e), (app_assoc a b (p ++ _)), (app_assoc a b d), (app_assoc p e d). apply Permutation_app_swap_app.
Qed.
Lemma todo_mid xs x ys : todo (xs ++ x :: ys) = todo xs ++ x.1 ++ todo ys.
Proof. unfold todo. rewrite fmap_app, concat_app. done. Qed.
Lemma todo_app xs ys : todo (xs ++ ys) = todo xs ++ todo ys.
Proof. unfold todo. by rewrite fmap_app, concat_app. Qed.
Lemma steps_app xs ys : steps (xs ++ ys) = (steps xs + steps ys)%nat.
Proof. unfold steps. by rewrite fmap_app, sum_list_with_app. Qed.

(** One process takes a step and perhaps gets a child. *)
Lemma accounted_one all N l1 l2 p p' ps lg lg' f f' :
  (forall x, proc_ok p x -> exists x' xps D, proc_ok p' x' /\ Forall2 proc_ok ps xps /\
     lg ++ x.1 ≡ₚ lg' ++ x'.1 ++ todo xps ++ D /\ (f' = false -> D = []) /\ (x'.2 + steps xps < x.2)%nat) -> (f' = false -> f = false) ->
  accounted all (S N) (System (l1 ++ p :: l2) lg f) -> accounted all N (System (l1 ++ p' :: l2 ++ ps) lg' f').
Proof.
  intros Hp Hf (xs & D & Hxs & Hall & HD & Hn). cbn [y_procs y_log y_failed] in *.
  apply Forall2_app_inv_l in Hxs as (xs1 & xs' & H1 & H2 & ->). inversion H2 as [|? x ? xs2 HL H2']; subst.
  destruct (Hp x HL) as (x' & xps & D' & HL' & Hps & HP & HD' & Hn'). exists (xs1 ++ x' :: xs2 ++ xps), (D' ++ D).
  cbn [y_procs y_log y_failed]. split; [|split; [|split]].
  - apply Forall2_app; [done|]. constructor; [done|]. by apply Forall2_app.
  - rewrite Hall, !todo_mid, todo_app, perm_out, HP. apply perm_in.
  - intros Hf'. rewrite HD, HD' by auto. done.
  - rewrite steps_app in *. change (steps (x :: xs2)) with (x.2 + steps xs2)%nat in Hn. change (steps (x' :: xs2 ++ xps)) with (x'.2 + steps (xs2 ++ xps))%nat.
    rewrite steps_app. lia.
Qed.

(** The same without a child; what the process may have to give up is [D]. *)
Lemma accounted_same all N l1 l2 p p' lg f f' : (f' = false -> f = false) ->
  (forall x, proc_ok p x -> exists x' D, proc_ok p' x' /\ x.1 = x'.1 ++ D /\ (f' = false -> D = []) /\ (x'.2 < x.2)%nat) ->
  accounted all (S N) (System (l1 ++ p :: l2) lg f) -> accounted all N (System (l1 ++ p' :: l2) lg f').
Proof.
  intros Hf Hp H. rewrite <- (app_nil_r l2). eapply accounted_one; [|exact Hf|exact H].
  intros x Hx. destruct (Hp x Hx) as (x' & D & Hx' & E & HD & Hn). exists x', [], D. split; [done|]. split; [constructor|].
  split; [by rewrite E|]. split; [done|]. change (steps []) with 0%nat. lia.
Qed.

Lemma buried_ok P l l' xs : buried P l l' -> Forall2 proc_ok l xs -> exists ys, Forall2 proc_ok l' ys /\ todo ys = todo xs /\ (steps ys <= steps xs)%nat.
Proof.
  intros (a & b & q & n & m & T & -> & ->) H. apply Forall2_app_inv_l in H as (xs1 & xs' & H1 & H2 & ->).
  inversion H2 as [|? x ? xs2 Hx H2']; subst. unfold proc_ok in Hx. cbn in Hx. subst x.
  exists (xs1 ++ ([], 0%nat) :: xs2). split; [apply Forall2_app; [done|by constructor]|]. rewrite !todo_mid, !steps_app. split; [done|]. cbn. lia.
Qed.

Lemma accounted_reaps all N P l1 l2 l1' l2' p lg f : reaps P (l1, l2) (l1', l2') ->
  accounted all N (System (l1 ++ p :: l2) lg f) -> accounted all N (System (l1' ++ p :: l2') lg f).
Proof.
  intros Hr (xs & D & Hxs & Hall & HD & Hn). cbn [y_procs y_log y_failed] in *.
  apply Forall2_app_inv_l in Hxs as (xs1 & xs' & H1 & H2 & ->). inversion H2 as [|? x ? xs2 HL H2']; subst.
  rewrite todo_mid in Hall. rewrite steps_app in Hn. change (steps (x :: xs2)) with (x.2 + steps xs2)%nat in Hn.
  destruct Hr as [[Hb E]|[E Hb]]; cbn [fst snd] in *; subst.
  - destruct (buried_ok _ _ _ _ Hb H1) as (ys & Hy & Et & Hs). exists (ys ++ x :: xs2), D. cbn [y_procs y_log y_failed].
    split; [apply Forall2_app; [done|by constructor]|]. rewrite todo_mid, Et. split; [done|]. split; [done|].
    rewrite steps_app. change (steps (x :: xs2)) with (x.2 + steps xs2)%nat. lia.
  - destruct (buried_ok _ _ _ _ Hb H2') as (ys & Hy & Et & Hs). exists (xs1 ++ x :: ys), D. cbn [y_procs y_log y_failed].
    split; [apply Forall2_app; [done|by constructor]|]. rewrite todo_mid, Et. split; [done|]. split; [done|].
    rewrite steps_app. change (steps (x :: ys)) with (x.2 + steps ys)%nat. lia.
Qed.

(** A running process that goes on with the same obligations. *)
Lemma proc_ok_next P n m T t n' m' T' t' x (ok : bool) : proc_ok (Process P n m T (Running t)) x ->
  (forall f, lwp never t (Lst P n m T x.1 f) -> (0 < f)%nat /\ lwp never t' (Lst P n' m' T' (if ok then x.1 else []) (pred f))) ->
  exists x' D, proc_ok (Process P n' m' T' (Running t')) x' /\ x.1 = x'.1 ++ D /\ (ok = true -> D = []) /\ (x'.2 < x.2)%nat.
Proof.
  intros (f & Ef & Hl) Hk. destruct (Hk f Hl) as [Hf Hl']. exists (if ok then x.1 else [], (pred f + 3)%nat), (if ok then [] else x.1).
  split; [by exists (pred f)|]. split; [destruct ok; cbn; by rewrite ?app_nil_r|]. split; [by intros ->|]. cbn [snd]. lia.
Qed.

Lemma accounted_step all N g g' : accounted all (S N) g -> gstep g g' -> accounted all N g'.
Proof.
  intros Ha Hs. destruct Hs as [l1 l2 P n m T t t' lg f E|l1 l2 P n m T t k lg f E|A e l1 l2 P n m T t k lg f ok a T' m' E Hl|l1 l2 P n m T t path argv k lg f E
    |l1 l2 P n m T t path argv k lg f E|l1 l2 P n m T t k pid lg f E Hpid|l1 l2 P n m T t k lg f E|l1 l2 l1' l2' P n m T t k pid lg f E Hpid Hr
    |l1 l2 P n m T t k lg f E Hk|l1 l2 P n m T lg f].
  - eapply accounted_same; [..|exact Ha]; [done|]. intros x Hx. destruct (proc_ok_next P n m T t n m T t' x true Hx) as (x' & D & H); [intros f0; by apply lwp_tau_inv|].
    exists x', D. naive_solver.
  - eapply accounted_same; [..|exact Ha]; [done|]. intros x (f0 & Ef & Hl). apply (lwp_exit_inv _ _ _ E) in Hl. cbn in Hl.
    exists ([], 1%nat), []. cbn. rewrite Hl. repeat split; lia || done.
  - eapply accounted_same; [..|exact Ha]; [by destruct f|]. intros x Hx.
    destruct (proc_ok_next P n m T t n m' T' (k a) x ok Hx) as (x' & D & H1 & H2 & H3 & H4); [intros f0 H0; exact (lwp_local_inv A e t k (Lst P n m T x.1 f0) ok a T' m' E Hl H0)|].
    exists x', D. repeat split; try done. destruct ok; [by auto|by destruct f].
  - rewrite <- (app_nil_r l2). eapply accounted_one; [..|exact Ha]; [|done]. intros x (f0 & Ef & Hx). apply (lwp_exec_inv _ _ _ _ _ E) in Hx as (Ex & _).
    cbn in Ex. exists ([], 2%nat), [], []. split; [done|]. split; [constructor|]. rewrite Ex. cbn. rewrite app_nil_r. repeat split; lia || done.
  - eapply accounted_same; [..|exact Ha]; [done|]. intros x Hx.
    destruct (proc_ok_next P n m T t n m T (k (-1)) x false Hx) as (x' & D & H1 & H2 & _ & H4); [intros f0 H0; apply (lwp_exec_inv _ _ _ _ _ E) in H0; by destruct H0|].
    exists x', D. done.
  - eapply accounted_one; [..|exact Ha]; [|done]. intros x (f0 & Ef & Hx). apply (lwp_fork_inv _ _ _ E) in Hx as (L1 & L2 & f1 & f2 & Ex & Hf & H1 & H2 & _).
    cbn [l_todo l_fuel] in *. exists (L2, (f2 + 3)%nat), [(L1, (f1 + 3)%nat)], []. split; [exists f2; split; [done|by apply H2]|].
    split; [apply Forall2_cons_2; [by exists f1|apply Forall2_nil_2]|]. rewrite Ex. unfold todo, steps. cbn. rewrite !app_nil_r.
    split; [by rewrite (Permutation_app_comm L1)|]. split; [done|lia].
  - eapply accounted_same; [..|exact Ha]; [done|]. intros x Hx.
    destruct (proc_ok_next P n m T t n m T (k (-1)) x false Hx) as (x' & D & H1 & H2 & _ & H4); [intros f0 H0; apply (lwp_fork_inv _ _ _ E) in H0 as (?&?&?&?&_&Hf&_&_&H0); cbn [l_fuel] in Hf; split; [lia|exact H0]|].
    exists x', D. done.
  - eapply accounted_reaps; [done|]. eapply accounted_same; [..|exact Ha]; [done|]. intros x Hx.
    destruct (proc_ok_next P n m T t n m T (k pid) x true Hx) as (x' & D & H); [intros f0; exact (lwp_wait_inv t k (Lst P n m T x.1 f0) pid E)|]. exists x', D. naive_solver.
  - eapply accounted_same; [..|exact Ha]; [done|]. intros x Hx.
    destruct (proc_ok_next P n m T t n m T (k (-1)) x true Hx) as (x' & D & H); [intros f0; exact (lwp_wait_inv t k (Lst P n m T x.1 f0) (-1) E)|]. exists x', D. naive_solver.
  - eapply accounted_same; [..|exact Ha]; [done|]. intros x Hx. cbn in Hx. subst x. exists ([], 1%nat), []. cbn. repeat split; lia || done.
Qed.

(** ** Progress *)

Lemma lstep_total A (e : callE A) P m T : is_local e = true -> exists ok a T' m', lstep A e P m T ok a T' m'.
Proof.
  destruct e; intros [=]; cbn [lstep].
  - exists false, None, T, m. by right.
  - destruct (fd_open T fd) as [d|], (first_free T) as [i|]; [by eexists _, _, _, _|by exists false, (-1), T, m..].
  - exists false, (-1), T, m. split; [done|by right].
  - by exists true, 0, T, m.
  - by eexists _, _, _, _.
Qed.

(** A running process can go on, unless it waits. *)
Lemma running_steps l1 l2 P n m T t L f lg fl : lwp never t (Lst P n m T L f) ->
  (exists k, observe t = VisF Wait k) \/ exists g', gstep (System (l1 ++ Process P n m T (Running t) :: l2) lg fl) g'.
Proof.
  intros H. inversion H as [? ? ? E Hr|? ? ? E|? ? ? E|? ? ? ? ? E|? ? ? ? ? ? ? E|? ? ? E|A e ? k ? E Hl]; subst; [done|right|right|right|right|left|right].
  - eexists. by eapply g_tau.
  - eexists. by eapply g_exit.
  - eexists. by eapply g_exec.
  - eexists. by eapply g_fork_fail.
  - by eexists.
  - destruct (lstep_total A e P m T Hl) as (ok & a & T' & m' & Hs). eexists. by eapply g_local.
Qed.

Definition finished (p : process) : Prop := pr_status p = Zombie \/ pr_status p = Gone.

#[local] Instance is_child_dec P q : Decision (is_child P q).
Proof.
  destruct (last (pr_name q)) as [i|] eqn:E.
  - destruct (decide (pr_name q = P ++ [i])) as [H|H]; [left; by exists i|right]. intros [j Hj]. rewrite Hj, last_snoc in E. congruence.
  - right. intros [j Hj]. rewrite Hj, last_snoc in E. done.
Defined.
#[local] Instance gone_dec q : Decision (pr_status q = Gone).
Proof. destruct (pr_status q); by (left + right). Defined.

(** A process that waits can go on, or a child of it still runs. *)
Lemma waiting_steps l1 l2 P n m T t k lg fl : observe t = VisF Wait k ->
  (exists g', gstep (System (l1 ++ Process P n m T (Running t) :: l2) lg fl) g') \/
  exists q u, q ∈ l1 ++ l2 /\ is_child P q /\ pr_status q = Running u.
Proof.
  intros E. destruct (decide (Exists (fun q => is_child P q /\ pr_status q <> Gone) (l1 ++ l2))) as [He|Hn].
  - apply Exists_exists in He as (q & Hq & Hc & Hg). pose proof Hc as [i Hi]. destruct q as [Q qn qm QT st]. cbn [pr_name pr_status] in *. subst Q.
    destruct st as [u| | |]; [right; by eexists _, u|left|left|done].
    + assert (Hq' : Process (P ++ [i]) qn qm QT Execed ∈ l1 ++ Process P n m T (Running t) :: l2) by (set_solver).
      apply list_elem_of_split in Hq' as (a & b & ->). eexists. apply g_end.
    + apply elem_of_app in Hq as [Hq|Hq]; apply list_elem_of_split in Hq as (a & b & ->); eexists.
      * eapply (g_wait _ l2 (a ++ Process (P ++ [i]) qn qm QT Gone :: b) l2 _ _ _ _ _ _ 1); [exact E|lia|]. left. split; [exists a, b, i, qn, qm, QT; split; reflexivity|done].
      * eapply (g_wait l1 _ l1 (a ++ Process (P ++ [i]) qn qm QT Gone :: b) _ _ _ _ _ _ 1); [exact E|lia|]. right. split; [done|exists a, b, i, qn, qm, QT; split; reflexivity].
  - left. eexists. eapply g_wait_none; [exact E|]. apply Forall_forall. intros q Hq Hc. destruct (decide (pr_status q = Gone)); [done|].
    exfalso. apply Hn, Exists_exists. by exists q.
Qed.

Lemma progress_from d : forall l lg fl all N p t, accounted all N (System l lg fl) -> p ∈ l -> pr_status p = Running t ->
  (forall q, q ∈ l -> (length (pr_name q) <= length (pr_name p) + d)%nat) -> exists g', gstep (System l lg fl) g'.
Proof.
  induction d as [|d IH]; intros l lg fl all N p t Ha Hp Ht Hd; pose proof Ha as (xs & D & Hxs & _); cbn [y_procs] in Hxs;
    pose proof Hp as (l1 & l2 & ->)%list_elem_of_split; apply Forall2_app_inv_l in Hxs as (xs1 & xs' & _ & H2 & _);
    inversion H2 as [|? x ? xs2 Hx _]; subst; destruct p as [P n m T st]; cbn [pr_status pr_name] in *; subst st;
    destruct Hx as (f & _ & Hl); (destruct (running_steps l1 l2 _ _ _ _ _ _ _ lg fl Hl) as [[k E]|?]; [|done]);
    (destruct (waiting_steps l1 l2 P n m T t k lg fl E) as [?|(q & u & Hq & [i Hi] & Hu)]; [done|]).
  - assert (q ∈ l1 ++ Process P n m T (Running t) :: l2) as Hq' by set_solver. specialize (Hd q Hq'). rewrite Hi, length_app in Hd. cbn in Hd. lia.
  - eapply (IH _ lg fl all N q u Ha); [set_solver|done|]. intros q' Hq'. specialize (Hd q' Hq'). rewrite Hi, length_app. cbn. lia.
Qed.

(** ** A command line *)

Definition shell_start (line : list Z) (T : fds) : system := System [Process [] 0 0 T (Running (run_line line))] [] false.

(** The programs a line asks for, and a bound for the steps of all processes. *)
Definition line_leaves (line : list Z) (T : fds) : list leaf :=
  match parsecmd (cstr line ++ [0]) (length (cstr line)) with POk (c, b) => leaves b c [] 0 0 T | _ => [] end.
Definition line_cost (line : list Z) : nat :=
  match parsecmd (cstr line ++ [0]) (length (cstr line)) with POk (c, b) => cost b c | PPanic msg => S (length (cs msg)) | PFuel => 0 end.

Lemma cstr_nonzero l : Forall (fun c => c <> 0) (cstr l).
Proof. induction l as [|c l IH]; cbn; [constructor|]. destruct (Z.eqb_spec c 0); [constructor|by constructor]. Qed.
Lemma cstr_input_ok l : input_ok (cstr l ++ [0]) (length (cstr l)).
Proof.
  split; [rewrite length_app; cbn; lia|]. assert (Ha : forall i, at_ (cstr l ++ [0]) i = default 0 ((cstr l ++ [0]) !! i)).
  { intros i. unfold at_, Kstring.nthZ. rewrite Nat2Z.id, nth_lookup. done. }
  split; [rewrite Ha, lookup_app_r, Nat.sub_diag by lia; done|]. intros i Hi. rewrite Ha, lookup_app_l by done.
  destruct (lookup_lt_is_Some_2 (cstr l) i Hi) as [c Hc]. rewrite Hc. exact (Forall_lookup_1 _ _ _ _ (cstr_nonzero l) Hc).
Qed.

Lemma start_accounted line T : std T -> accounted (line_leaves line T) (line_cost line + 3) (shell_start line T).
Proof.
  intros Hs. assert (H : lwp never (run_line line) (Lst [] 0 0 T (line_leaves line T) (line_cost line))).
  { unfold run_line, line_leaves, line_cost. pose proof (parsecmd_ok _ _ (cstr_input_ok line)) as Hp.
    destruct (parsecmd _ _) as [[c b]|msg|]; [|by apply lwp_panic; [cbn; lia|]|done].
    destruct Hp as [(_ & _ & Hr) _]. by apply runcmd_ok. }
  exists [(line_leaves line T, (line_cost line + 3)%nat)], []. split; [apply Forall2_cons_2; [by exists (line_cost line)|apply Forall2_nil_2]|].
  unfold todo, steps. cbn. rewrite !app_nil_r. split; [done|]. split; [done|lia].
Qed.

Lemma accounted_runs all n : forall N g g', accounted all (n + N) g -> nsteps gstep n g g' -> accounted all N g'.
Proof.
  induction n as [|n IH]; intros N g g' Ha Hn; inversion Hn as [|? ? g1 ? H1 H2]; subst; [done|].
  eapply IH; [|exact H2]. by eapply accounted_step.
Qed.
Lemma alive_steps l1 l2 p xs : Forall2 proc_ok (l1 ++ p :: l2) xs -> ~ finished p -> (0 < steps xs)%nat.
Proof.
  intros H Hp. apply Forall2_app_inv_l in H as (xs1 & xs' & _ & H & ->). inversion H as [|? x ? xs2 Hx _]; subst.
  rewrite steps_app. change (steps (x :: xs2)) with (x.2 + steps xs2)%nat. unfold proc_ok in Hx. unfold finished in Hp.
  destruct (pr_status p); [destruct Hx as (f & E & _); lia|subst x; cbn; lia|naive_solver..].
Qed.
Lemma accounted_zero all g g' : accounted all 0 g -> ~ gstep g g'.
Proof.
  intros (xs & D & Hxs & _ & _ & H0) Hs. enough (0 < steps xs)%nat by lia.
  destruct Hs; (eapply alive_steps; [exact Hxs|intros [[=]|[=]]]).
Qed.
Lemma accounted_bound all n : forall N g g', accounted all N g -> nsteps gstep n g g' -> (n <= N)%nat.
Proof.
  induction n as [|n IH]; intros N g g' Ha Hn; inversion Hn as [|? ? g1 ? H1 H2]; subst; [lia|]. destruct N as [|N].
  - by apply accounted_zero with (g' := g1) in Ha.
  - apply le_n_S. eapply IH; [|exact H2]. by eapply accounted_step.
Qed.

Lemma accounted_progress all N g : accounted all N g -> Forall finished (y_procs g) \/ exists g', gstep g g'.
Proof.
  intros Ha. destruct g as [l lg fl]. cbn [y_procs]. assert (Hc : Forall finished l \/ exists p, p ∈ l /\ ~ finished p).
  { clear Ha. induction l as [|p l IH]; [by left|]. assert (Hp : finished p \/ ~ finished p) by (unfold finished; destruct (pr_status p); naive_solver).
    destruct Hp as [Hp|Hp]; [|right; exists p; set_solver]. destruct IH as [IH|(q & Hq & Hf)]; [left; by constructor|right; exists q; set_solver]. }
  destruct Hc as [Hc|(p & Hp & Hf)]; [by left|right]. destruct (pr_status p) as [t| | |] eqn:Ht; [|..|by destruct Hf; [left + right]].
  - eapply (progress_from (max_list (length ∘ pr_name <$> l)) l lg fl all N p t Ha Hp Ht). intros q Hq.
    assert (Hm : length (pr_name q) ∈ length ∘ pr_name <$> l) by (apply list_elem_of_fmap; by exists q).
    apply max_list_elem_of_le in Hm. lia.
  - destruct p as [P n m T st]. cbn in Ht. subst st. apply list_elem_of_split in Hp as (a & b & ->). eexists. apply g_end.
  - by destruct Hf; left.
Qed.

(** C12: the shell runs a command line.  The process that [main] forks for a
    line, with standard input and output open, and all processes it creates,
    interleaved in any way: (1) together they take a bounded number of steps;
    (2) they are never stuck, so they end; (3) every program they execute is one
    the line asks for, with the arguments and the descriptors it asks for,
    that is the redirections and the ends of the pipes and no other descriptor
    of a pipe, and none is executed twice; (4) when all have ended and no call
    failed, every program of the line was executed. *)
Theorem shell_runs_line line T n g : std T -> nsteps gstep n (shell_start line T) g ->
  (n <= line_cost line + 3)%nat /\
  (Forall finished (y_procs g) \/ exists g', gstep g g') /\
  (exists rest, line_leaves line T ≡ₚ y_log g ++ rest) /\
  (Forall finished (y_procs g) -> y_failed g = false -> line_leaves line T ≡ₚ y_log g).
Proof.
  intros Hs Hn. assert (Ha := start_accounted line T Hs). assert (Hb := accounted_bound _ _ _ _ _ Ha Hn). split; [done|].
  replace (line_cost line + 3)%nat with (n + (line_cost line + 3 - n))%nat in Ha by lia.
  apply (accounted_runs _ _ _ _ _ Ha) in Hn as Hg. split; [by eapply accounted_progress|].
  destruct Hg as (xs & D & Hxs & Hall & HD & _). split; [by eexists|]. intros Hf Hok. rewrite Hall, HD by done.
  replace (todo xs) with (@nil leaf); [by rewrite !app_nil_r|]. clear Hall. induction Hxs as [|p x l xs Hx _ IH]; [done|].
  inversion_clear Hf as [|? ? Hp Hl]. unfold todo. cbn. change (concat xs.*1) with (todo xs). rewrite <- IH by done.
  unfold proc_ok in Hx. destruct Hp as [E|E]; rewrite E in Hx; by subst x.
Qed.

Definition tty : fds := [Some (FGiven 0); Some (FGiven 1); Some (FGiven 2)] ++ replicate 13 None.

(** "ls>f|wc": two processes; the redirection of the first overrides the pipe. *)
Lemma pipeline_leaves : line_leaves (cs "ls>f|wc\n") tty =
  [([0%nat], cs "ls", [cs "ls"], <[1%nat := Some (FFile (cs "f") O_WR_CREATE)]> tty);
   ([1%nat], cs "wc", [cs "wc"], <[0%nat := Some (FPipeR ([], 0%nat))]> tty)].
Proof. vm_compute. reflexivity. Qed.

Definition ls_leaf : leaf := ([], cs "ls", [cs "ls"], tty).
Lemma ls_run : nsteps gstep 2 (shell_start (cs "ls\n") tty) (System [Process [] 0 0 tty Zombie] [ls_leaf] false).
Proof.
  eapply nsteps_l; [eapply (g_exec [] []); vm_compute; reflexivity|]. eapply nsteps_l; [apply (g_end [] [])|apply nsteps_O].
Qed.
Lemma shell_runs_line_witness : std tty /\ (2 <= line_cost (cs "ls\n") + 3)%nat /\ line_leaves (cs "ls\n") tty ≡ₚ [ls_leaf].
Proof.
  assert (Hs : std tty) by (by eexists _, _). split; [exact Hs|].
  destruct (shell_runs_line _ _ _ _ Hs ls_run) as (Hb & _ & _ & Hl). split; [exact Hb|].
  apply Hl; [|reflexivity]. constructor; [left; reflexivity|constructor].
Defined.
